(* ===== verification/_CoqProject ===== *)
-Q . S2P
Prelude.v
Errors.v
Core.v
Json.v
Base64.v
K8s.v
Status.v
GatewayClient.v
Resolver.v
State.v
Converter.v
Objects.v
Binder.v
K8sSecret.v
GatewayValidator.v
RouteValidator.v
ConfigEntries.v
HTTPAdapter.v
SyncAdapter.v
Builder.v
ClassConfig.v
CoreCodec.v
Store.v
Provenance.v
Secrets.v
Sds.v
Intentions.v
IntentionsLoop.v
ApiServer.v
Cluster.v
Deployer.v
GatewayClasses.v
Statuses.v
Manager.v
JsonCode.v
Codec.v
Events.v
Controllers.v
Watches.v
SecretClients.v
JsonSyntax.v
CertManager.v
Bootstrap.v
Registration.v
Connection.v
Exec.v
Flags.v
Commands.v
SdsServer.v
Server.v
GoFragment.v
Generator.v
StatusesYaml.v
GeneratedStatuses.v
ErrorGenerator.v
DeepCopy.v
Logging.v
Cli.v
