(* ===== verification/Prelude.v ===== *)
(** * Consul API Gateway: a verification development

    The program is a Kubernetes controller that implements the Gateway API on
    top of Consul.  Its core is a pipeline:

    - the reconcilers read gateways and routes from the API server through a
      client wrapper, validate them (listener conflicts, TLS, pods, addresses;
      backend references, permissions, resolution to Consul services) and put
      the result in a state next to the Kubernetes object;
    - the store persists gateways and routes, binds routes to listeners
      whenever one of them changes, and then syncs the affected gateways and
      publishes their statuses;
    - the sync adapter turns a resolved gateway into Consul configuration
      entries (ingress gateway, routers, splitters, service defaults), writes
      them and deletes what is no longer wanted, and the intentions reconciler
      keeps the access rights of the gateway up to date;
    - the controllers turn watch events into requests and reconcile them
      through a manager, which feeds the store; when a gateway was synced the
      status updaters deploy its proxies and write the statuses back;
    - the SDS server hands Envoy the TLS certificates its gateway references,
      fetched from Kubernetes or Vault; the process keeps its own certificates
      and its registration with Consul alive in the background.

    ** Files

    Each file models the Go files named in its own header; definitions keep
    the names of the Go functions (methods of several types are prefixed with
    the type, record fields with an abbreviation of it).

    - [Prelude]: map iteration, sorting, machine integers, the [strings] and
      [strconv] functions of Go, generic lemmas.
    - [Errors]: typed errors, [error], [errors.As], [result].
    - [Core] ([internal/core]): resolved gateways, listeners and routes.
    - [Json], [K8s]: JSON documents; Kubernetes objects and
      [internal/k8s/utils], [internal/k8s/reconciler/common].
    - [Status] ([internal/k8s/reconciler/status]): condition structs, their
      encodings, comparisons.
    - [GatewayClient] ([internal/k8s/gatewayclient]): the client wrapper over an
      arbitrary API server; its interface [Client] is what the rest uses.
    - [Resolver] ([internal/k8s/service]): backend references to Consul
      services.
    - [State] ([internal/k8s/reconciler/state], [status/route.go]): ephemeral
      state and the statuses derived from it.
    - [Converter], [Objects], [Binder] ([internal/k8s/reconciler]): resolved
      routes, gateway and route objects, binding.
    - [K8sSecret] ([internal/k8s/utils/secrets.go]): encoded secret names.
    - [GatewayValidator], [RouteValidator]
      ([internal/k8s/reconciler/validator], [internal/common/tls.go]).
    - [ConfigEntries] ([internal/consul/config_entries.go],
      [internal/common/service_names.go]), [HTTPAdapter], [SyncAdapter]
      ([internal/adapters/consul]).
    - [Store] ([internal/store]): the store over its interfaces, the memory
      backend, and the binder as an instance of the store's interface.
    - [Secrets], [Sds] ([internal/envoy]): watched certificates,
      authentication and authorization of Envoy.
    - [Intentions] ([internal/consul/intentions.go],
      [disco_chain_watcher.go]): reference-counted intentions;
      [IntentionsLoop]: the channels between [Reconcile], [Stop] and the
      goroutine of the reconciler.
    - [Builder] ([internal/k8s/builder], [pkg/apis/v1alpha1]): manifests and
      their merges; [ClassConfig]: the JSON snapshot of a class configuration
      that a gateway keeps as an annotation.
    - [ApiServer], [Cluster] ([internal/k8s/gatewayclient], the writes): the
      client wrapper over an API server with its conflicts and failures, and
      a concrete server that satisfies the laws.
    - [Deployer], [GatewayClasses], [Statuses]
      ([internal/k8s/reconciler/deployer.go], [gatewayclass.go],
      [statuses.go], [internal/consul/namespaces.go]): deployments, tracked
      classes, status updaters.
    - [Provenance]: objects keep the Kubernetes object they come from, through
      validation, binding and the store; what [Manager] needs to know of the
      store.
    - [Manager] ([internal/k8s/reconciler/manager.go]): upserts and deletions.
    - [Base64], [CoreCodec] ([internal/core/resolved.go]), [Codec]
      ([internal/k8s/reconciler/marshaler.go], [route.go],
      [state/gateway.go], [internal/k8s/service/rule.go]): the encoding of
      stored gateways and routes; [JsonCode] is a stand-in for the encodings
      of the Kubernetes types.
    - [Events], [Controllers] ([internal/k8s/controllers],
      [internal/k8s/gatewayclient/middleware.go]): the map functions of the
      watches, the reconcilers, and the whole operator as a step relation;
      [Watches]: what each controller watches and what its events enqueue.
    - [SecretClients] ([internal/k8s/certificates.go], [internal/vault]): the
      sources of certificates.
    - [CertManager] ([internal/consul/certmanager.go]), [Registration]
      ([internal/consul/registration.go], [auth.go]): background work of the
      process, as interleaved steps.
    - [JsonSyntax]: how a text is read as a JSON document, piece by piece.
    - [Bootstrap] ([internal/envoy/manager.go]): the templates of Envoy's
      configuration and the documents they are.
    - [Connection] ([internal/consul/connection.go]): connecting, logging in,
      following discovered servers.
    - [Exec] ([internal/commands/exec/exec.go]): the gateway's process, all its
      goroutines as one step relation.
    - [Flags], [Commands] ([internal/commands/exec/command.go],
      [internal/commands/server/command.go]): flags, and the configurations the
      commands make of them.
    - [SdsServer] ([internal/envoy/sds.go]): the SDS server, its streams and
      its refresh loop as a step relation.
    - [Server] ([internal/commands/server/server.go],
      [internal/k8s/controller.go], [config.go], [internal/metrics],
      [internal/profiling], [utils/cert_file.go]): the controller's process,
      all its goroutines as one step relation.
    - [GoFragment]: the part of Go that the status generator prints, with the
      conditions under which it compiles and an evaluator; [Generator]
      ([internal/k8s/reconciler/status/generator.go]): the description of the
      statuses, its templates and comments; [StatusesYaml] ([statuses.yaml]);
      [GeneratedStatuses]: what the generated code computes, against [Status];
      [ErrorGenerator] ([internal/k8s/reconciler/errors]): the same for the
      error types.
    - [DeepCopy] ([pkg/apis/v1alpha1/zz_generated.deepcopy.go]): the generated
      copies, over a heap.
    - [Logging] ([internal/grpc/logging.go], [internal/k8s/logger.go],
      [internal/common/writer.go]): adapters of the logger, the shared writer;
      [Cli] ([main.go], [internal/version]): the commands and the version.

    ** How code is modelled

    Functions that return an error return [result]; methods that mutate their
    receiver take and return it; a panic (nil dereference, index out of range)
    is [None].  Where pointers are shared the sharing is kept: the store's
    loops work on slices that hold the objects and maps that point into them,
    the watchers of the intentions reconciler live in a heap.  Loops are
    structural recursion over the slice they range over, so every definition
    is total; the only bounded loops are the retries of [backoff.Retry], with
    the bounds of the source: 30 for lookups in the Consul catalog, for
    registration and login, 3 for intentions.  Weights are
    32-bit integers with their wrap-around, the shares of traffic IEEE
    binary32 numbers.

    What Go or another program decides is a parameter of the model, a class
    or record whose laws state documented behaviour: the iteration order of maps
    ([MapRange], any permutation), the order of goroutines in a group
    ([Scheduler], any permutation), [backoff.Retry] ([Backoff],
    [RetryBackoff]), [net/url] with query values ([NetURL]), label selectors
    ([LabelSelectors]), the API server as it is read ([RuntimeClient]) and
    written ([LawfulApi]: optimistic locking, finalizers, the status
    subresource), [encoding/json] as text ([LawfulJsonText]), the
    answers of the
    Consul catalog at each attempt ([ConsulView]), Consul's acceptance of a
    write given the writes before it ([refused]), the store of intentions with
    compare-and-swap and concurrent writers ([IntentionEntries],
    [LawfulIntentions]), the cache of go-control-plane ([SecretCaches],
    [LawfulCache], [ReliableCache]), controller-runtime
    ([ControllerRuntime], [ControllerBuilder] with [LawfulBuilder]), the deep
    copies of the Kubernetes types ([LawfulCopy]), mitchellh/cli
    ([CommandLookup]), secret stores ([fetcher]), decoding and issuing of
    certificates ([CertificateParsing], [CertUtil], [TLSParsing]), files
    ([FileSystem]), the Consul agent ([ConsulAgent], [LawfulAgent]), Consul's
    API client and its tokens ([ConsulAPI], [LawfulACL], [SeparateACL]), the
    encodings of the Kubernetes types and the Kubernetes serializer
    ([KubernetesJson]), the kind that controller-runtime's cache sets on what
    it returns ([TypedReads]).  Theorems hold for every instance; the
    witnesses instantiate them concretely.  Components use each other through
    such classes too: [Client], [BackendResolver], [Binders] with
    [LawfulBinder] (discharged by [Binder] in [Store]), [Marshaler] with
    [LawfulMarshaler] and [KeepsOrigin] (discharged by [Codec]),
    [IntentionsReconcilers].

    ** What the theorems show

    - Admission and safety: a route is attached exactly where its last parent
      reference is admitted, and binding panics exactly for a selected but
      missing namespace ([Binder]); cross-namespace references need a grant, and validated
      backends and certificates are permitted and exist ([GatewayValidator],
      [RouteValidator]); backends resolve only to known services
      ([Resolver]); Envoy gets only certificates of its own gateway ([Sds]).
    - Consul configuration: a sync makes Consul hold exactly the computed
      entries, never deletes before everything new is written, and clearing
      removes all ([SyncAdapter]); the computed entries serve every hostname
      and service ([SyncAdapter]), with the matches by path length, number of
      headers and number of query parameters, and exact weights
      ([HTTPAdapter]); intentions follow the
      discovery chains in every interleaving ([Intentions]), and a forced
      synchronisation is answered with its own result ([IntentionsLoop]).
    - Invariants of long-lived state: the store never refers to deleted routes
      in any sequence of operations ([Store]); the certificate cache holds
      what is watched of the cluster and of Vault's issuer, and nothing of its
      key-value store ([Secrets], with the clients of the process in
      [SecretClients]); the reconciler knows every intention it made itself
      ([Intentions]).
    - Persistence: encoding a gateway or a route and decoding it never fails
      and changes nothing that is read later; in every reachable state the
      stored records are well typed, and the laws that [Store] and [Manager]
      ask of an encoding hold of the code's own ([Codec]).
    - The operator: in every state the controllers can reach, stored gateways
      are the ones the manager tracks, with the Consul namespace and the
      configuration they were annotated with, and every cached class is owned
      and carries the finalizer ([Manager], [Controllers]); a class or class
      configuration in use is never released ([Controllers]); the cache of
      classes answers what the cluster would ([GatewayClasses]) and follows
      changed configurations ([Controllers]); no event that changes the
      validation of a route is missed ([Events]), and of those that change the
      validation of a gateway exactly the ones of certificates, unlabelled or
      misplaced pods and services of others ([Watches]); managed gateways get
      stored, deleted ones and unmanaged routes go ([Manager]).
    - Deployment: what each object of a deployed gateway is afterwards, by what
      was there before: new ones are as the class configuration prescribes,
      existing ones keep what the merges keep; deploying again changes nothing
      ([Deployer]), with the replicas the bounds of the configuration allow
      ([Builder]); the snapshot of the configuration survives its encoding
      ([ClassConfig]); status updates settle ([Statuses]).
    - The process: certificates on disk are complete and match before anybody
      is told ([CertManager]); a registration is restored when lost and stays
      removed once deregistered, in every interleaving with the background
      loops ([Registration]); references to certificates survive their
      encoding and are served ([SecretClients]); who waited for the
      connection can use it ([Connection]); Envoy is started only when its
      configuration, which is the intended JSON document with the client's
      token, and its certificates are there, and the exit status tells whether the gateway left Consul
      ([Exec]); the gateway's command understands the arguments its pod is
      deployed with ([Commands]); streams that have ended leave no certificate
      watched or cached ([SdsServer]); the controller's process serves only
      with its certificates and its store in place, takes only steps of the
      operator, reports every failure it is told of in its exit status and can
      always be stopped ([Server]).
    - Statuses: readiness, conflicts and binding results are reported exactly
      ([GatewayValidator], [State]); status updates converge ([State]);
      statuses survive their encoding ([Status]).
    - Generated code: whatever the description, the status types that the
      generator prints report what it says, survive their encoding and pass the
      tests that it prints, if they compile ([Generator]); for the descriptions
      of the repository they compile and are [Status] and [Errors]
      ([GeneratedStatuses], [ErrorGenerator]); a deep copy reads as the original
      and shares no memory with it ([DeepCopy]).
    - Deviations of the code from what it means to do are theorems as well:
      [router_names_collide], [second_section_detaches_first],
      [removed_service_keeps_intention], [restart_keeps_stale_intention],
      [gateway_update_leaves_stale_route_status],
      [failed_fetch_is_not_retried],
      [persisted_resolution_errors_lose_messages],
      [unknown_gateway_deletes_namesake], [empty_annotation_list_lost],
      [managed_account_not_ignored], [address_change_not_published],
      [kv_certificate_not_served], [clean_envoy_exit_hangs],
      [exit_before_logout], [failed_client_leaves_token],
      [api_address_ignored], [gateway_id_ignored],
      [forced_refresh_never_happens], [metrics_failure_unnoticed],
      [certificate_events_missed], [unseen_events_enqueue_nothing],
      [stop_during_reconcile_panics],
      [ln_joins_strings], [V_is_no_verbosity].

    ** Not modelled

    The inside of controller-runtime's set-up, of gRPC and of the HTTP
    listeners are I/O: the code's use of them is modelled, with their results
    as parameters.  What is logged is modelled only for the adapters of
    [Logging].  The generators print text with [text/template]: the templates
    are transcribed as the declarations they print, not as characters.  Mocks
    and clients for tests, the table of Prometheus metrics and helpers that
    nothing calls ([internal/common/cli.go], [flags.go]) are left out.  Timers are not modelled: what happens after a
    time (the loops that call [syncAll], [manage], [syncIntentions],
    [ensureRegistration] and [updateTTL], and timeouts) are steps that may
    happen at any time; the exception is the refresh loop of [SdsServer], where
    the order of two timers decides what is done.  Data races are not
    modelled: operations that hold a lock are atomic.

    ** Simplifications

    Where the model is coarser than the code, and what that leaves out.

    - Operations of the manager are atomic, also those that take their mutex
      for reading only ([m_upsertRoute]) or not at all (the deletion of
      routes): two of them that overlap are not represented.
    - A request to the Consul agent is one step, so that a registration that is
      still on its way while [Deregister] runs is not represented.
    - Reads of the API server are fresh ([LawfulApi], [RuntimeClient] of the
      same world); controller-runtime reads through a cache that may lag
      behind.
    - [backoff.Retry] returns the error of the last attempt ([Backoff]); when
      the context ends it returns the context's error instead, which no caller
      tells apart.
    - The sources of intentions have the fields the code compares
      ([SourceIntention]): as [sourceIntentionMatches] ignores peer, partition
      and type, sources that differ in these only are one source here.
    - [LawfulJsonText] reads every string back; [encoding/json] replaces bytes
      that are not UTF-8, which the API server does not store.
    - [LawfulKubernetesJson] reads integers and times back whatever their size;
      the encodings have the widths of their fields and times in seconds, as
      the API server's objects do. *)

From stdpp Require Export base prelude gmap strings list sorting pretty.
From Stdlib Require Export ZArith Ascii.

#[global] Set Default Proof Using "Type".
#[export] Set Warnings "-clear-no-such-hyp".

(** Hints of the development. *)
Create HintDb go.

(** ** Go maps

    Go leaves the iteration order of a map unspecified.  [MapRange] is an
    iteration order: a listing of the bindings of each map.  Every
    definition that ranges over a map takes the order as an instance
    argument, so its theorems hold for whatever order the runtime picks. *)
Class MapRange : Type := {
  range : ∀ {K : Type} `{Countable K} {V : Type}, gmap K V → list (K * V);
  range_perm : ∀ {K : Type} `{Countable K} {V : Type} (m : gmap K V),
    range m ≡ₚ map_to_list m
}.

(** The order stdpp lists a map in, used to evaluate the definitions. *)
Definition canonical_range : MapRange :=
  {| range := λ K EK CK V m, map_to_list m;
     range_perm := λ K EK CK V m, Permutation_refl _ |}.

(** A second order, to exhibit order-dependent behaviour. *)
Definition reverse_range : MapRange :=
  {| range := λ K EK CK V m, reverse (map_to_list m);
     range_perm := λ K EK CK V m, reverse_Permutation _ |}.

Section range.
Context `{MR : MapRange} `{Countable K} {V : Type}.
Implicit Types (m : gmap K V) (k : K) (v : V).

Lemma elem_of_range m k v : (k, v) ∈ range m ↔ m !! k = Some v.
Proof. rewrite range_perm. apply elem_of_map_to_list. Qed.

Lemma NoDup_range_keys m : NoDup ((range m).*1).
Proof. rewrite range_perm. apply NoDup_fst_map_to_list. Qed.

Lemma NoDup_range m : NoDup (range m).
Proof. eapply NoDup_fmap_1, NoDup_range_keys. Qed.

Lemma range_empty : range (∅ : gmap K V) = [].
Proof.
  apply Permutation_nil_r. rewrite range_perm, map_to_list_empty. done.
Qed.

Lemma length_range m : length (range m) = size m.
Proof. rewrite range_perm. apply length_map_to_list. Qed.

Lemma list_to_map_range m : list_to_map (range m) = m.
Proof.
  apply map_eq. intros k. apply option_eq. intros v.
  rewrite <- elem_of_list_to_map by apply NoDup_range_keys.
  apply elem_of_range.
Qed.

Lemma elem_of_range_values m v :
  v ∈ (range m).*2 ↔ ∃ k, m !! k = Some v.
Proof.
  rewrite list_elem_of_fmap. split.
  - intros ([k v'] & -> & Hin). exists k. by apply elem_of_range.
  - intros [k Hk]. exists (k, v). split; [done|]. by apply elem_of_range.
Qed.

Lemma elem_of_range_keys m k : k ∈ (range m).*1 ↔ is_Some (m !! k).
Proof.
  rewrite list_elem_of_fmap. split.
  - intros ([k' v] & -> & Hin). exists v. by apply elem_of_range.
  - intros [v Hv]. exists (k, v). split; [done|]. by apply elem_of_range.
Qed.
End range.

(** ** Slices *)

(** [golang.org/x/exp/slices.Contains]. *)
Definition slices_Contains {A} `{EqDecision A} (xs : list A) (x : A) : bool :=
  bool_decide (x ∈ xs).

(** Length-and-pointwise equality loops of the code base: [false] on
    different lengths, else the conjunction of the element test. *)
Fixpoint forallb2 {A B} (f : A → B → bool) (xs : list A) (ys : list B) : bool :=
  match xs, ys with
  | [], [] => true
  | x :: xs, y :: ys => f x y && forallb2 f xs ys
  | _, _ => false
  end.

Lemma forallb2_Forall2 {A B} (f : A → B → bool) xs ys :
  forallb2 f xs ys = true ↔ Forall2 (λ x y, f x y = true) xs ys.
Proof.
  revert ys. induction xs as [|x xs IH]; intros [|y ys]; simpl.
  - split; [constructor|done].
  - split; [done|]. intros Hf. inversion Hf.
  - split; [done|]. intros Hf. inversion Hf.
  - rewrite andb_true_iff, IH, Forall2_cons. done.
Qed.

Lemma forallb2_refl {A} (f : A → A → bool) xs :
  (∀ x, f x x = true) → forallb2 f xs xs = true.
Proof. intros Hf. induction xs; simpl; [done|]. by rewrite Hf. Qed.

Lemma last_snoc_cases {A} (xs : list A) : xs = [] ∨ ∃ ys x, xs = ys ++ [x].
Proof.
  induction xs as [|x xs _] using rev_ind; [by left|right; eauto].
Qed.

Lemma list_fmap_concat_bind {A B C} (f : B → C) (g : A → list B) (l : list A) :
  f <$> (l ≫= g) = l ≫= (λ x, f <$> g x).
Proof. induction l as [|x l IH]; [done|]. cbn. by rewrite fmap_app, IH. Qed.

(** ** Stable sorting

    [sort.SliceStable]: insertion sort, moving each element left past the
    elements it is less than. *)
Section slice_stable.
Context {A : Type} (less : A → A → bool).

(** Insert into a sorted prefix that is held in reverse. *)
Fixpoint insert_back (x : A) (prefix : list A) : list A :=
  match prefix with
  | [] => [x]
  | y :: ys => if less x y then y :: insert_back x ys else x :: prefix
  end.

Definition sort_SliceStable (xs : list A) : list A :=
  reverse (foldl (λ prefix x, insert_back x prefix) [] xs).

Lemma insert_back_perm x prefix : insert_back x prefix ≡ₚ x :: prefix.
Proof.
  induction prefix as [|y ys IH]; simpl; [done|].
  destruct (less x y); [|done]. rewrite IH. apply Permutation_swap.
Qed.

Lemma foldl_insert_back_perm xs prefix :
  foldl (λ prefix x, insert_back x prefix) prefix xs ≡ₚ xs ++ prefix.
Proof.
  revert prefix. induction xs as [|x xs IH]; intros prefix; simpl; [done|].
  rewrite IH, insert_back_perm. by rewrite Permutation_middle.
Qed.

Lemma sort_SliceStable_perm xs : sort_SliceStable xs ≡ₚ xs.
Proof.
  unfold sort_SliceStable. rewrite reverse_Permutation, foldl_insert_back_perm.
  by rewrite app_nil_r.
Qed.

(** Sortedness, for a [less] that is the strict part of a total preorder. *)
Definition not_less (a b : A) : Prop := less b a = false.

Context (less_asym : ∀ a b, less a b = true → less b a = false).
Context (not_less_trans : ∀ a b c,
  less b a = false → less c b = false → less c a = false).

Lemma insert_back_sorted x prefix :
  StronglySorted (flip not_less) prefix →
  StronglySorted (flip not_less) (insert_back x prefix).
Proof using less_asym not_less_trans.
  induction 1 as [|y ys Hys IH Hy]; simpl; [by repeat constructor|].
  destruct (less x y) eqn:Hxy.
  - constructor; [done|]. rewrite insert_back_perm.
    constructor; [|done]. by apply less_asym.
  - constructor; [by constructor|]. constructor; [done|].
    eapply Forall_impl; [exact Hy|]. intros z Hz.
    exact (not_less_trans _ _ _ Hz Hxy).
Qed.

Lemma sort_SliceStable_sorted xs :
  StronglySorted not_less (sort_SliceStable xs).
Proof using less_asym not_less_trans.
  assert (∀ prefix, StronglySorted (flip not_less) prefix →
    StronglySorted (flip not_less)
      (foldl (λ prefix x, insert_back x prefix) prefix xs)) as Hfold.
  { induction xs as [|x xs IH]; intros prefix Hp; simpl; [done|].
    apply IH. by apply insert_back_sorted. }
  unfold sort_SliceStable. specialize (Hfold [] (SSorted_nil _)).
  revert Hfold. generalize (foldl (λ prefix x, insert_back x prefix) [] xs).
  induction 1 as [|y ys Hys IH Hy]; [constructor|].
  rewrite reverse_cons. apply StronglySorted_app. split_and!.
  - intros a b Ha Hb. apply list_elem_of_singleton in Hb as ->.
    rewrite elem_of_reverse in Ha. rewrite Forall_forall in Hy. by apply Hy.
  - done.
  - by repeat constructor.
Qed.
(** Stability: elements none of which is less than another keep their order. *)
Lemma insert_back_filter (P : A → Prop) `{!∀ a, Decision (P a)} x prefix :
  (∀ a b, P a → P b → less a b = false) →
  filter P (insert_back x prefix) = filter P (x :: prefix).
Proof.
  intros Hsame. induction prefix as [|y ys IH]; [done|]. cbn [insert_back].
  destruct (less x y) eqn:Hxy; [|done].
  rewrite !filter_cons, IH, filter_cons.
  destruct (decide (P y)), (decide (P x)); try done.
  by rewrite Hsame in Hxy.
Qed.

Lemma sort_SliceStable_stable (P : A → Prop) `{!∀ a, Decision (P a)} xs :
  (∀ a b, P a → P b → less a b = false) →
  filter P (sort_SliceStable xs) = filter P xs.
Proof.
  intros Hsame. unfold sort_SliceStable.
  assert (∀ prefix, filter P (foldl (λ prefix x, insert_back x prefix) prefix xs)
    = reverse (filter P xs) ++ filter P prefix) as Hfold.
  { induction xs as [|x xs IH]; intros prefix; [done|]. cbn [foldl].
    rewrite IH, insert_back_filter by done. rewrite !filter_cons.
    destruct (decide (P x)); [|done]. by rewrite reverse_cons, <- app_assoc. }
  rewrite filter_reverse, Hfold. cbn. by rewrite app_nil_r, reverse_involutive.
Qed.
End slice_stable.

(** A sorted slice is left alone. *)
Lemma sort_SliceStable_id {A} (less : A → A → bool) xs :
  StronglySorted (not_less less) xs → sort_SliceStable less xs = xs.
Proof.
  intros Hs. unfold sort_SliceStable.
  assert (∀ prefix, (∀ a b, a ∈ prefix → b ∈ xs → not_less less a b) →
    foldl (λ prefix x, insert_back less x prefix) prefix xs = reverse xs ++ prefix) as Hf.
  { induction Hs as [|x xs Hs IH Hx]; intros prefix Hp; simpl; [done|].
    assert (insert_back less x prefix = x :: prefix) as ->.
    { destruct prefix as [|y ys]; [done|]. simpl. by rewrite (Hp y x) by set_solver. }
    rewrite IH, reverse_cons, <- app_assoc; [done|].
    rewrite Forall_forall in Hx. intros a b Ha Hb.
    apply elem_of_cons in Ha as [-> |Ha]; [by apply Hx|]. apply Hp; set_solver. }
  rewrite Hf, app_nil_r, reverse_involutive; [done|]. by intros a b []%not_elem_of_nil.
Qed.

(** Sorting commutes with a map that preserves the comparison. *)
Lemma sort_SliceStable_fmap {A B} (f : A → B) (less : A → A → bool)
    (less' : B → B → bool) (xs : list A) :
  (∀ a b, a ∈ xs → b ∈ xs → less' (f a) (f b) = less a b) →
  f <$> sort_SliceStable less xs = sort_SliceStable less' (f <$> xs).
Proof.
  intros Hf. unfold sort_SliceStable. rewrite fmap_reverse. f_equal.
  assert (∀ prefix, (∀ a b, a ∈ xs ++ prefix → b ∈ xs ++ prefix → less' (f a) (f b) = less a b) →
    f <$> foldl (λ prefix x, insert_back less x prefix) prefix xs =
    foldl (λ prefix x, insert_back less' x prefix) (f <$> prefix) (f <$> xs)) as Hgen.
  { clear Hf. induction xs as [|x xs IH]; intros prefix Hf; simpl; [done|].
    rewrite IH.
    - f_equal. assert (∀ y, y ∈ prefix → less' (f x) (f y) = less x y) as Hx.
      { intros y Hy. apply Hf; set_solver. }
      clear -Hx. induction prefix as [|y ys IHp]; simpl; [done|].
      rewrite Hx by set_solver. destruct (less x y); [|done].
      simpl. f_equal. apply IHp. set_solver.
    - intros a b Ha Hb. apply Hf; [revert Ha|revert Hb];
        rewrite !elem_of_app, insert_back_perm; set_solver. }
  apply Hgen. intros a b. rewrite app_nil_r. apply Hf.
Qed.

(** ** Fixed-width integers *)

Definition int32_wrap (z : Z) : Z := ((z + 2 ^ 31) mod 2 ^ 32 - 2 ^ 31)%Z.
Definition uint32_wrap (z : Z) : Z := (z mod 2 ^ 32)%Z.
Definition is_int32 (z : Z) : Prop := (- 2 ^ 31 ≤ z < 2 ^ 31)%Z.

Lemma int32_wrap_id z : is_int32 z → int32_wrap z = z.
Proof.
  unfold is_int32, int32_wrap. intros Hz.
  rewrite Z.mod_small; lia.
Qed.

(** ** Strings

    A Go string is a sequence of bytes; [String.string] is a sequence of
    8-bit characters. *)

Definition strings_HasPrefix (s p : string) : bool := String.prefix p s.

Lemma strings_HasPrefix_nil s : strings_HasPrefix s "" = true.
Proof. by destruct s. Qed.

Lemma strings_HasPrefix_cons c s p :
  strings_HasPrefix (String c s) (String c p) = strings_HasPrefix s p.
Proof. unfold strings_HasPrefix. simpl. by destruct (ascii_dec c c). Qed.

Fixpoint string_drop (n : nat) (s : string) : string :=
  match n, s with
  | O, _ => s
  | S n, String _ s => string_drop n s
  | S _, EmptyString => EmptyString
  end.

Definition strings_TrimPrefix (s p : string) : string :=
  if strings_HasPrefix s p then string_drop (String.length p) s else s.

(** [strings.Split] with a one-byte separator. *)
Fixpoint strings_Split (sep : Ascii.ascii) (s : string) : list string :=
  match s with
  | EmptyString => [EmptyString]
  | String c s =>
      if decide (c = sep) then EmptyString :: strings_Split sep s
      else match strings_Split sep s with
           | [] => [String c EmptyString]
           | t :: ts => String c t :: ts
           end
  end.

(** [strings.SplitN] with a one-byte separator and a positive count. *)
Fixpoint strings_SplitN (sep : Ascii.ascii) (n : nat) (s : string) : list string :=
  match n with
  | O => []
  | S O => [s]
  | S (S _ as n') =>
      (fix go (s : string) : list string :=
         match s with
         | EmptyString => [EmptyString]
         | String c s =>
             if decide (c = sep) then EmptyString :: strings_SplitN sep n' s
             else match go s with
                  | [] => [String c EmptyString]
                  | t :: ts => String c t :: ts
                  end
         end) s
  end.

Fixpoint strings_Join (xs : list string) (sep : string) : string :=
  match xs with
  | [] => ""
  | [x] => x
  | x :: xs => x +:+ sep +:+ strings_Join xs sep
  end.

Fixpoint strings_Contains (s sub : string) : bool :=
  String.prefix sub s ||
  match s with
  | EmptyString => false
  | String _ s => strings_Contains s sub
  end.

Definition ascii_lower (c : Ascii.ascii) : Ascii.ascii :=
  let n := Ascii.nat_of_ascii c in
  if (65 <=? n)%nat && (n <=? 90)%nat then Ascii.ascii_of_nat (n + 32) else c.

Fixpoint string_lower (s : string) : string :=
  match s with
  | EmptyString => EmptyString
  | String c s => String (ascii_lower c) (string_lower s)
  end.

(** [strings.EqualFold] on ASCII strings. *)
Definition strings_EqualFold (a b : string) : bool :=
  bool_decide (string_lower a = string_lower b).

Definition is_space (c : Ascii.ascii) : bool :=
  let n := Ascii.nat_of_ascii c in
  (n =? 32)%nat || ((9 <=? n)%nat && (n <=? 13)%nat).

Fixpoint string_trim_left (s : string) : string :=
  match s with
  | EmptyString => EmptyString
  | String c s' => if is_space c then string_trim_left s' else s
  end.

Fixpoint string_trim_right (s : string) : string :=
  match s with
  | EmptyString => EmptyString
  | String c s =>
      match string_trim_right s with
      | EmptyString => if is_space c then EmptyString else String c EmptyString
      | t => String c t
      end
  end.

(** [strings.TrimSpace] on ASCII strings. *)
Definition strings_TrimSpace (s : string) : string :=
  string_trim_right (string_trim_left s).

(** The double quote and the backslash. *)
Definition quote_char : Ascii.ascii := Ascii.ascii_of_nat 34.
Definition backslash_char : Ascii.ascii := Ascii.ascii_of_nat 92.

Fixpoint quote_body (s : string) : string :=
  match s with
  | EmptyString => EmptyString
  | String c s =>
      if bool_decide (c = quote_char) || bool_decide (c = backslash_char)
      then String backslash_char (String c (quote_body s))
      else String c (quote_body s)
  end.

(** The [%q] verb on printable ASCII strings. *)
Definition strconv_Quote (s : string) : string :=
  String quote_char (quote_body s +:+ String quote_char EmptyString).

(** [strconv.Itoa] and the [%d] verb. *)
Definition strconv_Itoa (z : Z) : string := pretty z.

Definition digit_value (c : Ascii.ascii) : option Z :=
  let n := Z.of_nat (Ascii.nat_of_ascii c) in
  if bool_decide (48 ≤ n ≤ 57)%Z then Some (n - 48)%Z else None.

Fixpoint parse_digits (acc : Z) (s : string) : option Z :=
  match s with
  | EmptyString => Some acc
  | String c s =>
      d ← digit_value c; parse_digits (acc * 10 + d)%Z s
  end.

(** [strconv.Atoi] on a 64-bit platform: an optional sign and at least one
    decimal digit; [None] is a syntax or a range error. *)
Definition strconv_Atoi (s : string) : option Z :=
  let unsigned (sign : Z) (s : string) : option Z :=
    match s with
    | EmptyString => None
    | _ => n ← parse_digits 0 s;
           let v := (sign * n)%Z in
           if bool_decide (- 2 ^ 63 ≤ v < 2 ^ 63)%Z then Some v else None
    end in
  match s with
  | String c s' =>
      if decide (c = "-"%char) then unsigned (-1)%Z s'
      else if decide (c = "+"%char) then unsigned 1%Z s'
      else unsigned 1%Z s
  | EmptyString => None
  end.

Lemma string_lower_idemp s : string_lower (string_lower s) = string_lower s.
Proof.
  induction s as [|c s IH]; simpl; [done|]. rewrite IH. f_equal.
  by destruct c as [[] [] [] [] [] [] [] []].
Qed.

Lemma strings_EqualFold_sym a b : strings_EqualFold a b = strings_EqualFold b a.
Proof. apply bool_decide_ext. done. Qed.

Lemma strings_EqualFold_refl a : strings_EqualFold a a = true.
Proof. by apply bool_decide_eq_true. Qed.

Lemma strings_Split_ne sep s : strings_Split sep s ≠ [].
Proof.
  destruct s as [|c s]; simpl; [done|].
  case_decide; [done|]. by destruct (strings_Split sep s).
Qed.

(** The [<] of Go strings against the order of stdpp. *)
Lemma string_not_ltb a b : String.ltb b a = false ↔ String.le a b.
Proof.
  unfold String.ltb, String.le, String.leb. rewrite (String.compare_antisym a b).
  by destruct (String.compare b a).
Qed.

Lemma string_ltb_irrefl a : String.ltb a a = false.
Proof. by apply string_not_ltb. Qed.

Lemma string_ltb_asym a b : String.ltb a b = true → String.ltb b a = false.
Proof.
  unfold String.ltb. rewrite (String.compare_antisym a b).
  by destruct (String.compare b a).
Qed.

Lemma string_not_ltb_trans a b c :
  String.ltb b a = false → String.ltb c b = false → String.ltb c a = false.
Proof. rewrite !string_not_ltb. apply (transitivity (R := String.le)). Qed.

Lemma filter_all {A} (f : A → bool) xs :
  (∀ x, x ∈ xs → f x = true) → List.filter f xs = xs.
Proof.
  induction xs as [|x xs IH]; intros Hf; [done|]. simpl.
  rewrite Hf by set_solver. f_equal. apply IH. set_solver.
Qed.

Lemma elem_of_bfilter {A} (f : A → bool) xs x :
  x ∈ List.filter f xs ↔ x ∈ xs ∧ f x = true.
Proof. by rewrite list_elem_of_In, filter_In, <- list_elem_of_In. Qed.

Lemma filter_none {A} (f : A → bool) xs :
  (∀ x, x ∈ xs → f x = false) → List.filter f xs = [].
Proof.
  induction xs as [|x xs IH]; intros Hf; [done|]. simpl.
  rewrite Hf by set_solver. apply IH. set_solver.
Qed.

#[export] Instance filter_bool_perm {A} (f : A → bool) :
  Proper ((≡ₚ) ==> (≡ₚ)) (List.filter f).
Proof.
  induction 1 as [|x l l' _ IH|x y l|]; simpl; [done| | |by etrans].
  - by destruct (f x); rewrite IH.
  - destruct (f x), (f y); done || constructor.
Qed.

Lemma fmap_id_on {A} (f : A → A) (l : list A) : (∀ x, x ∈ l → f x = x) → f <$> l = l.
Proof.
  induction l as [|x l IH]; intros Hl; [done|]. simpl.
  rewrite Hl by set_solver. f_equal. apply IH. set_solver.
Qed.

(** A map with more than one key. *)
Lemma map_size_gt1 `{Countable K} {V} (m : gmap K V) :
  1 < size m ↔ ∃ a b, a ≠ b ∧ is_Some (m !! a) ∧ is_Some (m !! b).
Proof.
  split.
  - intros Hs. destruct (map_to_list m) as [|[a x] [|[b y] l]] eqn:Hl;
      [rewrite <- length_map_to_list, Hl in Hs; simpl in Hs; lia..|].
    pose proof (NoDup_fst_map_to_list m) as Hnd. rewrite Hl in Hnd. simpl in Hnd.
    exists a, b. split; [apply NoDup_cons in Hnd as [Hnd _]; set_solver|].
    split; [exists x|exists y]; apply elem_of_map_to_list; rewrite Hl; set_solver.
  - intros (a & b & Hab & [x Hx] & [y Hy]).
    rewrite <- (insert_delete_id m a x Hx), map_size_insert_None by apply lookup_delete_eq.
    assert (size (delete a m) ≠ 0); [|lia]. intros H0%map_size_empty_inv.
    assert (delete a m !! b = Some y) as H1 by by rewrite lookup_delete_ne.
    by rewrite H0 in H1.
Qed.

(** Updating the listed indices of a slice with an idempotent function. *)
Lemma foldl_alter_lookup {A} (f : A → A) (ls : list A) (indices : list nat) i :
  (∀ x, f (f x) = f x) →
  foldl (λ ls index, alter f index ls) ls indices !! i
  = (if decide (i ∈ indices) then f else id) <$> ls !! i.
Proof.
  intros Hf. revert ls. induction indices as [|j indices IH]; intros ls; cbn [foldl].
  { rewrite decide_False by apply not_elem_of_nil. by rewrite option_fmap_id. }
  rewrite IH. destruct (decide (j = i)) as [->|Hj].
  - rewrite list_lookup_alter_eq, (decide_True (P := i ∈ i :: indices)) by left.
    destruct (ls !! i) as [x|]; simpl; [|done]. case_decide; simpl; by rewrite ?Hf.
  - rewrite list_lookup_alter_ne by done. destruct (ls !! i) as [x|]; [|done]. simpl.
    do 2 case_decide; set_solver.
Qed.

Lemma elem_of_imap_pair {A} (xs : list A) i x :
  (i, x) ∈ imap pair xs ↔ xs !! i = Some x.
Proof.
  rewrite list_elem_of_lookup. split.
  - intros [j Hj]. rewrite list_lookup_imap in Hj.
    destruct (xs !! j) eqn:Hx; [|done]. by injection Hj as <- <-.
  - intros Hx. exists i. by rewrite list_lookup_imap, Hx.
Qed.

Lemma imap_pair_keys {A} (xs : list A) : (imap pair xs).*1 = seq 0 (length xs).
Proof.
  rewrite fmap_imap. rewrite <- (list_fmap_id (seq 0 (length xs))).
  apply (imap_seq_0 xs id).
Qed.

(** A property that every step preserves holds of all reachable states. *)
Lemma rtc_preserve {A} (R : relation A) (P : A → Prop) x y :
  (∀ a b, R a b → P a → P b) → rtc R x y → P x → P y.
Proof. intros HP Hrtc. induction Hrtc; [done|]. intros Hx. by eauto. Qed.

Lemma tail_short {A} (xs : list A) : length xs ≤ 1 → tail xs = [].
Proof. destruct xs as [|x [|y xs]]; simpl; [done|done|lia]. Qed.

(** ** Splitting and joining *)

Lemma append_assoc a b c : a +:+ (b +:+ c) = (a +:+ b) +:+ c.
Proof.
  induction a as [|x a IH]; [done|].
  change (String x (a +:+ (b +:+ c)) = String x ((a +:+ b) +:+ c)). by rewrite IH.
Qed.

Lemma append_inj a b c : a +:+ b = a +:+ c → b = c.
Proof. induction a as [|x a IH]; [done|]. intros [= H]. by apply IH. Qed.

Lemma length_append a b : String.length (a +:+ b) = String.length a + String.length b.
Proof. induction a as [|c a IH]; [done|]. simpl. by f_equal. Qed.

Lemma append_inj_r a b c : a +:+ c = b +:+ c → a = b.
Proof.
  revert b. induction a as [|x a IH]; intros [|y b] H; [done|..].
  1-2: apply (f_equal String.length) in H; rewrite !length_append in H; cbn in H; lia.
  simpl in H. injection H as -> H. f_equal. by apply IH.
Qed.

Lemma append_nil_r a : a +:+ "" = a.
Proof.
  induction a as [|x a IH]; [done|].
  change (String x (a +:+ "") = String x a). by rewrite IH.
Qed.

Lemma strings_Split_snoc sep d f :
  strings_Split sep (d +:+ String sep f) = strings_Split sep d ++ strings_Split sep f.
Proof.
  induction d as [|c d IH].
  { change ("" +:+ String sep f) with (String sep f). simpl. by rewrite decide_True. }
  change (String c d +:+ String sep f) with (String c (d +:+ String sep f)).
  cbn [strings_Split]. rewrite IH. case_decide; [done|].
  destruct (strings_Split sep d) as [|x xs] eqn:Hx; [|done]. by destruct (strings_Split_ne sep d).
Qed.

Lemma strings_Join_Split sep s : strings_Join (strings_Split sep s) (String sep "") = s.
Proof.
  induction s as [|c s IH]; [done|]. cbn [strings_Split].
  destruct (strings_Split sep s) as [|x xs] eqn:Hx; [by destruct (strings_Split_ne sep s)|].
  case_decide as Hc.
  - subst c. change (strings_Join ("" :: x :: xs) (String sep "")) with
      (String sep (strings_Join (x :: xs) (String sep ""))). by rewrite IH.
  - rewrite <-IH. by destruct xs.
Qed.

Lemma strings_Split_app sep l d :
  strings_Split sep l = [l] →
  strings_Split sep (l +:+ String sep d) = l :: strings_Split sep d.
Proof.
  induction l as [|c l IH]; simpl.
  - intros _. by rewrite decide_True.
  - destruct (decide (c = sep)) as [->|Hc]; [done|].
    intros Hs. rewrite IH; [done|].
    destruct (strings_Split sep l) as [|t ts] eqn:El; [by apply strings_Split_ne in El|].
    injection Hs as -> ->. done.
Qed.

(** A string without the separator is one token. *)
Lemma token_cons sep c a :
  strings_Split sep (String c a) = [String c a] ↔ c ≠ sep ∧ strings_Split sep a = [a].
Proof.
  cbn [strings_Split]. destruct (decide (c = sep)) as [->|Hc].
  { split; [done|]. by intros [? _]. }
  destruct (strings_Split sep a) as [|t ts] eqn:Ht; [by apply strings_Split_ne in Ht|].
  split; [intros Hs; by injection Hs as -> ->|]. by intros [_ [= -> ->]].
Qed.

Lemma strings_Split_Join sep xs :
  xs ≠ [] → Forall (λ x, strings_Split sep x = [x]) xs →
  strings_Split sep (strings_Join xs (String sep "")) = xs.
Proof.
  intros Hne Hall. induction Hall as [|x xs Hx Hxs IH]; [done|].
  destruct xs as [|y ys]; [done|]. specialize (IH ltac:(done)).
  change (strings_Join (x :: y :: ys) (String sep "")) with
    (x +:+ String sep (strings_Join (y :: ys) (String sep ""))).
  by rewrite strings_Split_app, IH.
Qed.

(** A printed number has only digits and a sign. *)
Lemma pretty_N_go_token sep x s :
  (∀ d, pretty_N_char d ≠ sep) → strings_Split sep s = [s] →
  strings_Split sep (pretty_N_go x s) = [pretty_N_go x s].
Proof.
  intros Hd. revert s. induction x as [x IH] using (well_founded_induction N.lt_wf_0). intros s Hs.
  destruct (decide (x = 0%N)) as [->|Hx]; [by rewrite pretty_N_go_0|].
  rewrite pretty_N_go_step by lia. apply IH; [apply N.div_lt; lia|]. by apply token_cons.
Qed.

Lemma strconv_Itoa_token sep z :
  (∀ d, pretty_N_char d ≠ sep) → sep ≠ "-"%char →
  strings_Split sep (strconv_Itoa z) = [strconv_Itoa z].
Proof.
  intros Hd Hm. assert (∀ n : N, strings_Split sep (pretty n) = [pretty n]) as HN.
  { intros n. unfold pretty, pretty_N. case_decide.
    - apply token_cons. split; [apply (Hd 0%N)|done].
    - by apply pretty_N_go_token. }
  unfold strconv_Itoa. unfold pretty at 1 2, pretty_Z. destruct z as [|p|p].
  - apply token_cons. split; [|done]. apply (Hd 0%N).
  - apply HN.
  - apply token_cons. split; [done|]. apply HN.
Qed.

(** ** Coding countable values as strings *)

Fixpoint bits (p : positive) : string :=
  match p with
  | xH => ""
  | xO p => String "0" (bits p)
  | xI p => String "1" (bits p)
  end.

Fixpoint of_bits (s : string) : positive :=
  match s with
  | EmptyString => xH
  | String c s => if Ascii.eqb c "1" then xI (of_bits s) else xO (of_bits s)
  end.

Lemma of_bits_bits p : of_bits (bits p) = p.
Proof. induction p as [p IH|p IH|]; simpl; by rewrite ?IH. Qed.

Definition string_code `{Countable A} (a : A) : string := bits (encode a).
Definition string_decode `{Countable A} (s : string) : option A := decode (of_bits s).

Lemma string_decode_code `{Countable A} (a : A) : string_decode (string_code a) = Some a.
Proof. unfold string_decode, string_code. by rewrite of_bits_bits, decode_encode. Qed.
