(* ===== verification/Errors.v ===== *)
(** * Error values

    The typed errors of the code base and the Go [error] interface they
    implement.
    - [internal/k8s/reconciler/errors/zz_generated_errors.go]:
      [CertificateResolutionError], [BindError];
    - [internal/k8s/service/resolver.go]: [ResolutionError];
    - [internal/k8s/gatewayclient/errors.go]: [K8sError];
    - [internal/store/store.go]: [ErrNotFound].

    Functions returning [(T, error)] are modelled by [result T]. *)

From S2P Require Import Prelude.

Set Warnings "-register-all".

(** ** Generated error types *)

Inductive CertificateResolutionErrorType : Type :=
  | CertificateResolutionErrorTypeNotFound
  | CertificateResolutionErrorTypeNotPermitted
  | CertificateResolutionErrorTypeUnsupported.

#[export] Instance CertificateResolutionErrorType_eq_dec :
  EqDecision CertificateResolutionErrorType.
Proof. solve_decision. Defined.

Record CertificateResolutionError : Type := {
  cre_inner : string;
  cre_errorType : CertificateResolutionErrorType
}.

Definition NewCertificateResolutionErrorNotFound (inner : string) :=
  {| cre_inner := inner; cre_errorType := CertificateResolutionErrorTypeNotFound |}.
Definition NewCertificateResolutionErrorNotPermitted (inner : string) :=
  {| cre_inner := inner; cre_errorType := CertificateResolutionErrorTypeNotPermitted |}.
Definition NewCertificateResolutionErrorUnsupported (inner : string) :=
  {| cre_inner := inner; cre_errorType := CertificateResolutionErrorTypeUnsupported |}.

Inductive BindErrorType : Type :=
  | BindErrorTypeRouteKind
  | BindErrorTypeListenerNamespacePolicy
  | BindErrorTypeHostnameMismatch
  | BindErrorTypeRouteInvalid.

#[export] Instance BindErrorType_eq_dec : EqDecision BindErrorType.
Proof. solve_decision. Defined.

Record BindError : Type := { be_inner : string; be_errorType : BindErrorType }.

Definition NewBindErrorRouteKind (inner : string) : BindError :=
  {| be_inner := inner; be_errorType := BindErrorTypeRouteKind |}.
Definition NewBindErrorListenerNamespacePolicy (inner : string) : BindError :=
  {| be_inner := inner; be_errorType := BindErrorTypeListenerNamespacePolicy |}.
Definition NewBindErrorHostnameMismatch (inner : string) : BindError :=
  {| be_inner := inner; be_errorType := BindErrorTypeHostnameMismatch |}.
Definition NewBindErrorRouteInvalid (inner : string) : BindError :=
  {| be_inner := inner; be_errorType := BindErrorTypeRouteInvalid |}.

(** ** Resolution errors *)

Inductive ServiceResolutionErrorType : Type :=
  | K8sServiceResolutionErrorType
  | BackendNotFoundErrorType
  | ConsulServiceResolutionErrorType
  | GenericResolutionErrorType
  | InvalidKindErrorType
  | NoResolutionErrorType
  | RefNotPermittedErrorType.

#[export] Instance ServiceResolutionErrorType_eq_dec :
  EqDecision ServiceResolutionErrorType.
Proof. solve_decision. Defined.

(** The Go string constant behind each error type. *)
Definition ServiceResolutionErrorType_string (t : ServiceResolutionErrorType) : string :=
  match t with
  | K8sServiceResolutionErrorType => ""
  | BackendNotFoundErrorType => "BackendNotFoundError"
  | ConsulServiceResolutionErrorType => "ConsulServiceResolutionError"
  | GenericResolutionErrorType => "GenericResolutionError"
  | InvalidKindErrorType => "InvalidKindError"
  | NoResolutionErrorType => "NoResolutionError"
  | RefNotPermittedErrorType => "RefNotPermittedError"
  end.

Definition ServiceResolutionErrorType_of_string (s : string) :
    option ServiceResolutionErrorType :=
  if decide (s = "") then Some K8sServiceResolutionErrorType
  else if decide (s = "BackendNotFoundError") then Some BackendNotFoundErrorType
  else if decide (s = "ConsulServiceResolutionError") then Some ConsulServiceResolutionErrorType
  else if decide (s = "GenericResolutionError") then Some GenericResolutionErrorType
  else if decide (s = "InvalidKindError") then Some InvalidKindErrorType
  else if decide (s = "NoResolutionError") then Some NoResolutionErrorType
  else if decide (s = "RefNotPermittedError") then Some RefNotPermittedErrorType
  else None.

Lemma ServiceResolutionErrorType_of_to t :
  ServiceResolutionErrorType_of_string (ServiceResolutionErrorType_string t) = Some t.
Proof. by destruct t. Qed.

#[export] Instance ServiceResolutionErrorType_string_inj :
  Inj (=) (=) ServiceResolutionErrorType_string.
Proof.
  intros a b Hab. apply (f_equal ServiceResolutionErrorType_of_string) in Hab.
  rewrite !ServiceResolutionErrorType_of_to in Hab. congruence.
Qed.

#[export] Program Instance ServiceResolutionErrorType_countable :
  Countable ServiceResolutionErrorType :=
  inj_countable ServiceResolutionErrorType_string
    ServiceResolutionErrorType_of_string _.
Next Obligation. apply ServiceResolutionErrorType_of_to. Qed.

Record ResolutionError : Type := {
  re_inner : string;
  re_remote : ServiceResolutionErrorType
}.

Definition NewResolutionError (inner : string) : ResolutionError :=
  {| re_inner := inner; re_remote := GenericResolutionErrorType |}.
Definition NewK8sResolutionError (inner : string) : ResolutionError :=
  {| re_inner := inner; re_remote := K8sServiceResolutionErrorType |}.
Definition NewBackendNotFoundError (inner : string) : ResolutionError :=
  {| re_inner := inner; re_remote := BackendNotFoundErrorType |}.
Definition NewConsulResolutionError (inner : string) : ResolutionError :=
  {| re_inner := inner; re_remote := ConsulServiceResolutionErrorType |}.
Definition NewInvalidKindError (inner : string) : ResolutionError :=
  {| re_inner := inner; re_remote := InvalidKindErrorType |}.
Definition NewRefNotPermittedError (inner : string) : ResolutionError :=
  {| re_inner := inner; re_remote := RefNotPermittedErrorType |}.

(** ** The [error] interface *)

(** [ErrString] is a value of [errors.New] (or [fmt.Errorf] without [%w]),
    [ErrWrap] one of [fmt.Errorf] whose format ends in [%w], [ErrMulti] a
    [multierror.Error]. *)
Inductive error : Type :=
  | ErrString (msg : string)
  | ErrWrap (prefix : string) (inner : error)
  | ErrCertificateResolution (e : CertificateResolutionError)
  | ErrBind (e : BindError)
  | ErrResolution (e : ResolutionError)
  | ErrK8s (inner : error)
  | ErrNotFound
  | ErrMulti (errs : list error).

(** The text a [multierror.Error] prints for the texts of its members (the
    library's formatter). *)
Class MultierrorFormat : Type := { multierror_format : list string → string }.

(** The method [Error() string]. *)
Fixpoint Error `{MultierrorFormat} (e : error) : string :=
  match e with
  | ErrString msg => msg
  | ErrWrap prefix inner => prefix +:+ Error inner
  | ErrCertificateResolution e => cre_inner e
  | ErrBind e => be_inner e
  | ErrResolution e => re_inner e
  | ErrK8s inner => Error inner
  | ErrNotFound => "not found"
  | ErrMulti errs => multierror_format (Error <$> errs)
  end.

(** [errors.As] for the typed errors: the chain is followed through [%w]
    wrappers; [K8sError] has no [Unwrap] method, so the search stops at it
    unless it is the type sought.  [multierror.Error] unwraps to its
    members in order. *)
Section As.
Context {T : Type} (test : error → option T).

Fixpoint errors_As (e : error) : option T :=
  match test e with
  | Some t => Some t
  | None =>
      match e with
      | ErrWrap _ inner => errors_As inner
      | ErrMulti errs =>
          (fix go (es : list error) : option T :=
             match es with
             | [] => None
             | e :: es => match errors_As e with
                          | Some t => Some t
                          | None => go es
                          end
             end) errs
      | _ => None
      end
  end.
End As.

Definition As_BindError : error → option BindError :=
  errors_As (λ e, match e with ErrBind b => Some b | _ => None end).
Definition As_CertificateResolutionError : error → option CertificateResolutionError :=
  errors_As (λ e, match e with ErrCertificateResolution b => Some b | _ => None end).
Definition As_ResolutionError : error → option ResolutionError :=
  errors_As (λ e, match e with ErrResolution b => Some b | _ => None end).
Definition As_K8sError : error → option error :=
  errors_As (λ e, match e with ErrK8s i => Some i | _ => None end).

(** ** Results *)

Inductive result (A : Type) : Type :=
  | Ok (a : A)
  | Err (e : error).
Arguments Ok {A} a.
Arguments Err {A} e.

#[export] Instance result_ret : MRet result := λ A a, Ok a.
#[export] Instance result_bind : MBind result := λ A B f m,
  match m with Ok a => f a | Err e => Err e end.
#[export] Instance result_fmap : FMap result := λ A B f m,
  match m with Ok a => Ok (f a) | Err e => Err e end.

Definition is_Ok {A} (r : result A) : bool :=
  match r with Ok _ => true | Err _ => false end.

Lemma bind_Ok {A B} (r : result A) (f : A → result B) b :
  r ≫= f = Ok b ↔ ∃ a, r = Ok a ∧ f a = Ok b.
Proof.
  destruct r as [a|e]; simpl; [|split; [done|by intros (? & ? & ?)]].
  split; [eauto|]. by intros (? & [= ->] & ?).
Qed.

(** A loop that converts every element and stops at the first error. *)
Fixpoint mapM_result {A B} (f : A → result B) (xs : list A) : result (list B) :=
  match xs with
  | [] => Ok []
  | x :: xs => y ← f x; ys ← mapM_result f xs; Ok (y :: ys)
  end.

Lemma mapM_result_Ok {A B} (f : A → result B) xs ys :
  mapM_result f xs = Ok ys ↔ Forall2 (λ x y, f x = Ok y) xs ys.
Proof.
  revert ys. induction xs as [|x xs IH]; intros ys; simpl.
  - split; [intros [= <-]; constructor|]. intros Hf. by inversion Hf.
  - unfold mbind, result_bind. destruct (f x) as [y|e] eqn:Hx.
    + destruct (mapM_result f xs) as [zs|e] eqn:Hm.
      * split.
        -- intros [= <-]. constructor; [done|]. by apply IH.
        -- intros Hf. inversion Hf as [|? ? ? ? Hy Hrest]; subst.
           rewrite Hx in Hy. apply IH in Hrest. congruence.
      * split; [done|]. intros Hf. inversion Hf as [|? ? ? ? Hy Hrest]; subst.
        by apply IH in Hrest.
    + split; [done|]. intros Hf. inversion Hf; subst. congruence.
Qed.

Lemma mapM_result_total {A B} (f : A → result B) (g : A → B) xs :
  (∀ x, x ∈ xs → f x = Ok (g x)) → mapM_result f xs = Ok (g <$> xs).
Proof.
  intros Hf. apply mapM_result_Ok. induction xs as [|x xs IH]; [constructor|].
  simpl. constructor; [apply Hf; left|]. apply IH. intros y Hy. apply Hf. by right.
Qed.
