(* ===== verification/Core.v ===== *)
(** * The resolved data model ([internal/core])

    What the Kubernetes side hands to the Consul side: resolved gateways,
    listeners and routes.  [HTTPRouteBuilder] and [TCPRouteBuilder] are the
    builders of [http.go] and [tcp.go]; [GatewayID] is the key of the store
    and of the sync adapter. *)

From S2P Require Import Prelude.

Record ResolvedService : Type := mkResolvedService {
  rs_ConsulNamespace : string;
  rs_Service : string
}.

#[export] Instance ResolvedService_eq_dec : EqDecision ResolvedService.
Proof. solve_decision. Defined.

Inductive HTTPFilterType : Type :=
  | HTTPHeaderFilterType
  | HTTPRedirectFilterType
  | HTTPURLRewriteFilterType.

Record HTTPHeaderFilter : Type := mkHTTPHeaderFilter {
  hf_Set : gmap string string;
  hf_Add : gmap string string;
  hf_Remove : list string
}.

Record HTTPRedirectFilter : Type := mkHTTPRedirectFilter {
  rf_Scheme : string;
  rf_Hostname : string;
  rf_Port : Z;
  rf_Status : Z
}.

(** [URLRewriteNoneType] is the zero value [""] of the string type. *)
Inductive URLRewriteType : Type :=
  | URLRewriteNoneType
  | URLRewriteReplacePrefixMatchType.

Record HTTPURLRewriteFilter : Type := mkHTTPURLRewriteFilter {
  uf_Type : URLRewriteType;
  uf_ReplacePrefixMatch : string
}.

Record HTTPFilter : Type := mkHTTPFilter {
  f_Type : HTTPFilterType;
  f_Header : HTTPHeaderFilter;
  f_Redirect : HTTPRedirectFilter;
  f_URLRewrite : HTTPURLRewriteFilter
}.

(** Zero values of the filter structs. *)
Definition zeroHeaderFilter : HTTPHeaderFilter := mkHTTPHeaderFilter ∅ ∅ [].
Definition zeroRedirectFilter : HTTPRedirectFilter := mkHTTPRedirectFilter "" "" 0 0.
Definition zeroURLRewriteFilter : HTTPURLRewriteFilter :=
  mkHTTPURLRewriteFilter URLRewriteNoneType "".

Record HTTPService : Type := mkHTTPService {
  s_Service : ResolvedService;
  s_Weight : Z;   (* int32 *)
  s_Filters : list HTTPFilter
}.

Inductive HTTPMethod : Type :=
  | HTTPMethodNone
  | HTTPMethodConnect
  | HTTPMethodDelete
  | HTTPMethodGet
  | HTTPMethodHead
  | HTTPMethodOptions
  | HTTPMethodPatch
  | HTTPMethodPost
  | HTTPMethodPut
  | HTTPMethodTrace.

#[export] Instance HTTPMethod_eq_dec : EqDecision HTTPMethod.
Proof. solve_decision. Defined.

Inductive HTTPPathMatchType : Type :=
  | HTTPPathMatchNoneType
  | HTTPPathMatchExactType
  | HTTPPathMatchPrefixType
  | HTTPPathMatchRegularExpressionType.

Record HTTPPathMatch : Type := mkHTTPPathMatch {
  pm_Type : HTTPPathMatchType;
  pm_Value : string
}.

Inductive HTTPHeaderMatchType : Type :=
  | HTTPHeaderMatchNoneType
  | HTTPHeaderMatchExactType
  | HTTPHeaderMatchPrefixType
  | HTTPHeaderMatchSuffixType
  | HTTPHeaderMatchPresentType
  | HTTPHeaderMatchRegularExpressionType.

Record HTTPHeaderMatch : Type := mkHTTPHeaderMatch {
  hm_Type : HTTPHeaderMatchType;
  hm_Name : string;
  hm_Value : string
}.

Inductive HTTPQueryMatchType : Type :=
  | HTTPQueryMatchNoneType
  | HTTPQueryMatchExactType
  | HTTPQueryMatchPresentType
  | HTTPQueryMatchRegularExpressionType.

Record HTTPQueryMatch : Type := mkHTTPQueryMatch {
  qm_Type : HTTPQueryMatchType;
  qm_Name : string;
  qm_Value : string
}.

Record HTTPMatch : Type := mkHTTPMatch {
  m_Path : HTTPPathMatch;
  m_Headers : list HTTPHeaderMatch;
  m_Query : list HTTPQueryMatch;
  m_Method : HTTPMethod
}.

Definition zeroHTTPMatch : HTTPMatch :=
  mkHTTPMatch (mkHTTPPathMatch HTTPPathMatchNoneType "") [] [] HTTPMethodNone.

Record HTTPRouteRule : Type := mkHTTPRouteRule {
  r_Matches : list HTTPMatch;
  r_Filters : list HTTPFilter;
  r_Services : list HTTPService
}.

Record CommonRoute : Type := mkCommonRoute {
  cr_Meta : gmap string string;
  cr_Name : string;
  cr_Namespace : string
}.

Record HTTPRoute : Type := mkHTTPRoute {
  h_CommonRoute : CommonRoute;
  h_Hostnames : list string;
  h_Rules : list HTTPRouteRule
}.

Record TCPRoute : Type := mkTCPRoute {
  t_CommonRoute : CommonRoute;
  t_Service : ResolvedService
}.

Inductive ResolvedRouteType : Type :=
  | ResolvedHTTPRouteType
  | ResolvedTCPRouteType.

(** The [ResolvedRoute] interface and its two implementations. *)
Inductive ResolvedRoute : Type :=
  | ResolvedHTTP (r : HTTPRoute)
  | ResolvedTCP (r : TCPRoute).

Definition GetType (r : ResolvedRoute) : ResolvedRouteType :=
  match r with
  | ResolvedHTTP _ => ResolvedHTTPRouteType
  | ResolvedTCP _ => ResolvedTCPRouteType
  end.

Definition route_common (r : ResolvedRoute) : CommonRoute :=
  match r with
  | ResolvedHTTP r => h_CommonRoute r
  | ResolvedTCP r => t_CommonRoute r
  end.

Definition GetMeta (r : ResolvedRoute) : gmap string string := cr_Meta (route_common r).
Definition GetName (r : ResolvedRoute) : string := cr_Name (route_common r).
Definition GetNamespace (r : ResolvedRoute) : string := cr_Namespace (route_common r).

(** ** Builders *)

Record HTTPRouteBuilder : Type := mkHTTPRouteBuilder {
  hb_meta : gmap string string;
  hb_name : string;
  hb_namespace : string;
  hb_rules : list HTTPRouteRule;
  hb_hostnames : list string
}.

Definition NewHTTPRouteBuilder : HTTPRouteBuilder := mkHTTPRouteBuilder ∅ "" "" [] [].
Definition hb_WithMeta (meta : gmap string string) (b : HTTPRouteBuilder) :=
  mkHTTPRouteBuilder meta (hb_name b) (hb_namespace b) (hb_rules b) (hb_hostnames b).
Definition hb_WithName (name : string) (b : HTTPRouteBuilder) :=
  mkHTTPRouteBuilder (hb_meta b) name (hb_namespace b) (hb_rules b) (hb_hostnames b).
Definition hb_WithNamespace (namespace : string) (b : HTTPRouteBuilder) :=
  mkHTTPRouteBuilder (hb_meta b) (hb_name b) namespace (hb_rules b) (hb_hostnames b).
Definition hb_WithHostnames (hostnames : list string) (b : HTTPRouteBuilder) :=
  mkHTTPRouteBuilder (hb_meta b) (hb_name b) (hb_namespace b) (hb_rules b) hostnames.
Definition hb_WithRules (rules : list HTTPRouteRule) (b : HTTPRouteBuilder) :=
  mkHTTPRouteBuilder (hb_meta b) (hb_name b) (hb_namespace b) rules (hb_hostnames b).
Definition hb_Build (b : HTTPRouteBuilder) : ResolvedRoute :=
  ResolvedHTTP (mkHTTPRoute
    (mkCommonRoute (hb_meta b) (hb_name b) (hb_namespace b))
    (hb_hostnames b) (hb_rules b)).

Record TCPRouteBuilder : Type := mkTCPRouteBuilder {
  tb_meta : gmap string string;
  tb_name : string;
  tb_namespace : string;
  tb_service : ResolvedService
}.

Definition NewTCPRouteBuilder : TCPRouteBuilder :=
  mkTCPRouteBuilder ∅ "" "" (mkResolvedService "" "").
Definition tb_WithMeta (meta : gmap string string) (b : TCPRouteBuilder) :=
  mkTCPRouteBuilder meta (tb_name b) (tb_namespace b) (tb_service b).
Definition tb_WithName (name : string) (b : TCPRouteBuilder) :=
  mkTCPRouteBuilder (tb_meta b) name (tb_namespace b) (tb_service b).
Definition tb_WithNamespace (namespace : string) (b : TCPRouteBuilder) :=
  mkTCPRouteBuilder (tb_meta b) (tb_name b) namespace (tb_service b).
Definition tb_WithService (service : ResolvedService) (b : TCPRouteBuilder) :=
  mkTCPRouteBuilder (tb_meta b) (tb_name b) (tb_namespace b) service.
Definition tb_Build (b : TCPRouteBuilder) : ResolvedRoute :=
  ResolvedTCP (mkTCPRoute
    (mkCommonRoute (tb_meta b) (tb_name b) (tb_namespace b)) (tb_service b)).

(** ** Gateways *)

Record TLSParams : Type := mkTLSParams {
  tls_Enabled : bool;
  tls_MinVersion : string;
  tls_MaxVersion : string;
  tls_CipherSuites : list string;
  tls_Certificates : list string
}.

Definition zeroTLSParams : TLSParams := mkTLSParams false "" "" [] [].

Record ResolvedListener : Type := mkResolvedListener {
  rl_Name : string;
  rl_Hostname : string;
  rl_Port : Z;
  rl_Protocol : string;
  rl_TLS : TLSParams;
  rl_Routes : list ResolvedRoute
}.

Record GatewayID : Type := mkGatewayID {
  gid_ConsulNamespace : string;
  gid_Service : string
}.

#[export] Instance GatewayID_eq_dec : EqDecision GatewayID.
Proof. solve_decision. Defined.

#[export] Program Instance GatewayID_countable : Countable GatewayID :=
  inj_countable' (λ g, (gid_ConsulNamespace g, gid_Service g))
    (λ p, mkGatewayID p.1 p.2) _.
Next Obligation. by intros []. Qed.

Record ResolvedGateway : Type := mkResolvedGateway {
  rg_ID : GatewayID;
  rg_Meta : gmap string string;
  rg_Listeners : list ResolvedListener;
  rg_MaxConnections : option Z   (* *uint32 *)
}.
