(* ===== verification/Json.v ===== *)
(** * JSON documents

    [encoding/json] as the code base uses it.  A [[]byte] that holds JSON is
    represented by the document it holds ([json]); [json_Marshal_*] build a
    document from a Go value and [json_Unmarshal_*] read one back, with the
    error the decoder reports for a document of the wrong shape.  The text of
    decoder errors is not modelled ([err_json] stands for all of them). *)

From S2P Require Import Prelude Errors.

Set Warnings "-register-all".

Inductive json : Type :=
  | JNull
  | JBool (b : bool)
  | JNumber (z : Z)
  | JString (s : string)
  | JArray (xs : list json)
  | JObject (fields : list (string * json)).

(** [json.Marshal] and [json.Unmarshal] on documents. *)
Class JsonText : Type := {
  json_text : json → string;
  json_parse : string → result json
}.

(** A document is read back from its text. *)
Class LawfulJsonText `{JsonText} : Prop := {
  json_parse_text : ∀ j, json_parse (json_text j) = Ok j
}.

Definition err_json : error := ErrString "json: cannot unmarshal value".

(** Object members are read in order: a repeated member overwrites. *)
Definition json_members (fields : list (string * json)) : gmap string json :=
  foldl (λ m kv, <[kv.1 := kv.2]> m) ∅ fields.

(** [json.Marshal] of a map with string keys sorts the keys. *)
Definition key_le {A} (a b : string * A) : Prop := String.le a.1 b.1.
#[export] Instance key_le_dec {A} : RelDecision (@key_le A).
Proof. intros a b. unfold key_le. apply _. Defined.

Definition sorted_entries {A} (m : gmap string A) : list (string * A) :=
  merge_sort key_le (map_to_list m).

Definition json_Marshal_map {A} (f : A → json) (m : gmap string A) : json :=
  JObject (prod_map id f <$> sorted_entries m).

(** [json.Unmarshal] into a fresh [map[string]A]: [null] leaves it empty. *)
Definition json_Unmarshal_map {A} (f : json → result A) (j : json) :
    result (gmap string A) :=
  match j with
  | JNull => Ok ∅
  | JObject fields =>
      kvs ← mapM_result (λ kv : string * json, v ← f kv.2; Ok (kv.1, v)) fields;
      Ok (foldl (λ m kv, <[kv.1 := kv.2]> m) ∅ kvs)
  | _ => Err err_json
  end.

(** A string element of a map; [null] yields the zero value. *)
Definition json_Unmarshal_string (j : json) : result string :=
  match j with
  | JNull => Ok ""
  | JString s => Ok s
  | _ => Err err_json
  end.

Lemma foldl_insert_app {A} (kvs : list (string * A)) (m : gmap string A) :
  foldl (λ m kv, <[kv.1 := kv.2]> m) m kvs
  = list_to_map (reverse kvs) ∪ m.
Proof.
  revert m. induction kvs as [|[k v] kvs IH]; intros m; simpl.
  - by rewrite (left_id_L ∅ (∪)).
  - rewrite IH, reverse_cons, list_to_map_app. simpl.
    rewrite <- (assoc_L (∪)), insert_empty, insert_union_singleton_l. done.
Qed.

Lemma sorted_entries_perm {A} (m : gmap string A) : sorted_entries m ≡ₚ map_to_list m.
Proof. apply merge_sort_Permutation. Qed.

Lemma foldl_insert_sorted {A} (m : gmap string A) :
  foldl (λ m kv, <[kv.1 := kv.2]> m) ∅ (sorted_entries m) = m.
Proof.
  rewrite foldl_insert_app, (right_id_L ∅ (∪)).
  rewrite (list_to_map_proper (reverse (sorted_entries m)) (map_to_list m)).
  - apply list_to_map_to_list.
  - rewrite fmap_reverse, reverse_Permutation, sorted_entries_perm.
    apply NoDup_fst_map_to_list.
  - rewrite reverse_Permutation. apply sorted_entries_perm.
Qed.

(** Encoding a map and decoding it gives the map back when the elements do. *)
Lemma json_map_roundtrip {A} (f : A → json) (g : json → result A) (m : gmap string A) :
  (∀ k v, m !! k = Some v → g (f v) = Ok v) →
  json_Unmarshal_map g (json_Marshal_map f m) = Ok m.
Proof.
  intros Hfg. unfold json_Marshal_map, json_Unmarshal_map.
  assert (mapM_result (λ kv : string * json, v ← g kv.2; Ok (kv.1, v))
            (prod_map id f <$> sorted_entries m) = Ok (sorted_entries m)) as ->.
  { apply mapM_result_Ok.
    assert (∀ k v, (k, v) ∈ sorted_entries m → m !! k = Some v) as Hin.
    { intros k v. rewrite sorted_entries_perm. apply elem_of_map_to_list. }
    revert Hin. generalize (sorted_entries m) as l.
    induction l as [|[k v] l IH]; intros Hin; simpl; [constructor|].
    constructor.
    - cbn. rewrite (Hfg k v) by (apply Hin; left). done.
    - apply IH. intros k' v' Hkv. apply Hin. by right. }
  cbn. by rewrite foldl_insert_sorted.
Qed.

Lemma json_string_map_roundtrip (m : gmap string string) :
  json_Unmarshal_map json_Unmarshal_string (json_Marshal_map JString m) = Ok m.
Proof. by apply json_map_roundtrip. Qed.

#[export] Instance key_le_total {A} : Total (@key_le A).
Proof. intros a b. apply (total String.le). Qed.
#[export] Instance key_le_trans {A} : Transitive (@key_le A).
Proof. intros a b c. apply (transitivity (R := String.le)). Qed.

Lemma StronglySorted_sorted_entries {A} (m : gmap string A) :
  StronglySorted key_le (sorted_entries m).
Proof. apply StronglySorted_merge_sort; apply _. Qed.

(** The encoding of a map depends on the encodings of its values only. *)
Lemma sorted_entries_fmap {A B} (f : A → B) (m : gmap string A) :
  prod_map id f <$> sorted_entries m = sorted_entries (f <$> m).
Proof.
  assert (prod_map id f <$> sorted_entries m ≡ₚ sorted_entries (f <$> m)) as Hp.
  { by rewrite !sorted_entries_perm, map_to_list_fmap. }
  apply (StronglySorted_unique_strong key_le); [| | |done].
  - intros [k1 v1] [k2 v2] H1 H2 H12 H21. rewrite Hp in H1.
    rewrite sorted_entries_perm, elem_of_map_to_list in H1, H2.
    assert (k1 = k2) as -> by by apply (anti_symm String.le). congruence.
  - apply (StronglySorted_fmap _ key_le); [done|]. apply StronglySorted_sorted_entries.
  - apply StronglySorted_sorted_entries.
Qed.

Lemma json_Marshal_map_ext {A B} (f : A → json) (g : B → json) m1 m2 :
  f <$> m1 = g <$> m2 → json_Marshal_map f m1 = json_Marshal_map g m2.
Proof.
  intros Heq. unfold json_Marshal_map. by rewrite !sorted_entries_fmap, Heq.
Qed.
