(* ===== verification/Base64.v ===== *)
(** * Base64 ([encoding/base64], [StdEncoding])

    [encoding/json] writes a [[]byte] as a string in standard base64, with
    padding, and reads it back.  Both directions are the library's: the
    encoder takes three bytes at a time, the decoder skips line breaks, wants
    whole groups of four characters, and does not look at the bits that the
    last group does not use. *)

From S2P Require Import Prelude Errors.

Definition byte_value (c : ascii) : Z := Z.of_nat (nat_of_ascii c).
Definition byte_of (z : Z) : ascii := ascii_of_nat (Z.to_nat (z mod 256)).

(** The character of a six-bit value, and the value of a character. *)
Definition alphabet (v : Z) : ascii :=
  if (v <? 26)%Z then byte_of (65 + v)
  else if (v <? 52)%Z then byte_of (97 + (v - 26))
  else if (v <? 62)%Z then byte_of (48 + (v - 52))
  else if (v =? 62)%Z then "+"%char else "/"%char.

Definition alphabet_value (c : ascii) : option Z :=
  let v := byte_value c in
  if (65 <=? v)%Z && (v <=? 90)%Z then Some (v - 65)%Z
  else if (97 <=? v)%Z && (v <=? 122)%Z then Some (v - 97 + 26)%Z
  else if (48 <=? v)%Z && (v <=? 57)%Z then Some (v - 48 + 52)%Z
  else if (v =? 43)%Z then Some 62%Z
  else if (v =? 47)%Z then Some 63%Z
  else None.

Definition pad : ascii := "="%char.

(** A group of 24 bits [v] as four characters. *)
Definition group4 (v : Z) : string → string := λ rest,
  String (alphabet (v / 262144 mod 64)) (String (alphabet (v / 4096 mod 64))
    (String (alphabet (v / 64 mod 64)) (String (alphabet (v mod 64)) rest))).

Definition bits24 (a b c : ascii) : Z :=
  (byte_value a * 65536 + byte_value b * 256 + byte_value c)%Z.

Fixpoint base64_EncodeToString (s : string) : string :=
  match s with
  | EmptyString => EmptyString
  | String a EmptyString =>
      let v := (byte_value a * 65536)%Z in
      String (alphabet (v / 262144 mod 64)) (String (alphabet (v / 4096 mod 64))
        (String pad (String pad EmptyString)))
  | String a (String b EmptyString) =>
      let v := (byte_value a * 65536 + byte_value b * 256)%Z in
      String (alphabet (v / 262144 mod 64)) (String (alphabet (v / 4096 mod 64))
        (String (alphabet (v / 64 mod 64)) (String pad EmptyString)))
  | String a (String b (String c rest)) => group4 (bits24 a b c) (base64_EncodeToString rest)
  end.

Definition err_base64 : error := ErrString "illegal base64 data".

(** The groups of an input without line breaks. *)
Fixpoint base64_groups (s : string) : result string :=
  match s with
  | EmptyString => Ok EmptyString
  | String a (String b (String c (String d rest))) =>
      match alphabet_value a, alphabet_value b with
      | Some va, Some vb =>
          let v1 := (va * 262144 + vb * 4096)%Z in
          if bool_decide (c = pad) then
            if bool_decide (d = pad) && bool_decide (rest = EmptyString)
            then Ok (String (byte_of (v1 / 65536)) EmptyString)
            else Err err_base64
          else
            match alphabet_value c with
            | None => Err err_base64
            | Some vc =>
                let v2 := (v1 + vc * 64)%Z in
                if bool_decide (d = pad) then
                  if bool_decide (rest = EmptyString)
                  then Ok (String (byte_of (v2 / 65536)) (String (byte_of (v2 / 256)) EmptyString))
                  else Err err_base64
                else
                  match alphabet_value d with
                  | None => Err err_base64
                  | Some vd =>
                      let v3 := (v2 + vd)%Z in
                      tail ← base64_groups rest;
                      Ok (String (byte_of (v3 / 65536)) (String (byte_of (v3 / 256))
                            (String (byte_of v3) tail)))
                  end
            end
      | _, _ => Err err_base64
      end
  | _ => Err err_base64
  end.

Definition line_break (c : ascii) : bool := bool_decide (c = "010"%char ∨ c = "013"%char).

Fixpoint drop_line_breaks (s : string) : string :=
  match s with
  | EmptyString => EmptyString
  | String c s => if line_break c then drop_line_breaks s else String c (drop_line_breaks s)
  end.

Definition base64_Decode (s : string) : result string := base64_groups (drop_line_breaks s).

(** ** Round trip *)

Lemma byte_value_range c : (0 ≤ byte_value c < 256)%Z.
Proof. unfold byte_value. pose proof (nat_ascii_bounded c). lia. Qed.

Lemma byte_of_value c z : (z mod 256 = byte_value c)%Z → byte_of z = c.
Proof.
  intros Hz. unfold byte_of. rewrite Hz. unfold byte_value. by rewrite Nat2Z.id, ascii_nat_embedding.
Qed.

(** The 64 characters are read back, and none is padding or a line break. *)
Definition alphabet_good (v : Z) : bool :=
  bool_decide (alphabet_value (alphabet v) = Some v) && bool_decide (alphabet v ≠ pad) &&
  negb (line_break (alphabet v)).

Lemma alphabet_ok v :
  (0 ≤ v < 64)%Z →
  alphabet_value (alphabet v) = Some v ∧ alphabet v ≠ pad ∧ line_break (alphabet v) = false.
Proof.
  intros Hv.
  assert (forallb (λ n, alphabet_good (Z.of_nat n)) (seq 0 64) = true) as Hall by (vm_compute; reflexivity).
  rewrite forallb_forall in Hall. specialize (Hall (Z.to_nat v)). rewrite Z2Nat.id in Hall by lia.
  unfold alphabet_good in Hall.
  destruct (andb_prop _ _ (Hall ltac:(apply in_seq; lia))) as [[H1 H2]%andb_prop H3].
  split_and!; [by apply bool_decide_eq_true in H1|by apply bool_decide_eq_true in H2|].
  by apply negb_true_iff.
Qed.

(** What an encoded character is to the decoder. *)
Lemma sextet_ok v :
  alphabet_value (alphabet (v mod 64)) = Some (v mod 64)%Z ∧ alphabet (v mod 64) ≠ pad ∧
  line_break (alphabet (v mod 64)) = false.
Proof. apply alphabet_ok. by apply Z.mod_pos_bound. Qed.

Lemma three_bytes_ind (P : string → Prop) :
  P "" → (∀ a, P (String a "")) → (∀ a b, P (String a (String b ""))) →
  (∀ a b c s, P s → P (String a (String b (String c s)))) → ∀ s, P s.
Proof.
  intros H0 H1 H2 H3. fix IH 1. intros [|a [|b [|c s]]]; [done|apply H1|apply H2|apply H3, IH].
Qed.

Lemma encoded_no_breaks s : drop_line_breaks (base64_EncodeToString s) = base64_EncodeToString s.
Proof.
  induction s as [|a|a b|a b c s IH] using three_bytes_ind; [done|..];
    cbn [base64_EncodeToString]; unfold group4; cbn [drop_line_breaks];
    rewrite ?(proj2 (proj2 (sextet_ok _))), ?IH; done.
Qed.

Lemma encoded_groups s : base64_groups (base64_EncodeToString s) = Ok s.
Proof.
  induction s as [|a|a b|a b c s IH] using three_bytes_ind; [done|..];
    cbn [base64_EncodeToString]; unfold group4; cbn [base64_groups];
    rewrite !(proj1 (sextet_ok _));
    rewrite ?(bool_decide_eq_false_2 _ (proj1 (proj2 (sextet_ok _)))), ?IH;
    cbn; do 3 f_equal; try (apply f_equal2; [|try reflexivity]);
    repeat match goal with c : ascii |- _ =>
      lazymatch goal with H : (0 ≤ byte_value c < 256)%Z |- _ => fail | _ => pose proof (byte_value_range c) end end;
    try (apply byte_of_value; unfold bits24; Z.to_euclidean_division_equations; lia).
Qed.

(** Decoding what was encoded gives the bytes back. *)
Lemma base64_roundtrip s : base64_Decode (base64_EncodeToString s) = Ok s.
Proof. unfold base64_Decode. by rewrite encoded_no_breaks, encoded_groups. Qed.

Lemma base64_examples :
  base64_EncodeToString "" = "" ∧ base64_EncodeToString "f" = "Zg==" ∧
  base64_EncodeToString "fo" = "Zm8=" ∧ base64_EncodeToString "foobar" = "Zm9vYmFy" ∧
  base64_Decode "Zm9=" = Ok "fo" ∧ is_Ok (base64_Decode "Zg=") = false ∧
  is_Ok (base64_Decode "Zg==Zg==") = false.
Proof. vm_compute. done. Qed.
