(* ===== verification/K8s.v ===== *)
(** * Kubernetes and Gateway API objects, and the helpers over them

    The records hold the fields of the Kubernetes and Gateway API types that
    the code base reads or writes (a pointer field is an [option]; a nil and
    an empty slice or map are identified).  The definitions model
    [internal/k8s/utils] and [internal/k8s/reconciler/common]. *)

From S2P Require Import Prelude Errors.

(** ** Object metadata *)

Record NamespacedName : Type := mkNamespacedName {
  nn_Namespace : string;
  nn_Name : string
}.

#[export] Instance NamespacedName_eq_dec : EqDecision NamespacedName.
Proof. solve_decision. Defined.

#[export] Program Instance NamespacedName_countable : Countable NamespacedName :=
  inj_countable' (λ n, (nn_Namespace n, nn_Name n)) (λ p, mkNamespacedName p.1 p.2) _.
Next Obligation. by intros []. Qed.

(** [types.NamespacedName.String]. *)
Definition NamespacedName_String (n : NamespacedName) : string :=
  nn_Namespace n +:+ "/" +:+ nn_Name n.

Record GroupKind : Type := mkGroupKind { gk_Group : string; gk_Kind : string }.

Record OwnerReference : Type := mkOwnerReference {
  or_UID : string;
  or_Name : string;
  or_Controller : bool
}.

Record ObjectMeta : Type := mkObjectMeta {
  om_Name : string;
  om_Namespace : string;
  om_UID : string;
  om_Generation : Z;
  om_ResourceVersion : string;
  om_CreationTimestamp : Z;   (* Unix seconds *)
  om_Labels : gmap string string;
  om_Annotations : gmap string string;
  om_OwnerReferences : list OwnerReference;
  om_Finalizers : list string;
  om_DeletionTimestamp : option Z
}.

(** The metadata of an object that was not yet created. *)
Definition new_meta (name namespace : string) (labels annotations : gmap string string) :
    ObjectMeta :=
  mkObjectMeta name namespace "" 0 "" 0 labels annotations [] [] None.

Definition om_set_Annotations (annotations : gmap string string) (m : ObjectMeta) : ObjectMeta :=
  mkObjectMeta (om_Name m) (om_Namespace m) (om_UID m) (om_Generation m) (om_ResourceVersion m)
    (om_CreationTimestamp m) (om_Labels m) annotations (om_OwnerReferences m) (om_Finalizers m)
    (om_DeletionTimestamp m).
Definition om_set_OwnerReferences (refs : list OwnerReference) (m : ObjectMeta) : ObjectMeta :=
  mkObjectMeta (om_Name m) (om_Namespace m) (om_UID m) (om_Generation m) (om_ResourceVersion m)
    (om_CreationTimestamp m) (om_Labels m) (om_Annotations m) refs (om_Finalizers m)
    (om_DeletionTimestamp m).
Definition om_set_Finalizers (finalizers : list string) (m : ObjectMeta) : ObjectMeta :=
  mkObjectMeta (om_Name m) (om_Namespace m) (om_UID m) (om_Generation m) (om_ResourceVersion m)
    (om_CreationTimestamp m) (om_Labels m) (om_Annotations m) (om_OwnerReferences m) finalizers
    (om_DeletionTimestamp m).

(** The key of an object. *)
Definition om_key (m : ObjectMeta) : NamespacedName :=
  mkNamespacedName (om_Namespace m) (om_Name m).

Definition GroupName : string := "gateway.networking.k8s.io".

(** ** Conditions *)

Inductive ConditionStatus : Type := ConditionTrue | ConditionFalse | ConditionUnknown.

#[export] Instance ConditionStatus_eq_dec : EqDecision ConditionStatus.
Proof. solve_decision. Defined.

Record Condition : Type := mkCondition {
  c_Type : string;
  c_Status : ConditionStatus;
  c_ObservedGeneration : Z;
  c_LastTransitionTime : Z;
  c_Reason : string;
  c_Message : string
}.

(** ** Gateways *)

Record RouteGroupKind : Type := mkRouteGroupKind {
  rgk_Group : option string;
  rgk_Kind : string
}.

#[export] Instance RouteGroupKind_eq_dec : EqDecision RouteGroupKind.
Proof. solve_decision. Defined.

Record LabelSelector : Type := mkLabelSelector {
  ls_MatchLabels : gmap string string;
  ls_MatchExpressions : list (string * string * list string)
}.

Record RouteNamespaces : Type := mkRouteNamespaces {
  rn_From : option string;
  rn_Selector : option LabelSelector
}.

Record AllowedRoutes : Type := mkAllowedRoutes {
  ar_Namespaces : option RouteNamespaces;
  ar_Kinds : list RouteGroupKind
}.

Record SecretObjectReference : Type := mkSecretObjectReference {
  sor_Group : option string;
  sor_Kind : option string;
  sor_Name : string;
  sor_Namespace : option string
}.

Record GatewayTLSConfig : Type := mkGatewayTLSConfig {
  gtls_Mode : option string;
  gtls_CertificateRefs : list SecretObjectReference;
  gtls_Options : gmap string string
}.

Record Listener : Type := mkListener {
  l_Name : string;
  l_Hostname : option string;
  l_Port : Z;
  l_Protocol : string;
  l_TLS : option GatewayTLSConfig;
  l_AllowedRoutes : option AllowedRoutes
}.

Record ListenerStatusObj : Type := mkListenerStatusObj {
  lso_Name : string;
  lso_SupportedKinds : list RouteGroupKind;
  lso_AttachedRoutes : Z;   (* int32 *)
  lso_Conditions : list Condition
}.

(** The address type is always [IPAddress] in this code base. *)
Record GatewayStatusObj : Type := mkGatewayStatusObj {
  gso_Addresses : list string;
  gso_Conditions : list Condition;
  gso_Listeners : list ListenerStatusObj
}.

Record Gateway : Type := mkGateway {
  gw_Meta : ObjectMeta;
  gw_GroupKind : GroupKind;
  gw_GatewayClassName : string;
  gw_Listeners : list Listener;
  gw_Addresses : list string;
  gw_Status : GatewayStatusObj
}.

(** Protocols and allowed-namespace policies. *)
Definition HTTPProtocolType : string := "HTTP".
Definition HTTPSProtocolType : string := "HTTPS".
Definition TLSProtocolType : string := "TLS".
Definition TCPProtocolType : string := "TCP".
Definition UDPProtocolType : string := "UDP".
Definition NamespacesFromAll : string := "All".
Definition NamespacesFromSelector : string := "Selector".
Definition NamespacesFromSame : string := "Same".
Definition TLSModePassthrough : string := "Passthrough".

(** ** Routes *)

Record ParentReference : Type := mkParentReference {
  pr_Group : option string;
  pr_Kind : option string;
  pr_Namespace : option string;
  pr_Name : string;
  pr_SectionName : option string;
  pr_Port : option Z
}.

#[export] Instance ParentReference_eq_dec : EqDecision ParentReference.
Proof. solve_decision. Defined.

#[export] Program Instance ParentReference_countable : Countable ParentReference :=
  inj_countable'
    (λ r, (pr_Group r, pr_Kind r, pr_Namespace r, pr_Name r, pr_SectionName r, pr_Port r))
    (λ '(g, k, ns, n, sn, p), mkParentReference g k ns n sn p) _.
Next Obligation. by intros []. Qed.

Record BackendObjectReference : Type := mkBackendObjectReference {
  bor_Group : option string;
  bor_Kind : option string;
  bor_Name : string;
  bor_Namespace : option string;
  bor_Port : option Z
}.

Record BackendRef : Type := mkBackendRef {
  br_Ref : BackendObjectReference;
  br_Weight : option Z   (* *int32 *)
}.

Record HTTPHeader : Type := mkHTTPHeader { hh_Name : string; hh_Value : string }.

Record HTTPRequestHeaderFilter : Type := mkHTTPRequestHeaderFilter {
  hrh_Set : list HTTPHeader;
  hrh_Add : list HTTPHeader;
  hrh_Remove : list string
}.

Record HTTPRequestRedirectFilter : Type := mkHTTPRequestRedirectFilter {
  hrr_Scheme : option string;
  hrr_Hostname : option string;
  hrr_Port : option Z;
  hrr_StatusCode : option Z
}.

Record HTTPPathModifier : Type := mkHTTPPathModifier {
  hpm_Type : string;
  hpm_ReplacePrefixMatch : option string
}.

(** The filter union: the constructor is the [Type] field together with the
    field it selects; [FilterOther] is any other [Type]. *)
Inductive HTTPRouteFilter : Type :=
  | HTTPRouteFilterRequestHeaderModifier (f : HTTPRequestHeaderFilter)
  | HTTPRouteFilterRequestRedirect (f : HTTPRequestRedirectFilter)
  | HTTPRouteFilterURLRewrite (path : option HTTPPathModifier)
  | HTTPRouteFilterOther (ty : string).

Record K8sHTTPPathMatch : Type := mkK8sHTTPPathMatch {
  kpm_Type : option string;
  kpm_Value : option string
}.

Record K8sHTTPHeaderMatch : Type := mkK8sHTTPHeaderMatch {
  khm_Type : option string;
  khm_Name : string;
  khm_Value : string
}.

Record K8sHTTPQueryParamMatch : Type := mkK8sHTTPQueryParamMatch {
  kqm_Type : option string;
  kqm_Name : string;
  kqm_Value : string
}.

Record K8sHTTPRouteMatch : Type := mkK8sHTTPRouteMatch {
  km_Path : option K8sHTTPPathMatch;
  km_Headers : list K8sHTTPHeaderMatch;
  km_QueryParams : list K8sHTTPQueryParamMatch;
  km_Method : option string
}.

Record HTTPBackendRef : Type := mkHTTPBackendRef {
  hbr_BackendRef : BackendRef;
  hbr_Filters : list HTTPRouteFilter
}.

Record K8sHTTPRouteRule : Type := mkK8sHTTPRouteRule {
  kr_Matches : list K8sHTTPRouteMatch;
  kr_Filters : list HTTPRouteFilter;
  kr_BackendRefs : list HTTPBackendRef
}.

Record TCPRouteRule : Type := mkTCPRouteRule { tr_BackendRefs : list BackendRef }.

Record RouteParentStatus : Type := mkRouteParentStatus {
  rps_ParentRef : ParentReference;
  rps_ControllerName : string;
  rps_Conditions : list Condition
}.

Record K8sHTTPRoute : Type := mkK8sHTTPRoute {
  khr_Meta : ObjectMeta;
  khr_GroupKind : GroupKind;
  khr_ParentRefs : list ParentReference;
  khr_Hostnames : list string;
  khr_Rules : list K8sHTTPRouteRule;
  khr_Status : list RouteParentStatus
}.

Record K8sTCPRoute : Type := mkK8sTCPRoute {
  ktr_Meta : ObjectMeta;
  ktr_GroupKind : GroupKind;
  ktr_ParentRefs : list ParentReference;
  ktr_Rules : list TCPRouteRule;
  ktr_Status : list RouteParentStatus
}.

(** The [Route] interface of the reconciler: an HTTPRoute or a TCPRoute. *)
Inductive Route : Type :=
  | RouteHTTP (r : K8sHTTPRoute)
  | RouteTCP (r : K8sTCPRoute).

Definition route_Meta (r : Route) : ObjectMeta :=
  match r with RouteHTTP r => khr_Meta r | RouteTCP r => ktr_Meta r end.
Definition route_Namespace (r : Route) : string := om_Namespace (route_Meta r).
Definition route_Name (r : Route) : string := om_Name (route_Meta r).

(** Group and kind of [GroupVersionKind()], the [TypeMeta] of the object. *)
Definition route_GroupKind (r : Route) : GroupKind :=
  match r with RouteHTTP r => khr_GroupKind r | RouteTCP r => ktr_GroupKind r end.

(** The kind of the Go type, and an object whose [TypeMeta] says so. *)
Definition route_kind (r : Route) : string :=
  match r with RouteHTTP _ => "HTTPRoute" | RouteTCP _ => "TCPRoute" end.
Definition typed_route (r : Route) : Prop := route_GroupKind r = mkGroupKind GroupName (route_kind r).

(** ** ReferenceGrants *)

Record ReferenceGrantFrom : Type := mkReferenceGrantFrom {
  rgf_Group : string;
  rgf_Kind : string;
  rgf_Namespace : string
}.

Record ReferenceGrantTo : Type := mkReferenceGrantTo {
  rgt_Group : string;
  rgt_Kind : string;
  rgt_Name : option string
}.

Record ReferenceGrant : Type := mkReferenceGrant {
  rg_From : list ReferenceGrantFrom;
  rg_To : list ReferenceGrantTo
}.

(** ** Core objects *)

Record PodCondition : Type := mkPodCondition {
  pc_Type : string;
  pc_Status : ConditionStatus;
  pc_Reason : string;
  pc_Message : string
}.

Record Pod : Type := mkPod {
  pod_Phase : string;
  pod_Conditions : list PodCondition;
  pod_PodIP : string;
  pod_HostIP : string
}.

Record LoadBalancerIngress : Type := mkLoadBalancerIngress {
  lbi_IP : string;
  lbi_Hostname : string
}.

Record ServicePort : Type := mkServicePort {
  sp_Name : string;
  sp_Protocol : string;
  sp_Port : Z
}.

Record Service : Type := mkService {
  svc_Meta : ObjectMeta;
  svc_Type : string;
  svc_ClusterIP : string;
  svc_Selector : gmap string string;
  svc_Ports : list ServicePort;
  svc_Ingress : list LoadBalancerIngress
}.

Record Namespace : Type := mkNamespace {
  ns_Name : string;
  ns_Labels : gmap string string
}.

Record Secret : Type := mkSecret {
  sec_Meta : ObjectMeta;
  sec_Type : string;
  sec_Data : gmap string string
}.

Record MeshService : Type := mkMeshService {
  ms_Namespace : string;
  ms_Name : string;             (* Spec.Name *)
  ms_Peer : option string       (* Spec.Peer *)
}.

(** ** [GatewayClassConfig] ([pkg/apis/v1alpha1/types.go]) *)

Record PortSpec : Type := mkPortSpec { ps_HTTP : Z; ps_GRPC : Z }.

Record AuthSpec : Type := mkAuthSpec {
  as_Managed : bool;
  as_Method : string;
  as_Account : string;
  as_Namespace : string;
  as_PodSecurityPolicy : string
}.

Record ConsulSpec : Type := mkConsulSpec {
  cs_AuthSpec : AuthSpec;
  cs_Scheme : string;
  cs_Partition : string;
  cs_ServerName : string;
  cs_Address : string;
  cs_PortSpec : PortSpec
}.

Record ImageSpec : Type := mkImageSpec {
  is_ConsulAPIGateway : string;
  is_Envoy : string
}.

Record DeploymentSpec : Type := mkDeploymentSpec {
  ds_DefaultInstances : option Z;
  ds_MaxInstances : option Z;
  ds_MinInstances : option Z
}.

(** [Tolerations] is copied verbatim, so a toleration is an opaque string;
    [CopyAnnotations.Service] is nil or a list. *)
Record GatewayClassConfigSpec : Type := mkGatewayClassConfigSpec {
  gcc_ServiceType : option string;
  gcc_NodeSelector : gmap string string;
  gcc_Tolerations : list string;
  gcc_UseHostPorts : bool;
  gcc_ConsulSpec : ConsulSpec;
  gcc_ImageSpec : ImageSpec;
  gcc_CopyAnnotations : option (list string);
  gcc_LogLevel : string;
  gcc_DeploymentSpec : DeploymentSpec;
  gcc_MaxConnections : option Z   (* ConnectionManagement.MaxConnections, *int32 *)
}.

Definition zeroGatewayClassConfigSpec : GatewayClassConfigSpec :=
  mkGatewayClassConfigSpec None ∅ [] false
    (mkConsulSpec (mkAuthSpec false "" "" "" "") "" "" "" "" (mkPortSpec 0 0))
    (mkImageSpec "" "") None "" (mkDeploymentSpec None None None) None.

Record GatewayClassConfig : Type := mkGatewayClassConfig {
  gcc_Meta : ObjectMeta;
  gcc_Spec : GatewayClassConfigSpec
}.

Definition zeroGatewayClassConfig : GatewayClassConfig :=
  mkGatewayClassConfig (new_meta "" "" ∅ ∅) zeroGatewayClassConfigSpec.

Definition APIGroup : string := "api-gateway.consul.hashicorp.com".
Definition GatewayClassConfigKind : string := "GatewayClassConfig".
Definition MeshServiceKind : string := "MeshService".

Record ParametersReference : Type := mkParametersReference {
  prm_Group : string;
  prm_Kind : string;
  prm_Name : string
}.

Record GatewayClass : Type := mkGatewayClass {
  gc_Meta : ObjectMeta;
  gc_ControllerName : string;
  gc_ParametersRef : option ParametersReference;
  gc_Conditions : list Condition   (* Status.Conditions *)
}.

(** ** Workloads *)

Record ContainerPort : Type := mkContainerPort {
  cp_Name : string;
  cp_Protocol : string;
  cp_ContainerPort : Z;
  cp_HostPort : Z
}.

Record VolumeMount : Type := mkVolumeMount { vm_Name : string; vm_MountPath : string }.

Inductive VolumeSource : Type :=
  | VolumeEmptyDir
  | VolumeSecret (secretName : string) (items : list (string * string)) (optional : option bool).

Record Volume : Type := mkVolume { vol_Name : string; vol_Source : VolumeSource }.

(** A literal value, or the path of a field of the pod. *)
Inductive EnvVarValue : Type :=
  | EnvValue (value : string)
  | EnvFieldRef (fieldPath : string).

Record EnvVar : Type := mkEnvVar { ev_Name : string; ev_Value : EnvVarValue }.

(** The readiness probe is an HTTP get of a path on a port. *)
Record Container : Type := mkContainer {
  ct_Image : string;
  ct_Name : string;
  ct_VolumeMounts : list VolumeMount;
  ct_Ports : list ContainerPort;
  ct_Env : list EnvVar;
  ct_Command : list string;
  ct_Args : list string;
  ct_ReadinessProbe : option (string * Z)
}.

(** A preferred anti-affinity: weight, matched labels, topology key. *)
Record WeightedPodAffinityTerm : Type := mkAffinityTerm {
  aff_Weight : Z;
  aff_MatchLabels : gmap string string;
  aff_TopologyKey : string
}.

Record PodSpec : Type := mkPodSpec {
  pspec_AntiAffinity : list WeightedPodAffinityTerm;
  pspec_NodeSelector : gmap string string;
  pspec_Tolerations : list string;
  pspec_ServiceAccountName : string;
  pspec_InitContainers : list Container;
  pspec_Containers : list Container;
  pspec_Volumes : list Volume
}.

Record PodTemplateSpec : Type := mkPodTemplateSpec {
  pt_Labels : gmap string string;
  pt_Annotations : gmap string string;
  pt_Spec : PodSpec
}.

Record Deployment : Type := mkDeployment {
  dep_Meta : ObjectMeta;
  dep_Replicas : option Z;   (* *int32 *)
  dep_MatchLabels : gmap string string;
  dep_Template : PodTemplateSpec
}.

Record ServiceAccount : Type := mkServiceAccount { sa_Meta : ObjectMeta }.

Record PolicyRule : Type := mkPolicyRule {
  rule_APIGroups : list string;
  rule_Resources : list string;
  rule_ResourceNames : list string;
  rule_Verbs : list string
}.

Record Role : Type := mkRole { role_Meta : ObjectMeta; role_Rules : list PolicyRule }.

Record RoleBinding : Type := mkRoleBinding {
  rb_Meta : ObjectMeta;
  rb_RoleRef : string * string * string;          (* API group, kind, name *)
  rb_Subjects : list (string * string * string)   (* kind, name, namespace *)
}.

(** ** [internal/k8s/utils] *)

Definition nameLabel : string := "api-gateway.consul.hashicorp.com/name".
Definition namespaceLabel : string := "api-gateway.consul.hashicorp.com/namespace".
Definition createdAtLabel : string := "api-gateway.consul.hashicorp.com/created".
Definition ManagedLabel : string := "api-gateway.consul.hashicorp.com/managed".

Definition LabelsForGateway (gw : Gateway) : gmap string string :=
  <[nameLabel := om_Name (gw_Meta gw)]>
  (<[namespaceLabel := om_Namespace (gw_Meta gw)]>
  (<[createdAtLabel := strconv_Itoa (om_CreationTimestamp (gw_Meta gw))]>
  (<[ManagedLabel := "true"]> ∅))).

(** Reading a missing key of a Go map gives the zero value. *)
Definition map_get (m : gmap string string) (k : string) : string :=
  default "" (m !! k).

Definition GatewayByLabels (labels : gmap string string) : NamespacedName :=
  mkNamespacedName (map_get labels namespaceLabel) (map_get labels nameLabel).

Definition IsManagedGateway (labels : gmap string string) : option string :=
  match labels !! ManagedLabel with
  | Some managed => if decide (managed = "true") then labels !! nameLabel else None
  | None => None
  end.

Definition gateway_NamespacedName (gw : Gateway) : NamespacedName :=
  mkNamespacedName (om_Namespace (gw_Meta gw)) (om_Name (gw_Meta gw)).

Definition route_NamespacedName (r : Route) : NamespacedName :=
  mkNamespacedName (route_Namespace r) (route_Name r).

Definition ReferencesGateway (namespace : string) (ref : ParentReference) :
    option NamespacedName :=
  if match pr_Group ref with Some g => bool_decide (g ≠ GroupName) | None => false end
  then None
  else if match pr_Kind ref with Some k => bool_decide (k ≠ "Gateway") | None => false end
  then None
  else
    let namespace := match pr_Namespace ref with Some ns => ns | None => namespace end in
    Some (mkNamespacedName namespace (pr_Name ref)).

Definition ProtocolToConsul (protocolType : string) : string * bool :=
  if bool_decide (protocolType = TCPProtocolType ∨ protocolType = TLSProtocolType)
  then ("tcp", bool_decide (protocolType = TLSProtocolType))
  else if bool_decide (protocolType = HTTPProtocolType ∨ protocolType = HTTPSProtocolType)
  then ("http", bool_decide (protocolType = HTTPSProtocolType))
  else if bool_decide (protocolType = UDPProtocolType) then ("", false)
  else ("", false).

Definition ResourceVersionGreater (a b : string) : bool :=
  match strconv_Atoi a with
  | None => false
  | Some aVal =>
      match strconv_Atoi b with
      | None => true
      | Some bVal => bool_decide (bVal < aVal)%Z
      end
  end.

(** ** [internal/k8s/reconciler/common] *)

(** [supportedKindsForProtocol]; a missing protocol gives a nil slice. *)
Definition SupportedKindsFor (protocol : string) : option (list RouteGroupKind) :=
  if decide (protocol = HTTPProtocolType) then
    Some [mkRouteGroupKind (Some GroupName) "HTTPRoute"]
  else if decide (protocol = HTTPSProtocolType) then
    Some [mkRouteGroupKind (Some GroupName) "HTTPRoute"]
  else if decide (protocol = TCPProtocolType) then
    Some [mkRouteGroupKind (Some GroupName) "TCPRoute"]
  else None.

(** The update guard of the store is stable: an object never counts as newer
    than itself, and "newer" is not symmetric. *)
Lemma ResourceVersionGreater_irrefl a : ResourceVersionGreater a a = false.
Proof.
  unfold ResourceVersionGreater. destruct (strconv_Atoi a) as [v|]; [|done].
  apply bool_decide_eq_false. lia.
Qed.

Lemma ResourceVersionGreater_asym a b :
  ResourceVersionGreater a b = true → ResourceVersionGreater b a = false.
Proof.
  unfold ResourceVersionGreater.
  destruct (strconv_Atoi a) as [v|], (strconv_Atoi b) as [w|]; try done.
  rewrite bool_decide_eq_true, bool_decide_eq_false. lia.
Qed.
