(* ===== verification/Status.v ===== *)
(** * Status conditions ([internal/k8s/reconciler/status])

    [zz_generated_status.go] has one struct per condition type (a set of
    optional errors), its [Condition], [HasError], [MarshalJSON] and
    [UnmarshalJSON], and one aggregate per object kind.  All structs come out
    of one template, which the combinators [condition_of], [has_error],
    [error_texts] and [read_error] transcribe; each generated method applies
    them to the errors of its struct, listed in declaration order.
    [equality.go] has the comparisons that decide whether a status is written
    back to Kubernetes.

    [meta.Now()] is an argument: [now], or a clock giving the successive
    readings where a method builds several conditions. *)

From S2P Require Import Prelude Errors Json K8s.

(** ** The template *)

Record ConditionKind : Type := mkConditionKind {
  ck_type : string;
  ck_invert : bool;      (* the condition is healthy when it is False *)
  ck_base : string;      (* reason reported when no error is set *)
  ck_message : string
}.

Section statuses.
Context {MF : MultierrorFormat}.

(** The first error that is set, in declaration order. *)
Fixpoint first_error (errs : list (string * option error)) : option (string * error) :=
  match errs with
  | [] => None
  | (reason, Some e) :: _ => Some (reason, e)
  | (_, None) :: errs => first_error errs
  end.

Definition condition_of (k : ConditionKind) (errs : list (string * option error))
    (generation now : Z) : Condition :=
  match first_error errs with
  | Some (reason, e) =>
      mkCondition (ck_type k) (if ck_invert k then ConditionTrue else ConditionFalse)
        generation now reason (Error e)
  | None =>
      mkCondition (ck_type k) (if ck_invert k then ConditionFalse else ConditionTrue)
        generation now (ck_base k) (ck_message k)
  end.

Definition has_error (errs : list (string * option error)) : bool :=
  existsb (λ ne, bool_decide (is_Some ne.2)) errs.

(** The map of error texts [MarshalJSON] builds. *)
Definition add_error_text (data : gmap string string) (ne : string * option error) :
    gmap string string :=
  match ne.2 with
  | Some e => <[ne.1 := Error e]> data
  | None => data
  end.
Definition error_texts (errs : list (string * option error)) : gmap string string :=
  foldl add_error_text ∅ errs.

(** [if err, ok := data[name]; ok { s.Name = errors.New(err) }]. *)
Definition read_error (data : gmap string string) (name : string)
    (old : option error) : option error :=
  match data !! name with
  | Some err => Some (ErrString err)
  | None => old
  end.

(** ** The generated structs *)

(** *** GatewayClassAcceptedStatus *)

Record GatewayClassAcceptedStatus : Type := mkGatewayClassAcceptedStatus {
  GatewayClassAccepted_InvalidParameters : option error;
  GatewayClassAccepted_Waiting : option error
}.

Definition zeroGatewayClassAcceptedStatus : GatewayClassAcceptedStatus :=
  mkGatewayClassAcceptedStatus None None.

Definition GatewayClassAcceptedStatus_kind : ConditionKind :=
  mkConditionKind "Accepted" false "Accepted" "Accepted".

Definition GatewayClassAcceptedStatus_errors (s : GatewayClassAcceptedStatus) : list (string * option error) :=
  [("InvalidParameters", GatewayClassAccepted_InvalidParameters s);
   ("Waiting", GatewayClassAccepted_Waiting s)].

Definition GatewayClassAcceptedStatus_Condition (s : GatewayClassAcceptedStatus) (generation now : Z) : Condition :=
  condition_of GatewayClassAcceptedStatus_kind (GatewayClassAcceptedStatus_errors s) generation now.

Definition GatewayClassAcceptedStatus_HasError (s : GatewayClassAcceptedStatus) : bool :=
  has_error (GatewayClassAcceptedStatus_errors s).

Definition GatewayClassAcceptedStatus_MarshalJSON (s : GatewayClassAcceptedStatus) : json :=
  json_Marshal_map JString (error_texts (GatewayClassAcceptedStatus_errors s)).

Definition GatewayClassAcceptedStatus_UnmarshalJSON (s : GatewayClassAcceptedStatus) (b : json) : result GatewayClassAcceptedStatus :=
  data ← json_Unmarshal_map json_Unmarshal_string b;
  Ok (mkGatewayClassAcceptedStatus
    (read_error data "InvalidParameters" (GatewayClassAccepted_InvalidParameters s))
    (read_error data "Waiting" (GatewayClassAccepted_Waiting s))).

(** *** GatewayReadyStatus *)

Record GatewayReadyStatus : Type := mkGatewayReadyStatus {
  GatewayReady_ListenersNotValid : option error;
  GatewayReady_ListenersNotReady : option error;
  GatewayReady_AddressNotAssigned : option error
}.

Definition zeroGatewayReadyStatus : GatewayReadyStatus :=
  mkGatewayReadyStatus None None None.

Definition GatewayReadyStatus_kind : ConditionKind :=
  mkConditionKind "Ready" false "Ready" "Ready".

Definition GatewayReadyStatus_errors (s : GatewayReadyStatus) : list (string * option error) :=
  [("ListenersNotValid", GatewayReady_ListenersNotValid s);
   ("ListenersNotReady", GatewayReady_ListenersNotReady s);
   ("AddressNotAssigned", GatewayReady_AddressNotAssigned s)].

Definition GatewayReadyStatus_Condition (s : GatewayReadyStatus) (generation now : Z) : Condition :=
  condition_of GatewayReadyStatus_kind (GatewayReadyStatus_errors s) generation now.

Definition GatewayReadyStatus_HasError (s : GatewayReadyStatus) : bool :=
  has_error (GatewayReadyStatus_errors s).

Definition GatewayReadyStatus_MarshalJSON (s : GatewayReadyStatus) : json :=
  json_Marshal_map JString (error_texts (GatewayReadyStatus_errors s)).

Definition GatewayReadyStatus_UnmarshalJSON (s : GatewayReadyStatus) (b : json) : result GatewayReadyStatus :=
  data ← json_Unmarshal_map json_Unmarshal_string b;
  Ok (mkGatewayReadyStatus
    (read_error data "ListenersNotValid" (GatewayReady_ListenersNotValid s))
    (read_error data "ListenersNotReady" (GatewayReady_ListenersNotReady s))
    (read_error data "AddressNotAssigned" (GatewayReady_AddressNotAssigned s))).

(** *** GatewayScheduledStatus *)

Record GatewayScheduledStatus : Type := mkGatewayScheduledStatus {
  GatewayScheduled_NotReconciled : option error;
  GatewayScheduled_PodFailed : option error;
  GatewayScheduled_Unknown : option error;
  GatewayScheduled_NoResources : option error
}.

Definition zeroGatewayScheduledStatus : GatewayScheduledStatus :=
  mkGatewayScheduledStatus None None None None.

Definition GatewayScheduledStatus_kind : ConditionKind :=
  mkConditionKind "Scheduled" false "Scheduled" "Scheduled".

Definition GatewayScheduledStatus_errors (s : GatewayScheduledStatus) : list (string * option error) :=
  [("NotReconciled", GatewayScheduled_NotReconciled s);
   ("PodFailed", GatewayScheduled_PodFailed s);
   ("Unknown", GatewayScheduled_Unknown s);
   ("NoResources", GatewayScheduled_NoResources s)].

Definition GatewayScheduledStatus_Condition (s : GatewayScheduledStatus) (generation now : Z) : Condition :=
  condition_of GatewayScheduledStatus_kind (GatewayScheduledStatus_errors s) generation now.

Definition GatewayScheduledStatus_HasError (s : GatewayScheduledStatus) : bool :=
  has_error (GatewayScheduledStatus_errors s).

Definition GatewayScheduledStatus_MarshalJSON (s : GatewayScheduledStatus) : json :=
  json_Marshal_map JString (error_texts (GatewayScheduledStatus_errors s)).

Definition GatewayScheduledStatus_UnmarshalJSON (s : GatewayScheduledStatus) (b : json) : result GatewayScheduledStatus :=
  data ← json_Unmarshal_map json_Unmarshal_string b;
  Ok (mkGatewayScheduledStatus
    (read_error data "NotReconciled" (GatewayScheduled_NotReconciled s))
    (read_error data "PodFailed" (GatewayScheduled_PodFailed s))
    (read_error data "Unknown" (GatewayScheduled_Unknown s))
    (read_error data "NoResources" (GatewayScheduled_NoResources s))).

(** *** GatewayInSyncStatus *)

Record GatewayInSyncStatus : Type := mkGatewayInSyncStatus {
  GatewayInSync_SyncError : option error
}.

Definition zeroGatewayInSyncStatus : GatewayInSyncStatus :=
  mkGatewayInSyncStatus None.

Definition GatewayInSyncStatus_kind : ConditionKind :=
  mkConditionKind "InSync" false "InSync" "InSync".

Definition GatewayInSyncStatus_errors (s : GatewayInSyncStatus) : list (string * option error) :=
  [("SyncError", GatewayInSync_SyncError s)].

Definition GatewayInSyncStatus_Condition (s : GatewayInSyncStatus) (generation now : Z) : Condition :=
  condition_of GatewayInSyncStatus_kind (GatewayInSyncStatus_errors s) generation now.

Definition GatewayInSyncStatus_HasError (s : GatewayInSyncStatus) : bool :=
  has_error (GatewayInSyncStatus_errors s).

Definition GatewayInSyncStatus_MarshalJSON (s : GatewayInSyncStatus) : json :=
  json_Marshal_map JString (error_texts (GatewayInSyncStatus_errors s)).

Definition GatewayInSyncStatus_UnmarshalJSON (s : GatewayInSyncStatus) (b : json) : result GatewayInSyncStatus :=
  data ← json_Unmarshal_map json_Unmarshal_string b;
  Ok (mkGatewayInSyncStatus
    (read_error data "SyncError" (GatewayInSync_SyncError s))).

(** *** RouteAcceptedStatus *)

Record RouteAcceptedStatus : Type := mkRouteAcceptedStatus {
  RouteAccepted_InvalidRouteKind : option error;
  RouteAccepted_ListenerNamespacePolicy : option error;
  RouteAccepted_ListenerHostnameMismatch : option error;
  RouteAccepted_BindError : option error
}.

Definition zeroRouteAcceptedStatus : RouteAcceptedStatus :=
  mkRouteAcceptedStatus None None None None.

Definition RouteAcceptedStatus_kind : ConditionKind :=
  mkConditionKind "Accepted" false "Accepted" "Route accepted.".

Definition RouteAcceptedStatus_errors (s : RouteAcceptedStatus) : list (string * option error) :=
  [("InvalidRouteKind", RouteAccepted_InvalidRouteKind s);
   ("ListenerNamespacePolicy", RouteAccepted_ListenerNamespacePolicy s);
   ("ListenerHostnameMismatch", RouteAccepted_ListenerHostnameMismatch s);
   ("BindError", RouteAccepted_BindError s)].

Definition RouteAcceptedStatus_Condition (s : RouteAcceptedStatus) (generation now : Z) : Condition :=
  condition_of RouteAcceptedStatus_kind (RouteAcceptedStatus_errors s) generation now.

Definition RouteAcceptedStatus_MarshalJSON (s : RouteAcceptedStatus) : json :=
  json_Marshal_map JString (error_texts (RouteAcceptedStatus_errors s)).

Definition RouteAcceptedStatus_UnmarshalJSON (s : RouteAcceptedStatus) (b : json) : result RouteAcceptedStatus :=
  data ← json_Unmarshal_map json_Unmarshal_string b;
  Ok (mkRouteAcceptedStatus
    (read_error data "InvalidRouteKind" (RouteAccepted_InvalidRouteKind s))
    (read_error data "ListenerNamespacePolicy" (RouteAccepted_ListenerNamespacePolicy s))
    (read_error data "ListenerHostnameMismatch" (RouteAccepted_ListenerHostnameMismatch s))
    (read_error data "BindError" (RouteAccepted_BindError s))).

(** *** RouteResolvedRefsStatus *)

Record RouteResolvedRefsStatus : Type := mkRouteResolvedRefsStatus {
  RouteResolvedRefs_Errors : option error;
  RouteResolvedRefs_ServiceNotFound : option error;
  RouteResolvedRefs_ConsulServiceNotFound : option error;
  RouteResolvedRefs_RefNotPermitted : option error;
  RouteResolvedRefs_InvalidKind : option error;
  RouteResolvedRefs_BackendNotFound : option error
}.

Definition zeroRouteResolvedRefsStatus : RouteResolvedRefsStatus :=
  mkRouteResolvedRefsStatus None None None None None None.

Definition RouteResolvedRefsStatus_kind : ConditionKind :=
  mkConditionKind "ResolvedRefs" false "ResolvedRefs" "ResolvedRefs".

Definition RouteResolvedRefsStatus_errors (s : RouteResolvedRefsStatus) : list (string * option error) :=
  [("Errors", RouteResolvedRefs_Errors s);
   ("ServiceNotFound", RouteResolvedRefs_ServiceNotFound s);
   ("ConsulServiceNotFound", RouteResolvedRefs_ConsulServiceNotFound s);
   ("RefNotPermitted", RouteResolvedRefs_RefNotPermitted s);
   ("InvalidKind", RouteResolvedRefs_InvalidKind s);
   ("BackendNotFound", RouteResolvedRefs_BackendNotFound s)].

Definition RouteResolvedRefsStatus_Condition (s : RouteResolvedRefsStatus) (generation now : Z) : Condition :=
  condition_of RouteResolvedRefsStatus_kind (RouteResolvedRefsStatus_errors s) generation now.

Definition RouteResolvedRefsStatus_HasError (s : RouteResolvedRefsStatus) : bool :=
  has_error (RouteResolvedRefsStatus_errors s).

Definition RouteResolvedRefsStatus_MarshalJSON (s : RouteResolvedRefsStatus) : json :=
  json_Marshal_map JString (error_texts (RouteResolvedRefsStatus_errors s)).

Definition RouteResolvedRefsStatus_UnmarshalJSON (s : RouteResolvedRefsStatus) (b : json) : result RouteResolvedRefsStatus :=
  data ← json_Unmarshal_map json_Unmarshal_string b;
  Ok (mkRouteResolvedRefsStatus
    (read_error data "Errors" (RouteResolvedRefs_Errors s))
    (read_error data "ServiceNotFound" (RouteResolvedRefs_ServiceNotFound s))
    (read_error data "ConsulServiceNotFound" (RouteResolvedRefs_ConsulServiceNotFound s))
    (read_error data "RefNotPermitted" (RouteResolvedRefs_RefNotPermitted s))
    (read_error data "InvalidKind" (RouteResolvedRefs_InvalidKind s))
    (read_error data "BackendNotFound" (RouteResolvedRefs_BackendNotFound s))).

(** *** ListenerConflictedStatus *)

Record ListenerConflictedStatus : Type := mkListenerConflictedStatus {
  ListenerConflicted_HostnameConflict : option error;
  ListenerConflicted_ProtocolConflict : option error;
  ListenerConflicted_RouteConflict : option error
}.

Definition zeroListenerConflictedStatus : ListenerConflictedStatus :=
  mkListenerConflictedStatus None None None.

Definition ListenerConflictedStatus_kind : ConditionKind :=
  mkConditionKind "Conflicted" true "NoConflicts" "NoConflicts".

Definition ListenerConflictedStatus_errors (s : ListenerConflictedStatus) : list (string * option error) :=
  [("HostnameConflict", ListenerConflicted_HostnameConflict s);
   ("ProtocolConflict", ListenerConflicted_ProtocolConflict s);
   ("RouteConflict", ListenerConflicted_RouteConflict s)].

Definition ListenerConflictedStatus_Condition (s : ListenerConflictedStatus) (generation now : Z) : Condition :=
  condition_of ListenerConflictedStatus_kind (ListenerConflictedStatus_errors s) generation now.

Definition ListenerConflictedStatus_HasError (s : ListenerConflictedStatus) : bool :=
  has_error (ListenerConflictedStatus_errors s).

Definition ListenerConflictedStatus_MarshalJSON (s : ListenerConflictedStatus) : json :=
  json_Marshal_map JString (error_texts (ListenerConflictedStatus_errors s)).

Definition ListenerConflictedStatus_UnmarshalJSON (s : ListenerConflictedStatus) (b : json) : result ListenerConflictedStatus :=
  data ← json_Unmarshal_map json_Unmarshal_string b;
  Ok (mkListenerConflictedStatus
    (read_error data "HostnameConflict" (ListenerConflicted_HostnameConflict s))
    (read_error data "ProtocolConflict" (ListenerConflicted_ProtocolConflict s))
    (read_error data "RouteConflict" (ListenerConflicted_RouteConflict s))).

(** *** ListenerDetachedStatus *)

Record ListenerDetachedStatus : Type := mkListenerDetachedStatus {
  ListenerDetached_PortUnavailable : option error;
  ListenerDetached_UnsupportedExtension : option error;
  ListenerDetached_UnsupportedProtocol : option error;
  ListenerDetached_UnsupportedAddress : option error
}.

Definition zeroListenerDetachedStatus : ListenerDetachedStatus :=
  mkListenerDetachedStatus None None None None.

Definition ListenerDetachedStatus_kind : ConditionKind :=
  mkConditionKind "Detached" true "Attached" "Attached".

Definition ListenerDetachedStatus_errors (s : ListenerDetachedStatus) : list (string * option error) :=
  [("PortUnavailable", ListenerDetached_PortUnavailable s);
   ("UnsupportedExtension", ListenerDetached_UnsupportedExtension s);
   ("UnsupportedProtocol", ListenerDetached_UnsupportedProtocol s);
   ("UnsupportedAddress", ListenerDetached_UnsupportedAddress s)].

Definition ListenerDetachedStatus_Condition (s : ListenerDetachedStatus) (generation now : Z) : Condition :=
  condition_of ListenerDetachedStatus_kind (ListenerDetachedStatus_errors s) generation now.

Definition ListenerDetachedStatus_HasError (s : ListenerDetachedStatus) : bool :=
  has_error (ListenerDetachedStatus_errors s).

Definition ListenerDetachedStatus_MarshalJSON (s : ListenerDetachedStatus) : json :=
  json_Marshal_map JString (error_texts (ListenerDetachedStatus_errors s)).

Definition ListenerDetachedStatus_UnmarshalJSON (s : ListenerDetachedStatus) (b : json) : result ListenerDetachedStatus :=
  data ← json_Unmarshal_map json_Unmarshal_string b;
  Ok (mkListenerDetachedStatus
    (read_error data "PortUnavailable" (ListenerDetached_PortUnavailable s))
    (read_error data "UnsupportedExtension" (ListenerDetached_UnsupportedExtension s))
    (read_error data "UnsupportedProtocol" (ListenerDetached_UnsupportedProtocol s))
    (read_error data "UnsupportedAddress" (ListenerDetached_UnsupportedAddress s))).

(** *** ListenerReadyStatus *)

Record ListenerReadyStatus : Type := mkListenerReadyStatus {
  ListenerReady_Invalid : option error;
  ListenerReady_Pending : option error
}.

Definition zeroListenerReadyStatus : ListenerReadyStatus :=
  mkListenerReadyStatus None None.

Definition ListenerReadyStatus_kind : ConditionKind :=
  mkConditionKind "Ready" false "Ready" "Ready".

Definition ListenerReadyStatus_errors (s : ListenerReadyStatus) : list (string * option error) :=
  [("Invalid", ListenerReady_Invalid s);
   ("Pending", ListenerReady_Pending s)].

Definition ListenerReadyStatus_Condition (s : ListenerReadyStatus) (generation now : Z) : Condition :=
  condition_of ListenerReadyStatus_kind (ListenerReadyStatus_errors s) generation now.

Definition ListenerReadyStatus_HasError (s : ListenerReadyStatus) : bool :=
  has_error (ListenerReadyStatus_errors s).

Definition ListenerReadyStatus_MarshalJSON (s : ListenerReadyStatus) : json :=
  json_Marshal_map JString (error_texts (ListenerReadyStatus_errors s)).

Definition ListenerReadyStatus_UnmarshalJSON (s : ListenerReadyStatus) (b : json) : result ListenerReadyStatus :=
  data ← json_Unmarshal_map json_Unmarshal_string b;
  Ok (mkListenerReadyStatus
    (read_error data "Invalid" (ListenerReady_Invalid s))
    (read_error data "Pending" (ListenerReady_Pending s))).

(** *** ListenerResolvedRefsStatus *)

Record ListenerResolvedRefsStatus : Type := mkListenerResolvedRefsStatus {
  ListenerResolvedRefs_InvalidCertificateRef : option error;
  ListenerResolvedRefs_InvalidRouteKinds : option error;
  ListenerResolvedRefs_RefNotPermitted : option error
}.

Definition zeroListenerResolvedRefsStatus : ListenerResolvedRefsStatus :=
  mkListenerResolvedRefsStatus None None None.

Definition ListenerResolvedRefsStatus_kind : ConditionKind :=
  mkConditionKind "ResolvedRefs" false "ResolvedRefs" "ResolvedRefs".

Definition ListenerResolvedRefsStatus_errors (s : ListenerResolvedRefsStatus) : list (string * option error) :=
  [("InvalidCertificateRef", ListenerResolvedRefs_InvalidCertificateRef s);
   ("InvalidRouteKinds", ListenerResolvedRefs_InvalidRouteKinds s);
   ("RefNotPermitted", ListenerResolvedRefs_RefNotPermitted s)].

Definition ListenerResolvedRefsStatus_Condition (s : ListenerResolvedRefsStatus) (generation now : Z) : Condition :=
  condition_of ListenerResolvedRefsStatus_kind (ListenerResolvedRefsStatus_errors s) generation now.

Definition ListenerResolvedRefsStatus_HasError (s : ListenerResolvedRefsStatus) : bool :=
  has_error (ListenerResolvedRefsStatus_errors s).

Definition ListenerResolvedRefsStatus_MarshalJSON (s : ListenerResolvedRefsStatus) : json :=
  json_Marshal_map JString (error_texts (ListenerResolvedRefsStatus_errors s)).

Definition ListenerResolvedRefsStatus_UnmarshalJSON (s : ListenerResolvedRefsStatus) (b : json) : result ListenerResolvedRefsStatus :=
  data ← json_Unmarshal_map json_Unmarshal_string b;
  Ok (mkListenerResolvedRefsStatus
    (read_error data "InvalidCertificateRef" (ListenerResolvedRefs_InvalidCertificateRef s))
    (read_error data "InvalidRouteKinds" (ListenerResolvedRefs_InvalidRouteKinds s))
    (read_error data "RefNotPermitted" (ListenerResolvedRefs_RefNotPermitted s))).

(** ** Aggregates *)

Record GatewayClassStatus : Type := mkGatewayClassStatus {
  gcs_Accepted : GatewayClassAcceptedStatus
}.

Definition GatewayClassStatus_Conditions (s : GatewayClassStatus)
    (generation : Z) (clock : nat → Z) : list Condition :=
  [GatewayClassAcceptedStatus_Condition (gcs_Accepted s) generation (clock 0)].

Record GatewayStatus : Type := mkGatewayStatus {
  gs_Ready : GatewayReadyStatus;
  gs_Scheduled : GatewayScheduledStatus;
  gs_InSync : GatewayInSyncStatus
}.

Definition zeroGatewayStatus : GatewayStatus :=
  mkGatewayStatus zeroGatewayReadyStatus zeroGatewayScheduledStatus zeroGatewayInSyncStatus.

Definition GatewayStatus_Conditions (s : GatewayStatus)
    (generation : Z) (clock : nat → Z) : list Condition :=
  [GatewayReadyStatus_Condition (gs_Ready s) generation (clock 0);
   GatewayScheduledStatus_Condition (gs_Scheduled s) generation (clock 1);
   GatewayInSyncStatus_Condition (gs_InSync s) generation (clock 2)].

Record RouteStatus : Type := mkRouteStatus {
  rst_Accepted : RouteAcceptedStatus;
  rst_ResolvedRefs : RouteResolvedRefsStatus
}.

Definition zeroRouteStatus : RouteStatus :=
  mkRouteStatus zeroRouteAcceptedStatus zeroRouteResolvedRefsStatus.

Definition RouteStatus_Conditions (s : RouteStatus)
    (generation : Z) (clock : nat → Z) : list Condition :=
  [RouteAcceptedStatus_Condition (rst_Accepted s) generation (clock 0);
   RouteResolvedRefsStatus_Condition (rst_ResolvedRefs s) generation (clock 1)].

Record ListenerStatus : Type := mkListenerStatus {
  ls_Conflicted : ListenerConflictedStatus;
  ls_Detached : ListenerDetachedStatus;
  ls_Ready : ListenerReadyStatus;
  ls_ResolvedRefs : ListenerResolvedRefsStatus
}.

Definition zeroListenerStatus : ListenerStatus :=
  mkListenerStatus zeroListenerConflictedStatus zeroListenerDetachedStatus
    zeroListenerReadyStatus zeroListenerResolvedRefsStatus.

Definition ListenerStatus_Conditions (s : ListenerStatus)
    (generation : Z) (clock : nat → Z) : list Condition :=
  [ListenerConflictedStatus_Condition (ls_Conflicted s) generation (clock 0);
   ListenerDetachedStatus_Condition (ls_Detached s) generation (clock 1);
   ListenerReadyStatus_Condition (ls_Ready s) generation (clock 2);
   ListenerResolvedRefsStatus_Condition (ls_ResolvedRefs s) generation (clock 3)].

Definition ListenerStatus_Valid (s : ListenerStatus) : bool :=
  if ListenerConflictedStatus_HasError (ls_Conflicted s)
     || ListenerDetachedStatus_HasError (ls_Detached s)
     || ListenerResolvedRefsStatus_HasError (ls_ResolvedRefs s)
  then false else true.

(** ** Comparisons ([equality.go]) *)

Definition conditionEqual (a b : Condition) : bool :=
  if bool_decide (c_Type a ≠ c_Type b)
     || bool_decide (c_ObservedGeneration a ≠ c_ObservedGeneration b)
     || bool_decide (c_Status a ≠ c_Status b)
     || bool_decide (c_Reason a ≠ c_Reason b)
     || bool_decide (c_Message a ≠ c_Message b)
  then false else true.

Definition ConditionsEqual (a b : list Condition) : bool := forallb2 conditionEqual a b.

Definition listenerStatusEqual (a b : ListenerStatusObj) : bool :=
  if bool_decide (lso_Name a ≠ lso_Name b) then false
  else if bool_decide (lso_SupportedKinds a ≠ lso_SupportedKinds b) then false
  else if bool_decide (lso_AttachedRoutes a ≠ lso_AttachedRoutes b) then false
  else ConditionsEqual (lso_Conditions a) (lso_Conditions b).

Definition ListenerStatusesEqual (a b : list ListenerStatusObj) : bool :=
  forallb2 listenerStatusEqual a b.

(** Two parent references are compared through their JSON texts, which are
    equal exactly when the references are. *)
Definition parentStatusEqual (a b : RouteParentStatus) : bool :=
  if bool_decide (rps_ControllerName a ≠ rps_ControllerName b) then false
  else if bool_decide (rps_ParentRef a ≠ rps_ParentRef b) then false
  else ConditionsEqual (rps_Conditions a) (rps_Conditions b).

Definition RouteStatusEqual (a b : list RouteParentStatus) : bool :=
  forallb2 parentStatusEqual a b.

Definition GatewayStatusEqual (a b : GatewayStatusObj) : bool :=
  if negb (ConditionsEqual (gso_Conditions a) (gso_Conditions b)) then false
  else if negb (ListenerStatusesEqual (gso_Listeners a) (gso_Listeners b)) then false
  else true.

(** ** Lemmas *)

(** What a generated struct owes the template: its error names are fixed and
    distinct, and [UnmarshalJSON] reads exactly them. *)
Class GeneratedStatus {S : Type} (errors : S → list (string * option error))
    (unmarshal : S → json → result S) (zero : S) : Prop := {
  generated_NoDup : NoDup (errors zero).*1;
  generated_names : ∀ s, (errors s).*1 = (errors zero).*1;
  generated_unmarshal : ∀ b data,
    json_Unmarshal_map json_Unmarshal_string b = Ok data →
    ∃ s', unmarshal zero b = Ok s' ∧
          errors s' = (λ n, (n, ErrString <$> data !! n)) <$> (errors zero).*1
}.

(** What is visible of the errors: their names and texts. *)
Definition visible (errs : list (string * option error)) : list (string * option string) :=
  (λ ne : string * option error, (ne.1, Error <$> ne.2)) <$> errs.

Lemma condition_of_visible k errs1 errs2 g t :
  visible errs1 = visible errs2 →
  condition_of k errs1 g t = condition_of k errs2 g t.
Proof.
  unfold condition_of. revert errs2.
  induction errs1 as [|[n1 [e1|]] errs1 IH]; intros [|[n2 [e2|]] errs2]; try done;
    simpl; intros [=]; subst; f_equal; auto.
Qed.

Lemma has_error_false errs : has_error errs = false ↔ first_error errs = None.
Proof.
  induction errs as [|[n [e|]] errs IH]; [done|done|exact IH].
Qed.

Lemma condition_of_Status k errs g t :
  c_Status (condition_of k errs g t) =
  if xorb (ck_invert k) (has_error errs) then ConditionFalse else ConditionTrue.
Proof.
  unfold condition_of. pose proof (has_error_false errs) as Hh.
  destruct (first_error errs) as [[n e]|], (has_error errs), (ck_invert k);
    simpl; try done; destruct Hh as [Hh1 Hh2];
    first [discriminate (Hh1 eq_refl) | discriminate (Hh2 eq_refl)].
Qed.

Lemma condition_of_Type k errs g t : c_Type (condition_of k errs g t) = ck_type k.
Proof. unfold condition_of. by destruct (first_error errs) as [[n e]|]. Qed.

(** The status value that means "no problem" for a condition kind. *)
Definition healthy (k : ConditionKind) : ConditionStatus :=
  if ck_invert k then ConditionFalse else ConditionTrue.

Lemma condition_of_healthy k errs g t :
  c_Status (condition_of k errs g t) = healthy k ↔ has_error errs = false.
Proof.
  rewrite condition_of_Status. unfold healthy. by destruct (ck_invert k), (has_error errs).
Qed.

Lemma ListenerStatus_Valid_true s :
  ListenerStatus_Valid s = true ↔
  has_error (ListenerConflictedStatus_errors (ls_Conflicted s)) = false ∧
  has_error (ListenerDetachedStatus_errors (ls_Detached s)) = false ∧
  has_error (ListenerResolvedRefsStatus_errors (ls_ResolvedRefs s)) = false.
Proof.
  unfold ListenerStatus_Valid, ListenerConflictedStatus_HasError,
    ListenerDetachedStatus_HasError, ListenerResolvedRefsStatus_HasError.
  destruct (has_error (ListenerConflictedStatus_errors _)),
    (has_error (ListenerDetachedStatus_errors _)),
    (has_error (ListenerResolvedRefsStatus_errors _)); simpl; intuition done.
Qed.

Lemma lookup_error_texts (errs : list (string * option error)) n acc :
  NoDup errs.*1 →
  foldl add_error_text acc errs !! n =
  match list_find (λ ne : string * option error, ne.1 = n) errs with
  | Some (_, (_, Some e)) => Some (Error e)
  | _ => acc !! n
  end.
Proof.
  revert acc. induction errs as [|[m oe] errs IH]; intros acc Hnd; [done|].
  simpl in Hnd. apply NoDup_cons in Hnd as [Hm Hnd]. cbn [foldl list_find fst snd].
  rewrite IH by done. case_decide as Hmn.
  - subst. assert (list_find (λ ne : string * option error, ne.1 = n) errs = None) as ->.
    { apply list_find_None, Forall_forall. intros [k e'] Hin Hk. simpl in Hk. subst.
      apply Hm, list_elem_of_fmap. exists (n, e'). done. }
    destruct oe; unfold add_error_text; simpl; [by rewrite lookup_insert_eq|done].
  - destruct (list_find _ errs) as [[i [k [e|]]]|]; simpl; try done;
      destruct oe; unfold add_error_text; simpl; try done; by rewrite lookup_insert_ne.
Qed.

(** The texts that [MarshalJSON] stores are exactly the visible ones. *)
Lemma visible_error_texts errs :
  NoDup errs.*1 →
  (λ n, (n, error_texts errs !! n)) <$> errs.*1 = visible errs.
Proof.
  intros Hnd. unfold visible. rewrite <- list_fmap_compose.
  apply list_fmap_ext. intros i [n oe] Hi. simpl. f_equal.
  unfold error_texts. rewrite lookup_error_texts by done.
  assert (∃ j, list_find (λ ne : string * option error, ne.1 = n) errs = Some (j, (n, oe)))
    as [j ->].
  { assert ((n, oe) ∈ errs) as Hin by (eapply list_elem_of_lookup_2; done).
    destruct (list_find_elem_of (λ ne : string * option error, ne.1 = n) errs (n, oe) Hin eq_refl)
      as [[j [n' oe']] Hj].
    exists j. rewrite Hj. apply list_find_Some in Hj as (Hj & Hn & _). simpl in Hn. subst.
    f_equal. f_equal.
    assert (i = j) as ->.
    { eapply (NoDup_lookup (errs.*1)); [done| |];
        rewrite list_lookup_fmap; [rewrite Hi | rewrite Hj]; done. }
    congruence. }
  destruct oe; [done|]. by rewrite lookup_empty.
Qed.

(** Persisting a generated status keeps everything its condition shows. *)
Lemma generated_roundtrip {S} (errors : S → list (string * option error))
    unmarshal zero `{GeneratedStatus S errors unmarshal zero} (s : S) :
  ∃ s', unmarshal zero (json_Marshal_map JString (error_texts (errors s))) = Ok s' ∧
        visible (errors s') = visible (errors s).
Proof.
  destruct (generated_unmarshal _ _ (json_string_map_roundtrip (error_texts (errors s))))
    as (s' & Hu & He).
  pose proof (generated_names (errors:=errors) s) as Hn.
  exists s'. split; [done|]. rewrite He. unfold visible at 1.
  rewrite <- list_fmap_compose, <- visible_error_texts; rewrite Hn.
  - apply list_fmap_ext. intros i n _. simpl. f_equal. by destruct (_ !! n).
  - eapply generated_NoDup.
Qed.

Ltac solve_generated unmarshal :=
  split;
  [ apply (bool_decide_unpack _); by vm_compute
  | by intros []
  | intros b data Hd; eexists; split;
    [ unfold unmarshal; rewrite Hd; reflexivity
    | cbn; unfold read_error; repeat (f_equal; try by destruct (data !! _)) ] ].

#[export] Instance GatewayClassAcceptedStatus_generated : GeneratedStatus GatewayClassAcceptedStatus_errors GatewayClassAcceptedStatus_UnmarshalJSON zeroGatewayClassAcceptedStatus.
Proof. solve_generated GatewayClassAcceptedStatus_UnmarshalJSON. Qed.

#[export] Instance GatewayReadyStatus_generated : GeneratedStatus GatewayReadyStatus_errors GatewayReadyStatus_UnmarshalJSON zeroGatewayReadyStatus.
Proof. solve_generated GatewayReadyStatus_UnmarshalJSON. Qed.

#[export] Instance GatewayScheduledStatus_generated : GeneratedStatus GatewayScheduledStatus_errors GatewayScheduledStatus_UnmarshalJSON zeroGatewayScheduledStatus.
Proof. solve_generated GatewayScheduledStatus_UnmarshalJSON. Qed.

#[export] Instance GatewayInSyncStatus_generated : GeneratedStatus GatewayInSyncStatus_errors GatewayInSyncStatus_UnmarshalJSON zeroGatewayInSyncStatus.
Proof. solve_generated GatewayInSyncStatus_UnmarshalJSON. Qed.

#[export] Instance RouteAcceptedStatus_generated : GeneratedStatus RouteAcceptedStatus_errors RouteAcceptedStatus_UnmarshalJSON zeroRouteAcceptedStatus.
Proof. solve_generated RouteAcceptedStatus_UnmarshalJSON. Qed.

#[export] Instance RouteResolvedRefsStatus_generated : GeneratedStatus RouteResolvedRefsStatus_errors RouteResolvedRefsStatus_UnmarshalJSON zeroRouteResolvedRefsStatus.
Proof. solve_generated RouteResolvedRefsStatus_UnmarshalJSON. Qed.

#[export] Instance ListenerConflictedStatus_generated : GeneratedStatus ListenerConflictedStatus_errors ListenerConflictedStatus_UnmarshalJSON zeroListenerConflictedStatus.
Proof. solve_generated ListenerConflictedStatus_UnmarshalJSON. Qed.

#[export] Instance ListenerDetachedStatus_generated : GeneratedStatus ListenerDetachedStatus_errors ListenerDetachedStatus_UnmarshalJSON zeroListenerDetachedStatus.
Proof. solve_generated ListenerDetachedStatus_UnmarshalJSON. Qed.

#[export] Instance ListenerReadyStatus_generated : GeneratedStatus ListenerReadyStatus_errors ListenerReadyStatus_UnmarshalJSON zeroListenerReadyStatus.
Proof. solve_generated ListenerReadyStatus_UnmarshalJSON. Qed.

#[export] Instance ListenerResolvedRefsStatus_generated : GeneratedStatus ListenerResolvedRefsStatus_errors ListenerResolvedRefsStatus_UnmarshalJSON zeroListenerResolvedRefsStatus.
Proof. solve_generated ListenerResolvedRefsStatus_UnmarshalJSON. Qed.

Lemma conditionEqual_spec a b :
  conditionEqual a b = true ↔
  a = mkCondition (c_Type b) (c_Status b) (c_ObservedGeneration b)
        (c_LastTransitionTime a) (c_Reason b) (c_Message b).
Proof.
  unfold conditionEqual. destruct a, b; simpl.
  repeat case_bool_decide; simpl; split; try done; intros; try congruence; naive_solver.
Qed.

Lemma conditionEqual_refl a : conditionEqual a a = true.
Proof. apply conditionEqual_spec. by destruct a. Qed.

Lemma ConditionsEqual_refl a : ConditionsEqual a a = true.
Proof. apply forallb2_refl, conditionEqual_refl. Qed.

Lemma listenerStatusEqual_refl a : listenerStatusEqual a a = true.
Proof.
  unfold listenerStatusEqual. rewrite !bool_decide_eq_false_2 by auto.
  apply ConditionsEqual_refl.
Qed.

(** The comparisons are equality up to timestamps. *)
Definition strip_time (c : Condition) : Condition :=
  mkCondition (c_Type c) (c_Status c) (c_ObservedGeneration c) 0 (c_Reason c) (c_Message c).
Definition strip_listener (l : ListenerStatusObj) : ListenerStatusObj :=
  mkListenerStatusObj (lso_Name l) (lso_SupportedKinds l) (lso_AttachedRoutes l)
    (strip_time <$> lso_Conditions l).
Definition strip_parent (p : RouteParentStatus) : RouteParentStatus :=
  mkRouteParentStatus (rps_ParentRef p) (rps_ControllerName p)
    (strip_time <$> rps_Conditions p).

Lemma conditionEqual_strip a b :
  conditionEqual a b = true ↔ strip_time a = strip_time b.
Proof.
  rewrite conditionEqual_spec. destruct a, b; unfold strip_time; simpl.
  split; intros [=]; subst; done.
Qed.

Lemma forallb2_strip {A B} (f : A → A → bool) (strip : A → B) xs ys :
  (∀ a b, f a b = true ↔ strip a = strip b) →
  forallb2 f xs ys = true ↔ strip <$> xs = strip <$> ys.
Proof.
  intros Hf. rewrite forallb2_Forall2, list_eq_Forall2, Forall2_fmap.
  split; intros Hall; (eapply Forall2_impl; [exact Hall|]); intros a b; by apply Hf.
Qed.

Lemma ConditionsEqual_strip a b :
  ConditionsEqual a b = true ↔ strip_time <$> a = strip_time <$> b.
Proof. apply forallb2_strip, conditionEqual_strip. Qed.

Lemma listenerStatusEqual_strip a b :
  listenerStatusEqual a b = true ↔ strip_listener a = strip_listener b.
Proof.
  unfold listenerStatusEqual, strip_listener. destruct a, b; simpl.
  repeat case_bool_decide; rewrite ?ConditionsEqual_strip; split;
    intros; try done; try congruence; naive_solver.
Qed.

Lemma ListenerStatusesEqual_strip a b :
  ListenerStatusesEqual a b = true ↔ strip_listener <$> a = strip_listener <$> b.
Proof. apply forallb2_strip, listenerStatusEqual_strip. Qed.

Lemma parentStatusEqual_strip a b :
  parentStatusEqual a b = true ↔ strip_parent a = strip_parent b.
Proof.
  unfold parentStatusEqual, strip_parent. destruct a, b; simpl.
  repeat case_bool_decide; rewrite ?ConditionsEqual_strip; split;
    intros; try done; try congruence; naive_solver.
Qed.

Lemma RouteStatusEqual_strip a b :
  RouteStatusEqual a b = true ↔ strip_parent <$> a = strip_parent <$> b.
Proof. apply forallb2_strip, parentStatusEqual_strip. Qed.

Lemma strip_condition_of k errs g t :
  strip_time (condition_of k errs g t) = condition_of k errs g 0.
Proof. unfold condition_of. by destruct (first_error errs) as [[? ?]|]. Qed.

(** Decoding the encoded status into a fresh struct succeeds, and the decoded
    status reports the same condition. *)
Definition survives {S : Type} (condition : S → Z → Z → Condition)
    (marshal : S → json) (unmarshal : S → json → result S) (zero : S) : Prop :=
  ∀ s, ∃ s', unmarshal zero (marshal s) = Ok s' ∧
             ∀ generation now, condition s' generation now = condition s generation now.

Lemma generated_survives {S} k (errors : S → list (string * option error))
    unmarshal zero `{GeneratedStatus S errors unmarshal zero} :
  survives (λ s, condition_of k (errors s))
    (λ s, json_Marshal_map JString (error_texts (errors s))) unmarshal zero.
Proof.
  intros s. destruct (generated_roundtrip errors unmarshal zero s) as (s' & Hu & Hv).
  exists s'. split; [done|]. intros g t. by apply condition_of_visible.
Qed.

(** Every generated status survives persistence.  Encoding a status struct
    with its [MarshalJSON] and decoding it into a zero struct with its
    [UnmarshalJSON] never fails, and the restored struct reports exactly the
    same Kubernetes condition (type, status, reason, message), for all ten
    generated condition structs. *)
Theorem statuses_survive_persistence :
  survives GatewayClassAcceptedStatus_Condition GatewayClassAcceptedStatus_MarshalJSON
    GatewayClassAcceptedStatus_UnmarshalJSON zeroGatewayClassAcceptedStatus ∧
  survives GatewayReadyStatus_Condition GatewayReadyStatus_MarshalJSON
    GatewayReadyStatus_UnmarshalJSON zeroGatewayReadyStatus ∧
  survives GatewayScheduledStatus_Condition GatewayScheduledStatus_MarshalJSON
    GatewayScheduledStatus_UnmarshalJSON zeroGatewayScheduledStatus ∧
  survives GatewayInSyncStatus_Condition GatewayInSyncStatus_MarshalJSON
    GatewayInSyncStatus_UnmarshalJSON zeroGatewayInSyncStatus ∧
  survives RouteAcceptedStatus_Condition RouteAcceptedStatus_MarshalJSON
    RouteAcceptedStatus_UnmarshalJSON zeroRouteAcceptedStatus ∧
  survives RouteResolvedRefsStatus_Condition RouteResolvedRefsStatus_MarshalJSON
    RouteResolvedRefsStatus_UnmarshalJSON zeroRouteResolvedRefsStatus ∧
  survives ListenerConflictedStatus_Condition ListenerConflictedStatus_MarshalJSON
    ListenerConflictedStatus_UnmarshalJSON zeroListenerConflictedStatus ∧
  survives ListenerDetachedStatus_Condition ListenerDetachedStatus_MarshalJSON
    ListenerDetachedStatus_UnmarshalJSON zeroListenerDetachedStatus ∧
  survives ListenerReadyStatus_Condition ListenerReadyStatus_MarshalJSON
    ListenerReadyStatus_UnmarshalJSON zeroListenerReadyStatus ∧
  survives ListenerResolvedRefsStatus_Condition ListenerResolvedRefsStatus_MarshalJSON
    ListenerResolvedRefsStatus_UnmarshalJSON zeroListenerResolvedRefsStatus.
Proof. repeat split; apply generated_survives; apply _. Qed.

(** A listener is valid exactly when the conditions published for it say so:
    [Valid] holds iff every published "Conflicted" and "Detached" condition
    is False and every published "ResolvedRefs" condition is True.  The
    "Ready" condition plays no part in it. *)
Theorem listener_valid_iff_conditions s generation clock :
  ListenerStatus_Valid s = true ↔
  (∀ c, c ∈ ListenerStatus_Conditions s generation clock →
     (c_Type c = "Conflicted" ∨ c_Type c = "Detached" → c_Status c = ConditionFalse) ∧
     (c_Type c = "ResolvedRefs" → c_Status c = ConditionTrue)).
Proof.
  rewrite ListenerStatus_Valid_true.
  rewrite <- (condition_of_healthy ListenerConflictedStatus_kind _ generation (clock 0)).
  rewrite <- (condition_of_healthy ListenerDetachedStatus_kind _ generation (clock 1)).
  rewrite <- (condition_of_healthy ListenerResolvedRefsStatus_kind _ generation (clock 3)).
  unfold ListenerStatus_Conditions, ListenerConflictedStatus_Condition,
    ListenerDetachedStatus_Condition, ListenerReadyStatus_Condition,
    ListenerResolvedRefsStatus_Condition, healthy.
  setoid_rewrite elem_of_cons. setoid_rewrite elem_of_cons.
  setoid_rewrite elem_of_cons. setoid_rewrite list_elem_of_singleton.
  split.
  - intros (H1 & H2 & H3) c Hc.
    destruct Hc as [Hc | [Hc | [Hc | Hc]]]; subst c; rewrite condition_of_Type;
      split; intros Ht; try destruct Ht as [Ht | Ht];
      first [discriminate | exact H1 | exact H2 | exact H3].
  - intros Hall.
    destruct (Hall _ (or_introl eq_refl)) as [C1 _].
    destruct (Hall _ (or_intror (or_introl eq_refl))) as [C2 _].
    destruct (Hall _ (or_intror (or_intror (or_intror eq_refl)))) as [_ C4].
    rewrite condition_of_Type in C1, C2, C4. auto.
Qed.

End statuses.

Arguments generated_roundtrip {_ _} _ _ _ {_} _.
