(* ===== verification/GatewayClient.v ===== *)
(** * The Kubernetes client wrapper ([internal/k8s/gatewayclient])

    [RuntimeClient] is the controller-runtime client underneath (code outside
    the repository): what a read of the API server returns.  [Client] is the
    interface the reconcilers are written against, and [New] implements it
    the way [gatewayclient.go] does: a "not found" answer becomes a nil
    object without error, every other failure a [K8sError]. *)

From S2P Require Import Prelude Errors K8s.

(** The answer of a controller-runtime [Get]. *)
Inductive get_result (A : Type) : Type :=
  | Found (a : A)
  | NotFound
  | Failed (e : error).
Arguments Found {A} a.
Arguments NotFound {A}.
Arguments Failed {A} e.

(** Reads of the controller-runtime client the wrapper performs.  A pod comes
    with its deletion mark ([true] when [DeletionTimestamp] is set). *)
Record RuntimeClient : Type := {
  rc_GatewayClassConfig : NamespacedName → get_result GatewayClassConfig;
  rc_GatewayClass : NamespacedName → get_result GatewayClass;
  rc_Gateway : NamespacedName → get_result Gateway;
  rc_Secret : NamespacedName → get_result Secret;
  rc_Service : NamespacedName → get_result Service;
  rc_HTTPRoute : NamespacedName → get_result K8sHTTPRoute;
  rc_TCPRoute : NamespacedName → get_result K8sTCPRoute;
  rc_MeshService : NamespacedName → get_result MeshService;
  rc_Namespace : NamespacedName → get_result Namespace;
  rc_Deployment : NamespacedName → get_result Deployment;
  rc_ListGatewayClasses : result (list GatewayClass);
  rc_ListGateways : result (list Gateway);
  rc_ListPods : gmap string string → result (list (Pod * bool));
  rc_ListDeployments : gmap string string → result (list Deployment);
  rc_ListReferenceGrants : string → result (list ReferenceGrant);
  rc_ListReferencePolicies : string → result (list ReferenceGrant);
  rc_ListGatewaysIn : string → result (list Gateway);
  rc_ListHTTPRoutes : result (list K8sHTTPRoute);
  rc_ListHTTPRoutesIn : string → result (list K8sHTTPRoute);
  rc_ListTCPRoutes : result (list K8sTCPRoute);
  rc_ListTCPRoutesIn : string → result (list K8sTCPRoute)
}.

(** The common shape of the getters. *)
Definition getter {A} (r : get_result A) : result (option A) :=
  match r with
  | Found a => Ok (Some a)
  | NotFound => Ok None
  | Failed e => Err (ErrK8s e)
  end.

(** The common shape of the listings. *)
Definition lister {A} (r : result A) : result A :=
  match r with
  | Ok a => Ok a
  | Err e => Err (ErrK8s e)
  end.

Section client.
Context (rc : RuntimeClient) (controllerName : string).

Definition GetGatewayClassConfig (key : NamespacedName) := getter (rc_GatewayClassConfig rc key).
Definition GetGatewayClass (key : NamespacedName) := getter (rc_GatewayClass rc key).
Definition GetGateway (key : NamespacedName) := getter (rc_Gateway rc key).
Definition GetService (key : NamespacedName) := getter (rc_Service rc key).
Definition GetSecret (key : NamespacedName) := getter (rc_Secret rc key).
Definition GetHTTPRoute (key : NamespacedName) := getter (rc_HTTPRoute rc key).
Definition GetTCPRoute (key : NamespacedName) := getter (rc_TCPRoute rc key).
Definition GetMeshService (key : NamespacedName) := getter (rc_MeshService rc key).
Definition GetK8sNamespace (key : NamespacedName) := getter (rc_Namespace rc key).
Definition GetDeployment (key : NamespacedName) := getter (rc_Deployment rc key).

Definition GetGatewaysInNamespace (ns : string) := lister (rc_ListGatewaysIn rc ns).
Definition GetHTTPRoutes := lister (rc_ListHTTPRoutes rc).
Definition GetHTTPRoutesInNamespace (ns : string) := lister (rc_ListHTTPRoutesIn rc ns).
Definition GetTCPRoutes := lister (rc_ListTCPRoutes rc).
Definition GetTCPRoutesInNamespace (ns : string) := lister (rc_ListTCPRoutesIn rc ns).

Definition gatewayClassUsesConfig (gc : GatewayClass) (gcc : GatewayClassConfig) : bool :=
  match gc_ParametersRef gc with
  | Some ref =>
      bool_decide (prm_Group ref = APIGroup) &&
      bool_decide (prm_Kind ref = GatewayClassConfigKind) &&
      bool_decide (prm_Name ref = om_Name (gcc_Meta gcc))
  | None => false
  end.

Definition GatewayClassConfigInUse (gcc : GatewayClassConfig) : result bool :=
  items ← lister (rc_ListGatewayClasses rc);
  Ok (existsb (λ gc, gatewayClassUsesConfig gc gcc) items).

Definition GatewayClassesUsingConfig (gcc : GatewayClassConfig) : result (list GatewayClass) :=
  items ← lister (rc_ListGatewayClasses rc);
  Ok (List.filter (λ gc, gatewayClassUsesConfig gc gcc) items).

Definition GatewayClassInUse (gc : GatewayClass) : result bool :=
  items ← lister (rc_ListGateways rc);
  Ok (existsb (λ g, bool_decide (gw_GatewayClassName g = om_Name (gc_Meta gc))) items).

Definition PodsWithLabels (labels : gmap string string) : result (list Pod) :=
  items ← lister (rc_ListPods rc labels);
  Ok (List.filter (λ p : Pod * bool, negb p.2) items).*1.

(** The errors of the inner getters are wrapped in [K8sError] a second time. *)
Definition GetConfigForGatewayClassName (name : string) :
    result (GatewayClassConfig * bool) :=
  match GetGatewayClass (mkNamespacedName "" name) with
  | Err e => Err (ErrK8s e)
  | Ok None => Ok (zeroGatewayClassConfig, false)
  | Ok (Some class) =>
      if bool_decide (gc_ControllerName class ≠ controllerName) then
        Ok (zeroGatewayClassConfig, false)
      else
        match gc_ParametersRef class with
        | Some ref =>
            if bool_decide (prm_Group ref ≠ APIGroup)
               || bool_decide (prm_Kind ref ≠ GatewayClassConfigKind) then
              Ok (zeroGatewayClassConfig, false)
            else
              match GetGatewayClassConfig (mkNamespacedName "" (prm_Name ref)) with
              | Err e => Err (ErrK8s e)
              | Ok None => Ok (zeroGatewayClassConfig, false)
              | Ok (Some found) => Ok (found, true)
              end
        | None => Ok (zeroGatewayClassConfig, true)
        end
  end.

Definition IsManagedRoute (namespace : string) (parents : list ParentReference) :
    result bool :=
  items ← lister (rc_ListDeployments rc {[ManagedLabel := "true"]});
  Ok (existsb (λ ref,
        match ReferencesGateway namespace ref with
        | Some name =>
            existsb (λ d, bool_decide (name = GatewayByLabels (om_Labels (dep_Meta d)))) items
        | None => false
        end) parents).

Definition HasManagedDeployment (gw : Gateway) : result bool :=
  items ← lister (rc_ListDeployments rc (LabelsForGateway gw));
  Ok (bool_decide (0 < length items)).

Definition GetReferenceGrantsInNamespace (namespace : string) : result (list ReferenceGrant) :=
  refGrants ← lister (rc_ListReferenceGrants rc namespace);
  refPolicies ← lister (rc_ListReferencePolicies rc namespace);
  Ok (refGrants ++ refPolicies).

End client.

(** ** The interface of the reconcilers *)

Record Client : Type := {
  cl_GetSecret : NamespacedName → result (option Secret);
  cl_GetService : NamespacedName → result (option Service);
  cl_GetMeshService : NamespacedName → result (option MeshService);
  cl_GetNamespace : NamespacedName → result (option Namespace);
  cl_GetGatewayClassConfig : NamespacedName → result (option GatewayClassConfig);
  cl_PodsWithLabels : gmap string string → result (list Pod);
  cl_GetReferenceGrantsInNamespace : string → result (list ReferenceGrant);
  cl_GetConfigForGatewayClassName : string → result (GatewayClassConfig * bool);
  cl_IsManagedRoute : string → list ParentReference → result bool
}.

Definition New (rc : RuntimeClient) (controllerName : string) : Client := {|
  cl_GetSecret := GetSecret rc;
  cl_GetService := GetService rc;
  cl_GetMeshService := GetMeshService rc;
  cl_GetNamespace := GetK8sNamespace rc;
  cl_GetGatewayClassConfig := GetGatewayClassConfig rc;
  cl_PodsWithLabels := PodsWithLabels rc;
  cl_GetReferenceGrantsInNamespace := GetReferenceGrantsInNamespace rc;
  cl_GetConfigForGatewayClassName := GetConfigForGatewayClassName rc controllerName;
  cl_IsManagedRoute := IsManagedRoute rc
|}.

(** ** The requeueing middleware ([middleware.go])

    A [ctrl.Result] is modelled by its [RequeueAfter] in milliseconds. *)

Definition requeueAfter : Z := 100.

Definition RescheduleK8sError (res : Z) (err : option error) : Z * option error :=
  match err with
  | None => (res, None)
  | Some e =>
      match As_K8sError e with
      | Some _ => (res, Some e)
      | None => (requeueAfter, None)
      end
  end.

(** ** Lemmas *)

Lemma As_K8sError_K8s e : As_K8sError (ErrK8s e) = Some e.
Proof. done. Qed.

Lemma getter_Err {A} (r : get_result A) e :
  getter r = Err e → ∃ i, e = ErrK8s i.
Proof. destruct r; simpl; intros [=]; eauto. Qed.

Lemma lister_Err {A} (r : result A) e : lister r = Err e → ∃ i, e = ErrK8s i.
Proof. destruct r; simpl; intros [=]; eauto. Qed.

(** What a client owes its users: errors are retried immediately. *)
Definition K8sErrors {A} (r : result A) : Prop :=
  ∀ e, r = Err e → is_Some (As_K8sError e).

Lemma K8sErrors_getter {A} (r : get_result A) : K8sErrors (getter r).
Proof. intros e He. apply getter_Err in He as [i ->]. eauto. Qed.

Lemma K8sErrors_lister {A} (r : result A) : K8sErrors (lister r).
Proof. intros e He. apply lister_Err in He as [i ->]. eauto. Qed.

Lemma K8sErrors_bind {A B} (r : result A) (f : A → result B) :
  K8sErrors r → (∀ a, K8sErrors (f a)) → K8sErrors (r ≫= f).
Proof.
  intros Hr Hf e. destruct r as [a|e']; cbn; [apply Hf|].
  intros [= <-]. by apply (Hr e').
Qed.

Lemma K8sErrors_Ok {A} (a : A) : K8sErrors (Ok a).
Proof. by intros e. Qed.

#[export] Hint Resolve K8sErrors_getter K8sErrors_lister K8sErrors_bind K8sErrors_Ok : go.

(** The client keeps its error discipline.  Whatever the API server
    answers, every error the implementation returns through the [Client]
    interface is a [K8sError], so the requeueing middleware passes it on for
    an immediate retry instead of swallowing it into a delayed requeue. *)
Theorem client_errors_are_k8s_errors rc controllerName res :
  let c := New rc controllerName in
  (∀ k, K8sErrors (cl_GetSecret c k)) ∧
  (∀ k, K8sErrors (cl_GetService c k)) ∧
  (∀ k, K8sErrors (cl_GetMeshService c k)) ∧
  (∀ k, K8sErrors (cl_GetNamespace c k)) ∧
  (∀ k, K8sErrors (cl_GetGatewayClassConfig c k)) ∧
  (∀ l, K8sErrors (cl_PodsWithLabels c l)) ∧
  (∀ n, K8sErrors (cl_GetReferenceGrantsInNamespace c n)) ∧
  (∀ n, K8sErrors (cl_GetConfigForGatewayClassName c n)) ∧
  (∀ n p, K8sErrors (cl_IsManagedRoute c n p)) ∧
  (∀ (e : error), is_Some (As_K8sError e) →
     RescheduleK8sError res (Some e) = (res, Some e)).
Proof.
  cbn. split_and!; try (intros; apply K8sErrors_getter).
  - intros l. apply K8sErrors_bind; eauto with go.
  - intros n. apply K8sErrors_bind; [|intros; apply K8sErrors_bind]; eauto with go.
  - intros n. unfold GetConfigForGatewayClassName.
    repeat case_match; intros err [= <-]; eauto.
  - intros n p. apply K8sErrors_bind; eauto with go.
  - intros e [i Hi]. unfold RescheduleK8sError. by rewrite Hi.
Qed.
