(* ===== verification/Resolver.v ===== *)
(** * Backend resolution ([internal/k8s/service])

    [ResolutionErrors] collects the errors found while the backends of a
    route are resolved, [RouteRuleReferenceMap] the references that resolved,
    and [Resolve] turns one backend reference into a Consul service.

    The Consul client and [backoff.Retry] are outside the repository.
    [ConsulView] is what the Consul API answers at one moment; resolution is
    given one view per attempt, since the answers may change between
    retries. *)

From S2P Require Import Prelude Errors Json K8s GatewayClient.

(** ** Collected errors *)

Definition getErrorTypePrefix (t : ServiceResolutionErrorType) : string :=
  match t with
  | K8sServiceResolutionErrorType => "k8s: "
  | ConsulServiceResolutionErrorType => "consul: "
  | _ => ""
  end.

Abbreviation ResolutionErrors := (gmap ServiceResolutionErrorType (list ResolutionError)).

Definition NewResolutionErrors : ResolutionErrors := ∅.

(** Indexing a missing key gives the nil slice. *)
Definition errors_of (r : ResolutionErrors) (t : ServiceResolutionErrorType) :
    list ResolutionError := default [] (r !! t).

Definition ResolutionErrors_Add (r : ResolutionErrors) (err : ResolutionError) :
    ResolutionErrors :=
  <[re_remote err := errors_of r (re_remote err) ++ [err]]> r.

Definition ResolutionErrors_String `{MapRange} (r : ResolutionErrors) : string :=
  let errs := foldl (λ acc kv,
    if bool_decide (0 < length kv.2) then
      acc ++ [getErrorTypePrefix kv.1 +:+ strings_Join (re_inner <$> kv.2) ", "]
    else acc) [] (range r) in
  strings_Join errs "; ".

Definition ResolutionErrors_Empty (r : ResolutionErrors) : bool :=
  bool_decide (size r = 0).

Definition Flatten `{MapRange} (r : ResolutionErrors) :
    ServiceResolutionErrorType * option error :=
  if ResolutionErrors_Empty r then (NoResolutionErrorType, None)
  else if bool_decide (length (errors_of r GenericResolutionErrorType) ≠ 0)
          || bool_decide (1 < size r)
  then (GenericResolutionErrorType, Some (ErrString (ResolutionErrors_String r)))
  else match range r with
       | (errType, _) :: _ => (errType, Some (ErrString (ResolutionErrors_String r)))
       | [] => (GenericResolutionErrorType, Some (ErrString (ResolutionErrors_String r)))
       end.

(** Both fields of [ResolutionError] are unexported, so each error is
    encoded as the empty object. *)
Definition ResolutionErrors_MarshalJSON (r : ResolutionErrors) : json :=
  json_Marshal_map (λ errs : list ResolutionError, JArray ((λ _, JObject []) <$> errs))
    (kmap ServiceResolutionErrorType_string r : gmap string (list ResolutionError)).

(** ** References *)

Inductive ResolvedReferenceType : Type :=
  | HTTPRouteReference
  | ConsulServiceReference.

Record ConsulService : Type := mkConsulService {
  csvc_Namespace : string;
  csvc_Name : string
}.

Record BackendReference : Type := mkBackendReference {
  bref_HTTPRef : option HTTPBackendRef;
  bref_BackendRef : option BackendRef
}.

(** The argument of [Set]: the two pointer types its switch tells apart. *)
Inductive SettableReference : Type :=
  | SetHTTPBackendRef (ref : HTTPBackendRef)
  | SetBackendRef (ref : BackendRef).

Definition BackendReference_Set (b : BackendReference) (reference : SettableReference) :
    BackendReference :=
  match reference with
  | SetHTTPBackendRef ref => mkBackendReference (Some ref) (bref_BackendRef b)
  | SetBackendRef ref => mkBackendReference (bref_HTTPRef b) (Some ref)
  end.

Record ResolvedReference : Type := mkResolvedReference {
  rr_Type : ResolvedReferenceType;
  rr_Reference : BackendReference;
  rr_Consul : option ConsulService
}.

Definition NewConsulServiceReference (consul : ConsulService) : ResolvedReference :=
  mkResolvedReference ConsulServiceReference (mkBackendReference None None) (Some consul).

(** [rule.go]: a [RouteRule] holds one of two rule pointers, or neither.  Map
    keys compare the pointers, so the reference map is indexed by the
    allocation of the rule and keeps the rule it points to. *)
Inductive RouteRule : Type :=
  | RuleHTTP (r : K8sHTTPRouteRule)
  | RuleTCP (r : TCPRouteRule)
  | RuleEmpty.

(** The argument of [NewRouteRule]: the dynamic types callers pass. *)
Inductive RuleArgument : Type :=
  | HTTPRulePointer (r : K8sHTTPRouteRule)
  | TCPRulePointer (r : TCPRouteRule)
  | TCPRuleValue (r : TCPRouteRule).

(** The type switch has no case for a rule passed by value. *)
Definition NewRouteRule (rule : RuleArgument) : RouteRule :=
  match rule with
  | HTTPRulePointer r => RuleHTTP r
  | TCPRulePointer r => RuleTCP r
  | TCPRuleValue _ => RuleEmpty
  end.

Abbreviation RouteRuleReferenceMap := (gmap nat (RouteRule * list ResolvedReference)).

Definition RouteRuleReferenceMap_Add (m : RouteRuleReferenceMap) (ptr : nat)
    (rule : RouteRule) (resolved : ResolvedReference) : RouteRuleReferenceMap :=
  match m !! ptr with
  | Some (_, refs) => <[ptr := (rule, refs ++ [resolved])]> m
  | None => <[ptr := (rule, [resolved])]> m
  end.

(** ** Consul *)

Record AgentService : Type := mkAgentService {
  ags_Service : string;
  ags_Namespace : string
}.

Record CatalogService : Type := mkCatalogService {
  cas_ServiceName : string;
  cas_Namespace : string
}.

(** Answers of the Consul API: [Catalog().Nodes], [Namespaces().List],
    [Catalog().Node] (node, filter, namespace), [Catalog().Service] (name,
    namespace) and [Peerings().Read] (peer, namespace; the imported services
    of the peering, [None] when there is no such peer). *)
Record ConsulView : Type := mkConsulView {
  cv_Nodes : result (list string);
  cv_Namespaces : result (list string);
  cv_Node : string → string → string → result (option (gmap string AgentService));
  cv_Service : string → string → result (list CatalogService);
  cv_Peering : string → string → result (option (list string))
}.

(** [backoff.Retry] over [backoff.WithMaxRetries(_, maxRetries)] and a
    context: the operation is attempted until it succeeds, the retries are
    used up or the context is done, and the outcome of the last attempt is
    returned.  Attempt [i] is [op i]. *)
Class Backoff : Type := {
  backoff_Retry : ∀ {A : Type}, nat → (nat → result A) → result A;
  backoff_Retry_last : ∀ {A : Type} maxRetries (op : nat → result A),
    ∃ n, n ≤ maxRetries ∧ backoff_Retry maxRetries op = op n ∧
         ∀ i, i < n → is_Ok (op i) = false
}.

(** The retry loop of a context that is never done. *)
Fixpoint retry_from {A} (fuel i : nat) (op : nat → result A) : result A :=
  match op i, fuel with
  | Ok a, _ => Ok a
  | Err e, O => Err e
  | Err _, S fuel => retry_from fuel (S i) op
  end.

Lemma retry_from_last {A} fuel i (op : nat → result A) :
  ∃ n, i ≤ n ≤ i + fuel ∧ retry_from fuel i op = op n ∧
       ∀ j, i ≤ j < n → is_Ok (op j) = false.
Proof.
  revert i. induction fuel as [|fuel IH]; intros i; simpl.
  - exists i. destruct (op i); (split_and!; [lia|lia|done|intros; lia]).
  - destruct (op i) as [a|e] eqn:Hi.
    + exists i. split_and!; [lia|lia|done|intros; lia].
    + destruct (IH (S i)) as (n & Hn & Heq & Hfail). exists n.
      split_and!; [lia|lia|done|]. intros j Hj.
      destruct (decide (j = i)); [subst; by rewrite Hi|apply Hfail; lia].
Qed.

#[export] Program Instance patient_backoff : Backoff := {|
  backoff_Retry := λ A maxRetries op, retry_from maxRetries 0 op
|}.
Next Obligation.
  intros A maxRetries op.
  destruct (retry_from_last maxRetries 0 op) as (n & Hn & Heq & Hfail).
  exists n. split_and!; [lia|done|]. intros i Hi. apply Hfail. lia.
Qed.

(** ** The resolver *)

Definition MetaKeyKubeServiceName : string := "k8s-service-name".
Definition MetaKeyKubeNS : string := "k8s-namespace".

Section resolver.
Context {MF : MultierrorFormat} {MR : MapRange} {BO : Backoff}.
Context (client : Client) (mapper : string → string) (consul : nat → ConsulView).

Definition ambiguous_service (serviceNamespace serviceName namespace name : string) : error :=
  ErrResolution (NewConsulResolutionError
    ("must have a single service map to a kubernetes service, found - ("
     +:+ strconv_Quote serviceNamespace +:+ ", " +:+ strconv_Quote serviceName +:+ ") and ("
     +:+ strconv_Quote namespace +:+ ", " +:+ strconv_Quote name +:+ ")")).

(** The loop of [validateAgentConsulReference] and of
    [validateCatalogConsulReference] over (name, namespace) pairs. *)
Fixpoint single_service (services : list (string * string))
    (serviceName serviceNamespace : string) : result (string * string) :=
  match services with
  | [] => Ok (serviceName, serviceNamespace)
  | (name, namespace) :: services =>
      let serviceName := if decide (serviceName = "") then name else serviceName in
      let serviceNamespace :=
        if decide (serviceNamespace = "") then namespace else serviceNamespace in
      if bool_decide (name ≠ serviceName) || bool_decide (namespace ≠ serviceNamespace)
      then Err (ambiguous_service serviceNamespace serviceName namespace name)
      else single_service services serviceName serviceNamespace
  end.

Definition validateAgentConsulReference (services : gmap string AgentService) :
    result ResolvedReference :=
  '(name, namespace) ← single_service
     ((λ kv, (ags_Service kv.2, ags_Namespace kv.2)) <$> range services) "" "";
  Ok (NewConsulServiceReference (mkConsulService namespace name)).

Definition validateCatalogConsulReference (services : list CatalogService) :
    result ResolvedReference :=
  '(name, namespace) ← single_service
     ((λ s, (cas_ServiceName s, cas_Namespace s)) <$> services) "" "";
  Ok (NewConsulServiceReference (mkConsulService namespace name)).

(** The query filter for the catalog services synced from a service. *)
Definition service_filter (service : Service) : string :=
  "Meta[" +:+ strconv_Quote MetaKeyKubeServiceName +:+ "] == "
  +:+ strconv_Quote (om_Name (svc_Meta service)) +:+ " and Meta["
  +:+ strconv_Quote MetaKeyKubeNS +:+ "] == "
  +:+ strconv_Quote (om_Namespace (svc_Meta service)) +:+ " and Kind != "
  +:+ strconv_Quote "connect-proxy".

(** The nested loops over nodes and namespaces, as one loop over the pairs. *)
Fixpoint search_nodes (view : ConsulView) (filter : string)
    (queries : list (string * string)) : result (option ResolvedReference) :=
  match queries with
  | [] => Ok None
  | (node, namespace) :: queries =>
      nodeWithServices ← cv_Node view node filter namespace;
      match nodeWithServices with
      | None => search_nodes view filter queries
      | Some services =>
          if bool_decide (size services = 0) then search_nodes view filter queries
          else
            resolved ← validateAgentConsulReference services;
            Ok (Some resolved)
      end
  end.

Definition findGlobalCatalogService (view : ConsulView) (service : Service) :
    result (option ResolvedReference) :=
  nodes ← cv_Nodes view;
  namespaces ← match cv_Namespaces view with
               | Ok consulNamespaces => Ok ("" :: consulNamespaces)
               | Err e =>
                   if strings_Contains (Error e) "Unexpected response code: 404"
                   then Ok [""] else Err e
               end;
  search_nodes view (service_filter service)
    (node ← nodes; (λ namespace, (node, namespace)) <$> namespaces).

Definition consulServiceForK8SService (namespacedName : NamespacedName) :
    result ResolvedReference :=
  service ← cl_GetService client namespacedName;
  match service with
  | None =>
      Err (ErrResolution (NewBackendNotFoundError
        ("service " +:+ NamespacedName_String namespacedName +:+ " not found")))
  | Some service =>
      backoff_Retry 30 (λ attempt,
        resolved ← findGlobalCatalogService (consul attempt) service;
        match resolved with
        | Some resolved => Ok resolved
        | None =>
            Err (ErrResolution (NewBackendNotFoundError
              ("consul service " +:+ NamespacedName_String namespacedName
               +:+ " not found")))
        end)
  end.

Definition findPeerService (view : ConsulView) (service : MeshService) :
    result ResolvedReference :=
  if bool_decide (default "" (ms_Peer service) = "") then
    Err (ErrResolution (NewConsulResolutionError "peer name expected but not provided"))
  else
    let consulNamespace := mapper (ms_Namespace service) in
    let consulName := ms_Name service in
    let consulPeer := default "" (ms_Peer service) in
    peer ← cv_Peering view consulPeer consulNamespace;
    match peer with
    | None =>
        Err (ErrResolution (NewConsulResolutionError
          ("no peer " +:+ strconv_Quote consulPeer +:+ " found")))
    | Some imported =>
        if slices_Contains imported consulName then
          Ok (NewConsulServiceReference (mkConsulService consulNamespace consulName))
        else
          Err (ErrResolution (NewConsulResolutionError
            ("no service " +:+ consulName +:+ " found from peer " +:+ consulPeer)))
    end.

Definition findCatalogService (view : ConsulView) (service : MeshService) :
    result ResolvedReference :=
  let consulNamespace := mapper (ms_Namespace service) in
  let consulName := ms_Name service in
  services ← cv_Service view consulName consulNamespace;
  if bool_decide (length services = 0) then
    Err (ErrResolution (NewBackendNotFoundError
      ("consul service (" +:+ consulNamespace +:+ ", " +:+ consulName +:+ ") not found")))
  else validateCatalogConsulReference services.

(** Neither finder returns a nil reference without an error, so the two
    [resolved == nil] branches of the source are not reachable. *)
Definition consulServiceForMeshService (namespacedName : NamespacedName) :
    result ResolvedReference :=
  service ← cl_GetMeshService client namespacedName;
  match service with
  | None =>
      Err (ErrResolution (NewBackendNotFoundError
        ("kubernetes mesh service object " +:+ NamespacedName_String namespacedName
         +:+ " not found")))
  | Some service =>
      backoff_Retry 30 (λ attempt,
        if bool_decide (default "" (ms_Peer service) ≠ "") then
          findPeerService (consul attempt) service
        else findCatalogService (consul attempt) service)
  end.

Definition Resolve (namespace : string) (ref : BackendObjectReference) :
    result ResolvedReference :=
  let group := default "" (bor_Group ref) in
  let kind := default "Service" (bor_Kind ref) in
  let namespace := default namespace (bor_Namespace ref) in
  let namespacedName := mkNamespacedName namespace (bor_Name ref) in
  if bool_decide (group = "") && bool_decide (kind = "Service") then
    match bor_Port ref with
    | None => Err (ErrResolution (NewK8sResolutionError "service port must not be empty"))
    | Some _ => consulServiceForK8SService namespacedName
    end
  else if bool_decide (group = APIGroup) && bool_decide (kind = MeshServiceKind) then
    consulServiceForMeshService namespacedName
  else Err (ErrResolution (NewInvalidKindError ("unsupported reference kind " +:+ kind))).

(** ** What resolution promises *)

(** The Consul API knows a service under this name, found by the query for
    the reference. *)
Definition known_in_nodes (view : ConsulView) (service : Service) (name : string) : Prop :=
  ∃ node namespace services k s,
    cv_Node view node (service_filter service) namespace = Ok (Some services) ∧
    services !! k = Some s ∧ ags_Service s = name.

Definition known_to_mesh (view : ConsulView) (service : MeshService) (name : string) : Prop :=
  let ns := mapper (ms_Namespace service) in
  (∃ imported, cv_Peering view (default "" (ms_Peer service)) ns = Ok (Some imported)
     ∧ name ∈ imported) ∨
  (∃ services s, cv_Service view (ms_Name service) ns = Ok services
     ∧ s ∈ services ∧ cas_ServiceName s = name).

Lemma single_service_name services name0 ns0 name ns :
  single_service services name0 ns0 = Ok (name, ns) →
  services ≠ [] ∨ name0 ≠ "" →
  (name ∈ services.*1 ∨ name = name0) ∧ (name0 ≠ "" → name = name0) ∧
  (Forall (λ s, s.1 = name ∨ s.1 = "") services).
Proof.
  revert name0 ns0. induction services as [|[n m] services IH]; intros name0 ns0; simpl.
  { intros [= <- <-] _. split_and!; [by right|done|constructor]. }
  destruct (bool_decide (n ≠ _) || bool_decide (m ≠ _)) eqn:Hb; [done|]. intros Hs _.
  apply orb_false_iff in Hb as [Hn%bool_decide_eq_false%dec_stable _].
  destruct (decide (name0 = "")) as [Hz|Hz].
  - destruct services as [|s services].
    { simpl in Hs. injection Hs as <- <-.
      split_and!; [left; apply list_elem_of_here|done|by repeat constructor; left]. }
    destruct (IH _ _ Hs) as (Hin & Hkeep & Hall); [by left|].
    split_and!; [|done|].
    + destruct Hin as [Hin| ->]; [left; by right|left; left].
    + constructor; [|done]. destruct (decide (n = "")); [by right|].
      left. simpl. symmetry. by apply Hkeep.
  - subst n. destruct (IH _ _ Hs) as (Hin & Hkeep & Hall); [by right|].
    specialize (Hkeep Hz). subst name0.
    split_and!; [by right|done|]. constructor; [by left|done].
Qed.

Lemma single_service_uniform services name ns :
  name ≠ "" → Forall (λ s, s = (name, ns)) services → services ≠ [] →
  single_service services "" "" = Ok (name, ns).
Proof.
  intros Hname Hall Hne. destruct services as [|s services]; [done|].
  apply Forall_cons in Hall as [-> Hall]. clear Hne. simpl.
  rewrite !bool_decide_false by (intros Hx; by apply Hx). simpl.
  induction Hall as [|s services -> _ IH]; simpl; [done|].
  destruct (decide (name = "")); [done|].
  destruct (decide (ns = "")) as [->|]; simpl;
    rewrite !bool_decide_false by (intros Hx; by apply Hx); exact IH.
Qed.

Lemma search_nodes_sound view filter queries r :
  search_nodes view filter queries = Ok (Some r) →
  ∃ node namespace services k s name ns,
    cv_Node view node filter namespace = Ok (Some services) ∧
    services !! k = Some s ∧ ags_Service s = name ∧
    r = NewConsulServiceReference (mkConsulService ns name).
Proof.
  induction queries as [|[node namespace] queries IH]; simpl; [done|].
  destruct (cv_Node view node filter namespace) as [[services|]|e] eqn:Hq; simpl;
    [|exact IH|done].
  case_bool_decide as Hsz; [exact IH|].
  unfold validateAgentConsulReference.
  destruct (single_service _ "" "") as [[name ns]|e] eqn:Hs; simpl; [|done].
  intros [= <-].
  assert (range services ≠ []) as Hne.
  { intros Hnil. apply Hsz. by rewrite <- length_range, Hnil. }
  destruct (single_service_name _ _ _ _ _ Hs) as ([Hin|Hname] & _ & Hall).
  - left. intros Hnil. by apply fmap_nil_inv in Hnil.
  - rewrite <- list_fmap_compose in Hin. apply list_elem_of_fmap in Hin as ([k s] & -> & Hin).
    apply elem_of_range in Hin. exists node, namespace, services, k, s, (ags_Service s), ns.
    by split_and!.
  - subst name. destruct (range services) as [|[k s] rest] eqn:Hr; [done|].
    simpl in Hall. apply Forall_cons in Hall as [Hs0 _].
    assert ((k, s) ∈ range services) as Hin by (rewrite Hr; left).
    apply elem_of_range in Hin. exists node, namespace, services, k, s, "", ns.
    split_and!; [done..| |done]. simpl in Hs0. by destruct Hs0.
Qed.

Lemma backoff_Retry_Ok {A} maxRetries (op : nat → result A) a :
  backoff_Retry maxRetries op = Ok a → ∃ n, n ≤ maxRetries ∧ op n = Ok a.
Proof.
  intros Hr. destruct (backoff_Retry_last maxRetries op) as (n & Hn & Heq & _).
  exists n. split; [done|]. congruence.
Qed.

Lemma consulServiceForK8SService_sound key r :
  consulServiceForK8SService key = Ok r →
  ∃ service attempt name ns,
    cl_GetService client key = Ok (Some service) ∧
    attempt ≤ 30 ∧ known_in_nodes (consul attempt) service name ∧
    r = NewConsulServiceReference (mkConsulService ns name).
Proof.
  unfold consulServiceForK8SService.
  destruct (cl_GetService client key) as [[service|]|e] eqn:Hg; [|done|done]. simpl.
  intros Hr. apply backoff_Retry_Ok in Hr as (n & Hn & Hop).
  apply bind_Ok in Hop as ([r'|] & Hs & [= ->]).
  unfold findGlobalCatalogService in Hs.
  apply bind_Ok in Hs as (nodes & _ & Hs). apply bind_Ok in Hs as (nss & _ & Hs).
  apply search_nodes_sound in Hs as (node & nsp & services & k & s & name & ns & ? & ? & ? & ?).
  exists service, n, name, ns. split_and!; [done|done| |done].
  exists node, nsp, services, k, s. done.
Qed.

Lemma consulServiceForMeshService_sound key r :
  consulServiceForMeshService key = Ok r →
  ∃ service attempt name ns,
    cl_GetMeshService client key = Ok (Some service) ∧
    attempt ≤ 30 ∧ known_to_mesh (consul attempt) service name ∧
    r = NewConsulServiceReference (mkConsulService ns name).
Proof.
  unfold consulServiceForMeshService.
  destruct (cl_GetMeshService client key) as [[service|]|e] eqn:Hg; [|done|done]. simpl.
  intros Hr. apply backoff_Retry_Ok in Hr as (n & Hn & Hop).
  exists service, n. case_bool_decide as Hp.
  - unfold findPeerService in Hop. rewrite bool_decide_false in Hop by done.
    destruct (cv_Peering _ _ _) as [[imported|]|e] eqn:Hpeer; [|done|done]. simpl in Hop.
    unfold slices_Contains in Hop. case_bool_decide as Hin; [|done].
    injection Hop as <-. eexists _, _. split_and!; [done|done| |done].
    left. eauto.
  - unfold findCatalogService in Hop.
    destruct (cv_Service _ _ _) as [services|e] eqn:Hc; [|done]. simpl in Hop.
    case_bool_decide as Hlen; [done|].
    unfold validateCatalogConsulReference in Hop.
    destruct (single_service _ "" "") as [[name ns]|e] eqn:Hs; [|done].
    simpl in Hop. injection Hop as <-. exists name, ns. split_and!; [done|done| |done].
    right. destruct services as [|s0 rest]; [done|].
    destruct (single_service_name _ _ _ _ _ Hs) as ([Hin|Hname] & _ & Hall); [by left| |].
    + rewrite <- list_fmap_compose in Hin. apply list_elem_of_fmap in Hin as (s & -> & Hin).
      eauto.
    + subst name. apply Forall_cons in Hall as [Hs0 _].
      exists (s0 :: rest), s0. split_and!; [done|left|]. simpl in Hs0. by destruct Hs0.
Qed.

(** The shape of a successful resolution. *)
Lemma resolve_consul_reference namespace ref r :
  Resolve namespace ref = Ok r →
  ∃ name ns, r = NewConsulServiceReference (mkConsulService ns name).
Proof.
  unfold Resolve. destruct (_ && _).
  - destruct (bor_Port ref); [|done]. intros Hr.
    apply consulServiceForK8SService_sound in Hr as (_ & _ & name & ns & _ & _ & _ & ->). eauto.
  - destruct (_ && _); [|done]. intros Hr.
    apply consulServiceForMeshService_sound in Hr as (_ & _ & name & ns & _ & _ & _ & ->). eauto.
Qed.

(** A backend only ever resolves to a service Consul knows.  A reference
    to a core Service resolves, within 31 attempts, to the name of a service
    the catalog lists for that Kubernetes service; a reference to a
    MeshService to a name its peering imports or the catalog lists; and a
    reference of any other kind, or to a Service without a port, is an error
    of the kind the route status reports for it. *)
Theorem resolved_backend_is_known namespace ref :
  match Resolve namespace ref with
  | Ok r => ∃ name ns attempt,
      r = NewConsulServiceReference (mkConsulService ns name) ∧ attempt ≤ 30 ∧
      let key := mkNamespacedName (default namespace (bor_Namespace ref)) (bor_Name ref) in
      ((is_Some (bor_Port ref) ∧ ∃ service,
          cl_GetService client key = Ok (Some service) ∧
          known_in_nodes (consul attempt) service name) ∨
       (bor_Group ref = Some APIGroup ∧ bor_Kind ref = Some MeshServiceKind ∧ ∃ service,
          cl_GetMeshService client key = Ok (Some service) ∧
          known_to_mesh (consul attempt) service name))
  | Err _ => True
  end ∧
  (bor_Group ref = None → bor_Kind ref = None → bor_Port ref = None →
   Resolve namespace ref
   = Err (ErrResolution (NewK8sResolutionError "service port must not be empty"))) ∧
  (∀ kind, bor_Kind ref = Some kind → kind ≠ "Service" → kind ≠ MeshServiceKind →
   Resolve namespace ref
   = Err (ErrResolution (NewInvalidKindError ("unsupported reference kind " +:+ kind)))).
Proof.
  unfold Resolve. split_and!.
  - destruct (bool_decide (default "" _ = "") && _) eqn:Hk.
    + destruct (bor_Port ref) as [port|] eqn:Hport; [|done].
      destruct (consulServiceForK8SService _) as [r|e] eqn:Hr; [|done].
      apply consulServiceForK8SService_sound in Hr as (svc & n & name & ns & ? & ? & ? & ->).
      exists name, ns, n. split_and!; [done|done|]. left. eauto.
    + destruct (bool_decide (default "" _ = APIGroup) && _) eqn:Hm; [|done].
      destruct (consulServiceForMeshService _) as [r|e] eqn:Hr; [|done].
      apply consulServiceForMeshService_sound in Hr as (svc & n & name & ns & ? & ? & ? & ->).
      exists name, ns, n. split_and!; [done|done|]. right.
      apply andb_true_iff in Hm as [Hg Hkind%bool_decide_eq_true].
      apply bool_decide_eq_true in Hg.
      destruct (bor_Group ref), (bor_Kind ref); simpl in *; subst; try done.
      split_and!; eauto.
  - intros -> -> ->. done.
  - intros kind -> Hs Hm. simpl.
    rewrite (bool_decide_false (kind = "Service")) by done.
    rewrite (bool_decide_false (kind = MeshServiceKind)) by done.
    by rewrite !andb_false_r.
Qed.

End resolver.

(** ** Flattening *)

Section flatten.
Context {MR : MapRange}.

Definition collect (errs : list ResolutionError) : ResolutionErrors :=
  foldl ResolutionErrors_Add NewResolutionErrors errs.

Lemma collect_snoc errs e : collect (errs ++ [e]) = ResolutionErrors_Add (collect errs) e.
Proof. unfold collect. by rewrite foldl_app. Qed.

(** The buckets are the errors by type, in order of arrival. *)
Lemma lookup_collect errs t :
  collect errs !! t =
    match List.filter (λ e, bool_decide (re_remote e = t)) errs with
    | [] => None
    | es => Some es
    end.
Proof.
  induction errs as [|e errs IH] using rev_ind; [done|].
  rewrite collect_snoc, List.filter_app. unfold ResolutionErrors_Add. cbn [List.filter].
  case_bool_decide as He.
  - subst t. rewrite lookup_insert_eq. unfold errors_of. rewrite IH.
    destruct (List.filter _ errs); done.
  - rewrite lookup_insert_ne, app_nil_r by done. exact IH.
Qed.

Lemma collect_is_Some errs t :
  is_Some (collect errs !! t) ↔ ∃ e, e ∈ errs ∧ re_remote e = t.
Proof.
  rewrite lookup_collect. split.
  - destruct (List.filter _ errs) as [|e es] eqn:Hf; [by intros [? ?]|].
    intros _. assert (In e (List.filter (λ e, bool_decide (re_remote e = t)) errs)) as Hin
      by (rewrite Hf; by left).
    apply filter_In in Hin as [Hin Ht%bool_decide_eq_true]. exists e. split; [|done].
    by apply list_elem_of_In.
  - intros (e & Hin & Ht). destruct (List.filter _ errs) as [|e' es] eqn:Hf; [|eauto].
    exfalso. assert (In e []) as []. rewrite <- Hf. apply filter_In.
    split; [by apply list_elem_of_In|]. by apply bool_decide_eq_true.
Qed.

Lemma collect_single errs t :
  errs ≠ [] → (∀ e, e ∈ errs → re_remote e = t) →
  ∃ v, v ≠ [] ∧ collect errs = {[t := v]}.
Proof.
  intros Hne Hall. destruct errs as [|e0 rest]; [done|].
  destruct (collect_is_Some (e0 :: rest) t) as [_ [v Hv]].
  { exists e0. split; [left|]. apply Hall. left. }
  exists v. split.
  - rewrite lookup_collect in Hv. destruct (List.filter _ _); [done|]. by injection Hv as <-.
  - apply map_eq. intros t'. destruct (decide (t' = t)) as [->|Ht].
    + by rewrite lookup_singleton_eq.
    + rewrite lookup_singleton_ne by done.
      destruct (collect (e0 :: rest) !! t') eqn:Hc; [|done].
      destruct (proj1 (collect_is_Some (e0 :: rest) t')) as (e & Hin & <-); [eauto|].
      by rewrite (Hall e Hin) in Ht.
Qed.

(** Flattening classifies the collected errors.  No error gives
    [NoResolutionErrorType] and a nil error; errors of one type give that
    type; errors of different types give the generic type; and whatever was
    collected, the classification is an error exactly when something was
    added, and it depends only on what was added, not on the iteration order
    of the map. *)
Theorem flatten_classifies (errs : list ResolutionError) :
  let (t, e) := Flatten (collect errs) in
  (errs = [] ↔ e = None) ∧
  (errs = [] → t = NoResolutionErrorType) ∧
  (∀ ty, errs ≠ [] → (∀ x, x ∈ errs → re_remote x = ty) → t = ty) ∧
  (∀ x y, x ∈ errs → y ∈ errs → re_remote x ≠ re_remote y →
     t = GenericResolutionErrorType).
Proof.
  destruct errs as [|e0 rest]; [|set (errs := e0 :: rest)].
  { change (Flatten (collect [])) with (NoResolutionErrorType, @None error).
    cbn beta iota. split_and!; try done.
    intros x y Hx. by apply not_elem_of_nil in Hx. }
  unfold Flatten.
  assert (ResolutionErrors_Empty (collect errs) = false) as ->.
  { apply bool_decide_eq_false. intros Hs%map_size_empty_inv.
    destruct (proj2 (collect_is_Some errs (re_remote e0))) as [v Hv].
    { exists e0. split; [left|done]. }
    by rewrite Hs in Hv. }
  assert (∀ x y, x ∈ errs → y ∈ errs → re_remote x ≠ re_remote y →
            1 < size (collect errs)) as Hsize.
  { intros x y Hx Hy Hxy.
    destruct (proj2 (collect_is_Some errs (re_remote x))) as [v Hv]; [eauto|].
    destruct (proj2 (collect_is_Some errs (re_remote y))) as [w Hw]; [eauto|].
    rewrite <- (insert_delete_id _ _ _ Hv), map_size_insert_None
      by apply lookup_delete_eq.
    assert (size (delete (re_remote x) (collect errs)) ≠ 0); [|lia].
    intros H0%map_size_empty_inv.
    assert (delete (re_remote x) (collect errs) !! re_remote y = Some w) as H1
      by by rewrite lookup_delete_ne.
    by rewrite H0 in H1. }
  destruct (bool_decide (length _ ≠ 0) || _) eqn:Hb.
  - split_and!; try done.
    intros ty Hne Hall. destruct (collect_single errs ty Hne Hall) as (v & Hv & Heq).
    rewrite Heq, map_size_singleton, (bool_decide_false (1 < 1)), orb_false_r in Hb by lia.
    apply bool_decide_eq_true in Hb. unfold errors_of in Hb.
    destruct (decide (ty = GenericResolutionErrorType)) as [->|Hty]; [done|].
    by rewrite lookup_singleton_ne in Hb by done.
  - apply orb_false_iff in Hb as [_ Hb%bool_decide_eq_false].
    destruct (range (collect errs)) as [|[ty0 v0] l] eqn:Hr.
    { exfalso. apply f_equal with (f := length) in Hr. rewrite length_range in Hr.
      apply map_size_empty_inv in Hr.
      destruct (proj2 (collect_is_Some errs (re_remote e0))) as [v Hv].
      { exists e0. split; [left|done]. }
      by rewrite Hr in Hv. }
    split_and!; try done.
    + intros ty Hne Hall. destruct (collect_single errs ty Hne Hall) as (v & Hv & Heq).
      assert ((ty0, v0) ∈ range (collect errs)) as Hin by (rewrite Hr; left).
      rewrite elem_of_range, Heq in Hin. by apply lookup_singleton_Some in Hin as [-> _].
    + intros x y Hx Hy Hxy. by specialize (Hsize x y Hx Hy Hxy).
Qed.

(** Persisting the resolution errors of a route loses their messages:
    the encoding of two collections is the same as soon as they hold the same
    number of errors of each type, whatever the errors say. *)
Theorem persisted_resolution_errors_lose_messages (r1 r2 : ResolutionErrors) :
  (∀ t, length <$> (r1 !! t) = length <$> (r2 !! t)) →
  ResolutionErrors_MarshalJSON r1 = ResolutionErrors_MarshalJSON r2.
Proof.
  intros Hlen. unfold ResolutionErrors_MarshalJSON. apply json_Marshal_map_ext.
  rewrite <- !kmap_fmap by apply _. f_equal. apply map_eq. intros t.
  rewrite !lookup_fmap. specialize (Hlen t).
  destruct (r1 !! t) as [v|], (r2 !! t) as [w|]; simpl in *; try done.
  injection Hlen as Hlen. do 2 f_equal. revert w Hlen.
  induction v as [|x v IH]; intros [|y w] [=]; simpl; f_equal; eauto.
Qed.

Lemma persisted_resolution_errors_lose_messages_witness :
  ResolutionErrors_MarshalJSON (collect [NewK8sResolutionError "service port must not be empty"])
  = ResolutionErrors_MarshalJSON (collect [NewK8sResolutionError ""]).
Proof.
  apply persisted_resolution_errors_lose_messages. intros t. by destruct t.
Defined.

End flatten.
