(* ===== verification/State.v ===== *)
(** * Ephemeral gateway and route state

    [internal/k8s/reconciler/state] and the hand-written half of
    [internal/k8s/reconciler/status] ([route.go]): what the reconciler keeps
    next to each Kubernetes object, and how it is turned into the status
    written back to Kubernetes.

    [RouteStatuses] is keyed by the JSON text of a parent reference; the
    model keys it by the reference, which [AsJSON] and [ParseParent] convert
    to and from.  The texts [AsJSON] prints for whole statuses, used only as
    sort keys, are the parameters [json_of_condition] and [json_of_parent]. *)

From S2P Require Import Prelude Errors Json Core K8s Status GatewayClient Resolver.

(** ** Gateways *)

Record ListenerState : Type := mkListenerState {
  lst_Routes : gmap string ResolvedRoute;
  lst_Protocol : string;
  lst_Name : string;
  lst_TLS : TLSParams;
  lst_Status : ListenerStatus
}.

Definition lst_set_Routes (routes : gmap string ResolvedRoute) (l : ListenerState) :=
  mkListenerState routes (lst_Protocol l) (lst_Name l) (lst_TLS l) (lst_Status l).
Definition lst_set_Status (status : ListenerStatus) (l : ListenerState) :=
  mkListenerState (lst_Routes l) (lst_Protocol l) (lst_Name l) (lst_TLS l) status.
Definition lst_set_TLS (tls : TLSParams) (l : ListenerState) :=
  mkListenerState (lst_Routes l) (lst_Protocol l) (lst_Name l) tls (lst_Status l).

Record GatewayState : Type := mkGatewayState {
  gst_ConsulNamespace : string;
  gst_Status : GatewayStatus;
  gst_PodReady : bool;
  gst_ServiceReady : bool;
  gst_Generation : Z;
  gst_Addresses : list string;
  gst_Listeners : list ListenerState
}.

Definition gst_set_Listeners (ls : list ListenerState) (g : GatewayState) :=
  mkGatewayState (gst_ConsulNamespace g) (gst_Status g) (gst_PodReady g)
    (gst_ServiceReady g) (gst_Generation g) (gst_Addresses g) ls.
Definition gst_set_Status (status : GatewayStatus) (g : GatewayState) :=
  mkGatewayState (gst_ConsulNamespace g) status (gst_PodReady g)
    (gst_ServiceReady g) (gst_Generation g) (gst_Addresses g) (gst_Listeners g).

Definition InitialGatewayState (g : Gateway) : GatewayState :=
  mkGatewayState "" zeroGatewayStatus false false (om_Generation (gw_Meta g)) []
    ((λ listener, mkListenerState ∅ (l_Protocol listener) (l_Name listener)
        zeroTLSParams zeroListenerStatus) <$> gw_Listeners g).

Definition ListenerState_Valid (l : ListenerState) : bool :=
  let routeCount := size (lst_Routes l) in
  if bool_decide (lst_Protocol l = TCPProtocolType) && bool_decide (1 < routeCount)
  then false
  else ListenerStatus_Valid (lst_Status l).

Definition err_RouteConflict : error :=
  ErrString "only a single TCP route can be bound to a TCP listener".

Definition set_RouteConflict (e : option error) (s : ListenerStatus) : ListenerStatus :=
  mkListenerStatus
    (mkListenerConflictedStatus
       (ListenerConflicted_HostnameConflict (ls_Conflicted s))
       (ListenerConflicted_ProtocolConflict (ls_Conflicted s)) e)
    (ls_Detached s) (ls_Ready s) (ls_ResolvedRefs s).

Section state.
Context {MF : MultierrorFormat} {MR : MapRange}.

(** [getStatus] updates the listener it reports on.  A nil slice of kinds is
    published as the empty list. *)
Definition getStatus (l : ListenerState) (generation : Z) (clock : nat → Z) :
    ListenerState * ListenerStatusObj :=
  let routeCount := size (lst_Routes l) in
  let status :=
    if bool_decide (lst_Protocol l = TCPProtocolType) then
      if bool_decide (1 < routeCount)
      then set_RouteConflict (Some err_RouteConflict) (lst_Status l)
      else set_RouteConflict None (lst_Status l)
    else lst_Status l in
  (lst_set_Status status l,
   mkListenerStatusObj (lst_Name l) (default [] (SupportedKindsFor (lst_Protocol l)))
     (int32_wrap (Z.of_nat routeCount)) (ListenerStatus_Conditions status generation clock)).

(** [clock i j] is the [j]-th reading of the time for the [i]-th status
    built; the gateway's own conditions come after those of its listeners. *)
Definition GetStatus (g : GatewayState) (gateway : Gateway) (clock : nat → nat → Z) :
    GatewayState * GatewayStatusObj :=
  let rs := imap (λ i l, getStatus l (gst_Generation g) (clock i)) (gst_Listeners g) in
  let listenerStatuses := rs.*2 in
  let conditions :=
    GatewayStatus_Conditions (gst_Status g) (gst_Generation g)
      (clock (length (gst_Listeners g))) in
  let old := gw_Status gateway in
  let listenerStatuses :=
    if ListenerStatusesEqual listenerStatuses (gso_Listeners old)
    then gso_Listeners old else listenerStatuses in
  let conditions :=
    if ConditionsEqual conditions (gso_Conditions old)
    then gso_Conditions old else conditions in
  (gst_set_Listeners rs.*1 g,
   mkGatewayStatusObj (gst_Addresses g) conditions listenerStatuses).

(** ** Routes *)

Record RouteState : Type := mkRouteState {
  rs_References : RouteRuleReferenceMap;
  rs_ResolutionErrors : ResolutionErrors;
  rs_ParentStatuses : gmap ParentReference RouteStatus
}.

Definition NewRouteState : RouteState := mkRouteState ∅ NewResolutionErrors ∅.

(** Recording an error in the [Accepted] half of a status. *)
Definition set_accepted_error (err : error) (s : RouteAcceptedStatus) : RouteAcceptedStatus :=
  let bindError s e := mkRouteAcceptedStatus
    (RouteAccepted_InvalidRouteKind s) (RouteAccepted_ListenerNamespacePolicy s)
    (RouteAccepted_ListenerHostnameMismatch s) e in
  match As_BindError err with
  | Some be =>
      match be_errorType be with
      | BindErrorTypeHostnameMismatch => mkRouteAcceptedStatus
          (RouteAccepted_InvalidRouteKind s) (RouteAccepted_ListenerNamespacePolicy s)
          (Some err) (RouteAccepted_BindError s)
      | BindErrorTypeListenerNamespacePolicy => mkRouteAcceptedStatus
          (RouteAccepted_InvalidRouteKind s) (Some err)
          (RouteAccepted_ListenerHostnameMismatch s) (RouteAccepted_BindError s)
      | BindErrorTypeRouteKind => mkRouteAcceptedStatus
          (Some err) (RouteAccepted_ListenerNamespacePolicy s)
          (RouteAccepted_ListenerHostnameMismatch s) (RouteAccepted_BindError s)
      | BindErrorTypeRouteInvalid => bindError s (Some err)
      end
  | None => bindError s (Some err)
  end.

(** Recording the flattened resolution errors in the [ResolvedRefs] half. *)
Definition set_resolution_error (errorType : ServiceResolutionErrorType)
    (err : option error) (s : RouteResolvedRefsStatus) : RouteResolvedRefsStatus :=
  let '(mkRouteResolvedRefsStatus e snf csnf rnp ik bnf) := s in
  match errorType with
  | GenericResolutionErrorType => mkRouteResolvedRefsStatus err snf csnf rnp ik bnf
  | ConsulServiceResolutionErrorType => mkRouteResolvedRefsStatus e snf err rnp ik bnf
  | K8sServiceResolutionErrorType => mkRouteResolvedRefsStatus e err csnf rnp ik bnf
  | RefNotPermittedErrorType => mkRouteResolvedRefsStatus e snf csnf err ik bnf
  | InvalidKindErrorType => mkRouteResolvedRefsStatus e snf csnf rnp err bnf
  | BackendNotFoundErrorType => mkRouteResolvedRefsStatus e snf csnf rnp ik err
  | NoResolutionErrorType => s
  end.

Definition RouteStatuses_BindFailed (r : gmap ParentReference RouteStatus)
    (resolutionErrors : ResolutionErrors) (err : error) (id : ParentReference) :
    gmap ParentReference RouteStatus :=
  let routeStatus := default zeroRouteStatus (r !! id) in
  let accepted := set_accepted_error err (rst_Accepted routeStatus) in
  let (errorType, ferr) := Flatten resolutionErrors in
  <[id := mkRouteStatus accepted
            (set_resolution_error errorType ferr (rst_ResolvedRefs routeStatus))]> r.

Definition RouteStatuses_Bound (r : gmap ParentReference RouteStatus) (id : ParentReference) :
    gmap ParentReference RouteStatus :=
  <[id := mkRouteStatus zeroRouteAcceptedStatus zeroRouteResolvedRefsStatus]> r.

Definition RouteStatuses_Remove (r : gmap ParentReference RouteStatus) (id : ParentReference) :
    gmap ParentReference RouteStatus := delete id r.

Definition with_ParentStatuses (ps : gmap ParentReference RouteStatus) (s : RouteState) :=
  mkRouteState (rs_References s) (rs_ResolutionErrors s) ps.

Definition BindFailed (s : RouteState) (err : error) (ref : ParentReference) : RouteState :=
  with_ParentStatuses
    (RouteStatuses_BindFailed (rs_ParentStatuses s) (rs_ResolutionErrors s) err ref) s.
Definition Bound (s : RouteState) (ref : ParentReference) : RouteState :=
  with_ParentStatuses (RouteStatuses_Bound (rs_ParentStatuses s) ref) s.
Definition Remove (s : RouteState) (ref : ParentReference) : RouteState :=
  with_ParentStatuses (RouteStatuses_Remove (rs_ParentStatuses s) ref) s.

(** ** Publishing route statuses *)

Section publish.
Context (json_of_condition : Condition → string) (json_of_parent : RouteParentStatus → string).

Definition Statuses (r : gmap ParentReference RouteStatus) (controllerName : string)
    (generation : Z) (clock : nat → Z) : list RouteParentStatus :=
  (λ kv, mkRouteParentStatus kv.1 controllerName
           (RouteStatus_Conditions kv.2 generation clock)) <$> range r.

Definition filterParentStatuses (routeStatus : list RouteParentStatus)
    (controllerName : string) : list RouteParentStatus :=
  List.filter (λ s, bool_decide (rps_ControllerName s ≠ controllerName)) routeStatus.

Definition sort_conditions (p : RouteParentStatus) : RouteParentStatus :=
  mkRouteParentStatus (rps_ParentRef p) (rps_ControllerName p)
    (sort_SliceStable (λ a b, String.ltb (json_of_condition a) (json_of_condition b))
       (rps_Conditions p)).

Definition sortParents (parents : list RouteParentStatus) : list RouteParentStatus :=
  sort_SliceStable (λ a b, String.ltb (json_of_parent a) (json_of_parent b))
    (sort_conditions <$> parents).

Definition mergedStatus (r : gmap ParentReference RouteStatus)
    (routeStatus : list RouteParentStatus) (controllerName : string)
    (generation : Z) (clock : nat → Z) : list RouteParentStatus :=
  sortParents (filterParentStatuses routeStatus controllerName
               ++ Statuses r controllerName generation clock).

Definition NeedsUpdate (r : gmap ParentReference RouteStatus)
    (routeStatus : list RouteParentStatus) (controllerName : string)
    (generation : Z) (clock : nat → Z) : list RouteParentStatus * bool :=
  let currentStatus := sortParents routeStatus in
  let updatedStatus := mergedStatus r routeStatus controllerName generation clock in
  (updatedStatus, negb (RouteStatusEqual currentStatus updatedStatus)).

End publish.

(** ** Lemmas *)

#[local] Arguments getStatus : simpl never.

Lemma strip_getStatus l g1 c1 c2 :
  strip_listener (getStatus l g1 c1).2 = strip_listener (getStatus l g1 c2).2.
Proof.
  unfold getStatus, strip_listener, ListenerStatus_Conditions,
    ListenerConflictedStatus_Condition, ListenerDetachedStatus_Condition,
    ListenerReadyStatus_Condition, ListenerResolvedRefsStatus_Condition. simpl.
  by rewrite !strip_condition_of.
Qed.

Lemma getStatus_again l g c1 c2 :
  (getStatus (getStatus l g c1).1 g c2).1 = (getStatus l g c1).1 ∧
  (getStatus (getStatus l g c1).1 g c2).2 = (getStatus l g c2).2.
Proof.
  unfold getStatus, lst_set_Status. simpl.
  repeat case_bool_decide; simpl; by split.
Qed.

Lemma imap_fst_getStatus_again ls g (c1 c2 : nat → nat → Z) :
  imap (λ i l, getStatus l g (c2 i)) (imap (λ i l, getStatus l g (c1 i)) ls).*1
  = imap (λ i l, ((getStatus l g (c1 i)).1, (getStatus l g (c2 i)).2)) ls.
Proof.
  revert c1 c2. induction ls as [|l ls IH]; intros c1 c2; [done|]. simpl. f_equal.
  - destruct (getStatus_again l g (c1 0) (c2 0)) as [H1 H2].
    apply injective_projections; [exact H1|exact H2].
  - apply (IH (λ i, c1 (S i)) (λ i, c2 (S i))).
Qed.

Lemma fmap_imap_pair {A B C} (f : nat → A → B) (g : nat → A → C) xs :
  (imap (λ i x, (f i x, g i x)) xs).*1 = imap f xs ∧
  (imap (λ i x, (f i x, g i x)) xs).*2 = imap g xs.
Proof. split; rewrite fmap_imap; done. Qed.

(** A status that was stored is computed again. *)
Lemma GetStatus_again (g : GatewayState) (gateway : Gateway) clock1 clock2 :
  let (g1, st1) := GetStatus g gateway clock1 in
  let gateway1 := mkGateway (gw_Meta gateway) (gw_GroupKind gateway)
    (gw_GatewayClassName gateway) (gw_Listeners gateway) (gw_Addresses gateway) st1 in
  GetStatus g1 gateway1 clock2 = (g1, st1) ∧ GatewayStatusEqual st1 st1 = true ∧
  lso_AttachedRoutes <$> gso_Listeners st1
  = (λ l, int32_wrap (Z.of_nat (size (lst_Routes l)))) <$> gst_Listeners g.
Proof.
  unfold GetStatus at 1.
  set (news := λ clock : nat → nat → Z,
    (imap (λ i l, getStatus l (gst_Generation g) (clock i)) (gst_Listeners g)).*2).
  set (conds := λ clock : nat → nat → Z, GatewayStatus_Conditions (gst_Status g)
    (gst_Generation g) (clock (length (gst_Listeners g)))).
  assert (∀ c, strip_listener <$> news c = strip_listener <$> news clock1) as Hnews.
  { intros c. unfold news. rewrite !fmap_imap. apply imap_ext. intros i l _.
    apply strip_getStatus. }
  assert (∀ c, strip_time <$> conds c = strip_time <$> conds clock1) as Hconds.
  { intros c. unfold conds, GatewayStatus_Conditions, GatewayReadyStatus_Condition,
      GatewayScheduledStatus_Condition, GatewayInSyncStatus_Condition. simpl.
    by rewrite !strip_condition_of. }
  fold (news clock1). fold (conds clock1).
  set (kept := if ListenerStatusesEqual (news clock1) (gso_Listeners (gw_Status gateway))
               then _ else _).
  set (keptc := if ConditionsEqual (conds clock1) (gso_Conditions (gw_Status gateway))
                then _ else _).
  assert (strip_listener <$> kept = strip_listener <$> news clock1) as Hkept.
  { unfold kept. destruct (ListenerStatusesEqual _ _) eqn:He; [|done].
    symmetry. by apply ListenerStatusesEqual_strip. }
  assert (strip_time <$> keptc = strip_time <$> conds clock1) as Hkeptc.
  { unfold keptc. destruct (ConditionsEqual _ _) eqn:He; [|done].
    symmetry. by apply ConditionsEqual_strip. }
  split_and!.
  - unfold GetStatus. simpl. rewrite imap_fst_getStatus_again.
    destruct (fmap_imap_pair (λ i l, (getStatus l (gst_Generation g) (clock1 i)).1)
      (λ i l, (getStatus l (gst_Generation g) (clock2 i)).2) (gst_Listeners g)) as [-> ->].
    rewrite length_fmap, length_imap. fold (conds clock2).
    assert (imap (λ i l, (getStatus l (gst_Generation g) (clock2 i)).2) (gst_Listeners g)
            = news clock2) as -> by (unfold news; by rewrite fmap_imap).
    rewrite (proj2 (ListenerStatusesEqual_strip (news clock2) kept)) by congruence.
    rewrite (proj2 (ConditionsEqual_strip (conds clock2) keptc)) by congruence.
    unfold gst_set_Listeners. simpl. by rewrite fmap_imap.
  - unfold GatewayStatusEqual. simpl. rewrite ConditionsEqual_refl. simpl.
    by rewrite (proj2 (ListenerStatusesEqual_strip kept kept)).
  - simpl. transitivity (lso_AttachedRoutes <$> (strip_listener <$> kept)).
    { by rewrite <- list_fmap_compose. }
    rewrite Hkept. unfold news. rewrite !fmap_imap. clear.
    induction (gst_Listeners g) as [|l ls IH] in clock1 |- *; [done|]. simpl. f_equal.
    apply (IH (λ i, clock1 (S i))).
Qed.

(** Publishing a gateway's status converges.  Once the computed status has
    been stored on the gateway object, computing it again, at any later time,
    yields exactly that status, timestamps included, and leaves the gateway
    state as it is: the status update loop writes nothing further.  The count
    of attached routes is reported per listener. *)
Theorem gateway_status_converges (g : GatewayState) (gateway : Gateway) clock1 clock2 :
  let (g1, st1) := GetStatus g gateway clock1 in
  let gateway1 := mkGateway (gw_Meta gateway) (gw_GroupKind gateway)
    (gw_GatewayClassName gateway) (gw_Listeners gateway) (gw_Addresses gateway) st1 in
  GetStatus g1 gateway1 clock2 = (g1, st1) ∧ GatewayStatusEqual st1 st1 = true ∧
  lso_AttachedRoutes <$> gso_Listeners st1
  = (λ l, int32_wrap (Z.of_nat (size (lst_Routes l)))) <$> gst_Listeners g.
Proof. apply GetStatus_again. Qed.

(** *** Route statuses *)

Section convergence.
Context (json_of_condition : Condition → string) (json_of_parent : RouteParentStatus → string).

(** What the sort keys have to do with the values: the JSON text of a
    condition starts with its type, that of a parent status with the parent
    reference and the controller name, and texts determine statuses. *)
Context (json_of_condition_type : ∀ a a' b b',
  c_Type a = c_Type a' → c_Type b = c_Type b' → c_Type a ≠ c_Type b →
  String.ltb (json_of_condition a) (json_of_condition b)
  = String.ltb (json_of_condition a') (json_of_condition b')).
Context (json_of_parent_key : ∀ a a' b b',
  (rps_ParentRef a, rps_ControllerName a) = (rps_ParentRef a', rps_ControllerName a') →
  (rps_ParentRef b, rps_ControllerName b) = (rps_ParentRef b', rps_ControllerName b') →
  (rps_ParentRef a, rps_ControllerName a) ≠ (rps_ParentRef b, rps_ControllerName b) →
  String.ltb (json_of_parent a) (json_of_parent b)
  = String.ltb (json_of_parent a') (json_of_parent b')).
Context (json_of_parent_inj : ∀ a b, json_of_parent a = json_of_parent b → a = b).

Let sortc := sort_conditions json_of_condition.
Let lessp a b := String.ltb (json_of_parent a) (json_of_parent b).

Lemma sort_conditions_idemp p : sortc (sortc p) = sortc p.
Proof.
  unfold sortc, sort_conditions. simpl. f_equal. apply sort_SliceStable_id.
  apply sort_SliceStable_sorted.
  - intros a b. apply string_ltb_asym.
  - intros a b c. apply string_not_ltb_trans.
Qed.

Lemma strip_sort_route_conditions ref ctrl s g c1 c2 :
  strip_parent (sortc (mkRouteParentStatus ref ctrl (RouteStatus_Conditions s g c1)))
  = strip_parent (sortc (mkRouteParentStatus ref ctrl (RouteStatus_Conditions s g c2))).
Proof using json_of_condition_type.
  unfold sortc, sort_conditions, strip_parent. simpl. f_equal.
  assert (∀ c, strip_time <$> sort_SliceStable
      (λ a b, String.ltb (json_of_condition a) (json_of_condition b))
      (RouteStatus_Conditions s g c) =
    sort_SliceStable (λ a b, String.ltb (json_of_condition a) (json_of_condition b))
      (strip_time <$> RouteStatus_Conditions s g c)) as Hs.
  { intros c. apply sort_SliceStable_fmap. intros a b Ha Hb.
    destruct (decide (c_Type a = c_Type b)) as [Ht|Ht].
    - assert (a = b) as ->; [|by rewrite !string_ltb_irrefl].
      unfold RouteStatus_Conditions, RouteAcceptedStatus_Condition,
        RouteResolvedRefsStatus_Condition in Ha, Hb.
      rewrite elem_of_cons, list_elem_of_singleton in Ha, Hb.
      destruct Ha as [-> | ->], Hb as [-> | ->]; try done;
        rewrite !condition_of_Type in Ht; discriminate.
    - by apply json_of_condition_type. }
  rewrite !Hs. f_equal. unfold RouteStatus_Conditions, RouteAcceptedStatus_Condition,
    RouteResolvedRefsStatus_Condition. simpl. by rewrite !strip_condition_of.
Qed.

(** Timestamps of this controller's statuses are immaterial. *)
Definition strip_ours (ctrl : string) (p : RouteParentStatus) : RouteParentStatus :=
  if decide (rps_ControllerName p = ctrl) then strip_parent p else p.

Lemma strip_parent_strip_ours ctrl p : strip_parent (strip_ours ctrl p) = strip_parent p.
Proof.
  unfold strip_ours. case_decide; [|done]. unfold strip_parent. simpl. f_equal.
  rewrite <- list_fmap_compose. by apply list_fmap_ext.
Qed.

Lemma sort_parents_perm xs ys :
  xs ≡ₚ ys → sort_SliceStable lessp xs = sort_SliceStable lessp ys.
Proof using json_of_parent_inj.
  intros Hxy. apply (StronglySorted_unique_strong (not_less lessp)).
  - intros a b _ _ H1 H2. apply json_of_parent_inj.
    apply (anti_symm String.le); by apply string_not_ltb.
  - apply sort_SliceStable_sorted.
    + intros a b. apply string_ltb_asym.
    + intros a b c. apply string_not_ltb_trans.
  - apply sort_SliceStable_sorted.
    + intros a b. apply string_ltb_asym.
    + intros a b c. apply string_not_ltb_trans.
  - by rewrite !sort_SliceStable_perm.
Qed.

(** The two halves of a merged status, with their conditions sorted. *)
Definition foreign (routeStatus : list RouteParentStatus) (ctrl : string) :=
  sortc <$> filterParentStatuses routeStatus ctrl.
Definition ours (r : gmap ParentReference RouteStatus) (ctrl : string) (g : Z) clock :=
  sortc <$> Statuses r ctrl g clock.

Lemma mergedStatus_halves r routeStatus ctrl g clock :
  mergedStatus json_of_condition json_of_parent r routeStatus ctrl g clock
  = sort_SliceStable lessp (foreign routeStatus ctrl ++ ours r ctrl g clock).
Proof. unfold mergedStatus, sortParents. by rewrite fmap_app. Qed.

Lemma elem_of_foreign routeStatus ctrl p :
  p ∈ foreign routeStatus ctrl → rps_ControllerName p ≠ ctrl.
Proof.
  unfold foreign, filterParentStatuses. rewrite list_elem_of_fmap.
  intros (q & -> & Hq). simpl. apply list_elem_of_In, filter_In in Hq as [_ Hq].
  by apply bool_decide_eq_true in Hq.
Qed.

Lemma elem_of_ours r ctrl g clock p :
  p ∈ ours r ctrl g clock → ∃ ref s, r !! ref = Some s ∧
    p = sortc (mkRouteParentStatus ref ctrl (RouteStatus_Conditions s g clock)).
Proof.
  unfold ours, Statuses. rewrite <- list_fmap_compose, list_elem_of_fmap.
  intros ([ref s] & -> & Hin). exists ref, s. split; [by apply elem_of_range|done].
Qed.

Lemma merged_conditions_sorted r routeStatus ctrl g clock p :
  p ∈ foreign routeStatus ctrl ++ ours r ctrl g clock → sortc p = p.
Proof.
  rewrite elem_of_app. unfold foreign, ours. rewrite !list_elem_of_fmap.
  intros [(q & -> & _)|(q & -> & _)]; apply sort_conditions_idemp.
Qed.

(** The foreign statuses survive a merge. *)
Lemma foreign_merged r routeStatus ctrl g clock :
  filterParentStatuses
    (mergedStatus json_of_condition json_of_parent r routeStatus ctrl g clock) ctrl
  ≡ₚ foreign routeStatus ctrl.
Proof.
  rewrite mergedStatus_halves. unfold filterParentStatuses.
  rewrite sort_SliceStable_perm, List.filter_app, filter_all, filter_none, app_nil_r;
    [done| |].
  - intros p Hp. apply bool_decide_eq_false. intros Hne. apply Hne.
    by apply elem_of_ours in Hp as (ref & s & _ & ->).
  - intros p Hp. by apply bool_decide_eq_true, (elem_of_foreign routeStatus).
Qed.

Lemma lessp_strip_ours r routeStatus ctrl g clock a b :
  a ∈ foreign routeStatus ctrl ++ ours r ctrl g clock →
  b ∈ foreign routeStatus ctrl ++ ours r ctrl g clock →
  lessp (strip_ours ctrl a) (strip_ours ctrl b) = lessp a b.
Proof using json_of_parent_key.
  assert (∀ p, rps_ParentRef (strip_ours ctrl p) = rps_ParentRef p ∧
               rps_ControllerName (strip_ours ctrl p) = rps_ControllerName p) as Hk.
  { intros p. unfold strip_ours. by case_decide. }
  intros Ha Hb.
  destruct (decide ((rps_ParentRef a, rps_ControllerName a)
                    = (rps_ParentRef b, rps_ControllerName b))) as [Heq|Hne].
  - injection Heq as Href Hctrl.
    destruct (decide (rps_ControllerName a = ctrl)) as [Hours|Hours].
    + assert (a = b) as ->; [|by unfold lessp; rewrite !string_ltb_irrefl].
      rewrite elem_of_app in Ha, Hb.
      destruct Ha as [Ha|Ha]; [by apply elem_of_foreign in Ha|].
      destruct Hb as [Hb|Hb]; [apply elem_of_foreign in Hb; congruence|].
      apply elem_of_ours in Ha as (ra & sa & Hra & ->).
      apply elem_of_ours in Hb as (rb & sb & Hrb & ->).
      simpl in Href. subst. congruence.
    + unfold strip_ours. by rewrite !decide_False by congruence.
  - apply json_of_parent_key; destruct (Hk a), (Hk b); congruence.
Qed.

Lemma strip_ours_halves r routeStatus ctrl g c1 c2 :
  strip_ours ctrl <$> (foreign routeStatus ctrl ++ ours r ctrl g c1)
  = strip_ours ctrl <$> (foreign routeStatus ctrl ++ ours r ctrl g c2).
Proof using json_of_condition_type.
  rewrite !fmap_app. f_equal. unfold ours, Statuses. rewrite <- !list_fmap_compose.
  apply list_fmap_ext. intros i [ref s] _. simpl. unfold strip_ours. simpl.
  rewrite !decide_True by done. apply strip_sort_route_conditions.
Qed.

Lemma strip_merged r routeStatus ctrl g c1 c2 :
  strip_parent <$> mergedStatus json_of_condition json_of_parent r routeStatus ctrl g c1
  = strip_parent <$> mergedStatus json_of_condition json_of_parent r routeStatus ctrl g c2.
Proof using json_of_condition_type json_of_parent_key.
  assert (∀ c, strip_parent <$> mergedStatus json_of_condition json_of_parent
      r routeStatus ctrl g c = strip_parent <$> sort_SliceStable lessp
        (strip_ours ctrl <$> (foreign routeStatus ctrl ++ ours r ctrl g c))) as Hc.
  { intros c. rewrite mergedStatus_halves.
    rewrite <- (sort_SliceStable_fmap (strip_ours ctrl) lessp).
    - rewrite <- list_fmap_compose. apply list_fmap_ext. intros i p _.
      symmetry. apply strip_parent_strip_ours.
    - intros a b. apply lessp_strip_ours. }
  rewrite !Hc. do 2 f_equal. apply strip_ours_halves.
Qed.

(** Merged statuses that were stored need no update. *)
Lemma NeedsUpdate_again (r : gmap ParentReference RouteStatus)
    (routeStatus : list RouteParentStatus) controllerName generation clock1 clock2 :
  let st1 := (NeedsUpdate json_of_condition json_of_parent r routeStatus
                controllerName generation clock1).1 in
  (NeedsUpdate json_of_condition json_of_parent r st1
     controllerName generation clock2).2 = false ∧
  filterParentStatuses st1 controllerName
  ≡ₚ sort_conditions json_of_condition <$> filterParentStatuses routeStatus controllerName.
Proof using All.
  intros st1. split; [|apply foreign_merged].
  unfold NeedsUpdate. cbn [snd]. apply negb_false_iff, RouteStatusEqual_strip.
  assert (∀ p, p ∈ st1 → sortc p = p) as Hsorted.
  { intros p. unfold st1, NeedsUpdate. cbn [fst].
    rewrite mergedStatus_halves, sort_SliceStable_perm. apply merged_conditions_sorted. }
  assert (sortParents json_of_condition json_of_parent st1 = st1) as ->.
  { unfold sortParents. fold sortc. rewrite fmap_id_on by done.
    unfold st1, NeedsUpdate. cbn [fst]. rewrite mergedStatus_halves.
    apply sort_parents_perm, sort_SliceStable_perm. }
  assert (mergedStatus json_of_condition json_of_parent r st1 controllerName generation clock2
    = mergedStatus json_of_condition json_of_parent r routeStatus controllerName generation
        clock2) as ->; [|apply strip_merged].
  rewrite !mergedStatus_halves. apply sort_parents_perm, Permutation_app; [|done].
  unfold foreign at 1. etrans; [apply fmap_Permutation, foreign_merged|].
  rewrite fmap_id_on; [done|]. intros p Hp.
  eapply (merged_conditions_sorted r routeStatus _ generation clock1).
  apply elem_of_app. by left.
Qed.

(** Publishing a route's status converges.  Once the merged parent
    statuses have been written to the route, a later comparison, at any time,
    finds nothing to update; and the statuses other controllers wrote are all
    kept. *)
Theorem route_status_converges (r : gmap ParentReference RouteStatus)
    (routeStatus : list RouteParentStatus) controllerName generation clock1 clock2 :
  let st1 := (NeedsUpdate json_of_condition json_of_parent r routeStatus
                controllerName generation clock1).1 in
  (NeedsUpdate json_of_condition json_of_parent r st1
     controllerName generation clock2).2 = false ∧
  filterParentStatuses st1 controllerName
  ≡ₚ sort_conditions json_of_condition <$> filterParentStatuses routeStatus controllerName.
Proof using All. apply NeedsUpdate_again. Qed.

End convergence.
End state.

Arguments getStatus {MF} l generation clock.

(** *** Sort keys with the assumed order exist *)

Module SortKeys.

(** A prefix-free encoding of numbers. *)
Fixpoint unary (n : nat) (rest : string) : string :=
  match n with
  | O => String "a" rest
  | S n => String "b" (unary n rest)
  end.

Lemma unary_inj n m s t : unary n s = unary m t → n = m ∧ s = t.
Proof.
  revert m. induction n as [|n IH]; intros [|m]; simpl; try done.
  - by intros [= ->].
  - intros [= H]. destruct (IH m H). by subst.
Qed.

Lemma unary_order n m s s' t t' :
  n ≠ m → String.ltb (unary n s) (unary m t) = String.ltb (unary n s') (unary m t').
Proof.
  revert m. induction n as [|n IH]; intros [|m] Hnm; simpl; try done.
  unfold String.ltb in *. simpl. apply IH. lia.
Qed.

Definition condition_tuple (c : Condition) :=
  (c_Type c, match c_Status c with ConditionTrue => 0 | ConditionFalse => 1
             | ConditionUnknown => 2 end,
   c_ObservedGeneration c, c_LastTransitionTime c, c_Reason c, c_Message c).

Definition code {A} `{Countable A} (a : A) : nat := Pos.to_nat (encode a).

Lemma code_inj {A} `{Countable A} (a b : A) : code a = code b → a = b.
Proof. unfold code. intros Hab%Pos2Nat.inj. by apply (inj encode). Qed.

Definition condition_key (c : Condition) : string := unary (code (c_Type c)) "".
Definition parent_key (p : RouteParentStatus) : string :=
  unary (code (rps_ParentRef p, rps_ControllerName p))
    (unary (code (condition_tuple <$> rps_Conditions p)) "").

Lemma condition_key_order a a' b b' :
  c_Type a = c_Type a' → c_Type b = c_Type b' → c_Type a ≠ c_Type b →
  String.ltb (condition_key a) (condition_key b)
  = String.ltb (condition_key a') (condition_key b').
Proof. unfold condition_key. by intros -> ->. Qed.

Lemma parent_key_order a a' b b' :
  (rps_ParentRef a, rps_ControllerName a) = (rps_ParentRef a', rps_ControllerName a') →
  (rps_ParentRef b, rps_ControllerName b) = (rps_ParentRef b', rps_ControllerName b') →
  (rps_ParentRef a, rps_ControllerName a) ≠ (rps_ParentRef b, rps_ControllerName b) →
  String.ltb (parent_key a) (parent_key b) = String.ltb (parent_key a') (parent_key b').
Proof.
  unfold parent_key. intros -> -> Hne. apply unary_order. intros Hc. by apply code_inj in Hc.
Qed.

Lemma parent_key_inj a b : parent_key a = parent_key b → a = b.
Proof.
  unfold parent_key. intros [H1%code_inj H2]%unary_inj.
  apply unary_inj in H2 as [H2%code_inj _]. destruct a as [ra ca la], b as [rb cb lb].
  simpl in *. simplify_eq. f_equal. revert lb H2.
  induction la as [|x la IH]; intros [|y lb]; simpl; try done.
  intros [= H3 H4 H5 H6 H7 H8 H9]. f_equal; [|by apply IH].
  destruct x as [? [] ? ? ? ?], y as [? [] ? ? ? ?]; simpl in *; by simplify_eq.
Qed.

End SortKeys.

#[export] Instance plain_format : MultierrorFormat :=
  {| multierror_format := λ texts, strings_Join texts "; " |}.

Definition witness_ref : ParentReference :=
  mkParentReference None None None "gateway" (Some "http") None.
Definition witness_statuses : gmap ParentReference RouteStatus :=
  {[witness_ref := zeroRouteStatus]}.
Definition witness_foreign : list RouteParentStatus :=
  [mkRouteParentStatus witness_ref "example.com/other" []].

Lemma route_status_converges_witness :
  let st1 := (@NeedsUpdate plain_format canonical_range SortKeys.condition_key
                SortKeys.parent_key witness_statuses witness_foreign "ours" 1%Z (λ _, 0%Z)).1 in
  (@NeedsUpdate plain_format canonical_range SortKeys.condition_key
     SortKeys.parent_key witness_statuses st1 "ours" 1%Z (λ _, 7%Z)).2 = false ∧
  filterParentStatuses st1 "ours"
  ≡ₚ sort_conditions SortKeys.condition_key
       <$> filterParentStatuses witness_foreign "ours".
Proof.
  apply (@route_status_converges plain_format canonical_range SortKeys.condition_key
    SortKeys.parent_key SortKeys.condition_key_order SortKeys.parent_key_order
    SortKeys.parent_key_inj).
Defined.

(** *** What a route reports *)

Section reports.
Context {MF : MultierrorFormat} {MR : MapRange}.

Lemma set_accepted_error_unhealthy err s :
  has_error (RouteAcceptedStatus_errors (set_accepted_error err s)) = true.
Proof.
  assert (∀ a b c d, has_error (RouteAcceptedStatus_errors
    (mkRouteAcceptedStatus a b c d)) = bool_decide (is_Some a) || (bool_decide (is_Some b)
      || (bool_decide (is_Some c) || (bool_decide (is_Some d) || false)))) as Hh by done.
  unfold set_accepted_error. repeat case_match; rewrite Hh;
    rewrite ?(bool_decide_true (is_Some (Some err))) by eauto;
    by rewrite ?orb_true_r.
Qed.

Lemma set_resolution_error_unhealthy t e s :
  t ≠ NoResolutionErrorType →
  has_error (RouteResolvedRefsStatus_errors (set_resolution_error t (Some e) s)) = true.
Proof.
  intros Ht. destruct s as [a b c d f g].
  assert (∀ a b c d f g, has_error (RouteResolvedRefsStatus_errors
    (mkRouteResolvedRefsStatus a b c d f g)) = bool_decide (is_Some a) ||
      (bool_decide (is_Some b) || (bool_decide (is_Some c) || (bool_decide (is_Some d)
      || (bool_decide (is_Some f) || (bool_decide (is_Some g) || false)))))) as Hh by done.
  destruct t; try done; simpl set_resolution_error; rewrite Hh;
    rewrite (bool_decide_true (is_Some (Some e))) by eauto; by rewrite ?orb_true_r.
Qed.

(** The type of a non-empty collection is never [NoResolutionErrorType], when
    none of the collected errors has that type (no constructor gives it). *)
Lemma Flatten_nonempty errs :
  errs ≠ [] → (∀ e, e ∈ errs → re_remote e ≠ NoResolutionErrorType) →
  ∃ t e, Flatten (collect errs) = (t, Some e) ∧ t ≠ NoResolutionErrorType.
Proof.
  intros Hne Hall. unfold Flatten.
  destruct errs as [|e0 rest]; [done|]. set (errs := e0 :: rest).
  destruct (proj2 (collect_is_Some errs (re_remote e0))) as [v Hv].
  { exists e0. split; [left|done]. }
  assert (ResolutionErrors_Empty (collect errs) = false) as ->.
  { apply bool_decide_eq_false. intros Hs%map_size_empty_inv. by rewrite Hs in Hv. }
  destruct (bool_decide (length _ ≠ 0) || _); [by eexists _, _|].
  destruct (range (collect errs)) as [|[t w] l] eqn:Hr; [by eexists _, _|].
  eexists _, _. split; [done|]. assert ((t, w) ∈ range (collect errs)) as Hin
    by (rewrite Hr; left).
  apply elem_of_range in Hin.
  destruct (proj1 (collect_is_Some errs t)) as (e & He & <-); [eauto|]. by apply Hall.
Qed.

(** A route's published conditions tell the truth about binding.  After a
    successful bind both conditions of the parent are True; after a failed
    bind "Accepted" is False, and "ResolvedRefs" is False too when the route
    has resolution errors; removal drops the parent; and in each case the
    other parents keep their statuses. *)
Theorem route_conditions_report_binding (s : RouteState) (errs : list ResolutionError)
    (err : error) (ref : ParentReference) generation clock :
  rs_ResolutionErrors s = collect errs →
  (∀ e, e ∈ errs → re_remote e ≠ NoResolutionErrorType) →
  (∃ st, rs_ParentStatuses (Bound s ref) !! ref = Some st ∧
     c_Status <$> RouteStatus_Conditions st generation clock = [ConditionTrue; ConditionTrue]) ∧
  (∃ st resolved, rs_ParentStatuses (BindFailed s err ref) !! ref = Some st ∧
     c_Status <$> RouteStatus_Conditions st generation clock = [ConditionFalse; resolved] ∧
     (errs ≠ [] → resolved = ConditionFalse)) ∧
  rs_ParentStatuses (Remove s ref) !! ref = None ∧
  (∀ other, other ≠ ref →
     rs_ParentStatuses (Bound s ref) !! other = rs_ParentStatuses s !! other ∧
     rs_ParentStatuses (BindFailed s err ref) !! other = rs_ParentStatuses s !! other ∧
     rs_ParentStatuses (Remove s ref) !! other = rs_ParentStatuses s !! other).
Proof.
  intros Hcol Hall. unfold Bound, BindFailed, Remove, RouteStatuses_Bound,
    RouteStatuses_Remove, RouteStatuses_BindFailed. simpl.
  destruct (Flatten (rs_ResolutionErrors s)) as [t ferr] eqn:Hfl. simpl. split_and!.
  - eexists. rewrite lookup_insert_eq. by split.
  - eexists _, _. rewrite lookup_insert_eq. split; [done|]. split.
    + unfold RouteStatus_Conditions, RouteAcceptedStatus_Condition. simpl.
      rewrite condition_of_Status, set_accepted_error_unhealthy. simpl. reflexivity.
    + intros Hne. rewrite Hcol in Hfl.
      destruct (Flatten_nonempty errs Hne Hall) as (t' & e' & Hfl' & Ht').
      assert (t = t' ∧ ferr = Some e') as [-> ->] by (split; congruence).
      unfold RouteResolvedRefsStatus_Condition.
      by rewrite condition_of_Status, set_resolution_error_unhealthy.
  - apply lookup_delete_eq.
  - intros other Hne. by rewrite !lookup_insert_ne, lookup_delete_ne.
Qed.

End reports.

Lemma route_conditions_report_binding_witness :
  let s := mkRouteState ∅ (collect [NewInvalidKindError "unsupported"]) ∅ in
  ∃ st resolved,
    rs_ParentStatuses (@BindFailed canonical_range s
      (ErrBind (NewBindErrorRouteInvalid "invalid")) witness_ref) !! witness_ref = Some st ∧
    c_Status <$> @RouteStatus_Conditions plain_format st 1%Z (λ _, 0%Z)
    = [ConditionFalse; resolved] ∧ resolved = ConditionFalse.
Proof.
  intros s.
  destruct (@route_conditions_report_binding plain_format canonical_range s
    [NewInvalidKindError "unsupported"] (ErrBind (NewBindErrorRouteInvalid "invalid"))
    witness_ref 1%Z (λ _, 0%Z)) as (_ & (st & resolved & H1 & H2 & H3) & _).
  - reflexivity.
  - intros e He. apply list_elem_of_singleton in He as ->. done.
  - exists st, resolved. split; [exact H1|]. split; [exact H2|]. by apply H3.
Defined.
