(* ===== verification/Converter.v ===== *)
(** * Conversion of routes ([internal/k8s/reconciler/converter])

    Turns a Kubernetes route, with the references that resolved for it, into
    the resolved route handed to the Consul side.  A Go nil dereference is
    modelled by [None] (a panic). *)

From S2P Require Import Prelude Errors Json Core K8s Status GatewayClient Resolver State.

(** ** HTTP ([http.go]) *)

Definition methodMappings (m : string) : option HTTPMethod :=
  if decide (m = "CONNECT") then Some HTTPMethodConnect
  else if decide (m = "DELETE") then Some HTTPMethodDelete
  else if decide (m = "POST") then Some HTTPMethodPost
  else if decide (m = "PUT") then Some HTTPMethodPut
  else if decide (m = "PATCH") then Some HTTPMethodPatch
  else if decide (m = "GET") then Some HTTPMethodGet
  else if decide (m = "OPTIONS") then Some HTTPMethodOptions
  else if decide (m = "TRACE") then Some HTTPMethodTrace
  else if decide (m = "HEAD") then Some HTTPMethodHead
  else None.

Definition pathMappings (t : string) : option HTTPPathMatchType :=
  if decide (t = "Exact") then Some HTTPPathMatchExactType
  else if decide (t = "PathPrefix") then Some HTTPPathMatchPrefixType
  else if decide (t = "RegularExpression") then Some HTTPPathMatchRegularExpressionType
  else None.

Definition queryMappings (t : string) : option HTTPQueryMatchType :=
  if decide (t = "Exact") then Some HTTPQueryMatchExactType
  else if decide (t = "RegularExpression") then Some HTTPQueryMatchRegularExpressionType
  else None.

Definition headerMappings (t : string) : option HTTPHeaderMatchType :=
  if decide (t = "Exact") then Some HTTPHeaderMatchExactType
  else if decide (t = "RegularExpression") then Some HTTPHeaderMatchRegularExpressionType
  else None.

Definition httpHeadersToMap (headers : list HTTPHeader) : gmap string string :=
  foldl (λ m h, <[hh_Name h := hh_Value h]> m) ∅ headers.

(** One filter; [None] where the loop appends nothing. *)
Definition convert_filter (filter : HTTPRouteFilter) : option HTTPFilter :=
  match filter with
  | HTTPRouteFilterRequestHeaderModifier f =>
      Some (mkHTTPFilter HTTPHeaderFilterType
        (mkHTTPHeaderFilter (httpHeadersToMap (hrh_Set f)) (httpHeadersToMap (hrh_Add f))
           (hrh_Remove f))
        zeroRedirectFilter zeroURLRewriteFilter)
  | HTTPRouteFilterRequestRedirect f =>
      Some (mkHTTPFilter HTTPRedirectFilterType zeroHeaderFilter
        (mkHTTPRedirectFilter (default "" (hrr_Scheme f)) (default "" (hrr_Hostname f))
           (default 0%Z (hrr_Port f)) (default 0%Z (hrr_StatusCode f)))
        zeroURLRewriteFilter)
  | HTTPRouteFilterURLRewrite path =>
      match path with
      | Some p =>
          if decide (hpm_Type p = "ReplacePrefixMatch") then
            match hpm_ReplacePrefixMatch p with
            | Some prefix =>
                Some (mkHTTPFilter HTTPURLRewriteFilterType zeroHeaderFilter
                  zeroRedirectFilter
                  (mkHTTPURLRewriteFilter URLRewriteReplacePrefixMatchType prefix))
            | None => None
            end
          else None
      | None => None
      end
  | HTTPRouteFilterOther _ => None
  end.

Definition convertHTTPRouteFilters (routeFilters : list HTTPRouteFilter) : list HTTPFilter :=
  omap convert_filter routeFilters.

Definition convert_query (param : K8sHTTPQueryParamMatch) : option HTTPQueryMatch :=
  (λ mappedType, mkHTTPQueryMatch mappedType (kqm_Name param) (kqm_Value param))
  <$> queryMappings (default "Exact" (kqm_Type param)).

Definition convert_header (header : K8sHTTPHeaderMatch) : option HTTPHeaderMatch :=
  (λ mappedType, mkHTTPHeaderMatch mappedType (khm_Name header) (khm_Value header))
  <$> headerMappings (default "Exact" (khm_Type header)).

Definition convert_path (path : option K8sHTTPPathMatch) : HTTPPathMatch :=
  match path with
  | Some p =>
      match kpm_Value p with
      | Some value =>
          match pathMappings (default "Exact" (kpm_Type p)) with
          | Some mappedType => mkHTTPPathMatch mappedType value
          | None => mkHTTPPathMatch HTTPPathMatchNoneType ""
          end
      | None => mkHTTPPathMatch HTTPPathMatchNoneType ""
      end
  | None => mkHTTPPathMatch HTTPPathMatchNoneType ""
  end.

Definition convert_match (m : K8sHTTPRouteMatch) : HTTPMatch :=
  mkHTTPMatch (convert_path (km_Path m)) (omap convert_header (km_Headers m))
    (omap convert_query (km_QueryParams m))
    (default HTTPMethodNone (method ← km_Method m; methodMappings method)).

(** [Some None] is the [continue] of the loop over references. *)
Definition convert_service (reference : ResolvedReference) : option (option HTTPService) :=
  match rr_Type reference with
  | ConsulServiceReference =>
      httpRef ← bref_HTTPRef (rr_Reference reference);
      consul ← rr_Consul reference;
      Some (Some (mkHTTPService
        (mkResolvedService (csvc_Namespace consul) (csvc_Name consul))
        (default 1%Z (br_Weight (hbr_BackendRef httpRef)))
        (convertHTTPRouteFilters (hbr_Filters httpRef))))
  | HTTPRouteReference => Some None
  end.

Definition convert_rule (entry : RouteRule * list ResolvedReference) : option HTTPRouteRule :=
  match entry.1 with
  | RuleHTTP rule =>
      services ← mapM convert_service entry.2;
      Some (mkHTTPRouteRule (convert_match <$> kr_Matches rule)
        (convertHTTPRouteFilters (kr_Filters rule)) (omap id services))
  | RuleTCP _ | RuleEmpty => None
  end.

Section convert.
Context {MR : MapRange}.

Definition httpReferencesToRules (referenceMap : RouteRuleReferenceMap) :
    option (list HTTPRouteRule) :=
  mapM (λ kv, convert_rule kv.2) (range referenceMap).

Record HTTPRouteConverter : Type := mkHTTPRouteConverter {
  hc_namespace : string;
  hc_hostname : string;
  hc_prefix : string;
  hc_meta : gmap string string;
  hc_route : K8sHTTPRoute;
  hc_state : RouteState
}.

Definition HTTPRouteConverter_Convert (c : HTTPRouteConverter) : option ResolvedRoute :=
  let hostnames :=
    if bool_decide (length (khr_Hostnames (hc_route c)) = 0) then
      [if decide (hc_hostname c = "") then "*" else hc_hostname c]
    else khr_Hostnames (hc_route c) in
  let name := hc_prefix c +:+ om_Name (khr_Meta (hc_route c)) in
  rules ← httpReferencesToRules (rs_References (hc_state c));
  Some (hb_Build (hb_WithRules rules (hb_WithMeta (hc_meta c)
    (hb_WithHostnames hostnames (hb_WithNamespace (hc_namespace c)
      (hb_WithName name NewHTTPRouteBuilder)))))).

(** ** TCP ([tcp.go]) *)

(** The first Consul reference met; [None] is a nil [Consul] pointer. *)
Fixpoint first_consul_service (references : list ResolvedReference) :
    option ResolvedService :=
  match references with
  | [] => Some (mkResolvedService "" "")
  | reference :: references =>
      match rr_Type reference with
      | ConsulServiceReference =>
          consul ← rr_Consul reference;
          Some (mkResolvedService (csvc_Namespace consul) (csvc_Name consul))
      | HTTPRouteReference => first_consul_service references
      end
  end.

Definition tcpReferencesToService (referenceMap : RouteRuleReferenceMap) :
    option ResolvedService :=
  first_consul_service (kv ← range referenceMap; kv.2.2).

(** The configured prefix is not used for TCP routes. *)
Record TCPRouteConverter : Type := mkTCPRouteConverter {
  tc_namespace : string;
  tc_hostname : string;
  tc_meta : gmap string string;
  tc_route : K8sTCPRoute;
  tc_state : RouteState
}.

Definition TCPRouteConverter_Convert (c : TCPRouteConverter) : option ResolvedRoute :=
  service ← tcpReferencesToService (rs_References (tc_state c));
  Some (tb_Build (tb_WithService service (tb_WithMeta (tc_meta c)
    (tb_WithNamespace (tc_namespace c)
      (tb_WithName (om_Name (ktr_Meta (tc_route c))) NewTCPRouteBuilder))))).

(** ** What the references of a validated route look like *)

Definition http_reference (r : ResolvedReference) : Prop :=
  rr_Type r = ConsulServiceReference → is_Some (bref_HTTPRef (rr_Reference r)) ∧ is_Some (rr_Consul r).

Definition http_entry (entry : RouteRule * list ResolvedReference) : Prop :=
  (∃ rule, entry.1 = RuleHTTP rule) ∧ Forall http_reference entry.2.

Definition http_references (m : RouteRuleReferenceMap) : Prop :=
  ∀ ptr entry, m !! ptr = Some entry → http_entry entry.

Definition tcp_references (m : RouteRuleReferenceMap) : Prop :=
  ∀ ptr entry, m !! ptr = Some entry → ∀ r, r ∈ entry.2 → is_Some (rr_Consul r).

(** ** Lemmas *)

Lemma convert_service_total r : http_reference r → is_Some (convert_service r).
Proof.
  unfold convert_service. intros Hr. destruct (rr_Type r) eqn:Ht; [by eauto|].
  destruct (Hr Ht) as [[h ->] [c ->]]. simpl. eauto.
Qed.

Lemma convert_rule_total entry : http_entry entry → is_Some (convert_rule entry).
Proof.
  intros [[rule Hr] Hall]. unfold convert_rule. rewrite Hr.
  destruct (mapM_is_Some_2 convert_service entry.2) as [services Hs].
  { eapply Forall_impl; [exact Hall|]. apply convert_service_total. }
  rewrite Hs. simpl. eauto.
Qed.

Lemma httpReferencesToRules_total m :
  http_references m → is_Some (httpReferencesToRules m).
Proof.
  intros Hm. apply mapM_is_Some_2, Forall_forall. intros [ptr entry] Hin.
  apply elem_of_range in Hin. apply convert_rule_total. eauto.
Qed.

Lemma first_consul_service_total rs :
  (∀ r, r ∈ rs → is_Some (rr_Consul r)) → is_Some (first_consul_service rs).
Proof.
  induction rs as [|r rs IH]; intros Hall; simpl; [by eauto|].
  destruct (rr_Type r); [apply IH; set_solver|].
  destruct (Hall r) as [c ->]; [set_solver|]. simpl. eauto.
Qed.

Lemma tcpReferencesToService_total m :
  tcp_references m → is_Some (tcpReferencesToService m).
Proof.
  intros Hm. apply first_consul_service_total. intros r Hr.
  apply list_elem_of_bind in Hr as ([ptr entry] & Hr & Hin). apply elem_of_range in Hin.
  by eapply Hm.
Qed.

(** The services of a rule: one per Consul reference, in order. *)
Lemma convert_services_sound refs (services : list (option HTTPService)) :
  mapM convert_service refs = Some services →
  ∀ s, s ∈ omap id services → ∃ r c h, r ∈ refs ∧ rr_Type r = ConsulServiceReference ∧
    rr_Consul r = Some c ∧ bref_HTTPRef (rr_Reference r) = Some h ∧
    s_Service s = mkResolvedService (csvc_Namespace c) (csvc_Name c) ∧
    s_Weight s = default 1%Z (br_Weight (hbr_BackendRef h)).
Proof.
  intros Hm s Hs. apply list_elem_of_omap in Hs as ([s'|] & Hin & Hs'); [|done].
  injection Hs' as ->. apply mapM_Some in Hm.
  apply list_elem_of_lookup_1 in Hin as [i Hi].
  destruct (Forall2_lookup_r _ _ _ _ _ Hm Hi) as (r & Hr & Hc).
  unfold convert_service in Hc. destruct (rr_Type r) eqn:Ht; [done|].
  destruct (bref_HTTPRef (rr_Reference r)) as [h|] eqn:Hh; [|done].
  destruct (rr_Consul r) as [c|] eqn:Hcs; [|done]. simpl in Hc. injection Hc as <-.
  exists r, c, h. split_and!; try done. by eapply list_elem_of_lookup_2.
Qed.

(** Converting an HTTP route loses nothing of what was resolved.  For
    references as route validation produces them the conversion never panics;
    the result has at least one hostname (the route's own, else the
    listener's, else the wildcard) and, whatever the iteration order of the
    reference map, exactly one rule per mapped rule, with one match per
    Kubernetes match; and every service of a rule is a resolved Consul
    service with the weight of its backend reference, 1 by default. *)
Theorem converted_http_route (c : HTTPRouteConverter) :
  http_references (rs_References (hc_state c)) →
  ∃ r, HTTPRouteConverter_Convert c = Some (ResolvedHTTP r) ∧
    h_Hostnames r ≠ [] ∧
    (khr_Hostnames (hc_route c) ≠ [] → h_Hostnames r = khr_Hostnames (hc_route c)) ∧
    length (h_Rules r) = size (rs_References (hc_state c)) ∧
    (∀ rule, rule ∈ h_Rules r → ∃ ptr krule refs,
       rs_References (hc_state c) !! ptr = Some (RuleHTTP krule, refs) ∧
       length (r_Matches rule) = length (kr_Matches krule) ∧
       ∀ s, s ∈ r_Services rule → ∃ ref csvc h, ref ∈ refs ∧
         rr_Consul ref = Some csvc ∧ bref_HTTPRef (rr_Reference ref) = Some h ∧
         s_Service s = mkResolvedService (csvc_Namespace csvc) (csvc_Name csvc) ∧
         s_Weight s = default 1%Z (br_Weight (hbr_BackendRef h))).
Proof.
  intros Hrefs. destruct (httpReferencesToRules_total _ Hrefs) as [rules Hrules].
  unfold HTTPRouteConverter_Convert. rewrite Hrules. eexists. split; [done|].
  simpl. unfold httpReferencesToRules in Hrules. apply mapM_Some in Hrules.
  split_and!.
  - case_bool_decide as Hl; [done|]. intros Hn. apply Hl. by rewrite Hn.
  - intros Hne. rewrite bool_decide_false; [done|]. by intros Hl%nil_length_inv.
  - rewrite <- (Forall2_length _ _ _ Hrules). apply length_range.
  - intros rule Hin. apply list_elem_of_lookup_1 in Hin as [i Hi].
    destruct (Forall2_lookup_r _ _ _ _ _ Hrules Hi) as ([ptr [kr refs]] & Hk & Hc).
    apply list_elem_of_lookup_2, elem_of_range in Hk.
    unfold convert_rule in Hc. simpl in Hc. destruct kr as [krule|krule|]; [|done..].
    destruct (mapM convert_service refs) as [services|] eqn:Hs; [|done].
    simpl in Hc. injection Hc as <-. exists ptr, krule, refs. split_and!; [done| |].
    + simpl. apply length_fmap.
    + simpl. intros s Hin.
      destruct (convert_services_sound _ _ Hs s Hin) as (r & csvc & h & ? & _ & ? & ? & ? & ?).
      by exists r, csvc, h.
Qed.

End convert.

(** A rule with one match and one weighted backend. *)
Definition witness_httpRef : HTTPBackendRef :=
  mkHTTPBackendRef (mkBackendRef (mkBackendObjectReference None None "web" None (Some 80%Z))
    (Some 3%Z)) [].
Definition witness_reference : ResolvedReference :=
  mkResolvedReference ConsulServiceReference (mkBackendReference (Some witness_httpRef) None)
    (Some (mkConsulService "team1" "web")).
Definition witness_references : RouteRuleReferenceMap :=
  RouteRuleReferenceMap_Add ∅ 0
    (RuleHTTP (mkK8sHTTPRouteRule
      [mkK8sHTTPRouteMatch (Some (mkK8sHTTPPathMatch None (Some "/"))) [] [] (Some "GET")]
      [] [witness_httpRef]))
    witness_reference.
Definition witness_meta : ObjectMeta :=
  mkObjectMeta "route" "default" "uid" 1 "10" 0 ∅ ∅ [] [] None.
Definition witness_http_route : K8sHTTPRoute :=
  mkK8sHTTPRoute witness_meta (mkGroupKind GroupName "HTTPRoute")
    [mkParentReference None None None "gateway" None None] [] [] [].
Definition witness_converter : HTTPRouteConverter :=
  mkHTTPRouteConverter "ns" "" "prefix_" ∅ witness_http_route
    (mkRouteState witness_references ∅ ∅).

Lemma witness_references_http : http_references witness_references.
Proof.
  unfold witness_references, RouteRuleReferenceMap_Add. rewrite lookup_empty.
  intros ptr entry Hl. apply lookup_insert_Some in Hl as [[<- <-]|[_ Hl]]; [|done].
  split; [by eexists|]. constructor; [|constructor]. split; by eexists.
Qed.

Lemma converted_http_route_witness :
  ∃ r, @HTTPRouteConverter_Convert canonical_range witness_converter = Some (ResolvedHTTP r) ∧
    h_Hostnames r ≠ [] ∧ length (h_Rules r) = 1.
Proof.
  destruct (@converted_http_route canonical_range witness_converter)
    as (r & H1 & H2 & _ & H3 & _).
  - exact witness_references_http.
  - exists r. split; [exact H1|]. split; [exact H2|]. by rewrite H3.
Defined.
