(* ===== verification/Objects.v ===== *)
(** * Reconciled objects ([internal/k8s/reconciler]: [gateway.go], [route.go],
    [utils.go])

    [K8sGateway] and [K8sRoute] pair a Kubernetes object with its ephemeral
    state.  Indexing a slice out of range and dereferencing nil are [None]. *)

From S2P Require Import Prelude Errors Json Core K8s Status GatewayClient Resolver State Converter.

Record K8sGateway : Type := mkK8sGateway {
  kg_Gateway : Gateway;
  kg_GatewayState : GatewayState;
  kg_Config : GatewayClassConfig
}.

Record K8sRoute : Type := mkK8sRoute {
  kr_Route : Route;
  kr_RouteState : RouteState
}.

Definition kg_set_State (st : GatewayState) (g : K8sGateway) : K8sGateway :=
  mkK8sGateway (kg_Gateway g) st (kg_Config g).
Definition kr_set_State (st : RouteState) (r : K8sRoute) : K8sRoute :=
  mkK8sRoute (kr_Route r) st.

Definition newK8sGateway (config : GatewayClassConfig) (gateway : Gateway)
    (gatewayState : GatewayState) : K8sGateway := mkK8sGateway gateway gatewayState config.
Definition newK8sRoute (route : Route) (routeState : RouteState) : K8sRoute :=
  mkK8sRoute route routeState.

(** ** Hostnames ([utils.go]) *)

Definition hostnamesMatch (a b : string) : bool :=
  if bool_decide (a = "" ∨ a = "*" ∨ b = "" ∨ b = "*") then true
  else if strings_HasPrefix a "*." || strings_HasPrefix b "*." then
    let aLabels := strings_Split "." a in
    let bLabels := strings_Split "." b in
    if bool_decide (length aLabels ≠ length bLabels) then false
    else forallb2 strings_EqualFold (tail aLabels) (tail bLabels)
  else bool_decide (a = b).

Definition routeMatchesListenerHostname (listenerHostname : option string)
    (hostnames : list string) : bool :=
  match listenerHostname with
  | None => true
  | Some h =>
      if bool_decide (length hostnames = 0) then true
      else existsb (λ name, hostnamesMatch name h) hostnames
  end.

(** ** Routes ([route.go]) *)

Definition HTTPRouteID (n : NamespacedName) : string := "http-" +:+ NamespacedName_String n.
Definition TCPRouteID (n : NamespacedName) : string := "tcp-" +:+ NamespacedName_String n.

Definition K8sRoute_ID (r : K8sRoute) : string :=
  match kr_Route r with
  | RouteHTTP _ => HTTPRouteID (route_NamespacedName (kr_Route r))
  | RouteTCP _ => TCPRouteID (route_NamespacedName (kr_Route r))
  end.

Definition matchesHostname (r : K8sRoute) (hostname : option string) : bool :=
  match kr_Route r with
  | RouteHTTP route => routeMatchesListenerHostname hostname (khr_Hostnames route)
  | RouteTCP _ => true
  end.

(** [commonRouteSpec] is read for its parent references only. *)
Definition commonRouteSpec (r : K8sRoute) : list ParentReference :=
  match kr_Route r with
  | RouteHTTP route => khr_ParentRefs route
  | RouteTCP route => ktr_ParentRefs route
  end.

Definition routeStatus (r : K8sRoute) : list RouteParentStatus :=
  match kr_Route r with
  | RouteHTTP route => khr_Status route
  | RouteTCP route => ktr_Status route
  end.

Definition setStatus (r : K8sRoute) (updated : list RouteParentStatus) : K8sRoute :=
  mkK8sRoute
    match kr_Route r with
    | RouteHTTP route => RouteHTTP (mkK8sHTTPRoute (khr_Meta route) (khr_GroupKind route)
        (khr_ParentRefs route) (khr_Hostnames route) (khr_Rules route) updated)
    | RouteTCP route => RouteTCP (mkK8sTCPRoute (ktr_Meta route) (ktr_GroupKind route)
        (ktr_ParentRefs route) (ktr_Rules route) updated)
    end (kr_RouteState r).

(** ** Gateways ([gateway.go]) *)

Definition defaultListenerName : string := "default".

Definition listenerHostname (listener : Listener) : string := default "" (l_Hostname listener).
Definition listenerName (listener : Listener) : string :=
  if decide (l_Name listener = "") then defaultListenerName else l_Name listener.

Definition K8sGateway_ID (g : K8sGateway) : GatewayID :=
  mkGatewayID (gst_ConsulNamespace (kg_GatewayState g)) (om_Name (gw_Meta (kg_Gateway g))).

Section objects.
Context {MR : MapRange}.

(** The metadata of a route of kind [kind] bound to a gateway. *)
Definition route_meta (kind : string) (gateway : Gateway) (r : K8sRoute) : gmap string string :=
  <["external-source" := "consul-api-gateway"]>
  (<["consul-api-gateway/k8s/Gateway.Name" := om_Name (gw_Meta gateway)]>
  (<["consul-api-gateway/k8s/Gateway.Namespace" := om_Namespace (gw_Meta gateway)]>
  (<["consul-api-gateway/k8s/" +:+ kind +:+ ".Name" := route_Name (kr_Route r)]>
  (<["consul-api-gateway/k8s/" +:+ kind +:+ ".Namespace" := route_Namespace (kr_Route r)]>
   ∅)))).

Definition resolve (r : K8sRoute) (namespace : string) (gateway : Gateway)
    (listener : Listener) : option ResolvedRoute :=
  let hostname := listenerHostname listener in
  match kr_Route r with
  | RouteHTTP route =>
      HTTPRouteConverter_Convert (mkHTTPRouteConverter namespace hostname
        ("consul-api-gateway_" +:+ om_Name (gw_Meta gateway) +:+ "_")
        (route_meta "HTTPRoute" gateway r) route (kr_RouteState r))
  | RouteTCP route =>
      TCPRouteConverter_Convert (mkTCPRouteConverter namespace hostname
        (route_meta "TCPRoute" gateway r) route (kr_RouteState r))
  end.

Definition resolveListener (st : ListenerState) (listener : Listener) : ResolvedListener :=
  mkResolvedListener (listenerName listener) (listenerHostname listener) (l_Port listener)
    (ProtocolToConsul (lst_Protocol st)).1 (lst_TLS st) (range (lst_Routes st)).*2.

(** The loop over the listeners, from index [i]. *)
Fixpoint resolve_listeners (states : list ListenerState) (i : nat) (listeners : list Listener) :
    option (list ResolvedListener) :=
  match listeners with
  | [] => Some []
  | listener :: listeners =>
      st ← states !! i;
      rest ← resolve_listeners states (S i) listeners;
      Some (if ListenerState_Valid st then resolveListener st listener :: rest else rest)
  end.

Definition K8sGateway_Resolve (g : K8sGateway) : option ResolvedGateway :=
  listeners ← resolve_listeners (gst_Listeners (kg_GatewayState g)) 0
                (gw_Listeners (kg_Gateway g));
  Some (mkResolvedGateway (K8sGateway_ID g)
    (<["external-source" := "consul-api-gateway"]>
     (<["consul-api-gateway/k8s/Gateway.Name" := om_Name (gw_Meta (kg_Gateway g))]>
     (<["consul-api-gateway/k8s/Gateway.Namespace" := om_Namespace (gw_Meta (kg_Gateway g))]>
      ∅)))
    listeners (uint32_wrap <$> gcc_MaxConnections (gcc_Spec (kg_Config g)))).

(** The error result is always nil. *)
Definition CanFetchSecrets (g : K8sGateway) (secrets : list string) : bool :=
  let certificates : gset string :=
    foldl (λ acc listener, foldl (λ acc cert, {[cert]} ∪ acc) acc
      (tls_Certificates (lst_TLS listener))) ∅ (gst_Listeners (kg_GatewayState g)) in
  forallb (λ secret, bool_decide (secret ∈ certificates)) secrets.

(** ** Lemmas *)

Lemma K8sRoute_ID_set_State r st : K8sRoute_ID (kr_set_State st r) = K8sRoute_ID r.
Proof. done. Qed.

(** [resolve] reads the references of the route state only. *)
Lemma resolve_set_State r st namespace gateway listener :
  rs_References st = rs_References (kr_RouteState r) →
  resolve (kr_set_State st r) namespace gateway listener
  = resolve r namespace gateway listener.
Proof.
  destruct r as [[route|route] st0]; simpl; intros Href; unfold resolve; simpl;
    unfold HTTPRouteConverter_Convert, TCPRouteConverter_Convert; simpl; by rewrite Href.
Qed.

Lemma elem_of_certificates ls secret :
  secret ∈ (foldl (λ acc listener, foldl (λ acc cert, {[cert]} ∪ acc) acc
      (tls_Certificates (lst_TLS listener))) ∅ ls : gset string) ↔
  ∃ l, l ∈ ls ∧ secret ∈ tls_Certificates (lst_TLS l).
Proof.
  assert (∀ certs (acc : gset string),
    secret ∈ foldl (λ acc cert, {[cert]} ∪ acc) acc certs ↔ secret ∈ certs ∨ secret ∈ acc) as Hc.
  { induction certs as [|c certs IH]; intros acc; simpl; [set_solver|]. rewrite IH. set_solver. }
  assert (∀ acc : gset string, secret ∈ foldl (λ acc listener,
      foldl (λ acc cert, {[cert]} ∪ acc) acc (tls_Certificates (lst_TLS listener))) acc ls ↔
    (∃ l, l ∈ ls ∧ secret ∈ tls_Certificates (lst_TLS l)) ∨ secret ∈ acc) as Hls.
  { induction ls as [|l ls IH]; intros acc; simpl; [set_solver|]. rewrite IH, Hc. set_solver. }
  rewrite Hls. set_solver.
Qed.

(** A gateway may fetch exactly the certificates its listeners reference:
    [CanFetchSecrets] grants a request iff every requested secret is a
    certificate of some listener of that gateway. *)
Theorem gateway_fetches_only_its_certificates (g : K8sGateway) (secrets : list string) :
  CanFetchSecrets g secrets = true ↔
  ∀ secret, secret ∈ secrets → ∃ l, l ∈ gst_Listeners (kg_GatewayState g) ∧
    secret ∈ tls_Certificates (lst_TLS l).
Proof.
  unfold CanFetchSecrets. rewrite forallb_forall. split.
  - intros Hall secret Hs. apply list_elem_of_In, Hall, bool_decide_eq_true in Hs.
    by apply elem_of_certificates.
  - intros Hall secret Hs. apply bool_decide_eq_true, elem_of_certificates, Hall.
    by apply list_elem_of_In.
Qed.

Lemma resolve_listeners_spec states i listeners :
  i + length listeners ≤ length states →
  ∃ rls, resolve_listeners states i listeners = Some rls ∧
    rls = omap (λ p : Listener * ListenerState,
      if ListenerState_Valid p.2 then Some (resolveListener p.2 p.1) else None)
      (zip listeners (drop i states)).
Proof.
  revert i. induction listeners as [|l ls IH]; intros i Hlen; simpl in *; [eauto|].
  destruct (lookup_lt_is_Some_2 states i) as [st Hst]; [lia|].
  rewrite (drop_S states st i Hst), Hst. simpl.
  destruct (IH (S i)) as (rls & -> & ->); [lia|]. simpl. eexists. split; [done|].
  by destruct (ListenerState_Valid st).
Qed.

(** Only valid listeners reach Consul.  When every listener of the gateway
    has its state, resolving the gateway succeeds, and the result has one
    listener for each valid listener state, in order, carrying all the routes
    bound to it and the gateway's identity; in particular a conflicted,
    detached or unresolved listener, and a TCP listener with several routes,
    is left out. *)
Theorem resolved_gateway_listeners (g : K8sGateway) :
  length (gw_Listeners (kg_Gateway g)) = length (gst_Listeners (kg_GatewayState g)) →
  ∃ rg, K8sGateway_Resolve g = Some rg ∧ rg_ID rg = K8sGateway_ID g ∧
    (∀ rl, rl ∈ rg_Listeners rg ↔
       ∃ i listener st, gw_Listeners (kg_Gateway g) !! i = Some listener ∧
         gst_Listeners (kg_GatewayState g) !! i = Some st ∧
         ListenerStatus_Valid (lst_Status st) = true ∧
         (lst_Protocol st = TCPProtocolType → size (lst_Routes st) ≤ 1) ∧
         rl = resolveListener st listener) ∧
    (∀ st listener r, r ∈ rl_Routes (resolveListener st listener) ↔
       ∃ id, lst_Routes st !! id = Some r).
Proof.
  intros Hlen. unfold K8sGateway_Resolve.
  destruct (resolve_listeners_spec (gst_Listeners (kg_GatewayState g)) 0
    (gw_Listeners (kg_Gateway g))) as (rls & -> & ->); [lia|]. simpl.
  eexists. split; [done|]. split; [done|]. split; [|intros; apply elem_of_range_values].
  simpl. intros rl. rewrite list_elem_of_omap. rewrite drop_0. split.
  - intros ([l st] & Hin & Hv). simpl in Hv. apply list_elem_of_lookup_1 in Hin as [i Hi].
    apply lookup_zip_with_Some in Hi as (l' & st' & [= <- <-] & Hl & Hst).
    destruct (ListenerState_Valid st) eqn:Hvalid; [|done]. injection Hv as <-.
    exists i, l, st. unfold ListenerState_Valid in Hvalid.
    destruct (bool_decide (lst_Protocol st = _) && _) eqn:Hb; [done|].
    split_and!; try done. intros Hp. rewrite (bool_decide_true _ Hp) in Hb. simpl in Hb.
    apply bool_decide_eq_false in Hb. lia.
  - intros (i & l & st & Hl & Hst & Hvalid & Htcp & ->). exists (l, st). simpl. split.
    + apply (list_elem_of_lookup_2 _ i). apply lookup_zip_with_Some. eauto.
    + unfold ListenerState_Valid. rewrite Hvalid.
      destruct (bool_decide_reflect (lst_Protocol st = TCPProtocolType)) as [Hp|Hp]; [|done].
      rewrite (bool_decide_false (1 < size _)); [done|]. specialize (Htcp Hp). lia.
Qed.

End objects.

(** ** Hostname matching *)

Lemma forallb2_EqualFold_sym xs ys :
  forallb2 strings_EqualFold xs ys = forallb2 strings_EqualFold ys xs.
Proof.
  revert ys. induction xs as [|x xs IH]; intros [|y ys]; simpl; try done.
  by rewrite strings_EqualFold_sym, IH.
Qed.

Lemma hostnamesMatch_sym a b : hostnamesMatch a b = hostnamesMatch b a.
Proof.
  unfold hostnamesMatch.
  rewrite (bool_decide_ext (a = "" ∨ a = "*" ∨ b = "" ∨ b = "*")
             (b = "" ∨ b = "*" ∨ a = "" ∨ a = "*")) by tauto.
  destruct (bool_decide (b = "" ∨ _)); [done|].
  rewrite orb_comm. destruct (_ || _).
  - rewrite (bool_decide_ext (length (strings_Split "." a) ≠ _)
               (length (strings_Split "." b) ≠ length (strings_Split "." a)))
      by (split; intros H1 H2; by apply H1).
    by rewrite forallb2_EqualFold_sym.
  - apply bool_decide_ext. done.
Qed.

Lemma hostnamesMatch_refl a : hostnamesMatch a a = true.
Proof.
  unfold hostnamesMatch. repeat case_match; try done.
  - by rewrite bool_decide_eq_true in *.
  - apply forallb2_refl, strings_EqualFold_refl.
  - by apply bool_decide_eq_true.
Qed.

Lemma hostnamesMatch_wildcard l d :
  strings_Split "." l = [l] →
  hostnamesMatch (String "*" (String "." d)) (l +:+ String "." d) = true.
Proof.
  intros Hs. unfold hostnamesMatch.
  destruct (bool_decide (String "*" _ = "" ∨ _)); [done|].
  assert (strings_HasPrefix (String "*" (String "." d)) "*." = true) as ->.
  { unfold strings_HasPrefix. simpl. by destruct d. }
  simpl orb. rewrite (strings_Split_app _ _ _ Hs).
  change (strings_Split "." (String "*" (String "." d))) with ("*" :: strings_Split "." d).
  rewrite bool_decide_false by (simpl; lia). apply forallb2_refl, strings_EqualFold_refl.
Qed.

(** Hostname matching is the intended intersection test.  It is symmetric
    and reflexive; a bare wildcard matches everything; between two names that
    do not start with a wildcard label it is equality; and a name "*.d"
    matches "l.d" whenever [l] is a single label, but never a name with a
    different number of labels. *)
Theorem hostnames_match_spec (a b : string) :
  hostnamesMatch a b = hostnamesMatch b a ∧
  hostnamesMatch a a = true ∧
  hostnamesMatch a "*" = true ∧
  (a ≠ "" → a ≠ "*" → b ≠ "" → b ≠ "*" →
   strings_HasPrefix a "*." = false → strings_HasPrefix b "*." = false →
   (hostnamesMatch a b = true ↔ a = b)) ∧
  (∀ l d, a = String "*" (String "." d) → b = l +:+ String "." d →
     strings_Split "." l = [l] → hostnamesMatch a b = true) ∧
  (a ≠ "" → a ≠ "*" → b ≠ "" → b ≠ "*" →
   length (strings_Split "." a) ≠ length (strings_Split "." b) →
   hostnamesMatch a b = false).
Proof.
  split_and!; [apply hostnamesMatch_sym|apply hostnamesMatch_refl| | | |].
  - unfold hostnamesMatch. by rewrite bool_decide_true by tauto.
  - intros Ha Ha' Hb Hb' Hpa Hpb. unfold hostnamesMatch.
    rewrite bool_decide_false, Hpa, Hpb by tauto. apply bool_decide_eq_true.
  - intros l d -> -> Hsplit. by apply hostnamesMatch_wildcard.
  - intros Ha Ha' Hb Hb' Hlen. unfold hostnamesMatch.
    rewrite (bool_decide_false (a = "" ∨ _)) by tauto.
    destruct (strings_HasPrefix a "*." || strings_HasPrefix b "*.").
    + by rewrite bool_decide_true.
    + apply bool_decide_eq_false. by intros ->.
Qed.

Lemma resolved_gateway_listeners_witness :
  let gw := mkGateway (mkObjectMeta "gateway" "default" "uid" 1 "10" 0 ∅ ∅ [] [] None)
    (mkGroupKind GroupName "Gateway") "class"
    [mkListener "http" None 80 "HTTP" None None] [] (mkGatewayStatusObj [] [] []) in
  ∃ rg, @K8sGateway_Resolve canonical_range
      (mkK8sGateway gw (InitialGatewayState gw) zeroGatewayClassConfig) = Some rg ∧
    (λ rg, rl_Name <$> rg_Listeners rg) <$> Some rg = Some ["http"].
Proof.
  intros gw. destruct (@resolved_gateway_listeners canonical_range
    (mkK8sGateway gw (InitialGatewayState gw) zeroGatewayClassConfig)) as (rg & H1 & _).
  - reflexivity.
  - exists rg. split; [exact H1|]. rewrite <- H1. vm_compute. reflexivity.
Defined.
