(* ===== verification/Binder.v ===== *)
(** * The binder ([internal/k8s/reconciler/binder.go])

    Decides which listeners of a gateway a route attaches to.  [Bind] and
    [Unbind] mutate the gateway and the route in place: the model returns
    both with the "modified" result, and [None] for a Go panic (a listener
    without state, a namespace that no longer exists, a nil reference). *)

From S2P Require Import Prelude Errors Json Core K8s Status GatewayClient Resolver State Converter Objects.

(** [metav1.LabelSelectorAsSelector] and the selector's [Matches], from the
    Kubernetes libraries. *)
Class LabelSelectors : Type := {
  LabelSelectorAsSelector : option LabelSelector → result (gmap string string → bool)
}.

Definition NamespaceNameLabel : string := "kubernetes.io/metadata.name".

Definition toNamespaceSet (name : string) (labels : gmap string string) : gmap string string :=
  if decide (map_get labels NamespaceNameLabel = name) then labels
  else <[NamespaceNameLabel := name]> labels.

Definition routeMatchesListener (listenerName : string) (routeSectionName : option string) :
    bool * bool :=
  match routeSectionName with
  | None => (true, false)
  | Some s => (bool_decide (listenerName = s), true)
  end.

Definition routeKindIsAllowedForListener (kinds : option (list RouteGroupKind))
    (route : K8sRoute) : bool :=
  match kinds with
  | None => true
  | Some kinds =>
      let gvk := route_GroupKind (kr_Route route) in
      existsb (λ kind,
        let group := match rgk_Group kind with
                     | Some g => if decide (g = "") then GroupName else g
                     | None => GroupName
                     end in
        bool_decide (rgk_Kind kind = gk_Kind gvk) && bool_decide (group = gk_Group gvk)) kinds
  end.

Section binder.
Context {MR : MapRange} {LS : LabelSelectors} (client : Client).

(** The outer option is a panic, the [result] the Go results. *)
Definition routeAllowedForListenerNamespaces (gatewayNS : string)
    (allowedRoutes : option AllowedRoutes) (route : K8sRoute) : option (result bool) :=
  let namespaceSelector := allowedRoutes ≫= ar_Namespaces in
  let from := match namespaceSelector ≫= rn_From with
              | Some f => if decide (f = "") then NamespacesFromSame else f
              | None => NamespacesFromSame
              end in
  if decide (from = NamespacesFromAll) then Some (Ok true)
  else if decide (from = NamespacesFromSame) then
    Some (Ok (bool_decide (gatewayNS = route_Namespace (kr_Route route))))
  else if decide (from = NamespacesFromSelector) then
    match LabelSelectorAsSelector (namespaceSelector ≫= rn_Selector) with
    | Err e => Some (Err (ErrWrap "error parsing label selector: " e))
    | Ok matches =>
        match cl_GetNamespace client (mkNamespacedName "" (route_Namespace (kr_Route route))) with
        | Err e => Some (Err (ErrWrap "error retrieving namespace for route: " e))
        | Ok None => None
        | Ok (Some ns) => Some (Ok (matches (toNamespaceSet (ns_Name ns) (ns_Labels ns))))
        end
    end
  else Some (Ok false).

(** The listener's decision, with the route state it leaves behind. *)
Definition canBind (namespace : string) (listener : Listener) (st : ListenerState)
    (ref : ParentReference) (route : K8sRoute) : option (bool * RouteState) :=
  let rs := kr_RouteState route in
  if ListenerReadyStatus_HasError (ls_Ready (lst_Status st)) then Some (false, rs)
  else
    let (allowed, must) := routeMatchesListener (l_Name listener) (pr_SectionName ref) in
    let failed (e : BindError) : RouteState :=
      if must then BindFailed rs (ErrBind e) ref else rs in
    if negb allowed then Some (false, rs)
    else if negb (routeKindIsAllowedForListener (SupportedKindsFor (l_Protocol listener)) route)
    then Some (false, failed (NewBindErrorRouteKind "route kind not allowed for listener"))
    else
      res ← routeAllowedForListenerNamespaces namespace (l_AllowedRoutes listener) route;
      match res with
      | Err e =>
          Some (false, BindFailed rs (ErrWrap "error checking listener namespaces: " e) ref)
      | Ok false =>
          Some (false, failed (NewBindErrorListenerNamespacePolicy
            "route not allowed because of listener namespace policy"))
      | Ok true =>
          if negb (matchesHostname route (l_Hostname listener)) then
            Some (false, failed (NewBindErrorHostnameMismatch
              "route does not match listener hostname"))
          else if negb (ResolutionErrors_Empty (rs_ResolutionErrors rs)) then
            Some (false, BindFailed rs (ErrBind (NewBindErrorRouteInvalid
              "route is in an invalid state and cannot bind")) ref)
          else Some (true, Bound rs ref)
      end.

Definition routeReferencesGateway (route : K8sRoute) (gateway : K8sGateway) : bool :=
  let thisGateway := gateway_NamespacedName (kg_Gateway gateway) in
  existsb (λ ref, bool_decide
    (ReferencesGateway (route_Namespace (kr_Route route)) ref = Some thisGateway))
    (commonRouteSpec route).

(** Only the first matching reference loses its status. *)
Definition removeGatewayStatus (route : K8sRoute) (gateway : K8sGateway) : K8sRoute :=
  let thisGateway := gateway_NamespacedName (kg_Gateway gateway) in
  match List.find (λ ref, bool_decide
    (ReferencesGateway (route_Namespace (kr_Route route)) ref = Some thisGateway))
    (commonRouteSpec route) with
  | Some ref => kr_set_State (Remove (kr_RouteState route) ref) route
  | None => route
  end.

(** The loop of [Unbind] over the listener states. *)
Fixpoint unbind_listeners (ls : list ListenerState) (route : K8sRoute) (gateway : K8sGateway)
    (removed : bool) : list ListenerState * K8sRoute * bool :=
  match ls with
  | [] => ([], route, removed)
  | l :: ls =>
      if bool_decide (is_Some (lst_Routes l !! K8sRoute_ID route)) then
        let route := removeGatewayStatus route gateway in
        let l := lst_set_Routes (delete (K8sRoute_ID route) (lst_Routes l)) l in
        let '(ls, route, removed) := unbind_listeners ls route gateway true in
        (l :: ls, route, removed)
      else
        let '(ls, route, removed) := unbind_listeners ls route gateway removed in
        (l :: ls, route, removed)
  end.

Definition Unbind (gateway : K8sGateway) (route : K8sRoute) : K8sGateway * K8sRoute * bool :=
  let '(ls, route, removed) :=
    unbind_listeners (gst_Listeners (kg_GatewayState gateway)) route gateway false in
  (kg_set_State (gst_set_Listeners ls (kg_GatewayState gateway)) gateway, route, removed).

(** One iteration of the inner loop of [Bind]: listener [i] for one reference.
    The accumulator holds the listener states, the route and "modified". *)
Definition bind_step (gateway : K8sGateway) (ref : ParentReference)
    (acc : list ListenerState * K8sRoute * bool) (il : nat * Listener) :
    option (list ListenerState * K8sRoute * bool) :=
  let '(ls, route, modified) := acc in
  let '(i, listener) := il in
  st ← ls !! i;
  decision ← canBind (om_Namespace (gw_Meta (kg_Gateway gateway))) listener st ref route;
  let (can, rs) := decision : bool * RouteState in
  let route := kr_set_State rs route in
  if can then
    resolved ← resolve route (gst_ConsulNamespace (kg_GatewayState gateway))
                 (kg_Gateway gateway) listener;
    Some (<[i := lst_set_Routes (<[K8sRoute_ID route := resolved]> (lst_Routes st)) st]> ls,
          route, true)
  else if bool_decide (is_Some (lst_Routes st !! K8sRoute_ID route)) then
    Some (<[i := lst_set_Routes (delete (K8sRoute_ID route) (lst_Routes st)) st]> ls,
          route, true)
  else Some (ls, route, modified).

Fixpoint foldM {A B} (f : B → A → option B) (xs : list A) (b : B) : option B :=
  match xs with
  | [] => Some b
  | x :: xs => b ← f b x; foldM f xs b
  end.

Definition bind_ref (gateway : K8sGateway)
    (acc : list ListenerState * K8sRoute * bool) (ref : ParentReference) :
    option (list ListenerState * K8sRoute * bool) :=
  foldM (bind_step gateway ref) (imap pair (gw_Listeners (kg_Gateway gateway))) acc.

Definition Bind (gateway : K8sGateway) (route : K8sRoute) :
    option (K8sGateway * K8sRoute * bool) :=
  if negb (routeReferencesGateway route gateway) then Some (Unbind gateway route)
  else
    acc ← foldM (bind_ref gateway) (commonRouteSpec route)
       (gst_Listeners (kg_GatewayState gateway), route, false);
    let '(ls, route, modified) := acc : list ListenerState * K8sRoute * bool in
    Some (kg_set_State (gst_set_Listeners ls (kg_GatewayState gateway)) gateway,
          route, modified).

(** ** Specification of admission *)

(** The namespace policy of a listener, read off the Gateway API. *)
Definition namespace_admits (gatewayNS : string) (listener : Listener) (route : K8sRoute) : Prop :=
  let namespaces := l_AllowedRoutes listener ≫= ar_Namespaces in
  let from := match namespaces ≫= rn_From with
              | Some f => if decide (f = "") then NamespacesFromSame else f
              | None => NamespacesFromSame
              end in
  from = NamespacesFromAll ∨
  (from = NamespacesFromSame ∧ gatewayNS = route_Namespace (kr_Route route)) ∨
  (from = NamespacesFromSelector ∧ ∃ matches ns,
     LabelSelectorAsSelector (namespaces ≫= rn_Selector) = Ok matches ∧
     cl_GetNamespace client (mkNamespacedName "" (route_Namespace (kr_Route route)))
     = Ok (Some ns) ∧
     matches (toNamespaceSet (ns_Name ns) (ns_Labels ns)) = true).

(** A listener admits a route through a parent reference. *)
Definition admits (gatewayNS : string) (listener : Listener) (st : ListenerState)
    (ref : ParentReference) (route : K8sRoute) : Prop :=
  ListenerReadyStatus_HasError (ls_Ready (lst_Status st)) = false ∧
  (∀ section, pr_SectionName ref = Some section → section = l_Name listener) ∧
  routeKindIsAllowedForListener (SupportedKindsFor (l_Protocol listener)) route = true ∧
  namespace_admits gatewayNS listener route ∧
  matchesHostname route (l_Hostname listener) = true ∧
  rs_ResolutionErrors (kr_RouteState route) = ∅.

(** The listener looks up the route's namespace and finds none: it is ready,
    named by the reference if that names a section, allows the kind of the
    route, and selects namespaces by a selector that parses. *)
Definition asks_missing (listener : Listener) (status : ListenerStatus)
    (ref : ParentReference) (route : K8sRoute) : Prop :=
  ListenerReadyStatus_HasError (ls_Ready status) = false ∧
  (∀ section, pr_SectionName ref = Some section → section = l_Name listener) ∧
  routeKindIsAllowedForListener (SupportedKindsFor (l_Protocol listener)) route = true ∧
  (∃ namespaces matches, l_AllowedRoutes listener ≫= ar_Namespaces = Some namespaces ∧
     rn_From namespaces = Some NamespacesFromSelector ∧
     LabelSelectorAsSelector (rn_Selector namespaces) = Ok matches) ∧
  cl_GetNamespace client (mkNamespacedName "" (route_Namespace (kr_Route route))) = Ok None.

(** Some listener does so for some parent reference of the route. *)
Definition bind_asks_missing (gateway : K8sGateway) (route : K8sRoute) : Prop :=
  ∃ ref i l st, ref ∈ commonRouteSpec route ∧
    gw_Listeners (kg_Gateway gateway) !! i = Some l ∧
    gst_Listeners (kg_GatewayState gateway) !! i = Some st ∧
    asks_missing l (lst_Status st) ref route.

(** The resolved references of the route fit its kind. *)
Definition references_fit (route : K8sRoute) : Prop :=
  match kr_Route route with
  | RouteHTTP _ => http_references (rs_References (kr_RouteState route))
  | RouteTCP _ => tcp_references (rs_References (kr_RouteState route))
  end.

(** Route states that differ in their parent statuses only. *)
Definition same_bindings (r1 r2 : K8sRoute) : Prop :=
  kr_Route r1 = kr_Route r2 ∧
  rs_References (kr_RouteState r1) = rs_References (kr_RouteState r2) ∧
  rs_ResolutionErrors (kr_RouteState r1) = rs_ResolutionErrors (kr_RouteState r2).

(** ** Lemmas *)

#[local] Hint Resolve lookup_lt_Some : core.

Lemma same_bindings_refl r : same_bindings r r.
Proof. done. Qed.

Lemma same_bindings_trans r1 r2 r3 :
  same_bindings r1 r2 → same_bindings r2 r3 → same_bindings r1 r3.
Proof. unfold same_bindings. intros (?&?&?) (?&?&?). split_and!; congruence. Qed.

Lemma same_bindings_ID r1 r2 : same_bindings r1 r2 → K8sRoute_ID r1 = K8sRoute_ID r2.
Proof. unfold K8sRoute_ID. by intros (-> & _ & _). Qed.

Lemma same_bindings_resolve r1 r2 ns gw l :
  same_bindings r1 r2 → resolve r1 ns gw l = resolve r2 ns gw l.
Proof.
  intros (Hr & Href & _). rewrite <- (resolve_set_State r2 (kr_RouteState r1) ns gw l Href).
  unfold kr_set_State. rewrite <- Hr. by destruct r1.
Qed.

Lemma same_bindings_admits ns l st ref r1 r2 :
  same_bindings r1 r2 → admits ns l st ref r1 ↔ admits ns l st ref r2.
Proof.
  intros (Hr & _ & He). unfold admits, namespace_admits, routeKindIsAllowedForListener,
    matchesHostname. by rewrite Hr, He.
Qed.

Lemma same_bindings_BindFailed r e ref :
  same_bindings (kr_set_State (BindFailed (kr_RouteState r) e ref) r) r.
Proof. done. Qed.

Lemma references_fit_resolve r ns gw l :
  references_fit r → is_Some (resolve r ns gw l).
Proof.
  unfold references_fit, resolve. destruct (kr_Route r) as [route|route]; intros Href.
  - unfold HTTPRouteConverter_Convert. simpl.
    destruct (httpReferencesToRules_total _ Href) as [rules ->]. simpl. eauto.
  - unfold TCPRouteConverter_Convert. simpl.
    destruct (tcpReferencesToService_total _ Href) as [svc ->]. simpl. eauto.
Qed.

(** The namespace check panics iff the selector parses and the namespace of the
    route is missing; otherwise it decides [namespace_admits]. *)
Definition selects_missing (listener : Listener) (route : K8sRoute) : Prop :=
  (∃ namespaces matches, l_AllowedRoutes listener ≫= ar_Namespaces = Some namespaces ∧
     rn_From namespaces = Some NamespacesFromSelector ∧
     LabelSelectorAsSelector (rn_Selector namespaces) = Ok matches) ∧
  cl_GetNamespace client (mkNamespacedName "" (route_Namespace (kr_Route route))) = Ok None.

Lemma routeAllowedForListenerNamespaces_spec ns listener route :
  match routeAllowedForListenerNamespaces ns (l_AllowedRoutes listener) route with
  | Some res => ¬ selects_missing listener route ∧
      (res = Ok true ↔ namespace_admits ns listener route)
  | None => selects_missing listener route
  end.
Proof.
  unfold routeAllowedForListenerNamespaces, namespace_admits, selects_missing.
  destruct (l_AllowedRoutes listener ≫= ar_Namespaces) as [namespaces|]; cbn;
    [destruct (rn_From namespaces) as [f|] eqn:Hf; cbn; [destruct (decide (f = "")) as [-> |]|]|];
    repeat case_decide; try done; try (split; naive_solver).
  all: try (split; [naive_solver|]; case_bool_decide; naive_solver).
  destruct (LabelSelectorAsSelector _) as [matches|] eqn:Hsel.
  2: { split; [intros [(? & ? & [= <-] & _ & Hok) _]; congruence|]. split; [done|].
       by intros [?|[[? _]|(_ & ? & ? & ? & _)]]. }
  destruct (cl_GetNamespace client _) as [[found|]|] eqn:Hg; [split| |split].
  - by intros [_ [=]].
  - split; [intros [= Hm]; eauto 10|].
    intros [?|[[? _]|(_ & m & n' & [= <-] & [= <-] & ->)]]; done.
  - split; [|done]. exists namespaces, matches. by rewrite Hf; subst.
  - by intros [_ [=]].
  - split; [done|]. by intros [?|[[? _]|(_ & ? & ? & _ & ? & _)]].
Qed.

(** Close a rejecting branch of [canBind]. *)
#[local] Ltac rejected Hres :=
  split; [first [assumption | intros (? & ? & ? & _); congruence]|];
  split; [done|]; split; [done|];
  intros (? & ? & ? & Hn & ? & ?); try apply Hres in Hn; done.

Lemma canBind_spec ns listener st ref route :
  match canBind ns listener st ref route with
  | Some (b, rs) => ¬ asks_missing listener (lst_Status st) ref route ∧
      same_bindings (kr_set_State rs route) route ∧
      (b = true ↔ admits ns listener st ref route)
  | None => asks_missing listener (lst_Status st) ref route
  end.
Proof.
  unfold canBind, admits.
  destruct (ListenerReadyStatus_HasError _) eqn:Hready; [rejected I|].
  assert ((∀ section, pr_SectionName ref = Some section → section = l_Name listener) ↔
    (routeMatchesListener (l_Name listener) (pr_SectionName ref)).1 = true) as Hsec.
  { destruct (pr_SectionName ref) as [s|]; simpl; [|done].
    rewrite bool_decide_eq_true. naive_solver. }
  destruct (routeMatchesListener _ _) as [allowed must]. simpl in Hsec.
  destruct allowed; simpl.
  2: { split; [intros (_ & Hs & _); by apply Hsec in Hs|]. split; [done|]. split; [done|].
       intros (_ & Hs & _). by apply Hsec in Hs. }
  destruct (routeKindIsAllowedForListener _ route) eqn:Hkind; simpl;
    [|destruct must; rejected I].
  pose proof (routeAllowedForListenerNamespaces_spec ns listener route) as Hspec.
  destruct (routeAllowedForListenerNamespaces _ _ _) as [res|]; simpl.
  2: { destruct Hspec as [Hex Hget]. split_and!; [done|by apply Hsec|done|done|done]. }
  destruct Hspec as [Hno Hres].
  assert (¬ asks_missing listener (lst_Status st) ref route) as Hask.
  { intros (_ & _ & _ & Hex & Hget). by apply Hno. }
  destruct res as [[]|e];
    [|destruct must; rejected Hres|rejected Hres].
  destruct (matchesHostname route _); simpl; [|destruct must; rejected I].
  destruct (ResolutionErrors_Empty (rs_ResolutionErrors (kr_RouteState route))) eqn:He; simpl.
  - apply bool_decide_eq_true, map_size_empty_inv in He.
    split; [done|]. split; [done|]. split; [intros _|done].
    split_and!; [done|by apply Hsec|done|by apply Hres|done|done].
  - apply bool_decide_eq_false in He.
    split; [done|]. split; [done|]. split; [done|].
    intros (_ & _ & _ & _ & _ & H0). by rewrite H0, map_size_empty in He.
Qed.

Lemma same_bindings_asks l status ref r1 r2 :
  same_bindings r1 r2 → asks_missing l status ref r1 ↔ asks_missing l status ref r2.
Proof. intros (Hr & _). unfold asks_missing, routeKindIsAllowedForListener. by rewrite Hr. Qed.

(** What processing a listener for one reference does to its state. *)
Definition decided (gateway : K8sGateway) (route : K8sRoute) (ref : ParentReference)
    (listener : Listener) (st st' : ListenerState) : Prop :=
  let ns := om_Namespace (gw_Meta (kg_Gateway gateway)) in
  (admits ns listener st ref route ∧ ∃ resolved,
     resolve route (gst_ConsulNamespace (kg_GatewayState gateway)) (kg_Gateway gateway) listener
     = Some resolved ∧
     st' = lst_set_Routes (<[K8sRoute_ID route := resolved]> (lst_Routes st)) st) ∨
  (¬ admits ns listener st ref route ∧
     st' = lst_set_Routes (delete (K8sRoute_ID route) (lst_Routes st)) st).

Lemma lst_set_Routes_id st : lst_set_Routes (lst_Routes st) st = st.
Proof. by destruct st. Qed.

(** A later reference overrides the decision of an earlier one. *)
Lemma decided_override gateway route ref1 ref2 listener st st1 st2 :
  decided gateway route ref1 listener st st1 →
  decided gateway route ref2 listener st1 st2 →
  decided gateway route ref2 listener st st2.
Proof.
  unfold decided, admits.
  intros [(_ & r1 & _ & ->)|[_ ->]] [(H2 & r2 & Hr2 & ->)|[H2 ->]]; simpl in *.
  - left. split; [done|]. exists r2. split; [done|]. by rewrite insert_insert_eq.
  - right. split; [done|]. by rewrite delete_insert_eq.
  - left. split; [done|]. exists r2. split; [done|]. by rewrite insert_delete_eq.
  - right. split; [done|]. by rewrite delete_delete_eq.
Qed.

(** The route is attached to a listener. *)
Definition attached (route : K8sRoute) (st : ListenerState) : Prop :=
  is_Some (lst_Routes st !! K8sRoute_ID route).

Lemma bind_step_spec gateway ref route0 ls route m i listener st :
  ¬ asks_missing listener (lst_Status st) ref route0 → references_fit route0 → same_bindings route route0 →
  ls !! i = Some st →
  ∃ st' route' m', bind_step gateway ref (ls, route, m) (i, listener)
      = Some (<[i := st']> ls, route', m') ∧
    same_bindings route' route0 ∧ decided gateway route0 ref listener st st' ∧
    (m' = true ↔ m = true ∨ attached route0 st ∨
       admits (om_Namespace (gw_Meta (kg_Gateway gateway))) listener st ref route0).
Proof.
  intros Hns Hfit Hsame Hst. unfold bind_step. rewrite Hst. simpl.
  pose proof (canBind_spec (om_Namespace (gw_Meta (kg_Gateway gateway))) listener st ref route)
    as Hspec.
  destruct (canBind _ _ _ _ _) as [[b rs]|].
  2: { by rewrite (same_bindings_asks _ _ _ _ _ Hsame) in Hspec. }
  destruct Hspec as (_ & Hrs & Hadm). simpl.
  rewrite (same_bindings_admits _ _ _ _ _ _ Hsame) in Hadm.
  assert (same_bindings (kr_set_State rs route) route0) as Hsame'
    by by eapply same_bindings_trans.
  rewrite (same_bindings_ID _ _ Hsame'), (same_bindings_resolve _ _ _ _ _ Hsame').
  destruct b.
  - destruct (references_fit_resolve route0 (gst_ConsulNamespace (kg_GatewayState gateway))
      (kg_Gateway gateway) listener Hfit) as [resolved Hres].
    rewrite Hres. simpl. eexists _, _, _. split; [reflexivity|]. split; [done|].
    split; [|naive_solver]. left. split; [naive_solver|]. eauto.
  - assert (¬ admits (om_Namespace (gw_Meta (kg_Gateway gateway))) listener st ref route0)
      as Hno by (intros Ha; by apply Hadm in Ha).
    case_bool_decide as Hin.
    + eexists _, _, _. split; [reflexivity|]. split; [done|].
      split; [by right|]. split; [by right; left|done].
    + exists st. eexists _, _. rewrite list_insert_id by done. split; [reflexivity|].
      split; [done|]. split; [|unfold attached; tauto]. right. split; [done|].
      rewrite delete_id; [by rewrite lst_set_Routes_id|].
      by apply eq_None_not_Some.
Qed.

(** Whatever an iteration does, it leaves the statuses of the listeners and the
    route's bindings alone; and it does not return if the namespace is missing. *)
Lemma bind_step_keeps gateway ref ls route m i listener ls' route' m' :
  bind_step gateway ref (ls, route, m) (i, listener) = Some (ls', route', m') →
  lst_Status <$> ls' = lst_Status <$> ls ∧ same_bindings route' route ∧
  ∃ st, ls !! i = Some st ∧ ¬ asks_missing listener (lst_Status st) ref route.
Proof.
  unfold bind_step. destruct (ls !! i) as [st|] eqn:Hst; [|done]. simpl.
  pose proof (canBind_spec (om_Namespace (gw_Meta (kg_Gateway gateway))) listener st ref route)
    as Hspec.
  destruct (canBind _ _ _ _ _) as [[b rs]|]; [|done]. destruct Hspec as (Hno & Hrs & _). simpl.
  assert (∀ routes, lst_Status <$> <[i := lst_set_Routes routes st]> ls = lst_Status <$> ls)
    as Hkeep.
  { intros routes. rewrite list_fmap_insert. apply list_insert_id.
    by rewrite list_lookup_fmap, Hst. }
  destruct b; [destruct (resolve _ _ _ _); simpl; [|done]|case_bool_decide];
    intros [= <- <- <-]; rewrite ?Hkeep; eauto.
Qed.

#[local] Arguments bind_step : simpl never.

Lemma lookup_status (ls ls' : list ListenerState) (i : nat) st :
  lst_Status <$> ls' = lst_Status <$> ls → ls !! i = Some st →
  ∃ st', ls' !! i = Some st' ∧ lst_Status st' = lst_Status st.
Proof.
  intros Heq Hst. assert ((lst_Status <$> ls') !! i = Some (lst_Status st)) as Hs.
  { by rewrite Heq, list_lookup_fmap, Hst. }
  rewrite list_lookup_fmap in Hs. destruct (ls' !! i) as [st'|]; [|done].
  injection Hs as Hs. eauto.
Qed.

(** An iteration that panics found the route's namespace missing. *)
Lemma bind_step_panics gateway ref ls route m i listener st :
  references_fit route → ls !! i = Some st →
  bind_step gateway ref (ls, route, m) (i, listener) = None →
  asks_missing listener (lst_Status st) ref route.
Proof.
  intros Hfit Hst. unfold bind_step. rewrite Hst. simpl.
  pose proof (canBind_spec (om_Namespace (gw_Meta (kg_Gateway gateway))) listener st ref route)
    as Hspec.
  destruct (canBind _ _ _ _ _) as [[b rs]|]; [|done]. destruct Hspec as (_ & Hrs & _). simpl.
  rewrite (same_bindings_resolve _ _ _ _ _ Hrs).
  destruct (references_fit_resolve route (gst_ConsulNamespace (kg_GatewayState gateway))
    (kg_Gateway gateway) listener Hfit) as [resolved ->].
  destruct b; [done|]. by case_bool_decide.
Qed.

Lemma same_bindings_fit r1 r2 : same_bindings r1 r2 → references_fit r2 → references_fit r1.
Proof. intros (Hr & Hrefs & _). unfold references_fit. by rewrite Hr, Hrefs. Qed.

(** The references a run of the loops returns for asked for no missing
    namespace, and a run that panics did. *)
Lemma bind_listeners_frame gateway ref pairs ls route m ls' route' m' :
  foldM (bind_step gateway ref) pairs (ls, route, m) = Some (ls', route', m') →
  lst_Status <$> ls' = lst_Status <$> ls ∧ same_bindings route' route ∧
  ∀ i l st, (i, l) ∈ pairs → ls !! i = Some st → ¬ asks_missing l (lst_Status st) ref route.
Proof.
  revert ls route m. induction pairs as [|[i l] pairs IH]; intros ls route m; simpl.
  { intros [= <- <- <-]. split_and!; [done..|]. by intros ???[]%not_elem_of_nil. }
  destruct (bind_step gateway ref (ls, route, m) (i, l)) as [[[ls1 route1] m1]|] eqn:Hstep; [|done].
  apply bind_step_keeps in Hstep as (Hst1 & Hr1 & st & Hst & Hno). simpl.
  intros (Hst2 & Hr2 & Hrest)%IH. split; [congruence|].
  split; [by eapply same_bindings_trans|]. intros j l' st' Hin Hj.
  apply elem_of_cons in Hin as [[= -> ->]|Hin]; [by simplify_eq|].
  destruct (lookup_status ls ls1 j st' Hst1 Hj) as (st1 & Hj1 & <-).
  rewrite <- (same_bindings_asks _ _ _ _ _ Hr1). by apply (Hrest j).
Qed.

Lemma bind_listeners_panics gateway ref pairs ls route m :
  references_fit route → (∀ i l, (i, l) ∈ pairs → i < length ls) →
  foldM (bind_step gateway ref) pairs (ls, route, m) = None →
  ∃ i l st, (i, l) ∈ pairs ∧ ls !! i = Some st ∧ asks_missing l (lst_Status st) ref route.
Proof.
  revert ls route m. induction pairs as [|[i l] pairs IH]; intros ls route m Hfit Hlt; simpl; [done|].
  destruct (bind_step gateway ref (ls, route, m) (i, l)) as [[[ls1 route1] m1]|] eqn:Hstep; simpl.
  - apply bind_step_keeps in Hstep as (Hst1 & Hr1 & _).
    assert (length ls1 = length ls) as Hlen
      by (apply (f_equal length) in Hst1; by rewrite !length_fmap in Hst1).
    intros (j & l' & st1 & Hin & Hj & Hask)%IH.
    + destruct (lookup_status ls1 ls j st1 (eq_sym Hst1) Hj) as (st & Hjs & Hs).
      exists j, l', st. split; [by right|]. split; [done|].
      by rewrite Hs, <- (same_bindings_asks _ _ _ _ _ Hr1).
    + by eapply same_bindings_fit.
    + intros j l' Hin. rewrite Hlen. apply (Hlt j l'). by right.
  - intros _. destruct (lookup_lt_is_Some_2 ls i) as [st Hst]; [apply (Hlt i l); by left|].
    exists i, l, st. split; [by left|]. split; [done|]. by eapply bind_step_panics.
Qed.

Lemma bind_refs_panics gateway refs ls route m :
  references_fit route → length (gw_Listeners (kg_Gateway gateway)) = length ls →
  foldM (bind_ref gateway) refs (ls, route, m) = None →
  ∃ ref i l st, ref ∈ refs ∧ gw_Listeners (kg_Gateway gateway) !! i = Some l ∧
    ls !! i = Some st ∧ asks_missing l (lst_Status st) ref route.
Proof.
  revert ls route m. induction refs as [|ref0 refs IH]; intros ls route m Hfit Hlen; simpl; [done|].
  destruct (bind_ref gateway (ls, route, m) ref0) as [[[ls1 route1] m1]|] eqn:Hstep; simpl.
  - apply bind_listeners_frame in Hstep as (Hst1 & Hr1 & _).
    assert (length ls1 = length ls) as Hlen1
      by (apply (f_equal length) in Hst1; by rewrite !length_fmap in Hst1).
    intros (ref & i & l & st1 & Hin & Hl & Hi & Hask)%IH; [|by eapply same_bindings_fit|congruence].
    destruct (lookup_status ls1 ls i st1 (eq_sym Hst1) Hi) as (st & His & Hs).
    exists ref, i, l, st. split; [by right|]. split; [done|]. split; [done|].
    by rewrite Hs, <- (same_bindings_asks _ _ _ _ _ Hr1).
  - intros _. apply bind_listeners_panics in Hstep as (i & l & st & Hin & Hi & Hask); [|done|].
    + exists ref0, i, l, st. split; [by left|]. by apply elem_of_imap_pair in Hin.
    + intros i l Hin%elem_of_imap_pair. rewrite <- Hlen. by eapply lookup_lt_Some.
Qed.

Lemma bind_refs_frame gateway refs ls route m ls' route' m' :
  foldM (bind_ref gateway) refs (ls, route, m) = Some (ls', route', m') →
  ∀ ref i l st, ref ∈ refs → gw_Listeners (kg_Gateway gateway) !! i = Some l →
    ls !! i = Some st → ¬ asks_missing l (lst_Status st) ref route.
Proof.
  revert ls route m. induction refs as [|ref0 refs IH]; intros ls route m; simpl.
  { by intros _ ????[]%not_elem_of_nil. }
  destruct (bind_ref gateway (ls, route, m) ref0) as [[[ls1 route1] m1]|] eqn:Hstep; [|done].
  apply bind_listeners_frame in Hstep as (Hst1 & Hr1 & Hno). simpl.
  intros Hrun ref i l st Hin Hl Hst. specialize (IH ls1 route1 m1 Hrun).
  apply elem_of_cons in Hin as [-> |Hin].
  - apply (Hno i); [by apply elem_of_imap_pair|done].
  - destruct (lookup_status ls ls1 i st Hst1 Hst) as (st1 & Hi1 & <-).
    rewrite <- (same_bindings_asks _ _ _ _ _ Hr1). by apply (IH ref i).
Qed.

Lemma bind_listeners_spec gateway ref route0 pairs ls route m :
  (∀ i l st, (i, l) ∈ pairs → ls !! i = Some st → ¬ asks_missing l (lst_Status st) ref route0) →
  references_fit route0 → same_bindings route route0 →
  NoDup pairs.*1 → (∀ i l, (i, l) ∈ pairs → i < length ls) →
  ∃ ls' route' m', foldM (bind_step gateway ref) pairs (ls, route, m)
      = Some (ls', route', m') ∧
    same_bindings route' route0 ∧ length ls' = length ls ∧
    (∀ i, i ∉ pairs.*1 → ls' !! i = ls !! i) ∧
    (∀ i l st, (i, l) ∈ pairs → ls !! i = Some st →
       ∃ st', ls' !! i = Some st' ∧ decided gateway route0 ref l st st') ∧
    (m' = true ↔ m = true ∨ ∃ i l st, (i, l) ∈ pairs ∧ ls !! i = Some st ∧
       (attached route0 st ∨
        admits (om_Namespace (gw_Meta (kg_Gateway gateway))) l st ref route0)).
Proof.
  intros Hns Hfit. revert ls route m Hns.
  induction pairs as [|[i l] pairs IH]; intros ls route m Hns Hsame Hnd Hlt.
  { exists ls, route, m. split; [reflexivity|]. split; [done|]. split; [done|].
    split; [done|]. split; [by intros ???[]%not_elem_of_nil|].
    split; [by left|]. intros [?|(? & ? & ? & []%not_elem_of_nil & _)]; done. }
  apply NoDup_cons in Hnd as [Hi Hnd]. simpl in Hi.
  destruct (lookup_lt_is_Some_2 ls i) as [st Hst]; [apply (Hlt i l); left|].
  destruct (bind_step_spec gateway ref route0 ls route m i l st)
    as (st1 & route1 & m1 & Hstep & Hsame1 & Hdec & Hm1); [by apply (Hns i); [left|]|done..|].
  assert (∀ j l', (j, l') ∈ pairs → j ≠ i) as Hne.
  { intros j l' Hj ->. apply Hi. apply list_elem_of_fmap. by exists (i, l'). }
  destruct (IH (<[i:=st1]> ls) route1 m1) as
    (ls' & route' & m' & Hfold & Hsame' & Hlen & Hother & Hdone & Hm'); [|done|done| |].
  { intros j l' st' Hj Hst'. apply (Hns j); [by right|].
    by rewrite list_lookup_insert_ne in Hst' by (by apply not_eq_sym, (Hne j l')). }
  { intros j l' Hj. rewrite length_insert. apply (Hlt j l'). by right. }
  exists ls', route', m'. split; [simpl; by rewrite Hstep|]. split; [done|].
  split; [by rewrite Hlen, length_insert|]. split_and!.
  - intros j Hj. simpl in Hj. apply not_elem_of_cons in Hj as [Hji Hj].
    by rewrite Hother, list_lookup_insert_ne.
  - intros j l' st' Hj Hst'. apply elem_of_cons in Hj as [[= -> ->]|Hj].
    + rewrite Hst in Hst'. injection Hst' as <-. exists st1. split; [|done].
      rewrite Hother by done. apply list_lookup_insert_eq. by eapply lookup_lt_Some.
    + apply (Hdone j l' st' Hj). by rewrite list_lookup_insert_ne by (by apply not_eq_sym, (Hne j l')).
  - rewrite Hm', Hm1. split.
    + intros [[?|Hx]|(j & l' & st' & Hj & Hst' & Hx)]; [by left| |].
      * right. exists i, l, st. split; [left|done].
      * right. exists j, l', st'. split; [by right|]. split; [|done].
        rewrite list_lookup_insert_ne in Hst' by (by apply not_eq_sym, (Hne j l')). done.
    + intros [?|(j & l' & st' & Hj & Hst' & Hx)]; [by left; left|].
      apply elem_of_cons in Hj as [[= -> ->]|Hj].
      * rewrite Hst in Hst'. injection Hst' as <-. left. by right.
      * right. exists j, l', st'. split; [done|]. split; [|done].
        by rewrite list_lookup_insert_ne by (by apply not_eq_sym, (Hne j l')).
Qed.

Lemma bind_ref_spec gateway ref route0 ls route m :
  (∀ i l st, gw_Listeners (kg_Gateway gateway) !! i = Some l → ls !! i = Some st →
     ¬ asks_missing l (lst_Status st) ref route0) → references_fit route0 → same_bindings route route0 →
  length (gw_Listeners (kg_Gateway gateway)) = length ls →
  ∃ ls' route' m', bind_ref gateway (ls, route, m) ref = Some (ls', route', m') ∧
    same_bindings route' route0 ∧ length ls' = length ls ∧
    (∀ i l st, gw_Listeners (kg_Gateway gateway) !! i = Some l → ls !! i = Some st →
       ∃ st', ls' !! i = Some st' ∧ decided gateway route0 ref l st st') ∧
    (m' = true ↔ m = true ∨ ∃ i l st, gw_Listeners (kg_Gateway gateway) !! i = Some l ∧
       ls !! i = Some st ∧ (attached route0 st ∨
        admits (om_Namespace (gw_Meta (kg_Gateway gateway))) l st ref route0)).
Proof.
  intros Hns Hfit Hsame Hlen.
  destruct (bind_listeners_spec gateway ref route0
    (imap pair (gw_Listeners (kg_Gateway gateway))) ls route m)
    as (ls' & route' & m' & H1 & H2 & H3 & _ & H4 & H5); [|done|done|..].
  - intros i l st Hin%elem_of_imap_pair. by apply Hns.
  - rewrite imap_pair_keys. apply NoDup_seq.
  - intros i l Hi%elem_of_imap_pair. rewrite <- Hlen. by eapply lookup_lt_Some.
  - exists ls', route', m'. split; [done|]. split; [done|]. split; [done|].
    setoid_rewrite elem_of_imap_pair in H4. setoid_rewrite elem_of_imap_pair in H5. done.
Qed.

(** A decided listener admits the same references. *)
Lemma decided_admits gateway route ref1 l st st1 ns ref2 r :
  decided gateway route ref1 l st st1 → admits ns l st1 ref2 r ↔ admits ns l st ref2 r.
Proof. by intros [(_ & ? & _ & ->)|[_ ->]]. Qed.

Lemma decided_attached gateway route ref l st st1 :
  decided gateway route ref l st st1 → attached route st1 →
  admits (om_Namespace (gw_Meta (kg_Gateway gateway))) l st ref route.
Proof.
  intros [(Ha & _)|[_ ->]]; [done|]. unfold attached. simpl.
  rewrite lookup_delete_eq. by intros [].
Qed.

Lemma decided_Status gateway route ref l st st1 :
  decided gateway route ref l st st1 → lst_Status st1 = lst_Status st.
Proof. by intros [(_ & ? & _ & ->)|[_ ->]]. Qed.

Lemma bind_refs_spec gateway refs last route0 ls route m :
  (∀ ref i l st, ref ∈ refs ++ [last] → gw_Listeners (kg_Gateway gateway) !! i = Some l →
     ls !! i = Some st → ¬ asks_missing l (lst_Status st) ref route0) →
  references_fit route0 → same_bindings route route0 →
  length (gw_Listeners (kg_Gateway gateway)) = length ls →
  ∃ ls' route' m', foldM (bind_ref gateway) (refs ++ [last]) (ls, route, m)
      = Some (ls', route', m') ∧
    same_bindings route' route0 ∧ length ls' = length ls ∧
    (∀ i l st, gw_Listeners (kg_Gateway gateway) !! i = Some l → ls !! i = Some st →
       ∃ st', ls' !! i = Some st' ∧ decided gateway route0 last l st st') ∧
    (m' = true ↔ m = true ∨ ∃ i l st, gw_Listeners (kg_Gateway gateway) !! i = Some l ∧
       ls !! i = Some st ∧ (attached route0 st ∨ ∃ ref, ref ∈ refs ++ [last] ∧
        admits (om_Namespace (gw_Meta (kg_Gateway gateway))) l st ref route0)).
Proof.
  intros Hns Hfit. revert ls route m Hns.
  induction refs as [|ref refs IH]; intros ls route m Hns Hsame Hlen; simpl.
  - destruct (bind_ref_spec gateway last route0 ls route m)
      as (ls' & route' & m' & -> & H2 & H3 & H4 & H5); [|done..|].
    { intros i l st. apply Hns. by left. }
    simpl.
    exists ls', route', m'. split; [done|]. split; [done|]. split; [done|]. split; [done|].
    rewrite H5. setoid_rewrite list_elem_of_singleton.
    split; (intros [?|(i & l & st & ? & ? & [?|Hx])]; [by left|right; exists i, l, st..]).
    + by split_and!; [..|left].
    + by split_and!; [..|right; exists last].
    + by split_and!; [..|left].
    + destruct Hx as (r & -> & ?). by split_and!; [..|right].
  - destruct (bind_ref_spec gateway ref route0 ls route m)
      as (ls1 & route1 & m1 & -> & H2 & H3 & H4 & H5); [|done..|].
    { intros i l st. apply Hns. by left. }
    simpl.
    destruct (IH ls1 route1 m1) as (ls' & route' & m' & -> & H6 & H6' & H7 & H8);
      [|done|congruence|].
    { intros r i l st1 Hr Hl Hst1.
      destruct (lookup_lt_is_Some_2 ls i) as [st Hst]; [rewrite <- H3; by eapply lookup_lt_Some|].
      destruct (H4 i l st Hl Hst) as (st1' & Hst1' & Hd). simplify_eq.
      rewrite (decided_Status _ _ _ _ _ _ Hd). apply (Hns r i); [by right|done..]. }
    exists ls', route', m'. split; [done|]. split; [done|]. split; [congruence|]. split.
    + intros i l st Hl Hst. destruct (H4 i l st Hl Hst) as (st1 & Hst1 & Hd1).
      destruct (H7 i l st1 Hl Hst1) as (st' & Hst' & Hd'). exists st'.
      split; [done|]. by eapply decided_override.
    + rewrite H8, H5. setoid_rewrite elem_of_cons. split.
      * intros [[?|(i & l & st & Hl & Hst & Hx)]|(i & l & st1 & Hl & Hst1 & Hx)];
          [by left| |].
        { right. exists i, l, st. split; [done|]. split; [done|].
          destruct Hx as [Hx|Hx]; [by left|right; exists ref; by split; [left|]]. }
        destruct (lookup_lt_is_Some_2 ls i) as [st Hst].
        { rewrite <- H3. by eapply lookup_lt_Some. }
        destruct (H4 i l st Hl Hst) as (st1' & Hst1' & Hd). simplify_eq.
        right. exists i, l, st. split; [done|]. split; [done|]. right.
        destruct Hx as [Hx|(r & Hr & Hx)].
        -- exists ref. split; [by left|]. by eapply decided_attached.
        -- exists r. split; [by right|]. by rewrite <- (decided_admits _ _ _ _ _ _ _ _ _ Hd).
      * intros [?|(i & l & st & Hl & Hst & [Hx|(r & [->|Hr] & Hx)])].
        -- by left; left.
        -- left; right. exists i, l, st. by split_and!; [..|left].
        -- left; right. exists i, l, st. by split_and!; [..|right].
        -- right. destruct (H4 i l st Hl Hst) as (st1 & Hst1 & Hd).
           exists i, l, st1. split; [done|]. split; [done|]. right. exists r.
           split; [done|]. by rewrite (decided_admits _ _ _ _ _ _ _ _ _ Hd).
Qed.

Lemma removeGatewayStatus_same route gateway :
  same_bindings (removeGatewayStatus route gateway) route.
Proof. unfold removeGatewayStatus. by destruct (List.find _ _). Qed.

Lemma unbind_listeners_spec ls route gateway removed :
  ∃ route', unbind_listeners ls route gateway removed =
    ((λ l, lst_set_Routes (delete (K8sRoute_ID route) (lst_Routes l)) l) <$> ls, route',
     removed || existsb (λ l, bool_decide (is_Some (lst_Routes l !! K8sRoute_ID route))) ls) ∧
    same_bindings route' route.
Proof.
  revert route removed. induction ls as [|l ls IH]; intros route removed; simpl.
  { exists route. by rewrite orb_false_r. }
  destruct (bool_decide_reflect (is_Some (lst_Routes l !! K8sRoute_ID route))) as [Hin|Hin].
  - assert (K8sRoute_ID (removeGatewayStatus route gateway) = K8sRoute_ID route) as HID
      by apply same_bindings_ID, removeGatewayStatus_same.
    destruct (IH (removeGatewayStatus route gateway) true) as (route' & -> & Hsame).
    exists route'. simpl. rewrite !HID, orb_true_r. split; [done|].
    eapply same_bindings_trans; [done|]. apply removeGatewayStatus_same.
  - destruct (IH route removed) as (route' & -> & Hsame). exists route'.
    rewrite delete_id, lst_set_Routes_id by by apply eq_None_not_Some. done.
Qed.

(** Unbinding is complete and touches nothing else.  After [Unbind] the
    route is attached to no listener of the gateway, every other route of
    every listener is as before and so is the rest of the gateway, the route's
    own bindings are unchanged, and the result says whether the route had
    been attached anywhere.  Binding a route that does not reference the
    gateway is the same operation. *)
Theorem unbind_detaches_everywhere (gateway : K8sGateway) (route : K8sRoute) :
  let '(gateway', route', removed) := Unbind gateway route in
  kg_Gateway gateway' = kg_Gateway gateway ∧ kg_Config gateway' = kg_Config gateway ∧
  gst_Listeners (kg_GatewayState gateway')
  = (λ l, lst_set_Routes (delete (K8sRoute_ID route) (lst_Routes l)) l)
      <$> gst_Listeners (kg_GatewayState gateway) ∧
  (∀ l, l ∈ gst_Listeners (kg_GatewayState gateway') → lst_Routes l !! K8sRoute_ID route = None) ∧
  same_bindings route' route ∧
  (removed = true ↔ ∃ l, l ∈ gst_Listeners (kg_GatewayState gateway) ∧
     is_Some (lst_Routes l !! K8sRoute_ID route)) ∧
  (routeReferencesGateway route gateway = false →
   Bind gateway route = Some (gateway', route', removed)).
Proof.
  destruct (Unbind gateway route) as [[gateway' route'] removed] eqn:HU.
  assert (routeReferencesGateway route gateway = false →
    Bind gateway route = Some (gateway', route', removed)) as Hbind.
  { intros Href. unfold Bind. by rewrite Href, HU. }
  revert HU. unfold Unbind.
  destruct (unbind_listeners_spec (gst_Listeners (kg_GatewayState gateway)) route gateway false)
    as (r & -> & Hsame). intros [= <- <- <-]. simpl.
  split; [done|]. split; [done|]. split; [done|]. split.
  { intros l Hl. apply list_elem_of_fmap in Hl as (l0 & -> & _). apply lookup_delete_eq. }
  split; [done|]. split; [|done]. rewrite existsb_exists. split.
  - intros (l & Hl & Ha%bool_decide_eq_true). exists l. by rewrite list_elem_of_In.
  - intros (l & Hl & Ha). exists l. rewrite <- list_elem_of_In, bool_decide_eq_true. done.
Qed.

(** C1: binding puts a route exactly where it is admitted.  Take a route that
    references the gateway and whose resolved references have the kinds its
    own kind takes (as validation leaves them), and a gateway with one state
    per listener.  [Bind] panics iff, for one of the route's parent
    references, a listener that is ready, matches the section name and allows
    the kind of the route selects namespaces by a parsable selector while the
    route's namespace does not exist.  Otherwise it returns, and afterwards
    each listener holds the route, resolved for that listener, if the listener
    admits it through the last parent reference, and does not hold it
    otherwise.  Nothing else of the gateway changes: its object, its
    configuration, its own status and addresses, and of each listener
    everything but this one entry are as before.  Of the route only the
    statuses of its parents may change.  The boolean returned is true exactly
    when the route was attached to some listener before or some listener
    admits it through one of its references, whether or not anything changed. *)
Theorem bind_attaches_where_admitted (gateway : K8sGateway) (route : K8sRoute)
    (refs : list ParentReference) (last : ParentReference) :
  references_fit route →
  routeReferencesGateway route gateway = true →
  commonRouteSpec route = refs ++ [last] →
  length (gw_Listeners (kg_Gateway gateway)) = length (gst_Listeners (kg_GatewayState gateway)) →
  (Bind gateway route = None ↔ bind_asks_missing gateway route) ∧
  (¬ bind_asks_missing gateway route →
   ∃ listeners' route' modified,
    Bind gateway route
    = Some (kg_set_State (gst_set_Listeners listeners' (kg_GatewayState gateway)) gateway,
            route', modified) ∧
    same_bindings route' route ∧
    length listeners' = length (gst_Listeners (kg_GatewayState gateway)) ∧
    (∀ i l st, gw_Listeners (kg_Gateway gateway) !! i = Some l →
       gst_Listeners (kg_GatewayState gateway) !! i = Some st →
       ∃ st', listeners' !! i = Some st' ∧ decided gateway route last l st st') ∧
    (modified = true ↔ ∃ i l st, gw_Listeners (kg_Gateway gateway) !! i = Some l ∧
       gst_Listeners (kg_GatewayState gateway) !! i = Some st ∧
       (attached route st ∨ ∃ ref, ref ∈ commonRouteSpec route ∧
          admits (om_Namespace (gw_Meta (kg_Gateway gateway))) l st ref route))).
Proof.
  intros Hfit Href Hspec Hlen.
  unfold Bind. rewrite Href. simpl. split; [split|].
  - intros Hnone. apply (bind_refs_panics gateway _ _ _ false); [done|done|].
    by destruct (foldM _ _ _) as [[[ls' route'] m']|].
  - intros (ref & i & l & st & Hr & Hl & Hst & Hask).
    destruct (foldM _ _ _) as [[[ls' route'] m']|] eqn:Hf; [|done].
    by destruct (bind_refs_frame _ _ _ _ _ _ _ _ Hf ref i l st Hr Hl Hst).
  - intros Hno. rewrite Hspec.
    destruct (bind_refs_spec gateway refs last route (gst_Listeners (kg_GatewayState gateway))
      route false) as (ls' & route' & m' & -> & H2 & H3 & H4 & H5);
      [|done|apply same_bindings_refl|done|].
    { rewrite <- Hspec. intros ref i l st Hr Hl Hst Hask. apply Hno. by exists ref, i, l, st. }
    simpl. eexists _, _, _. split; [reflexivity|]. split; [done|]. split; [done|].
    split; [done|]. rewrite H5. split; [by intros [?|?]|by right].
Qed.

End binder.

(** ** Examples *)

Module BinderExamples.

#[export] Instance no_selectors : LabelSelectors :=
  {| LabelSelectorAsSelector := λ _, Ok (λ _, false) |}.

(** A cluster with nothing in it but namespaces. *)
Definition bare_client : Client := {|
  cl_GetSecret := λ _, Ok None;
  cl_GetService := λ _, Ok None;
  cl_GetMeshService := λ _, Ok None;
  cl_GetNamespace := λ key, Ok (Some (mkNamespace (nn_Name key) ∅));
  cl_GetGatewayClassConfig := λ _, Ok None;
  cl_PodsWithLabels := λ _, Ok [];
  cl_GetReferenceGrantsInNamespace := λ _, Ok [];
  cl_GetConfigForGatewayClassName := λ _, Ok (zeroGatewayClassConfig, true);
  cl_IsManagedRoute := λ _ _, Ok true
|}.

Definition meta (name : string) : ObjectMeta := mkObjectMeta name "default" name 1 "1" 0 ∅ ∅ [] [] None.

(** A gateway with two HTTP listeners. *)
Definition two_listeners : Gateway :=
  mkGateway (meta "gateway") (mkGroupKind GroupName "Gateway") "class"
    [mkListener "a" None 80 "HTTP" None None; mkListener "b" None 8080 "HTTP" None None]
    [] (mkGatewayStatusObj [] [] []).
Definition gateway0 : K8sGateway :=
  mkK8sGateway two_listeners (InitialGatewayState two_listeners) zeroGatewayClassConfig.

Definition section (s : string) : ParentReference :=
  mkParentReference None None None "gateway" (Some s) None.

Definition route_to (refs : list ParentReference) : K8sRoute :=
  mkK8sRoute (RouteHTTP (mkK8sHTTPRoute (meta "route") (mkGroupKind GroupName "HTTPRoute")
    refs [] [] [])) (mkRouteState witness_references ∅ ∅).

(** The names of the listeners a route ends up attached to. *)
Definition attached_names (res : option (K8sGateway * K8sRoute * bool)) : list string :=
  match res with
  | Some (g, r, _) => lst_Name <$> List.filter (λ l,
      bool_decide (is_Some (lst_Routes l !! K8sRoute_ID r))) (gst_Listeners (kg_GatewayState g))
  | None => []
  end.

(** A cluster from which the route's namespace was deleted, and a gateway whose
    second listener selects namespaces by label. *)
Definition no_namespaces : Client := {|
  cl_GetSecret := λ _, Ok None;
  cl_GetService := λ _, Ok None;
  cl_GetMeshService := λ _, Ok None;
  cl_GetNamespace := λ _, Ok None;
  cl_GetGatewayClassConfig := λ _, Ok None;
  cl_PodsWithLabels := λ _, Ok [];
  cl_GetReferenceGrantsInNamespace := λ _, Ok [];
  cl_GetConfigForGatewayClassName := λ _, Ok (zeroGatewayClassConfig, true);
  cl_IsManagedRoute := λ _ _, Ok true
|}.

Definition selecting_listeners : Gateway :=
  mkGateway (meta "gateway") (mkGroupKind GroupName "Gateway") "class"
    [mkListener "a" None 80 "HTTP" None None;
     mkListener "b" None 8080 "HTTP" None (Some (mkAllowedRoutes
       (Some (mkRouteNamespaces (Some NamespacesFromSelector) None)) []))]
    [] (mkGatewayStatusObj [] [] []).
Definition selecting_gateway : K8sGateway :=
  mkK8sGateway selecting_listeners (InitialGatewayState selecting_listeners)
    zeroGatewayClassConfig.

End BinderExamples.

(** The namespace of the route is gone: a route to the listener that selects
    namespaces makes [Bind] panic, one to the other listener is attached. *)
Lemma bind_attaches_where_admitted_witness :
  let route s := BinderExamples.route_to [BinderExamples.section s] in
  @Bind canonical_range BinderExamples.no_selectors BinderExamples.no_namespaces
    BinderExamples.selecting_gateway (route "b") = None ∧
  ∃ gateway' route' modified,
    @Bind canonical_range BinderExamples.no_selectors BinderExamples.no_namespaces
      BinderExamples.selecting_gateway (route "a") = Some (gateway', route', modified) ∧
    BinderExamples.attached_names (Some (gateway', route', modified)) = ["a"].
Proof.
  intros route. split.
  - apply (@bind_attaches_where_admitted canonical_range BinderExamples.no_selectors
      BinderExamples.no_namespaces BinderExamples.selecting_gateway (route "b") []
      (BinderExamples.section "b")).
    + exact witness_references_http.
    + reflexivity.
    + reflexivity.
    + reflexivity.
    + exists (BinderExamples.section "b"), 1. eexists _, _.
      split; [left|]. split; [reflexivity|]. split; [reflexivity|].
      split; [reflexivity|]. split; [intros section [= <-]; reflexivity|].
      split; [reflexivity|]. split; [|reflexivity].
      eexists _, _. split; [reflexivity|]. split; reflexivity.
  - destruct (@bind_attaches_where_admitted canonical_range BinderExamples.no_selectors
      BinderExamples.no_namespaces BinderExamples.selecting_gateway (route "a") []
      (BinderExamples.section "a")) as (_ & Hrun).
    + exact witness_references_http.
    + reflexivity.
    + reflexivity.
    + reflexivity.
    + destruct Hrun as (ls & r & m & HB & _).
      { intros (ref & i & l & st & Href & Hl & _ & _ & Hs & _ & (ns & mt & Hns & _) & _).
        apply list_elem_of_singleton in Href as ->. specialize (Hs "a" eq_refl).
        destruct i as [|[|i]]; [injection Hl as <-; discriminate Hns| |discriminate Hl].
        injection Hl as <-. discriminate Hs. }
      eexists _, r, m. split; [exact HB|]. rewrite <- HB. vm_compute. reflexivity.
Defined.

(** A route with two section names on one gateway ends up on the listener of
    the last one only: processing the second reference removes the attachment
    the first one made. *)
Theorem second_section_detaches_first :
  let bind refs := @Bind canonical_range BinderExamples.no_selectors
    BinderExamples.bare_client BinderExamples.gateway0 (BinderExamples.route_to refs) in
  BinderExamples.attached_names (bind [BinderExamples.section "a"]) = ["a"] ∧
  BinderExamples.attached_names (bind [BinderExamples.section "b"]) = ["b"] ∧
  BinderExamples.attached_names
    (bind [BinderExamples.section "a"; BinderExamples.section "b"]) = ["b"].
Proof. vm_compute. done. Qed.
