(* ===== verification/K8sSecret.v ===== *)
(** * Encoded Kubernetes secrets ([internal/k8s/utils/secrets.go])

    A certificate reference travels through Consul and Envoy as the URL
    [k8s:///namespace/name]. *)

From S2P Require Import Prelude Errors.

(** ** [net/url] *)

Record URL : Type := mkURL {
  u_Scheme : string;
  u_Host : string;
  u_Path : string;
  u_RawQuery : string
}.

(** [url.Values]. *)
Abbreviation Values := (gmap string (list string)).

Definition is_lower (c : ascii) : bool := let n := N_of_ascii c in (97 <=? n)%N && (n <=? 122)%N.
Definition is_upper (c : ascii) : bool := let n := N_of_ascii c in (65 <=? n)%N && (n <=? 90)%N.
Definition is_digit (c : ascii) : bool := let n := N_of_ascii c in (48 <=? n)%N && (n <=? 57)%N.
Definition one_of (chars : list ascii) (c : ascii) : bool := existsb (Ascii.eqb c) chars.

Definition scheme_ok (scheme : string) : bool :=
  match String.list_ascii_of_string scheme with
  | [] => false
  | c :: cs => is_lower c && forallb (λ c, is_lower c || is_digit c || one_of ["+"; "-"; "."]%char c) cs
  end.

(** Host names, with wildcards. *)
Definition host_ok (host : string) : bool :=
  forallb (λ c, is_lower c || is_upper c || is_digit c || one_of ["-"; "."; "*"]%char c)
    (String.list_ascii_of_string host).

Definition path_ok (host path : string) : bool :=
  strings_HasPrefix path "/" || (bool_decide (path = "") && negb (bool_decide (host = ""))).

(** What is used of the package: parsing the text of a URL whose parts are
    well-formed and whose query was encoded gives its parts back, and so does
    parsing an encoded query. *)
Class NetURL : Type := {
  url_String : URL → string;
  url_Parse : string → result URL;
  values_Encode : Values → string;
  url_ParseQuery : string → Values;
  url_Parse_String : ∀ scheme host path (v : Values),
    scheme_ok scheme = true → host_ok host = true → path_ok host path = true →
    let u := mkURL scheme host path (values_Encode v) in
    url_Parse (url_String u) = Ok u;
  values_Encode_empty : values_Encode ∅ = "";
  url_ParseQuery_Encode : ∀ v : Values, map_Forall (λ _ vs, vs ≠ []) v →
    url_ParseQuery (values_Encode v) = v
}.

Definition ErrNotK8sSecret : error := ErrString "not a kubernetes secret".
Definition ErrInvalidK8sSecret : error := ErrString "invalid kubernetes secret".
Definition K8sSecretScheme : string := "k8s".

Record K8sSecret : Type := mkK8sSecret { sec_Namespace : string; sec_Name : string }.

Definition NewK8sSecret (namespace name : string) : K8sSecret := mkK8sSecret namespace name.

Section secret.
Context {U : NetURL}.

Definition ParseK8sSecret (encoded : string) : result K8sSecret :=
  parsed ← url_Parse encoded;
  if bool_decide (u_Scheme parsed ≠ K8sSecretScheme) then Err ErrNotK8sSecret
  else if negb (strings_HasPrefix (u_Path parsed) "/") then Err ErrInvalidK8sSecret
  else
    let path := strings_TrimPrefix (u_Path parsed) "/" in
    match strings_SplitN "/" 2 path with
    | [namespace; name] => Ok (NewK8sSecret namespace name)
    | _ => Err ErrInvalidK8sSecret
    end.

Definition K8sSecret_String (k : K8sSecret) : string :=
  url_String (mkURL K8sSecretScheme "" ("/" +:+ sec_Namespace k +:+ "/" +:+ sec_Name k) "").

Lemma SplitN_2_app namespace name :
  strings_Split "/" namespace = [namespace] →
  strings_SplitN "/" 2 (namespace +:+ "/" +:+ name) = [namespace; name].
Proof.
  induction namespace as [|c namespace IH]; [done|]. simpl.
  destruct (decide (c = "/"%char)) as [->|Hc]; [done|]. intros Hs.
  destruct (strings_Split "/" namespace) as [|t ts] eqn:Ht;
    [by apply strings_Split_ne in Ht|]. injection Hs as -> ->.
  specialize (IH eq_refl). simpl in IH. by rewrite IH.
Qed.

(** The text of a secret names its scheme and path. *)
Lemma url_Parse_K8sSecret k :
  url_Parse (K8sSecret_String k)
  = Ok (mkURL K8sSecretScheme "" ("/" +:+ sec_Namespace k +:+ "/" +:+ sec_Name k) "").
Proof.
  pose proof (url_Parse_String K8sSecretScheme "" ("/" +:+ sec_Namespace k +:+ "/" +:+ sec_Name k) ∅) as Hp.
  rewrite values_Encode_empty in Hp. apply Hp; [done..|]. unfold path_ok. rewrite orb_true_iff. left.
  etrans; [apply (strings_HasPrefix_cons "/" _ "")|apply strings_HasPrefix_nil].
Qed.

Lemma ParseK8sSecret_String k :
  strings_Split "/" (sec_Namespace k) = [sec_Namespace k] →
  ParseK8sSecret (K8sSecret_String k) = Ok k.
Proof.
  intros Hns. unfold ParseK8sSecret. rewrite url_Parse_K8sSecret.
  set (path := sec_Namespace k +:+ "/" +:+ sec_Name k).
  assert (strings_HasPrefix ("/" +:+ path) "/" = true) as Hp
    by (etrans; [apply (strings_HasPrefix_cons "/" path "")|apply strings_HasPrefix_nil]).
  cbn -[strings_HasPrefix strings_SplitN].
  rewrite bool_decide_false by (intros Hx; by apply Hx).
  unfold strings_TrimPrefix. rewrite Hp. cbn [negb].
  change (string_drop (String.length "/") ("/" +:+ path)) with path. unfold path.
  rewrite SplitN_2_app by done. by destruct k.
Qed.

(** Certificate references round-trip.  The encoding of a secret whose
    namespace is a single path segment parses back to the same namespace and
    name, so the secret the gateway serves is the one its listener was
    granted. *)
Theorem k8s_secret_roundtrip (k : K8sSecret) :
  strings_Split "/" (sec_Namespace k) = [sec_Namespace k] →
  ParseK8sSecret (K8sSecret_String k) = Ok k.
Proof. apply ParseK8sSecret_String. Qed.

End secret.

(** The laws of [NetURL] can hold: any injective coding of the parts will do. *)
Definition coded_String (u : URL) : string :=
  string_code (u_Scheme u, u_Host u, u_Path u, u_RawQuery u).
Definition coded_Parse (s : string) : result URL :=
  match string_decode s : option (string * string * string * string) with
  | Some (scheme, host, path, query) => Ok (mkURL scheme host path query)
  | None => Err (ErrString "missing protocol scheme")
  end.
Definition coded_Encode (v : Values) : string :=
  if decide (v = ∅) then "" else String "?" (string_code v).
Definition coded_ParseQuery (s : string) : Values :=
  match s with String _ s => default ∅ (string_decode s) | EmptyString => ∅ end.

#[export] Instance plain_url : NetURL.
Proof.
  refine {| url_String := coded_String; url_Parse := coded_Parse;
            values_Encode := coded_Encode; url_ParseQuery := coded_ParseQuery |}.
  - intros scheme host path v _ _ _. unfold coded_Parse, coded_String. by rewrite string_decode_code.
  - done.
  - intros v _. unfold coded_Encode, coded_ParseQuery. destruct (decide (v = ∅)) as [->|]; [done|].
    by rewrite string_decode_code.
Defined.

Lemma k8s_secret_roundtrip_witness :
  @ParseK8sSecret plain_url (@K8sSecret_String plain_url (NewK8sSecret "default" "cert"))
  = Ok (NewK8sSecret "default" "cert").
Proof. apply (@k8s_secret_roundtrip plain_url). reflexivity. Defined.
