(* ===== verification/GatewayValidator.v ===== *)
(** * Gateway validation ([internal/k8s/reconciler/validator]: [utils.go],
    [gateway.go], and [internal/common/tls.go])

    [Validate] derives the state of a gateway from its specification and the
    cluster: listener conflicts, pods, addresses, protocols and TLS.

    The state comes from [InitialGatewayState], so it has one listener state
    per listener of the gateway and the indexing in the source stays in range;
    the loops run over the pairs. *)

From S2P Require Import Prelude Errors Json Core K8s Status GatewayClient Resolver State K8sSecret.

(** ** Cross-namespace references ([utils.go]) *)

Section reference.
Context (client : Client).

Definition grant_from_applies (fromGK : GroupKind) (fromNamespace : string)
    (from : ReferenceGrantFrom) : bool :=
  bool_decide (gk_Group fromGK = rgf_Group from) && bool_decide (gk_Kind fromGK = rgf_Kind from)
  && bool_decide (fromNamespace = rgf_Namespace from).

Definition grant_to_applies (toGK : GroupKind) (toName : string) (to : ReferenceGrantTo) : bool :=
  bool_decide (gk_Group toGK = rgt_Group to) && bool_decide (gk_Kind toGK = rgt_Kind to)
  && (match rgt_Name to with
      | None => true
      | Some n => bool_decide (n = "") || bool_decide (toName = n)
      end).

Definition referenceAllowed (fromGK : GroupKind) (fromNamespace : string) (toGK : GroupKind)
    (toNamespace toName : string) : result bool :=
  if bool_decide (toNamespace = "" ∨ toNamespace = fromNamespace) then Ok true
  else
    refGrants ← cl_GetReferenceGrantsInNamespace client toNamespace;
    Ok (existsb (λ refGrant,
          existsb (grant_from_applies fromGK fromNamespace) (rg_From refGrant) &&
          existsb (grant_to_applies toGK toName) (rg_To refGrant)) refGrants).

Definition getNamespacedName (name : string) (namespace : option string)
    (parentNamespace : string) : NamespacedName :=
  match namespace with
  | Some ns => mkNamespacedName ns name
  | None => mkNamespacedName parentNamespace name
  end.

(** A grant that covers the reference. *)
Definition grants (fromGK : GroupKind) (fromNamespace : string) (toGK : GroupKind)
    (toName : string) (g : ReferenceGrant) : Prop :=
  (∃ from, from ∈ rg_From g ∧ rgf_Group from = gk_Group fromGK ∧
     rgf_Kind from = gk_Kind fromGK ∧ rgf_Namespace from = fromNamespace) ∧
  (∃ to, to ∈ rg_To g ∧ rgt_Group to = gk_Group toGK ∧ rgt_Kind to = gk_Kind toGK ∧
     (rgt_Name to = None ∨ rgt_Name to = Some "" ∨ rgt_Name to = Some toName)).

Lemma existsb_elem {A} (f : A → bool) xs : existsb f xs = true ↔ ∃ x, x ∈ xs ∧ f x = true.
Proof. rewrite existsb_exists. by setoid_rewrite list_elem_of_In. Qed.

Lemma grant_from_applies_true fromGK fromNamespace from :
  grant_from_applies fromGK fromNamespace from = true ↔
  rgf_Group from = gk_Group fromGK ∧ rgf_Kind from = gk_Kind fromGK ∧
  rgf_Namespace from = fromNamespace.
Proof.
  unfold grant_from_applies. rewrite !andb_true_iff, !bool_decide_eq_true.
  split; [intros [[-> ->] ->]|intros (-> & -> & ->)]; done.
Qed.

Lemma grant_to_applies_true toGK toName to :
  grant_to_applies toGK toName to = true ↔
  rgt_Group to = gk_Group toGK ∧ rgt_Kind to = gk_Kind toGK ∧
  (rgt_Name to = None ∨ rgt_Name to = Some "" ∨ rgt_Name to = Some toName).
Proof.
  unfold grant_to_applies. rewrite !andb_true_iff, !bool_decide_eq_true.
  assert (match rgt_Name to with
          | None => true
          | Some n => bool_decide (n = "") || bool_decide (toName = n)
          end = true ↔
    (rgt_Name to = None ∨ rgt_Name to = Some "" ∨ rgt_Name to = Some toName)) as ->.
  { destruct (rgt_Name to) as [n|]; [|by split; [left|]].
    rewrite orb_true_iff, !bool_decide_eq_true.
    split; [intros [-> | ->]; [by right; left|by right; right]|].
    intros [?|[[= ->]|[= ->]]]; [done|by left|by right]. }
  split; [intros [[-> ->] ?]|intros (-> & -> & ?)]; done.
Qed.

Lemma grants_spec fromGK fromNamespace toGK toName g :
  existsb (grant_from_applies fromGK fromNamespace) (rg_From g) &&
  existsb (grant_to_applies toGK toName) (rg_To g) = true ↔
  grants fromGK fromNamespace toGK toName g.
Proof.
  rewrite andb_true_iff, !existsb_elem. unfold grants.
  setoid_rewrite grant_from_applies_true. by setoid_rewrite grant_to_applies_true.
Qed.

(** The target is in the referrer's own namespace, or a grant covers it. *)
Definition reference_permitted (fromGK : GroupKind) (fromNamespace : string) (toGK : GroupKind)
    (toNamespace toName : string) : Prop :=
  toNamespace = "" ∨ toNamespace = fromNamespace ∨
  ∃ gs g, cl_GetReferenceGrantsInNamespace client toNamespace = Ok gs ∧ g ∈ gs ∧
    grants fromGK fromNamespace toGK toName g.

Lemma referenceAllowed_permitted fromGK fromNamespace toGK toNamespace toName :
  referenceAllowed fromGK fromNamespace toGK toNamespace toName = Ok true ↔
  reference_permitted fromGK fromNamespace toGK toNamespace toName.
Proof.
  unfold referenceAllowed, reference_permitted.
  case_bool_decide as Hns; [split; [tauto|done]|].
  destruct (cl_GetReferenceGrantsInNamespace client toNamespace) as [gs|e]; simpl.
  - split.
    + intros [= Hex]. apply existsb_elem in Hex as (g & Hg & Hgr).
      right; right. exists gs, g. split_and!; [done|done|]. by apply grants_spec.
    + intros [?|[?|(gs' & g & [= <-] & Hg & Hgr)]]; [tauto..|].
      f_equal. apply existsb_elem. exists g. split; [done|]. by apply grants_spec.
  - split; [done|]. intros [?|[?|(gs' & g & ? & _)]]; [tauto..|done].
Qed.

(** C6: a reference may cross namespaces only under a ReferenceGrant.  The
    check succeeds iff the target is in the referrer's own namespace (or no
    namespace is given), or some grant in the target's namespace lists the
    referrer's group, kind and namespace and covers the target's group, kind
    and name; and a failure to list the grants is returned, never taken for
    permission. *)
Theorem reference_allowed_iff fromGK fromNamespace toGK toNamespace toName :
  (referenceAllowed fromGK fromNamespace toGK toNamespace toName = Ok true ↔
   toNamespace = "" ∨ toNamespace = fromNamespace ∨
   ∃ gs g, cl_GetReferenceGrantsInNamespace client toNamespace = Ok gs ∧ g ∈ gs ∧
     grants fromGK fromNamespace toGK toName g) ∧
  (∀ e, toNamespace ≠ "" → toNamespace ≠ fromNamespace →
     cl_GetReferenceGrantsInNamespace client toNamespace = Err e →
     referenceAllowed fromGK fromNamespace toGK toNamespace toName = Err e).
Proof.
  split; [apply referenceAllowed_permitted|].
  intros e H1 H2 He. unfold referenceAllowed. rewrite He. by rewrite bool_decide_false by tauto.
Qed.

End reference.

(** ** TLS parameters ([internal/common/tls.go]) *)

Definition defaultTLSCipherSuites : list string :=
  ["TLS_ECDHE_ECDSA_WITH_AES_128_GCM_SHA256";
   "TLS_ECDHE_ECDSA_WITH_CHACHA20_POLY1305_SHA256";
   "TLS_ECDHE_RSA_WITH_AES_128_GCM_SHA256";
   "TLS_ECDHE_RSA_WITH_CHACHA20_POLY1305_SHA256";
   "TLS_ECDHE_ECDSA_WITH_AES_256_GCM_SHA384";
   "TLS_ECDHE_RSA_WITH_AES_256_GCM_SHA384"].

Definition DefaultTLSCipherSuites : list string := defaultTLSCipherSuites.

Definition extraTLSCipherSuites : list string :=
  ["TLS_RSA_WITH_AES_128_GCM_SHA256";
   "TLS_RSA_WITH_AES_128_CBC_SHA";
   "TLS_RSA_WITH_AES_256_GCM_SHA384";
   "TLS_RSA_WITH_AES_256_CBC_SHA";
   "TLS_ECDHE_ECDSA_WITH_AES_128_CBC_SHA";
   "TLS_ECDHE_RSA_WITH_AES_128_CBC_SHA";
   "TLS_ECDHE_ECDSA_WITH_AES_256_CBC_SHA";
   "TLS_ECDHE_RSA_WITH_AES_256_CBC_SHA"].

Definition SupportedTLSCipherSuite (cipherSuite : string) : bool :=
  bool_decide (cipherSuite ∈ defaultTLSCipherSuites ++ extraTLSCipherSuites).

Definition SupportedTLSVersions : list string :=
  ["TLS_AUTO"; "TLSv1_0"; "TLSv1_1"; "TLSv1_2"; "TLSv1_3"].

Definition TLSVersionsWithConfigurableCipherSuites : list string :=
  [""; "TLS_AUTO"; "TLSv1_0"; "TLSv1_1"; "TLSv1_2"].

Definition tlsMinVersionAnnotationKey : string := "api-gateway.consul.hashicorp.com/tls_min_version".
Definition tlsMaxVersionAnnotationKey : string := "api-gateway.consul.hashicorp.com/tls_max_version".
Definition tlsCipherSuitesAnnotationKey : string :=
  "api-gateway.consul.hashicorp.com/tls_cipher_suites".

(** ** Updates of one error of a listener status *)

Definition set_Conflicted_Protocol (e : error) (l : ListenerState) : ListenerState :=
  let s := lst_Status l in
  lst_set_Status (mkListenerStatus
    (mkListenerConflictedStatus (ListenerConflicted_HostnameConflict (ls_Conflicted s)) (Some e)
       (ListenerConflicted_RouteConflict (ls_Conflicted s)))
    (ls_Detached s) (ls_Ready s) (ls_ResolvedRefs s)) l.

Definition set_Conflicted_Hostname (e : error) (l : ListenerState) : ListenerState :=
  let s := lst_Status l in
  lst_set_Status (mkListenerStatus
    (mkListenerConflictedStatus (Some e) (ListenerConflicted_ProtocolConflict (ls_Conflicted s))
       (ListenerConflicted_RouteConflict (ls_Conflicted s)))
    (ls_Detached s) (ls_Ready s) (ls_ResolvedRefs s)) l.

Definition set_Detached (d : ListenerDetachedStatus) (l : ListenerState) : ListenerState :=
  let s := lst_Status l in
  lst_set_Status (mkListenerStatus (ls_Conflicted s) d (ls_Ready s) (ls_ResolvedRefs s)) l.

Definition set_Detached_UnsupportedAddress (e : error) (l : ListenerState) : ListenerState :=
  let d := ls_Detached (lst_Status l) in
  set_Detached (mkListenerDetachedStatus (ListenerDetached_PortUnavailable d)
    (ListenerDetached_UnsupportedExtension d) (ListenerDetached_UnsupportedProtocol d) (Some e)) l.

Definition set_Detached_UnsupportedProtocol (e : error) (l : ListenerState) : ListenerState :=
  let d := ls_Detached (lst_Status l) in
  set_Detached (mkListenerDetachedStatus (ListenerDetached_PortUnavailable d)
    (ListenerDetached_UnsupportedExtension d) (Some e) (ListenerDetached_UnsupportedAddress d)) l.

Definition set_Ready_Invalid (e : error) (l : ListenerState) : ListenerState :=
  let s := lst_Status l in
  lst_set_Status (mkListenerStatus (ls_Conflicted s) (ls_Detached s)
    (mkListenerReadyStatus (Some e) (ListenerReady_Pending (ls_Ready s)))
    (ls_ResolvedRefs s)) l.

Definition set_ResolvedRefs (r : ListenerResolvedRefsStatus) (l : ListenerState) : ListenerState :=
  let s := lst_Status l in
  lst_set_Status (mkListenerStatus (ls_Conflicted s) (ls_Detached s) (ls_Ready s) r) l.

Definition set_InvalidCertificateRef (e : error) (l : ListenerState) : ListenerState :=
  let r := ls_ResolvedRefs (lst_Status l) in
  set_ResolvedRefs (mkListenerResolvedRefsStatus (Some e)
    (ListenerResolvedRefs_InvalidRouteKinds r) (ListenerResolvedRefs_RefNotPermitted r)) l.

Definition set_InvalidRouteKinds (e : error) (l : ListenerState) : ListenerState :=
  let r := ls_ResolvedRefs (lst_Status l) in
  set_ResolvedRefs (mkListenerResolvedRefsStatus (ListenerResolvedRefs_InvalidCertificateRef r)
    (Some e) (ListenerResolvedRefs_RefNotPermitted r)) l.

Definition set_RefNotPermitted (e : error) (l : ListenerState) : ListenerState :=
  let r := ls_ResolvedRefs (lst_Status l) in
  set_ResolvedRefs (mkListenerResolvedRefsStatus (ListenerResolvedRefs_InvalidCertificateRef r)
    (ListenerResolvedRefs_InvalidRouteKinds r) (Some e)) l.

(** ** Updates of the gateway state *)

Definition gst_set_PodReady (b : bool) (g : GatewayState) : GatewayState :=
  mkGatewayState (gst_ConsulNamespace g) (gst_Status g) b (gst_ServiceReady g)
    (gst_Generation g) (gst_Addresses g) (gst_Listeners g).
Definition gst_set_ServiceReady (b : bool) (g : GatewayState) : GatewayState :=
  mkGatewayState (gst_ConsulNamespace g) (gst_Status g) (gst_PodReady g) b
    (gst_Generation g) (gst_Addresses g) (gst_Listeners g).
Definition gst_set_Addresses (a : list string) (g : GatewayState) : GatewayState :=
  mkGatewayState (gst_ConsulNamespace g) (gst_Status g) (gst_PodReady g) (gst_ServiceReady g)
    (gst_Generation g) a (gst_Listeners g).

Definition gst_set_Scheduled (sch : GatewayScheduledStatus) (g : GatewayState) : GatewayState :=
  gst_set_Status (mkGatewayStatus (gs_Ready (gst_Status g)) sch (gs_InSync (gst_Status g))) g.
Definition gst_set_Ready (r : GatewayReadyStatus) (g : GatewayState) : GatewayState :=
  gst_set_Status (mkGatewayStatus r (gs_Scheduled (gst_Status g)) (gs_InSync (gst_Status g))) g.

Definition set_NotReconciled (e : string) (g : GatewayState) : GatewayState :=
  let s := gs_Scheduled (gst_Status g) in
  gst_set_Scheduled (mkGatewayScheduledStatus (Some (ErrString e)) (GatewayScheduled_PodFailed s)
    (GatewayScheduled_Unknown s) (GatewayScheduled_NoResources s)) g.
Definition set_PodFailed (e : string) (g : GatewayState) : GatewayState :=
  let s := gs_Scheduled (gst_Status g) in
  gst_set_Scheduled (mkGatewayScheduledStatus (GatewayScheduled_NotReconciled s)
    (Some (ErrString e)) (GatewayScheduled_Unknown s) (GatewayScheduled_NoResources s)) g.
Definition set_PodUnknown (e : string) (g : GatewayState) : GatewayState :=
  let s := gs_Scheduled (gst_Status g) in
  gst_set_Scheduled (mkGatewayScheduledStatus (GatewayScheduled_NotReconciled s)
    (GatewayScheduled_PodFailed s) (Some (ErrString e)) (GatewayScheduled_NoResources s)) g.
Definition set_NoResources (e : string) (g : GatewayState) : GatewayState :=
  let s := gs_Scheduled (gst_Status g) in
  gst_set_Scheduled (mkGatewayScheduledStatus (GatewayScheduled_NotReconciled s)
    (GatewayScheduled_PodFailed s) (GatewayScheduled_Unknown s) (Some (ErrString e))) g.

(** ** Operations ([gateway.go]) *)

Record mergedListener : Type := mkMergedListener {
  ml_port : Z;
  ml_listeners : list nat;
  ml_protocols : gmap string unit;
  ml_hostnames : gmap string unit
}.

Definition merge_listener (mergedListeners : gmap Z mergedListener) (i : nat)
    (listener : Listener) : gmap Z mergedListener :=
  let merged := default (mkMergedListener (l_Port listener) [] ∅ ∅)
                  (mergedListeners !! l_Port listener) in
  <[l_Port listener := mkMergedListener (ml_port merged) (ml_listeners merged ++ [i])
      (<[l_Protocol listener := tt]> (ml_protocols merged))
      (match l_Hostname listener with
       | Some h => <[h := tt]> (ml_hostnames merged)
       | None => ml_hostnames merged
       end)]> mergedListeners.

Definition mergeListenersByPort (g : Gateway) : gmap Z mergedListener :=
  foldl (λ acc il, merge_listener acc il.1 il.2) ∅ (imap pair (gw_Listeners g)).

Section validator.
Context {MR : MapRange} {U : NetURL} (client : Client).
(** The text [%v] prints for a slice of kinds, pointers included. *)
Context (format_kinds : list RouteGroupKind → string).

Definition setToCSV (set : gmap string unit) : string := strings_Join (range set).*1 ", ".

(** The conflicts of one port. *)
Definition validate_port (ls : list ListenerState) (merged : mergedListener) :
    list ListenerState :=
  let ls := if bool_decide (1 < size (ml_protocols merged)) then
      let conflict := ErrString ("listeners have conflicting protocols for port: "
                                 +:+ setToCSV (ml_protocols merged)) in
      foldl (λ ls index, alter (set_Conflicted_Protocol conflict) index ls) ls
        (ml_listeners merged)
    else ls in
  if bool_decide (1 < size (ml_hostnames merged)) then
    let conflict := ErrString ("listeners have conflicting hostnames for port: "
                               +:+ setToCSV (ml_protocols merged)) in
    foldl (λ ls index, alter (set_Conflicted_Hostname conflict) index ls) ls
      (ml_listeners merged)
  else ls.

Definition validateListenerConflicts (st : GatewayState) (gateway : Gateway) : GatewayState :=
  gst_set_Listeners
    (foldl (λ ls kv, validate_port ls kv.2) (gst_Listeners st)
       (range (mergeListenersByPort gateway))) st.

Definition validatePodStatusPending (st : GatewayState) (pod : Pod) : GatewayState :=
  match List.find (λ c, bool_decide (pc_Type c = "PodScheduled")
                        && bool_decide (pc_Status c = ConditionFalse)
                        && strings_Contains (pc_Reason c) "Unschedulable") (pod_Conditions pod)
  with
  | Some c => set_NoResources (pc_Message c) st
  | None => set_NotReconciled "pod conditions not found" st
  end.

Definition validatePodStatusRunning (st : GatewayState) (pod : Pod) : GatewayState :=
  if existsb (λ c, bool_decide (pc_Type c = "Ready")
                   && bool_decide (pc_Status c = ConditionTrue)) (pod_Conditions pod)
  then gst_set_PodReady true st else st.

(** The caller always passes the address of a pod: the nil case is dead. *)
Definition validatePodConditions (st : GatewayState) (pod : Pod) : GatewayState :=
  if decide (pod_Phase pod = "Pending") then validatePodStatusPending st pod
  else if decide (pod_Phase pod = "Running") then validatePodStatusRunning st pod
  else if decide (pod_Phase pod = "Succeeded" ∨ pod_Phase pod = "Failed") then
    set_PodFailed "pod not running" st
  else set_PodUnknown "pod status unknown" st.

Definition validatePods (st : GatewayState) (gateway : Gateway) : result GatewayState :=
  pods ← cl_PodsWithLabels client (LabelsForGateway gateway);
  Ok (foldl validatePodConditions st pods).

Definition add_address (address : string) (st : GatewayState) : GatewayState :=
  gst_set_Addresses (gst_Addresses st ++ [address]) (gst_set_ServiceReady true st).

Definition assignGatewayIPFromServiceIngress (st : GatewayState) (service : Service) :
    result GatewayState :=
  updated ← cl_GetService client
    (mkNamespacedName (om_Namespace (svc_Meta service)) (om_Name (svc_Meta service)));
  match updated with
  | None => Ok (set_NotReconciled "service not found" st)
  | Some updated =>
      Ok (foldl (λ st ingress,
            let st := if decide (lbi_IP ingress = "") then st
                      else add_address (lbi_IP ingress) st in
            if decide (lbi_Hostname ingress = "") then st
            else add_address (lbi_Hostname ingress) st) st (svc_Ingress updated))
  end.

Definition assignGatewayIPFromService (st : GatewayState) (service : Service) :
    result GatewayState :=
  updated ← cl_GetService client
    (mkNamespacedName (om_Namespace (svc_Meta service)) (om_Name (svc_Meta service)));
  match updated with
  | None => Ok (set_NotReconciled "service not found" st)
  | Some updated =>
      if decide (svc_ClusterIP updated = "") then Ok st
      else Ok (add_address (svc_ClusterIP updated) st)
  end.

(** The loops of [assignGatewayIPFromPods] and [assignGatewayIPFromPodHost]. *)
Definition assign_pod_addresses (ip : Pod → string) (st : GatewayState) (pods : list Pod) :
    GatewayState :=
  foldl (λ st pod,
    if decide (ip pod = "") then st
    else
      let st := gst_set_ServiceReady true st in
      if slices_Contains (gst_Addresses st) (ip pod) then st
      else gst_set_Addresses (gst_Addresses st ++ [ip pod]) st) st pods.

Definition assignGatewayIPFromPods (st : GatewayState) (gateway : Gateway) :
    result GatewayState :=
  pods ← cl_PodsWithLabels client (LabelsForGateway gateway);
  if bool_decide (length pods = 0) then Ok (set_NotReconciled "pods not found" st)
  else Ok (assign_pod_addresses pod_PodIP st pods).

Definition assignGatewayIPFromPodHost (st : GatewayState) (gateway : Gateway) :
    result GatewayState :=
  pods ← cl_PodsWithLabels client (LabelsForGateway gateway);
  if bool_decide (length pods = 0) then Ok (set_NotReconciled "pods not found" st)
  else Ok (assign_pod_addresses pod_HostIP st pods).

Definition validateGatewayIP (st : GatewayState) (gateway : Gateway) (service : option Service) :
    result GatewayState :=
  match service with
  | None => assignGatewayIPFromPods st gateway
  | Some service =>
      if decide (svc_Type service = "LoadBalancer") then
        assignGatewayIPFromServiceIngress st service
      else if decide (svc_Type service = "ClusterIP") then assignGatewayIPFromService st service
      else if decide (svc_Type service = "NodePort") then assignGatewayIPFromPodHost st gateway
      else Err (ErrString ("unsupported service type: " +:+ svc_Type service))
  end.

Definition validateUnsupported (l : ListenerState) (gateway : Gateway) : ListenerState :=
  if bool_decide (0 < length (gw_Addresses gateway)) then
    set_Detached_UnsupportedAddress (ErrString "specified addresses are not supported") l
  else l.

Definition isKindInSet (value : RouteGroupKind) (set : list RouteGroupKind) : bool :=
  existsb (λ kind,
    match rgk_Group value, rgk_Group kind with
    | None, None => true
    | Some a, Some b => bool_decide (a = b)
    | _, _ => false
    end && bool_decide (rgk_Kind value = rgk_Kind kind)) set.

Definition kindsNotInSet (set parent : list RouteGroupKind) : list RouteGroupKind :=
  List.filter (λ kind, negb (isKindInSet kind parent)) set.

Definition validateProtocols (l : ListenerState) (listener : Listener) : ListenerState :=
  let supportedKinds := default [] (SupportedKindsFor (l_Protocol listener)) in
  let l := if bool_decide (length supportedKinds = 0) then
      set_Detached_UnsupportedProtocol
        (ErrString ("unsupported protocol: " +:+ l_Protocol listener)) l
    else l in
  match l_AllowedRoutes listener with
  | None => l
  | Some allowed =>
      let remainderKinds := kindsNotInSet (ar_Kinds allowed) supportedKinds in
      if bool_decide (length remainderKinds ≠ 0) then
        set_InvalidRouteKinds
          (ErrString ("listener has unsupported kinds: " +:+ format_kinds remainderKinds)) l
      else l
  end.

Definition gatewayAllowedForSecretRef (gateway : Gateway) (secretRef : SecretObjectReference) :
    result bool :=
  referenceAllowed client (gw_GroupKind gateway) (om_Namespace (gw_Meta gateway))
    (mkGroupKind (default "" (sor_Group secretRef)) (default "Secret" (sor_Kind secretRef)))
    (default "" (sor_Namespace secretRef)) (sor_Name secretRef).

Definition resolveCertificateReference (gateway : Gateway) (ref : SecretObjectReference) :
    result string :=
  let group := default "" (sor_Group ref) in
  let kind := default "Secret" (sor_Kind ref) in
  let namespace := default (om_Namespace (gw_Meta gateway)) (sor_Namespace ref) in
  if bool_decide (kind = "Secret") && bool_decide (group = "") then
    match cl_GetSecret client (mkNamespacedName namespace (sor_Name ref)) with
    | Err e => Err (ErrWrap "error fetching secret: " e)
    | Ok None =>
        Err (ErrCertificateResolution (NewCertificateResolutionErrorNotFound
          "certificate not found"))
    | Ok (Some _) => Ok (K8sSecret_String (NewK8sSecret namespace (sor_Name ref)))
    end
  else
    Err (ErrCertificateResolution (NewCertificateResolutionErrorUnsupported
      ("unsupported certificate type - group: " +:+ group +:+ ", kind: " +:+ kind))).

Definition set_MinVersion (v : string) (t : TLSParams) : TLSParams :=
  mkTLSParams (tls_Enabled t) v (tls_MaxVersion t) (tls_CipherSuites t) (tls_Certificates t).
Definition set_MaxVersion (v : string) (t : TLSParams) : TLSParams :=
  mkTLSParams (tls_Enabled t) (tls_MinVersion t) v (tls_CipherSuites t) (tls_Certificates t).
Definition set_CipherSuites (cs : list string) (t : TLSParams) : TLSParams :=
  mkTLSParams (tls_Enabled t) (tls_MinVersion t) (tls_MaxVersion t) cs (tls_Certificates t).
Definition set_Certificates (cs : list string) (t : TLSParams) : TLSParams :=
  mkTLSParams (tls_Enabled t) (tls_MinVersion t) (tls_MaxVersion t) (tls_CipherSuites t) cs.

(** The three option steps; [inl] is an early return with the listener marked
    invalid. *)
Definition tls_min_version (minVersion cipherSuites : string) (l : ListenerState) :
    ListenerState + ListenerState :=
  if decide (minVersion = "") then inr l
  else if negb (slices_Contains SupportedTLSVersions minVersion) then
    inl (set_Ready_Invalid (ErrString "unrecognized TLS min version") l)
  else if bool_decide (cipherSuites ≠ "") &&
          negb (slices_Contains TLSVersionsWithConfigurableCipherSuites minVersion) then
    inl (set_Ready_Invalid (ErrString
      "configuring TLS cipher suites is only supported for TLS 1.2 and earlier") l)
  else inr (lst_set_TLS (set_MinVersion minVersion (lst_TLS l)) l).

Definition tls_max_version (maxVersion : string) (l : ListenerState) :
    ListenerState + ListenerState :=
  if decide (maxVersion = "") then inr l
  else if negb (slices_Contains SupportedTLSVersions maxVersion) then
    inl (set_Ready_Invalid (ErrString "unrecognized TLS max version") l)
  else inr (lst_set_TLS (set_MaxVersion maxVersion (lst_TLS l)) l).

Definition tls_cipher_suites (cipherSuites : string) (l : ListenerState) : ListenerState :=
  if decide (cipherSuites = "") then l
  else
    let suites := strings_TrimSpace <$> strings_Split "," cipherSuites in
    match List.find (λ c, negb (SupportedTLSCipherSuite c)) suites with
    | Some c => set_Ready_Invalid
        (ErrString ("unrecognized or unsupported TLS cipher suite: " +:+ c)) l
    | None => lst_set_TLS (set_CipherSuites suites (lst_TLS l)) l
    end.

Definition validate_tls_options (options : gmap string string) (l : ListenerState) :
    ListenerState :=
  let tlsMinVersion := map_get options tlsMinVersionAnnotationKey in
  let tlsMaxVersion := map_get options tlsMaxVersionAnnotationKey in
  let tlsCipherSuitesStr := map_get options tlsCipherSuitesAnnotationKey in
  match tls_min_version tlsMinVersion tlsCipherSuitesStr l with
  | inl l => l
  | inr l =>
      match tls_max_version tlsMaxVersion l with
      | inl l => l
      | inr l => tls_cipher_suites tlsCipherSuitesStr l
      end
  end.

Definition validateTLS (l : ListenerState) (gateway : Gateway) (listener : Listener) :
    result ListenerState :=
  match l_TLS listener with
  | None =>
      if (ProtocolToConsul (l_Protocol listener)).2 then
        Ok (set_Ready_Invalid (ErrString "tls configuration required for the given protocol") l)
      else Ok l
  | Some tls =>
      if bool_decide (gtls_Mode tls = Some TLSModePassthrough) then
        Ok (set_Ready_Invalid (ErrString "tls passthrough not supported") l)
      else
        match gtls_CertificateRefs tls with
        | [] => Ok (set_InvalidCertificateRef (ErrString "certificate reference must be set") l)
        | ref :: _ =>
            allowed ← gatewayAllowedForSecretRef gateway ref;
            if negb allowed then
              let nsName := getNamespacedName (sor_Name ref) (sor_Namespace ref)
                              (om_Namespace (gw_Meta gateway)) in
              Ok (set_RefNotPermitted (ErrCertificateResolution
                (NewCertificateResolutionErrorNotPermitted
                  ("Cross-namespace listener certificate not allowed without matching ReferenceGrant for Secret "
                   +:+ strconv_Quote (NamespacedName_String nsName)))) l)
            else
              match resolveCertificateReference gateway ref with
              | Err e =>
                  match As_CertificateResolutionError e with
                  | None => Err e
                  | Some ce => Ok (set_InvalidCertificateRef (ErrCertificateResolution ce) l)
                  end
              | Ok resource =>
                  Ok (validate_tls_options (gtls_Options tls)
                    (lst_set_TLS (set_Certificates [resource] (lst_TLS l)) l))
              end
        end
  end.

(** One iteration of the loop of [validateListeners]. *)
Definition validate_listener (l : ListenerState) (gateway : Gateway) (listener : Listener) :
    result ListenerState :=
  l ← validateTLS (validateProtocols (validateUnsupported l gateway) listener) gateway listener;
  Ok (if bool_decide (ListenerReady_Invalid (ls_Ready (lst_Status l)) = None)
         && negb (ListenerStatus_Valid (lst_Status l))
      then set_Ready_Invalid (ErrString "listener is in an invalid state") l
      else l).

Definition validateListeners (st : GatewayState) (gateway : Gateway) : result GatewayState :=
  ls ← mapM_result (λ p : ListenerState * Listener, validate_listener p.1 gateway p.2)
         (zip (gst_Listeners st) (gw_Listeners gateway));
  let listenersReady := forallb (λ l,
    bool_decide (ListenerReady_Pending (ls_Ready (lst_Status l)) = None)) ls in
  let listenersInvalid := existsb (λ l,
    negb (bool_decide (ListenerReady_Invalid (ls_Ready (lst_Status l)) = None))) ls in
  let st := gst_set_Listeners ls st in
  let r := gs_Ready (gst_Status st) in
  Ok (if listenersInvalid then
        gst_set_Ready (mkGatewayReadyStatus (Some (ErrString "gateway listeners not valid"))
          (GatewayReady_ListenersNotReady r) (GatewayReady_AddressNotAssigned r)) st
      else if negb (gst_PodReady st) || negb (gst_ServiceReady st) || negb listenersReady then
        gst_set_Ready (mkGatewayReadyStatus (GatewayReady_ListenersNotValid r)
          (Some (ErrString "gateway listeners not ready")) (GatewayReady_AddressNotAssigned r)) st
      else st).

Definition GatewayValidator_Validate (gateway : Gateway) (service : option Service) :
    result GatewayState :=
  let st := validateListenerConflicts (InitialGatewayState gateway) gateway in
  st ← validatePods st gateway;
  st ← validateGatewayIP st gateway service;
  let st :=
    if bool_decide (length (gw_Addresses gateway) ≠ 0) then
      let r := gs_Ready (gst_Status st) in
      gst_set_Ready (mkGatewayReadyStatus (GatewayReady_ListenersNotValid r)
        (GatewayReady_ListenersNotReady r)
        (Some (ErrString "gateway does not support requesting addresses"))) st
    else st in
  validateListeners st gateway.

(** ** TLS *)

(** Parameters the data plane can be configured with. *)
Definition tls_supported (t : TLSParams) : Prop :=
  (tls_MinVersion t = "" ∨ tls_MinVersion t ∈ SupportedTLSVersions) ∧
  (tls_MaxVersion t = "" ∨ tls_MaxVersion t ∈ SupportedTLSVersions) ∧
  (∀ c, c ∈ tls_CipherSuites t → SupportedTLSCipherSuite c = true) ∧
  (tls_CipherSuites t ≠ [] → tls_MinVersion t ∈ TLSVersionsWithConfigurableCipherSuites).

Lemma tls_cipher_suites_supported cs l :
  tls_supported (lst_TLS l) → tls_CipherSuites (lst_TLS l) = [] →
  (cs ≠ "" → tls_MinVersion (lst_TLS l) ∈ TLSVersionsWithConfigurableCipherSuites) →
  tls_supported (lst_TLS (tls_cipher_suites cs l)).
Proof.
  intros Hs Hnil Hcfg. unfold tls_cipher_suites.
  destruct (decide (cs = "")) as [|Hcs]; [done|].
  destruct (List.find _ _) as [c|] eqn:Hf; [done|]. simpl.
  destruct Hs as (Hmin & Hmax & _ & _). split; [done|]. split; [done|].
  split; [|intros _; by apply Hcfg]. simpl. intros c Hc.
  apply list_elem_of_In in Hc. pose proof (List.find_none _ _ Hf _ Hc) as Hn.
  by apply negb_false_iff in Hn.
Qed.

(** After the two version steps: the minimum is unset or supported, and lets
    cipher suites be configured if some are given. *)
Lemma tls_versions_supported minv maxv cs l l1 :
  tls_MinVersion (lst_TLS l) = "" → tls_MaxVersion (lst_TLS l) = "" →
  tls_CipherSuites (lst_TLS l) = [] → tls_min_version minv cs l = inr l1 →
  tls_supported (lst_TLS l1) ∧ tls_CipherSuites (lst_TLS l1) = [] ∧
  (cs ≠ "" → tls_MinVersion (lst_TLS l1) ∈ TLSVersionsWithConfigurableCipherSuites) ∧
  match tls_max_version maxv l1 with
  | inl l2 => lst_TLS l2 = lst_TLS l1
  | inr l2 => tls_supported (lst_TLS l2) ∧ tls_CipherSuites (lst_TLS l2) = [] ∧
      tls_MinVersion (lst_TLS l2) = tls_MinVersion (lst_TLS l1)
  end.
Proof.
  intros Hmin Hmax Hcs. unfold tls_min_version. intros Hstep.
  assert (tls_supported (lst_TLS l1) ∧ tls_CipherSuites (lst_TLS l1) = [] ∧
    (cs ≠ "" → tls_MinVersion (lst_TLS l1) ∈ TLSVersionsWithConfigurableCipherSuites)) as Hl1.
  { destruct (decide (minv = "")) as [|Hne].
    - injection Hstep as <-. unfold tls_supported. rewrite Hmin, Hmax, Hcs.
      split_and!; [by left|by left|by intros c []%not_elem_of_nil|done|done|].
      intros _. left.
    - destruct (slices_Contains SupportedTLSVersions minv) eqn:Hsup; [|done].
      simpl in Hstep. apply bool_decide_eq_true in Hsup.
      destruct (bool_decide (cs ≠ "") && _) eqn:Hb; [done|]. injection Hstep as <-.
      unfold tls_supported. simpl. rewrite Hmax, Hcs.
      split_and!; [by right|by left|by intros c []%not_elem_of_nil|done|done|].
      intros Hne'. rewrite (bool_decide_true (cs ≠ "")) in Hb by done.
      apply negb_false_iff, bool_decide_eq_true in Hb. done. }
  destruct Hl1 as (Hs & Hnil & Hcfg). split; [done|]. split; [done|]. split; [done|].
  unfold tls_max_version. destruct (decide (maxv = "")); [done|].
  destruct (slices_Contains SupportedTLSVersions maxv) eqn:Hsup; [|done]. simpl.
  apply bool_decide_eq_true in Hsup. destruct Hs as (? & ? & ? & ?).
  split; [|done]. split; [done|]. split; [by right|]. done.
Qed.

Lemma validate_tls_options_supported options l :
  tls_MinVersion (lst_TLS l) = "" → tls_MaxVersion (lst_TLS l) = "" →
  tls_CipherSuites (lst_TLS l) = [] →
  tls_supported (lst_TLS (validate_tls_options options l)).
Proof.
  intros Hmin Hmax Hcs. unfold validate_tls_options.
  destruct (tls_min_version _ _ l) as [l1|l1] eqn:Hstep.
  - assert (lst_TLS l1 = lst_TLS l) as ->.
    { unfold tls_min_version in Hstep. repeat case_match; by simplify_eq. }
    unfold tls_supported. rewrite Hmin, Hmax, Hcs.
    split_and!; [by left|by left|by intros c []%not_elem_of_nil|done].
  - destruct (tls_versions_supported _ (map_get options tlsMaxVersionAnnotationKey) _ l l1
      Hmin Hmax Hcs Hstep) as (Hs & Hnil & Hcfg & Hmaxv).
    destruct (tls_max_version _ l1) as [l2|l2]; [by rewrite Hmaxv|].
    destruct Hmaxv as (Hs2 & Hnil2 & Hmin2).
    apply tls_cipher_suites_supported; [done|done|]. by rewrite Hmin2.
Qed.

Lemma validate_tls_options_certificates options l :
  tls_Certificates (lst_TLS (validate_tls_options options l)) = tls_Certificates (lst_TLS l).
Proof.
  unfold validate_tls_options, tls_min_version, tls_max_version, tls_cipher_suites.
  repeat case_match; simplify_eq; done.
Qed.

(** C10: a listener only ever serves with TLS it was granted and the data plane
    supports.  Whatever [validateTLS] accepts, protocol versions and cipher
    suites of the resulting parameters are supported ones (and cipher suites
    are configured only with a minimum version that allows it); and when the
    listener comes out without an error, a protocol that needs TLS has it
    configured, and the certificate served is the first one referenced: a
    secret that exists and that lies in the gateway's namespace or is covered
    by a ReferenceGrant. *)
Theorem validated_tls (l l' : ListenerState) (gateway : Gateway) (listener : Listener) :
  lst_TLS l = zeroTLSParams → validateTLS l gateway listener = Ok l' →
  tls_supported (lst_TLS l') ∧
  (ListenerReady_Invalid (ls_Ready (lst_Status l')) = None →
   ListenerResolvedRefs_InvalidCertificateRef (ls_ResolvedRefs (lst_Status l')) = None →
   ListenerResolvedRefs_RefNotPermitted (ls_ResolvedRefs (lst_Status l')) = None →
   ((ProtocolToConsul (l_Protocol listener)).2 = true → is_Some (l_TLS listener)) ∧
   ∀ tls, l_TLS listener = Some tls →
     ∃ ref rest secret, gtls_CertificateRefs tls = ref :: rest ∧
       let key := getNamespacedName (sor_Name ref) (sor_Namespace ref)
                    (om_Namespace (gw_Meta gateway)) in
       reference_permitted client (gw_GroupKind gateway) (om_Namespace (gw_Meta gateway))
         (mkGroupKind (default "" (sor_Group ref)) (default "Secret" (sor_Kind ref)))
         (default "" (sor_Namespace ref)) (sor_Name ref) ∧
       cl_GetSecret client key = Ok (Some secret) ∧
       tls_Certificates (lst_TLS l')
       = [K8sSecret_String (NewK8sSecret (nn_Namespace key) (nn_Name key))]).
Proof.
  intros Hz. unfold validateTLS.
  assert (∀ l0, lst_TLS l0 = zeroTLSParams → tls_supported (lst_TLS l0)) as Hzero.
  { intros l0 ->. split_and!; [by left|by left|by intros c []%not_elem_of_nil|done]. }
  destruct (l_TLS listener) as [tls|].
  2: { destruct (ProtocolToConsul _).2; intros [= <-]; (split; [by apply Hzero|]); done. }
  case_bool_decide; [intros [= <-]; split; [by apply Hzero|done]|].
  destruct (gtls_CertificateRefs tls) as [|ref rest] eqn:Hrefs;
    [intros [= <-]; split; [by apply Hzero|done]|].
  destruct (gatewayAllowedForSecretRef gateway ref) as [[]|e] eqn:Hallowed; simpl; [| |done].
  2: { intros [= <-]. split; [by apply Hzero|done]. }
  destruct (resolveCertificateReference gateway ref) as [resource|e] eqn:Hres.
  2: { destruct (As_CertificateResolutionError e); [|done].
       intros [= <-]. split; [by apply Hzero|done]. }
  intros [= <-]. split; [apply validate_tls_options_supported; simpl; by rewrite Hz|].
  intros _ _ _. split; [eauto|]. intros tls' [= <-].
  unfold resolveCertificateReference in Hres.
  destruct (bool_decide (default "Secret" _ = "Secret") && _); [|done].
  destruct (cl_GetSecret client _) as [[secret|]|e] eqn:Hsec; [|done|done].
  injection Hres as <-. exists ref, rest, secret.
  apply referenceAllowed_permitted in Hallowed.
  rewrite validate_tls_options_certificates. unfold getNamespacedName.
  destruct (sor_Namespace ref); by split_and!.
Qed.

(** ** Readiness and addresses *)

(** What the pod and address steps leave alone. *)
Definition same_frame (st st' : GatewayState) : Prop :=
  gs_Ready (gst_Status st') = gs_Ready (gst_Status st) ∧
  gst_Listeners st' = gst_Listeners st.

(** Addresses and service readiness go together. *)
Definition addressed (st : GatewayState) : Prop :=
  gst_ServiceReady st = true ↔ gst_Addresses st ≠ [].

(** The pod runs and reports ready. *)
Definition pod_ready (pod : Pod) : Prop :=
  pod_Phase pod = "Running" ∧
  ∃ c, c ∈ pod_Conditions pod ∧ pc_Type c = "Ready" ∧ pc_Status c = ConditionTrue.

Lemma validatePodConditions_spec st pod :
  let st' := validatePodConditions st pod in
  same_frame st st' ∧ gst_Addresses st' = gst_Addresses st ∧
  gst_ServiceReady st' = gst_ServiceReady st ∧
  (gst_PodReady st' = true ↔ gst_PodReady st = true ∨ pod_ready pod).
Proof.
  unfold validatePodConditions, pod_ready.
  destruct (decide (pod_Phase pod = "Pending")) as [->|H1].
  { unfold validatePodStatusPending.
    destruct (List.find _ _); (split; [done|]; split; [done|]; split; [done|]);
      (split; [by left|]); intros [?|[? _]]; done. }
  destruct (decide (pod_Phase pod = "Running")) as [H2|H2].
  { unfold validatePodStatusRunning. destruct (existsb _ _) eqn:He.
    - split; [done|]. split; [done|]. split; [done|]. split; [intros _|done].
      right. split; [done|]. apply existsb_elem in He as (c & Hc & Hb).
      apply andb_true_iff in Hb as [?%bool_decide_eq_true ?%bool_decide_eq_true]. eauto.
    - split; [done|]. split; [done|]. split; [done|]. split; [by left|].
      intros [?|(_ & c & Hc & Ht & Hs)]; [done|].
      assert (existsb (λ c, bool_decide (pc_Type c = "Ready")
        && bool_decide (pc_Status c = ConditionTrue)) (pod_Conditions pod) = true) as He';
        [|congruence].
      apply existsb_elem. exists c. by rewrite Ht, Hs, !bool_decide_true. }
  destruct (decide (_ ∨ _)); (split; [done|]; split; [done|]; split; [done|]);
    (split; [by left|]); intros [?|[? _]]; done.
Qed.

Lemma validatePods_spec st pods :
  let st' := foldl validatePodConditions st pods in
  same_frame st st' ∧ gst_Addresses st' = gst_Addresses st ∧
  gst_ServiceReady st' = gst_ServiceReady st ∧
  (gst_PodReady st' = true ↔ gst_PodReady st = true ∨ ∃ pod, pod ∈ pods ∧ pod_ready pod).
Proof.
  revert st. induction pods as [|pod pods IH]; intros st; simpl.
  { split; [done|]. split; [done|]. split; [done|]. split; [by left|].
    intros [?|(pod & []%not_elem_of_nil & _)]; done. }
  destruct (validatePodConditions_spec st pod) as ([F1 F2] & A & S & P).
  destruct (IH (validatePodConditions st pod)) as ([F1' F2'] & A' & S' & P').
  split; [split; congruence|]. split; [congruence|]. split; [congruence|].
  rewrite P', P. setoid_rewrite elem_of_cons. split.
  - intros [[?|?]|(q & ? & ?)]; [by left|right; exists pod; by split; [left|]|].
    right. exists q. by split; [right|].
  - intros [?|(q & [-> |?] & ?)]; [by left; left|by left; right|]. right. eauto.
Qed.

(** The addresses of the pods, each once. *)
Definition pod_addresses (ip : Pod → string) (pods : list Pod) (addresses : list string) : Prop :=
  NoDup addresses ∧ ∀ a, a ∈ addresses ↔ a ≠ "" ∧ ∃ pod, pod ∈ pods ∧ ip pod = a.

Lemma assign_pod_addresses_spec ip st pods seen :
  addressed st → pod_addresses ip seen (gst_Addresses st) →
  let st' := assign_pod_addresses ip st pods in
  same_frame st st' ∧ gst_PodReady st' = gst_PodReady st ∧ addressed st' ∧
  pod_addresses ip (seen ++ pods) (gst_Addresses st').
Proof.
  unfold assign_pod_addresses. revert st seen.
  induction pods as [|pod pods IH]; intros st seen Ha Hp; simpl.
  { by rewrite app_nil_r. }
  destruct Hp as [Hnd Hin].
  destruct (IH (if decide (ip pod = "") then st
      else let st := gst_set_ServiceReady true st in
        if slices_Contains (gst_Addresses st) (ip pod) then st
        else gst_set_Addresses (gst_Addresses st ++ [ip pod]) st) (seen ++ [pod]))
    as ([F1 F2] & P & Ha' & Hp').
  - destruct (decide (ip pod = "")); [done|]. unfold slices_Contains. simpl.
    case_bool_decide as Hc; unfold addressed; simpl; (split; [intros _|done]).
    + by intros Hn; rewrite Hn in Hc; apply not_elem_of_nil in Hc.
    + by destruct (gst_Addresses st).
  - destruct (decide (ip pod = "")) as [He|He].
    { split; [done|]. intros a. rewrite Hin. split; intros [Hne (q & Hq & Hqa)].
      - split; [done|]. exists q. split; [set_solver|done].
      - split; [done|]. exists q. split; [|done]. apply elem_of_app in Hq as [?|Hq]; [done|].
        apply list_elem_of_singleton in Hq as ->. congruence. }
    unfold slices_Contains. simpl. case_bool_decide as Hc; simpl.
    + split; [done|]. intros a. rewrite Hin. split; intros [Hne (q & Hq & Hqa)].
      * split; [done|]. exists q. split; [set_solver|done].
      * apply elem_of_app in Hq as [?|Hq]; [by eauto|].
        apply list_elem_of_singleton in Hq as ->. subst a. by apply Hin.
    + split.
      { apply NoDup_app. split_and!; [done| |apply NoDup_singleton].
        intros x Hx Hx'. apply list_elem_of_singleton in Hx' as ->. done. }
      intros a.
      rewrite elem_of_app, list_elem_of_singleton, Hin. split.
      * intros [[Hne (q & Hq & Hqa)]| ->]; (split; [done|]).
        -- exists q. split; [set_solver|done].
        -- exists pod. split; [set_solver|done].
      * intros [Hne (q & Hq & Hqa)]. apply elem_of_app in Hq as [?|Hq]; [left; eauto|].
        apply list_elem_of_singleton in Hq as ->. by right.
  - assert (∀ st, same_frame st (if decide (ip pod = "") then st
      else let st := gst_set_ServiceReady true st in
        if slices_Contains (gst_Addresses st) (ip pod) then st
        else gst_set_Addresses (gst_Addresses st ++ [ip pod]) st)) as Hframe.
    { intros st0. destruct (decide _); [done|]. cbv zeta. by destruct (slices_Contains _ _). }
    destruct (Hframe st) as [F1' F2'].
    split; [split; (etrans; [eassumption|eassumption])|]. split.
    { etrans; [exact P|]. destruct (decide _); [done|]. cbv zeta. by destruct (slices_Contains _ _). }
    split; [done|]. by rewrite <- app_assoc in Hp'.
Qed.

Lemma ingress_addresses_spec st ingresses :
  addressed st →
  let st' := foldl (λ st ingress,
    let st := if decide (lbi_IP ingress = "") then st
              else add_address (lbi_IP ingress) st in
    if decide (lbi_Hostname ingress = "") then st
    else add_address (lbi_Hostname ingress) st) st ingresses in
  same_frame st st' ∧ gst_PodReady st' = gst_PodReady st ∧ addressed st'.
Proof.
  assert (∀ a st, addressed (add_address a st)) as Hadd.
  { intros a st0. unfold addressed. simpl. split; [|done]. by destruct (gst_Addresses st0). }
  revert st. induction ingresses as [|ing ingresses IH]; intros st Ha; simpl; [done|].
  match goal with |- context [foldl _ ?x ingresses] => set (st1 := x) end.
  assert (same_frame st st1 ∧ gst_PodReady st1 = gst_PodReady st ∧ addressed st1)
    as ([F1 F2] & P & A).
  { unfold st1. do 2 case_decide; by auto. }
  destruct (IH st1 A) as ([F1' F2'] & P' & A').
  split; [split; (etrans; eassumption)|]. split; [etrans; eassumption|exact A'].
Qed.

Lemma validateGatewayIP_spec st gateway service st' :
  addressed st → gst_Addresses st = [] → validateGatewayIP st gateway service = Ok st' →
  same_frame st st' ∧ gst_PodReady st' = gst_PodReady st ∧ addressed st' ∧
  (∀ pods, cl_PodsWithLabels client (LabelsForGateway gateway) = Ok pods →
     service = None → pod_addresses pod_PodIP pods (gst_Addresses st')).
Proof.
  intros Ha Hnil. unfold validateGatewayIP.
  assert (∀ ip, pod_addresses ip [] (gst_Addresses st)) as Hp0.
  { intros ip. rewrite Hnil. split; [constructor|]. intros a.
    split; [by intros []%not_elem_of_nil|]. by intros (_ & pod & []%not_elem_of_nil & _). }
  destruct service as [svc|].
  - assert (∀ r, r = Ok st' → (∀ x, r = Ok x →
      same_frame st x ∧ gst_PodReady x = gst_PodReady st ∧ addressed x) →
      same_frame st st' ∧ gst_PodReady st' = gst_PodReady st ∧ addressed st' ∧
      (∀ pods, cl_PodsWithLabels client (LabelsForGateway gateway) = Ok pods →
       Some svc = None → pod_addresses pod_PodIP pods (gst_Addresses st'))) as Hwrap.
    { intros r Hr Hx. destruct (Hx st' Hr) as (? & ? & ?). by split_and!. }
    intros Hr. apply (Hwrap _ Hr). clear Hwrap Hr. intros x.
    destruct (decide (svc_Type svc = "LoadBalancer")).
    { unfold assignGatewayIPFromServiceIngress.
      destruct (cl_GetService client _) as [[u|]|err]; simpl; [|by intros [= <-]|done].
      intros [= <-]. by apply ingress_addresses_spec. }
    destruct (decide (svc_Type svc = "ClusterIP")).
    { unfold assignGatewayIPFromService.
      destruct (cl_GetService client _) as [[u|]|err]; simpl; [|by intros [= <-]|done].
      case_decide; intros [= <-]; [done|]. split; [done|]. split; [done|].
      unfold addressed. simpl. split; [|done]. by destruct (gst_Addresses st). }
    destruct (decide (svc_Type svc = "NodePort")); [|done].
    unfold assignGatewayIPFromPodHost.
    destruct (cl_PodsWithLabels client _) as [pods|err]; simpl; [|done].
    case_bool_decide; intros [= <-]; [done|].
    destruct (assign_pod_addresses_spec pod_HostIP st pods [] Ha (Hp0 _)) as (? & ? & ? & _).
    done.
  - unfold assignGatewayIPFromPods.
    destruct (cl_PodsWithLabels client _) as [pods|err]; simpl; [|done].
    case_bool_decide as Hl; intros [= <-].
    + apply nil_length_inv in Hl as ->. split; [done|]. split; [done|]. split; [done|].
      intros pods [= <-] _. apply Hp0.
    + destruct (assign_pod_addresses_spec pod_PodIP st pods [] Ha (Hp0 _)) as (? & ? & ? & ?).
      split; [done|]. split; [done|]. split; [done|]. by intros pods' [= <-] _.
Qed.

Lemma listener_ready_error s :
  ListenerReadyStatus_HasError s = false ↔
  ListenerReady_Invalid s = None ∧ ListenerReady_Pending s = None.
Proof.
  unfold ListenerReadyStatus_HasError, has_error. destruct s as [[]  []]; simpl; split;
    try done; by intros [].
Qed.

Lemma gateway_ready_error s :
  GatewayReadyStatus_HasError s = false ↔
  GatewayReady_ListenersNotValid s = None ∧ GatewayReady_ListenersNotReady s = None ∧
  GatewayReady_AddressNotAssigned s = None.
Proof.
  unfold GatewayReadyStatus_HasError, has_error. destruct s as [[] [] []]; simpl; split;
    try done; by intros (? & ? & ?).
Qed.

Lemma validate_listener_valid l gateway listener l' :
  validate_listener l gateway listener = Ok l' →
  ListenerReady_Invalid (ls_Ready (lst_Status l')) = None →
  ListenerStatus_Valid (lst_Status l') = true.
Proof.
  unfold validate_listener. destruct (validateTLS _ _ _) as [l1|e]; simpl; [|done].
  destruct (bool_decide_reflect (ListenerReady_Invalid (ls_Ready (lst_Status l1)) = None))
    as [Hi|Hi]; simpl.
  - destruct (ListenerStatus_Valid (lst_Status l1)) eqn:Hv; simpl; by intros [= <-].
  - by intros [= <-].
Qed.

Lemma validateListeners_ready st gateway st' :
  GatewayReady_ListenersNotValid (gs_Ready (gst_Status st)) = None →
  GatewayReady_ListenersNotReady (gs_Ready (gst_Status st)) = None →
  validateListeners st gateway = Ok st' →
  gst_PodReady st' = gst_PodReady st ∧ gst_ServiceReady st' = gst_ServiceReady st ∧
  gst_Addresses st' = gst_Addresses st ∧
  (GatewayReadyStatus_HasError (gs_Ready (gst_Status st')) = false ↔
     GatewayReady_AddressNotAssigned (gs_Ready (gst_Status st)) = None ∧
     gst_PodReady st = true ∧ gst_ServiceReady st = true ∧
     ∀ l, l ∈ gst_Listeners st' →
       ListenerReadyStatus_HasError (ls_Ready (lst_Status l)) = false) ∧
  (∀ l, l ∈ gst_Listeners st' →
     ListenerReadyStatus_HasError (ls_Ready (lst_Status l)) = false →
     ListenerStatus_Valid (lst_Status l) = true).
Proof.
  intros Hnv Hnr. unfold validateListeners.
  destruct (mapM_result _ _) as [ls|e] eqn:Hm; simpl; [|done]. intros [= <-].
  assert (∀ l, l ∈ ls → ListenerReadyStatus_HasError (ls_Ready (lst_Status l)) = false →
    ListenerStatus_Valid (lst_Status l) = true) as Hvalid.
  { intros l Hl [Hi _]%listener_ready_error. apply mapM_result_Ok in Hm.
    apply list_elem_of_lookup_1 in Hl as [i Hl].
    destruct (Forall2_lookup_r _ _ _ _ _ Hm Hl) as (p & _ & Hp).
    by eapply validate_listener_valid. }
  assert ((∀ l, l ∈ ls → ListenerReadyStatus_HasError (ls_Ready (lst_Status l)) = false) ↔
    existsb (λ l, negb (bool_decide (ListenerReady_Invalid (ls_Ready (lst_Status l)) = None))) ls
      = false ∧
    forallb (λ l, bool_decide (ListenerReady_Pending (ls_Ready (lst_Status l)) = None)) ls
      = true) as Hall.
  { clear. induction ls as [|l ls IH]; simpl; [by split; [|intros _ l []%not_elem_of_nil]|].
    rewrite orb_false_iff, andb_true_iff, negb_false_iff, !bool_decide_eq_true.
    setoid_rewrite elem_of_cons. split.
    - intros H. destruct (proj1 (listener_ready_error _) (H l (or_introl eq_refl))).
      destruct (proj1 IH) as [? ?]; [intros x Hx; apply H; by right|done].
    - intros [[? ?] [? ?]] x [-> |Hx]; [by apply listener_ready_error|].
      by apply IH. }
  destruct (existsb _ ls) eqn:Hex.
  - split_and!; try done. simpl. rewrite gateway_ready_error. simpl. split.
    + by intros (? & _).
    + intros (_ & _ & _ & Hx). by apply Hall in Hx as [? _].
  - simpl. destruct (forallb _ ls) eqn:Hfa; simpl.
    + assert (∀ l, l ∈ ls → ListenerReadyStatus_HasError (ls_Ready (lst_Status l)) = false)
        as Hok by by apply Hall.
      destruct (gst_PodReady st) eqn:Hpod, (gst_ServiceReady st) eqn:Hsvc; simpl;
        (split; [done|]; split; [done|]; split; [done|]; split; [|done]);
        rewrite gateway_ready_error; simpl; rewrite ?Hnv, ?Hnr; naive_solver.
    + rewrite orb_true_r. split_and!; try done. simpl. rewrite gateway_ready_error. simpl.
      split; [by intros (_ & ? & _)|]. intros (_ & _ & _ & Hx). by apply Hall in Hx as [_ ?].
Qed.

(** C36: the Ready condition of a gateway means what it says.  After a successful
    validation the gateway is Ready exactly when no address was requested, one
    of its pods is running and ready, an address was found for it, and every
    one of its listeners is Ready; and a Ready listener is valid (not
    conflicted, not detached, references resolved).  Without a service the
    addresses are the distinct non-empty IPs of the pods. *)
Theorem gateway_ready_iff (gateway : Gateway) (service : option Service) (st : GatewayState) :
  GatewayValidator_Validate gateway service = Ok st →
  (GatewayReadyStatus_HasError (gs_Ready (gst_Status st)) = false ↔
     gw_Addresses gateway = [] ∧ gst_Addresses st ≠ [] ∧
     (∃ pods pod, cl_PodsWithLabels client (LabelsForGateway gateway) = Ok pods ∧
        pod ∈ pods ∧ pod_ready pod) ∧
     ∀ l, l ∈ gst_Listeners st →
       ListenerReadyStatus_HasError (ls_Ready (lst_Status l)) = false) ∧
  (∀ l, l ∈ gst_Listeners st →
     ListenerReadyStatus_HasError (ls_Ready (lst_Status l)) = false →
     ListenerStatus_Valid (lst_Status l) = true) ∧
  (service = None → ∃ pods, cl_PodsWithLabels client (LabelsForGateway gateway) = Ok pods ∧
     pod_addresses pod_PodIP pods (gst_Addresses st)).
Proof.
  unfold GatewayValidator_Validate. set (st0 := validateListenerConflicts _ _).
  unfold validatePods.
  destruct (cl_PodsWithLabels client (LabelsForGateway gateway)) as [pods|e] eqn:Hpods;
    [|done]. cbn [mbind result_bind].
  destruct (validatePods_spec st0 pods) as ([F1 _] & A1 & S1 & P1).
  set (st1 := foldl validatePodConditions st0 pods) in *.
  destruct (validateGatewayIP st1 gateway service) as [st2|e] eqn:Hip; [|done].
  cbn [mbind result_bind].
  apply validateGatewayIP_spec in Hip as ([F2 _] & P2 & A2 & D2);
    [|unfold addressed; by rewrite A1, S1|by rewrite A1].
  set (st3 := if bool_decide _ then _ else st2). intros Hl.
  assert (gst_PodReady st3 = gst_PodReady st2 ∧ gst_ServiceReady st3 = gst_ServiceReady st2 ∧
    gst_Addresses st3 = gst_Addresses st2 ∧
    GatewayReady_ListenersNotValid (gs_Ready (gst_Status st3)) = None ∧
    GatewayReady_ListenersNotReady (gs_Ready (gst_Status st3)) = None ∧
    (GatewayReady_AddressNotAssigned (gs_Ready (gst_Status st3)) = None ↔
       gw_Addresses gateway = [])) as (P3 & S3 & A3 & N3 & R3 & Ad3).
  { unfold st3. case_bool_decide as Hlen; simpl; rewrite ?F2, ?F1; split_and!; try done.
    - split; [done|]. intros Hn. by rewrite Hn in Hlen.
    - split; [intros _|done]. by apply nil_length_inv. }
  apply validateListeners_ready in Hl as (P4 & S4 & A4 & H4 & V4); [|done..].
  assert (gst_PodReady st0 = false) as P0 by done.
  rewrite H4, Ad3, P3, S3, P2, P1, P0, A4, A3. unfold addressed in A2. rewrite A2.
  split_and!; [|done|].
  - split.
    + intros (? & [?|(pod & ? & ?)] & ? & ?); [done|]. split_and!; eauto.
    + intros (? & ? & (pods' & pod & [= <-] & ? & ?) & ?). split_and!; eauto.
  - intros ->. exists pods. eauto.
Qed.

(** ** Listener conflicts *)

Definition protocol_conflict (l : ListenerState) : Prop :=
  is_Some (ListenerConflicted_ProtocolConflict (ls_Conflicted (lst_Status l))).
Definition hostname_conflict (l : ListenerState) : Prop :=
  is_Some (ListenerConflicted_HostnameConflict (ls_Conflicted (lst_Status l))).

(** The entry of a port describes the listeners on that port. *)
Definition describes (ps : list (nat * Listener)) (p : Z) (m : mergedListener) : Prop :=
  (∀ i, i ∈ ml_listeners m ↔ ∃ l, (i, l) ∈ ps ∧ l_Port l = p) ∧
  (∀ x, is_Some (ml_protocols m !! x) ↔
     ∃ i l, (i, l) ∈ ps ∧ l_Port l = p ∧ l_Protocol l = x) ∧
  (∀ x, is_Some (ml_hostnames m !! x) ↔
     ∃ i l, (i, l) ∈ ps ∧ l_Port l = p ∧ l_Hostname l = Some x).

Lemma is_Some_insert_unit (m : gmap string unit) k x :
  is_Some (<[k := tt]> m !! x) ↔ x = k ∨ is_Some (m !! x).
Proof.
  destruct (decide (x = k)) as [->|Hx].
  - rewrite lookup_insert_eq. split; [by left|eauto].
  - rewrite lookup_insert_ne by done. split; [by right|]. by intros [?|?].
Qed.

Lemma describes_snoc ps p m i l :
  describes ps p m → l_Port l = p →
  describes (ps ++ [(i, l)]) p
    (mkMergedListener (ml_port m) (ml_listeners m ++ [i])
       (<[l_Protocol l := tt]> (ml_protocols m))
       (match l_Hostname l with
        | Some h => <[h := tt]> (ml_hostnames m)
        | None => ml_hostnames m
        end)).
Proof.
  intros (H1 & H2 & H3) Hp. unfold describes. simpl.
  setoid_rewrite elem_of_app. setoid_rewrite list_elem_of_singleton. split_and!.
  - intros j. rewrite H1. split.
    + intros [(l' & ? & ?)| ->]; [exists l'; by split; [left|]|]. exists l. by split; [right|].
    + intros (l' & [?|[= -> ->]] & ?); [left; by exists l'|by right].
  - intros x. rewrite is_Some_insert_unit, H2. split.
    + intros [-> |(j & l' & ? & ? & ?)]; [exists i, l; by split; [right|]|].
      exists j, l'. by split; [left|].
    + intros (j & l' & [?|[= -> ->]] & ? & ?); [right; eauto|by left].
  - intros x. destruct (l_Hostname l) as [h|] eqn:Hh.
    + rewrite is_Some_insert_unit, H3. split.
      * intros [-> |(j & l' & ? & ? & ?)]; [exists i, l; by split; [right|]|].
        exists j, l'. by split; [left|].
      * intros (j & l' & [?|[= -> ->]] & ? & Hx); [right; eauto|]. left. congruence.
    + rewrite H3. split.
      * intros (j & l' & ? & ? & ?). exists j, l'. by split; [left|].
      * intros (j & l' & [?|[= -> ->]] & ? & Hx); [eauto|congruence].
Qed.

Lemma merge_listeners_spec (ps : list (nat * Listener)) p :
  match foldl (λ acc il, merge_listener acc il.1 il.2) ∅ ps !! p with
  | Some m => describes ps p m
  | None => ∀ i l, (i, l) ∈ ps → l_Port l ≠ p
  end.
Proof.
  induction ps as [|[i l] ps IH] using rev_ind.
  { simpl. rewrite lookup_empty. by intros i l []%not_elem_of_nil. }
  rewrite foldl_snoc. unfold merge_listener. simpl.
  destruct (decide (l_Port l = p)) as [Hp|Hp].
  - rewrite Hp, lookup_insert_eq. destruct (foldl _ ∅ ps !! p) as [m|]; simpl.
    + by apply describes_snoc.
    + apply (describes_snoc ps p (mkMergedListener p [] ∅ ∅)); [|done].
      unfold describes. simpl. split_and!.
      * intros j. split; [by intros []%not_elem_of_nil|]. intros (l' & Hin & Hl').
        by apply IH in Hin.
      * intros x. rewrite lookup_empty. split; [by intros []|].
        intros (j & l' & Hin & Hl' & _). by apply IH in Hin.
      * intros x. rewrite lookup_empty. split; [by intros []|].
        intros (j & l' & Hin & Hl' & _). by apply IH in Hin.
  - rewrite lookup_insert_ne by done.
    assert (∀ j l', (j, l') ∈ ps ++ [(i, l)] → l_Port l' = p → (j, l') ∈ ps) as Hold.
    { intros j l' Hin Hl'. apply elem_of_app in Hin as [?|Hin]; [done|].
      apply list_elem_of_singleton in Hin as [= -> ->]. done. }
    destruct (foldl _ ∅ ps !! p) as [m|].
    + destruct IH as (H1 & H2 & H3). split_and!.
      * intros j. rewrite H1. split; intros (l' & Hin & Hl'); exists l'.
        -- split; [apply elem_of_app; by left|done].
        -- split; [by apply Hold|done].
      * intros x. rewrite H2. split; intros (j & l' & Hin & Hl' & ?); exists j, l'.
        -- split; [apply elem_of_app; by left|done].
        -- split; [by apply Hold|done].
      * intros x. rewrite H3. split; intros (j & l' & Hin & Hl' & ?); exists j, l'.
        -- split; [apply elem_of_app; by left|done].
        -- split; [by apply Hold|done].
    + intros j l' Hin Hl'. by apply (IH j l'); [apply Hold|].
Qed.

Lemma validate_port_lookup ls m i l :
  ls !! i = Some l → ∃ l', validate_port ls m !! i = Some l' ∧
    (protocol_conflict l' ↔ protocol_conflict l ∨
       (i ∈ ml_listeners m ∧ 1 < size (ml_protocols m))) ∧
    (hostname_conflict l' ↔ hostname_conflict l ∨
       (i ∈ ml_listeners m ∧ 1 < size (ml_hostnames m))).
Proof.
  intros Hl. unfold validate_port.
  set (eh := ErrString ("listeners have conflicting hostnames for port: " +:+ _)).
  set (ep := ErrString ("listeners have conflicting protocols for port: " +:+ _)).
  assert (∃ l1, (if bool_decide (1 < size (ml_protocols m)) then
      foldl (λ ls index, alter (set_Conflicted_Protocol ep) index ls) ls (ml_listeners m)
      else ls) !! i = Some l1 ∧ (hostname_conflict l1 ↔ hostname_conflict l) ∧
    (protocol_conflict l1 ↔ protocol_conflict l ∨
       (i ∈ ml_listeners m ∧ 1 < size (ml_protocols m)))) as (l1 & Hl1 & Hh1 & Hp1).
  { case_bool_decide as Hs; [|exists l; split; [done|]; split; [done|]; tauto].
    rewrite foldl_alter_lookup by done. rewrite Hl. case_decide as Hin; simpl.
    - eexists. split; [done|]. split; [exact (iff_refl _)|]. split; [by right|]. intros _. by eexists.
    - exists l. split; [done|]. split; [done|]. tauto. }
  destruct (bool_decide_reflect (1 < size (ml_hostnames m))) as [Hs|Hs];
    [|exists l1; split; [exact Hl1|]; split; [exact Hp1|]; rewrite Hh1; tauto].
  rewrite foldl_alter_lookup by done. rewrite Hl1.
  destruct (decide (i ∈ ml_listeners m)) as [Hin|Hin]; simpl.
  - eexists. split; [done|]. split; [exact Hp1|]. split; [by right|]. intros _. by eexists.
  - exists l1. split; [done|]. split; [done|]. rewrite Hh1. tauto.
Qed.

Lemma validate_ports_lookup ls (ms : list (Z * mergedListener)) i l :
  ls !! i = Some l → ∃ l', foldl (λ ls kv, validate_port ls kv.2) ls ms !! i = Some l' ∧
    (protocol_conflict l' ↔ protocol_conflict l ∨ ∃ p m, (p, m) ∈ ms ∧
       i ∈ ml_listeners m ∧ 1 < size (ml_protocols m)) ∧
    (hostname_conflict l' ↔ hostname_conflict l ∨ ∃ p m, (p, m) ∈ ms ∧
       i ∈ ml_listeners m ∧ 1 < size (ml_hostnames m)).
Proof.
  revert ls l. induction ms as [|[p m] ms IH]; intros ls l Hl; simpl.
  { exists l. split; [done|]. split; (split; [by left|]);
      by intros [?|(? & ? & []%not_elem_of_nil & _)]. }
  destruct (validate_port_lookup ls m i l Hl) as (l1 & Hl1 & Hp1 & Hh1).
  destruct (IH _ _ Hl1) as (l' & Hl' & Hp' & Hh'). exists l'. split; [done|].
  rewrite Hp', Hh', Hp1, Hh1. setoid_rewrite elem_of_cons. split; split.
  - intros [[?|?]|(q & m' & ? & ?)]; [by left|right; exists p, m; by split; [left|]|].
    right. exists q, m'. by split; [right|].
  - intros [?|(q & m' & [[= -> ->]|?] & ?)]; [by left; left|by left; right|right; eauto].
  - intros [[?|?]|(q & m' & ? & ?)]; [by left|right; exists p, m; by split; [left|]|].
    right. exists q, m'. by split; [right|].
  - intros [?|(q & m' & [[= -> ->]|?] & ?)]; [by left; left|by left; right|right; eauto].
Qed.

(** The entry of a listener's port is the only one that lists the listener. *)
Lemma port_entry (gateway : Gateway) i listener :
  gw_Listeners gateway !! i = Some listener →
  ∃ m, describes (imap pair (gw_Listeners gateway)) (l_Port listener) m ∧
    ∀ Q : mergedListener → Prop,
      (∃ p m', (p, m') ∈ range (mergeListenersByPort gateway) ∧ i ∈ ml_listeners m' ∧ Q m') ↔ Q m.
Proof.
  intros Hi. pose proof (merge_listeners_spec (imap pair (gw_Listeners gateway))) as Hm.
  fold (mergeListenersByPort gateway) in Hm. pose proof (Hm (l_Port listener)) as Hport.
  destruct (mergeListenersByPort gateway !! l_Port listener) as [m|] eqn:Hlk.
  2: { exfalso. by apply (Hport i listener); [apply elem_of_imap_pair|]. }
  exists m. split; [done|]. intros Q. split.
  - intros (p & m' & Hin%elem_of_range & Hidx & HQ). specialize (Hm p). rewrite Hin in Hm.
    apply Hm in Hidx as (l & Hl%elem_of_imap_pair & Hlp).
    assert (l = listener) as -> by congruence. subst p. congruence.
  - intros HQ. exists (l_Port listener), m. rewrite elem_of_range. split; [done|].
    split; [|done]. apply Hport. exists listener. by rewrite elem_of_imap_pair.
Qed.

(** Listener conflicts are detected exactly.  After conflict validation of a
    fresh gateway state a listener carries a protocol conflict iff two
    listeners on its port use different protocols, and a hostname conflict
    iff two listeners on its port name different hostnames; listeners that
    share a port with an offender are flagged with it. *)
Theorem listener_conflicts_iff (gateway : Gateway) (i : nat) (listener : Listener) :
  gw_Listeners gateway !! i = Some listener →
  ∃ st, gst_Listeners (validateListenerConflicts (InitialGatewayState gateway) gateway) !! i
        = Some st ∧
    (protocol_conflict st ↔ ∃ a b, a ∈ gw_Listeners gateway ∧ b ∈ gw_Listeners gateway ∧
       l_Port a = l_Port listener ∧ l_Port b = l_Port listener ∧ l_Protocol a ≠ l_Protocol b) ∧
    (hostname_conflict st ↔ ∃ a b ha hb, a ∈ gw_Listeners gateway ∧ b ∈ gw_Listeners gateway ∧
       l_Port a = l_Port listener ∧ l_Port b = l_Port listener ∧
       l_Hostname a = Some ha ∧ l_Hostname b = Some hb ∧ ha ≠ hb).
Proof.
  intros Hi. unfold validateListenerConflicts. simpl.
  set (st0 := mkListenerState ∅ (l_Protocol listener) (l_Name listener) zeroTLSParams
                zeroListenerStatus).
  destruct (validate_ports_lookup (gst_Listeners (InitialGatewayState gateway))
    (range (mergeListenersByPort gateway)) i st0) as (st & Hst & Hp & Hh).
  { simpl. by rewrite list_lookup_fmap, Hi. }
  exists st. split; [exact Hst|].
  destruct (port_entry gateway i listener Hi) as (m & (_ & Hpr & Hho) & Hport).
  rewrite (Hport (λ m, 1 < size (ml_protocols m))) in Hp.
  rewrite (Hport (λ m, 1 < size (ml_hostnames m))) in Hh.
  assert (¬ protocol_conflict st0 ∧ ¬ hostname_conflict st0) as [Hp0 Hh0] by (by split; intros []).
  setoid_rewrite elem_of_imap_pair in Hpr. setoid_rewrite elem_of_imap_pair in Hho.
  setoid_rewrite list_elem_of_lookup. split.
  - transitivity (1 < size (ml_protocols m)); [tauto|]. rewrite map_size_gt1.
    setoid_rewrite Hpr. split.
    + intros (x & y & Hxy & (j & a & Ha & Hpa & <-) & (k & b & Hb & Hpb & <-)).
      exists a, b. split_and!; eauto.
    + intros (a & b & [j Ha] & [k Hb] & Hpa & Hpb & Hab).
      exists (l_Protocol a), (l_Protocol b). split_and!; eauto 10.
  - transitivity (1 < size (ml_hostnames m)); [tauto|]. rewrite map_size_gt1.
    setoid_rewrite Hho. split.
    + intros (x & y & Hxy & (j & a & Ha & Hpa & Hx) & (k & b & Hb & Hpb & Hy)).
      exists a, b, x, y. split_and!; eauto.
    + intros (a & b & x & y & [j Ha] & [k Hb] & Hpa & Hpb & Hx & Hy & Hxy).
      exists x, y. split_and!; eauto 10.
Qed.

End validator.

(** ** Examples *)

Module ValidatorExamples.

(** A cluster with one ready pod, every secret, and one grant per namespace
    that lets gateways of "default" use any secret. *)
Definition ready_pod : Pod :=
  mkPod "Running" [mkPodCondition "Ready" ConditionTrue "" ""] "10.0.0.1" "192.168.0.1".
Definition grant : ReferenceGrant :=
  mkReferenceGrant [mkReferenceGrantFrom GroupName "Gateway" "default"]
    [mkReferenceGrantTo "" "Secret" None].
Definition cluster : Client := {|
  cl_GetSecret := λ _, Ok (Some (mkSecret (new_meta "cert" "certs" ∅ ∅) "kubernetes.io/tls" ∅));
  cl_GetService := λ _, Ok None;
  cl_GetMeshService := λ _, Ok None;
  cl_GetNamespace := λ key, Ok (Some (mkNamespace (nn_Name key) ∅));
  cl_GetGatewayClassConfig := λ _, Ok None;
  cl_PodsWithLabels := λ _, Ok [ready_pod];
  cl_GetReferenceGrantsInNamespace := λ _, Ok [grant];
  cl_GetConfigForGatewayClassName := λ _, Ok (zeroGatewayClassConfig, true);
  cl_IsManagedRoute := λ _ _, Ok true
|}.

Definition tls_config : GatewayTLSConfig :=
  mkGatewayTLSConfig None [mkSecretObjectReference None None "cert" (Some "certs")]
    {[tlsMinVersionAnnotationKey := "TLSv1_2";
      tlsCipherSuitesAnnotationKey := "TLS_RSA_WITH_AES_128_CBC_SHA, TLS_RSA_WITH_AES_256_CBC_SHA"]}.
Definition https_listener : Listener := mkListener "https" None 443 "HTTPS" (Some tls_config) None.
Definition tcp_listener : Listener := mkListener "tcp" None 443 "TCP" None None.
Definition gateway_with (ls : list Listener) : Gateway :=
  mkGateway (mkObjectMeta "gateway" "default" "uid" 1 "10" 0 ∅ ∅ [] [] None)
    (mkGroupKind GroupName "Gateway") "class" ls [] (mkGatewayStatusObj [] [] []).
Definition fresh : ListenerState :=
  mkListenerState ∅ "HTTPS" "https" zeroTLSParams zeroListenerStatus.

End ValidatorExamples.

Lemma validated_tls_witness :
  ∃ l', @validateTLS plain_url ValidatorExamples.cluster ValidatorExamples.fresh
      (ValidatorExamples.gateway_with [ValidatorExamples.https_listener])
      ValidatorExamples.https_listener = Ok l' ∧
    tls_supported (lst_TLS l') ∧
    lst_TLS l' = mkTLSParams false "TLSv1_2" ""
      ["TLS_RSA_WITH_AES_128_CBC_SHA"; "TLS_RSA_WITH_AES_256_CBC_SHA"]
      [@K8sSecret_String plain_url (NewK8sSecret "certs" "cert")].
Proof.
  eexists. split; [vm_compute; reflexivity|]. split; [|reflexivity].
  apply (@validated_tls plain_url ValidatorExamples.cluster ValidatorExamples.fresh _
    (ValidatorExamples.gateway_with [ValidatorExamples.https_listener])
    ValidatorExamples.https_listener); vm_compute; reflexivity.
Defined.

Lemma gateway_ready_iff_witness :
  ∃ st, @GatewayValidator_Validate canonical_range plain_url ValidatorExamples.cluster
      (λ _, "") (ValidatorExamples.gateway_with [ValidatorExamples.https_listener]) None
      = Ok st ∧
    gst_Addresses st = ["10.0.0.1"] ∧
    (GatewayReadyStatus_HasError (gs_Ready (gst_Status st)) = false →
     ∀ l, l ∈ gst_Listeners st →
       ListenerReadyStatus_HasError (ls_Ready (lst_Status l)) = false).
Proof.
  eexists. split; [vm_compute; reflexivity|]. split; [reflexivity|].
  intros Hr.
  destruct (@gateway_ready_iff canonical_range plain_url ValidatorExamples.cluster (λ _, "")
    (ValidatorExamples.gateway_with [ValidatorExamples.https_listener]) None
    _ ltac:(vm_compute; reflexivity)) as (H1 & _).
  apply H1 in Hr as (_ & _ & _ & Hall). exact Hall.
Defined.

Lemma listener_conflicts_iff_witness :
  let gw := ValidatorExamples.gateway_with
    [ValidatorExamples.https_listener; ValidatorExamples.tcp_listener] in
  ∃ st, gst_Listeners (@validateListenerConflicts canonical_range (InitialGatewayState gw) gw)
        !! 0 = Some st ∧ protocol_conflict st.
Proof.
  intros gw.
  destruct (@listener_conflicts_iff canonical_range gw 0 ValidatorExamples.https_listener)
    as (st & H1 & H2 & _).
  - reflexivity.
  - exists st. split; [exact H1|]. apply H2.
    exists ValidatorExamples.https_listener, ValidatorExamples.tcp_listener.
    split; [left|]. split; [right; left|]. split; [reflexivity|]. split; [reflexivity|].
    discriminate.
Defined.
