(* ===== verification/RouteValidator.v ===== *)
(** * Route validation ([internal/k8s/reconciler/validator/route.go])

    [Validate] derives the state of a route: it checks that every backend may
    be referenced and resolves it.  [BackendResolver] is the interface of the
    resolver the validator is written against; [Resolver.Resolve] implements
    it. *)

From S2P Require Import Prelude Errors Json Core K8s Status GatewayClient Resolver State Converter Objects Binder K8sSecret GatewayValidator.

(** What the validator relies on: a resolved reference is a Consul service. *)
Class BackendResolver : Type := {
  br_Resolve : string → BackendObjectReference → result ResolvedReference;
  br_Resolve_consul : ∀ namespace ref r, br_Resolve namespace ref = Ok r →
    rr_Type r = ConsulServiceReference ∧ is_Some (rr_Consul r)
}.

Program Definition backendResolver {MF : MultierrorFormat} {MR : MapRange} {BO : Backoff}
    (client : Client) (mapper : string → string) (consul : nat → ConsulView) :
    BackendResolver :=
  {| br_Resolve := Resolve client mapper consul |}.
Next Obligation.
  intros MF MR BO client mapper consul namespace ref r Hr.
  destruct (resolve_consul_reference client mapper consul namespace ref r Hr) as (name & ns & ->).
  split; [done|by eexists].
Qed.

Section route_validator.
Context {BR : BackendResolver} (client : Client).

Definition routeAllowedForBackendRef (route : Route) (backendRef : BackendRef) : result bool :=
  let ref := br_Ref backendRef in
  referenceAllowed client (route_GroupKind route) (route_Namespace route)
    (mkGroupKind (default "" (bor_Group ref)) (default "Service" (bor_Kind ref)))
    (default "" (bor_Namespace ref)) (bor_Name ref).

Definition add_error (st : RouteState) (e : ResolutionError) : RouteState :=
  mkRouteState (rs_References st) (ResolutionErrors_Add (rs_ResolutionErrors st) e)
    (rs_ParentStatuses st).

Definition not_permitted (route : Route) (backendRef : BackendRef) : ResolutionError :=
  let ref := br_Ref backendRef in
  NewRefNotPermittedError
    ("Cross-namespace routing not allowed without matching ReferencePolicy for Service "
     +:+ strconv_Quote (NamespacedName_String
           (getNamespacedName (bor_Name ref) (bor_Namespace ref) (route_Namespace route)))).

(** One backend of the rule allocated at [ptr]; the two validators share it. *)
Definition validate_backend (route : Route) (ptr : nat) (rule : RouteRule)
    (backendRef : BackendRef) (ref : SettableReference) (st : RouteState) : result RouteState :=
  allowed ← routeAllowedForBackendRef route backendRef;
  if negb allowed then Ok (add_error st (not_permitted route backendRef))
  else
    match br_Resolve (route_Namespace route) (br_Ref backendRef) with
    | Err e =>
        match As_ResolutionError e with
        | None => Err e
        | Some re => Ok (add_error st re)
        end
    | Ok reference =>
        let reference := mkResolvedReference (rr_Type reference)
          (BackendReference_Set (rr_Reference reference) ref) (rr_Consul reference) in
        Ok (mkRouteState
              (RouteRuleReferenceMap_Add (rs_References st) ptr rule reference)
              (rs_ResolutionErrors st) (rs_ParentStatuses st))
    end.

(** A loop that threads the state and stops at the first error. *)
Fixpoint foldR {A} (f : A → RouteState → result RouteState) (xs : list A) (st : RouteState) :
    result RouteState :=
  match xs with
  | [] => Ok st
  | x :: xs => st ← f x st; foldR f xs st
  end.

Definition validate_http_rule (route : K8sHTTPRoute) (il : nat * K8sHTTPRouteRule)
    (st : RouteState) : result RouteState :=
  let (ptr, rule) := il in
  let routeRule := NewRouteRule (HTTPRulePointer rule) in
  foldR (λ ref, validate_backend (RouteHTTP route) ptr routeRule (hbr_BackendRef ref)
                  (SetHTTPBackendRef ref)) (kr_BackendRefs rule) st.

(** The rule copies are allocated in order: the pointer of a rule is its index. *)
Definition validateHTTPRoute (st : RouteState) (route : K8sHTTPRoute) : result RouteState :=
  foldR (validate_http_rule route) (imap pair (khr_Rules route)) st.

(** The rule is passed to [NewRouteRule] by value. *)
Definition validateTCPRoute (st : RouteState) (route : K8sTCPRoute) : result RouteState :=
  match ktr_Rules route with
  | [rule] =>
      match tr_BackendRefs rule with
      | [ref] =>
          validate_backend (RouteTCP route) 0 (NewRouteRule (TCPRuleValue rule)) ref
            (SetBackendRef ref) st
      | _ => Ok (add_error st (NewResolutionError "a single backendRef per tcp rule is required"))
      end
  | _ => Ok (add_error st (NewResolutionError "a single tcp rule is required"))
  end.

Definition RouteValidator_Validate (route : Route) : result RouteState :=
  let st := NewRouteState in
  match route with
  | RouteHTTP r => validateHTTPRoute st r
  | RouteTCP r => validateTCPRoute st r
  end.

(** ** What a validated route guarantees *)

(** The backend is permitted and resolves to [r]. *)
Definition backend_resolves (route : Route) (backendRef : BackendRef) (consul : option ConsulService) :
    Prop :=
  let ref := br_Ref backendRef in
  reference_permitted client (route_GroupKind route) (route_Namespace route)
    (mkGroupKind (default "" (bor_Group ref)) (default "Service" (bor_Kind ref)))
    (default "" (bor_Namespace ref)) (bor_Name ref) ∧
  ∃ r, br_Resolve (route_Namespace route) (br_Ref backendRef) = Ok r ∧ rr_Consul r = consul.

(** The backends of the rule at an index. *)
Definition backends_at (route : Route) (ptr : nat) : list BackendRef :=
  match route with
  | RouteHTTP r => match khr_Rules r !! ptr with
                   | Some rule => hbr_BackendRef <$> kr_BackendRefs rule
                   | None => []
                   end
  | RouteTCP r => match ktr_Rules r !! ptr with
                  | Some rule => tr_BackendRefs rule
                  | None => []
                  end
  end.

(** Every mapped reference stems from a permitted backend of its rule. *)
Definition references_permitted (route : Route) (m : RouteRuleReferenceMap) : Prop :=
  ∀ ptr rule refs r, m !! ptr = Some (rule, refs) → r ∈ refs →
    ∃ backendRef, backendRef ∈ backends_at route ptr ∧
      backend_resolves route backendRef (rr_Consul r).

(** The invariant of the validation loops. *)
Definition validated (route : Route) (st : RouteState) : Prop :=
  references_fit (mkK8sRoute route st) ∧ references_permitted route (rs_References st).

Lemma add_error_validated route st e : validated route st → validated route (add_error st e).
Proof. done. Qed.

Lemma add_error_nonempty st e : rs_ResolutionErrors (add_error st e) ≠ ∅.
Proof. apply insert_non_empty. Qed.

(** Adding a reference keeps a property of all (rule, reference) pairs. *)
Lemma RouteRuleReferenceMap_Add_inv (m : RouteRuleReferenceMap) ptr rule r
    (P : nat → RouteRule → ResolvedReference → Prop) :
  (∀ p ru rs x, m !! p = Some (ru, rs) → x ∈ rs → P p ru x) → P ptr rule r →
  (∀ ru rs x, m !! ptr = Some (ru, rs) → x ∈ rs → P ptr rule x) →
  ∀ p ru rs x, RouteRuleReferenceMap_Add m ptr rule r !! p = Some (ru, rs) → x ∈ rs → P p ru x.
Proof.
  intros Hm Hr Hsame p ru rs x. unfold RouteRuleReferenceMap_Add.
  destruct (m !! ptr) as [[ru0 rs0]|] eqn:Hlk; intros Hl Hx;
    (apply lookup_insert_Some in Hl as [[<- [= <- <-]]|[_ Hl]]; [|by eapply Hm]).
  - apply elem_of_app in Hx as [Hx|Hx]; [by eapply Hsame|].
    by apply list_elem_of_singleton in Hx as ->.
  - by apply list_elem_of_singleton in Hx as ->.
Qed.

(** The rule of an entry, if any, is the one that was added. *)
Lemma RouteRuleReferenceMap_Add_rule (m : RouteRuleReferenceMap) ptr rule r p ru rs :
  RouteRuleReferenceMap_Add m ptr rule r !! p = Some (ru, rs) →
  (p = ptr ∧ ru = rule) ∨ m !! p = Some (ru, rs).
Proof.
  unfold RouteRuleReferenceMap_Add.
  destruct (m !! ptr) as [[ru0 rs0]|]; intros [[<- [= <- <-]]|[_ ?]]%lookup_insert_Some; auto.
Qed.

(** The settable reference matches the kind of the route and of the rule. *)
Definition fits (route : Route) (rule : RouteRule) (ref : SettableReference) : Prop :=
  match route, ref with
  | RouteHTTP _, SetHTTPBackendRef _ => ∃ r, rule = RuleHTTP r
  | RouteTCP _, SetBackendRef _ => True
  | _, _ => False
  end.

Lemma add_reference_fit route st ptr rule ref r :
  references_fit (mkK8sRoute route st) → fits route rule ref →
  rr_Type r = ConsulServiceReference ∧ is_Some (rr_Consul r) →
  references_fit (mkK8sRoute route (mkRouteState
    (RouteRuleReferenceMap_Add (rs_References st) ptr rule
       (mkResolvedReference (rr_Type r) (BackendReference_Set (rr_Reference r) ref) (rr_Consul r)))
    (rs_ResolutionErrors st) (rs_ParentStatuses st))).
Proof.
  intros Hfit Hf [Ht Hc]. unfold references_fit in *. simpl in *.
  destruct route as [hr|tr], ref as [href|tref]; simpl in Hf; try done.
  - intros p [ru rs] Hl. split.
    + apply RouteRuleReferenceMap_Add_rule in Hl as [[_ ->]|Hl]; [done|].
      by destruct (Hfit _ _ Hl).
    + apply Forall_forall. intros x Hx.
      refine (RouteRuleReferenceMap_Add_inv (rs_References st) ptr rule _
        (λ _ _ x, http_reference x) _ _ _ p ru rs x Hl Hx).
      * intros p' ru' rs' x' Hl' Hx'. destruct (Hfit _ _ Hl') as [_ Hall].
        rewrite Forall_forall in Hall. by apply Hall.
      * intros _. simpl. split; [by eexists|done].
      * intros ru' rs' x' Hl' Hx'. destruct (Hfit _ _ Hl') as [_ Hall].
        rewrite Forall_forall in Hall. by apply Hall.
  - intros p [ru rs] Hl x Hx.
    refine (RouteRuleReferenceMap_Add_inv (rs_References st) ptr rule _
      (λ _ _ x, is_Some (rr_Consul x)) _ _ _ p ru rs x Hl Hx).
    + intros p' ru' rs' x' Hl' Hx'. by eapply (Hfit _ _ Hl').
    + done.
    + intros ru' rs' x' Hl' Hx'. by eapply (Hfit _ _ Hl').
Qed.

Lemma add_reference_permitted route m ptr rule b r ref :
  references_permitted route m → b ∈ backends_at route ptr →
  backend_resolves route b (rr_Consul r) →
  references_permitted route (RouteRuleReferenceMap_Add m ptr rule
    (mkResolvedReference (rr_Type r) ref (rr_Consul r))).
Proof.
  intros Hm Hb Hr p ru rs x.
  apply (RouteRuleReferenceMap_Add_inv m ptr rule _ (λ p _ x, ∃ backendRef,
    backendRef ∈ backends_at route p ∧ backend_resolves route backendRef (rr_Consul x))).
  - intros p' ru' rs' x' Hl Hx. by eapply Hm.
  - exists b. done.
  - intros ru' rs' x' Hl Hx. by eapply Hm.
Qed.

Lemma validate_backend_spec route ptr rule b ref st st' :
  validated route st → b ∈ backends_at route ptr → fits route rule ref →
  validate_backend route ptr rule b ref st = Ok st' →
  validated route st' ∧
  (rs_ResolutionErrors st' = ∅ →
     rs_ResolutionErrors st = ∅ ∧ ∃ c, backend_resolves route b c).
Proof.
  intros [Hfit Hperm] Hb Hf. unfold validate_backend.
  destruct (routeAllowedForBackendRef route b) as [[]|e] eqn:Hallowed; simpl; [| |done].
  2: { intros [= <-]. split; [done|]. intros He. by apply add_error_nonempty in He. }
  destruct (br_Resolve (route_Namespace route) (br_Ref b)) as [r|e] eqn:Hres.
  - intros [= <-]. simpl.
    assert (backend_resolves route b (rr_Consul r)) as Hbr.
    { split; [by apply referenceAllowed_permitted|eauto]. }
    split; [|eauto].
    split; [|by apply add_reference_permitted with (b := b)].
    apply add_reference_fit; [done|done|]. by eapply br_Resolve_consul.
  - destruct (As_ResolutionError e); [|done]. intros [= <-]. split; [done|].
    intros He. by apply add_error_nonempty in He.
Qed.

Lemma foldR_spec {A} route (f : A → RouteState → result RouteState) (Q : A → Prop) xs st st' :
  validated route st →
  (∀ x s s', x ∈ xs → validated route s → f x s = Ok s' → validated route s' ∧
     (rs_ResolutionErrors s' = ∅ → rs_ResolutionErrors s = ∅ ∧ Q x)) →
  foldR f xs st = Ok st' →
  validated route st' ∧
  (rs_ResolutionErrors st' = ∅ → rs_ResolutionErrors st = ∅ ∧ ∀ x, x ∈ xs → Q x).
Proof.
  revert st. induction xs as [|x xs IH]; intros st Hst Hf; simpl.
  { intros [= <-]. split; [done|]. intros He. split; [done|]. by intros x []%not_elem_of_nil. }
  intros Hr. apply bind_Ok in Hr as (s & Hs & Hr).
  destruct (Hf x st s ltac:(left) Hst Hs) as [Hs' HQ].
  destruct (IH s Hs') as [Hst' HQ']; [intros; eapply Hf; [by right|done|done]|done|].
  split; [done|]. intros He. destruct (HQ' He) as [He' Hall]. destruct (HQ He') as [He0 Hx].
  split; [done|]. intros y Hy. apply elem_of_cons in Hy as [-> |Hy]; [done|by apply Hall].
Qed.

Lemma validateHTTPRoute_spec route st :
  validateHTTPRoute NewRouteState route = Ok st →
  validated (RouteHTTP route) st ∧
  (rs_ResolutionErrors st = ∅ → ∀ ptr b, b ∈ backends_at (RouteHTTP route) ptr →
     ∃ c, backend_resolves (RouteHTTP route) b c).
Proof.
  intros Hv. unfold validateHTTPRoute in Hv.
  assert (validated (RouteHTTP route) NewRouteState) as H0.
  { split; [by intros ??|by intros ????]. }
  apply (foldR_spec (RouteHTTP route) _ (λ il, ∀ b, b ∈ kr_BackendRefs (snd il) →
    ∃ c, backend_resolves (RouteHTTP route) (hbr_BackendRef b) c)) in Hv as [Hval Hall];
    [|done|].
  2: { intros [ptr rule] s s' Hin Hs Hf. apply elem_of_imap_pair in Hin. simpl in *.
       eapply (foldR_spec (RouteHTTP route)); [exact Hs| |exact Hf].
       intros b s1 s2 Hb Hs1 Hstep. eapply validate_backend_spec; [done| | |exact Hstep].
       - simpl. rewrite Hin. apply list_elem_of_fmap. eauto.
       - simpl. eauto. }
  split; [done|]. intros He ptr b Hb. destruct (Hall He) as [_ Hq]. simpl in Hb.
  destruct (khr_Rules route !! ptr) as [rule|] eqn:Hrule; [|by apply not_elem_of_nil in Hb].
  apply list_elem_of_fmap in Hb as (href & -> & Hin).
  apply (Hq (ptr, rule)); [by apply elem_of_imap_pair|done].
Qed.

Lemma validateTCPRoute_spec route st :
  validateTCPRoute NewRouteState route = Ok st →
  validated (RouteTCP route) st ∧
  (rs_ResolutionErrors st = ∅ → ∀ ptr b, b ∈ backends_at (RouteTCP route) ptr →
     ∃ c, backend_resolves (RouteTCP route) b c).
Proof.
  intros Hv. unfold validateTCPRoute in Hv.
  assert (validated (RouteTCP route) NewRouteState) as H0.
  { split; [by intros ??|by intros ????]. }
  destruct (ktr_Rules route) as [|rule [|rule' rules]] eqn:Hrules;
    [injection Hv as <-; split; [done|]; intros He; by apply add_error_nonempty in He| |
     injection Hv as <-; split; [done|]; intros He; by apply add_error_nonempty in He].
  destruct (tr_BackendRefs rule) as [|ref [|ref' refs]] eqn:Hrefs;
    [injection Hv as <-; split; [done|]; intros He; by apply add_error_nonempty in He| |
     injection Hv as <-; split; [done|]; intros He; by apply add_error_nonempty in He].
  apply validate_backend_spec in Hv as [Hval Hq]; [|done| |done].
  - split; [done|]. intros He ptr b Hb. destruct (Hq He) as [_ Hc]. simpl in Hb.
    rewrite Hrules in Hb. destruct ptr as [|ptr]; [|by apply not_elem_of_nil in Hb].
    simpl in Hb. rewrite Hrefs in Hb. by apply list_elem_of_singleton in Hb as ->.
  - simpl. rewrite Hrules. simpl. rewrite Hrefs. left.
Qed.

(** C9: validation only lets a route reach backends it may use.  Every reference
    a validated route carries belongs to a backend of one of its rules that
    lies in its own namespace or is covered by a ReferenceGrant, and that the
    resolver mapped to the
    recorded Consul service; the references fit the route's kind, so binding
    and converting the route cannot panic on them; and a route without
    resolution errors has every one of its backends resolved. *)
Theorem validated_route (route : Route) (st : RouteState) :
  RouteValidator_Validate route = Ok st →
  references_permitted route (rs_References st) ∧
  references_fit (mkK8sRoute route st) ∧
  (rs_ResolutionErrors st = ∅ → ∀ ptr b, b ∈ backends_at route ptr →
     ∃ c, backend_resolves route b c).
Proof.
  unfold RouteValidator_Validate. destruct route as [route|route]; intros Hv.
  - apply validateHTTPRoute_spec in Hv as [[? ?] ?]. done.
  - apply validateTCPRoute_spec in Hv as [[? ?] ?]. done.
Qed.

End route_validator.

(** ** Example *)

(** A resolver that finds every backend under its own name. *)
#[export] Program Instance echo_resolver : BackendResolver := {|
  br_Resolve := λ namespace ref,
    Ok (NewConsulServiceReference (mkConsulService namespace (bor_Name ref)))
|}.
Next Obligation. intros ??? [= <-]. split; [done|by eexists]. Qed.

Definition witness_tcp_route : K8sTCPRoute :=
  mkK8sTCPRoute witness_meta (mkGroupKind GroupName "TCPRoute") []
    [mkTCPRouteRule [mkBackendRef (mkBackendObjectReference None None "db" None (Some 5432%Z)) None]]
    [].

Lemma validated_route_witness :
  ∃ st, @RouteValidator_Validate echo_resolver ValidatorExamples.cluster
      (RouteTCP witness_tcp_route) = Ok st ∧
    @references_permitted echo_resolver ValidatorExamples.cluster (RouteTCP witness_tcp_route)
      (rs_References st) ∧
    references_fit (mkK8sRoute (RouteTCP witness_tcp_route) st).
Proof.
  eexists. split; [reflexivity|].
  destruct (@validated_route echo_resolver ValidatorExamples.cluster
    (RouteTCP witness_tcp_route) _ eq_refl) as (H1 & H2 & _).
  split; [exact H1|exact H2].
Defined.
