(* ===== verification/ConfigEntries.v ===== *)
(** * Consul configuration entries

    The entries the adapter writes (types of the Consul API package, with the
    fields this code base sets), the index over them
    ([internal/consul/config_entries.go]) and the index over service names
    ([internal/common/service_names.go]). *)

From Stdlib Require Export SpecFloat.
From S2P Require Import Prelude.

(** ** Entries *)

Record HTTPHeaderModifiers : Type := mkHTTPHeaderModifiers {
  mod_Add : gmap string string;
  mod_Set : gmap string string;
  mod_Remove : list string
}.

Record ServiceRouteHTTPMatchHeader : Type := mkServiceRouteHTTPMatchHeader {
  smh_Name : string;
  smh_Present : bool;
  smh_Exact : string;
  smh_Prefix : string;
  smh_Suffix : string;
  smh_Regex : string
}.

Record ServiceRouteHTTPMatchQueryParam : Type := mkServiceRouteHTTPMatchQueryParam {
  smq_Name : string;
  smq_Present : bool;
  smq_Exact : string;
  smq_Regex : string
}.

Record ServiceRouteHTTPMatch : Type := mkServiceRouteHTTPMatch {
  srm_PathExact : string;
  srm_PathPrefix : string;
  srm_PathRegex : string;
  srm_Header : list ServiceRouteHTTPMatchHeader;
  srm_QueryParam : list ServiceRouteHTTPMatchQueryParam;
  srm_Methods : list string
}.

Record ServiceRouteDestination : Type := mkServiceRouteDestination {
  srd_Service : string;
  srd_Namespace : string;
  srd_PrefixRewrite : string;
  srd_RequestHeaders : HTTPHeaderModifiers
}.

Record ServiceRoute : Type := mkServiceRoute {
  sr_Match : option ServiceRouteHTTPMatch;
  sr_Destination : ServiceRouteDestination
}.

Record ServiceRouterConfigEntry : Type := mkServiceRouterConfigEntry {
  router_Name : string;
  router_Namespace : string;
  router_Meta : gmap string string;
  router_Routes : list ServiceRoute
}.

(** [Weight] is a [float32]. *)
Record ServiceSplit : Type := mkServiceSplit {
  split_Weight : spec_float;
  split_Service : string;
  split_Namespace : string;
  split_RequestHeaders : HTTPHeaderModifiers
}.

Record ServiceSplitterConfigEntry : Type := mkServiceSplitterConfigEntry {
  splitter_Name : string;
  splitter_Namespace : string;
  splitter_Meta : gmap string string;
  splitter_Splits : list ServiceSplit
}.

Record ServiceConfigEntry : Type := mkServiceConfigEntry {
  default_Name : string;
  default_Namespace : string;
  default_Protocol : string;
  default_Meta : gmap string string
}.

Record IngressService : Type := mkIngressService {
  isvc_Name : string;
  isvc_Hosts : list string;
  isvc_Namespace : string
}.

Record GatewayTLSSDSConfig : Type := mkGatewayTLSSDSConfig {
  sds_ClusterName : string;
  sds_CertResource : string
}.

Record IngressTLSConfig : Type := mkIngressTLSConfig {
  itls_SDS : option GatewayTLSSDSConfig;
  itls_TLSMinVersion : string;
  itls_TLSMaxVersion : string;
  itls_CipherSuites : list string
}.

Record IngressListener : Type := mkIngressListener {
  il_Port : Z;
  il_Protocol : string;
  il_Services : list IngressService;
  il_TLS : IngressTLSConfig
}.

Record IngressGatewayConfigEntry : Type := mkIngressGatewayConfigEntry {
  ingress_Name : string;
  ingress_Namespace : string;
  ingress_Meta : gmap string string;
  ingress_Listeners : list IngressListener;
  ingress_MaxConnections : option Z
}.

Definition ServiceDefaults : string := "service-defaults".
Definition ServiceRouter : string := "service-router".
Definition ServiceSplitter : string := "service-splitter".
Definition IngressGateway : string := "ingress-gateway".

(** The [ConfigEntry] interface. *)
Inductive ConfigEntry : Type :=
  | EntryDefaults (e : ServiceConfigEntry)
  | EntryRouter (e : ServiceRouterConfigEntry)
  | EntrySplitter (e : ServiceSplitterConfigEntry)
  | EntryIngress (e : IngressGatewayConfigEntry).

Definition GetKind (e : ConfigEntry) : string :=
  match e with
  | EntryDefaults _ => ServiceDefaults
  | EntryRouter _ => ServiceRouter
  | EntrySplitter _ => ServiceSplitter
  | EntryIngress _ => IngressGateway
  end.

Definition entry_Name (e : ConfigEntry) : string :=
  match e with
  | EntryDefaults e => default_Name e
  | EntryRouter e => router_Name e
  | EntrySplitter e => splitter_Name e
  | EntryIngress e => ingress_Name e
  end.

Definition entry_Namespace (e : ConfigEntry) : string :=
  match e with
  | EntryDefaults e => default_Namespace e
  | EntryRouter e => router_Namespace e
  | EntrySplitter e => splitter_Namespace e
  | EntryIngress e => ingress_Namespace e
  end.

(** ** The index ([config_entries.go]) *)

Record ConfigEntryIndex : Type := mkConfigEntryIndex {
  cei_kind : string;
  cei_idx : gmap string ConfigEntry
}.

Definition NewConfigEntryIndex (kind : string) : ConfigEntryIndex := mkConfigEntryIndex kind ∅.

(** [None] is the nil entry. *)
Definition ConfigEntryIndex_Add (i : ConfigEntryIndex) (entry : option ConfigEntry) :
    ConfigEntryIndex :=
  match entry with
  | None => i
  | Some entry =>
      if bool_decide (GetKind entry ≠ cei_kind i) then i
      else mkConfigEntryIndex (cei_kind i) (<[entry_Name entry := entry]> (cei_idx i))
  end.

Definition ConfigEntryIndex_Get (i : ConfigEntryIndex) (name : string) : option ConfigEntry :=
  cei_idx i !! name.

Definition ConfigEntryIndex_Count (i : ConfigEntryIndex) : nat := size (cei_idx i).

Section index.
Context {MR : MapRange}.

Definition ConfigEntryIndex_Merge (i : ConfigEntryIndex) (other : option ConfigEntryIndex) :
    ConfigEntryIndex :=
  match other with
  | None => i
  | Some other =>
      if bool_decide (cei_kind i ≠ cei_kind other) then i
      else mkConfigEntryIndex (cei_kind i)
             (foldl (λ idx kv, <[kv.1 := kv.2]> idx) (cei_idx i) (range (cei_idx other)))
  end.

Definition ConfigEntryIndex_filter (i other : ConfigEntryIndex) (include : bool) :
    ConfigEntryIndex :=
  foldl (λ result kv,
    let ok := bool_decide (is_Some (cei_idx i !! entry_Name kv.2)) in
    if ok && include then ConfigEntryIndex_Add result (Some kv.2)
    else if negb ok && negb include then ConfigEntryIndex_Add result (Some kv.2)
    else result) (NewConfigEntryIndex (cei_kind i)) (range (cei_idx other)).

Definition ConfigEntryIndex_Difference (i other : ConfigEntryIndex) : ConfigEntryIndex :=
  ConfigEntryIndex_filter i other false.
Definition ConfigEntryIndex_Intersection (i other : ConfigEntryIndex) : ConfigEntryIndex :=
  ConfigEntryIndex_filter i other true.

Definition ConfigEntryIndex_ToArray (i : ConfigEntryIndex) : list ConfigEntry :=
  (range (cei_idx i)).*2.

(** The invariant of an index: entries are stored under their own name and
    have the kind of the index. *)
Definition index_wf (i : ConfigEntryIndex) : Prop :=
  ∀ name e, cei_idx i !! name = Some e → entry_Name e = name ∧ GetKind e = cei_kind i.

Lemma index_wf_new kind : index_wf (NewConfigEntryIndex kind).
Proof. intros name e. simpl. by rewrite lookup_empty. Qed.

Lemma index_wf_add i e : index_wf i → index_wf (ConfigEntryIndex_Add i e).
Proof.
  intros Hi. destruct e as [e|]; [|done]. simpl.
  destruct (bool_decide_reflect (GetKind e ≠ cei_kind i)) as [|Hk]; [done|].
  apply dec_stable in Hk. intros name e'. simpl.
  intros [[<- <-]|[_ Hl]]%lookup_insert_Some; [done|by apply Hi].
Qed.

Lemma foldl_insert_range (m1 m2 : gmap string ConfigEntry) :
  foldl (λ idx kv, <[kv.1 := kv.2]> idx) m1 (range m2) = m2 ∪ m1.
Proof.
  assert (∀ l : list (string * ConfigEntry), NoDup l.*1 →
    foldl (λ idx kv, <[kv.1 := kv.2]> idx) m1 l = list_to_map l ∪ m1) as Hl.
  { intros l. revert m1. induction l as [|[k v] l IH]; intros m1 Hnd; simpl.
    - by rewrite (left_id_L ∅ (∪)).
    - apply NoDup_cons in Hnd as [Hk Hnd]. rewrite IH by done.
      rewrite <- insert_union_r; [by rewrite insert_union_l|].
      by apply not_elem_of_list_to_map. }
  rewrite Hl by apply NoDup_range_keys. by rewrite list_to_map_range.
Qed.

Lemma Merge_union i other :
  cei_kind i = cei_kind other →
  cei_idx (ConfigEntryIndex_Merge i (Some other)) = cei_idx other ∪ cei_idx i.
Proof.
  intros Hk. simpl. rewrite bool_decide_false by (intros Hn; by apply Hn). simpl.
  apply foldl_insert_range.
Qed.

Lemma Merge_kind i other : cei_kind (ConfigEntryIndex_Merge i other) = cei_kind i.
Proof. destruct other as [other|]; [|done]. simpl. by case_bool_decide. Qed.

Lemma index_wf_merge i other :
  index_wf i → (∀ o, other = Some o → index_wf o) →
  index_wf (ConfigEntryIndex_Merge i other).
Proof.
  intros Hi Ho. destruct other as [other|]; [|done]. specialize (Ho other eq_refl).
  destruct (decide (cei_kind i = cei_kind other)) as [Hk|Hk].
  - intros name e. rewrite Merge_kind, Merge_union by done.
    intros [Hl|[_ Hl]]%lookup_union_Some_raw; [|by apply Hi].
    destruct (Ho name e Hl). split; congruence.
  - simpl. by rewrite bool_decide_true.
Qed.

Lemma Add_kind i e : cei_kind (ConfigEntryIndex_Add i e) = cei_kind i.
Proof. destruct e as [e|]; [|done]. simpl. by case_bool_decide. Qed.

(** The subset of [other] a filter selects. *)
Lemma filter_lookup i other include name :
  index_wf other → cei_kind i = cei_kind other →
  cei_idx (ConfigEntryIndex_filter i other include) !! name =
    (if bool_decide (bool_decide (is_Some (cei_idx i !! name)) = include)
     then cei_idx other !! name else None).
Proof.
  intros Hwf Hk. unfold ConfigEntryIndex_filter.
  set (f := λ (result : ConfigEntryIndex) (kv : string * ConfigEntry), _).
  assert (∀ l r, (∀ k e, (k, e) ∈ l → entry_Name e = k ∧ GetKind e = cei_kind i) →
    NoDup l.*1 → cei_kind r = cei_kind i → (∀ k, k ∈ l.*1 → cei_idx r !! k = None) →
    cei_idx (foldl f r l) !! name =
      match (list_to_map l : gmap string ConfigEntry) !! name with
      | Some e => if bool_decide (bool_decide (is_Some (cei_idx i !! name)) = include)
                  then Some e else cei_idx r !! name
      | None => cei_idx r !! name
      end) as Hgen.
  { induction l as [|[k e] l IH]; intros r Hl Hnd Hr Hnone; simpl; [by rewrite lookup_empty|].
    apply NoDup_cons in Hnd as [Hknl Hnd].
    destruct (Hl k e ltac:(left)) as [Hname Hkind]. simpl in Hname.
    assert (cei_kind (f r (k, e)) = cei_kind i) as Hfk.
    { unfold f. simpl. repeat case_match; simpl; rewrite ?Add_kind; try done;
        repeat case_bool_decide; done. }
    assert (cei_idx (f r (k, e)) =
      if bool_decide (bool_decide (is_Some (cei_idx i !! k)) = include)
      then <[k := e]> (cei_idx r) else cei_idx r) as Hfi.
    { unfold f. cbn [fst snd]. rewrite Hname. unfold ConfigEntryIndex_Add.
      rewrite (bool_decide_false (GetKind e ≠ cei_kind r)) by (rewrite Hkind, Hr; intros Hn; by apply Hn).
      rewrite Hname. destruct (bool_decide (is_Some (cei_idx i !! k))), include; done. }
    rewrite IH; [| |done|done|].
    - rewrite Hfi. destruct (decide (name = k)) as [->|Hne].
      + rewrite lookup_insert_eq.
        rewrite (not_elem_of_list_to_map_1 l k Hknl).
        case_bool_decide; [by rewrite lookup_insert_eq|].
        done.
      + rewrite lookup_insert_ne by done.
        assert ((if bool_decide (bool_decide (is_Some (cei_idx i !! k)) = include)
                 then <[k:=e]> (cei_idx r) else cei_idx r) !! name = cei_idx r !! name) as ->.
        { case_bool_decide; [by rewrite lookup_insert_ne|done]. }
        done.
    - intros k' e' Hin. apply Hl. by right.
    - intros k' Hk'. rewrite Hfi.
      assert (k' ≠ k) by (intros ->; by apply Hknl).
      case_bool_decide; [rewrite lookup_insert_ne by done|]; apply Hnone; by right. }
  rewrite Hgen; simpl.
  - rewrite list_to_map_range, lookup_empty. by destruct (cei_idx other !! name); case_bool_decide.
  - intros k e Hin. apply elem_of_range in Hin. rewrite Hk. by apply Hwf.
  - apply NoDup_range_keys.
  - done.
  - intros k _. apply lookup_empty.
Qed.

End index.

(** ** Service names ([service_names.go]) *)

Record CompoundServiceName : Type := mkCompoundServiceName {
  csn_Name : string;
  csn_Namespace : string;
  csn_Partition : string
}.

#[export] Instance CompoundServiceName_eq_dec : EqDecision CompoundServiceName.
Proof. solve_decision. Defined.

#[export] Program Instance CompoundServiceName_countable : Countable CompoundServiceName :=
  inj_countable' (λ n, (csn_Name n, csn_Namespace n, csn_Partition n))
    (λ '(n, ns, p), mkCompoundServiceName n ns p) _.
Next Obligation. by intros []. Qed.

(** A map to empty structs. *)
Abbreviation ServiceNameIndex := (gmap CompoundServiceName unit).

Definition NewServiceNameIndex : ServiceNameIndex := ∅.
Definition ServiceNameIndex_Exists (i : ServiceNameIndex) (name : CompoundServiceName) : bool :=
  bool_decide (is_Some (i !! name)).
Definition ServiceNameIndex_Add (i : ServiceNameIndex) (names : list CompoundServiceName) :
    ServiceNameIndex := foldl (λ i name, <[name := tt]> i) i names.
Definition ServiceNameIndex_Remove (i : ServiceNameIndex) (names : list CompoundServiceName) :
    ServiceNameIndex := foldl (λ i name, delete name i) i names.

Section names.
Context {MR : MapRange}.

Definition ServiceNameIndex_Diff (i other : ServiceNameIndex) :
    list CompoundServiceName * list CompoundServiceName :=
  (List.filter (λ name, negb (bool_decide (is_Some (i !! name)))) (range other).*1,
   List.filter (λ name, negb (bool_decide (is_Some (other !! name)))) (range i).*1).

Definition ServiceNameIndex_All (i : ServiceNameIndex) : list CompoundServiceName :=
  (range i).*1.

Lemma lookup_names_Add i names n :
  ServiceNameIndex_Add i names !! n = if decide (n ∈ names) then Some tt else i !! n.
Proof.
  unfold ServiceNameIndex_Add. revert i. induction names as [|m names IH]; intros i.
  { by rewrite decide_False by apply not_elem_of_nil. }
  cbn [foldl]. rewrite IH. destruct (decide (n ∈ names)) as [Hn|Hn].
  - by rewrite decide_True by (by right).
  - destruct (decide (n = m)) as [->|Hne].
    + by rewrite lookup_insert_eq, decide_True by left.
    + rewrite lookup_insert_ne, decide_False; [done|set_solver|done].
Qed.

Lemma lookup_names_Remove i names n :
  ServiceNameIndex_Remove i names !! n = if decide (n ∈ names) then None else i !! n.
Proof.
  unfold ServiceNameIndex_Remove. revert i. induction names as [|m names IH]; intros i.
  { by rewrite decide_False by apply not_elem_of_nil. }
  cbn [foldl]. rewrite IH. destruct (decide (n ∈ names)) as [Hn|Hn].
  - by rewrite decide_True by (by right).
  - destruct (decide (n = m)) as [->|Hne].
    + by rewrite lookup_delete_eq, decide_True by left.
    + rewrite lookup_delete_ne, decide_False; [done|set_solver|done].
Qed.

(** The names of one index that are missing in another. *)
Lemma elem_of_missing (i other : ServiceNameIndex) n :
  n ∈ List.filter (λ name, negb (bool_decide (is_Some (i !! name)))) (range other).*1 ↔
  ServiceNameIndex_Exists other n = true ∧ ServiceNameIndex_Exists i n = false.
Proof.
  rewrite list_elem_of_In, filter_In, <- list_elem_of_In, elem_of_range_keys.
  unfold ServiceNameIndex_Exists. by rewrite negb_true_iff, bool_decide_eq_true.
Qed.

Lemma NoDup_missing (i other : ServiceNameIndex) :
  NoDup (List.filter (λ name, negb (bool_decide (is_Some (i !! name)))) (range other).*1).
Proof. apply NoDup_ListNoDup, List.NoDup_filter, NoDup_ListNoDup, NoDup_range_keys. Qed.

(** The difference of two service indexes is exact: [added] lists, each
    once, the names only the other index has, [removed] those only this one
    has, and applying both to this index gives the other one. *)
Theorem service_name_diff (i other : ServiceNameIndex) :
  let (added, removed) := ServiceNameIndex_Diff i other in
  NoDup added ∧ NoDup removed ∧
  (∀ n, n ∈ added ↔ ServiceNameIndex_Exists other n = true ∧ ServiceNameIndex_Exists i n = false) ∧
  (∀ n, n ∈ removed ↔ ServiceNameIndex_Exists i n = true ∧ ServiceNameIndex_Exists other n = false) ∧
  ServiceNameIndex_Remove (ServiceNameIndex_Add i added) removed = other.
Proof.
  unfold ServiceNameIndex_Diff.
  split; [apply NoDup_missing|]. split; [apply NoDup_missing|].
  split; [intros n; apply elem_of_missing|]. split; [intros n; apply elem_of_missing|].
  apply map_eq. intros n. rewrite lookup_names_Remove, lookup_names_Add.
  unfold ServiceNameIndex_Exists in *.
  destruct (decide (n ∈ _)) as [Hr|Hr]; rewrite elem_of_missing in Hr;
    unfold ServiceNameIndex_Exists in Hr; rewrite bool_decide_eq_true, bool_decide_eq_false in Hr.
  - destruct Hr as [_ Ho]. symmetry. by apply eq_None_not_Some.
  - destruct (decide (n ∈ _)) as [Ha|Ha]; rewrite elem_of_missing in Ha;
      unfold ServiceNameIndex_Exists in Ha;
      rewrite bool_decide_eq_true, bool_decide_eq_false in Ha.
    + destruct Ha as [[[] ->] _]. done.
    + destruct (i !! n) as [[]|] eqn:Hi, (other !! n) as [[]|] eqn:Ho; try done.
      * exfalso. apply Hr. split; [done|by intros []].
      * exfalso. apply Ha. split; [done|by intros []].
Qed.

End names.
