(* ===== verification/HTTPAdapter.v ===== *)
(** * HTTP routes as Consul configuration ([internal/adapters/consul/http.go])

    [routeConsolidator] flattens the routes of a listener into one route per
    hostname, the most specific matches first;
    [httpRouteDiscoveryChain] turns a consolidated route into a service
    router with its splitters. *)

From S2P Require Import Prelude Core ConfigEntries.

(** ** Arithmetic *)

(** [float32]: IEEE binary32 of the standard library's specification. *)
Definition float32_of_int (z : Z) : spec_float := binary_normalize 24 128 z 0 false.
Definition float32_div (x y : spec_float) : spec_float := SFdiv 24 128 x y.
Definition float32_mul (x y : spec_float) : spec_float := SFmul 24 128 x y.

(** [hash/crc32] with the IEEE polynomial, bit by bit. *)
Fixpoint crc32_bits (n : nat) (crc : Z) : Z :=
  match n with
  | O => crc
  | S n =>
      let shifted := Z.shiftr crc 1 in
      crc32_bits n (if Z.testbit crc 0 then Z.lxor shifted 0xEDB88320 else shifted)
  end.

Fixpoint crc32_update (crc : Z) (s : string) : Z :=
  match s with
  | EmptyString => crc
  | String c s =>
      crc32_update (crc32_bits 8 (Z.lxor crc (Z.of_nat (Ascii.nat_of_ascii c)))) s
  end.

Definition crc32_IEEE (s : string) : Z := Z.lxor (crc32_update 0xFFFFFFFF s) 0xFFFFFFFF.

(** [strconv.FormatUint(_, 16)] of a 32-bit value: at most eight digits. *)
Definition hex_digit (d : Z) : Ascii.ascii :=
  if (d <? 10)%Z then Ascii.ascii_of_nat (48 + Z.to_nat d)
  else Ascii.ascii_of_nat (87 + Z.to_nat d).

Fixpoint hex_digits (n : nat) (v : Z) (acc : string) : string :=
  match n with
  | O => acc
  | S n =>
      let acc := String (hex_digit (v mod 16)%Z) acc in
      if (v / 16 =? 0)%Z then acc else hex_digits n (v / 16)%Z acc
  end.

Definition FormatUint16 (v : Z) : string := hex_digits 8 v "".

(** The checksum runs over the concatenation of the sorted hosts. *)
Definition hostsKey (hosts : list string) : string :=
  let hosts := merge_sort String.le hosts in
  FormatUint16 (crc32_IEEE (foldr String.append "" hosts)).

(** ** Filters and matches *)

(** The only caller-visible effect is the result: [a] is always a fresh map. *)
Definition mergeMaps (a b : gmap string string) : gmap string string := b ∪ a.

Definition httpRouteFiltersToDestinationPrefixRewrite (filters : list HTTPFilter) : string :=
  match List.find (λ f, match f_Type f, uf_Type (f_URLRewrite f) with
                        | HTTPURLRewriteFilterType, URLRewriteReplacePrefixMatchType => true
                        | _, _ => false
                        end) filters with
  | Some f => uf_ReplacePrefixMatch (f_URLRewrite f)
  | None => ""
  end.

Definition httpRouteFiltersToServiceRouteHeaderModifier (filters : list HTTPFilter) :
    HTTPHeaderModifiers :=
  foldl (λ modifier f,
    match f_Type f with
    | HTTPHeaderFilterType =>
        mkHTTPHeaderModifiers (mergeMaps (mod_Add modifier) (hf_Add (f_Header f)))
          (mergeMaps (mod_Set modifier) (hf_Set (f_Header f)))
          (mod_Remove modifier ++ hf_Remove (f_Header f))
    | _ => modifier
    end) (mkHTTPHeaderModifiers ∅ ∅ []) filters.

Definition convert_header_match (h : HTTPHeaderMatch) : option ServiceRouteHTTPMatchHeader :=
  match hm_Type h with
  | HTTPHeaderMatchExactType =>
      Some (mkServiceRouteHTTPMatchHeader (hm_Name h) false (hm_Value h) "" "" "")
  | HTTPHeaderMatchPrefixType =>
      Some (mkServiceRouteHTTPMatchHeader (hm_Name h) false "" (hm_Value h) "" "")
  | HTTPHeaderMatchSuffixType =>
      Some (mkServiceRouteHTTPMatchHeader (hm_Name h) false "" "" (hm_Value h) "")
  | HTTPHeaderMatchPresentType =>
      Some (mkServiceRouteHTTPMatchHeader (hm_Name h) true "" "" "" "")
  | HTTPHeaderMatchRegularExpressionType =>
      Some (mkServiceRouteHTTPMatchHeader (hm_Name h) false "" "" "" (hm_Value h))
  | HTTPHeaderMatchNoneType => None
  end.

Definition convert_query_match (q : HTTPQueryMatch) : option ServiceRouteHTTPMatchQueryParam :=
  match qm_Type q with
  | HTTPQueryMatchExactType =>
      Some (mkServiceRouteHTTPMatchQueryParam (qm_Name q) false (qm_Value q) "")
  | HTTPQueryMatchPresentType =>
      Some (mkServiceRouteHTTPMatchQueryParam (qm_Name q) true "" "")
  | HTTPQueryMatchRegularExpressionType =>
      Some (mkServiceRouteHTTPMatchQueryParam (qm_Name q) false "" (qm_Value q))
  | HTTPQueryMatchNoneType => None
  end.

Definition method_names (m : HTTPMethod) : list string :=
  match m with
  | HTTPMethodNone => []
  | HTTPMethodConnect => ["CONNECT"]
  | HTTPMethodDelete => ["DELETE"]
  | HTTPMethodGet => ["GET"]
  | HTTPMethodHead => ["HEAD"]
  | HTTPMethodOptions => ["OPTIONS"]
  | HTTPMethodPatch => ["PATCH"]
  | HTTPMethodPost => ["POST"]
  | HTTPMethodPut => ["PUT"]
  | HTTPMethodTrace => ["TRACE"]
  end.

Definition httpRouteMatchToServiceRouteHTTPMatch (m : HTTPMatch) : ServiceRouteHTTPMatch :=
  let value := pm_Value (m_Path m) in
  let '(exact, prefix, regex) :=
    match pm_Type (m_Path m) with
    | HTTPPathMatchExactType => (value, "", "")
    | HTTPPathMatchPrefixType => ("", value, "")
    | HTTPPathMatchRegularExpressionType => ("", "", value)
    | HTTPPathMatchNoneType => ("", "", "")
    end in
  mkServiceRouteHTTPMatch exact prefix regex (omap convert_header_match (m_Headers m))
    (omap convert_query_match (m_Query m)) (method_names (m_Method m)).

(** ** The discovery chain of a route *)

(** [totalWeight += service.Weight] on [int32]. *)
Definition total_weight (services : list HTTPService) : Z :=
  foldl (λ total s, int32_wrap (total + s_Weight s)) 0%Z services.

Definition make_split (totalWeight : Z) (s : HTTPService) : option ServiceSplit :=
  if decide (s_Weight s = 0%Z) then None
  else
    let weightPercentage := float32_div (float32_of_int (s_Weight s))
                              (float32_of_int totalWeight) in
    Some (mkServiceSplit (float32_mul weightPercentage (float32_of_int 100))
      (rs_Service (s_Service s)) (rs_ConsulNamespace (s_Service s))
      (httpRouteFiltersToServiceRouteHeaderModifier (s_Filters s))).

(** The routes and the splitter (if any) of one rule. *)
Definition rule_chain (route : HTTPRoute) (idx : nat) (rule : HTTPRouteRule) :
    list ServiceRoute * option ServiceSplitterConfigEntry :=
  let common := h_CommonRoute route in
  let modifier := httpRouteFiltersToServiceRouteHeaderModifier (r_Filters rule) in
  let prefixRewrite := httpRouteFiltersToDestinationPrefixRewrite (r_Filters rule) in
  let '(destination, modifier, splitter) :=
    match r_Services rule with
    | [service] =>
        let serviceModifier := httpRouteFiltersToServiceRouteHeaderModifier (s_Filters service) in
        (s_Service service,
         mkHTTPHeaderModifiers (mergeMaps (mod_Add modifier) (mod_Add serviceModifier))
           (mergeMaps (mod_Set modifier) (mod_Set serviceModifier))
           (mod_Remove modifier ++ mod_Remove serviceModifier),
         None)
    | services =>
        let destination := mkResolvedService (cr_Namespace common)
          (cr_Name common +:+ "-" +:+ strconv_Itoa (Z.of_nat idx)) in
        let splits := omap (make_split (total_weight services)) services in
        (destination, modifier,
         if bool_decide (0 < length splits) then
           Some (mkServiceSplitterConfigEntry (rs_Service destination)
             (rs_ConsulNamespace destination) (cr_Meta common) splits)
         else None)
    end in
  let dest := mkServiceRouteDestination (rs_Service destination)
    (rs_ConsulNamespace destination) prefixRewrite modifier in
  (match r_Matches rule with
   | [] => [mkServiceRoute None dest]
   | matches => (λ m, mkServiceRoute (Some (httpRouteMatchToServiceRouteHTTPMatch m)) dest)
                <$> matches
   end, splitter).

Definition httpRouteDiscoveryChain (route : HTTPRoute) :
    ServiceRouterConfigEntry * list ServiceSplitterConfigEntry :=
  let common := h_CommonRoute route in
  let chains := imap (rule_chain route) (h_Rules route) in
  (mkServiceRouterConfigEntry (cr_Name common) (cr_Namespace common) (cr_Meta common)
     (concat chains.*1),
   omap id chains.*2).

Definition httpServiceDefault (entry : ConfigEntry) (meta : gmap string string) :
    ServiceConfigEntry :=
  mkServiceConfigEntry (entry_Name entry) (entry_Namespace entry) "http" meta.

(** ** Consolidation *)

Definition compareHTTPRules (ruleA ruleB : HTTPMatch) : bool :=
  let path (m : HTTPMatch) := String.length (pm_Value (m_Path m)) in
  if bool_decide (path ruleA ≠ path ruleB) then bool_decide (path ruleB < path ruleA)
  else if bool_decide (length (m_Headers ruleA) ≠ length (m_Headers ruleB)) then
    bool_decide (length (m_Headers ruleB) < length (m_Headers ruleA))
  else bool_decide (length (m_Query ruleB) < length (m_Query ruleA)).

Record hostnameMatch : Type := mkHostnameMatch {
  hnm_match : HTTPMatch;
  hnm_filters : list HTTPFilter;
  hnm_services : list HTTPService
}.

Abbreviation routeConsolidator := (gmap string (list hostnameMatch)).

Definition newRouteConsolidator : routeConsolidator := ∅.

Definition default_match : HTTPMatch :=
  mkHTTPMatch (mkHTTPPathMatch HTTPPathMatchPrefixType "/") [] [] HTTPMethodNone.

(** The matches of a rule, the default match if it has none. *)
Definition rule_matches (rule : HTTPRouteRule) : list hostnameMatch :=
  let matches := match r_Matches rule with [] => [default_match] | ms => ms end in
  (λ m, mkHostnameMatch m (r_Filters rule) (r_Services rule)) <$> matches.

Definition consolidator_add (f : routeConsolidator) (route : HTTPRoute) : routeConsolidator :=
  foldl (λ f host,
    let matches := default [] (f !! host) in
    <[host := foldl (λ matches rule, matches ++ rule_matches rule) matches (h_Rules route)]> f)
    f (h_Hostnames route).

Section consolidate.
Context {MR : MapRange}.

Definition consolidated_route (gateway : ResolvedGateway) (hostname : string)
    (rules : list hostnameMatch) : HTTPRoute :=
  let rules := sort_SliceStable (λ a b, compareHTTPRules (hnm_match a) (hnm_match b)) rules in
  mkHTTPRoute
    (mkCommonRoute (rg_Meta gateway) (gid_Service (rg_ID gateway) +:+ "-" +:+ hostsKey [hostname])
       (gid_ConsulNamespace (rg_ID gateway)))
    [hostname]
    ((λ rule, mkHTTPRouteRule [hnm_match rule] (hnm_filters rule) (hnm_services rule)) <$> rules).

Definition consolidate (f : routeConsolidator) (gateway : ResolvedGateway) : list HTTPRoute :=
  (λ kv, consolidated_route gateway kv.1 kv.2) <$> range f.

(** ** What consolidation promises *)

(** All matches a route contributes for a hostname. *)
Definition route_matches (route : HTTPRoute) : list hostnameMatch :=
  h_Rules route ≫= rule_matches.
Definition occurrences (h : string) (route : HTTPRoute) : list hostnameMatch :=
  h_Hostnames route ≫= λ host, if decide (host = h) then route_matches route else [].

Definition collected (routes : list HTTPRoute) : routeConsolidator :=
  foldl consolidator_add newRouteConsolidator routes.

Lemma foldl_rule_matches (rules : list HTTPRouteRule) acc :
  foldl (λ matches rule, matches ++ rule_matches rule) acc rules
  = acc ++ (rules ≫= rule_matches).
Proof.
  revert acc. induction rules as [|rule rules IH]; intros acc; simpl.
  - by rewrite app_nil_r.
  - by rewrite IH, <- app_assoc.
Qed.

Lemma lookup_consolidator_add (f : routeConsolidator) route h :
  default [] (consolidator_add f route !! h) = default [] (f !! h) ++ occurrences h route ∧
  (is_Some (consolidator_add f route !! h) ↔ is_Some (f !! h) ∨ h ∈ h_Hostnames route).
Proof.
  unfold consolidator_add, occurrences.
  assert (∀ hosts (f : routeConsolidator),
    default [] (foldl (λ f host, <[host := foldl (λ matches rule, matches ++ rule_matches rule)
      (default [] (f !! host)) (h_Rules route)]> f) f hosts !! h)
    = default [] (f !! h) ++
      (hosts ≫= λ host, if decide (host = h) then route_matches route else []) ∧
    (is_Some (foldl (λ f host, <[host := foldl (λ matches rule, matches ++ rule_matches rule)
      (default [] (f !! host)) (h_Rules route)]> f) f hosts !! h)
     ↔ is_Some (f !! h) ∨ h ∈ hosts)) as Hgen; [|apply Hgen].
  clear f. induction hosts as [|host hosts IH]; intros f; simpl.
  { rewrite app_nil_r. split; [done|]. split; [by left|].
    by intros [?|[]%not_elem_of_nil]. }
  destruct (IH (<[host := foldl (λ matches rule, matches ++ rule_matches rule)
    (default [] (f !! host)) (h_Rules route)]> f)) as [-> ->].
  destruct (decide (host = h)) as [->|Hne].
  - rewrite lookup_insert_eq. simpl. rewrite foldl_rule_matches, <- app_assoc.
    split; [done|]. split; [intros _; right; left|]. intros _. left. by eexists.
  - rewrite lookup_insert_ne by done. split; [done|]. rewrite elem_of_cons. naive_solver.
Qed.

Lemma lookup_collected routes h :
  default [] (collected routes !! h) = (routes ≫= occurrences h) ∧
  (is_Some (collected routes !! h) ↔ ∃ r, r ∈ routes ∧ h ∈ h_Hostnames r).
Proof.
  unfold collected. induction routes as [|r routes IH] using rev_ind.
  { simpl. unfold newRouteConsolidator. rewrite lookup_empty. split; [done|].
    split; [by intros []|]. by intros (r & []%not_elem_of_nil & _). }
  rewrite foldl_snoc, bind_app. simpl. rewrite app_nil_r.
  destruct (lookup_consolidator_add (foldl consolidator_add newRouteConsolidator routes) r h)
    as [-> ->].
  destruct IH as [-> ->]. split; [done|]. setoid_rewrite elem_of_app.
  setoid_rewrite list_elem_of_singleton. split.
  - intros [(r' & ? & ?)|?]; [exists r'|exists r]; auto.
  - intros (r' & [? | ->] & ?); [left; by exists r'|by right].
Qed.

(** ** Precedence is a strict weak order *)

Lemma compareHTTPRules_spec a b :
  compareHTTPRules a b = true ↔
  String.length (pm_Value (m_Path b)) < String.length (pm_Value (m_Path a)) ∨
  (String.length (pm_Value (m_Path a)) = String.length (pm_Value (m_Path b)) ∧
   (length (m_Headers b) < length (m_Headers a) ∨
    (length (m_Headers a) = length (m_Headers b) ∧ length (m_Query b) < length (m_Query a)))).
Proof.
  unfold compareHTTPRules. repeat case_bool_decide; split; intros; try done; try lia.
Qed.

Lemma compareHTTPRules_asym a b : compareHTTPRules a b = true → compareHTTPRules b a = false.
Proof.
  intros Hab%compareHTTPRules_spec. apply not_true_iff_false.
  rewrite compareHTTPRules_spec. lia.
Qed.

Lemma compareHTTPRules_trans a b c :
  compareHTTPRules b a = false → compareHTTPRules c b = false → compareHTTPRules c a = false.
Proof. rewrite <- !not_true_iff_false, !compareHTTPRules_spec. lia. Qed.

(** ** The specification

    Written without the operations above.  How specific a match is: the length
    of its path, then its number of headers, then its number of query
    parameters. *)
Definition specificity (m : HTTPMatch) : nat * nat * nat :=
  (String.length (pm_Value (m_Path m)), length (m_Headers m), length (m_Query m)).

(** Lexicographic on the three numbers: [a] is at least as specific as [b]. *)
Definition at_least_as_specific (a b : HTTPMatch) : Prop :=
  let '(path_a, headers_a, query_a) := specificity a in
  let '(path_b, headers_b, query_b) := specificity b in
  path_b < path_a ∨
  (path_b = path_a ∧ (headers_b < headers_a ∨ (headers_b = headers_a ∧ query_b ≤ query_a))).

(** The rules wanted for hostname [h]: for every route, every time it lists
    [h], every rule of it and every match of that rule, one rule with that
    match alone and the filters and services of its rule; a rule without
    matches counts as one that matches every path. *)
Definition wanted_rules (h : string) (routes : list HTTPRoute) : list HTTPRouteRule :=
  route ← routes; host ← h_Hostnames route;
  if decide (host = h) then
    rule ← h_Rules route;
    m ← (if decide (r_Matches rule = []) then
           [mkHTTPMatch (mkHTTPPathMatch HTTPPathMatchPrefixType "/") [] [] HTTPMethodNone]
         else r_Matches rule);
    [mkHTTPRouteRule [m] (r_Filters rule) (r_Services rule)]
  else [].

(** The rules of which every match has this specificity. *)
Definition rules_of_specificity (n : nat * nat * nat) (rules : list HTTPRouteRule) :
    list HTTPRouteRule :=
  filter (λ rule, specificity <$> r_Matches rule = [n]) rules.

(** The rule a collected match becomes. *)
Definition flat_rule (hm : hostnameMatch) : HTTPRouteRule :=
  mkHTTPRouteRule [hnm_match hm] (hnm_filters hm) (hnm_services hm).

Lemma wanted_rules_spec h routes :
  wanted_rules h routes = flat_rule <$> (routes ≫= occurrences h).
Proof.
  unfold wanted_rules, occurrences, route_matches, rule_matches.
  rewrite list_fmap_concat_bind. apply list_bind_ext; [|done]. intros route.
  rewrite list_fmap_concat_bind. apply list_bind_ext; [|done]. intros host.
  destruct (decide (host = h)); [|done].
  rewrite list_fmap_concat_bind. apply list_bind_ext; [|done]. intros rule.
  rewrite <- list_fmap_compose. destruct (r_Matches rule) as [|m ms]; [done|].
  rewrite decide_False by done.
  generalize (m :: ms). intros l. induction l as [|m' l IH]; [done|].
  cbn. f_equal.
Qed.

Lemma not_compare_at_least a b : compareHTTPRules b a = false ↔ at_least_as_specific a b.
Proof.
  rewrite <- not_true_iff_false, compareHTTPRules_spec.
  unfold at_least_as_specific, specificity. lia.
Qed.

Lemma consolidated_rules_sorted gateway h rules :
  StronglySorted at_least_as_specific
    (h_Rules (consolidated_route gateway h rules) ≫= r_Matches).
Proof.
  cbn. set (sorted := sort_SliceStable _ rules).
  assert ((flat_rule <$> sorted) ≫= r_Matches = hnm_match <$> sorted) as Hms.
  { induction sorted as [|m l IH]; [done|]. cbn. f_equal. exact IH. }
  unfold flat_rule in Hms. rewrite Hms.
  apply (StronglySorted_fmap _ (not_less (λ a b, compareHTTPRules (hnm_match a) (hnm_match b)))).
  - intros a b Hab. by apply not_compare_at_least.
  - apply sort_SliceStable_sorted.
    + intros a b. apply compareHTTPRules_asym.
    + intros a b c. apply compareHTTPRules_trans.
Qed.

Lemma filter_flat_rule n l :
  rules_of_specificity n (flat_rule <$> l)
  = flat_rule <$> filter (λ hm, specificity (hnm_match hm) = n) l.
Proof.
  unfold rules_of_specificity. induction l as [|hm l IH]; [done|].
  rewrite fmap_cons, !filter_cons, IH. cbn.
  destruct (decide (specificity (hnm_match hm) = n)) as [->|Hne].
  - by rewrite decide_True.
  - rewrite decide_False; [done|]. by intros [=].
Qed.

Lemma consolidated_rules_stable gateway h rules n :
  rules_of_specificity n (h_Rules (consolidated_route gateway h rules))
  = rules_of_specificity n (flat_rule <$> rules).
Proof.
  transitivity (rules_of_specificity n (flat_rule <$> sort_SliceStable
    (λ a b, compareHTTPRules (hnm_match a) (hnm_match b)) rules)); [done|].
  rewrite !filter_flat_rule. f_equal. apply sort_SliceStable_stable.
  intros a b Ha Hb. apply not_compare_at_least.
  unfold at_least_as_specific. rewrite Ha, Hb. destruct n as [[? ?] ?]. lia.
Qed.

(** C33: consolidation keeps every match, most specific first.  The
    consolidated routes have pairwise different hostnames, one route for each
    hostname that occurs in the input and none else, named after the gateway
    and the hostname; the rules of the route for a hostname are, up to order,
    exactly the rules wanted for it: one for each match of each rule of each
    route, each time it lists the hostname (and one that matches every path
    for a rule without matches), with the filters and services of that rule.
    They are ordered by the length of the path, then the number of headers,
    then the number of query parameters, the largest first, and rules equal in
    all three keep the order of the input.  The iteration order of the map
    does not matter. *)
Theorem consolidation_keeps_all_matches (gateway : ResolvedGateway) (routes : list HTTPRoute) :
  let out := consolidate (collected routes) gateway in
  NoDup (h_Hostnames <$> out) ∧
  (∀ r, r ∈ out → ∃ h, h_Hostnames r = [h] ∧
     (∃ r0, r0 ∈ routes ∧ h ∈ h_Hostnames r0) ∧
     h_CommonRoute r = mkCommonRoute (rg_Meta gateway)
       (gid_Service (rg_ID gateway) +:+ "-" +:+ hostsKey [h])
       (gid_ConsulNamespace (rg_ID gateway)) ∧
     h_Rules r ≡ₚ wanted_rules h routes ∧
     StronglySorted at_least_as_specific (h_Rules r ≫= r_Matches) ∧
     (∀ n, rules_of_specificity n (h_Rules r) = rules_of_specificity n (wanted_rules h routes))) ∧
  (∀ h r0, r0 ∈ routes → h ∈ h_Hostnames r0 → ∃ r, r ∈ out ∧ h_Hostnames r = [h]).
Proof.
  simpl. unfold consolidate. split_and!.
  - rewrite <- list_fmap_compose.
    assert ((h_Hostnames ∘ (λ kv, consolidated_route gateway kv.1 kv.2)) <$>
      range (collected routes) = (λ h, [h]) <$> (range (collected routes)).*1) as ->.
    { rewrite <- list_fmap_compose. by apply list_fmap_ext. }
    apply NoDup_fmap_2; [by intros ?? [=]|]. apply NoDup_range_keys.
  - intros r Hr. apply list_elem_of_fmap in Hr as ([h rules] & -> & Hin). cbn [fst snd].
    apply elem_of_range in Hin. destruct (lookup_collected routes h) as [Hdef Hsome].
    rewrite Hin in Hdef. simpl in Hdef. subst rules.
    exists h. split; [done|]. split; [apply Hsome; eauto|]. split; [done|].
    rewrite wanted_rules_spec. split_and!.
    + apply fmap_Permutation, sort_SliceStable_perm.
    + apply consolidated_rules_sorted.
    + intros n. apply consolidated_rules_stable.
  - intros h r0 Hr0 Hh. destruct (lookup_collected routes h) as [_ Hsome].
    destruct (proj2 Hsome) as [rules Hrules]; [eauto|].
    exists (consolidated_route gateway h rules). split; [|done].
    apply list_elem_of_fmap. exists (h, rules). split; [done|]. by apply elem_of_range.
Qed.

End consolidate.

(** Two routes share a hostname; the second has a rule without matches and one
    whose match has a header. *)
Definition witness_header : HTTPHeaderMatch :=
  mkHTTPHeaderMatch HTTPHeaderMatchExactType "x-canary" "1".
Definition witness_path (p : string) (hs : list HTTPHeaderMatch) : HTTPMatch :=
  mkHTTPMatch (mkHTTPPathMatch HTTPPathMatchPrefixType p) hs [] HTTPMethodNone.
Definition witness_service (n : string) : HTTPService :=
  mkHTTPService (mkResolvedService "" n) 1 [].
Definition witness_filter : HTTPFilter :=
  mkHTTPFilter HTTPHeaderFilterType (mkHTTPHeaderFilter ∅ ∅ ["cookie"]) zeroRedirectFilter
    zeroURLRewriteFilter.
Definition witness_routes : list HTTPRoute :=
  [mkHTTPRoute (mkCommonRoute ∅ "first" "") ["a.example"]
     [mkHTTPRouteRule [witness_path "/v1" []; witness_path "/" []] [] [witness_service "one"]];
   mkHTTPRoute (mkCommonRoute ∅ "second" "") ["a.example"; "b.example"]
     [mkHTTPRouteRule [] [witness_filter] [witness_service "two"];
      mkHTTPRouteRule [witness_path "/v1" [witness_header]] [] [witness_service "three"]]].
Definition witness_gateway : ResolvedGateway :=
  mkResolvedGateway (mkGatewayID "ns" "gw") ∅ [] None.

(** The rules of [a.example]: the longer paths first, of these the one with the
    header first, and the two for ["/"] in the order of the routes. *)
Lemma consolidation_keeps_all_matches_witness :
  (∀ r, r ∈ consolidate (MR := canonical_range)
     (collected witness_routes) witness_gateway →
     ∃ h, h_Hostnames r = [h] ∧ h_Rules r ≡ₚ wanted_rules h witness_routes) ∧
  h_Rules <$> List.filter (λ r, bool_decide (h_Hostnames r = ["a.example"]))
    (consolidate (MR := canonical_range) (collected witness_routes) witness_gateway)
  = [[mkHTTPRouteRule [witness_path "/v1" [witness_header]] [] [witness_service "three"];
      mkHTTPRouteRule [witness_path "/v1" []] [] [witness_service "one"];
      mkHTTPRouteRule [witness_path "/" []] [] [witness_service "one"];
      mkHTTPRouteRule [witness_path "/" []] [witness_filter] [witness_service "two"]]].
Proof.
  split; [|vm_compute; reflexivity].
  destruct (consolidation_keeps_all_matches (MR := canonical_range)
    witness_gateway witness_routes) as (_ & Hr & _).
  intros r Hin. destruct (Hr r Hin) as (h & Hh & _ & _ & Hp & _).
  exact (ex_intro _ h (conj Hh Hp)).
Defined.

(** ** Weights *)

(** Weights as the Gateway API admits them: at most 10^6, at most 16 backends. *)
Definition weights_in_range (services : list HTTPService) : Prop :=
  length services ≤ 16 ∧ Forall (λ s, (0 ≤ s_Weight s ≤ 1000000)%Z) services.

Lemma total_weight_from services acc :
  Forall (λ s, (0 ≤ s_Weight s ≤ 1000000)%Z) services → (0 ≤ acc)%Z →
  (acc + 1000000 * Z.of_nat (length services) < 2 ^ 31)%Z →
  foldl (λ total s, int32_wrap (total + s_Weight s)) acc services
  = (acc + foldr (λ s t, s_Weight s + t) 0 services)%Z.
Proof.
  revert acc. induction services as [|s services IH]; intros acc Hall Hacc Hlt; simpl; [lia|].
  apply Forall_cons in Hall as [Hs Hall]. simpl length in Hlt.
  rewrite int32_wrap_id by (unfold is_int32; lia). rewrite IH; [lia|done|lia|lia].
Qed.

Lemma elem_weight_le services s :
  Forall (λ s, (0 ≤ s_Weight s ≤ 1000000)%Z) services → s ∈ services →
  (s_Weight s ≤ foldr (λ s t, s_Weight s + t) 0 services)%Z.
Proof.
  induction 1 as [|x services Hx Hall IH]; intros Hs; [by apply not_elem_of_nil in Hs|].
  assert (0 ≤ foldr (λ s t, s_Weight s + t) 0 services)%Z as Hpos.
  { clear -Hall. induction Hall; simpl; lia. }
  simpl. apply elem_of_cons in Hs as [-> |Hs]; [lia|]. specialize (IH Hs). lia.
Qed.

(** The rule's traffic is split: it does not have exactly one service. *)
Definition split_rule (rule : HTTPRouteRule) : Prop := length (r_Services rule) ≠ 1.

(** The chain of such a rule. *)
Lemma rule_chain_split route idx rule :
  split_rule rule →
  let name := cr_Name (h_CommonRoute route) +:+ "-" +:+ strconv_Itoa (Z.of_nat idx) in
  let splits := omap (make_split (total_weight (r_Services rule))) (r_Services rule) in
  let dest := mkServiceRouteDestination name (cr_Namespace (h_CommonRoute route))
    (httpRouteFiltersToDestinationPrefixRewrite (r_Filters rule))
    (httpRouteFiltersToServiceRouteHeaderModifier (r_Filters rule)) in
  rule_chain route idx rule =
    (match r_Matches rule with
     | [] => [mkServiceRoute None dest]
     | matches => (λ m, mkServiceRoute (Some (httpRouteMatchToServiceRouteHTTPMatch m)) dest)
                  <$> matches
     end,
     if bool_decide (0 < length splits) then
       Some (mkServiceSplitterConfigEntry name (cr_Namespace (h_CommonRoute route))
         (cr_Meta (h_CommonRoute route)) splits)
     else None).
Proof. unfold split_rule, rule_chain. by destruct (r_Services rule) as [|? []]. Qed.

Lemma split_services total services :
  split_Service <$> omap (make_split total) services
  = (λ s, rs_Service (s_Service s))
      <$> List.filter (λ s, negb (bool_decide (s_Weight s = 0%Z))) services.
Proof.
  induction services as [|s services IH]; [done|]. cbn [omap list_omap List.filter].
  unfold make_split at 1. destruct (decide (s_Weight s = 0%Z)) as [Hz|Hz].
  - by rewrite bool_decide_true.
  - rewrite bool_decide_false by done. cbn. by f_equal.
Qed.

(** C40: traffic splitting never divides by zero or overflows.  For weights the
    Gateway API admits, the 32-bit total is the true sum; a rule whose traffic
    is split gets a splitter iff one of its weights is positive, named like
    the virtual service its routes point to; the splitter has one split per
    service of positive weight, in order, and each of these is at most the
    total it is divided by. *)
Theorem splits_follow_weights (route : HTTPRoute) (idx : nat) (rule : HTTPRouteRule) :
  split_rule rule → weights_in_range (r_Services rule) →
  total_weight (r_Services rule) = foldr (λ s t, s_Weight s + t)%Z 0%Z (r_Services rule) ∧
  (∀ s, s ∈ r_Services rule → s_Weight s ≠ 0%Z →
     (0 < s_Weight s ≤ total_weight (r_Services rule))%Z) ∧
  (let (routes, splitter) := rule_chain route idx rule in
   (∀ sr, sr ∈ routes → srd_Service (sr_Destination sr)
      = cr_Name (h_CommonRoute route) +:+ "-" +:+ strconv_Itoa (Z.of_nat idx)) ∧
   match splitter with
   | Some sp =>
       splitter_Name sp = cr_Name (h_CommonRoute route) +:+ "-" +:+ strconv_Itoa (Z.of_nat idx) ∧
       split_Service <$> splitter_Splits sp
       = (λ s, rs_Service (s_Service s))
           <$> List.filter (λ s, negb (bool_decide (s_Weight s = 0%Z))) (r_Services rule) ∧
       ∃ s, s ∈ r_Services rule ∧ (0 < s_Weight s)%Z
   | None => ∀ s, s ∈ r_Services rule → s_Weight s = 0%Z
   end).
Proof.
  intros Hsplit [Hlen Hall].
  assert (total_weight (r_Services rule)
          = foldr (λ s t, s_Weight s + t)%Z 0%Z (r_Services rule)) as Htotal.
  { unfold total_weight. rewrite total_weight_from; [done|done|lia|lia]. }
  split; [done|]. split.
  { intros s Hs Hne. rewrite Htotal. pose proof (elem_weight_le _ _ Hall Hs).
    rewrite Forall_forall in Hall. specialize (Hall s Hs). lia. }
  rewrite rule_chain_split by done. set (services := r_Services rule) in *.
  pose proof (split_services (total_weight services) services) as Hsplits.
  split.
  { intros sr. destruct (r_Matches rule) as [|m ms].
    - by intros ->%list_elem_of_singleton.
    - intros (m' & -> & _)%list_elem_of_fmap. done. }
  case_bool_decide as Hl.
  - simpl. split; [done|]. split; [done|].
    destruct (List.filter (λ s, negb (bool_decide (s_Weight s = 0%Z))) services) as [|s rest] eqn:Hf.
    { simpl in Hsplits. apply fmap_nil_inv in Hsplits. rewrite Hsplits in Hl. simpl in Hl. lia. }
    assert (In s (List.filter (λ s, negb (bool_decide (s_Weight s = 0%Z))) services)) as Hin
      by (rewrite Hf; by left).
    apply filter_In in Hin as [Hin Hw]. apply negb_true_iff, bool_decide_eq_false in Hw.
    apply list_elem_of_In in Hin. exists s. split; [done|].
    rewrite Forall_forall in Hall. specialize (Hall s Hin). lia.
  - intros s Hs. destruct (decide (s_Weight s = 0%Z)) as [|Hw]; [done|]. exfalso. apply Hl.
    assert (In s (List.filter (λ s, negb (bool_decide (s_Weight s = 0%Z))) services)) as Hin.
    { apply filter_In. split; [by apply list_elem_of_In|]. by rewrite bool_decide_false. }
    apply (f_equal length) in Hsplits. rewrite !length_fmap in Hsplits. rewrite Hsplits.
    destruct (List.filter _ services); [done|simpl; lia].
Qed.

Definition witness_split : HTTPRouteRule :=
  mkHTTPRouteRule [default_match] []
    [mkHTTPService (mkResolvedService "" "blue") 1 [];
     mkHTTPService (mkResolvedService "" "off") 0 [];
     mkHTTPService (mkResolvedService "" "green") 3 []].

(** One quarter and three quarters: 25 and 75 percent exactly. *)
Lemma splits_follow_weights_witness :
  total_weight (r_Services witness_split) = 4%Z ∧
  (λ sp, split_Weight <$> splitter_Splits sp) <$>
    (rule_chain (mkHTTPRoute (mkCommonRoute ∅ "route" "") ["*"] [witness_split]) 0 witness_split).2
  = Some [float32_of_int 25; float32_of_int 75].
Proof.
  split; [|vm_compute; reflexivity].
  destruct (splits_follow_weights
    (mkHTTPRoute (mkCommonRoute ∅ "route" "") ["*"] [witness_split]) 0 witness_split)
    as (H1 & _).
  - discriminate.
  - split; [simpl; lia|]. repeat constructor; simpl; lia.
  - rewrite H1. reflexivity.
Defined.
