(* ===== verification/SyncAdapter.v ===== *)
(** * The Consul sync adapter ([internal/adapters/consul/sync.go])

    [Sync] writes the configuration entries of a gateway to Consul and removes
    the ones a previous sync wrote that are no longer wanted; [Clear] removes
    them all.  The adapter remembers what it wrote for each gateway.

    Consul is outside the repository.  A write is a [ConfigWrite]; whether
    Consul accepts it is the oracle [refused], which may depend on the writes
    attempted before.  Each operation returns the list of writes it attempted,
    in order, so that ordering and partial failure are explicit;
    [apply_writes] gives the effect of accepted writes on the stored entries.
    The intentions reconciler is used through the interface
    [IntentionsReconcilers]. *)

From S2P Require Import Prelude Errors Core ConfigEntries GatewayValidator HTTPAdapter.

(** ** From resolved gateways to entries *)

Section chain.
Context {MR : MapRange}.

Definition routeDiscoveryChain (route : ResolvedRoute) :
    IngressService * option ServiceRouterConfigEntry *
    option ConfigEntryIndex * option ConfigEntryIndex :=
  match route with
  | ResolvedHTTP httpRoute =>
      let meta := cr_Meta (h_CommonRoute httpRoute) in
      let splitters := NewConfigEntryIndex ServiceSplitter in
      let defaults := NewConfigEntryIndex ServiceDefaults in
      let (router, splits) := httpRouteDiscoveryChain httpRoute in
      let serviceDefault := httpServiceDefault (EntryRouter router) meta in
      let defaults := ConfigEntryIndex_Add defaults (Some (EntryDefaults serviceDefault)) in
      let '(splitters, defaults) := foldl (λ acc split,
        let '(splitters, defaults) := acc in
        (ConfigEntryIndex_Add splitters (Some (EntrySplitter split)),
         if bool_decide (splitter_Name split ≠ default_Name serviceDefault) then
           ConfigEntryIndex_Add defaults
             (Some (EntryDefaults (httpServiceDefault (EntrySplitter split) meta)))
         else defaults)) (splitters, defaults) splits in
      (mkIngressService (router_Name router) (h_Hostnames httpRoute)
         (cr_Namespace (h_CommonRoute httpRoute)), Some router, Some splitters, Some defaults)
  | ResolvedTCP tcpRoute =>
      (mkIngressService (rs_Service (t_Service tcpRoute)) []
         (rs_ConsulNamespace (t_Service tcpRoute)), None, None, None)
  end.

Definition flattenHTTPRoutes (gateway : ResolvedGateway) (resolved : list ResolvedRoute) :
    list ResolvedRoute :=
  let '(consolidator, unmerged) := foldl (λ acc route,
    let '(consolidator, unmerged) := acc in
    match route with
    | ResolvedHTTP r => (consolidator_add consolidator r, unmerged)
    | ResolvedTCP _ => (consolidator, unmerged ++ [route])
    end) (newRouteConsolidator, []) resolved in
  unmerged ++ (ResolvedHTTP <$> consolidate consolidator gateway).

Definition filterTCPRoutes (routes : list ResolvedRoute) : list ResolvedRoute :=
  (foldl (λ acc route,
    let '(filtered, found) := acc in
    match route with
    | ResolvedTCP _ => if (found : bool) then (filtered, found) else (filtered ++ [route], true)
    | ResolvedHTTP _ => (filtered ++ [route], found)
    end) ([], false) routes).1.

Definition mergeRoutes (gateway : ResolvedGateway) (routes : list ResolvedRoute) :
    list ResolvedRoute := filterTCPRoutes (flattenHTTPRoutes gateway routes).

Definition ingress_tls (tls : TLSParams) : IngressTLSConfig :=
  mkIngressTLSConfig
    (match tls_Certificates tls with
     | cert :: _ => Some (mkGatewayTLSSDSConfig "sds-cluster" cert)
     | [] => None
     end)
    (if decide (tls_MinVersion tls = "") then "TLSv1_2" else tls_MinVersion tls)
    (tls_MaxVersion tls)
    (if bool_decide (0 < length (tls_CipherSuites tls)) then tls_CipherSuites tls
     else DefaultTLSCipherSuites).

(** The three indexes of a gateway. *)
Record Entries : Type := mkEntries {
  en_routers : ConfigEntryIndex;
  en_splitters : ConfigEntryIndex;
  en_defaults : ConfigEntryIndex
}.

Definition no_entries : Entries :=
  mkEntries (NewConfigEntryIndex ServiceRouter) (NewConfigEntryIndex ServiceSplitter)
    (NewConfigEntryIndex ServiceDefaults).

Definition add_route (acc : list IngressService * Entries) (route : ResolvedRoute) :
    list IngressService * Entries :=
  let '(services, en) := acc in
  let '(service, router, splits, serviceDefaults) := routeDiscoveryChain route in
  (services ++ [service],
   mkEntries (ConfigEntryIndex_Add (en_routers en) (EntryRouter <$> router))
     (ConfigEntryIndex_Merge (en_splitters en) splits)
     (ConfigEntryIndex_Merge (en_defaults en) serviceDefaults)).

Definition add_listener (gateway : ResolvedGateway) (acc : list IngressListener * Entries)
    (listener : ResolvedListener) : list IngressListener * Entries :=
  let '(listeners, en) := acc in
  let '(services, en) := foldl add_route ([], en) (mergeRoutes gateway (rl_Routes listener)) in
  (if bool_decide (0 < length services) then
     listeners ++ [mkIngressListener (rl_Port listener) (rl_Protocol listener) services
                     (ingress_tls (rl_TLS listener))]
   else listeners, en).

Definition discoveryChain (gateway : ResolvedGateway) : IngressGatewayConfigEntry * Entries :=
  let '(listeners, en) := foldl (add_listener gateway) ([], no_entries) (rg_Listeners gateway) in
  (mkIngressGatewayConfigEntry (gid_Service (rg_ID gateway))
     (gid_ConsulNamespace (rg_ID gateway)) (rg_Meta gateway) listeners
     (rg_MaxConnections gateway), en).

End chain.

(** ** Writes *)

Inductive ConfigWrite : Type :=
  | SetEntry (entry : ConfigEntry)
  | DeleteEntry (kind name namespace : string).

(** A key of the Consul configuration store. *)
Abbreviation EntryKey := (string * string * string)%type.
Definition key_of (e : ConfigEntry) : EntryKey := (GetKind e, entry_Name e, entry_Namespace e).

Definition apply_write (store : gmap EntryKey ConfigEntry) (w : ConfigWrite) :
    gmap EntryKey ConfigEntry :=
  match w with
  | SetEntry e => <[key_of e := e]> store
  | DeleteEntry kind name namespace => delete (kind, name, namespace) store
  end.

Definition delete_of (e : ConfigEntry) : ConfigWrite :=
  DeleteEntry (GetKind e) (entry_Name e) (entry_Namespace e).

(** The intentions reconciler of a gateway. *)
Class IntentionsReconcilers : Type := {
  Intentions : Type;
  NewIntentionsReconciler : IngressGatewayConfigEntry → Intentions;
  SetIngressServices : Intentions → IngressGatewayConfigEntry → Intentions;
  Reconcile : Intentions → Intentions * option error
}.

Record syncState : Type := mkSyncState {
  ss_ingress : IngressGatewayConfigEntry;
  ss_entries : Entries
}.

Section adapter.
Context {MR : MapRange} {IR : IntentionsReconcilers}.
(** Consul's answer to a write, given the writes attempted before it. *)
Context (refused : list ConfigWrite → ConfigWrite → option error).

Record SyncAdapter : Type := mkSyncAdapter {
  sa_sync : gmap GatewayID syncState;
  sa_intentions : gmap GatewayID Intentions
}.

(** Attempt every write of a batch; the errors are collected. *)
Fixpoint attempt (history : list ConfigWrite) (ws : list ConfigWrite) :
    list ConfigWrite * list error :=
  match ws with
  | [] => (history, [])
  | w :: ws =>
      let (history', errs) := attempt (history ++ [w]) ws in
      (history', match refused history w with Some e => e :: errs | None => errs end)
  end.

(** [multierror.Append] over the errors of a batch: nil when there is none. *)
Definition batch_error (errs : list error) : option error :=
  match errs with [] => None | _ => Some (ErrMulti errs) end.

Definition setConfigEntries (history : list ConfigWrite) (entries : list ConfigEntry) :
    list ConfigWrite * option error :=
  let (history, errs) := attempt history (SetEntry <$> entries) in
  (history, batch_error errs).

Definition deleteConfigEntries (history : list ConfigWrite) (entries : list ConfigEntry) :
    list ConfigWrite * option error :=
  let (history, errs) := attempt history (delete_of <$> entries) in
  (history, batch_error errs).

Definition entriesForGateway (a : SyncAdapter) (id : GatewayID) :
    option IngressGatewayConfigEntry * Entries :=
  match sa_sync a !! id with
  | Some existing => (Some (ss_ingress existing), ss_entries existing)
  | None => (None, no_entries)
  end.

Definition setEntriesForGateway (a : SyncAdapter) (id : GatewayID)
    (ingress : IngressGatewayConfigEntry) (en : Entries) : SyncAdapter :=
  mkSyncAdapter (<[id := mkSyncState ingress en]> (sa_sync a)) (sa_intentions a).

Definition syncIntentionsForGateway (a : SyncAdapter) (id : GatewayID)
    (ingress : IngressGatewayConfigEntry) : SyncAdapter * option error :=
  let ir := match sa_intentions a !! id with
            | None => NewIntentionsReconciler ingress
            | Some ir => SetIngressServices ir ingress
            end in
  let (ir, err) := Reconcile ir in
  (mkSyncAdapter (sa_sync a) (<[id := ir]> (sa_intentions a)), err).

Definition stopIntentionSyncForGateway (a : SyncAdapter) (id : GatewayID) : SyncAdapter :=
  mkSyncAdapter (sa_sync a) (delete id (sa_intentions a)).

(** A phase of a sync: one batch, with the text its errors are wrapped in. *)
Inductive phase : Type :=
  | SetPhase (entries : list ConfigEntry) (text : string)
  | DeletePhase (entries : list ConfigEntry) (text : string).

Definition run_phase (history : list ConfigWrite) (p : phase) :
    list ConfigWrite * option error :=
  match p with
  | SetPhase entries text =>
      let (history, err) := setConfigEntries history entries in
      (history, ErrWrap text <$> err)
  | DeletePhase entries text =>
      let (history, err) := deleteConfigEntries history entries in
      (history, ErrWrap text <$> err)
  end.

(** The phases run in order until one of them fails. *)
Fixpoint run_phases (history : list ConfigWrite) (ps : list phase) :
    list ConfigWrite * option error :=
  match ps with
  | [] => (history, None)
  | p :: ps =>
      match run_phase history p with
      | (history, Some e) => (history, Some e)
      | (history, None) => run_phases history ps
      end
  end.

Definition clear_phases (ingress : IngressGatewayConfigEntry) (existing : Entries) : list phase :=
  [DeletePhase [EntryIngress ingress] "error removing ingress config entry: ";
   DeletePhase (ConfigEntryIndex_ToArray (en_routers existing))
     "error removing service router config entries: ";
   DeletePhase (ConfigEntryIndex_ToArray (en_splitters existing))
     "error removing service splitter config entries: ";
   DeletePhase (ConfigEntryIndex_ToArray (en_defaults existing))
     "error removing service defaults config entries: "].

(** The result holds the adapter, the attempted writes and the error. *)
Definition Clear (a : SyncAdapter) (id : GatewayID) :
    SyncAdapter * list ConfigWrite * option error :=
  match entriesForGateway a id with
  | (None, _) => (a, [], None)
  | (Some ingress, existing) =>
      match run_phases [] (clear_phases ingress existing) with
      | (history, Some e) => (a, history, Some e)
      | (history, None) =>
          let a := stopIntentionSyncForGateway a id in
          (mkSyncAdapter (delete id (sa_sync a)) (sa_intentions a), history, None)
      end
  end.

Definition sync_phases (ingress : IngressGatewayConfigEntry) (computed existing : Entries) :
    list phase :=
  let removed (select : Entries → ConfigEntryIndex) :=
    ConfigEntryIndex_ToArray (ConfigEntryIndex_Difference (select computed) (select existing)) in
  [SetPhase (ConfigEntryIndex_ToArray (en_defaults computed))
     "error adding service defaults config entries: ";
   SetPhase (ConfigEntryIndex_ToArray (en_routers computed))
     "error adding service router config entries: ";
   SetPhase (ConfigEntryIndex_ToArray (en_splitters computed))
     "error adding service splitter config entries: ";
   SetPhase [EntryIngress ingress] "error adding ingress config entry: ";
   DeletePhase (removed en_routers) "error removing service router config entries: ";
   DeletePhase (removed en_splitters) "error removing service splitter config entries: ";
   DeletePhase (removed en_defaults) "error removing service defaults config entries: "].

(** The result holds the adapter, the attempted writes, "did sync" and the error. *)
Definition Sync (a : SyncAdapter) (gateway : ResolvedGateway) :
    SyncAdapter * list ConfigWrite * bool * option error :=
  let (ingress, computed) := discoveryChain gateway in
  let (_, existing) := entriesForGateway a (rg_ID gateway) in
  match run_phases [] (sync_phases ingress computed existing) with
  | (history, Some e) => (a, history, false, Some e)
  | (history, None) =>
      let a := setEntriesForGateway a (rg_ID gateway) ingress computed in
      match syncIntentionsForGateway a (rg_ID gateway) ingress with
      | (a, Some e) =>
          (a, history, false,
           Some (ErrWrap "error syncing service intention config entries: " e))
      | (a, None) => (a, history, true, None)
      end
  end.

(** ** The effect of a batch *)

Definition entry_key (kind ns name : string) : EntryKey := (kind, name, ns).

#[local] Instance entry_key_inj kind ns : Inj (=) (=) (entry_key kind ns).
Proof. by intros ?? [=]. Qed.

(** The keys of an index whose entries all live in one namespace. *)
Definition index_map (ns : string) (i : ConfigEntryIndex) : gmap EntryKey ConfigEntry :=
  kmap (entry_key (cei_kind i) ns) (cei_idx i).

(** Entries are filed under their own key. *)
Definition index_in (ns : string) (i : ConfigEntryIndex) : Prop :=
  ∀ name e, cei_idx i !! name = Some e → key_of e = (cei_kind i, name, ns).

Lemma lookup_index_map ns i kind name ns' :
  index_map ns i !! (kind, name, ns') =
    if decide (ns' = ns) then if decide (kind = cei_kind i) then cei_idx i !! name else None
    else None.
Proof.
  unfold index_map. destruct (decide (ns' = ns)) as [->|Hns]; [destruct (decide _) as [->|Hk]|].
  - change (cei_kind i, name, ns) with (entry_key (cei_kind i) ns name).
    by rewrite lookup_kmap by apply _.
  - apply lookup_kmap_None; [apply _|]. by intros n [= -> ->].
  - apply lookup_kmap_None; [apply _|]. by intros n [= -> -> ->].
Qed.

Lemma apply_sets ns i store :
  index_in ns i →
  foldl apply_write store (SetEntry <$> ConfigEntryIndex_ToArray i) = index_map ns i ∪ store.
Proof.
  intros Hi. unfold ConfigEntryIndex_ToArray.
  assert (∀ l, NoDup l.*1 → (∀ name e, (name, e) ∈ l → key_of e = entry_key (cei_kind i) ns name) →
    foldl apply_write store (SetEntry <$> l.*2) =
    kmap (entry_key (cei_kind i) ns) (list_to_map l : gmap string ConfigEntry)
      ∪ store) as Hl.
  { intros l. revert store. induction l as [|[n e] l IH]; intros store Hnd Hk; simpl.
    - by rewrite kmap_empty, (left_id_L ∅ (∪)).
    - apply NoDup_cons in Hnd as [Hn Hnd].
      rewrite IH; [|done|intros; apply Hk; by right].
      rewrite (Hk n e) by left. rewrite (kmap_insert (entry_key (cei_kind i) ns)).
      rewrite <- insert_union_r; [by rewrite insert_union_l|].
      rewrite (lookup_kmap (entry_key (cei_kind i) ns)).
      by apply not_elem_of_list_to_map. }
  rewrite Hl; [by rewrite list_to_map_range|apply NoDup_range_keys|].
  intros n e Hin. apply Hi. by apply elem_of_range.
Qed.

Lemma apply_deletes ns i store :
  index_in ns i →
  foldl apply_write store (delete_of <$> ConfigEntryIndex_ToArray i) = store ∖ index_map ns i.
Proof.
  intros Hi. apply map_eq. intros k.
  assert (∀ l store, foldl apply_write store (delete_of <$> l) !! k =
    if decide (k ∈ key_of <$> l) then None else store !! k) as Hl.
  { induction l as [|e l IH]; intros st; [by rewrite decide_False by apply not_elem_of_nil|].
    cbn [foldl fmap list_fmap]. rewrite IH. simpl apply_write. fold (key_of e).
    destruct (decide (k ∈ key_of <$> l)) as [Hk|Hk].
    - by rewrite decide_True by (by right).
    - destruct (decide (k = key_of e)) as [->|Hne].
      + by rewrite lookup_delete_eq, decide_True by left.
      + rewrite lookup_delete_ne, decide_False; [done| |done].
        intros [?|?]%elem_of_cons; done. }
  rewrite Hl, lookup_difference. destruct k as [[kind name] ns'].
  rewrite lookup_index_map. unfold ConfigEntryIndex_ToArray.
  destruct (decide ((kind, name, ns') ∈ key_of <$> (range (cei_idx i)).*2)) as [Hk|Hk].
  - apply list_elem_of_fmap in Hk as (e & He & Hin). apply elem_of_range_values in Hin as [n Hn].
    rewrite (Hi n e Hn) in He. injection He as -> -> ->.
    by rewrite !decide_True, Hn by done.
  - destruct (decide (ns' = ns)) as [->|]; [|by destruct (store !! _)].
    destruct (decide (kind = _)) as [->|]; [|by destruct (store !! _)].
    destruct (cei_idx i !! name) as [e|] eqn:Hn; [|by destruct (store !! _)].
    exfalso. apply Hk. apply list_elem_of_fmap. exists e.
    rewrite (Hi name e Hn). split; [done|]. apply elem_of_range_values. eauto.
Qed.

Lemma Difference_lookup i other name :
  index_wf other → cei_kind i = cei_kind other →
  cei_idx (ConfigEntryIndex_Difference i other) !! name =
    match cei_idx i !! name with Some _ => None | None => cei_idx other !! name end.
Proof.
  intros Hwf Hk. unfold ConfigEntryIndex_Difference. rewrite filter_lookup by done.
  destruct (cei_idx i !! name) as [e|].
  - rewrite (bool_decide_true (is_Some (Some e))) by eauto. done.
  - rewrite (bool_decide_false (is_Some None)) by by intros []. done.
Qed.

Lemma Difference_kind i other : cei_kind (ConfigEntryIndex_Difference i other) = cei_kind i.
Proof.
  unfold ConfigEntryIndex_Difference, ConfigEntryIndex_filter.
  assert (∀ l r, cei_kind r = cei_kind i → cei_kind (foldl (λ result (kv : string * ConfigEntry),
    if bool_decide (is_Some (cei_idx i !! entry_Name kv.2)) && false
    then ConfigEntryIndex_Add result (Some kv.2)
    else if negb (bool_decide (is_Some (cei_idx i !! entry_Name kv.2))) && negb false
    then ConfigEntryIndex_Add result (Some kv.2) else result) r l) = cei_kind i) as Hl.
  { induction l as [|kv l IH]; intros r Hr; [done|]. cbn [foldl]. apply IH.
    rewrite andb_false_r. destruct (_ && _); [|done]. by rewrite Add_kind. }
  by apply Hl.
Qed.

Lemma index_in_wf ns i : index_in ns i → index_wf i.
Proof. intros Hi n e Hn. specialize (Hi n e Hn). unfold key_of in Hi. by injection Hi as -> -> _. Qed.

Lemma index_in_Difference ns i other :
  index_in ns other → cei_kind i = cei_kind other →
  index_in ns (ConfigEntryIndex_Difference i other).
Proof.
  intros Ho Hk n e. rewrite Difference_kind, Difference_lookup by eauto using index_in_wf.
  destruct (cei_idx i !! n); [done|]. intros Hn. rewrite Hk. by apply Ho.
Qed.

(** ** The entries of a gateway *)

(** Each index has its kind, and everything lives in the gateway's namespace. *)
Definition entries_in (ns : string) (en : Entries) : Prop :=
  (cei_kind (en_routers en) = ServiceRouter ∧ index_in ns (en_routers en)) ∧
  (cei_kind (en_splitters en) = ServiceSplitter ∧ index_in ns (en_splitters en)) ∧
  (cei_kind (en_defaults en) = ServiceDefaults ∧ index_in ns (en_defaults en)).

Lemma index_in_new ns kind : index_in ns (NewConfigEntryIndex kind).
Proof. intros n e. simpl. by rewrite lookup_empty. Qed.

Lemma no_entries_in ns : entries_in ns no_entries.
Proof. repeat split; try done; apply index_in_new. Qed.

Lemma index_in_add ns i e :
  index_in ns i → (∀ x, e = Some x → entry_Namespace x = ns) →
  index_in ns (ConfigEntryIndex_Add i e).
Proof.
  intros Hi He. destruct e as [x|]; [|done]. simpl.
  destruct (bool_decide_reflect (GetKind x ≠ cei_kind i)) as [|Hk]; [done|].
  apply dec_stable in Hk. intros n y. simpl.
  intros [[<- <-]|[_ Hl]]%lookup_insert_Some; [|by apply Hi].
  unfold key_of. by rewrite Hk, (He x eq_refl).
Qed.

Lemma index_in_merge ns i other :
  index_in ns i → (∀ o, other = Some o → index_in ns o) →
  index_in ns (ConfigEntryIndex_Merge i other).
Proof.
  intros Hi Ho. destruct other as [other|]; [|done]. specialize (Ho other eq_refl).
  destruct (decide (cei_kind i = cei_kind other)) as [Hk|Hk].
  - intros n e. rewrite Merge_kind, Merge_union by done.
    intros [Hl|[_ Hl]]%lookup_union_Some_raw; [|by apply Hi].
    rewrite (Ho n e Hl). by rewrite Hk.
  - simpl. by rewrite bool_decide_true.
Qed.

(** ** Runs of phases *)

Definition phase_writes (p : phase) : list ConfigWrite :=
  match p with
  | SetPhase entries _ => SetEntry <$> entries
  | DeletePhase entries _ => delete_of <$> entries
  end.

(** Consul accepted every write of [ws], attempted after [history]. *)
Definition accepted (history ws : list ConfigWrite) : Prop :=
  ∀ pre w post, ws = pre ++ w :: post → refused (history ++ pre) w = None.

Lemma accepted_nil history : accepted history [].
Proof. by intros [] ? ?. Qed.

Lemma accepted_cons history w ws :
  refused history w = None → accepted (history ++ [w]) ws → accepted history (w :: ws).
Proof.
  intros Hw Hws [|p pre] w' post; simpl.
  - intros [= <- <-]. by rewrite app_nil_r.
  - intros [= <- ->]. specialize (Hws pre w' post eq_refl). by rewrite <- app_assoc in Hws.
Qed.

Lemma accepted_app history ws1 ws2 :
  accepted history ws1 → accepted (history ++ ws1) ws2 → accepted history (ws1 ++ ws2).
Proof.
  revert history. induction ws1 as [|w ws1 IH]; intros history H1 H2.
  { by rewrite app_nil_r in H2. }
  apply accepted_cons.
  - specialize (H1 [] w ws1 eq_refl). by rewrite app_nil_r in H1.
  - apply IH; [|by rewrite <- app_assoc].
    intros pre w' post ->. rewrite <- app_assoc. by apply (H1 (w :: pre) w' post).
Qed.

Lemma attempt_spec ws history :
  (attempt history ws).1 = history ++ ws ∧
  ((attempt history ws).2 = [] → accepted history ws).
Proof.
  revert history. induction ws as [|w ws IH]; intros history; simpl.
  { rewrite app_nil_r. split; [done|]. intros _. apply accepted_nil. }
  destruct (IH (history ++ [w])) as [H1 H2].
  destruct (attempt (history ++ [w]) ws) as [h errs]. simpl in *. subst h.
  rewrite <- app_assoc. split; [done|].
  destruct (refused history w) eqn:Hw; [done|]. intros ->. by apply accepted_cons; auto.
Qed.

Lemma run_phase_spec history p :
  (run_phase history p).1 = history ++ phase_writes p ∧
  ((run_phase history p).2 = None → accepted history (phase_writes p)).
Proof.
  destruct p as [entries text|entries text]; simpl;
    unfold setConfigEntries, deleteConfigEntries;
    [destruct (attempt_spec (SetEntry <$> entries) history) as [H1 H2]
    |destruct (attempt_spec (delete_of <$> entries) history) as [H1 H2]];
    destruct (attempt history _) as [h errs]; simpl in *; split; try done;
    destruct errs; simpl; try done; intros _; by apply H2.
Qed.

Lemma run_phases_app history ps qs :
  run_phases history (ps ++ qs) =
    match run_phases history ps with
    | (history, Some e) => (history, Some e)
    | (history, None) => run_phases history qs
    end.
Proof.
  revert history. induction ps as [|p ps IH]; intros history; [done|]. simpl.
  by destruct (run_phase history p) as [h [e|]].
Qed.

(** A run attempts the writes of its phases in order, all of them unless a
    phase fails, and then all writes were accepted. *)
Lemma run_phases_spec ps history :
  ∃ ws rest, (run_phases history ps).1 = history ++ ws ∧ ps ≫= phase_writes = ws ++ rest ∧
    ((run_phases history ps).2 = None → rest = [] ∧ accepted history ws).
Proof.
  revert history. induction ps as [|p ps IH]; intros history; cbn [run_phases].
  { exists [], []. rewrite app_nil_r. split_and!; try done. split; [done|apply accepted_nil]. }
  rewrite bind_cons. destruct (run_phase_spec history p) as [H1 H2].
  destruct (run_phase history p) as [h [e|]]; simpl in H1, H2; subst h.
  - by exists (phase_writes p), (ps ≫= phase_writes).
  - destruct (IH (history ++ phase_writes p)) as (ws & rest & -> & -> & Hok).
    exists (phase_writes p ++ ws), rest. rewrite !app_assoc. split_and!; [done|done|].
    intros Hn. destruct (Hok Hn) as [-> Hacc]. split; [done|]. apply accepted_app; auto.
Qed.

Lemma run_phases_ok ps history h :
  run_phases history ps = (h, None) →
  h = history ++ (ps ≫= phase_writes) ∧ accepted history (ps ≫= phase_writes).
Proof.
  intros Hrun. destruct (run_phases_spec ps history) as (ws & rest & H1 & H2 & H3).
  rewrite Hrun in H1, H3. simpl in *. destruct (H3 eq_refl) as [-> Hacc].
  rewrite app_nil_r in H2. by subst.
Qed.

End adapter.

(** ** The discovery chain of a gateway *)

Section chain_lemmas.
Context {MR : MapRange}.

Definition http_of (route : ResolvedRoute) : option HTTPRoute :=
  match route with ResolvedHTTP r => Some r | ResolvedTCP _ => None end.
Definition tcp_of (route : ResolvedRoute) : option ResolvedRoute :=
  match route with ResolvedHTTP _ => None | ResolvedTCP _ => Some route end.

Lemma flattenHTTPRoutes_spec gateway routes :
  flattenHTTPRoutes gateway routes =
    omap tcp_of routes ++ (ResolvedHTTP <$> consolidate (collected (omap http_of routes)) gateway).
Proof.
  unfold flattenHTTPRoutes, collected.
  assert (∀ c u, foldl (λ (acc : routeConsolidator * list ResolvedRoute) route,
    let '(consolidator, unmerged) := acc in
    match route with
    | ResolvedHTTP r => (consolidator_add consolidator r, unmerged)
    | ResolvedTCP _ => (consolidator, unmerged ++ [route])
    end) (c, u) routes =
    (foldl consolidator_add c (omap http_of routes), u ++ omap tcp_of routes)) as ->; [|done].
  induction routes as [|[r|r] routes IH]; intros c u; simpl.
  - by rewrite app_nil_r.
  - by rewrite IH.
  - by rewrite IH, <- app_assoc.
Qed.

(** At most one TCP route survives, the first one, and every HTTP route. *)
Lemma mergeRoutes_spec gateway routes :
  mergeRoutes gateway routes =
    take 1 (omap tcp_of routes) ++
    (ResolvedHTTP <$> consolidate (collected (omap http_of routes)) gateway).
Proof.
  unfold mergeRoutes, filterTCPRoutes. rewrite flattenHTTPRoutes_spec.
  set (f := λ (acc : list ResolvedRoute * bool) route, _).
  set (https := consolidate _ _). clearbody https.
  assert (∀ l b acc, foldl f (acc, b) (ResolvedHTTP <$> l) = (acc ++ (ResolvedHTTP <$> l), b)) as Hh.
  { intros l b. induction l as [|r l IH]; intros acc; simpl; [by rewrite app_nil_r|].
    by rewrite IH, <- app_assoc. }
  assert (∀ l acc, (∀ r, r ∈ l → is_Some (tcp_of r)) → foldl f (acc, true) l = (acc, true)) as Ht.
  { induction l as [|r l IH]; intros acc Hl; [done|]. simpl.
    destruct (Hl r ltac:(left)) as [x Hx]. destruct r; [done|]. apply IH. intros; apply Hl; by right. }
  assert (∀ r, r ∈ omap tcp_of routes → is_Some (tcp_of r)) as Htcp.
  { intros r (x & _ & Hx)%list_elem_of_omap. destruct x; [done|]. injection Hx as <-. by eexists. }
  rewrite foldl_app. destruct (omap tcp_of routes) as [|r l]; simpl; [by rewrite Hh|].
  destruct (Htcp r ltac:(left)) as [x Hx]. destruct r; [done|]. simpl.
  rewrite Ht by (intros; apply Htcp; by right). by rewrite Hh.
Qed.

(** The HTTP routes of a merge are consolidated ones. *)
Lemma merged_http gateway routes r :
  ResolvedHTTP r ∈ mergeRoutes gateway routes →
  ∃ h rules, r = consolidated_route gateway h rules.
Proof.
  rewrite mergeRoutes_spec, elem_of_app. intros [Hin|Hin].
  - assert (ResolvedHTTP r ∈ omap tcp_of routes) as Hin'.
    { destruct (omap tcp_of routes); [done|]. simpl in Hin. apply list_elem_of_singleton in Hin.
      subst. left. }
    apply list_elem_of_omap in Hin' as ([] & _ & [=]).
  - apply list_elem_of_fmap in Hin as (r' & [= <-] & Hin).
    apply list_elem_of_fmap in Hin as ([h rules] & -> & _). eauto.
Qed.

Definition splits_of (route : HTTPRoute) : list ServiceSplitterConfigEntry :=
  (httpRouteDiscoveryChain route).2.

Lemma splits_of_namespace route sp :
  sp ∈ splits_of route → splitter_Namespace sp = cr_Namespace (h_CommonRoute route).
Proof.
  unfold splits_of, httpRouteDiscoveryChain. simpl.
  intros (x & Hin & Hx)%list_elem_of_omap. unfold id in Hx. subst x.
  apply list_elem_of_fmap in Hin as (c & Hc & Hin).
  apply elem_of_lookup_imap in Hin as (idx & rule & -> & _).
  unfold rule_chain in Hc. destruct (r_Services rule) as [|s1 [|s2 l]]; simpl in Hc; try done;
    repeat case_bool_decide; try done; by injection Hc as ->.
Qed.

(** Service defaults declare the HTTP protocol. *)
Definition http_entry (e : ConfigEntry) : Prop :=
  match e with EntryDefaults d => default_Protocol d = "http" | _ => True end.
Definition index_http (i : ConfigEntryIndex) : Prop :=
  ∀ name e, cei_idx i !! name = Some e → http_entry e.

Lemma index_http_add i e :
  index_http i → (∀ x, e = Some x → http_entry x) → index_http (ConfigEntryIndex_Add i e).
Proof.
  intros Hi He. destruct e as [x|]; [|done]. simpl. case_bool_decide; [done|].
  intros n y. simpl. intros [[_ <-]|[_ Hl]]%lookup_insert_Some; [by apply He|by eapply Hi].
Qed.

Lemma index_http_merge i other :
  index_http i → (∀ o, other = Some o → index_http o) → index_http (ConfigEntryIndex_Merge i other).
Proof.
  intros Hi Ho. destruct other as [other|]; [|done]. specialize (Ho other eq_refl).
  destruct (decide (cei_kind i = cei_kind other)) as [Hk|Hk].
  - intros n e. rewrite Merge_union by done.
    intros [Hl|[_ Hl]]%lookup_union_Some_raw; [by eapply Ho|by eapply Hi].
  - simpl. by rewrite bool_decide_true.
Qed.

(** The indexes of the splits of a route: one splitter each, and defaults for
    every splitter but those named like the router. *)
Lemma foldl_splits meta d splits (s0 d0 : ConfigEntryIndex) ns :
  cei_kind s0 = ServiceSplitter → cei_kind d0 = ServiceDefaults →
  index_in ns s0 → index_in ns d0 → index_http d0 →
  (∀ sp, sp ∈ splits → splitter_Namespace sp = ns) →
  let '(s, dd) := foldl (λ acc split,
        let '(splitters, defaults) := acc in
        (ConfigEntryIndex_Add splitters (Some (EntrySplitter split)),
         if bool_decide (splitter_Name split ≠ d) then
           ConfigEntryIndex_Add defaults
             (Some (EntryDefaults (httpServiceDefault (EntrySplitter split) meta)))
         else defaults)) (s0, d0) splits in
  (cei_kind s = ServiceSplitter ∧ index_in ns s) ∧
  (cei_kind dd = ServiceDefaults ∧ index_in ns dd ∧ index_http dd) ∧
  (∀ n, is_Some (cei_idx d0 !! n) → is_Some (cei_idx dd !! n)) ∧
  (∀ n, is_Some (cei_idx s !! n) →
     is_Some (cei_idx s0 !! n) ∨ n = d ∨ is_Some (cei_idx dd !! n)).
Proof.
  revert s0 d0. induction splits as [|sp splits IH]; intros s0 d0 Hs Hd His Hid Hhd Hns; simpl.
  { split_and!; auto. }
  rewrite (bool_decide_false (GetKind (EntrySplitter sp) ≠ cei_kind s0)) by (rewrite Hs; auto).
  set (s1 := mkConfigEntryIndex _ _).
  set (d1 := if bool_decide (splitter_Name sp ≠ d) then _ else d0).
  assert (index_http d1) as Hhd1.
  { unfold d1. case_bool_decide; [|done].
    apply (index_http_add d0 (Some (EntryDefaults (httpServiceDefault (EntrySplitter sp) meta))) Hhd). by intros x [= <-]. }
  assert (cei_kind d1 = ServiceDefaults ∧ index_in ns d1 ∧
    (∀ n, is_Some (cei_idx d0 !! n) → is_Some (cei_idx d1 !! n)) ∧
    (splitter_Name sp = d ∨ is_Some (cei_idx d1 !! splitter_Name sp))) as (Hd1 & Hid1 & Hm & Hsp).
  { unfold d1. destruct (bool_decide_reflect (splitter_Name sp ≠ d)) as [_|Heq];
      [|apply dec_stable in Heq; split_and!; auto].
    rewrite bool_decide_false by (rewrite Hd; auto). split_and!; simpl; auto.
    - pose proof (index_in_add ns d0 (Some (EntryDefaults (httpServiceDefault (EntrySplitter sp) meta)))
        Hid) as Ha. simpl in Ha. rewrite bool_decide_false in Ha by (rewrite Hd; auto).
      apply Ha. intros x [= <-]. simpl. apply Hns. left.
    - intros n Hn. destruct (decide (n = splitter_Name sp)) as [->|];
        [rewrite lookup_insert_eq|rewrite lookup_insert_ne by done]; eauto.
    - right. rewrite lookup_insert_eq. eauto. }
  assert (index_in ns s1) as His1.
  { pose proof (index_in_add ns s0 (Some (EntrySplitter sp)) His) as Ha. simpl in Ha.
    rewrite bool_decide_false in Ha by (rewrite Hs; auto).
    apply Ha. intros x [= <-]. simpl. apply Hns. left. }
  specialize (IH s1 d1 Hs Hd1 His1 Hid1 Hhd1 ltac:(intros; apply Hns; by right)).
  destruct (foldl _ (s1, d1) splits) as [s dd]. destruct IH as (Hks & Hkd & Hmono & Hcov).
  split_and!; try apply Hks; try apply Hkd; auto.
  intros n Hn. destruct (Hcov n Hn) as [Hn1|[?|?]]; auto. simpl in Hn1.
  destruct (decide (n = splitter_Name sp)) as [->|Hne].
  - right. destruct Hsp; auto.
  - rewrite lookup_insert_ne in Hn1 by done. auto.
Qed.

(** What the chain of one route contributes. *)
Lemma routeDiscoveryChain_spec ns route :
  (∀ r, route = ResolvedHTTP r → cr_Namespace (h_CommonRoute r) = ns) →
  match route, routeDiscoveryChain route with
  | ResolvedHTTP r, (service, router, splits, defaults) =>
      ∃ ro s d, router = Some ro ∧ splits = Some s ∧ defaults = Some d ∧
        router_Namespace ro = ns ∧ isvc_Namespace service = ns ∧
        isvc_Name service = router_Name ro ∧ router_Name ro = cr_Name (h_CommonRoute r) ∧
        isvc_Hosts service = h_Hostnames r ∧
        (cei_kind s = ServiceSplitter ∧ index_in ns s) ∧
        (cei_kind d = ServiceDefaults ∧ index_in ns d ∧ index_http d) ∧
        is_Some (cei_idx d !! router_Name ro) ∧
        (∀ n, is_Some (cei_idx s !! n) → is_Some (cei_idx d !! n))
  | ResolvedTCP _, (service, router, splits, defaults) =>
      router = None ∧ splits = None ∧ defaults = None ∧ isvc_Hosts service = []
  end.
Proof.
  intros Hns. destruct route as [r|r]; [|done]. specialize (Hns r eq_refl).
  cbn [routeDiscoveryChain].
  pose proof (splits_of_namespace r) as Hsp. unfold splits_of in Hsp.
  destruct (httpRouteDiscoveryChain r) as [router splits] eqn:Hchain.
  assert (router_Name router = cr_Name (h_CommonRoute r) ∧ router_Namespace router = ns) as [Hn Hrn].
  { unfold httpRouteDiscoveryChain in Hchain. injection Hchain as <- _. done. }
  simpl in Hsp. rewrite Hns in Hsp.
  set (sd := httpServiceDefault (EntryRouter router) (cr_Meta (h_CommonRoute r))).
  set (d0 := ConfigEntryIndex_Add (NewConfigEntryIndex ServiceDefaults) (Some (EntryDefaults sd))).
  assert (index_in ns d0) as Hd0.
  { apply index_in_add; [apply index_in_new|]. by intros x [= <-]. }
  assert (index_http d0) as Hh0.
  { apply index_http_add; [intros n e; simpl; by rewrite lookup_empty|]. by intros x [= <-]. }
  pose proof (foldl_splits (cr_Meta (h_CommonRoute r)) (default_Name sd) splits
    (NewConfigEntryIndex ServiceSplitter) d0 ns eq_refl eq_refl (index_in_new ns _) Hd0 Hh0 Hsp) as Hf.
  destruct (foldl _ _ splits) as [s d]. destruct Hf as (Hs & Hd & Hmono & Hcov).
  assert (is_Some (cei_idx d !! router_Name router)) as Hr.
  { apply Hmono. simpl. rewrite lookup_insert_eq. eauto. }
  exists router, s, d. split_and!; try done; try apply Hs; try apply Hd.
  intros n Hin. destruct (Hcov n Hin) as [[e He]|[-> |]]; [|done|done].
  simpl in He. by rewrite lookup_empty in He.
Qed.

(** The invariant of the entries collected for a gateway. *)
Definition chain_ok (ns : string) (en : Entries) : Prop :=
  entries_in ns en ∧ index_http (en_defaults en) ∧
  (∀ n, is_Some (cei_idx (en_routers en) !! n) → is_Some (cei_idx (en_defaults en) !! n)) ∧
  (∀ n, is_Some (cei_idx (en_splitters en) !! n) → is_Some (cei_idx (en_defaults en) !! n)).

(** Every name present stays present. *)
Definition chain_le (en en' : Entries) : Prop :=
  (∀ n, is_Some (cei_idx (en_routers en) !! n) → is_Some (cei_idx (en_routers en') !! n)) ∧
  (∀ n, is_Some (cei_idx (en_defaults en) !! n) → is_Some (cei_idx (en_defaults en') !! n)).

#[local] Instance chain_le_preorder : PreOrder chain_le.
Proof. split; [done|]. intros ??? [] []. split; auto. Qed.

(** The service of a route has its router. *)
Definition routed (en : Entries) (service : IngressService) : Prop :=
  isvc_Hosts service ≠ [] → is_Some (cei_idx (en_routers en) !! isvc_Name service).

Lemma routed_mono en en' service : chain_le en en' → routed en service → routed en' service.
Proof. intros [H _] Hr Hh. auto. Qed.

Lemma is_Some_merge i other :
  cei_kind i = cei_kind other →
  ∀ n, is_Some (cei_idx (ConfigEntryIndex_Merge i (Some other)) !! n) ↔
    is_Some (cei_idx other !! n) ∨ is_Some (cei_idx i !! n).
Proof.
  intros Hk n. rewrite Merge_union, lookup_union by done.
  destruct (cei_idx other !! n), (cei_idx i !! n); simpl; unfold is_Some; naive_solver.
Qed.

Lemma add_route_spec ns services en route :
  chain_ok ns en → (∀ r, route = ResolvedHTTP r → cr_Namespace (h_CommonRoute r) = ns) →
  ∃ service en', add_route (services, en) route = (services ++ [service], en') ∧
    chain_ok ns en' ∧ chain_le en en' ∧ routed en' service ∧
    service = (routeDiscoveryChain route).1.1.1.
Proof.
  intros (((Hkr & Hr) & (Hks & Hs) & (Hkd & Hd)) & Hh & Hrd & Hsd) Hns.
  pose proof (routeDiscoveryChain_spec ns route Hns) as Hspec. unfold add_route.
  destruct route as [r|r];
    destruct (routeDiscoveryChain _) as [[[service router] splits] defaults].
  - destruct Hspec as (ro & s & d & -> & -> & -> & Hron & _ & Hsn & _ & _ & [Hks' Hs'] &
      (Hkd' & Hd' & Hh') & Hro & Hsd').
    eexists service, _. split; [done|].
    assert (∀ n, is_Some (cei_idx (ConfigEntryIndex_Add (en_routers en) (Some (EntryRouter ro))) !! n)
      ↔ n = router_Name ro ∨ is_Some (cei_idx (en_routers en) !! n)) as Hlr.
    { intros n. simpl. rewrite bool_decide_false by (rewrite Hkr; auto). simpl.
      destruct (decide (n = router_Name ro)) as [->|];
        [rewrite lookup_insert_eq|rewrite lookup_insert_ne by done]; naive_solver eauto. }
    assert (cei_kind (en_splitters en) = cei_kind s) as Hss by congruence.
    assert (cei_kind (en_defaults en) = cei_kind d) as Hdd by congruence.
    unfold chain_ok, entries_in, chain_le, routed.
    cbn [en_routers en_splitters en_defaults fmap option_fmap option_map].
    rewrite Add_kind, !Merge_kind. setoid_rewrite Hlr.
    setoid_rewrite (is_Some_merge (en_splitters en) s Hss).
    setoid_rewrite (is_Some_merge (en_defaults en) d Hdd).
    split_and!; try done.
    all: try (apply index_in_merge; [done|by intros ? [= <-]]).
    + apply index_in_add; [done|by intros ? [= <-]].
    + apply index_http_merge; [done|]. by intros ? [= <-].
    + intros n [-> |Hn]; auto.
    + intros n [Hn|Hn]; auto.
    + auto.
    + auto.
    + intros _. auto.
  - destruct Hspec as (-> & -> & -> & Hh0). eexists service, _. split; [done|].
    destruct en. simpl in *. split_and!; try done. intros Hne. by destruct Hne.
Qed.

Definition route_service (route : ResolvedRoute) : IngressService :=
  (routeDiscoveryChain route).1.1.1.

Lemma add_routes_spec ns routes services en :
  chain_ok ns en →
  (∀ r, ResolvedHTTP r ∈ routes → cr_Namespace (h_CommonRoute r) = ns) →
  ∃ en', foldl add_route (services, en) routes = (services ++ (route_service <$> routes), en') ∧
    chain_ok ns en' ∧ chain_le en en' ∧ (∀ s, s ∈ route_service <$> routes → routed en' s).
Proof.
  revert services en. induction routes as [|route routes IH]; intros services en Hok Hns.
  { exists en. simpl. rewrite app_nil_r. split_and!; try done. by intros s Hs%not_elem_of_nil. }
  destruct (add_route_spec ns services en route Hok) as (s & en1 & Hadd & Hok1 & Hle1 & Hr1 & ->).
  { intros r ->. apply Hns. left. }
  cbn [foldl]. rewrite Hadd.
  destruct (IH (services ++ [(routeDiscoveryChain route).1.1.1]) en1 Hok1)
    as (en2 & -> & Hok2 & Hle2 & Hr2). { intros r Hr. apply Hns. by right. }
  exists en2. rewrite <- app_assoc. split_and!; try done; [by etrans|].
  intros s. rewrite fmap_cons, elem_of_cons. intros [-> |Hs]; [|by apply Hr2].
  by eapply routed_mono.
Qed.

Lemma one_tcp_service gateway routes :
  length (List.filter (λ s, bool_decide (isvc_Hosts s = []))
    (route_service <$> mergeRoutes gateway routes)) ≤ 1.
Proof.
  rewrite mergeRoutes_spec, fmap_app, List.filter_app, length_app.
  assert (List.filter (λ s, bool_decide (isvc_Hosts s = [])) (route_service <$>
    (ResolvedHTTP <$> consolidate (collected (omap http_of routes)) gateway)) = []) as ->.
  { apply filter_none. intros s Hs. apply list_elem_of_fmap in Hs as (r & -> & Hr).
    apply list_elem_of_fmap in Hr as (r' & -> & Hr).
    apply list_elem_of_fmap in Hr as ([h rules] & -> & _).
    unfold route_service. simpl. destruct (foldl _ _ _). done. }
  destruct (omap tcp_of routes) as [|r l]; simpl; [lia|].
  destruct (bool_decide _); simpl; lia.
Qed.

(** The listener published for a listener of the gateway, none without routes. *)
Definition published (gateway : ResolvedGateway) (listener : ResolvedListener) :
    option IngressListener :=
  match mergeRoutes gateway (rl_Routes listener) with
  | [] => None
  | routes => Some (mkIngressListener (rl_Port listener) (rl_Protocol listener)
                      (route_service <$> routes) (ingress_tls (rl_TLS listener)))
  end.

Lemma add_listeners_spec gateway listeners ls en :
  let ns := gid_ConsulNamespace (rg_ID gateway) in
  chain_ok ns en →
  ∃ en', foldl (add_listener gateway) (ls, en) listeners
      = (ls ++ omap (published gateway) listeners, en') ∧
    chain_ok ns en' ∧ chain_le en en' ∧
    (∀ il s, il ∈ omap (published gateway) listeners → s ∈ il_Services il → routed en' s).
Proof.
  simpl. revert ls en. induction listeners as [|l listeners IH]; intros ls en Hok.
  { exists en. simpl. rewrite app_nil_r. split_and!; try done. by intros ? ? Hs%not_elem_of_nil. }
  cbn [foldl omap list_omap].
  destruct (add_routes_spec (gid_ConsulNamespace (rg_ID gateway))
    (mergeRoutes gateway (rl_Routes l)) [] en Hok) as (en1 & Hadd & Hok1 & Hle1 & Hr1).
  { intros r (h & rules & ->)%merged_http. done. }
  unfold add_listener at 2. rewrite Hadd. simpl app. rewrite length_fmap.
  set (ls1 := if bool_decide _ then _ else ls).
  assert (ls1 ++ omap (published gateway) listeners
    = ls ++ match published gateway l with
            | Some y => y :: omap (published gateway) listeners
            | None => omap (published gateway) listeners
            end) as Hls.
  { unfold ls1, published at 2. destruct (mergeRoutes gateway (rl_Routes l)); [done|].
    rewrite bool_decide_true by (simpl; lia). by rewrite <- app_assoc. }
  destruct (IH ls1 en1 Hok1) as (en2 & -> & Hok2 & Hle2 & Hr2).
  exists en2. rewrite Hls. split_and!; try done; [by etrans|].
  intros il s Hil Hs. destruct (published gateway l) as [y|] eqn:Hp; [|by eapply Hr2].
  apply elem_of_cons in Hil as [-> |Hil]; [|by eapply Hr2].
  apply (routed_mono en1); [done|]. apply Hr1. unfold published in Hp.
  destruct (mergeRoutes gateway (rl_Routes l)); [done|]. by injection Hp as <-.
Qed.

Lemma discoveryChain_spec gateway :
  let (ingress, en) := discoveryChain gateway in
  ingress_Name ingress = gid_Service (rg_ID gateway) ∧
  ingress_Namespace ingress = gid_ConsulNamespace (rg_ID gateway) ∧
  ingress_Listeners ingress = omap (published gateway) (rg_Listeners gateway) ∧
  chain_ok (gid_ConsulNamespace (rg_ID gateway)) en ∧
  (∀ il s, il ∈ ingress_Listeners ingress → s ∈ il_Services il → routed en s).
Proof.
  unfold discoveryChain.
  assert (chain_ok (gid_ConsulNamespace (rg_ID gateway)) no_entries) as Hok.
  { split; [apply no_entries_in|].
    split; [intros n e; simpl; by rewrite lookup_empty|].
    split; intros n; simpl; rewrite lookup_empty; by intros []. }
  destruct (add_listeners_spec gateway (rg_Listeners gateway) [] no_entries Hok)
    as (en & -> & Hen & _ & Hr). simpl. done.
Qed.

(** The entries computed for a gateway are complete and refer to each
    other properly.  Every hostname of an HTTP route attached to a listener is
    served by that listener of the ingress gateway (same port and protocol); a
    listener serves at most one TCP route; every service an ingress listener
    routes by hostname has a router and HTTP service defaults; so has every
    splitter; all entries live in the gateway's Consul namespace and are
    indexed under their own name and kind. *)
Theorem discovery_chain_complete (gateway : ResolvedGateway) :
  let (ingress, en) := discoveryChain gateway in
  (∀ l r h, l ∈ rg_Listeners gateway → ResolvedHTTP r ∈ rl_Routes l → h ∈ h_Hostnames r →
     ∃ il s, il ∈ ingress_Listeners ingress ∧ il_Port il = rl_Port l ∧
       il_Protocol il = rl_Protocol l ∧ s ∈ il_Services il ∧ isvc_Hosts s = [h]) ∧
  (∀ il, il ∈ ingress_Listeners ingress →
     length (List.filter (λ s, bool_decide (isvc_Hosts s = [])) (il_Services il)) ≤ 1) ∧
  (∀ il s, il ∈ ingress_Listeners ingress → s ∈ il_Services il → isvc_Hosts s ≠ [] →
     is_Some (ConfigEntryIndex_Get (en_routers en) (isvc_Name s)) ∧
     ∃ d, ConfigEntryIndex_Get (en_defaults en) (isvc_Name s) = Some (EntryDefaults d) ∧
       default_Protocol d = "http") ∧
  (∀ name, is_Some (ConfigEntryIndex_Get (en_splitters en) name) →
     ∃ d, ConfigEntryIndex_Get (en_defaults en) name = Some (EntryDefaults d) ∧
       default_Protocol d = "http") ∧
  entries_in (gid_ConsulNamespace (rg_ID gateway)) en.
Proof.
  pose proof (discoveryChain_spec gateway) as Hspec.
  destruct (discoveryChain gateway) as [ingress en].
  destruct Hspec as (_ & _ & Hls & (Hin & Hhttp & Hrd & Hsd) & Hrouted).
  assert (∀ n, is_Some (cei_idx (en_defaults en) !! n) →
    ∃ d, cei_idx (en_defaults en) !! n = Some (EntryDefaults d) ∧ default_Protocol d = "http") as Hd.
  { intros n [e He]. pose proof (Hhttp n e He) as Hh. destruct Hin as (_ & _ & Hk & Hkey).
    specialize (Hkey n e He). unfold key_of in Hkey. rewrite Hk in Hkey.
    destruct e; try discriminate Hkey. eauto. }
  split_and!; try done.
  - intros l r h Hl Hr Hh.
    assert (r ∈ omap http_of (rl_Routes l)) as Hr'.
    { apply list_elem_of_omap. by exists (ResolvedHTTP r). }
    destruct (lookup_collected (omap http_of (rl_Routes l)) h) as [_ [_ Hsome]].
    destruct Hsome as [rules Hrules]; [eauto|].
    assert (ResolvedHTTP (consolidated_route gateway h rules) ∈ mergeRoutes gateway (rl_Routes l)) as Hm.
    { rewrite mergeRoutes_spec, elem_of_app. right. apply list_elem_of_fmap. eexists. split; [done|].
      apply list_elem_of_fmap. exists (h, rules). split; [done|]. by apply elem_of_range. }
    exists (mkIngressListener (rl_Port l) (rl_Protocol l)
      (route_service <$> mergeRoutes gateway (rl_Routes l)) (ingress_tls (rl_TLS l))),
      (route_service (ResolvedHTTP (consolidated_route gateway h rules))).
    split_and!; try done.
    + rewrite Hls. apply list_elem_of_omap. exists l. split; [done|]. unfold published.
      by destruct (mergeRoutes gateway (rl_Routes l)); [apply not_elem_of_nil in Hm|].
    + by apply list_elem_of_fmap_2.
    + unfold route_service. simpl. by destruct (foldl _ _ _).
  - intros il. rewrite Hls. intros (l & _ & Hp)%list_elem_of_omap.
    assert (il_Services il = route_service <$> mergeRoutes gateway (rl_Routes l)) as ->.
    { unfold published in Hp. by destruct (mergeRoutes gateway (rl_Routes l)); [|injection Hp as <-]. }
    apply one_tcp_service.
  - intros il s Hil Hs Hne. pose proof (Hrouted il s Hil Hs Hne) as Hr. split; [done|]. by apply Hd, Hrd.
  - intros n Hn. by apply Hd, Hsd.
Qed.

End chain_lemmas.

(** ** What [Sync] and [Clear] do to Consul *)

(** The entries of a gateway by their key in Consul. *)
Definition entries_map (ns : string) (en : Entries) : gmap EntryKey ConfigEntry :=
  index_map ns (en_routers en) ∪ (index_map ns (en_splitters en) ∪ index_map ns (en_defaults en)).

Definition with_ingress (ns : string) (ingress : IngressGatewayConfigEntry) (en : Entries) :
    gmap EntryKey ConfigEntry :=
  <[key_of (EntryIngress ingress) := EntryIngress ingress]> (entries_map ns en).

Section sync_theorems.
Context {MR : MapRange} {IR : IntentionsReconcilers}.
Context (refused : list ConfigWrite → ConfigWrite → option error).

(** The adapter remembers, for each gateway, entries in its own namespace. *)
Definition adapter_wf (a : SyncAdapter) : Prop :=
  ∀ id st, sa_sync a !! id = Some st →
    entries_in (gid_ConsulNamespace id) (ss_entries st) ∧
    ingress_Namespace (ss_ingress st) = gid_ConsulNamespace id ∧
    ingress_Name (ss_ingress st) = gid_Service id.

Lemma entriesForGateway_in a id :
  adapter_wf a → entries_in (gid_ConsulNamespace id) (entriesForGateway a id).2.
Proof.
  intros Hwf. unfold entriesForGateway. destruct (sa_sync a !! id) as [st|] eqn:Hst.
  - apply (Hwf id st Hst).
  - apply no_entries_in.
Qed.

(** Case analysis on the kind and namespace of a key. *)
Ltac split_keys :=
  repeat match goal with
  | |- context [decide (?a = ?b)] => destruct (decide (a = b)); subst; try discriminate
  end;
  repeat match goal with |- context [?m !! ?n] => destruct (m !! n) end; try done.

Lemma lookup_entries_map ns en kind name ns' :
  entries_in ns en →
  entries_map ns en !! (kind, name, ns') =
    if decide (ns' = ns) then
      if decide (kind = ServiceRouter) then cei_idx (en_routers en) !! name
      else if decide (kind = ServiceSplitter) then cei_idx (en_splitters en) !! name
      else if decide (kind = ServiceDefaults) then cei_idx (en_defaults en) !! name
      else None
    else None.
Proof.
  intros ((Hr & _) & (Hs & _) & (Hd & _)). unfold entries_map.
  rewrite !lookup_union, !lookup_index_map, Hr, Hs, Hd. split_keys.
Qed.

(** The effect of the set phases, and of the delete phases of either operation. *)
Lemma apply_set_phases ns ingress en store :
  entries_in ns en →
  foldl apply_write store
    (([SetPhase (ConfigEntryIndex_ToArray (en_defaults en)) "";
       SetPhase (ConfigEntryIndex_ToArray (en_routers en)) "";
       SetPhase (ConfigEntryIndex_ToArray (en_splitters en)) "";
       SetPhase [EntryIngress ingress] ""]) ≫= phase_writes) = with_ingress ns ingress en ∪ store.
Proof.
  intros Hin. pose proof Hin as ((Hr & Hr') & (Hs & Hs') & (Hd & Hd')).
  simpl. rewrite !foldl_app, !(apply_sets ns) by done. simpl.
  unfold with_ingress. rewrite <- insert_union_l. f_equal.
  apply map_eq. intros [[kind name] ns'].
  rewrite !lookup_union, lookup_entries_map, !lookup_index_map, Hr, Hs, Hd by done.
  split_keys.
Qed.

(** The entries of an index the new index no longer has. *)
Definition stale (computed existing : Entries) : Entries :=
  mkEntries (ConfigEntryIndex_Difference (en_routers computed) (en_routers existing))
    (ConfigEntryIndex_Difference (en_splitters computed) (en_splitters existing))
    (ConfigEntryIndex_Difference (en_defaults computed) (en_defaults existing)).

Lemma stale_in ns computed existing :
  entries_in ns computed → entries_in ns existing → entries_in ns (stale computed existing).
Proof.
  intros ((Hr & _) & (Hs & _) & (Hd & _)) ((Hr' & ?) & (Hs' & ?) & (Hd' & ?)).
  unfold entries_in, stale. cbn [en_routers en_splitters en_defaults].
  rewrite !Difference_kind.
  split_and!; try done; apply index_in_Difference; try done; congruence.
Qed.

Definition delete_writes (en : Entries) : list ConfigWrite :=
  delete_of <$> (ConfigEntryIndex_ToArray (en_routers en) ++
    ConfigEntryIndex_ToArray (en_splitters en) ++ ConfigEntryIndex_ToArray (en_defaults en)).

Lemma apply_delete_writes ns en store :
  entries_in ns en → foldl apply_write store (delete_writes en) = store ∖ entries_map ns en.
Proof.
  intros Hin. pose proof Hin as ((Hr & Hr') & (Hs & Hs') & (Hd & Hd')).
  unfold delete_writes. rewrite !fmap_app, !foldl_app, !(apply_deletes ns) by done.
  apply map_eq. intros [[kind name] ns'].
  rewrite !lookup_difference, lookup_entries_map, !lookup_index_map, Hr, Hs, Hd by done.
  split_keys.
Qed.

Definition set_writes (ingress : IngressGatewayConfigEntry) (en : Entries) : list ConfigWrite :=
  SetEntry <$> (ConfigEntryIndex_ToArray (en_defaults en) ++
    ConfigEntryIndex_ToArray (en_routers en) ++ ConfigEntryIndex_ToArray (en_splitters en) ++
    [EntryIngress ingress]).

(** The phases of a sync: all sets, then all deletes. *)
Lemma sync_phases_split ingress computed existing :
  ∃ sets deletes, sync_phases ingress computed existing = sets ++ deletes ∧
    sets ≫= phase_writes = set_writes ingress computed ∧
    deletes ≫= phase_writes = delete_writes (stale computed existing).
Proof.
  exists (take 4 (sync_phases ingress computed existing)),
    (drop 4 (sync_phases ingress computed existing)). split; [done|].
  unfold set_writes, delete_writes. rewrite !fmap_app.
  split; simpl; rewrite ?app_nil_r; done.
Qed.

Lemma lookup_stale_map ns computed existing k :
  entries_in ns computed → entries_in ns existing →
  entries_map ns (stale computed existing) !! k =
    match entries_map ns computed !! k with Some _ => None | None => entries_map ns existing !! k end.
Proof.
  intros Hc He. destruct k as [[kind name] ns'].
  rewrite !lookup_entries_map by auto using stale_in.
  destruct Hc as ((? & Hr) & (? & Hs) & (? & Hd)), He as ((? & Hr') & (? & Hs') & (? & Hd')).
  simpl. rewrite !Difference_lookup by (eauto using index_in_wf || congruence). split_keys.
Qed.

(** Both halves of a sync together. *)
Lemma apply_sync ns ingress computed existing store :
  ingress_Namespace ingress = ns → entries_in ns computed → entries_in ns existing →
  foldl apply_write store (set_writes ingress computed ++ delete_writes (stale computed existing))
  = with_ingress ns ingress computed ∪ (store ∖ entries_map ns existing).
Proof.
  intros Hns Hc He. rewrite foldl_app, (apply_delete_writes ns) by auto using stale_in.
  pose proof (apply_set_phases ns ingress computed store Hc) as Hset. simpl in Hset.
  unfold set_writes. rewrite !fmap_app. simpl. rewrite Hset.
  apply map_eq. intros k. rewrite lookup_difference, !lookup_union, lookup_difference.
  rewrite lookup_stale_map by done. unfold with_ingress.
  destruct (decide (k = key_of (EntryIngress ingress))) as [->|Hne].
  - rewrite lookup_insert_eq.
    assert (∀ en, entries_in ns en → entries_map ns en !! key_of (EntryIngress ingress) = None) as Hno.
    { intros en Hen. unfold key_of. rewrite lookup_entries_map by done. simpl. split_keys. }
    rewrite !Hno by done. by destruct (store !! _).
  - rewrite lookup_insert_ne by done.
    destruct (entries_map ns computed !! k), (entries_map ns existing !! k), (store !! k); done.
Qed.

Lemma syncIntentions_sync a id ingress :
  sa_sync (syncIntentionsForGateway a id ingress).1 = sa_sync a.
Proof. unfold syncIntentionsForGateway. by destruct (Reconcile _). Qed.

Lemma adapter_wf_set a gateway ingress en :
  adapter_wf a → discoveryChain gateway = (ingress, en) →
  adapter_wf (setEntriesForGateway a (rg_ID gateway) ingress en).
Proof.
  intros Hwf Hchain. pose proof (discoveryChain_spec gateway) as Hspec. rewrite Hchain in Hspec.
  destruct Hspec as (Hn & Hns & _ & (Hen & _) & _).
  intros id st. simpl. intros [[<- <-]|[_ Hst]]%lookup_insert_Some; [done|by apply Hwf].
Qed.

(** C2: a sync makes Consul hold exactly the gateway's entries.  If no write
    is refused, then whatever Consul held before, it then holds the ingress
    gateway and the routers, splitters and defaults computed for the gateway,
    none of the entries the previous sync had written that are no longer
    computed, and every other entry as it was; the adapter remembers the new
    entries.  If a write is refused, the sync reports an error and the adapter
    still remembers the previous entries, so that the next sync removes them.
    In both cases the memory of the adapter stays well-formed. *)
Theorem sync_applies_exactly (a : SyncAdapter) (gateway : ResolvedGateway) :
  adapter_wf a →
  let ns := gid_ConsulNamespace (rg_ID gateway) in
  let (ingress, computed) := discoveryChain gateway in
  let existing := (entriesForGateway a (rg_ID gateway)).2 in
  let '(a', history, didSync, err) := Sync refused a gateway in
  adapter_wf a' ∧ didSync = bool_decide (err = None) ∧
  ((accepted refused [] history ∧
    sa_sync a' = <[rg_ID gateway := mkSyncState ingress computed]> (sa_sync a) ∧
    ∀ store, foldl apply_write store history
             = with_ingress ns ingress computed ∪ (store ∖ entries_map ns existing))
   ∨ (a' = a ∧ err ≠ None)).
Proof.
  intros Hwf. simpl. unfold Sync.
  pose proof (adapter_wf_set a gateway) as Hset. pose proof (discoveryChain_spec gateway) as Hspec.
  destruct (discoveryChain gateway) as [ingress computed]. specialize (Hset ingress computed Hwf eq_refl).
  destruct Hspec as (_ & Hns & _ & (Hc & _) & _).
  pose proof (entriesForGateway_in a (rg_ID gateway) Hwf) as He.
  destruct (entriesForGateway a (rg_ID gateway)) as [old existing]. cbn [snd] in He |- *.
  destruct (run_phases refused [] (sync_phases ingress computed existing)) as [h [e|]] eqn:Hrun.
  { simpl. split; [done|]. split; [done|]. by right. }
  apply run_phases_ok in Hrun as [-> Hacc].
  destruct (sync_phases_split ingress computed existing) as (sets & deletes & Hps & Hsets & Hdels).
  rewrite Hps, bind_app, Hsets, Hdels in Hacc |- *. simpl.
  pose proof (syncIntentions_sync (setEntriesForGateway a (rg_ID gateway) ingress computed)
    (rg_ID gateway) ingress) as Hsync.
  destruct (syncIntentionsForGateway _ _ _) as [a' err]. simpl in Hsync.
  assert (adapter_wf a') as Hwf'. { intros id st. rewrite Hsync. apply Hset. }
  destruct err as [e|]; (split; [done|]; split; [done|]; left; split; [done|]; split; [done|];
    intros store; by apply apply_sync).
Qed.

Lemma elem_set_writes ns ingress en k e :
  entries_in ns en → with_ingress ns ingress en !! k = Some e → SetEntry e ∈ set_writes ingress en.
Proof.
  intros Hen He. unfold set_writes. apply list_elem_of_fmap_2. unfold with_ingress in He.
  rewrite !elem_of_app, list_elem_of_singleton. unfold ConfigEntryIndex_ToArray.
  rewrite !elem_of_range_values. destruct k as [[kind name] ns'].
  apply lookup_insert_Some in He as [[_ <-]|[_ He]]; [auto|].
  rewrite lookup_entries_map in He by done. repeat case_decide; naive_solver.
Qed.

Lemma elem_delete_writes ns en kind name ns' :
  entries_in ns en → DeleteEntry kind name ns' ∈ delete_writes en →
  kind ≠ IngressGateway ∧ is_Some (entries_map ns en !! (kind, name, ns')).
Proof.
  intros Hen. unfold delete_writes. intros (e & Heq & Hin)%list_elem_of_fmap.
  rewrite lookup_entries_map by done.
  destruct Hen as ((Hr & Hr') & (Hs & Hs') & (Hd & Hd')).
  assert ((kind, name, ns') = key_of e) as Hk by (unfold key_of; by injection Heq as -> -> ->).
  revert Hin. rewrite !elem_of_app. unfold ConfigEntryIndex_ToArray. rewrite !elem_of_range_values.
  intros [[n Hn]|[[n Hn]|[n Hn]]];
    [rewrite (Hr' n e Hn), Hr in Hk|rewrite (Hs' n e Hn), Hs in Hk|rewrite (Hd' n e Hn), Hd in Hk];
    injection Hk as -> -> ->; (split; [done|]); rewrite decide_True by done; simpl; rewrite Hn; eauto.
Qed.

Lemma no_delete_in_sets ingress en kind name ns : DeleteEntry kind name ns ∉ set_writes ingress en.
Proof. by intros (e & [=] & _)%list_elem_of_fmap. Qed.

(** A sync deletes only after all its sets were accepted. *)
Lemma sync_deletes_last ingress computed existing pre kind name ns post :
  (run_phases refused [] (sync_phases ingress computed existing)).1
    = pre ++ DeleteEntry kind name ns :: post →
  ∃ pre', pre = set_writes ingress computed ++ pre' ∧
    accepted refused [] (set_writes ingress computed) ∧
    DeleteEntry kind name ns ∈ delete_writes (stale computed existing).
Proof.
  destruct (sync_phases_split ingress computed existing) as (sets & deletes & -> & Hsets & Hdels).
  rewrite run_phases_app. destruct (run_phases_spec refused sets []) as (ws & rest & Hw & Hpre & _).
  destruct (run_phases refused [] sets) as [h [e|]] eqn:Hrun; simpl.
  { simpl in Hw. subst h. intros ->. exfalso. rewrite Hsets in Hpre.
    apply (no_delete_in_sets ingress computed kind name ns). rewrite Hpre. set_solver. }
  clear ws rest Hw Hpre. apply run_phases_ok in Hrun as [-> Hacc]. rewrite Hsets in Hacc |- *.
  destruct (run_phases_spec refused deletes ([] ++ set_writes ingress computed))
    as (ws & rest & -> & Hpre & _). simpl. intros Heq.
  apply app_eq_inv in Heq as [(k & Heq & Hk)|(k & -> & ->)].
  - destruct k as [|w k]; simpl in Hk.
    + rewrite app_nil_r in Heq. subst pre ws. exists []. rewrite app_nil_r.
      split; [done|]. split; [done|]. rewrite <- Hdels, Hpre. set_solver.
    + exfalso. injection Hk as <- _. apply (no_delete_in_sets ingress computed kind name ns).
      rewrite Heq. set_solver.
  - exists k. split; [done|]. split; [done|]. rewrite <- Hdels, Hpre. set_solver.
Qed.

(** C7: make before break.  Whether a sync succeeds or fails halfway, when it
    deletes an entry, every entry computed for the gateway, the ingress gateway
    included, has been written and accepted before; the deleted entry is not
    one of them; and it is an entry the previous sync had written. *)
Theorem sync_make_before_break (a : SyncAdapter) (gateway : ResolvedGateway) :
  adapter_wf a →
  let ns := gid_ConsulNamespace (rg_ID gateway) in
  let (ingress, computed) := discoveryChain gateway in
  let existing := (entriesForGateway a (rg_ID gateway)).2 in
  let '(_, history, _, _) := Sync refused a gateway in
  ∀ pre kind name namespace post,
    history = pre ++ DeleteEntry kind name namespace :: post →
    (∀ k e, with_ingress ns ingress computed !! k = Some e →
       ∃ before after, pre = before ++ SetEntry e :: after ∧ refused before (SetEntry e) = None) ∧
    with_ingress ns ingress computed !! (kind, name, namespace) = None ∧
    is_Some (entries_map ns existing !! (kind, name, namespace)).
Proof.
  intros Hwf. simpl. pose proof (discoveryChain_spec gateway) as Hspec.
  unfold Sync. destruct (discoveryChain gateway) as [ingress computed].
  destruct Hspec as (_ & Hns & _ & (Hc & _) & _).
  pose proof (entriesForGateway_in a (rg_ID gateway) Hwf) as He.
  destruct (entriesForGateway a (rg_ID gateway)) as [old existing]. cbn [snd] in He |- *.
  pose proof (sync_deletes_last ingress computed existing) as Hlast.
  destruct (run_phases refused [] (sync_phases ingress computed existing)) as [history err].
  assert (∀ pre kind name namespace post, history = pre ++ DeleteEntry kind name namespace :: post →
    (∀ k e, with_ingress (gid_ConsulNamespace (rg_ID gateway)) ingress computed !! k = Some e →
       ∃ before after, pre = before ++ SetEntry e :: after ∧ refused before (SetEntry e) = None) ∧
    with_ingress (gid_ConsulNamespace (rg_ID gateway)) ingress computed !! (kind, name, namespace)
      = None ∧
    is_Some (entries_map (gid_ConsulNamespace (rg_ID gateway)) existing !! (kind, name, namespace)))
    as Hmain.
  { intros pre kind name namespace post Hh.
    destruct (Hlast _ _ _ _ _ Hh) as (pre' & -> & Hacc & Hdel).
    apply (elem_delete_writes (gid_ConsulNamespace (rg_ID gateway))) in Hdel;
      [|by apply stale_in]. destruct Hdel as [Hkind [e Hst]].
    rewrite lookup_stale_map in Hst by done. split_and!.
    - intros k x Hx. apply elem_set_writes in Hx; [|done].
      apply list_elem_of_split in Hx as (before & after & Heq).
      exists before, (after ++ pre'). rewrite Heq, <- app_assoc. split; [done|].
      apply (Hacc before _ after Heq).
    - unfold with_ingress. rewrite lookup_insert_ne by (intros [= Hk _ _]; by rewrite <- Hk in Hkind).
      by destruct (entries_map _ computed !! _).
    - destruct (entries_map _ computed !! _); [done|]. by eexists. }
  destruct err as [e|]; [done|]. by destruct (syncIntentionsForGateway _ _ _) as [? []].
Qed.

(** Clearing a gateway removes what its syncs wrote.  For a gateway the
    adapter knows, if no delete is refused, every entry it remembers for the
    gateway, the ingress gateway included, is gone from Consul and nothing else
    changed, the ingress gateway being deleted first; the adapter forgets the
    gateway and its intentions reconciler and no other.  If a delete is
    refused, the adapter is unchanged, so that clearing can be repeated. *)
Theorem clear_removes_everything (a : SyncAdapter) (id : GatewayID) (st : syncState) :
  adapter_wf a → sa_sync a !! id = Some st →
  let '(a', history, err) := Clear refused a id in
  (∃ rest, history = delete_of (EntryIngress (ss_ingress st)) :: rest) ∧
  match err with
  | Some _ => a' = a
  | None =>
      accepted refused [] history ∧
      sa_sync a' = delete id (sa_sync a) ∧ sa_intentions a' = delete id (sa_intentions a) ∧
      ∀ store, foldl apply_write store history
               = store ∖ with_ingress (gid_ConsulNamespace id) (ss_ingress st) (ss_entries st)
  end.
Proof.
  intros Hwf Hst. destruct (Hwf id st Hst) as (Hen & Hns & _).
  unfold Clear, entriesForGateway. rewrite Hst.
  assert (clear_phases (ss_ingress st) (ss_entries st) ≫= phase_writes
    = delete_of (EntryIngress (ss_ingress st)) :: delete_writes (ss_entries st)) as Hws.
  { unfold delete_writes. rewrite !fmap_app. simpl. by rewrite app_nil_r. }
  assert (∃ rest, (run_phases refused [] (clear_phases (ss_ingress st) (ss_entries st))).1
    = delete_of (EntryIngress (ss_ingress st)) :: rest) as Hfirst.
  { cbn [clear_phases run_phases].
    destruct (run_phase_spec refused [] (DeletePhase [EntryIngress (ss_ingress st)]
      "error removing ingress config entry: ")) as [H1 _].
    destruct (run_phase _ _ _) as [h [e|]]; simpl in H1; subst h; [by eexists|].
    destruct (run_phases_spec refused (drop 1 (clear_phases (ss_ingress st) (ss_entries st)))
      [delete_of (EntryIngress (ss_ingress st))]) as (ws & rest & Hrun & _).
    cbn [clear_phases drop] in Hrun. cbn [run_phases]. cbn [run_phases] in Hrun. rewrite Hrun. by eexists. }
  destruct (run_phases refused [] _) as [h [e|]] eqn:Hrun; [done|].
  split; [done|]. apply run_phases_ok in Hrun as [-> Hacc]. rewrite Hws in Hacc |- *.
  split_and!; try done.
  intros store. simpl. fold (key_of (EntryIngress (ss_ingress st))).
  rewrite (apply_delete_writes (gid_ConsulNamespace id)) by done. unfold with_ingress.
  apply map_eq. intros k. rewrite !lookup_difference.
  destruct (decide (k = key_of (EntryIngress (ss_ingress st)))) as [->|Hne].
  - rewrite lookup_insert_eq, lookup_delete_eq. split_keys.
  - by rewrite lookup_insert_ne, lookup_delete_ne by done.
Qed.

End sync_theorems.

(** ** A concrete gateway *)

(** Consul accepts everything, and there are no intentions to reconcile. *)
Definition witness_refused (_ : list ConfigWrite) (_ : ConfigWrite) : option error := None.
Definition witness_intentions : IntentionsReconcilers :=
  {| Intentions := list string;
     NewIntentionsReconciler := λ ingress, [ingress_Name ingress];
     SetIngressServices := λ _ ingress, [ingress_Name ingress];
     Reconcile := λ i, (i, None) |}.

Definition witness_gateway_id : GatewayID := mkGatewayID "team1" "gateway".

Definition witness_route (host service : string) : ResolvedRoute :=
  ResolvedHTTP (mkHTTPRoute (mkCommonRoute ∅ "route" "team1") [host]
    [mkHTTPRouteRule [] [] [mkHTTPService (mkResolvedService "team1" service) 1 []]]).
Definition witness_gateway (routes : list ResolvedRoute) : ResolvedGateway :=
  mkResolvedGateway witness_gateway_id ∅
    [mkResolvedListener "http" "" 80 "http" zeroTLSParams routes] None.

(** The adapter after a sync of the gateway with one route. *)
Definition witness_adapter : @SyncAdapter witness_intentions :=
  let chain := @discoveryChain canonical_range (witness_gateway [witness_route "a.example" "web"]) in
  setEntriesForGateway (mkSyncAdapter ∅ ∅) witness_gateway_id chain.1 chain.2.

Lemma witness_adapter_wf : adapter_wf witness_adapter.
Proof.
  apply (@adapter_wf_set canonical_range _ (mkSyncAdapter ∅ ∅) (witness_gateway [witness_route "a.example" "web"])).
  - by intros id st.
  - by rewrite <- surjective_pairing.
Qed.

(** The route moves to another hostname: the new router is in place, the old
    one is gone, and an entry of another service is untouched. *)
Lemma sync_applies_exactly_witness :
  let gateway := witness_gateway [witness_route "b.example" "web"] in
  let '(a', history, didSync, err) :=
    @Sync canonical_range witness_intentions witness_refused witness_adapter gateway in
  let other := EntryDefaults (mkServiceConfigEntry "other" "team1" "tcp" ∅) in
  let store := foldl apply_write {[key_of other := other]} history in
  adapter_wf a' ∧ didSync = true ∧ size store = 4 ∧ store !! key_of other = Some other.
Proof.
  cbv zeta.
  pose proof (@sync_applies_exactly canonical_range witness_intentions witness_refused
    witness_adapter (witness_gateway [witness_route "b.example" "web"]) witness_adapter_wf) as H.
  cbv zeta in H. destruct (discoveryChain _) as [ingress computed] eqn:Hchain.
  destruct (Sync _ _ _) as [[[a' history] didSync] err] eqn:Hsync.
  assert (didSync = true) as Hd
    by (change didSync with (a', history, didSync, err).1.2; rewrite <- Hsync; vm_compute; reflexivity).
  assert (err = None) as He
    by (change err with (a', history, didSync, err).2; rewrite <- Hsync; vm_compute; reflexivity).
  destruct H as (Hwf & _ & [(_ & _ & Hstore)|[_ Hne]]); [|by destruct Hne].
  split; [exact Hwf|]. split; [exact Hd|]. rewrite Hstore.
  assert (ingress = (@discoveryChain canonical_range
    (witness_gateway [witness_route "b.example" "web"])).1) as -> by (by rewrite Hchain).
  assert (computed = (@discoveryChain canonical_range
    (witness_gateway [witness_route "b.example" "web"])).2) as -> by (by rewrite Hchain).
  split; vm_compute; reflexivity.
Defined.

(** The only delete of that sync is that of the old router and its defaults,
    after the new ingress gateway was accepted. *)
Lemma sync_make_before_break_witness :
  let gateway := witness_gateway [witness_route "b.example" "web"] in
  let '(_, history, _, _) :=
    @Sync canonical_range witness_intentions witness_refused witness_adapter gateway in
  length history = 5 ∧
  ∃ kind name, kind ≠ IngressGateway ∧
    (∃ pre post, history = pre ++ DeleteEntry kind name "team1" :: post ∧
       SetEntry (EntryIngress (@discoveryChain canonical_range gateway).1) ∈ pre).
Proof.
  cbv zeta.
  pose proof (@sync_make_before_break canonical_range witness_intentions witness_refused
    witness_adapter (witness_gateway [witness_route "b.example" "web"]) witness_adapter_wf) as H.
  cbv zeta in H. destruct (discoveryChain _) as [ingress computed] eqn:Hchain.
  destruct (Sync _ _ _) as [[[a' history] didSync] err] eqn:Hsync.
  assert (history = (@Sync canonical_range witness_intentions witness_refused witness_adapter
    (witness_gateway [witness_route "b.example" "web"])).1.1.2) as Hh by (by rewrite Hsync).
  split; [rewrite Hh; vm_compute; reflexivity|].
  exists ServiceRouter, ("gateway-" +:+ hostsKey ["a.example"]). split; [done|].
  exists (take 3 history), (drop 4 history). split.
  - rewrite Hh. vm_compute. reflexivity.
  - destruct (H (take 3 history) ServiceRouter ("gateway-" +:+ hostsKey ["a.example"]) "team1"
      (drop 4 history)) as [Hset _].
    + rewrite Hh. vm_compute. reflexivity.
    + destruct (Hset (key_of (EntryIngress ingress)) (EntryIngress ingress)) as (b & c & -> & _).
      * unfold with_ingress. apply lookup_insert_eq.
      * simpl. apply elem_of_app. right. left.
Defined.

Lemma clear_removes_everything_witness :
  let '(a', history, err) :=
    @Clear canonical_range witness_intentions witness_refused witness_adapter witness_gateway_id in
  sa_sync a' = ∅ ∧ length history = 3 ∧ err = None ∧
  ∃ rest, history = DeleteEntry IngressGateway "gateway" "team1" :: rest.
Proof.
  destruct (sa_sync witness_adapter !! witness_gateway_id) as [st|] eqn:Hst; [|discriminate Hst].
  pose proof (@clear_removes_everything canonical_range witness_intentions witness_refused
    witness_adapter witness_gateway_id st witness_adapter_wf Hst) as H.
  destruct (Clear _ _ _) as [[a' history] err] eqn:Hclear.
  assert (err = None) as He
    by (change err with (a', history, err).2; rewrite <- Hclear; vm_compute; reflexivity).
  destruct H as [[rest Hh] H]. rewrite He in H. destruct H as (_ & Hsync & _).
  split; [rewrite Hsync; vm_compute; reflexivity|].
  split; [change history with (a', history, err).1.2; rewrite <- Hclear; vm_compute; reflexivity|].
  split; [exact He|]. exists rest. rewrite Hh. f_equal.
  injection Hst as <-. vm_compute. reflexivity.
Defined.

(** Routers are named after the gateway and a hash of the hostname only,
    with two consequences.  When two listeners of a gateway serve the same
    hostname, they share one router, and the routes of the later listener
    replace those of the earlier: of two services attached to two ports, only
    the second is reachable.  And distinct hostnames with the same CRC-32
    share a router too. *)
Theorem router_names_collide :
  let listener port routes := mkResolvedListener "" "" port "http" zeroTLSParams routes in
  let gateway := mkResolvedGateway witness_gateway_id ∅
    [listener 80%Z [witness_route "*" "public"]; listener 8080%Z [witness_route "*" "private"]] None in
  let router := "gateway-" +:+ hostsKey ["*"] in
  let (ingress, en) := @discoveryChain canonical_range gateway in
  (λ il, (il_Port il, isvc_Name <$> il_Services il)) <$> ingress_Listeners ingress
  = [(80%Z, [router]); (8080%Z, [router])] ∧
  (∃ r, ConfigEntryIndex_Get (en_routers en) router = Some (EntryRouter r) ∧
     (λ route, srd_Service (sr_Destination route)) <$> router_Routes r = ["private"]) ∧
  hostsKey ["plumless"] = hostsKey ["buckeroo"].
Proof.
  cbv zeta. rewrite (surjective_pairing (discoveryChain _)).
  split; [vm_compute; reflexivity|]. split; [|vm_compute; reflexivity].
  eexists. split; vm_compute; reflexivity.
Qed.
