(* ===== verification/Builder.v ===== *)
(** * Manifests of a gateway ([internal/k8s/builder], [pkg/apis/v1alpha1/types.go])

    The Deployment, Service, ServiceAccount, Role and RoleBinding a gateway is
    deployed with, built from the gateway and the configuration of its class,
    and the merge functions that carry changes over to the objects of the
    cluster.

    The environment of the process is the class [Environment].  A builder
    holds a pointer to the configuration; building without one is a nil
    dereference ([None]).  The text template of the container's arguments is
    rendered by [render_args], with the trim markers of the template applied. *)

From S2P Require Import Prelude Errors K8s.

(** [os.Getenv]. *)
Class Environment : Type := { Getenv : string → string }.

(** [internal/version/version.go]. *)
Definition Version : string := "0.6.0".
Definition VersionPrerelease : string := "dev".

(** ** Defaults ([builder.go]) *)

Definition defaultServiceAnnotations : list string :=
  ["external-dns.alpha.kubernetes.io/hostname"].
Definition defaultEnvoyImage : string := "envoyproxy/envoy:v1.24-latest".
Definition defaultLogLevel : string := "info".
Definition defaultConsulAddress : string := "$(HOST_IP)".
Definition defaultConsulHTTPPort : string := "8500".
Definition defaultConsulXDSPort : string := "8502".
Definition defaultInstances : Z := 1.
Definition consulCALocalPath : string := "/consul/tls".
Definition consulCAFilename : string := "ca.pem".
Definition consulCALocalFile : string := "/consul/tls/ca.pem".
Definition k8sHostnameTopologyKey : string := "kubernetes.io/hostname".
(** [api.HTTPCAFile] of the Consul API package. *)
Definition HTTPCAFile : string := "CONSUL_CACERT".

Definition orDefault (value defaultValue : string) : string :=
  if decide (value = "") then defaultValue else value.

Definition orDefaultIntString (value : Z) (defaultValue : string) : string :=
  if decide (value = 0%Z) then defaultValue else strconv_Itoa value.

Definition defaultImage : string :=
  "hashicorp/consul-api-gateway:" +:+ Version +:+
  (if decide (VersionPrerelease = "") then "" else "-" +:+ VersionPrerelease).

Section builder.
Context {EN : Environment}.

Definition defaultPartition : string := Getenv "CONSUL_PARTITION".
Definition defaultServerName : string := Getenv "CONSUL_TLS_SERVER_NAME".

(** ** Services ([gateway.go]) *)

Record GatewayServiceBuilder : Type := mkServiceBuilder {
  sb_gateway : Gateway;
  sb_gwConfig : option GatewayClassConfig
}.

Definition NewGatewayService (gw : Gateway) : GatewayServiceBuilder := mkServiceBuilder gw None.
Definition sb_WithClassConfig (cfg : GatewayClassConfig) (b : GatewayServiceBuilder) :
    GatewayServiceBuilder := mkServiceBuilder (sb_gateway b) (Some cfg).

Definition filterAnnotations (annotations : gmap string string) (allowed : list string) :
    gmap string string :=
  foldl (λ filtered annotation,
    match annotations !! annotation with
    | Some value => <[annotation := value]> filtered
    | None => filtered
    end) ∅ allowed.

(** A nil service is [Some None]. *)
Definition sb_Build (b : GatewayServiceBuilder) : option (option Service) :=
  cfg ← sb_gwConfig b;
  let spec := gcc_Spec cfg in
  Some match gcc_ServiceType spec with
  | None => None
  | Some serviceType =>
      let gateway := sb_gateway b in
      let ports :=
        (λ listener, mkServicePort (l_Name listener) "TCP" (l_Port listener)) <$> gw_Listeners gateway in
      let labels := LabelsForGateway gateway in
      let allowedAnnotations := default defaultServiceAnnotations (gcc_CopyAnnotations spec) in
      Some (mkService
        (new_meta (om_Name (gw_Meta gateway)) (om_Namespace (gw_Meta gateway)) labels
           (filterAnnotations (om_Annotations (gw_Meta gateway)) allowedAnnotations))
        serviceType "" labels ports [])
  end.

(** ** Deployments ([gateway.go]) *)

Record GatewayDeploymentBuilder : Type := mkDeploymentBuilder {
  db_gateway : Gateway;
  db_gwConfig : option GatewayClassConfig;
  db_sdsHost : string;
  db_sdsPort : Z;
  db_consulCAData : string;
  db_consulGatewayNamespace : string;
  db_consulPrimaryDatacenter : string
}.

Definition NewGatewayDeployment (gw : Gateway) : GatewayDeploymentBuilder :=
  mkDeploymentBuilder gw None "" 0 "" "" "".
Definition WithClassConfig (cfg : GatewayClassConfig) (b : GatewayDeploymentBuilder) :=
  mkDeploymentBuilder (db_gateway b) (Some cfg) (db_sdsHost b) (db_sdsPort b) (db_consulCAData b)
    (db_consulGatewayNamespace b) (db_consulPrimaryDatacenter b).
Definition WithSDS (host : string) (port : Z) (b : GatewayDeploymentBuilder) :=
  mkDeploymentBuilder (db_gateway b) (db_gwConfig b) host port (db_consulCAData b)
    (db_consulGatewayNamespace b) (db_consulPrimaryDatacenter b).
Definition WithConsulCA (caData : string) (b : GatewayDeploymentBuilder) :=
  mkDeploymentBuilder (db_gateway b) (db_gwConfig b) (db_sdsHost b) (db_sdsPort b) caData
    (db_consulGatewayNamespace b) (db_consulPrimaryDatacenter b).
Definition WithConsulGatewayNamespace (namespace : string) (b : GatewayDeploymentBuilder) :=
  mkDeploymentBuilder (db_gateway b) (db_gwConfig b) (db_sdsHost b) (db_sdsPort b)
    (db_consulCAData b) namespace (db_consulPrimaryDatacenter b).
Definition WithPrimaryConsulDatacenter (datacenter : string) (b : GatewayDeploymentBuilder) :=
  mkDeploymentBuilder (db_gateway b) (db_gwConfig b) (db_sdsHost b) (db_sdsPort b)
    (db_consulCAData b) (db_consulGatewayNamespace b) datacenter.

(** [gwContainerCommandData] and the rendering of [gwContainerArgsTpl]. *)
Record gwContainerCommandData : Type := mkCommandData {
  cd_ConsulCAFile : string;
  cd_ConsulCAData : string;
  cd_ConsulHTTPAddr : string;
  cd_ConsulHTTPPort : string;
  cd_ConsulGRPCPort : string;
  cd_ACLAuthMethod : string;
  cd_LogLevel : string;
  cd_GatewayHost : string;
  cd_GatewayName : string;
  cd_GatewayNamespace : string;
  cd_PrimaryDatacenter : string;
  cd_SDSHost : string;
  cd_SDSPort : Z
}.

Definition newline : Ascii.ascii := "010"%char.
Definition nl : string := String newline "".

(** An optional flag of the template. *)
Definition template_if (value flag : string) : string :=
  if decide (value = "") then "" else nl +:+ flag +:+ nl +:+ value.

Definition render_args (d : gwContainerCommandData) : string :=
  "-log-json" +:+ nl +:+ "-log-level" +:+ nl +:+ cd_LogLevel d +:+ nl +:+
  "-gateway-host" +:+ nl +:+ cd_GatewayHost d +:+ nl +:+
  "-gateway-name" +:+ nl +:+ cd_GatewayName d +:+
  template_if (cd_GatewayNamespace d) "-gateway-namespace" +:+ nl +:+
  "-consul-http-address" +:+ nl +:+ cd_ConsulHTTPAddr d +:+ nl +:+
  "-consul-http-port" +:+ nl +:+ cd_ConsulHTTPPort d +:+ nl +:+
  "-consul-xds-port" +:+ nl +:+ cd_ConsulGRPCPort d +:+
  template_if (cd_ACLAuthMethod d) "-acl-auth-method" +:+
  template_if (cd_PrimaryDatacenter d) "-consul-primary-datacenter" +:+ nl +:+
  "-envoy-bootstrap-path" +:+ nl +:+ "/bootstrap/envoy.json" +:+ nl +:+
  "-envoy-sds-address" +:+ nl +:+ cd_SDSHost d +:+ nl +:+
  "-envoy-sds-port" +:+ nl +:+ strconv_Itoa (cd_SDSPort d).

(** The methods that read the configuration through the pointer. *)
Section with_config.
Context (b : GatewayDeploymentBuilder) (gwConfig : GatewayClassConfig).

Definition instances (currentReplicas : option Z) : Z :=
  let spec := gcc_DeploymentSpec (gcc_Spec gwConfig) in
  let instanceValue :=
    match currentReplicas, ds_DefaultInstances spec with
    | Some current, _ => current
    | None, Some value => value
    | None, None => defaultInstances
    end in
  let instanceValue :=
    match ds_MaxInstances spec with
    | Some maxValue => if (maxValue <? instanceValue)%Z then maxValue else instanceValue
    | None => instanceValue
    end in
  match ds_MinInstances spec with
  | Some minValue => if (instanceValue <? minValue)%Z then minValue else instanceValue
  | None => instanceValue
  end.

Definition requiresCA : bool :=
  bool_decide (cs_Scheme (gcc_ConsulSpec (gcc_Spec gwConfig)) = "https").

Definition command_data : gwContainerCommandData :=
  let consul := gcc_ConsulSpec (gcc_Spec gwConfig) in
  {| cd_ConsulCAFile := if requiresCA then consulCALocalFile else "";
     cd_ConsulCAData := if requiresCA then db_consulCAData b else "";
     cd_ConsulHTTPAddr := orDefault (cs_Address consul) defaultConsulAddress;
     cd_ConsulHTTPPort := orDefaultIntString (ps_HTTP (cs_PortSpec consul)) defaultConsulHTTPPort;
     cd_ConsulGRPCPort := orDefaultIntString (ps_GRPC (cs_PortSpec consul)) defaultConsulXDSPort;
     cd_ACLAuthMethod := as_Method (cs_AuthSpec consul);
     cd_LogLevel := orDefault (gcc_LogLevel (gcc_Spec gwConfig)) defaultLogLevel;
     cd_GatewayHost := "$(IP)";
     cd_GatewayName := om_Name (gw_Meta (db_gateway b));
     cd_GatewayNamespace := db_consulGatewayNamespace b;
     cd_PrimaryDatacenter := db_consulPrimaryDatacenter b;
     cd_SDSHost := db_sdsHost b;
     cd_SDSPort := db_sdsPort b |}.

Definition execArgs : list string := strings_Split newline (render_args command_data).

Definition envVars : list EnvVar :=
  let consul := gcc_ConsulSpec (gcc_Spec gwConfig) in
  [mkEnvVar "IP" (EnvFieldRef "status.podIP");
   mkEnvVar "HOST_IP" (EnvFieldRef "status.hostIP");
   mkEnvVar "CONSUL_LOGIN_PARTITION" (EnvValue (Getenv "CONSUL_LOGIN_PARTITION"));
   mkEnvVar "CONSUL_LOGIN_DATACENTER" (EnvValue (Getenv "CONSUL_LOGIN_DATACENTER"));
   mkEnvVar "CONSUL_DYNAMIC_SERVER_DISCOVERY" (EnvValue (Getenv "CONSUL_DYNAMIC_SERVER_DISCOVERY"));
   mkEnvVar "CONSUL_PARTITION" (EnvValue (orDefault (cs_Partition consul) defaultPartition));
   mkEnvVar "CONSUL_TLS_SERVER_NAME" (EnvValue (orDefault (cs_ServerName consul) defaultServerName));
   mkEnvVar "PATH" (EnvValue "/:/sbin:/bin:/usr/bin:/usr/local/bin:/bootstrap")]
  ++ (if requiresCA then [mkEnvVar HTTPCAFile (EnvValue consulCALocalFile)] else []).

Definition volumes : list Volume * list VolumeMount :=
  let volumes := [mkVolume "bootstrap" VolumeEmptyDir; mkVolume "certs" VolumeEmptyDir] in
  let mounts := [mkVolumeMount "bootstrap" "/bootstrap"; mkVolumeMount "certs" "/certs"] in
  if requiresCA then
    (volumes ++ [mkVolume "ca" (VolumeSecret (om_Name (gw_Meta (db_gateway b)))
                                  [("consul-ca-cert", consulCAFilename)] (Some false))],
     mounts ++ [mkVolumeMount "ca" consulCALocalPath])
  else (volumes, mounts).

Definition containerPorts : list ContainerPort :=
  mkContainerPort "ready" "TCP" 20000 0 ::
  ((λ listener, mkContainerPort (l_Name listener) "TCP" (l_Port listener)
     (if gcc_UseHostPorts (gcc_Spec gwConfig) then l_Port listener else 0%Z))
   <$> gw_Listeners (db_gateway b)).

Definition podSpec : PodSpec :=
  let spec := gcc_Spec gwConfig in
  let '(vols, mounts) := volumes in
  let defaultServiceAccount :=
    if as_Managed (cs_AuthSpec (gcc_ConsulSpec spec)) then om_Name (gw_Meta (db_gateway b)) else "" in
  let labels := LabelsForGateway (db_gateway b) in
  mkPodSpec [mkAffinityTerm 1 labels k8sHostnameTopologyKey]
    (gcc_NodeSelector spec) (gcc_Tolerations spec)
    (orDefault (as_Account (cs_AuthSpec (gcc_ConsulSpec spec))) defaultServiceAccount)
    [mkContainer (orDefault (is_ConsulAPIGateway (gcc_ImageSpec spec)) defaultImage)
       "consul-api-gateway-init" mounts [] []
       ["cp"; "/bin/discover"; "/bin/consul-api-gateway"; "/bootstrap/"] [] None]
    [mkContainer (orDefault (is_Envoy (gcc_ImageSpec spec)) defaultEnvoyImage)
       "consul-api-gateway" mounts containerPorts envVars
       ["/bootstrap/consul-api-gateway"; "exec"] execArgs (Some ("/ready", 20000%Z))]
    vols.

End with_config.

Definition db_Build (b : GatewayDeploymentBuilder) (currentReplicas : option Z) :
    option Deployment :=
  cfg ← db_gwConfig b;
  let gateway := db_gateway b in
  let labels := LabelsForGateway gateway in
  Some (mkDeployment (new_meta (om_Name (gw_Meta gateway)) (om_Namespace (gw_Meta gateway)) labels ∅)
    (Some (instances cfg currentReplicas)) labels
    (mkPodTemplateSpec labels {["consul.hashicorp.com/connect-inject" := "false"]}
       (podSpec b cfg))).

End builder.

(** ** Access objects ([types.go]) *)

Definition RoleFor (c : GatewayClassConfig) (gw : Gateway) : option Role :=
  let auth := cs_AuthSpec (gcc_ConsulSpec (gcc_Spec c)) in
  if negb (as_Managed auth) || bool_decide (as_PodSecurityPolicy auth = "") then None
  else Some (mkRole (new_meta (om_Name (gw_Meta gw)) (om_Namespace (gw_Meta gw)) (LabelsForGateway gw) ∅)
    [mkPolicyRule ["policy"] ["podsecuritypolicies"] [as_PodSecurityPolicy auth] ["use"]]).

Definition ServiceAccountFor (c : GatewayClassConfig) (gw : Gateway) : option ServiceAccount :=
  if negb (as_Managed (cs_AuthSpec (gcc_ConsulSpec (gcc_Spec c)))) then None
  else Some (mkServiceAccount
    (new_meta (om_Name (gw_Meta gw)) (om_Namespace (gw_Meta gw)) (LabelsForGateway gw) ∅)).

Definition RoleBindingFor (c : GatewayClassConfig) (gw : Gateway) : option RoleBinding :=
  serviceAccount ← ServiceAccountFor c gw;
  role ← RoleFor c gw;
  Some (mkRoleBinding
    (new_meta (om_Name (gw_Meta gw)) (om_Namespace (gw_Meta gw)) (LabelsForGateway gw) ∅)
    ("rbac.authorization.k8s.io", "Role", om_Name (role_Meta role))
    [("ServiceAccount", om_Name (sa_Meta serviceAccount), om_Namespace (sa_Meta serviceAccount))]).

(** ** Merging with the objects of the cluster ([types.go]) *)

Definition compareSecrets (a b : Secret) : bool :=
  bool_decide (om_Annotations (sec_Meta a) = om_Annotations (sec_Meta b)) &&
  bool_decide (size (sec_Data b) = size (sec_Data a)) &&
  forallb (λ '(k, v), bool_decide (sec_Data b !! k = Some v)) (map_to_list (sec_Data a)).

Definition MergeSecret (a b : Secret) : Secret :=
  if compareSecrets a b then b
  else mkSecret (om_set_Annotations (om_Annotations (sec_Meta a)) (sec_Meta b)) (sec_Type b) (sec_Data a).

Definition compareServices (a b : Service) : bool :=
  bool_decide (om_Annotations (svc_Meta a) = om_Annotations (svc_Meta b)) &&
  forallb2 (λ port otherPort : ServicePort,
    bool_decide (sp_Port port = sp_Port otherPort) &&
    bool_decide (sp_Protocol port = sp_Protocol otherPort)) (svc_Ports a) (svc_Ports b).

Definition MergeService (a b : Service) : Service :=
  if compareServices a b then b
  else mkService (om_set_Annotations (om_Annotations (svc_Meta a)) (svc_Meta b)) (svc_Type b)
    (svc_ClusterIP b) (svc_Selector b) (svc_Ports a) (svc_Ingress b).

Definition same_ports (a b : Container) : bool :=
  forallb2 (λ port otherPort : ContainerPort,
    bool_decide (cp_ContainerPort port = cp_ContainerPort otherPort) &&
    bool_decide (cp_Protocol port = cp_Protocol otherPort)) (ct_Ports a) (ct_Ports b).

(** The replica counts are only dereferenced when the containers agree. *)
Definition compareDeployments (a b : Deployment) : option bool :=
  if forallb2 same_ports (pspec_Containers (pt_Spec (dep_Template a)))
       (pspec_Containers (pt_Spec (dep_Template b)))
  then replicasB ← dep_Replicas b; replicasA ← dep_Replicas a;
       Some (bool_decide (replicasB = replicasA))
  else Some false.

Definition MergeDeployment (a b : Deployment) : option Deployment :=
  equal ← compareDeployments a b;
  Some (if equal : bool then b
        else mkDeployment (dep_Meta b) (dep_Replicas a) (dep_MatchLabels b) (dep_Template a)).

(** ** Replicas *)

(** The number of replicas stays within the bounds of the class.  When the
    minimum is not above the maximum, a gateway is deployed with a number of
    replicas between them; a number set by the user, or else the default, is
    kept when it is within the bounds. *)
Theorem replicas_within_bounds (cfg : GatewayClassConfig) (currentReplicas : option Z) :
  let spec := gcc_DeploymentSpec (gcc_Spec cfg) in
  let wanted :=
    default (default defaultInstances (ds_DefaultInstances spec)) currentReplicas in
  let n := instances cfg currentReplicas in
  (∀ lo hi, ds_MinInstances spec = Some lo → ds_MaxInstances spec = Some hi → lo ≤ hi)%Z →
  (∀ lo, ds_MinInstances spec = Some lo → lo ≤ n)%Z ∧
  (∀ hi, ds_MaxInstances spec = Some hi → n ≤ hi)%Z ∧
  ((∀ lo, ds_MinInstances spec = Some lo → lo ≤ wanted)%Z →
   (∀ hi, ds_MaxInstances spec = Some hi → wanted ≤ hi)%Z → n = wanted).
Proof.
  intros spec wanted n Hle. unfold n, instances. fold spec.
  replace (match currentReplicas, ds_DefaultInstances spec with
    | Some current, _ => current | None, Some value => value | None, None => defaultInstances end)
    with wanted by (unfold wanted; by destruct currentReplicas, (ds_DefaultInstances spec)).
  clearbody wanted. clear n.
  destruct (ds_MinInstances spec) as [lo|], (ds_MaxInstances spec) as [hi|]; simpl in *;
    repeat match goal with |- context [(?a <? ?b)%Z] => destruct (Z.ltb_spec a b) end;
    split_and!; intros; simplify_eq; try done;
    repeat match goal with H : ∀ _, Some ?x = Some _ → _ |- _ => specialize (H x eq_refl) end;
    try specialize (Hle _ _ eq_refl eq_refl);
    repeat match goal with H : context [(?a <? ?b)%Z] |- _ => destruct (Z.ltb_spec a b) end; lia.
Qed.

(** ** Arguments *)

Definition single_line (s : string) : Prop := strings_Split newline s = [s].

Definition optional_flag (value flag : string) : list string :=
  if decide (value = "") then [] else [flag; value].

(** The arguments the container is meant to get. *)
Definition wanted_args (d : gwContainerCommandData) : list string :=
  ["-log-json"; "-log-level"; cd_LogLevel d; "-gateway-host"; cd_GatewayHost d;
   "-gateway-name"; cd_GatewayName d] ++
  optional_flag (cd_GatewayNamespace d) "-gateway-namespace" ++
  ["-consul-http-address"; cd_ConsulHTTPAddr d; "-consul-http-port"; cd_ConsulHTTPPort d;
   "-consul-xds-port"; cd_ConsulGRPCPort d] ++
  optional_flag (cd_ACLAuthMethod d) "-acl-auth-method" ++
  optional_flag (cd_PrimaryDatacenter d) "-consul-primary-datacenter" ++
  ["-envoy-bootstrap-path"; "/bootstrap/envoy.json"; "-envoy-sds-address"; cd_SDSHost d;
   "-envoy-sds-port"; strconv_Itoa (cd_SDSPort d)].

Lemma render_args_join d : render_args d = strings_Join (wanted_args d) nl.
Proof.
  unfold render_args, wanted_args, template_if, optional_flag. by repeat case_decide.
Qed.

Lemma Itoa_single_line z : single_line (strconv_Itoa z).
Proof.
  apply strconv_Itoa_token; [|done]. intros d. unfold pretty_N_char. by repeat case_match.
Qed.

Lemma orDefault_single_line s d : single_line s → single_line d → single_line (orDefault s d).
Proof. unfold orDefault. by case_decide. Qed.

Lemma orDefaultInt_single_line z d : single_line d → single_line (orDefaultIntString z d).
Proof. unfold orDefaultIntString. case_decide; [done|]. intros _. apply Itoa_single_line. Qed.

Lemma optional_flag_single_line value flag :
  single_line flag → single_line value → Forall single_line (optional_flag value flag).
Proof. intros. unfold optional_flag. case_decide; by repeat constructor. Qed.

(** The container gets its arguments one by one.  When the configured
    strings are single lines, the rendered template splits into exactly the
    flags with their values, the optional ones only when they are set. *)
Theorem exec_args_exact (b : GatewayDeploymentBuilder) (cfg : GatewayClassConfig) :
  let consul := gcc_ConsulSpec (gcc_Spec cfg) in
  Forall single_line
    [cs_Address consul; as_Method (cs_AuthSpec consul); gcc_LogLevel (gcc_Spec cfg);
     om_Name (gw_Meta (db_gateway b)); db_consulGatewayNamespace b; db_consulPrimaryDatacenter b;
     db_sdsHost b] →
  execArgs b cfg = wanted_args (command_data b cfg).
Proof.
  intros consul Hall. rewrite !Forall_cons in Hall.
  destruct Hall as (Haddr & Hmethod & Hlevel & Hname & Hns & Hdc & Hsds & _).
  unfold execArgs. rewrite render_args_join. apply strings_Split_Join; [done|].
  unfold wanted_args. cbn [command_data cd_LogLevel cd_GatewayHost cd_GatewayName
    cd_GatewayNamespace cd_ConsulHTTPAddr cd_ConsulHTTPPort cd_ConsulGRPCPort cd_ACLAuthMethod
    cd_PrimaryDatacenter cd_SDSHost cd_SDSPort].
  change (λ x, strings_Split newline x = [x]) with single_line.
  rewrite !Forall_app, !Forall_cons, !Forall_nil. fold consul.
  split_and!; try done;
    first [by apply optional_flag_single_line|by apply orDefault_single_line
          |by apply orDefaultInt_single_line|apply Itoa_single_line].
Qed.

(** ** Merging *)

Lemma compareServices_merged a b : compareServices a (MergeService a b) = true.
Proof.
  unfold MergeService. destruct (compareServices a b) eqn:Hc; [done|].
  unfold compareServices. simpl. rewrite bool_decide_true by done. simpl.
  apply forallb2_refl. intros p. by rewrite !bool_decide_true.
Qed.

Lemma MergeService_idemp a b : MergeService a (MergeService a b) = MergeService a b.
Proof. unfold MergeService at 1. by rewrite compareServices_merged. Qed.

Lemma compareSecrets_same_data a b :
  om_Annotations (sec_Meta a) = om_Annotations (sec_Meta b) → sec_Data a = sec_Data b →
  compareSecrets a b = true.
Proof.
  intros Ha Hd. unfold compareSecrets. rewrite Ha, Hd, !bool_decide_true by done. simpl.
  apply forallb_forall. intros [k v] Hkv%list_elem_of_In%elem_of_map_to_list.
  by rewrite bool_decide_true.
Qed.

Lemma MergeSecret_idemp a b : MergeSecret a (MergeSecret a b) = MergeSecret a b.
Proof.
  unfold MergeSecret at 1. destruct (compareSecrets a b) eqn:Hc.
  - unfold MergeSecret. by rewrite Hc, Hc.
  - unfold MergeSecret. rewrite Hc. by rewrite compareSecrets_same_data.
Qed.

Lemma compareSecrets_data a b : compareSecrets a b = true → sec_Data b = sec_Data a.
Proof.
  unfold compareSecrets. rewrite !andb_true_iff, !bool_decide_eq_true, forallb_forall.
  intros [[_ Hsize] Hall]. symmetry. apply map_subseteq_size_eq; [|by rewrite Hsize].
  apply map_subseteq_spec. intros k v Hkv.
  specialize (Hall (k, v)). apply bool_decide_eq_true in Hall; [done|].
  by apply list_elem_of_In, elem_of_map_to_list.
Qed.

Lemma same_ports_refl c : same_ports c c = true.
Proof. apply forallb2_refl. intros p. by rewrite !bool_decide_true. Qed.

Lemma MergeDeployment_idemp a b b' :
  is_Some (dep_Replicas a) → MergeDeployment a b = Some b' → MergeDeployment a b' = Some b'.
Proof.
  intros [n Hn]. unfold MergeDeployment. destruct (compareDeployments a b) as [[|]|] eqn:Hc; simpl.
  - intros [= <-]. by rewrite Hc.
  - intros [= <-]. unfold compareDeployments. simpl.
    rewrite forallb2_refl by apply same_ports_refl. rewrite Hn. simpl.
    by rewrite bool_decide_true.
  - done.
Qed.

(** ** Service accounts *)

(** The account of a managed gateway is not ignored.  The documentation of
    [account] says it is ignored when [managed] is set; the pods nevertheless
    run as the configured account, while the managed service account, with its
    role and binding, is created under the name of the gateway. *)
Theorem managed_account_not_ignored `{Environment} (b : GatewayDeploymentBuilder)
    (cfg : GatewayClassConfig) :
  let auth := cs_AuthSpec (gcc_ConsulSpec (gcc_Spec cfg)) in
  as_Managed auth = true → as_Account auth ≠ "" →
  pspec_ServiceAccountName (podSpec b cfg) = as_Account auth ∧
  (om_Name ∘ sa_Meta <$> ServiceAccountFor cfg (db_gateway b))
    = Some (om_Name (gw_Meta (db_gateway b))).
Proof.
  intros auth Hm Ha. unfold podSpec, ServiceAccountFor, volumes. fold auth. rewrite Hm.
  destruct (requiresCA cfg); simpl; unfold orDefault; fold auth; by rewrite decide_False.
Qed.

(** ** Examples *)

Module BuilderExamples.

Definition environment : Environment := {| Getenv := λ _, "" |}.

Definition gateway : Gateway :=
  mkGateway (mkObjectMeta "gateway" "default" "uid" 1 "1" 0 ∅
      {["external-dns.alpha.kubernetes.io/hostname" := "example.com"]} [] [] None)
    (mkGroupKind GroupName "Gateway") "class"
    [mkListener "http" None 80 "HTTP" None None] [] (mkGatewayStatusObj [] [] []).

(** A managed, load-balanced gateway with one to four replicas. *)
Definition config : GatewayClassConfig :=
  mkGatewayClassConfig (new_meta "config" "" ∅ ∅) (mkGatewayClassConfigSpec (Some "LoadBalancer") ∅ [] false
    (mkConsulSpec (mkAuthSpec true "method" "other" "" "policy") "https" "" "" "" (mkPortSpec 0 0))
    (mkImageSpec "" "") None "" (mkDeploymentSpec (Some 2%Z) (Some 4%Z) (Some 1%Z)) None).

Definition builder : GatewayDeploymentBuilder :=
  WithConsulGatewayNamespace "team" (WithSDS "sds" 9090 (NewGatewayDeployment gateway)).

End BuilderExamples.

Lemma replicas_within_bounds_witness :
  instances BuilderExamples.config (Some 9%Z) = 4%Z ∧
  (∀ hi, Some 4%Z = Some hi → instances BuilderExamples.config (Some 9) ≤ hi)%Z.
Proof.
  split; [reflexivity|].
  apply (replicas_within_bounds BuilderExamples.config (Some 9%Z)).
  intros lo hi [= <-] [= <-]. lia.
Defined.

Lemma exec_args_exact_witness :
  execArgs BuilderExamples.builder BuilderExamples.config =
  ["-log-json"; "-log-level"; "info"; "-gateway-host"; "$(IP)"; "-gateway-name"; "gateway";
   "-gateway-namespace"; "team"; "-consul-http-address"; "$(HOST_IP)"; "-consul-http-port"; "8500";
   "-consul-xds-port"; "8502"; "-acl-auth-method"; "method"; "-envoy-bootstrap-path";
   "/bootstrap/envoy.json"; "-envoy-sds-address"; "sds"; "-envoy-sds-port"; "9090"].
Proof.
  rewrite (exec_args_exact BuilderExamples.builder BuilderExamples.config).
  - reflexivity.
  - repeat constructor.
Defined.

Lemma managed_account_not_ignored_witness :
  pspec_ServiceAccountName (@podSpec BuilderExamples.environment BuilderExamples.builder
    BuilderExamples.config) = "other".
Proof.
  apply (@managed_account_not_ignored BuilderExamples.environment BuilderExamples.builder
    BuilderExamples.config); [reflexivity|discriminate].
Defined.
