(* ===== verification/ClassConfig.v ===== *)
(** * Snapshots of class configurations ([pkg/apis/v1alpha1/types.go], [manager.go])

    A gateway keeps the configuration of its class as an annotation, in JSON,
    so that later changes of the class do not affect it.  The encoding follows
    the [json] tags of the structs: members marked [omitempty] are left out
    when they hold the zero value, structs are always written.  Integers of
    the model are unbounded; [spec_in_range] says that those of a
    configuration have the width of their type. *)

From S2P Require Import Prelude Errors Json K8s Builder.

(** ** Structs *)

(** The members of a struct, [None] for an omitted one. *)
Definition json_fields (fields : list (string * option json)) : list (string * json) :=
  omap (λ f : string * option json, pair f.1 <$> f.2) fields.

Definition json_struct (fields : list (string * option json)) : json := JObject (json_fields fields).

Definition omit_string (s : string) : option json :=
  if decide (s = "") then None else Some (JString s).
Definition omit_bool (b : bool) : option json := if b then Some (JBool b) else None.
Definition omit_int (z : Z) : option json := if decide (z = 0%Z) then None else Some (JNumber z).
Definition omit_pointer {A} (f : A → json) (p : option A) : option json := f <$> p.
Definition omit_list {A} (f : A → json) (xs : list A) : option json :=
  match xs with [] => None | _ => Some (JArray (f <$> xs)) end.
Definition omit_map (m : gmap string string) : option json :=
  if decide (m = ∅) then None else Some (json_Marshal_map JString m).

(** Reading a member; one that is missing or [null] leaves the zero value. *)
Definition json_member (fields : list (string * json)) (name : string) : json :=
  default JNull (json_members fields !! name).

Definition read_bool (j : json) : result bool :=
  match j with JNull => Ok false | JBool b => Ok b | _ => Err err_json end.

Definition read_int (bits : Z) (j : json) : result Z :=
  match j with
  | JNull => Ok 0%Z
  | JNumber z =>
      if (- 2 ^ (bits - 1) <=? z)%Z && (z <? 2 ^ (bits - 1))%Z then Ok z else Err err_json
  | _ => Err err_json
  end.

Definition read_pointer {A} (f : json → result A) (j : json) : result (option A) :=
  match j with JNull => Ok None | _ => Some <$> f j end.

(** [None] is the nil slice. *)
Definition read_list {A} (f : json → result A) (j : json) : result (option (list A)) :=
  match j with
  | JNull => Ok None
  | JArray xs => Some <$> mapM_result f xs
  | _ => Err err_json
  end.

Definition read_struct {A} (zero : A) (f : list (string * json) → result A) (j : json) : result A :=
  match j with JNull => Ok zero | JObject fields => f fields | _ => Err err_json end.

(** ** [GatewayClassConfigSpec] *)

Definition marshal_AuthSpec (a : AuthSpec) : json :=
  json_struct [("managed", omit_bool (as_Managed a)); ("method", omit_string (as_Method a));
    ("account", omit_string (as_Account a)); ("namespace", omit_string (as_Namespace a));
    ("podSecurityPolicy", omit_string (as_PodSecurityPolicy a))].

Definition unmarshal_AuthSpec : json → result AuthSpec :=
  read_struct (mkAuthSpec false "" "" "" "") (λ fields,
    managed ← read_bool (json_member fields "managed");
    method ← json_Unmarshal_string (json_member fields "method");
    account ← json_Unmarshal_string (json_member fields "account");
    namespace ← json_Unmarshal_string (json_member fields "namespace");
    policy ← json_Unmarshal_string (json_member fields "podSecurityPolicy");
    Ok (mkAuthSpec managed method account namespace policy)).

Definition marshal_PortSpec (p : PortSpec) : json :=
  json_struct [("http", omit_int (ps_HTTP p)); ("grpc", omit_int (ps_GRPC p))].

Definition unmarshal_PortSpec : json → result PortSpec :=
  read_struct (mkPortSpec 0 0) (λ fields,
    http ← read_int 64 (json_member fields "http");
    grpc ← read_int 64 (json_member fields "grpc");
    Ok (mkPortSpec http grpc)).

Definition marshal_ConsulSpec (c : ConsulSpec) : json :=
  json_struct [("authentication", Some (marshal_AuthSpec (cs_AuthSpec c)));
    ("scheme", omit_string (cs_Scheme c)); ("partition", omit_string (cs_Partition c));
    ("serverName", omit_string (cs_ServerName c)); ("address", omit_string (cs_Address c));
    ("ports", Some (marshal_PortSpec (cs_PortSpec c)))].

Definition unmarshal_ConsulSpec : json → result ConsulSpec :=
  read_struct (mkConsulSpec (mkAuthSpec false "" "" "" "") "" "" "" "" (mkPortSpec 0 0)) (λ fields,
    auth ← unmarshal_AuthSpec (json_member fields "authentication");
    scheme ← json_Unmarshal_string (json_member fields "scheme");
    partition ← json_Unmarshal_string (json_member fields "partition");
    serverName ← json_Unmarshal_string (json_member fields "serverName");
    address ← json_Unmarshal_string (json_member fields "address");
    ports ← unmarshal_PortSpec (json_member fields "ports");
    Ok (mkConsulSpec auth scheme partition serverName address ports)).

Definition marshal_ImageSpec (i : ImageSpec) : json :=
  json_struct [("consulAPIGateway", omit_string (is_ConsulAPIGateway i));
    ("envoy", omit_string (is_Envoy i))].

Definition unmarshal_ImageSpec : json → result ImageSpec :=
  read_struct (mkImageSpec "" "") (λ fields,
    consulAPIGateway ← json_Unmarshal_string (json_member fields "consulAPIGateway");
    envoy ← json_Unmarshal_string (json_member fields "envoy");
    Ok (mkImageSpec consulAPIGateway envoy)).

Definition marshal_DeploymentSpec (d : DeploymentSpec) : json :=
  json_struct [("defaultInstances", omit_pointer JNumber (ds_DefaultInstances d));
    ("maxInstances", omit_pointer JNumber (ds_MaxInstances d));
    ("minInstances", omit_pointer JNumber (ds_MinInstances d))].

Definition unmarshal_DeploymentSpec : json → result DeploymentSpec :=
  read_struct (mkDeploymentSpec None None None) (λ fields,
    defaultInstances ← read_pointer (read_int 32) (json_member fields "defaultInstances");
    maxInstances ← read_pointer (read_int 32) (json_member fields "maxInstances");
    minInstances ← read_pointer (read_int 32) (json_member fields "minInstances");
    Ok (mkDeploymentSpec defaultInstances maxInstances minInstances)).

(** [CopyAnnotationsSpec] and [ConnectionManagementSpec] have one member each. *)
Definition marshal_CopyAnnotations (service : option (list string)) : json :=
  json_struct [("service", omit_list JString (default [] service))].

Definition unmarshal_CopyAnnotations : json → result (option (list string)) :=
  read_struct None (λ fields, read_list json_Unmarshal_string (json_member fields "service")).

Definition marshal_ConnectionManagement (maxConnections : option Z) : json :=
  json_struct [("maxConnections", omit_pointer JNumber maxConnections)].

Definition unmarshal_ConnectionManagement : json → result (option Z) :=
  read_struct None (λ fields, read_pointer (read_int 32) (json_member fields "maxConnections")).

Definition marshal_spec (s : GatewayClassConfigSpec) : json :=
  json_struct [("serviceType", omit_pointer JString (gcc_ServiceType s));
    ("nodeSelector", omit_map (gcc_NodeSelector s));
    ("tolerations", omit_list JString (gcc_Tolerations s));
    ("useHostPorts", omit_bool (gcc_UseHostPorts s));
    ("consul", Some (marshal_ConsulSpec (gcc_ConsulSpec s)));
    ("image", Some (marshal_ImageSpec (gcc_ImageSpec s)));
    ("copyAnnotations", Some (marshal_CopyAnnotations (gcc_CopyAnnotations s)));
    ("logLevel", omit_string (gcc_LogLevel s));
    ("deployment", Some (marshal_DeploymentSpec (gcc_DeploymentSpec s)));
    ("connectionManagement", Some (marshal_ConnectionManagement (gcc_MaxConnections s)))].

Definition unmarshal_spec : json → result GatewayClassConfigSpec :=
  read_struct zeroGatewayClassConfigSpec (λ fields,
    serviceType ← read_pointer json_Unmarshal_string (json_member fields "serviceType");
    nodeSelector ← json_Unmarshal_map json_Unmarshal_string (json_member fields "nodeSelector");
    tolerations ← read_list json_Unmarshal_string (json_member fields "tolerations");
    useHostPorts ← read_bool (json_member fields "useHostPorts");
    consul ← unmarshal_ConsulSpec (json_member fields "consul");
    image ← unmarshal_ImageSpec (json_member fields "image");
    copyAnnotations ← unmarshal_CopyAnnotations (json_member fields "copyAnnotations");
    logLevel ← json_Unmarshal_string (json_member fields "logLevel");
    deployment ← unmarshal_DeploymentSpec (json_member fields "deployment");
    maxConnections ← unmarshal_ConnectionManagement (json_member fields "connectionManagement");
    Ok (mkGatewayClassConfigSpec serviceType nodeSelector (default [] tolerations) useHostPorts
      consul image copyAnnotations logLevel deployment maxConnections)).

(** ** Round trip *)

Lemma json_members_lookup fields k :
  json_members fields !! k = (list_to_map (reverse fields) : gmap string json) !! k.
Proof. unfold json_members. by rewrite foldl_insert_app, (right_id_L ∅ (∪)). Qed.

Lemma json_fields_names fields : (json_fields fields).*1 `sublist_of` fields.*1.
Proof.
  induction fields as [|[n [j|]] fields IH]; simpl; [done|by apply sublist_skip|by apply sublist_cons].
Qed.

Lemma elem_of_json_fields fields n j : (n, j) ∈ json_fields fields ↔ (n, Some j) ∈ fields.
Proof.
  unfold json_fields. rewrite list_elem_of_omap. split.
  - intros ([n' [j'|]] & Hin & H); simpl in H; [|done]. by injection H as -> ->.
  - intros Hin. by exists (n, Some j).
Qed.

(** A member of a struct is read back, an omitted one as [null]. *)
Lemma member_struct fields n o :
  NoDup fields.*1 → (n, o) ∈ fields → json_member (json_fields fields) n = default JNull o.
Proof.
  intros Hnd Hin. unfold json_member. rewrite json_members_lookup.
  assert (NoDup (json_fields fields).*1) as Hnd'
    by (eapply sublist_NoDup; [exact Hnd|apply json_fields_names]).
  destruct o as [j|].
  - rewrite (elem_of_list_to_map_1 _ n j); [done| |].
    + by rewrite fmap_reverse, reverse_Permutation.
    + by apply elem_of_reverse, elem_of_json_fields.
  - rewrite not_elem_of_list_to_map_1; [done|].
    rewrite fmap_reverse, elem_of_reverse. intros ([n' j] & Hn & Hj)%list_elem_of_fmap.
    simpl in Hn. subst n'. apply elem_of_json_fields in Hj.
    apply (list_elem_of_lookup_1) in Hin as [i Hi], Hj as [k Hk].
    assert (i = k) as ->.
    { apply (NoDup_lookup fields.*1 _ _ n Hnd); rewrite list_lookup_fmap; by rewrite ?Hi, ?Hk. }
    by rewrite Hi in Hk.
Qed.

(** The member of that name. *)
Fixpoint field (fields : list (string * option json)) (n : string) : option json :=
  match fields with
  | [] => None
  | (m, o) :: fields => if String.eqb m n then o else field fields n
  end.

Lemma field_elem fields n :
  existsb (String.eqb n) fields.*1 = true → (n, field fields n) ∈ fields.
Proof.
  induction fields as [|[m o] fields IH]; [done|]. simpl.
  destruct (String.eqb_spec m n) as [->|Hne]; [intros _; by left|].
  destruct (String.eqb_spec n m) as [->|]; [done|]. intros H. right. by apply IH.
Qed.

Lemma member_field fields n :
  NoDup fields.*1 → existsb (String.eqb n) fields.*1 = true →
  json_member (json_fields fields) n = default JNull (field fields n).
Proof. intros Hnd Hin. apply member_struct; [done|]. by apply field_elem. Qed.

Lemma read_omit_string s : json_Unmarshal_string (default JNull (omit_string s)) = Ok s.
Proof. unfold omit_string. by case_decide; subst. Qed.

Lemma read_omit_bool b : read_bool (default JNull (omit_bool b)) = Ok b.
Proof. by destruct b. Qed.

Definition in_range (bits z : Z) : Prop := (- 2 ^ (bits - 1) ≤ z < 2 ^ (bits - 1))%Z.

Lemma read_int_number bits z : in_range bits z → read_int bits (JNumber z) = Ok z.
Proof.
  unfold in_range, read_int. intros H.
  by rewrite (proj2 (Z.leb_le _ _)), (proj2 (Z.ltb_lt _ _)) by lia.
Qed.

Lemma read_omit_int bits z : in_range bits z → read_int bits (default JNull (omit_int z)) = Ok z.
Proof. intros H. unfold omit_int. case_decide; [by subst|]. by apply read_int_number. Qed.

Lemma read_omit_int_pointer bits p :
  (∀ z, p = Some z → in_range bits z) →
  read_pointer (read_int bits) (default JNull (omit_pointer JNumber p)) = Ok p.
Proof.
  intros H. destruct p as [z|]; [|done].
  change (Some <$> read_int bits (JNumber z) = Ok (Some z)). by rewrite read_int_number by auto.
Qed.

Lemma read_omit_string_pointer p :
  read_pointer json_Unmarshal_string (default JNull (omit_pointer JString p)) = Ok p.
Proof. by destruct p. Qed.

Lemma read_omit_list xs :
  read_list json_Unmarshal_string (default JNull (omit_list JString xs))
  = Ok (match xs with [] => None | _ => Some xs end).
Proof.
  destruct xs as [|x xs]; [done|].
  assert (mapM_result json_Unmarshal_string (JString <$> x :: xs) = Ok (x :: xs)) as H.
  { apply mapM_result_Ok. generalize (x :: xs). intros l. induction l; by constructor. }
  change (Some <$> mapM_result json_Unmarshal_string (JString <$> x :: xs) = Ok (Some (x :: xs))).
  by rewrite H.
Qed.

Lemma read_omit_map m :
  json_Unmarshal_map json_Unmarshal_string (default JNull (omit_map m)) = Ok m.
Proof.
  unfold omit_map. case_decide; [by subst|]. apply json_string_map_roundtrip.
Qed.

(** Read the members of a struct that was just written. *)
Ltac read_members :=
  unfold read_struct, json_struct; cbv beta iota;
  rewrite !member_field by first [apply (bool_decide_unpack _); vm_compute; exact I|reflexivity];
  cbn [field String.eqb Ascii.eqb Bool.eqb];
  rewrite ?read_omit_string, ?read_omit_bool, ?read_omit_string_pointer, ?read_omit_list,
    ?read_omit_map;
  rewrite ?read_omit_int, ?read_omit_int_pointer by (unfold in_range in *; intros; simplify_eq; auto).

Lemma AuthSpec_roundtrip a : unmarshal_AuthSpec (marshal_AuthSpec a) = Ok a.
Proof. unfold unmarshal_AuthSpec, marshal_AuthSpec. read_members. by destruct a. Qed.

Lemma PortSpec_roundtrip p :
  in_range 64 (ps_HTTP p) → in_range 64 (ps_GRPC p) →
  unmarshal_PortSpec (marshal_PortSpec p) = Ok p.
Proof. intros. unfold unmarshal_PortSpec, marshal_PortSpec. read_members. by destruct p. Qed.

Lemma ConsulSpec_roundtrip c :
  in_range 64 (ps_HTTP (cs_PortSpec c)) → in_range 64 (ps_GRPC (cs_PortSpec c)) →
  unmarshal_ConsulSpec (marshal_ConsulSpec c) = Ok c.
Proof.
  intros. unfold unmarshal_ConsulSpec, marshal_ConsulSpec. read_members. cbn [default from_option id].
  rewrite AuthSpec_roundtrip, PortSpec_roundtrip by done. by destruct c.
Qed.

Lemma ImageSpec_roundtrip i : unmarshal_ImageSpec (marshal_ImageSpec i) = Ok i.
Proof. unfold unmarshal_ImageSpec, marshal_ImageSpec. read_members. by destruct i. Qed.

Definition pointers_in_range (ps : list (option Z)) : Prop :=
  ∀ z, Some z ∈ ps → in_range 32 z.

Lemma DeploymentSpec_roundtrip d :
  pointers_in_range [ds_DefaultInstances d; ds_MaxInstances d; ds_MinInstances d] →
  unmarshal_DeploymentSpec (marshal_DeploymentSpec d) = Ok d.
Proof.
  intros H. unfold unmarshal_DeploymentSpec, marshal_DeploymentSpec. read_members.
  rewrite !read_omit_int_pointer by (intros z Hz; apply H; rewrite Hz; set_solver). by destruct d.
Qed.

Lemma CopyAnnotations_roundtrip service :
  unmarshal_CopyAnnotations (marshal_CopyAnnotations service)
  = Ok (match service with Some [] => None | _ => service end).
Proof.
  unfold unmarshal_CopyAnnotations, marshal_CopyAnnotations. read_members. by destruct service as [[]|].
Qed.

Lemma ConnectionManagement_roundtrip maxConnections :
  pointers_in_range [maxConnections] →
  unmarshal_ConnectionManagement (marshal_ConnectionManagement maxConnections) = Ok maxConnections.
Proof.
  intros H. unfold unmarshal_ConnectionManagement, marshal_ConnectionManagement. read_members.
  apply read_omit_int_pointer. intros z ->. apply H. by left.
Qed.

(** The integers of a configuration have the width of their type. *)
Definition spec_in_range (s : GatewayClassConfigSpec) : Prop :=
  let ports := cs_PortSpec (gcc_ConsulSpec s) in
  let d := gcc_DeploymentSpec s in
  in_range 64 (ps_HTTP ports) ∧ in_range 64 (ps_GRPC ports) ∧
  pointers_in_range [ds_DefaultInstances d; ds_MaxInstances d; ds_MinInstances d] ∧
  pointers_in_range [gcc_MaxConnections s].

Lemma zero_spec_in_range : spec_in_range zeroGatewayClassConfigSpec.
Proof.
  unfold spec_in_range, pointers_in_range, in_range. simpl.
  split_and!; try lia; intros z Hz; rewrite ?elem_of_cons, elem_of_nil in Hz; naive_solver.
Qed.

(** What a snapshot keeps: everything but the difference between an empty
    list of annotations and none. *)
Definition snapshot (s : GatewayClassConfigSpec) : GatewayClassConfigSpec :=
  mkGatewayClassConfigSpec (gcc_ServiceType s) (gcc_NodeSelector s) (gcc_Tolerations s)
    (gcc_UseHostPorts s) (gcc_ConsulSpec s) (gcc_ImageSpec s)
    (match gcc_CopyAnnotations s with Some [] => None | service => service end)
    (gcc_LogLevel s) (gcc_DeploymentSpec s) (gcc_MaxConnections s).

Lemma spec_roundtrip s : spec_in_range s → unmarshal_spec (marshal_spec s) = Ok (snapshot s).
Proof.
  intros (Hh & Hg & Hd & Hm). unfold unmarshal_spec, marshal_spec. read_members.
  cbn [default from_option id].
  rewrite ConsulSpec_roundtrip, ImageSpec_roundtrip, CopyAnnotations_roundtrip,
    DeploymentSpec_roundtrip, ConnectionManagement_roundtrip by done.
  unfold snapshot. destruct s as [? ? tolerations ? ? ? [[]|] ? ? ?]; by destruct tolerations.
Qed.

Lemma snapshot_idemp s : snapshot (snapshot s) = snapshot s.
Proof. unfold snapshot. simpl. by destruct (gcc_CopyAnnotations s) as [[]|]. Qed.

Lemma snapshot_in_range s : spec_in_range s → spec_in_range (snapshot s).
Proof. done. Qed.

(** Decoded integers have the width of their type. *)
Lemma read_int_in_range bits j z : (0 < bits)%Z → read_int bits j = Ok z → in_range bits z.
Proof.
  intros Hb. unfold in_range, read_int. assert (0 < 2 ^ (bits - 1))%Z by (apply Z.pow_pos_nonneg; lia).
  destruct j; try done; [intros [= <-]; lia|].
  destruct ((_ <=? z0)%Z && _) eqn:He; intros [= <-].
  apply andb_true_iff in He as [He1%Z.leb_le He2%Z.ltb_lt]. lia.
Qed.

Lemma read_pointer_in_range bits j p z :
  (0 < bits)%Z → read_pointer (read_int bits) j = Ok p → p = Some z → in_range bits z.
Proof.
  intros Hb Hr ->. unfold read_pointer in Hr.
  destruct j; try done; destruct (read_int bits _) as [z'|] eqn:Hz; simpl in Hr; try done;
    injection Hr as <-; by eapply read_int_in_range.
Qed.

Lemma unmarshal_PortSpec_in_range j p :
  unmarshal_PortSpec j = Ok p → in_range 64 (ps_HTTP p) ∧ in_range 64 (ps_GRPC p).
Proof.
  intros H. destruct j as [| | | | |fields]; try done; [injection H as <-; unfold in_range; simpl; lia|].
  change (unmarshal_PortSpec (JObject fields)) with
    (http ← read_int 64 (json_member fields "http"); grpc ← read_int 64 (json_member fields "grpc");
     Ok (mkPortSpec http grpc)) in H.
  apply bind_Ok in H as (http & Hh & H). apply bind_Ok in H as (grpc & Hg & H). injection H as <-.
  split; by eapply read_int_in_range.
Qed.

Lemma unmarshal_ConsulSpec_ports j c :
  unmarshal_ConsulSpec j = Ok c → ∃ j', unmarshal_PortSpec j' = Ok (cs_PortSpec c).
Proof.
  intros H. destruct j as [| | | | |fields]; try done; [injection H as <-; by exists JNull|].
  unfold unmarshal_ConsulSpec, read_struct in H.
  do 6 (apply bind_Ok in H as (? & ? & H)). injection H as <-. by eexists.
Qed.

Lemma unmarshal_DeploymentSpec_in_range j d :
  unmarshal_DeploymentSpec j = Ok d →
  pointers_in_range [ds_DefaultInstances d; ds_MaxInstances d; ds_MinInstances d].
Proof.
  intros H z Hz. rewrite !elem_of_cons, elem_of_nil in Hz.
  destruct j as [| | | | |fields]; try done; [injection H as <-; naive_solver|].
  unfold unmarshal_DeploymentSpec, read_struct in H.
  apply bind_Ok in H as (a & Ha & H). apply bind_Ok in H as (b & Hb & H).
  apply bind_Ok in H as (c & Hc & H). injection H as <-. simpl in Hz.
  destruct Hz as [Hz|[Hz|[Hz|[]]]]; subst;
    (eapply read_pointer_in_range; [done| |reflexivity]; eassumption).
Qed.

Lemma unmarshal_spec_in_range j s : unmarshal_spec j = Ok s → spec_in_range s.
Proof.
  intros H. destruct j as [| | | | |fields]; try done.
  { injection H as <-. apply zero_spec_in_range. }
  unfold unmarshal_spec, read_struct in H.
  do 4 (apply bind_Ok in H as (? & _ & H)). apply bind_Ok in H as (consul & Hconsul & H).
  do 3 (apply bind_Ok in H as (? & _ & H)). apply bind_Ok in H as (deployment & Hdep & H).
  apply bind_Ok in H as (maxc & Hmax & H). injection H as <-. unfold spec_in_range. simpl.
  apply unmarshal_ConsulSpec_ports in Hconsul as [j' [Hh Hg]%unmarshal_PortSpec_in_range].
  split_and!; [done|done|by eapply unmarshal_DeploymentSpec_in_range|].
  intros z Hz%list_elem_of_singleton. unfold unmarshal_ConnectionManagement, read_struct in Hmax.
  destruct (json_member fields "connectionManagement"); simplify_eq.
  by eapply read_pointer_in_range.
Qed.

(** A gateway keeps the configuration of its class.  Decoding the snapshot
    of a configuration yields it back, field for field, unless its list of
    annotations to copy is empty; and encoding the decoded snapshot again, as
    every later reconciliation does, changes nothing any more. *)
Theorem class_snapshot_roundtrip (s : GatewayClassConfigSpec) :
  spec_in_range s →
  ∃ kept, unmarshal_spec (marshal_spec s) = Ok kept ∧
    unmarshal_spec (marshal_spec kept) = Ok kept ∧
    (gcc_CopyAnnotations s ≠ Some [] → kept = s).
Proof.
  intros Hs. exists (snapshot s). split_and!.
  - by apply spec_roundtrip.
  - rewrite spec_roundtrip by by apply snapshot_in_range. by rewrite snapshot_idemp.
  - unfold snapshot. destruct s as [? ? ? ? ? ? [[]|] ? ? ?]; done.
Qed.

(** An empty list of annotations to copy is lost in the snapshot.  A class
    that asks to copy no annotation at all builds a service without any; the
    service of a gateway that was snapshotted copies the default annotations
    of the gateway all the same. *)
Theorem empty_annotation_list_lost (meta : ObjectMeta) (s : GatewayClassConfigSpec) (gateway : Gateway)
    (type : string) :
  spec_in_range s → gcc_ServiceType s = Some type → gcc_CopyAnnotations s = Some [] →
  ∃ kept wanted built, unmarshal_spec (marshal_spec s) = Ok kept ∧
    sb_Build (sb_WithClassConfig (mkGatewayClassConfig meta s) (NewGatewayService gateway))
      = Some (Some wanted) ∧
    sb_Build (sb_WithClassConfig (mkGatewayClassConfig meta kept) (NewGatewayService gateway))
      = Some (Some built) ∧
    om_Annotations (svc_Meta wanted) = ∅ ∧
    om_Annotations (svc_Meta built)
      = filterAnnotations (om_Annotations (gw_Meta gateway)) defaultServiceAnnotations.
Proof.
  intros Hs Ht Hc. exists (snapshot s). eexists _, _. split_and!; [by apply spec_roundtrip|..].
  - cbn. rewrite Ht. reflexivity.
  - cbn. rewrite Ht. reflexivity.
  - cbn. by rewrite Hc.
  - cbn. by rewrite Hc.
Qed.

(** ** Examples *)

Module ClassConfigExamples.

Definition spec (annotations : option (list string)) : GatewayClassConfigSpec :=
  mkGatewayClassConfigSpec (Some "LoadBalancer") {["disk" := "ssd"]} ["taint"] true
    (mkConsulSpec (mkAuthSpec true "method" "" "" "") "https" "" "" "consul" (mkPortSpec 8501 0))
    (mkImageSpec "" "envoy") annotations "debug" (mkDeploymentSpec (Some 2%Z) (Some 4%Z) None)
    (Some 100%Z).

Lemma spec_range annotations : spec_in_range (spec annotations).
Proof.
  unfold spec_in_range, pointers_in_range, in_range. simpl. split_and!; try lia; intros z Hz;
    rewrite ?elem_of_cons, elem_of_nil in Hz; naive_solver lia.
Qed.

Definition annotated : Gateway :=
  mkGateway (mkObjectMeta "gateway" "default" "uid" 1 "1" 0 ∅
      {["external-dns.alpha.kubernetes.io/hostname" := "example.com"]} [] [] None)
    (mkGroupKind GroupName "Gateway") "class" [] [] (mkGatewayStatusObj [] [] []).

End ClassConfigExamples.

Lemma class_snapshot_roundtrip_witness :
  unmarshal_spec (marshal_spec (ClassConfigExamples.spec None)) = Ok (ClassConfigExamples.spec None).
Proof.
  destruct (class_snapshot_roundtrip (ClassConfigExamples.spec None)
    (ClassConfigExamples.spec_range None)) as (kept & H & _ & Hk).
  rewrite Hk in H by discriminate. exact H.
Defined.

Lemma empty_annotation_list_lost_witness :
  ∃ kept built, unmarshal_spec (marshal_spec (ClassConfigExamples.spec (Some []))) = Ok kept ∧
    sb_Build (sb_WithClassConfig (mkGatewayClassConfig (new_meta "config" "" ∅ ∅) kept)
      (NewGatewayService ClassConfigExamples.annotated)) = Some (Some built) ∧
    om_Annotations (svc_Meta built)
      = filterAnnotations {["external-dns.alpha.kubernetes.io/hostname" := "example.com"]}
          defaultServiceAnnotations.
Proof.
  destruct (empty_annotation_list_lost (new_meta "config" "" ∅ ∅) (ClassConfigExamples.spec (Some []))
    ClassConfigExamples.annotated "LoadBalancer" (ClassConfigExamples.spec_range (Some []))
    eq_refl eq_refl) as (kept & wanted & built & H1 & _ & H3 & _ & H5).
  exists kept, built. split; [exact H1|]. split; [exact H3|exact H5].
Defined.
