(* ===== verification/CoreCodec.v ===== *)
(** * The encoding of resolved routes ([internal/core/resolved.go])

    A listener of a stored gateway keeps its routes as JSON:
    [MarshalResolvedRoute] wraps the encoding of a route with its type, and
    [UnmarshalResolvedRoute] looks at the type to decode into the right
    struct.  The structs of [internal/core] carry no [json] tags, so members
    are named after the fields, an embedded [CommonRoute] contributes its own
    fields, and nothing is omitted.

    A nil slice or map and an empty one are the same value of the model, which
    is written as [null].  Integers are written at the width of their type.
    The string types of [http.go] are enumerations of the model, so a text
    that is none of their constants is an error here. *)

From S2P Require Import Prelude Errors Json Core ClassConfig.

(** ** Values *)

(** Two's complement at a width. *)
Definition wrap (bits z : Z) : Z := ((z + 2 ^ (bits - 1)) mod 2 ^ bits - 2 ^ (bits - 1))%Z.

Definition write_int (bits z : Z) : json := JNumber (wrap bits z).
Definition write_list {A} (f : A → json) (xs : list A) : json := default JNull (omit_list f xs).
Definition write_map (m : gmap string string) : json := default JNull (omit_map m).

Definition read_slice {A} (f : json → result A) (j : json) : result (list A) :=
  xs ← read_list f j; Ok (default [] xs).
Definition read_map : json → result (gmap string string) := json_Unmarshal_map json_Unmarshal_string.

(** A string type with these constants. *)
Definition read_const {A} (constants : list A) (text : A → string) (j : json) : result A :=
  s ← json_Unmarshal_string j;
  match list_find (λ a, text a = s) constants with
  | Some (_, a) => Ok a
  | None => Err err_json
  end.

(** Members of a struct that are all written. *)
Definition json_object (fields : list (string * json)) : json :=
  json_struct (prod_map id Some <$> fields).

(** ** The constants of [http.go] and [resolved.go] *)

Definition HTTPFilterType_text (t : HTTPFilterType) : string :=
  match t with
  | HTTPHeaderFilterType => "HTTPHeaderFilter"
  | HTTPRedirectFilterType => "HTTPRedirectFilter"
  | HTTPURLRewriteFilterType => "HTTPURLRewriteFilter"
  end.
Definition HTTPFilterType_all : list HTTPFilterType :=
  [HTTPHeaderFilterType; HTTPRedirectFilterType; HTTPURLRewriteFilterType].

Definition URLRewriteType_text (t : URLRewriteType) : string :=
  match t with
  | URLRewriteNoneType => ""
  | URLRewriteReplacePrefixMatchType => "URLRewriteReplacePrefixMatch"
  end.
Definition URLRewriteType_all : list URLRewriteType :=
  [URLRewriteNoneType; URLRewriteReplacePrefixMatchType].

Definition HTTPMethod_text (m : HTTPMethod) : string :=
  match m with
  | HTTPMethodNone => ""
  | HTTPMethodConnect => "CONNECT"
  | HTTPMethodDelete => "DELETE"
  | HTTPMethodGet => "GET"
  | HTTPMethodHead => "HEAD"
  | HTTPMethodOptions => "OPTIONS"
  | HTTPMethodPatch => "PATCH"
  | HTTPMethodPost => "POST"
  | HTTPMethodPut => "PUT"
  | HTTPMethodTrace => "TRACE"
  end.
Definition HTTPMethod_all : list HTTPMethod :=
  [HTTPMethodNone; HTTPMethodConnect; HTTPMethodDelete; HTTPMethodGet; HTTPMethodHead;
   HTTPMethodOptions; HTTPMethodPatch; HTTPMethodPost; HTTPMethodPut; HTTPMethodTrace].

Definition HTTPPathMatchType_text (t : HTTPPathMatchType) : string :=
  match t with
  | HTTPPathMatchNoneType => ""
  | HTTPPathMatchExactType => "HTTPPathMatchExact"
  | HTTPPathMatchPrefixType => "HTTPPathMatchPrefix"
  | HTTPPathMatchRegularExpressionType => "HTTPPathMatchRegularExpression"
  end.
Definition HTTPPathMatchType_all : list HTTPPathMatchType :=
  [HTTPPathMatchNoneType; HTTPPathMatchExactType; HTTPPathMatchPrefixType;
   HTTPPathMatchRegularExpressionType].

Definition HTTPHeaderMatchType_text (t : HTTPHeaderMatchType) : string :=
  match t with
  | HTTPHeaderMatchNoneType => ""
  | HTTPHeaderMatchExactType => "HTTPHeaderMatchExact"
  | HTTPHeaderMatchPrefixType => "HTTPHeaderMatchPrefix"
  | HTTPHeaderMatchSuffixType => "HTTPHeaderMatchSuffix"
  | HTTPHeaderMatchPresentType => "HTTPHeaderMatchPresent"
  | HTTPHeaderMatchRegularExpressionType => "HTTPHeaderMatchRegularExpression"
  end.
Definition HTTPHeaderMatchType_all : list HTTPHeaderMatchType :=
  [HTTPHeaderMatchNoneType; HTTPHeaderMatchExactType; HTTPHeaderMatchPrefixType;
   HTTPHeaderMatchSuffixType; HTTPHeaderMatchPresentType; HTTPHeaderMatchRegularExpressionType].

Definition HTTPQueryMatchType_text (t : HTTPQueryMatchType) : string :=
  match t with
  | HTTPQueryMatchNoneType => ""
  | HTTPQueryMatchExactType => "HTTPQueryMatchExact"
  | HTTPQueryMatchPresentType => "HTTPQueryMatchPresent"
  | HTTPQueryMatchRegularExpressionType => "HTTPQueryMatchRegularExpression"
  end.
Definition HTTPQueryMatchType_all : list HTTPQueryMatchType :=
  [HTTPQueryMatchNoneType; HTTPQueryMatchExactType; HTTPQueryMatchPresentType;
   HTTPQueryMatchRegularExpressionType].

Definition ResolvedRouteType_text (t : ResolvedRouteType) : string :=
  match t with
  | ResolvedHTTPRouteType => "HTTPRoute"
  | ResolvedTCPRouteType => "TCPRoute"
  end.

(** ** The structs *)

Definition marshal_ResolvedService (s : ResolvedService) : json :=
  json_object [("ConsulNamespace", JString (rs_ConsulNamespace s)); ("Service", JString (rs_Service s))].

Definition unmarshal_ResolvedService : json → result ResolvedService :=
  read_struct (mkResolvedService "" "") (λ fields,
    consulNamespace ← json_Unmarshal_string (json_member fields "ConsulNamespace");
    service ← json_Unmarshal_string (json_member fields "Service");
    Ok (mkResolvedService consulNamespace service)).

Definition marshal_HTTPHeaderFilter (f : HTTPHeaderFilter) : json :=
  json_object [("Set", write_map (hf_Set f)); ("Add", write_map (hf_Add f));
    ("Remove", write_list JString (hf_Remove f))].

Definition unmarshal_HTTPHeaderFilter : json → result HTTPHeaderFilter :=
  read_struct zeroHeaderFilter (λ fields,
    set ← read_map (json_member fields "Set");
    add ← read_map (json_member fields "Add");
    remove ← read_slice json_Unmarshal_string (json_member fields "Remove");
    Ok (mkHTTPHeaderFilter set add remove)).

Definition marshal_HTTPRedirectFilter (f : HTTPRedirectFilter) : json :=
  json_object [("Scheme", JString (rf_Scheme f)); ("Hostname", JString (rf_Hostname f));
    ("Port", write_int 64 (rf_Port f)); ("Status", write_int 64 (rf_Status f))].

Definition unmarshal_HTTPRedirectFilter : json → result HTTPRedirectFilter :=
  read_struct zeroRedirectFilter (λ fields,
    scheme ← json_Unmarshal_string (json_member fields "Scheme");
    hostname ← json_Unmarshal_string (json_member fields "Hostname");
    port ← read_int 64 (json_member fields "Port");
    status ← read_int 64 (json_member fields "Status");
    Ok (mkHTTPRedirectFilter scheme hostname port status)).

Definition marshal_HTTPURLRewriteFilter (f : HTTPURLRewriteFilter) : json :=
  json_object [("Type", JString (URLRewriteType_text (uf_Type f)));
    ("ReplacePrefixMatch", JString (uf_ReplacePrefixMatch f))].

Definition unmarshal_HTTPURLRewriteFilter : json → result HTTPURLRewriteFilter :=
  read_struct zeroURLRewriteFilter (λ fields,
    type ← read_const URLRewriteType_all URLRewriteType_text (json_member fields "Type");
    replace ← json_Unmarshal_string (json_member fields "ReplacePrefixMatch");
    Ok (mkHTTPURLRewriteFilter type replace)).

Definition marshal_HTTPFilter (f : HTTPFilter) : json :=
  json_object [("Type", JString (HTTPFilterType_text (f_Type f)));
    ("Header", marshal_HTTPHeaderFilter (f_Header f));
    ("Redirect", marshal_HTTPRedirectFilter (f_Redirect f));
    ("URLRewrite", marshal_HTTPURLRewriteFilter (f_URLRewrite f))].

(** A filter is always written with its type. *)
Definition unmarshal_HTTPFilter (j : json) : result HTTPFilter :=
  match j with
  | JObject fields =>
      type ← read_const HTTPFilterType_all HTTPFilterType_text (json_member fields "Type");
      header ← unmarshal_HTTPHeaderFilter (json_member fields "Header");
      redirect ← unmarshal_HTTPRedirectFilter (json_member fields "Redirect");
      rewrite ← unmarshal_HTTPURLRewriteFilter (json_member fields "URLRewrite");
      Ok (mkHTTPFilter type header redirect rewrite)
  | _ => Err err_json
  end.

Definition marshal_HTTPService (s : HTTPService) : json :=
  json_object [("Service", marshal_ResolvedService (s_Service s)); ("Weight", write_int 32 (s_Weight s));
    ("Filters", write_list marshal_HTTPFilter (s_Filters s))].

Definition unmarshal_HTTPService : json → result HTTPService :=
  read_struct (mkHTTPService (mkResolvedService "" "") 0 []) (λ fields,
    service ← unmarshal_ResolvedService (json_member fields "Service");
    weight ← read_int 32 (json_member fields "Weight");
    filters ← read_slice unmarshal_HTTPFilter (json_member fields "Filters");
    Ok (mkHTTPService service weight filters)).

Definition marshal_HTTPPathMatch (m : HTTPPathMatch) : json :=
  json_object [("Type", JString (HTTPPathMatchType_text (pm_Type m))); ("Value", JString (pm_Value m))].

Definition unmarshal_HTTPPathMatch : json → result HTTPPathMatch :=
  read_struct (mkHTTPPathMatch HTTPPathMatchNoneType "") (λ fields,
    type ← read_const HTTPPathMatchType_all HTTPPathMatchType_text (json_member fields "Type");
    value ← json_Unmarshal_string (json_member fields "Value");
    Ok (mkHTTPPathMatch type value)).

Definition marshal_HTTPHeaderMatch (m : HTTPHeaderMatch) : json :=
  json_object [("Type", JString (HTTPHeaderMatchType_text (hm_Type m)));
    ("Name", JString (hm_Name m)); ("Value", JString (hm_Value m))].

Definition unmarshal_HTTPHeaderMatch : json → result HTTPHeaderMatch :=
  read_struct (mkHTTPHeaderMatch HTTPHeaderMatchNoneType "" "") (λ fields,
    type ← read_const HTTPHeaderMatchType_all HTTPHeaderMatchType_text (json_member fields "Type");
    name ← json_Unmarshal_string (json_member fields "Name");
    value ← json_Unmarshal_string (json_member fields "Value");
    Ok (mkHTTPHeaderMatch type name value)).

Definition marshal_HTTPQueryMatch (m : HTTPQueryMatch) : json :=
  json_object [("Type", JString (HTTPQueryMatchType_text (qm_Type m)));
    ("Name", JString (qm_Name m)); ("Value", JString (qm_Value m))].

Definition unmarshal_HTTPQueryMatch : json → result HTTPQueryMatch :=
  read_struct (mkHTTPQueryMatch HTTPQueryMatchNoneType "" "") (λ fields,
    type ← read_const HTTPQueryMatchType_all HTTPQueryMatchType_text (json_member fields "Type");
    name ← json_Unmarshal_string (json_member fields "Name");
    value ← json_Unmarshal_string (json_member fields "Value");
    Ok (mkHTTPQueryMatch type name value)).

Definition marshal_HTTPMatch (m : HTTPMatch) : json :=
  json_object [("Path", marshal_HTTPPathMatch (m_Path m));
    ("Headers", write_list marshal_HTTPHeaderMatch (m_Headers m));
    ("Query", write_list marshal_HTTPQueryMatch (m_Query m));
    ("Method", JString (HTTPMethod_text (m_Method m)))].

Definition unmarshal_HTTPMatch : json → result HTTPMatch :=
  read_struct zeroHTTPMatch (λ fields,
    path ← unmarshal_HTTPPathMatch (json_member fields "Path");
    headers ← read_slice unmarshal_HTTPHeaderMatch (json_member fields "Headers");
    query ← read_slice unmarshal_HTTPQueryMatch (json_member fields "Query");
    method ← read_const HTTPMethod_all HTTPMethod_text (json_member fields "Method");
    Ok (mkHTTPMatch path headers query method)).

Definition marshal_HTTPRouteRule (r : HTTPRouteRule) : json :=
  json_object [("Matches", write_list marshal_HTTPMatch (r_Matches r));
    ("Filters", write_list marshal_HTTPFilter (r_Filters r));
    ("Services", write_list marshal_HTTPService (r_Services r))].

Definition unmarshal_HTTPRouteRule : json → result HTTPRouteRule :=
  read_struct (mkHTTPRouteRule [] [] []) (λ fields,
    matches ← read_slice unmarshal_HTTPMatch (json_member fields "Matches");
    filters ← read_slice unmarshal_HTTPFilter (json_member fields "Filters");
    services ← read_slice unmarshal_HTTPService (json_member fields "Services");
    Ok (mkHTTPRouteRule matches filters services)).

(** The fields of the embedded [CommonRoute]. *)
Definition common_members (c : CommonRoute) : list (string * json) :=
  [("Meta", write_map (cr_Meta c)); ("Name", JString (cr_Name c)); ("Namespace", JString (cr_Namespace c))].

Definition read_common (fields : list (string * json)) : result CommonRoute :=
  meta ← read_map (json_member fields "Meta");
  name ← json_Unmarshal_string (json_member fields "Name");
  namespace ← json_Unmarshal_string (json_member fields "Namespace");
  Ok (mkCommonRoute meta name namespace).

Definition zeroCommonRoute : CommonRoute := mkCommonRoute ∅ "" "".

Definition marshal_HTTPRoute (r : HTTPRoute) : json :=
  json_object (common_members (h_CommonRoute r) ++
    [("Hostnames", write_list JString (h_Hostnames r));
     ("Rules", write_list marshal_HTTPRouteRule (h_Rules r))]).

Definition unmarshal_HTTPRoute : json → result HTTPRoute :=
  read_struct (mkHTTPRoute zeroCommonRoute [] []) (λ fields,
    common ← read_common fields;
    hostnames ← read_slice json_Unmarshal_string (json_member fields "Hostnames");
    rules ← read_slice unmarshal_HTTPRouteRule (json_member fields "Rules");
    Ok (mkHTTPRoute common hostnames rules)).

Definition marshal_TCPRoute (r : TCPRoute) : json :=
  json_object (common_members (t_CommonRoute r) ++ [("Service", marshal_ResolvedService (t_Service r))]).

Definition unmarshal_TCPRoute : json → result TCPRoute :=
  read_struct (mkTCPRoute zeroCommonRoute (mkResolvedService "" "")) (λ fields,
    common ← read_common fields;
    service ← unmarshal_ResolvedService (json_member fields "Service");
    Ok (mkTCPRoute common service)).

(** ** The wrapper *)

(** [resolvedRouteWrapper]: the type, and the raw encoding of the route. *)
Definition MarshalResolvedRoute (route : ResolvedRoute) : json :=
  let data := match route with
              | ResolvedHTTP r => marshal_HTTPRoute r
              | ResolvedTCP r => marshal_TCPRoute r
              end in
  json_object [("Type", JString (ResolvedRouteType_text (GetType route))); ("Data", data)].

Definition err_route_type : error := ErrString "unsupported route type".

(** Decoding the raw bytes of a member; there are none when it is missing. *)
Definition read_raw {A} (f : json → result A) (data : option json) : result A :=
  match data with Some j => f j | None => Err err_json end.

Definition UnmarshalResolvedRoute (b : json) : result ResolvedRoute :=
  wrapped ← read_struct ("", None) (λ fields,
    type ← json_Unmarshal_string (json_member fields "Type");
    Ok (type, json_members fields !! "Data")) b;
  let '(type, data) := wrapped : string * option json in
  if bool_decide (type = ResolvedRouteType_text ResolvedHTTPRouteType)
  then ResolvedHTTP <$> read_raw unmarshal_HTTPRoute data
  else if bool_decide (type = ResolvedRouteType_text ResolvedTCPRouteType)
  then ResolvedTCP <$> read_raw unmarshal_TCPRoute data
  else Err err_route_type.

(** ** Round trip *)

(** A route at the width of its integers. *)
Definition redirect_width (f : HTTPRedirectFilter) : HTTPRedirectFilter :=
  mkHTTPRedirectFilter (rf_Scheme f) (rf_Hostname f) (wrap 64 (rf_Port f)) (wrap 64 (rf_Status f)).
Definition filter_width (f : HTTPFilter) : HTTPFilter :=
  mkHTTPFilter (f_Type f) (f_Header f) (redirect_width (f_Redirect f)) (f_URLRewrite f).
Definition service_width (s : HTTPService) : HTTPService :=
  mkHTTPService (s_Service s) (wrap 32 (s_Weight s)) (filter_width <$> s_Filters s).
Definition rule_width (r : HTTPRouteRule) : HTTPRouteRule :=
  mkHTTPRouteRule (r_Matches r) (filter_width <$> r_Filters r) (service_width <$> r_Services r).
Definition route_width (r : ResolvedRoute) : ResolvedRoute :=
  match r with
  | ResolvedHTTP r => ResolvedHTTP (mkHTTPRoute (h_CommonRoute r) (h_Hostnames r) (rule_width <$> h_Rules r))
  | ResolvedTCP r => ResolvedTCP r
  end.

Lemma wrap_in_range bits z : (0 < bits)%Z → in_range bits (wrap bits z).
Proof.
  intros Hb. unfold in_range, wrap.
  assert (2 ^ bits = 2 * 2 ^ (bits - 1))%Z as Hp by (rewrite <- Z.pow_succ_r by lia; f_equal; lia).
  assert (0 < 2 ^ (bits - 1))%Z by (apply Z.pow_pos_nonneg; lia).
  pose proof (Z.mod_pos_bound (z + 2 ^ (bits - 1)) (2 ^ bits)). lia.
Qed.

Lemma wrap_id bits z : (0 < bits)%Z → in_range bits z → wrap bits z = z.
Proof.
  intros Hb Hz. unfold in_range, wrap in *.
  assert (2 ^ bits = 2 * 2 ^ (bits - 1))%Z as Hp by (rewrite <- Z.pow_succ_r by lia; f_equal; lia).
  rewrite Z.mod_small by lia. lia.
Qed.

Lemma read_write_int bits z : (0 < bits)%Z → read_int bits (write_int bits z) = Ok (wrap bits z).
Proof. intros Hb. by apply read_int_number, wrap_in_range. Qed.

Lemma read_write_int64 z : read_int 64 (write_int 64 z) = Ok (wrap 64 z).
Proof. by apply read_write_int. Qed.
Lemma read_write_int32 z : read_int 32 (write_int 32 z) = Ok (wrap 32 z).
Proof. by apply read_write_int. Qed.

Lemma read_write_map m : read_map (write_map m) = Ok m.
Proof. apply read_omit_map. Qed.

(** A slice is read back when its elements are. *)
Lemma read_write_list {A} (f : A → json) (g : json → result A) (h : A → A) xs :
  (∀ x, x ∈ xs → g (f x) = Ok (h x)) → read_slice g (write_list f xs) = Ok (h <$> xs).
Proof.
  intros Hg. destruct xs as [|x xs]; [done|].
  assert (mapM_result g (f <$> x :: xs) = Ok (h <$> x :: xs)) as Hm.
  { apply mapM_result_Ok. clear -Hg. revert Hg. generalize (x :: xs). intros l Hg.
    induction l as [|y l IH]; [constructor|]. constructor; [apply Hg; left|].
    apply IH. intros z Hz. apply Hg. by right. }
  unfold read_slice, write_list, omit_list. cbn [default from_option id]. unfold read_list. by rewrite Hm.
Qed.

Lemma read_write_strings xs : read_slice json_Unmarshal_string (write_list JString xs) = Ok xs.
Proof. rewrite (read_write_list _ _ id) by done. by rewrite list_fmap_id. Qed.

(** The decoder of a string type knows all its constants. *)
Ltac read_constants := intros []; vm_compute; reflexivity.

Lemma read_filter_type t :
  read_const HTTPFilterType_all HTTPFilterType_text (JString (HTTPFilterType_text t)) = Ok t.
Proof. revert t. read_constants. Qed.
Lemma read_rewrite_type t :
  read_const URLRewriteType_all URLRewriteType_text (JString (URLRewriteType_text t)) = Ok t.
Proof. revert t. read_constants. Qed.
Lemma read_method m : read_const HTTPMethod_all HTTPMethod_text (JString (HTTPMethod_text m)) = Ok m.
Proof. revert m. read_constants. Qed.
Lemma read_path_type t :
  read_const HTTPPathMatchType_all HTTPPathMatchType_text (JString (HTTPPathMatchType_text t)) = Ok t.
Proof. revert t. read_constants. Qed.
Lemma read_header_type t :
  read_const HTTPHeaderMatchType_all HTTPHeaderMatchType_text (JString (HTTPHeaderMatchType_text t)) = Ok t.
Proof. revert t. read_constants. Qed.
Lemma read_query_type t :
  read_const HTTPQueryMatchType_all HTTPQueryMatchType_text (JString (HTTPQueryMatchType_text t)) = Ok t.
Proof. revert t. read_constants. Qed.

Create Rewrite HintDb json_read.
#[export] Hint Rewrite read_write_int64 read_write_int32 read_write_map read_write_strings
  read_filter_type read_rewrite_type read_method read_path_type read_header_type read_query_type
  @list_fmap_id : json_read.

(** Evaluate the members of a struct that was just written. *)
Ltac read_object :=
  unfold json_object, read_struct, json_struct; cbn [fmap list_fmap prod_map fst snd app];
  repeat (rewrite member_field by first [apply (bool_decide_unpack _); vm_compute; exact I|reflexivity]);
  cbn [field String.eqb Ascii.eqb Bool.eqb default from_option id json_Unmarshal_string];
  autorewrite with json_read; cbn [mbind result_bind].

Lemma ResolvedService_roundtrip s : unmarshal_ResolvedService (marshal_ResolvedService s) = Ok s.
Proof. unfold unmarshal_ResolvedService, marshal_ResolvedService. read_object. by destruct s. Qed.

Lemma HTTPHeaderFilter_roundtrip f : unmarshal_HTTPHeaderFilter (marshal_HTTPHeaderFilter f) = Ok f.
Proof. unfold unmarshal_HTTPHeaderFilter, marshal_HTTPHeaderFilter. read_object. by destruct f. Qed.

Lemma HTTPRedirectFilter_roundtrip f :
  unmarshal_HTTPRedirectFilter (marshal_HTTPRedirectFilter f) = Ok (redirect_width f).
Proof. unfold unmarshal_HTTPRedirectFilter, marshal_HTTPRedirectFilter. by read_object. Qed.

Lemma HTTPURLRewriteFilter_roundtrip f :
  unmarshal_HTTPURLRewriteFilter (marshal_HTTPURLRewriteFilter f) = Ok f.
Proof. unfold unmarshal_HTTPURLRewriteFilter, marshal_HTTPURLRewriteFilter. read_object. by destruct f. Qed.

#[export] Hint Rewrite ResolvedService_roundtrip HTTPHeaderFilter_roundtrip HTTPRedirectFilter_roundtrip
  HTTPURLRewriteFilter_roundtrip : json_read.

Lemma HTTPFilter_roundtrip f : unmarshal_HTTPFilter (marshal_HTTPFilter f) = Ok (filter_width f).
Proof. unfold unmarshal_HTTPFilter, marshal_HTTPFilter. by read_object. Qed.

Lemma filters_roundtrip fs :
  read_slice unmarshal_HTTPFilter (write_list marshal_HTTPFilter fs) = Ok (filter_width <$> fs).
Proof. apply read_write_list. intros f _. apply HTTPFilter_roundtrip. Qed.

#[export] Hint Rewrite filters_roundtrip : json_read.

Lemma HTTPService_roundtrip s : unmarshal_HTTPService (marshal_HTTPService s) = Ok (service_width s).
Proof. unfold unmarshal_HTTPService, marshal_HTTPService. by read_object. Qed.

Lemma HTTPPathMatch_roundtrip m : unmarshal_HTTPPathMatch (marshal_HTTPPathMatch m) = Ok m.
Proof. unfold unmarshal_HTTPPathMatch, marshal_HTTPPathMatch. read_object. by destruct m. Qed.

Lemma HTTPHeaderMatch_roundtrip m : unmarshal_HTTPHeaderMatch (marshal_HTTPHeaderMatch m) = Ok m.
Proof. unfold unmarshal_HTTPHeaderMatch, marshal_HTTPHeaderMatch. read_object. by destruct m. Qed.

Lemma HTTPQueryMatch_roundtrip m : unmarshal_HTTPQueryMatch (marshal_HTTPQueryMatch m) = Ok m.
Proof. unfold unmarshal_HTTPQueryMatch, marshal_HTTPQueryMatch. read_object. by destruct m. Qed.

Lemma header_matches_roundtrip ms :
  read_slice unmarshal_HTTPHeaderMatch (write_list marshal_HTTPHeaderMatch ms) = Ok ms.
Proof. rewrite (read_write_list _ _ id), list_fmap_id; [done|]. intros m _. apply HTTPHeaderMatch_roundtrip. Qed.

Lemma query_matches_roundtrip ms :
  read_slice unmarshal_HTTPQueryMatch (write_list marshal_HTTPQueryMatch ms) = Ok ms.
Proof. rewrite (read_write_list _ _ id), list_fmap_id; [done|]. intros m _. apply HTTPQueryMatch_roundtrip. Qed.

#[export] Hint Rewrite HTTPPathMatch_roundtrip header_matches_roundtrip query_matches_roundtrip : json_read.

Lemma HTTPMatch_roundtrip m : unmarshal_HTTPMatch (marshal_HTTPMatch m) = Ok m.
Proof. unfold unmarshal_HTTPMatch, marshal_HTTPMatch. read_object. by destruct m. Qed.

Lemma matches_roundtrip ms : read_slice unmarshal_HTTPMatch (write_list marshal_HTTPMatch ms) = Ok ms.
Proof. rewrite (read_write_list _ _ id), list_fmap_id; [done|]. intros m _. apply HTTPMatch_roundtrip. Qed.

Lemma services_roundtrip ss :
  read_slice unmarshal_HTTPService (write_list marshal_HTTPService ss) = Ok (service_width <$> ss).
Proof. apply read_write_list. intros s _. apply HTTPService_roundtrip. Qed.

#[export] Hint Rewrite matches_roundtrip services_roundtrip : json_read.

Lemma HTTPRouteRule_roundtrip r : unmarshal_HTTPRouteRule (marshal_HTTPRouteRule r) = Ok (rule_width r).
Proof. unfold unmarshal_HTTPRouteRule, marshal_HTTPRouteRule. by read_object. Qed.

Lemma rules_roundtrip rs :
  read_slice unmarshal_HTTPRouteRule (write_list marshal_HTTPRouteRule rs) = Ok (rule_width <$> rs).
Proof. apply read_write_list. intros r _. apply HTTPRouteRule_roundtrip. Qed.

#[export] Hint Rewrite rules_roundtrip : json_read.

Lemma HTTPRoute_roundtrip r :
  unmarshal_HTTPRoute (marshal_HTTPRoute r)
  = Ok (mkHTTPRoute (h_CommonRoute r) (h_Hostnames r) (rule_width <$> h_Rules r)).
Proof.
  unfold unmarshal_HTTPRoute, marshal_HTTPRoute, common_members, read_common. read_object.
  by destruct (h_CommonRoute r).
Qed.

Lemma TCPRoute_roundtrip r : unmarshal_TCPRoute (marshal_TCPRoute r) = Ok r.
Proof.
  unfold unmarshal_TCPRoute, marshal_TCPRoute, common_members, read_common. read_object.
  by destruct r as [[] ?].
Qed.

(** Every resolved route is read back, at the width of its integers. *)
Lemma ResolvedRoute_roundtrip r : UnmarshalResolvedRoute (MarshalResolvedRoute r) = Ok (route_width r).
Proof.
  unfold UnmarshalResolvedRoute, MarshalResolvedRoute. destruct r as [r|r].
  - transitivity (ResolvedHTTP <$> unmarshal_HTTPRoute (marshal_HTTPRoute r)).
    { unfold json_object. read_object. done. }
    by rewrite HTTPRoute_roundtrip.
  - transitivity (ResolvedTCP <$> unmarshal_TCPRoute (marshal_TCPRoute r)).
    { unfold json_object. read_object. done. }
    by rewrite TCPRoute_roundtrip.
Qed.

(** ** Routes whose integers have the width of their type *)

Definition filter_in_range (f : HTTPFilter) : Prop :=
  in_range 64 (rf_Port (f_Redirect f)) ∧ in_range 64 (rf_Status (f_Redirect f)).
Definition service_in_range (s : HTTPService) : Prop :=
  in_range 32 (s_Weight s) ∧ Forall filter_in_range (s_Filters s).
Definition rule_in_range (r : HTTPRouteRule) : Prop :=
  Forall filter_in_range (r_Filters r) ∧ Forall service_in_range (r_Services r).
Definition route_in_range (r : ResolvedRoute) : Prop :=
  match r with
  | ResolvedHTTP r => Forall rule_in_range (h_Rules r)
  | ResolvedTCP _ => True
  end.

Lemma fmap_id_Forall {A} (P : A → Prop) (f : A → A) xs :
  (∀ x, P x → f x = x) → Forall P xs → f <$> xs = xs.
Proof. intros Hf. induction 1 as [|x xs Hx _ IH]; [done|]. by rewrite fmap_cons, Hf, IH. Qed.

Lemma filter_width_id f : filter_in_range f → filter_width f = f.
Proof.
  intros [Hp Hs]. destruct f as [t h [sch host port status] u]. unfold filter_width, redirect_width.
  simpl in *. by rewrite !wrap_id.
Qed.

Lemma service_width_id s : service_in_range s → service_width s = s.
Proof.
  intros [Hw Hf]. destruct s as [svc w fs]. unfold service_width. simpl in *.
  by rewrite wrap_id, (fmap_id_Forall _ _ _ filter_width_id Hf).
Qed.

Lemma rule_width_id r : rule_in_range r → rule_width r = r.
Proof.
  intros [Hf Hs]. destruct r as [ms fs ss]. unfold rule_width. simpl in *.
  by rewrite (fmap_id_Forall _ _ _ filter_width_id Hf), (fmap_id_Forall _ _ _ service_width_id Hs).
Qed.

Lemma route_width_id r : route_in_range r → route_width r = r.
Proof.
  destruct r as [[c hs rs]|r]; [|done]. simpl. intros Hr. unfold route_width. simpl.
  by rewrite (fmap_id_Forall _ _ _ rule_width_id Hr).
Qed.

(** Resolved routes survive persistence.  Whatever its matches, filters,
    weights and metadata, a resolved route whose integers fit their Go types
    is decoded from its encoding as it was, into the struct of its own type;
    a wrapper of any other type is refused with the documented error. *)
Theorem resolved_route_roundtrip (r : ResolvedRoute) (type : string) (data : json) :
  route_in_range r → type ≠ "HTTPRoute" → type ≠ "TCPRoute" →
  UnmarshalResolvedRoute (MarshalResolvedRoute r) = Ok r ∧
  UnmarshalResolvedRoute (json_object [("Type", JString type); ("Data", data)]) = Err err_route_type.
Proof.
  intros Hr Hh Ht. split; [by rewrite ResolvedRoute_roundtrip, route_width_id|].
  unfold UnmarshalResolvedRoute. read_object. cbn. by rewrite !bool_decide_false.
Qed.

(** ** Decoded routes *)

(** Whatever the document, the elements of a decoded slice were decoded. *)
Lemma read_slice_Forall {A} (f : json → result A) (P : A → Prop) j xs :
  (∀ j a, f j = Ok a → P a) → read_slice f j = Ok xs → Forall P xs.
Proof.
  intros Hf Hr. unfold read_slice in Hr. apply bind_Ok in Hr as (o & Ho & [= <-]).
  destruct j as [| | | |js|]; simpl in Ho; try done; [by injection Ho as <-|].
  destruct (mapM_result f js) as [ys|] eqn:Hm; simpl in Ho; [|done]. injection Ho as <-. simpl.
  apply mapM_result_Ok in Hm. induction Hm; constructor; eauto.
Qed.

Lemma zero_in_range bits : (0 < bits)%Z → in_range bits 0.
Proof. intros Hb. unfold in_range. assert (0 < 2 ^ (bits - 1))%Z by (apply Z.pow_pos_nonneg; lia). lia. Qed.

(** Take apart a decoder that succeeded. *)
Ltac decoder H :=
  repeat match type of H with
  | (_ ← _; _) = Ok _ => let x := fresh "x" in let Hx := fresh "Hx" in apply bind_Ok in H as (x & Hx & H)
  end.

Lemma decoded_redirect j r :
  unmarshal_HTTPRedirectFilter j = Ok r → in_range 64 (rf_Port r) ∧ in_range 64 (rf_Status r).
Proof.
  destruct j as [| | | | |fields]; try done; unfold unmarshal_HTTPRedirectFilter, read_struct; intros H.
  - injection H as <-. split; by apply zero_in_range.
  - decoder H. injection H as <-. simpl. split; by eapply read_int_in_range.
Qed.

Lemma decoded_filter j f : unmarshal_HTTPFilter j = Ok f → filter_in_range f.
Proof.
  destruct j as [| | | | |fields]; try done. unfold unmarshal_HTTPFilter. intros H. decoder H.
  injection H as <-. by eapply decoded_redirect.
Qed.

Lemma decoded_service j s : unmarshal_HTTPService j = Ok s → service_in_range s.
Proof.
  destruct j as [| | | | |fields]; try done; unfold unmarshal_HTTPService, read_struct; intros H.
  - injection H as <-. split; [by apply zero_in_range|constructor].
  - decoder H. injection H as <-. split; [by eapply read_int_in_range|].
    by eapply read_slice_Forall; [apply decoded_filter|].
Qed.

Lemma decoded_rule j r : unmarshal_HTTPRouteRule j = Ok r → rule_in_range r.
Proof.
  destruct j as [| | | | |fields]; try done; unfold unmarshal_HTTPRouteRule, read_struct; intros H.
  - injection H as <-. by split.
  - decoder H. injection H as <-. split; [by eapply read_slice_Forall; [apply decoded_filter|]|].
    by eapply read_slice_Forall; [apply decoded_service|].
Qed.

(** The integers of a decoded route have the width of their types. *)
Lemma decoded_route j r : UnmarshalResolvedRoute j = Ok r → route_in_range r.
Proof.
  unfold UnmarshalResolvedRoute. intros H. apply bind_Ok in H as ([type data] & _ & H).
  case_bool_decide; [|case_bool_decide; [|done]]; unfold read_raw in H; destruct data as [data|]; try done.
  - destruct (unmarshal_HTTPRoute data) as [h|] eqn:Hh; [|done]. injection H as <-. simpl. revert Hh.
    destruct data as [| | | | |fields]; try done; unfold unmarshal_HTTPRoute, read_struct; intros H.
    + injection H as <-. constructor.
    + decoder H. injection H as <-. simpl. by eapply read_slice_Forall; [apply decoded_rule|].
  - destruct (unmarshal_TCPRoute data); [|done]. by injection H as <-.
Qed.
