(* ===== verification/Store.v ===== *)
(** * The gateway store ([internal/store])

    The store keeps gateways and routes in a [Backend] as serialized records,
    binds routes to gateways whenever one of them changes, and then syncs the
    affected gateways and statuses.  It is written against the interfaces of
    [interfaces.go], which are classes here: [Backend] (implemented by
    [memoryBackend]), [Marshaler], [Binder], [SyncAdapters] and
    [StatusUpdaters].

    Gateways and routes are pointers in the code: binding mutates them while
    they sit in slices and in the maps of modified objects.  The loops below
    keep the slices as the store of these objects and the maps as indexes
    into them, so that what is persisted is the final state of an object.

    The store's mutex makes every operation atomic.  Within an operation the
    goroutines of a [multierror.Group] run in an arbitrary order, the class
    [Scheduler]; a panic is [None]. *)

From S2P Require Import Prelude Errors Core GatewayClient K8s Status State Resolver Converter Objects Binder ClassConfig.

(** ** Interfaces ([interfaces.go]) *)

(** Gateways [G] and routes [R] as the store sees them ([CanFetchSecrets] is
    only called by the SDS server, see [Sds]). *)
Class StoreObjects (G R : Type) : Type := {
  gateway_ID : G → GatewayID;
  gateway_Resolve : G → option ResolvedGateway;
  route_ID : R → string
}.

Class Marshaler (G R D : Type) : Type := {
  UnmarshalRoute : D → result R;
  MarshalRoute : R → result D;
  UnmarshalGateway : D → result G;
  MarshalGateway : G → result D
}.

(** Binding mutates both objects and reports whether it modified anything. *)
Class Binders (G R : Type) : Type := {
  binder_Bind : G → R → option (G * R * bool);
  binder_Unbind : G → R → option (G * R * bool)
}.

Record GatewayRecord (D : Type) : Type := mkGatewayRecord { grec_ID : GatewayID; grec_Data : D }.
Record RouteRecord (D : Type) : Type := mkRouteRecord { rrec_ID : string; rrec_Data : D }.
Arguments mkGatewayRecord {D} _ _.
Arguments grec_ID {D} _.
Arguments grec_Data {D} _.
Arguments mkRouteRecord {D} _ _.
Arguments rrec_ID {D} _.
Arguments rrec_Data {D} _.

Class Backend (B D : Type) : Type := {
  backend_GetGateway : B → GatewayID → result D;
  backend_ListGateways : B → result (list D);
  backend_DeleteGateway : B → GatewayID → B * option error;
  backend_UpsertGateways : B → list (GatewayRecord D) → B * option error;
  backend_GetRoute : B → string → result D;
  backend_ListRoutes : B → result (list D);
  backend_DeleteRoute : B → string → B * option error;
  backend_UpsertRoutes : B → list (RouteRecord D) → B * option error
}.

(** The outside world [W]: Consul and the Kubernetes API server. *)
Class SyncAdapters (W : Type) : Type := {
  adapter_Clear : W → GatewayID → W * option error;
  adapter_Sync : W → ResolvedGateway → W * (bool * option error)
}.

Class StatusUpdaters (G R W : Type) : Type := {
  UpdateGatewayStatusOnSync :
    W → G → (W → option (W * (bool * option error))) → option (W * option error);
  UpdateRouteStatus : W → R → W * option error
}.

(** The order in which the goroutines of a group run. *)
Class Scheduler : Type := {
  schedule : list nat → list nat;
  schedule_perm : ∀ l, schedule l ≡ₚ l
}.

(** ** The memory backend ([memory_backend.go]) *)

Record memoryBackend (D : Type) : Type := mkMemoryBackend {
  mb_gateways : gmap GatewayID D;
  mb_routes : gmap string D
}.
Arguments mkMemoryBackend {D} _ _.
Arguments mb_gateways {D} _.
Arguments mb_routes {D} _.

Definition NewMemoryBackend {D} : memoryBackend D := mkMemoryBackend ∅ ∅.

Section memory_backend.
Context {MR : MapRange} {D : Type}.

Definition memory_GetGateway (b : memoryBackend D) (id : GatewayID) : result D :=
  match mb_gateways b !! id with Some data => Ok data | None => Err ErrNotFound end.
Definition memory_ListGateways (b : memoryBackend D) : result (list D) :=
  Ok (range (mb_gateways b)).*2.
Definition memory_DeleteGateway (b : memoryBackend D) (id : GatewayID) :
    memoryBackend D * option error :=
  (mkMemoryBackend (delete id (mb_gateways b)) (mb_routes b), None).
Definition memory_UpsertGateways (b : memoryBackend D) (gateways : list (GatewayRecord D)) :
    memoryBackend D * option error :=
  (mkMemoryBackend (foldl (λ m r, <[grec_ID r := grec_Data r]> m) (mb_gateways b) gateways)
     (mb_routes b), None).
Definition memory_GetRoute (b : memoryBackend D) (id : string) : result D :=
  match mb_routes b !! id with Some data => Ok data | None => Err ErrNotFound end.
Definition memory_ListRoutes (b : memoryBackend D) : result (list D) :=
  Ok (range (mb_routes b)).*2.
Definition memory_DeleteRoute (b : memoryBackend D) (id : string) :
    memoryBackend D * option error :=
  (mkMemoryBackend (mb_gateways b) (delete id (mb_routes b)), None).
Definition memory_UpsertRoutes (b : memoryBackend D) (routes : list (RouteRecord D)) :
    memoryBackend D * option error :=
  (mkMemoryBackend (mb_gateways b)
     (foldl (λ m r, <[rrec_ID r := rrec_Data r]> m) (mb_routes b) routes), None).

#[export] Instance memory_backend : Backend (memoryBackend D) D := {|
  backend_GetGateway := memory_GetGateway;
  backend_ListGateways := memory_ListGateways;
  backend_DeleteGateway := memory_DeleteGateway;
  backend_UpsertGateways := memory_UpsertGateways;
  backend_GetRoute := memory_GetRoute;
  backend_ListRoutes := memory_ListRoutes;
  backend_DeleteRoute := memory_DeleteRoute;
  backend_UpsertRoutes := memory_UpsertRoutes
|}.

End memory_backend.

(** ** The store ([store.go]) *)

(** [errors.Is(err, ErrNotFound)]. *)
Definition Is_NotFound (e : error) : bool :=
  bool_decide (is_Some (errors_As (λ e, match e with ErrNotFound => Some tt | _ => None end) e)).

(** The members of a group that failed, [ErrorOrNil]. *)
Definition group_error (results : list (option error)) : option error :=
  match omap id results with [] => None | errs => Some (ErrMulti errs) end.

Section store.
Context {MR : MapRange} {SC : Scheduler} {G R D B W : Type}.
Context {OB : StoreObjects G R} {MA : Marshaler G R D} {BI : Binders G R} {BE : Backend B D}.
Context {AD : SyncAdapters W}.
(** [nil] when no status updater is configured. *)
Context (statusUpdater : option (StatusUpdaters G R W)).

(** *** Goroutine groups *)

(** Run the tasks in the scheduled order; the results stay at their index.
    A task that panics stops the process. *)
Definition run_group (tasks : list (W → option (W * option error))) (w : W) :
    option (W * list (option error)) :=
  foldM (λ acc i,
    let '(w, results) := acc : W * list (option error) in
    task ← tasks !! i;
    res ← task w;
    let (w, err) := res : W * option error in
    Some (w, <[i := err]> results))
    (schedule (seq 0 (length tasks))) (w, replicate (length tasks) None).

Definition syncGateway (gateway : G) (w : W) : option (W * option error) :=
  let sync (w : W) := resolved ← gateway_Resolve gateway; Some (adapter_Sync w resolved) in
  match statusUpdater with
  | Some su => @UpdateGatewayStatusOnSync G R W su w gateway sync
  | None =>
      res ← sync w;
      let '(w, (_, err)) := res : W * (bool * option error) in Some (w, err)
  end.

Definition route_task (route : R) (w : W) : option (W * option error) :=
  match statusUpdater with
  | Some su => Some (@UpdateRouteStatus G R W su w route)
  | None => Some (w, None)
  end.

Definition syncGateways (gateways : list G) (w : W) : option (W * option error) :=
  res ← run_group (syncGateway <$> gateways) w;
  let (w, results) := res : W * list (option error) in
  Some (w, group_error results).

Definition syncRouteStatuses (routes : list R) (w : W) : option (W * option error) :=
  match statusUpdater with
  | None => Some (w, None)
  | Some _ =>
      res ← run_group (route_task <$> routes) w;
      let (w, results) := res : W * list (option error) in
      Some (w, group_error results)
  end.

(** The two nested groups run together: any interleaving of their members. *)
Definition syncGatewaysAndRoutes (gateways : list G) (routes : list R) (w : W) :
    option (W * option error) :=
  res ← run_group ((syncGateway <$> gateways) ++ (route_task <$> routes)) w;
  let (w, results) := res : W * list (option error) in
  Some (w, group_error [group_error (take (length gateways) results);
                        group_error (drop (length gateways) results)]).

(** *** Reads *)

Definition getGateway (b : B) (id : GatewayID) : result (option G) :=
  match backend_GetGateway b id with
  | Err e => if Is_NotFound e then Ok None else Err e
  | Ok data => Some <$> UnmarshalGateway data
  end.

Definition listGateways (b : B) : result (list G) :=
  datas ← backend_ListGateways b; mapM_result UnmarshalGateway datas.

Definition getRoute (b : B) (id : string) : result (option R) :=
  match backend_GetRoute b id with
  | Err e => if Is_NotFound e then Ok None else Err e
  | Ok data => Some <$> UnmarshalRoute data
  end.

Definition listRoutes (b : B) : result (list R) :=
  datas ← backend_ListRoutes b; mapM_result UnmarshalRoute datas.

(** *** Writes *)

Definition upsertGateways (b : B) (gateways : list G) : B * option error :=
  match mapM_result (λ g, mkGatewayRecord (gateway_ID g) <$> MarshalGateway g) gateways with
  | Err e => (b, Some e)
  | Ok records => backend_UpsertGateways b records
  end.

Definition upsertRoutes (b : B) (routes : list R) : B * option error :=
  match mapM_result (λ r, mkRouteRecord (route_ID r) <$> MarshalRoute r) routes with
  | Err e => (b, Some e)
  | Ok records => backend_UpsertRoutes b records
  end.

Definition upsertGatewaysAndRoutes (b : B) (gateways : list G) (routes : list R) :
    B * option error :=
  match upsertGateways b gateways with
  | (b, Some e) => (b, Some e)
  | (b, None) => upsertRoutes b routes
  end.

(** *** Binding *)

(** The objects, and the maps of modified ones as indexes into them. *)
Record bind_state : Type := mkBindState {
  bs_gateways : list G;
  bs_routes : list R;
  bs_modifiedGateways : gmap GatewayID nat;
  bs_modifiedRoutes : gmap string nat
}.

Definition bind_pair (f : G → R → option (G * R * bool)) (s : bind_state) (ij : nat * nat) :
    option bind_state :=
  gateway ← bs_gateways s !! ij.1;
  route ← bs_routes s !! ij.2;
  res ← f gateway route;
  let '(gateway, route, modified) := res : G * R * bool in
  let gateways := <[ij.1 := gateway]> (bs_gateways s) in
  let routes := <[ij.2 := route]> (bs_routes s) in
  Some (if modified then
          mkBindState gateways routes
            (<[gateway_ID gateway := ij.1]> (bs_modifiedGateways s))
            (<[route_ID route := ij.2]> (bs_modifiedRoutes s))
        else mkBindState gateways routes (bs_modifiedGateways s) (bs_modifiedRoutes s)).

(** [maps.Values] of the maps of modified objects. *)
Definition modified_gateways (s : bind_state) : list G :=
  omap (λ i, bs_gateways s !! i) (range (bs_modifiedGateways s)).*2.
Definition modified_routes (s : bind_state) : list R :=
  omap (λ j, bs_routes s !! j) (range (bs_modifiedRoutes s)).*2.

Definition bindOrUnbindAll (f : G → R → option (G * R * bool)) (gateways : list G)
    (routes : list R) : option bind_state :=
  foldM (bind_pair f)
    (seq 0 (length gateways) ≫= λ i, pair i <$> seq 0 (length routes))
    (mkBindState gateways routes ∅ ∅).

Definition bindAll : list G → list R → option bind_state := bindOrUnbindAll binder_Bind.
Definition unbindAll : list G → list R → option bind_state := bindOrUnbindAll binder_Unbind.

(** *** Operations *)

Record store : Type := mkStore { st_backend : B; st_world : W }.

(** The reads, with the lock held for reading. *)
Definition lockingStore_GetGateway (s : store) (id : GatewayID) : result (option G) :=
  getGateway (st_backend s) id.
Definition lockingStore_ListGateways (s : store) : result (list G) :=
  listGateways (st_backend s).
Definition lockingStore_GetRoute (s : store) (id : string) : result (option R) :=
  getRoute (st_backend s) id.
Definition lockingStore_ListRoutes (s : store) : result (list R) :=
  datas ← backend_ListRoutes (st_backend s); mapM_result UnmarshalRoute datas.

(** [None] is a nil condition. *)
Definition UpsertGateway (gateway : G) (updateConditionFn : option (option G → bool)) (s : store) :
    option (store * option error) :=
  match getGateway (st_backend s) (gateway_ID gateway) with
  | Err e => Some (s, Some e)
  | Ok current =>
      if match updateConditionFn with Some f => negb (f current) | None => false end
      then Some (s, None)
      else
        match listRoutes (st_backend s) with
        | Err e => Some (s, Some e)
        | Ok routes =>
            bound ← bindAll [gateway] routes;
            match upsertGatewaysAndRoutes (st_backend s) (bs_gateways bound)
                    (modified_routes bound) with
            | (b, Some e) => Some (mkStore b (st_world s), Some e)
            | (b, None) =>
                res ← syncGatewaysAndRoutes (bs_gateways bound) (modified_routes bound)
                        (st_world s);
                let (w, err) := res : W * option error in
                Some (mkStore b w, err)
            end
        end
  end.

Definition DeleteGateway (id : GatewayID) (s : store) : option (store * option error) :=
  match getGateway (st_backend s) id with
  | Err e => Some (s, Some e)
  | Ok None => Some (s, None)
  | Ok (Some gateway) =>
      match adapter_Clear (st_world s) id with
      | (w, Some e) => Some (mkStore (st_backend s) w, Some e)
      | (w, None) =>
          match listRoutes (st_backend s) with
          | Err e => Some (mkStore (st_backend s) w, Some e)
          | Ok routes =>
              unbound ← unbindAll [gateway] routes;
              match backend_DeleteGateway (st_backend s) id with
              | (b, Some e) => Some (mkStore b w, Some e)
              | (b, None) =>
                  match upsertRoutes b (modified_routes unbound) with
                  | (b, Some e) => Some (mkStore b w, Some e)
                  | (b, None) =>
                      res ← syncRouteStatuses (modified_routes unbound) w;
                      let (w, err) := res : W * option error in
                      Some (mkStore b w, err)
                  end
              end
          end
      end
  end.

Definition UpsertRoute (route : R) (updateConditionFn : option (option R → bool)) (s : store) :
    option (store * option error) :=
  match getRoute (st_backend s) (route_ID route) with
  | Err e => Some (s, Some e)
  | Ok current =>
      if match updateConditionFn with Some f => negb (f current) | None => false end
      then Some (s, None)
      else
        match listGateways (st_backend s) with
        | Err e => Some (s, Some e)
        | Ok gateways =>
            bound ← bindAll gateways [route];
            match upsertGatewaysAndRoutes (st_backend s) (modified_gateways bound)
                    (bs_routes bound) with
            | (b, Some e) => Some (mkStore b (st_world s), Some e)
            | (b, None) =>
                res ← syncGatewaysAndRoutes (modified_gateways bound) (bs_routes bound)
                        (st_world s);
                let (w, err) := res : W * option error in
                Some (mkStore b w, err)
            end
        end
  end.

Definition DeleteRoute (id : string) (s : store) : option (store * option error) :=
  match getRoute (st_backend s) id with
  | Err e => Some (s, Some e)
  | Ok None => Some (s, None)
  | Ok (Some route) =>
      match listGateways (st_backend s) with
      | Err e => Some (s, Some e)
      | Ok gateways =>
          unbound ← unbindAll gateways [route];
          match backend_DeleteRoute (st_backend s) id with
          | (b, Some e) => Some (mkStore b (st_world s), Some e)
          | (b, None) =>
              match upsertGateways b (modified_gateways unbound) with
              | (b, Some e) => Some (mkStore b (st_world s), Some e)
              | (b, None) =>
                  res ← syncGateways (modified_gateways unbound) (st_world s);
                  let (w, err) := res : W * option error in
                  Some (mkStore b w, err)
              end
          end
      end
  end.

(** One tick of the loop of [SyncAllAtInterval]. *)
Definition syncAll (s : store) : option (store * option error) :=
  let gateways := listGateways (st_backend s) in
  let routes := listRoutes (st_backend s) in
  match gateways, routes with
  | Ok gateways, Ok routes =>
      res ← syncGatewaysAndRoutes gateways routes (st_world s);
      let (w, err) := res : W * option error in
      Some (mkStore (st_backend s) w, err)
  | Ok gateways, Err e =>
      res ← syncGateways gateways (st_world s);
      let (w, err) := res : W * option error in
      Some (mkStore (st_backend s) w, group_error [err; Some e])
  | Err e, Ok routes =>
      res ← syncRouteStatuses routes (st_world s);
      let (w, err) := res : W * option error in
      Some (mkStore (st_backend s) w, group_error [Some e; err])
  | Err e1, Err e2 => Some (s, group_error [Some e1; Some e2])
  end.

End store.
Arguments mkStore {B W} _ _.
Arguments st_backend {B W} _.
Arguments st_world {B W} _.

(** ** What the store relies on *)

(** The routes attached to a gateway, and how binding changes them; the
    objects that the store can keep, which binding does not change. *)
Class LawfulBinder (G R : Type) `{StoreObjects G R, Binders G R} : Type := {
  attached_routes : G → gset string;
  storable_gateway : G → Prop;
  storable_route : R → Prop;
  Bind_law : ∀ g r g' r' b, binder_Bind g r = Some (g', r', b) →
    gateway_ID g' = gateway_ID g ∧ route_ID r' = route_ID r ∧
    attached_routes g' ⊆ attached_routes g ∪ {[route_ID r]} ∧
    (b = false → attached_routes g' = attached_routes g);
  Unbind_law : ∀ g r g' r' b, binder_Unbind g r = Some (g', r', b) →
    gateway_ID g' = gateway_ID g ∧ route_ID r' = route_ID r ∧
    attached_routes g' = attached_routes g ∖ {[route_ID r]} ∧
    (b = false → attached_routes g' = attached_routes g);
  Bind_storable : ∀ g r g' r' b, binder_Bind g r = Some (g', r', b) →
    (storable_gateway g → storable_gateway g') ∧ (storable_route r → storable_route r');
  Unbind_storable : ∀ g r g' r' b, binder_Unbind g r = Some (g', r', b) →
    (storable_gateway g → storable_gateway g') ∧ (storable_route r → storable_route r')
}.

(** Serialization keeps the identity of the objects that can be stored, and
    the attached routes. *)
Class LawfulMarshaler (G R D : Type) `{LawfulBinder G R, Marshaler G R D} : Prop := {
  MarshalGateway_law : ∀ g, storable_gateway g →
    ∃ d g', MarshalGateway g = Ok d ∧ UnmarshalGateway d = Ok g' ∧
      gateway_ID g' = gateway_ID g ∧ attached_routes g' = attached_routes g ∧ storable_gateway g';
  MarshalRoute_law : ∀ r, storable_route r →
    ∃ d r', MarshalRoute r = Ok d ∧ UnmarshalRoute d = Ok r' ∧
      route_ID r' = route_ID r ∧ storable_route r'
}.

(** ** Loops over all pairs *)

Lemma foldM_ind {A S} (f : S → A → option S) (Inv : list A → S → Prop) xs s s' :
  Inv [] s → (∀ done x s s', x ∈ xs → Inv done s → f s x = Some s' → Inv (done ++ [x]) s') →
  foldM f xs s = Some s' → Inv xs s'.
Proof.
  intros H0 Hstep.
  assert (∀ rest done s, (∀ x, x ∈ rest → x ∈ xs) → Inv done s →
    foldM f rest s = Some s' → Inv (done ++ rest) s') as Hgen.
  { induction rest as [|x rest IH]; intros done s1 Hin Hinv; simpl.
    - intros [= ->]. by rewrite app_nil_r.
    - destruct (f s1 x) as [s2|] eqn:Hf; [|done]. simpl. intros Hrest.
      replace (done ++ x :: rest) with ((done ++ [x]) ++ rest) by by rewrite <- app_assoc.
      apply (IH (done ++ [x]) s2); [intros; apply Hin; by right| |done].
      eapply Hstep; [apply Hin; left|done|done]. }
  apply (Hgen xs [] s); auto.
Qed.

Section binding.
Context {MR : MapRange} {G R : Type} `{LB : LawfulBinder G R}.

(** What the loops need of the function they call. *)
Definition binding (f : G → R → option (G * R * bool)) : Prop :=
  ∀ g r g' r' b, f g r = Some (g', r', b) →
    gateway_ID g' = gateway_ID g ∧ route_ID r' = route_ID r ∧
    attached_routes g' ⊆ attached_routes g ∪ {[route_ID r]} ∧
    (b = false → attached_routes g' = attached_routes g).

Lemma binding_Bind : binding binder_Bind.
Proof. exact Bind_law. Qed.

Lemma binding_Unbind : binding binder_Unbind.
Proof.
  intros g r g' r' b Hu. apply Unbind_law in Hu as (? & ? & -> & ?). split_and!; set_solver.
Qed.

(** The invariant of the loop: identities are kept, attachments only grow by
    the routes of the loop, and a gateway that changed is in the map of
    modified ones, under its own index. *)
Definition bind_inv (gs : list G) (rs : list R) (s : bind_state) : Prop :=
  gateway_ID <$> bs_gateways s = gateway_ID <$> gs ∧
  route_ID <$> bs_routes s = route_ID <$> rs ∧
  (∀ i g0 g, gs !! i = Some g0 → bs_gateways s !! i = Some g →
     attached_routes g ⊆ attached_routes g0 ∪ list_to_set (route_ID <$> rs) ∧
     (bs_modifiedGateways s !! gateway_ID g0 = Some i ∨ attached_routes g = attached_routes g0)) ∧
  (∀ id i, bs_modifiedGateways s !! id = Some i → ∃ g, bs_gateways s !! i = Some g ∧ gateway_ID g = id) ∧
  (∀ id j, bs_modifiedRoutes s !! id = Some j → ∃ r, bs_routes s !! j = Some r ∧ route_ID r = id).

Lemma fmap_insert_same {A C} (h : A → C) (l : list A) i x y :
  l !! i = Some x → h y = h x → h <$> <[i := y]> l = h <$> l.
Proof.
  intros Hl Hh. rewrite list_fmap_insert, Hh. apply list_insert_id. by rewrite list_lookup_fmap, Hl.
Qed.

Lemma lookup_insert_same_ID {A C} (h : A → C) (l : list A) i x y j id :
  l !! i = Some x → h y = h x →
  (∃ z, l !! j = Some z ∧ h z = id) → ∃ z, <[i := y]> l !! j = Some z ∧ h z = id.
Proof.
  intros Hl Hh (z & Hz & <-). destruct (decide (i = j)) as [->|Hne].
  - exists y. rewrite list_lookup_insert_eq by by eapply lookup_lt_Some. split; [done|congruence].
  - exists z. by rewrite list_lookup_insert_ne.
Qed.

Lemma bind_pair_inv f gs rs s s' ij :
  binding f → NoDup (gateway_ID <$> gs) → bind_inv gs rs s →
  bind_pair f s ij = Some s' → bind_inv gs rs s'.
Proof.
  intros Hf Hnd (Hg & Hr & Hatt & Hmg & Hmr). unfold bind_pair. destruct ij as [i j]. simpl.
  destruct (bs_gateways s !! i) as [g|] eqn:Hgi; [|done]. simpl.
  destruct (bs_routes s !! j) as [r|] eqn:Hrj; [|done]. simpl.
  destruct (f g r) as [[[g' r'] b]|] eqn:Hfg; [|done]. simpl.
  apply Hf in Hfg as (HGID & HRID & Hsub & Hsame). intros [= <-].
  assert (route_ID r ∈ route_ID <$> rs) as Hrin.
  { rewrite <- Hr. apply list_elem_of_fmap. exists r. split; [done|]. by eapply list_elem_of_lookup_2. }
  assert (∀ i0 g0, gs !! i0 = Some g0 → gateway_ID g0 = gateway_ID g → i0 = i) as Huniq.
  { intros i0 g0 Hg0 Heq. eapply NoDup_lookup; [exact Hnd| |].
    - rewrite list_lookup_fmap, Hg0. simpl. by rewrite Heq.
    - by rewrite <- Hg, list_lookup_fmap, Hgi. }
  set (mg := if b then <[gateway_ID g' := i]> (bs_modifiedGateways s) else bs_modifiedGateways s).
  set (mr := if b then <[route_ID r' := j]> (bs_modifiedRoutes s) else bs_modifiedRoutes s).
  assert (bind_inv gs rs (mkBindState (<[i := g']> (bs_gateways s)) (<[j := r']> (bs_routes s)) mg mr))
    as Hgoal; [|by destruct b].
  split_and!; simpl.
  - by rewrite (fmap_insert_same _ _ _ g).
  - by rewrite (fmap_insert_same _ _ _ r).
  - intros i0 g0 g1 Hg0 Hg1.
    destruct (decide (i0 = i)) as [->|Hne].
    + rewrite list_lookup_insert_eq in Hg1 by by eapply lookup_lt_Some. injection Hg1 as <-.
      destruct (Hatt i g0 g Hg0 Hgi) as [Hsub0 Hmod].
      assert (gateway_ID g0 = gateway_ID g) as Heq.
      { apply (f_equal (λ l, l !! i)) in Hg. rewrite !list_lookup_fmap, Hg0, Hgi in Hg. by injection Hg. }
      split.
      { intros x [Hx| ->%elem_of_singleton]%Hsub%elem_of_union; [by apply Hsub0|].
        apply elem_of_union_r. by apply elem_of_list_to_set. }
      unfold mg. destruct b.
      * left. rewrite HGID, Heq. apply lookup_insert_eq.
      * rewrite (Hsame eq_refl). done.
    + rewrite list_lookup_insert_ne in Hg1 by done. destruct (Hatt i0 g0 g1 Hg0 Hg1) as [? Hmod].
      split; [done|]. destruct Hmod as [Hmod|]; [left|by right]. unfold mg. destruct b; [|done].
      rewrite lookup_insert_ne; [done|]. rewrite HGID. intros Heq. apply Hne. by eapply Huniq.
  - intros id i0. unfold mg. destruct b; [intros [[<- <-]|[_ Hid]]%lookup_insert_Some|intros Hid].
    + exists g'. by rewrite list_lookup_insert_eq by by eapply lookup_lt_Some.
    + eapply lookup_insert_same_ID; eauto.
    + eapply lookup_insert_same_ID; eauto.
  - intros id j0. unfold mr. destruct b; [intros [[<- <-]|[_ Hid]]%lookup_insert_Some|intros Hid].
    + exists r'. by rewrite list_lookup_insert_eq by by eapply lookup_lt_Some.
    + eapply lookup_insert_same_ID; eauto.
    + eapply lookup_insert_same_ID; eauto.
Qed.

Lemma bindOrUnbindAll_inv f gs rs s :
  binding f → NoDup (gateway_ID <$> gs) → bindOrUnbindAll f gs rs = Some s → bind_inv gs rs s.
Proof.
  intros Hf Hnd. apply (foldM_ind _ (λ _ s, bind_inv gs rs s)).
  - split_and!; simpl; try done. intros i g0 g Hg0 Hg. rewrite Hg0 in Hg. injection Hg as ->.
    split; [set_solver|by right].
  - intros _ ij s1 s2 _ Hinv Hstep. by eapply bind_pair_inv.
Qed.

(** Binding and unbinding keep the objects storable. *)
Definition keeps_storable (f : G → R → option (G * R * bool)) : Prop :=
  ∀ g r g' r' b, f g r = Some (g', r', b) →
    (storable_gateway g → storable_gateway g') ∧ (storable_route r → storable_route r').

Definition all_storable (s : bind_state) : Prop :=
  Forall storable_gateway (bs_gateways s) ∧ Forall storable_route (bs_routes s).

Lemma bindOrUnbindAll_storable f gs rs s :
  keeps_storable f → bindOrUnbindAll f gs rs = Some s →
  Forall storable_gateway gs → Forall storable_route rs → all_storable s.
Proof.
  intros Hf Hb Hgs Hrs. revert Hb. apply (foldM_ind _ (λ _ s, all_storable s)); [done|].
  intros _ [i j] s1 s2 _ [Hg Hr]. unfold bind_pair. simpl.
  destruct (bs_gateways s1 !! i) as [g|] eqn:Hgi; [|done]. simpl.
  destruct (bs_routes s1 !! j) as [r|] eqn:Hrj; [|done]. simpl.
  destruct (f g r) as [[[g' r'] b]|] eqn:Hfg; [|done]. simpl. apply Hf in Hfg as [Hfg Hfr].
  assert (all_storable (mkBindState (<[i := g']> (bs_gateways s1)) (<[j := r']> (bs_routes s1)) ∅ ∅))
    as [HG HR].
  { split; simpl; (apply Forall_insert; [done|]); [apply Hfg|apply Hfr]; by eapply Forall_lookup_1. }
  by destruct b; intros [= <-].
Qed.

Lemma modified_storable s :
  all_storable s → Forall storable_gateway (modified_gateways s) ∧ Forall storable_route (modified_routes s).
Proof.
  intros [Hg Hr]. split; apply Forall_forall; intros x (i & _ & Hx)%list_elem_of_omap;
    by eapply Forall_lookup_1.
Qed.

(** After unbinding, no gateway holds any of the routes. *)
Lemma unbindAll_detached gs rs s :
  unbindAll gs rs = Some s → length (bs_gateways s) = length gs →
  ∀ i g j r, bs_gateways s !! i = Some g → rs !! j = Some r → route_ID r ∉ attached_routes g.
Proof.
  intros Hun Hlen i g j r Hg Hr.
  assert (∀ i j g r, (i, j) ∈ (seq 0 (length gs) ≫= λ i, pair i <$> seq 0 (length rs)) →
    bs_gateways s !! i = Some g → rs !! j = Some r → route_ID r ∉ attached_routes g) as Hall.
  { refine (proj2 (foldM_ind _ (λ done s, route_ID <$> bs_routes s = route_ID <$> rs ∧
      ∀ i j g r, (i, j) ∈ done → bs_gateways s !! i = Some g → rs !! j = Some r →
        route_ID r ∉ attached_routes g) _ _ _ _ _ Hun)).
    - split; [done|]. by intros ???? []%not_elem_of_nil.
    - clear s Hun Hlen i g j r Hg Hr.
      intros done [i j] s1 s2 _ [HR Hdone]. unfold bind_pair. simpl.
      destruct (bs_gateways s1 !! i) as [g|] eqn:Hgi; [|done]. simpl.
      destruct (bs_routes s1 !! j) as [r|] eqn:Hrj; [|done]. simpl.
      destruct (binder_Unbind g r) as [[[g' r'] b]|] eqn:Hu; [|done]. simpl.
      apply Unbind_law in Hu as (_ & HRID & Hatt & _). intros [= <-].
      assert (∀ i0 j0 g0 r0, (i0, j0) ∈ done ++ [(i, j)] →
        <[i := g']> (bs_gateways s1) !! i0 = Some g0 → rs !! j0 = Some r0 →
        route_ID r0 ∉ attached_routes g0) as Hgoal.
      { intros i0 j0 g0 r0 Hin Hg0 Hr0. apply elem_of_app in Hin.
        destruct (decide (i0 = i)) as [->|Hne].
        - rewrite list_lookup_insert_eq in Hg0 by by eapply lookup_lt_Some. injection Hg0 as <-.
          rewrite Hatt. destruct Hin as [Hin|[= ->]%list_elem_of_singleton].
          + specialize (Hdone i j0 g r0 Hin Hgi Hr0). set_solver.
          + apply (f_equal (λ l, l !! j)) in HR. rewrite !list_lookup_fmap, Hrj, Hr0 in HR.
            injection HR as ->. set_solver.
        - rewrite list_lookup_insert_ne in Hg0 by done.
          destruct Hin as [Hin|[= -> ->]%list_elem_of_singleton]; [by eapply Hdone|done]. }
      destruct b; simpl; (split; [by rewrite (fmap_insert_same _ _ _ r)|exact Hgoal]). }
  apply (Hall i j g r); [|done|done]. apply list_elem_of_bind. exists i. split.
  - apply list_elem_of_fmap. exists j. split; [done|]. apply elem_of_seq.
    apply lookup_lt_Some in Hr. lia.
  - apply elem_of_seq. apply lookup_lt_Some in Hg. lia.
Qed.

End binding.

(** ** The store over the memory backend *)

Lemma foldl_insert_lookup {X K A} `{Countable K} (k : X → K) (v : X → A) xs (m : gmap K A) i :
  ((i ∉ (k <$> xs)) ∧ foldl (λ m x, <[k x := v x]> m) m xs !! i = m !! i) ∨
  (∃ x, x ∈ xs ∧ k x = i ∧ foldl (λ m x, <[k x := v x]> m) m xs !! i = Some (v x)).
Proof.
  induction xs as [|x xs IH] using rev_ind; [left; split; [apply not_elem_of_nil|done]|].
  rewrite foldl_snoc. destruct (decide (k x = i)) as [Hk|Hk].
  - right. exists x. rewrite Hk, lookup_insert_eq. split_and!; set_solver.
  - rewrite lookup_insert_ne by done.
    destruct IH as [[Hn He]|(y & Hy & Hki & He)]; [left|right].
    + split; [|done]. rewrite fmap_app, elem_of_app. intros [?|Hin]; [done|].
      simpl in Hin. by apply list_elem_of_singleton in Hin.
    + exists y. split_and!; [set_solver|done|done].
Qed.

Section memory_store.
Context {MR : MapRange} {SC : Scheduler} {G R D W : Type}.
Context `{LM : LawfulMarshaler G R D} {AD : SyncAdapters W}.
Context (statusUpdater : option (StatusUpdaters G R W)).
Implicit Types (b : memoryBackend D).

(** Records are stored under the identity of their object, and the routes
    attached to a stored gateway are stored too. *)
Definition store_inv b : Prop :=
  (∀ id d, mb_gateways b !! id = Some d → ∃ g, UnmarshalGateway d = Ok g ∧
     gateway_ID g = id ∧ attached_routes g ⊆ dom (mb_routes b) ∧ storable_gateway g) ∧
  (∀ id d, mb_routes b !! id = Some d →
     ∃ r, UnmarshalRoute d = Ok r ∧ route_ID r = id ∧ storable_route r).

(** The invariant in the middle of an operation: the routes [X] are about to
    be stored. *)
Definition store_inv_with (X : gset string) b : Prop :=
  (∀ id d, mb_gateways b !! id = Some d → ∃ g, UnmarshalGateway d = Ok g ∧
     gateway_ID g = id ∧ attached_routes g ⊆ dom (mb_routes b) ∪ X ∧ storable_gateway g) ∧
  (∀ id d, mb_routes b !! id = Some d →
     ∃ r, UnmarshalRoute d = Ok r ∧ route_ID r = id ∧ storable_route r).

Lemma mapM_records {K A} `{Countable K} (f : D → result A) (ID : A → K) (m : gmap K D) :
  (∀ k d, m !! k = Some d → ∃ a, f d = Ok a ∧ ID a = k) →
  ∃ xs, mapM_result f (range m).*2 = Ok xs ∧ ID <$> xs = (range m).*1 ∧
    (∀ x, x ∈ xs → ∃ d, m !! ID x = Some d ∧ f d = Ok x).
Proof.
  intros Hm.
  assert (∀ l, (∀ k d, (k, d) ∈ l → m !! k = Some d) →
    ∃ xs, mapM_result f l.*2 = Ok xs ∧ ID <$> xs = l.*1 ∧
      (∀ x, x ∈ xs → ∃ d, m !! ID x = Some d ∧ f d = Ok x)) as Hl.
  { induction l as [|[k d] l IH]; intros Hin.
    - exists []. split_and!; try done. by intros x []%not_elem_of_nil.
    - destruct IH as (xs & Hxs & Hid & Hx); [intros; apply Hin; by right|].
      pose proof (Hin k d ltac:(left)) as Hk. destruct (Hm k d Hk) as (a & Ha & HID).
      exists (a :: xs). split.
      { apply mapM_result_Ok. apply mapM_result_Ok in Hxs. by constructor. }
      split; [by rewrite !fmap_cons, HID, Hid|].
      intros x [-> |Hin']%elem_of_cons; [|by apply Hx]. exists d. by rewrite HID. }
  apply Hl. intros k d. apply elem_of_range.
Qed.

Lemma listGateways_ok b :
  store_inv b → ∃ gs, listGateways b = Ok gs ∧ gateway_ID <$> gs = (range (mb_gateways b)).*1 ∧
    ∀ g, g ∈ gs → ∃ d, mb_gateways b !! gateway_ID g = Some d ∧ UnmarshalGateway d = Ok g.
Proof. intros [Hg _]. apply mapM_records. intros k d Hk. destruct (Hg k d Hk) as (g & ? & ? & _). eauto. Qed.

Lemma listRoutes_ok b :
  store_inv b → ∃ rs, listRoutes b = Ok rs ∧ route_ID <$> rs = (range (mb_routes b)).*1 ∧
    ∀ r, r ∈ rs → ∃ d, mb_routes b !! route_ID r = Some d ∧ UnmarshalRoute d = Ok r.
Proof. intros [_ Hr]. apply mapM_records. intros k d Hk. destruct (Hr k d Hk) as (r & ? & ? & _). eauto. Qed.

(** What upserting writes for an identity. *)
Lemma upsertGateways_ok b gs :
  Forall storable_gateway gs → ∃ m, upsertGateways b gs = (mkMemoryBackend m (mb_routes b), None) ∧
    ∀ id, ((id ∉ (gateway_ID <$> gs)) ∧ m !! id = mb_gateways b !! id) ∨
      ∃ g d g', g ∈ gs ∧ gateway_ID g = id ∧ m !! id = Some d ∧ UnmarshalGateway d = Ok g' ∧
        gateway_ID g' = id ∧ attached_routes g' = attached_routes g ∧ storable_gateway g'.
Proof using LM.
  intros Hst. unfold upsertGateways.
  assert (∃ records, mapM_result (λ g, mkGatewayRecord (gateway_ID g) <$> MarshalGateway g) gs
    = Ok records ∧ grec_ID <$> records = gateway_ID <$> gs ∧
    ∀ r, r ∈ records → ∃ g g', g ∈ gs ∧ grec_ID r = gateway_ID g ∧
      UnmarshalGateway (grec_Data r) = Ok g' ∧ gateway_ID g' = gateway_ID g ∧
      attached_routes g' = attached_routes g ∧ storable_gateway g') as (records & -> & Hids & Hrec).
  { induction Hst as [|g gs Hg _ (records & Hm & Hids & Hrec)].
    - exists []. split_and!; try done. by intros r []%not_elem_of_nil.
    - destruct (MarshalGateway_law g Hg) as (d & g' & Hd & Hu & Hid & Hatt & Hs).
      exists (mkGatewayRecord (gateway_ID g) d :: records). rewrite !fmap_cons, Hids.
      cbn [mapM_result]. rewrite Hd. cbn. rewrite Hm. split; [done|]. split; [done|].
      intros r [-> |Hr]%elem_of_cons.
      + exists g, g'. split_and!; [left|done..].
      + destruct (Hrec r Hr) as (g1 & g1' & ? & ?). exists g1, g1'. split; [by right|done]. }
  eexists. split; [reflexivity|]. intros id.
  destruct (foldl_insert_lookup grec_ID grec_Data records (mb_gateways b) id)
    as [[Hn He]|(r & Hr & Hk & He)]; [left; by rewrite <- Hids|right].
  destruct (Hrec r Hr) as (g & g' & Hg & Hid & Hu & Hid' & Hatt & Hs).
  exists g, (grec_Data r), g'. split_and!; try done; congruence.
Qed.

Lemma upsertRoutes_ok b rs :
  Forall storable_route rs → ∃ m, upsertRoutes b rs = (mkMemoryBackend (mb_gateways b) m, None) ∧
    ∀ id, ((id ∉ (route_ID <$> rs)) ∧ m !! id = mb_routes b !! id) ∨
      ∃ r d r', r ∈ rs ∧ route_ID r = id ∧ m !! id = Some d ∧ UnmarshalRoute d = Ok r' ∧
        route_ID r' = id ∧ storable_route r'.
Proof using LM.
  intros Hst. unfold upsertRoutes.
  assert (∃ records, mapM_result (λ r, mkRouteRecord (route_ID r) <$> MarshalRoute r) rs
    = Ok records ∧ rrec_ID <$> records = route_ID <$> rs ∧
    ∀ x, x ∈ records → ∃ r r', r ∈ rs ∧ rrec_ID x = route_ID r ∧
      UnmarshalRoute (rrec_Data x) = Ok r' ∧ route_ID r' = route_ID r ∧ storable_route r')
    as (records & -> & Hids & Hrec).
  { induction Hst as [|r rs Hr _ (records & Hm & Hids & Hrec)].
    - exists []. split_and!; try done. by intros r []%not_elem_of_nil.
    - destruct (MarshalRoute_law r Hr) as (d & r' & Hd & Hu & Hid & Hs).
      exists (mkRouteRecord (route_ID r) d :: records). rewrite !fmap_cons, Hids.
      cbn [mapM_result]. rewrite Hd. cbn. rewrite Hm. split; [done|]. split; [done|].
      intros x [-> |Hx]%elem_of_cons.
      + exists r, r'. split_and!; [left|done..].
      + destruct (Hrec x Hx) as (r1 & r1' & ? & ?). exists r1, r1'. split; [by right|done]. }
  eexists. split; [reflexivity|]. intros id.
  destruct (foldl_insert_lookup rrec_ID rrec_Data records (mb_routes b) id)
    as [[Hn He]|(x & Hx & Hk & He)]; [left; by rewrite <- Hids|right].
  destruct (Hrec x Hx) as (r & r' & Hr & Hid & Hu & Hid' & Hs).
  exists r, (rrec_Data x), r'. split_and!; try done; congruence.
Qed.

Lemma elem_of_modified_gateways (s : @bind_state G R) g :
  g ∈ modified_gateways s ↔
  ∃ id i, bs_modifiedGateways s !! id = Some i ∧ bs_gateways s !! i = Some g.
Proof.
  unfold modified_gateways. rewrite list_elem_of_omap. split.
  - intros (i & (id & Hid)%elem_of_range_values & Hg). eauto.
  - intros (id & i & Hid & Hg). exists i. split; [|done]. apply elem_of_range_values. eauto.
Qed.

Lemma elem_of_modified_routes (s : @bind_state G R) r :
  r ∈ modified_routes s ↔
  ∃ id j, bs_modifiedRoutes s !! id = Some j ∧ bs_routes s !! j = Some r.
Proof.
  unfold modified_routes. rewrite list_elem_of_omap. split.
  - intros (i & (id & Hid)%elem_of_range_values & Hr). eauto.
  - intros (id & i & Hid & Hr). exists i. split; [|done]. apply elem_of_range_values. eauto.
Qed.

(** Storing routes keeps the invariant. *)
Lemma inv_upsertRoutes X b rs b' e :
  store_inv_with X b → Forall storable_route rs →
  X ⊆ list_to_set (route_ID <$> rs) → upsertRoutes b rs = (b', e) →
  e = None ∧ mb_gateways b' = mb_gateways b ∧ store_inv b' ∧
  (∀ id, id ∈ dom (mb_routes b') ↔ id ∈ dom (mb_routes b) ∨ id ∈ (route_ID <$> rs)).
Proof using LM.
  intros [Hg Hr] Hst HX. destruct (upsertRoutes_ok b rs Hst) as (m & -> & Hm). intros [= <- <-]. simpl.
  assert (∀ id, id ∈ dom m ↔ id ∈ dom (mb_routes b) ∨ id ∈ (route_ID <$> rs)) as Hdom.
  { intros id. rewrite !elem_of_dom.
    destruct (Hm id) as [[Hn ->]|(r & d & r' & Hrin & <- & -> & _)]; [tauto|].
    split; [intros _; right; by apply list_elem_of_fmap_2|eauto]. }
  split_and!; try done. split; simpl.
  - intros id d Hd. destruct (Hg id d Hd) as (g & Hu & Hid & Hatt & Hs). exists g. split_and!; try done.
    intros x [Hx|Hx%HX%elem_of_list_to_set]%Hatt%elem_of_union; apply Hdom; auto.
  - intros id d Hd. destruct (Hm id) as [[_ He]|(r & d' & r' & _ & _ & Hl & Hu & Hid & Hs)].
    + apply Hr. by rewrite <- He.
    + rewrite Hl in Hd. injection Hd as ->. eauto.
Qed.

(** Storing gateways whose attached routes are stored keeps it, whatever the
    overwritten gateways were. *)
Lemma inv_upsertGateways X b gs b' e :
  (∀ id d, mb_gateways b !! id = Some d → id ∉ (gateway_ID <$> gs) → ∃ g, UnmarshalGateway d = Ok g ∧
     gateway_ID g = id ∧ attached_routes g ⊆ dom (mb_routes b) ∪ X ∧ storable_gateway g) →
  (∀ id d, mb_routes b !! id = Some d →
     ∃ r, UnmarshalRoute d = Ok r ∧ route_ID r = id ∧ storable_route r) →
  Forall storable_gateway gs →
  (∀ g, g ∈ gs → attached_routes g ⊆ dom (mb_routes b) ∪ X) →
  upsertGateways b gs = (b', e) →
  e = None ∧ mb_routes b' = mb_routes b ∧ store_inv_with X b' ∧
  (∀ id, id ∈ dom (mb_gateways b') ↔ id ∈ dom (mb_gateways b) ∨ id ∈ (gateway_ID <$> gs)).
Proof using LM.
  intros Hg Hr Hst Hgs. destruct (upsertGateways_ok b gs Hst) as (m & -> & Hm). intros [= <- <-]. simpl.
  split_and!; try done.
  - split; simpl; [|done]. intros id d Hd.
    destruct (Hm id) as [[Hn He]|(g & d' & g' & Hin & _ & Hl & Hu & Hid & Hatt & Hs)].
    + apply Hg; [by rewrite <- He|done].
    + rewrite Hl in Hd. injection Hd as ->. exists g'. split_and!; try done. rewrite Hatt. by apply Hgs.
  - intros id. rewrite !elem_of_dom.
    destruct (Hm id) as [[Hn ->]|(g & d & g' & Hin & <- & -> & _)]; [tauto|].
    split; [intros _; right; by apply list_elem_of_fmap_2|eauto].
Qed.

Lemma store_inv_with_empty b : store_inv_with ∅ b ↔ store_inv b.
Proof. unfold store_inv_with, store_inv. by setoid_rewrite (right_id_L ∅ (∪)). Qed.

Lemma store_inv_weaken X b : store_inv b → store_inv_with X b.
Proof.
  intros [Hg Hr]. split; [|done]. intros id d Hd. destruct (Hg id d Hd) as (g & ? & ? & Hatt & ?).
  exists g. split_and!; try done. by apply union_subseteq_l'.
Qed.

Lemma inv_upsertGatewaysAndRoutes b gs rs b' e :
  store_inv b → Forall storable_gateway gs → Forall storable_route rs →
  (∀ g, g ∈ gs → attached_routes g ⊆ dom (mb_routes b) ∪ list_to_set (route_ID <$> rs)) →
  upsertGatewaysAndRoutes b gs rs = (b', e) →
  e = None ∧ store_inv b' ∧
  (∀ id, id ∈ dom (mb_gateways b') ↔ id ∈ dom (mb_gateways b) ∨ id ∈ (gateway_ID <$> gs)) ∧
  (∀ id, id ∈ dom (mb_routes b') ↔ id ∈ dom (mb_routes b) ∨ id ∈ (route_ID <$> rs)).
Proof using LM.
  intros Hinv Hsg Hsr Hgs. unfold upsertGatewaysAndRoutes.
  pose proof (store_inv_weaken (list_to_set (route_ID <$> rs)) b Hinv) as [Hg Hr].
  destruct (upsertGateways b gs) as [b1 e1] eqn:Hup.
  apply (inv_upsertGateways (list_to_set (route_ID <$> rs))) in Hup as (-> & Hb1 & Hinv1 & Hdom1);
    [|by auto|done|done|done].
  intros Hup. apply (inv_upsertRoutes (list_to_set (route_ID <$> rs))) in Hup
    as (-> & Hb2 & Hinv2 & Hdom2); [|done|done|done].
  split_and!; try done; [by rewrite Hb2|by rewrite <- Hb1].
Qed.

Lemma listed_attached b gs g :
  store_inv b → listGateways b = Ok gs → g ∈ gs → attached_routes g ⊆ dom (mb_routes b).
Proof.
  intros Hinv Hl Hg. destruct (listGateways_ok b Hinv) as (gs' & Hl' & _ & Hgs).
  rewrite Hl in Hl'. injection Hl' as <-. destruct (Hgs g Hg) as (d & Hd & Hu).
  destruct Hinv as [Hinv _]. destruct (Hinv _ _ Hd) as (g' & Hu' & _ & Hatt & _).
  rewrite Hu in Hu'. by injection Hu' as <-.
Qed.

Lemma listed_storable b gs rs :
  store_inv b → listGateways b = Ok gs → listRoutes b = Ok rs →
  Forall storable_gateway gs ∧ Forall storable_route rs.
Proof.
  intros Hinv Hg Hr. destruct (listGateways_ok b Hinv) as (gs' & Hg' & _ & Hgs).
  destruct (listRoutes_ok b Hinv) as (rs' & Hr' & _ & Hrs). destruct Hinv as [Hig Hir].
  rewrite Hg in Hg'. injection Hg' as <-. rewrite Hr in Hr'. injection Hr' as <-.
  split; apply Forall_forall.
  - intros g Hin. destruct (Hgs g Hin) as (d & Hd & Hu).
    destruct (Hig _ _ Hd) as (g' & Hu' & _ & _ & Hs). rewrite Hu in Hu'. by injection Hu' as <-.
  - intros r Hin. destruct (Hrs r Hin) as (d & Hd & Hu).
    destruct (Hir _ _ Hd) as (r' & Hu' & _ & Hs). rewrite Hu in Hu'. by injection Hu' as <-.
Qed.

Lemma listed_gateways_storable b gs :
  store_inv b → listGateways b = Ok gs → Forall storable_gateway gs.
Proof.
  intros Hinv Hg. destruct (listRoutes_ok b Hinv) as (rs & Hr & _).
  by destruct (listed_storable b gs rs Hinv Hg Hr).
Qed.

Lemma listed_routes_storable b rs :
  store_inv b → listRoutes b = Ok rs → Forall storable_route rs.
Proof.
  intros Hinv Hr. destruct (listGateways_ok b Hinv) as (gs & Hg & _).
  by destruct (listed_storable b gs rs Hinv Hg Hr).
Qed.

Lemma listed_NoDup b gs :
  store_inv b → listGateways b = Ok gs → NoDup (gateway_ID <$> gs).
Proof.
  intros Hinv Hl. destruct (listGateways_ok b Hinv) as (gs' & Hl' & Hids & _).
  rewrite Hl in Hl'. injection Hl' as <-. rewrite Hids. apply NoDup_range_keys.
Qed.

Lemma listed_routes b rs r :
  store_inv b → listRoutes b = Ok rs → r ∈ rs → route_ID r ∈ dom (mb_routes b).
Proof.
  intros Hinv Hl Hr. destruct (listRoutes_ok b Hinv) as (rs' & Hl' & _ & Hrs).
  rewrite Hl in Hl'. injection Hl' as <-. destruct (Hrs r Hr) as (d & Hd & _).
  apply elem_of_dom. eauto.
Qed.

(** ** Every operation preserves the invariant *)

Lemma bound_gateway gs rs s i g :
  bind_inv gs rs s → bs_gateways s !! i = Some g →
  ∃ g0, gs !! i = Some g0 ∧ gateway_ID g0 = gateway_ID g ∧
    attached_routes g ⊆ attached_routes g0 ∪ list_to_set (route_ID <$> rs) ∧
    (bs_modifiedGateways s !! gateway_ID g0 = Some i ∨ attached_routes g = attached_routes g0).
Proof.
  intros (HG & _ & Hatt & _) Hg.
  assert ((gateway_ID <$> gs) !! i = Some (gateway_ID g)) as Hi
    by (by rewrite <- HG, list_lookup_fmap, Hg).
  rewrite list_lookup_fmap in Hi. destruct (gs !! i) as [g0|] eqn:Hg0; [|done].
  injection Hi as Hi. exists g0. split_and!; try done; by eapply Hatt.
Qed.

Lemma bound_route_IDs gs rs s r :
  bind_inv gs rs s → r ∈ modified_routes s → route_ID r ∈ (route_ID <$> rs).
Proof.
  intros (_ & HR & _) (id & j & _ & Hr)%elem_of_modified_routes.
  rewrite <- HR. apply list_elem_of_fmap. exists r. split; [done|]. by eapply list_elem_of_lookup_2.
Qed.

Lemma getGateway_storable b id g :
  store_inv b → getGateway b id = Ok (Some g) → storable_gateway g.
Proof.
  intros [Hg _]. unfold getGateway. cbn [backend_GetGateway memory_backend].
  unfold memory_GetGateway. destruct (mb_gateways b !! id) as [d|] eqn:Hd; [|done].
  destruct (Hg id d Hd) as (g' & -> & _ & _ & Hs). by intros [= <-].
Qed.

Lemma UpsertGateway_inv gateway cond s s' err :
  store_inv (st_backend s) → attached_routes gateway = ∅ → storable_gateway gateway →
  UpsertGateway statusUpdater gateway cond s = Some (s', err) → store_inv (st_backend s').
Proof using LM.
  intros Hinv Hfresh Hst. unfold UpsertGateway.
  destruct (getGateway _ _) as [current|e]; [|by intros [= <- _]].
  destruct (match cond with Some f => negb (f current) | None => false end); [by intros [= <- _]|].
  destruct (listRoutes (st_backend s)) as [routes|e] eqn:Hl; [|by intros [= <- _]].
  destruct (bindAll [gateway] routes) as [bound|] eqn:Hb; [|done]. simpl.
  pose proof (bindOrUnbindAll_storable _ _ _ _ Bind_storable Hb ltac:(by apply Forall_singleton)
    (listed_routes_storable _ _ Hinv Hl)) as Hbs.
  apply bindOrUnbindAll_inv in Hb; [|apply binding_Bind|apply NoDup_singleton].
  destruct (upsertGatewaysAndRoutes _ _ _) as [b e] eqn:Hup.
  apply inv_upsertGatewaysAndRoutes in Hup as (-> & Hinv' & _);
    [|done|apply Hbs|by apply modified_storable|].
  2: { intros g [i Hg]%list_elem_of_lookup. destruct (bound_gateway _ _ _ _ _ Hb Hg)
         as (g0 & Hg0 & _ & Hatt & _).
       apply list_lookup_singleton_Some in Hg0 as [_ <-]. rewrite Hfresh in Hatt.
       intros x Hx%Hatt. apply elem_of_union in Hx as [[]%not_elem_of_empty|Hx].
       apply elem_of_list_to_set, list_elem_of_fmap in Hx as (r & -> & Hr).
       apply elem_of_union_l. by eapply listed_routes. }
  destruct (syncGatewaysAndRoutes _ _ _ _) as [[w err']|]; [|done]. simpl. by intros [= <- _].
Qed.

Lemma UpsertRoute_inv route cond s s' err :
  store_inv (st_backend s) → storable_route route →
  UpsertRoute statusUpdater route cond s = Some (s', err) → store_inv (st_backend s').
Proof using LM.
  intros Hinv Hst. unfold UpsertRoute.
  destruct (getRoute _ _) as [current|e]; [|by intros [= <- _]].
  destruct (match cond with Some f => negb (f current) | None => false end); [by intros [= <- _]|].
  destruct (listGateways (st_backend s)) as [gateways|e] eqn:Hl; [|by intros [= <- _]].
  destruct (bindAll gateways [route]) as [bound|] eqn:Hb; [|done]. simpl.
  pose proof (bindOrUnbindAll_storable _ _ _ _ Bind_storable Hb
    (listed_gateways_storable _ _ Hinv Hl) ltac:(by apply Forall_singleton)) as Hbs.
  apply bindOrUnbindAll_inv in Hb; [|apply binding_Bind|by eapply listed_NoDup].
  destruct (upsertGatewaysAndRoutes _ _ _) as [b e] eqn:Hup.
  apply inv_upsertGatewaysAndRoutes in Hup as (-> & Hinv' & _);
    [|done|by apply modified_storable|apply Hbs|].
  2: { intros g (id & i & _ & Hg)%elem_of_modified_gateways.
       destruct (bound_gateway _ _ _ _ _ Hb Hg) as (g0 & Hg0 & _ & Hatt & _).
       destruct Hb as (_ & -> & _). etrans; [exact Hatt|]. apply union_mono_r.
       eapply listed_attached; [done|done|]. by eapply list_elem_of_lookup_2. }
  destruct (syncGatewaysAndRoutes _ _ _ _) as [[w err']|]; [|done]. simpl. by intros [= <- _].
Qed.

Lemma DeleteGateway_inv id s s' err :
  store_inv (st_backend s) →
  DeleteGateway statusUpdater id s = Some (s', err) → store_inv (st_backend s').
Proof using LM.
  intros Hinv. unfold DeleteGateway.
  destruct (getGateway _ _) as [[gateway|]|e] eqn:Hget; [|by intros [= <- _]..].
  destruct (adapter_Clear (st_world s) id) as [w [e|]]; [by intros [= <- _]|].
  destruct (listRoutes (st_backend s)) as [routes|e] eqn:Hl; [|by intros [= <- _]].
  destruct (unbindAll [gateway] routes) as [unbound|] eqn:Hb; [|done]. simpl.
  pose proof (bindOrUnbindAll_storable _ _ _ _ Unbind_storable Hb
    ltac:(apply Forall_singleton; by eapply getGateway_storable)
    (listed_routes_storable _ _ Hinv Hl)) as Hbs.
  destruct (upsertRoutes _ _) as [b e] eqn:Hup.
  apply (inv_upsertRoutes ∅) in Hup as (-> & _ & Hinv' & _);
    [|apply store_inv_with_empty|by apply modified_storable|set_solver].
  - destruct (syncRouteStatuses _ _ _) as [[w' err']|]; [|done]. simpl. by intros [= <- _].
  - destruct Hinv as [Hg Hr]. split; simpl; [|done].
    intros id' d [_ Hd]%lookup_delete_Some. by apply Hg.
Qed.

(** Deleting a stored route: it is gone, no gateway refers to it, and the
    stored gateways are otherwise the same. *)
Lemma DeleteRoute_spec id s s' err :
  store_inv (st_backend s) →
  DeleteRoute statusUpdater id s = Some (s', err) →
  store_inv (st_backend s') ∧
  mb_routes (st_backend s') = delete id (mb_routes (st_backend s)) ∧
  dom (mb_gateways (st_backend s')) = dom (mb_gateways (st_backend s)).
Proof using LM.
  intros Hinv. unfold DeleteRoute, getRoute. cbn [backend_GetRoute memory_backend].
  unfold memory_GetRoute. destruct (mb_routes (st_backend s) !! id) as [data|] eqn:Hid.
  2: { simpl. intros [= <- _]. by rewrite delete_id. }
  destruct Hinv as [Hg Hr]. destruct (Hr id data Hid) as (route & Hu & HID & Hst).
  rewrite Hu. simpl. pose proof (conj Hg Hr : store_inv (st_backend s)) as Hinv.
  destruct (listGateways_ok (st_backend s) Hinv) as (gs & Hl & Hids & Hgs). rewrite Hl.
  destruct (unbindAll gs [route]) as [unbound|] eqn:Hun; [|done]. simpl.
  pose proof (listed_NoDup _ _ Hinv Hl) as Hnd.
  pose proof (bindOrUnbindAll_inv _ _ _ _ binding_Unbind Hnd Hun) as Hb.
  pose proof (bindOrUnbindAll_storable _ _ _ _ Unbind_storable Hun
    (listed_gateways_storable _ _ Hinv Hl) ltac:(by apply Forall_singleton)) as Hbs.
  assert (length (bs_gateways unbound) = length gs) as Hlen.
  { destruct Hb as (HG & _). apply (f_equal length) in HG. by rewrite !length_fmap in HG. }
  assert (∀ i g, bs_gateways unbound !! i = Some g → id ∉ attached_routes g) as Hdet.
  { intros i g Hgi. rewrite <- HID. by apply (unbindAll_detached gs [route] unbound Hun Hlen i g 0). }
  assert (∀ g0 x, g0 ∈ gs → x ∈ attached_routes g0 → x ≠ id →
    x ∈ dom (delete id (mb_routes (st_backend s)))) as Hstill.
  { intros g0 x Hg0 Hx Hne. rewrite dom_delete. apply elem_of_difference.
    split; [by eapply listed_attached|]. by intros ->%elem_of_singleton. }
  destruct (upsertGateways _ _) as [b e] eqn:Hup.
  apply (inv_upsertGateways ∅) in Hup as (-> & Hroutes & Hinv' & Hdom); simpl.
  - apply store_inv_with_empty in Hinv'.
    destruct (syncGateways _ _ _) as [[w err']|]; [|done]. simpl. intros [= <- _]. simpl.
    split_and!; try done. apply set_eq. intros x. rewrite Hdom. split; [|by left].
    intros [?|Hin]; [done|]. apply list_elem_of_fmap in Hin as (g & -> & Hin).
    apply elem_of_modified_gateways in Hin as (gid & i & _ & Hgi).
    destruct (bound_gateway _ _ _ _ _ Hb Hgi) as (g0 & Hg0 & <- & _).
    destruct (Hgs g0) as (d & Hd & _); [by eapply list_elem_of_lookup_2|]. apply elem_of_dom. eauto.
  - intros gid d Hd Hnot. destruct (Hg gid d Hd) as (g0 & Hu0 & Hgid & Hatt & Hs0). subst gid. exists g0.
    split_and!; try done. intros x Hx. apply elem_of_union_l.
    assert (∃ i, gs !! i = Some g0) as [i Hi].
    { assert (gateway_ID g0 ∈ gateway_ID <$> gs) as (g1 & Heq & Hg1)%list_elem_of_fmap.
      { rewrite Hids. apply elem_of_range_keys. eauto. }
      destruct (Hgs g1 Hg1) as (d1 & Hd1 & Hu1). rewrite <- Heq, Hd in Hd1. injection Hd1 as ->.
      rewrite Hu0 in Hu1. injection Hu1 as <-. by apply list_elem_of_lookup in Hg1. }
    destruct (lookup_lt_is_Some_2 (bs_gateways unbound) i) as [g Hgi].
    { rewrite Hlen. by eapply lookup_lt_Some. }
    destruct (bound_gateway _ _ _ _ _ Hb Hgi) as (g0' & Hi' & Heq & _ & Hmod).
    rewrite Hi in Hi'. injection Hi' as <-.
    destruct Hmod as [Hmod|Hsame].
    + exfalso. apply Hnot. rewrite Heq. apply list_elem_of_fmap_2, elem_of_modified_gateways. eauto.
    + apply (Hstill g0); [by eapply list_elem_of_lookup_2|done|].
      intros ->. apply (Hdet i g Hgi). by rewrite Hsame.
  - intros rid d [_ Hd]%lookup_delete_Some. by apply Hr.
  - by apply modified_storable.
  - intros g (gid & i & _ & Hgi)%elem_of_modified_gateways x Hx. apply elem_of_union_l.
    destruct (bound_gateway _ _ _ _ _ Hb Hgi) as (g0 & Hg0 & _ & Hatt & _).
    assert (x ≠ id) as Hne by (intros ->; by apply (Hdet i g Hgi)).
    apply (Hstill g0); [by eapply list_elem_of_lookup_2| |done].
    pose proof (Hatt x Hx) as Hx'. apply elem_of_union in Hx'. destruct Hx' as [Hin|Hin]; [done|].
    apply elem_of_list_to_set in Hin. simpl in Hin. rewrite HID in Hin.
    by apply list_elem_of_singleton in Hin.
Qed.

Lemma syncAll_inv s s' err :
  syncAll statusUpdater s = Some (s', err) → st_backend s' = st_backend s.
Proof.
  unfold syncAll. destruct (listGateways _), (listRoutes _).
  - destruct (syncGatewaysAndRoutes _ _ _ _) as [[]|]; [|done]. by intros [= <- _].
  - destruct (syncGateways _ _ _) as [[]|]; [|done]. by intros [= <- _].
  - destruct (syncRouteStatuses _ _ _) as [[]|]; [|done]. by intros [= <- _].
  - by intros [= <- _].
Qed.

(** ** Reachable stores *)

(** One operation.  An upserted gateway is fresh: validation starts it without
    attached routes.  Upserted objects are ones the store can keep. *)
Inductive store_step : @store (memoryBackend D) W → @store (memoryBackend D) W → Prop :=
  | StepUpsertGateway gateway cond s s' err :
      attached_routes gateway = ∅ → storable_gateway gateway →
      UpsertGateway statusUpdater gateway cond s = Some (s', err) → store_step s s'
  | StepDeleteGateway id s s' err :
      DeleteGateway statusUpdater id s = Some (s', err) → store_step s s'
  | StepUpsertRoute route cond s s' err :
      storable_route route →
      UpsertRoute statusUpdater route cond s = Some (s', err) → store_step s s'
  | StepDeleteRoute id s s' err :
      DeleteRoute statusUpdater id s = Some (s', err) → store_step s s'
  | StepSyncAll s s' err :
      syncAll statusUpdater s = Some (s', err) → store_step s s'.

Lemma store_step_inv s s' :
  store_step s s' → store_inv (st_backend s) → store_inv (st_backend s').
Proof using LM.
  destruct 1 as [g c s s' e Hf Hst Hs|i s s' e Hs|r c s s' e Hst Hs|i s s' e Hs|s s' e Hs]; intros Hinv.
  - by eapply UpsertGateway_inv.
  - by eapply DeleteGateway_inv.
  - by eapply UpsertRoute_inv.
  - by eapply DeleteRoute_spec.
  - by rewrite (syncAll_inv _ _ _ Hs).
Qed.

Lemma reachable_inv s0 s :
  st_backend s0 = NewMemoryBackend → rtc store_step s0 s → store_inv (st_backend s).
Proof using LM.
  intros Hnew Hrtc.
  assert (store_inv (st_backend s0)) as Hinv by (rewrite Hnew; by split; intros ??).
  clear Hnew. induction Hrtc as [|s1 s2 s3 Hstep _ IH]; [done|].
  apply IH. by eapply store_step_inv.
Qed.

Lemma getGateway_listed b gs g :
  store_inv b → listGateways b = Ok gs → g ∈ gs → getGateway b (gateway_ID g) = Ok (Some g).
Proof.
  intros Hinv Hl Hg. destruct (listGateways_ok b Hinv) as (gs' & Hl' & _ & Hgs).
  rewrite Hl in Hl'. injection Hl' as <-. destruct (Hgs g Hg) as (d & Hd & Hu).
  unfold getGateway. cbn [backend_GetGateway memory_backend]. unfold memory_GetGateway.
  by rewrite Hd, Hu.
Qed.

Lemma getGateway_Some b id g :
  store_inv b → getGateway b id = Ok (Some g) →
  gateway_ID g = id ∧ attached_routes g ⊆ dom (mb_routes b).
Proof.
  intros [Hg _]. unfold getGateway. cbn [backend_GetGateway memory_backend].
  unfold memory_GetGateway. destruct (mb_gateways b !! id) as [d|] eqn:Hd; [|done].
  destruct (Hg id d Hd) as (g' & -> & Hid & Hatt & _). by intros [= <-].
Qed.

Lemma getRoute_lookup b id :
  store_inv b → getRoute b id =
    match mb_routes b !! id with Some d => Some <$> UnmarshalRoute d | None => Ok None end.
Proof.
  intros _. unfold getRoute. cbn [backend_GetRoute memory_backend]. unfold memory_GetRoute.
  by destruct (mb_routes b !! id).
Qed.

Lemma getRoute_listed b rs r :
  store_inv b → listRoutes b = Ok rs → r ∈ rs → getRoute b (route_ID r) = Ok (Some r).
Proof.
  intros Hinv Hl Hr. destruct (listRoutes_ok b Hinv) as (rs' & Hl' & _ & Hrs).
  rewrite Hl in Hl'. injection Hl' as <-. destruct (Hrs r Hr) as (d & Hd & Hu).
  by rewrite getRoute_lookup, Hd, Hu.
Qed.

(** C4: the store is consistent in every state it can reach.  From an empty
    store, whatever sequence of upserts, deletes and background syncs runs,
    with whatever errors from Consul and Kubernetes: listing gateways and
    routes never fails, each object is listed once and can be fetched under
    its own identity, and every route attached to a stored gateway is itself
    stored. *)
Theorem store_never_dangling (s0 s : @store (memoryBackend D) W) :
  st_backend s0 = NewMemoryBackend → rtc store_step s0 s →
  ∃ gs rs, listGateways (st_backend s) = Ok gs ∧ listRoutes (st_backend s) = Ok rs ∧
    NoDup (gateway_ID <$> gs) ∧ NoDup (route_ID <$> rs) ∧
    (∀ g, g ∈ gs → getGateway (st_backend s) (gateway_ID g) = Ok (Some g)) ∧
    (∀ r, r ∈ rs → getRoute (st_backend s) (route_ID r) = Ok (Some r)) ∧
    (∀ g id, g ∈ gs → id ∈ attached_routes g → ∃ r, r ∈ rs ∧ route_ID r = id).
Proof using LM.
  intros Hnew Hrtc. pose proof (reachable_inv s0 s Hnew Hrtc) as Hinv.
  destruct (listGateways_ok _ Hinv) as (gs & Hgs & Hgids & _).
  destruct (listRoutes_ok _ Hinv) as (rs & Hrs & Hrids & _).
  exists gs, rs. split_and!; try done.
  - by eapply listed_NoDup.
  - rewrite Hrids. apply NoDup_range_keys.
  - intros g Hg. by eapply getGateway_listed.
  - intros r Hr. by eapply getRoute_listed.
  - intros g id Hg Hid. assert (id ∈ dom (mb_routes (st_backend s))) as Hdom
      by by eapply listed_attached.
    apply elem_of_dom, elem_of_range_keys in Hdom. rewrite <- Hrids in Hdom.
    apply list_elem_of_fmap in Hdom as (r & -> & Hr). eauto.
Qed.

(** Deleting a route is complete.  In a consistent store, whatever
    happens to the syncs that follow, after [DeleteRoute] the route is gone,
    no gateway has it attached, every other route is as before, and the same
    gateways are stored. *)
Theorem delete_route_complete (id : string) (s s' : @store (memoryBackend D) W) err :
  store_inv (st_backend s) → DeleteRoute statusUpdater id s = Some (s', err) →
  getRoute (st_backend s') id = Ok None ∧
  (∀ id', id' ≠ id → getRoute (st_backend s') id' = getRoute (st_backend s) id') ∧
  (∀ gid g, getGateway (st_backend s') gid = Ok (Some g) → id ∉ attached_routes g) ∧
  dom (mb_gateways (st_backend s')) = dom (mb_gateways (st_backend s)).
Proof using LM.
  intros Hinv Hdel. apply DeleteRoute_spec in Hdel as (Hinv' & Hroutes & Hdom); [|done].
  split_and!; try done.
  - rewrite getRoute_lookup, Hroutes by done. by rewrite lookup_delete_eq.
  - intros id' Hne. rewrite !getRoute_lookup, Hroutes by done. by rewrite lookup_delete_ne.
  - intros gid g Hg Hid. apply getGateway_Some in Hg as [_ Hatt]; [|done].
    apply Hatt in Hid. rewrite Hroutes, dom_delete in Hid. set_solver.
Qed.

End memory_store.

(** ** The Kubernetes objects and their binder *)

#[export] Instance k8s_objects {MR : MapRange} : StoreObjects K8sGateway K8sRoute := {|
  gateway_ID := K8sGateway_ID;
  gateway_Resolve := K8sGateway_Resolve;
  route_ID := K8sRoute_ID
|}.

Section k8s_binder.
Context {MR : MapRange} {LS : LabelSelectors} (client : Client).

#[export] Instance k8s_binders : Binders K8sGateway K8sRoute := {|
  binder_Bind := Bind client;
  binder_Unbind := λ g r, Some (Unbind g r)
|}.

(** The identities of the routes attached to the listeners. *)
Definition listener_routes (ls : list ListenerState) : gset string :=
  ⋃ ((λ l, dom (lst_Routes l)) <$> ls).

Lemma elem_of_listener_routes ls x :
  x ∈ listener_routes ls ↔ ∃ l, l ∈ ls ∧ is_Some (lst_Routes l !! x).
Proof.
  unfold listener_routes. rewrite elem_of_union_list. split.
  - intros (X & (l & -> & Hl)%list_elem_of_fmap & Hx%elem_of_dom). eauto.
  - intros (l & Hl & Hx). exists (dom (lst_Routes l)). split; [|by apply elem_of_dom].
    apply list_elem_of_fmap. eauto.
Qed.

Lemma listener_routes_insert ls i st x :
  x ∈ listener_routes (<[i := st]> ls) → x ∈ listener_routes ls ∨ is_Some (lst_Routes st !! x).
Proof.
  rewrite !elem_of_listener_routes. intros (l & [j Hj]%list_elem_of_lookup & Hx).
  apply list_lookup_insert_Some in Hj as [(_ & -> & _)|[_ Hj]]; [by right|].
  left. exists l. split; [|done]. by eapply list_elem_of_lookup_2.
Qed.

Lemma K8sRoute_ID_object r1 r2 : kr_Route r1 = kr_Route r2 → K8sRoute_ID r1 = K8sRoute_ID r2.
Proof. unfold K8sRoute_ID. by intros ->. Qed.

(** What one step of binding may change, whatever the cluster answers. *)
Definition bind_frame (ls : list ListenerState) (route : K8sRoute)
    (acc : list ListenerState * K8sRoute * bool) : Prop :=
  let '(ls', route', m) := acc in
  kr_Route route' = kr_Route route ∧
  listener_routes ls' ⊆ listener_routes ls ∪ {[K8sRoute_ID route]} ∧
  (m = false → ls' = ls).

Lemma bind_step_frame gateway ref ls route acc acc' il :
  bind_frame ls route acc → bind_step client gateway ref acc il = Some acc' →
  bind_frame ls route acc'.
Proof.
  destruct acc as [[ls1 r1] m1], il as [i listener]. intros (Hobj & Hsub & Hm).
  pose proof (K8sRoute_ID_object _ _ Hobj) as HID.
  unfold bind_step. destruct (ls1 !! i) as [st|] eqn:Hst; [|done]. simpl.
  destruct (canBind _ _ _ _ _ _) as [[can rs]|]; [|done]. simpl.
  rewrite (K8sRoute_ID_set_State r1 rs).
  assert (∀ x, is_Some (lst_Routes st !! x) → x ∈ listener_routes ls ∪ {[K8sRoute_ID route]}) as Hin.
  { intros x Hx. apply Hsub, elem_of_listener_routes. exists st. split; [|done].
    by eapply list_elem_of_lookup_2. }
  destruct can.
  - destruct (resolve _ _ _ _) as [resolved|]; [|done]. simpl. intros [= <-].
    split_and!; [done| |done]. intros x [Hx|Hx]%listener_routes_insert; [by apply Hsub|].
    simpl in Hx. destruct (decide (x = K8sRoute_ID r1)) as [->|Hne].
    + rewrite HID. apply elem_of_union_r. by apply elem_of_singleton.
    + rewrite lookup_insert_ne in Hx by done. by apply Hin.
  - case_bool_decide; intros [= <-]; (split_and!; [done| |done]).
    + intros x [Hx|Hx]%listener_routes_insert; [by apply Hsub|]. simpl in Hx.
      destruct (decide (x = K8sRoute_ID r1)) as [->|Hne].
      * rewrite lookup_delete_eq in Hx. by destruct Hx.
      * rewrite lookup_delete_ne in Hx by done. by apply Hin.
    + done.
Qed.

Lemma Bind_frame gateway route gateway' route' m :
  Bind client gateway route = Some (gateway', route', m) →
  gateway' = kg_set_State (gst_set_Listeners (gst_Listeners (kg_GatewayState gateway'))
               (kg_GatewayState gateway)) gateway ∧
  bind_frame (gst_Listeners (kg_GatewayState gateway)) route
    (gst_Listeners (kg_GatewayState gateway'), route', m).
Proof.
  unfold Bind. destruct (routeReferencesGateway route gateway); simpl.
  - destruct (foldM _ _ _) as [[[ls r] m']|] eqn:Hfold; [|done]. simpl. intros [= <- <- <-].
    split; [done|]. simpl.
    apply (foldM_ind _ (λ _ acc, bind_frame (gst_Listeners (kg_GatewayState gateway)) route acc))
      in Hfold; [done| |].
    + split_and!; [done|by apply union_subseteq_l|done].
    + intros _ ref acc acc' _ Hacc Href. unfold bind_ref in Href.
      apply (foldM_ind _ (λ _ acc, bind_frame (gst_Listeners (kg_GatewayState gateway)) route acc))
        in Href; [done|done|].
      intros _ il a a' _ Ha Hstep. by eapply bind_step_frame.
  - intros [= HU]. revert HU. unfold Unbind.
    destruct (unbind_listeners_spec (gst_Listeners (kg_GatewayState gateway)) route gateway false)
      as (r & -> & Hsame). intros [= <- <- <-]. split; [done|]. simpl.
    split; [apply Hsame|]. split.
    + intros x (l & Hl & Hx)%elem_of_listener_routes.
      apply list_elem_of_fmap in Hl as (l0 & -> & Hl0). simpl in Hx.
      apply elem_of_union_l, elem_of_listener_routes. exists l0. split; [done|].
      destruct Hx as [v Hx]. apply lookup_delete_Some in Hx as [_ Hx]. eauto.
    + intros Hno. apply not_true_iff_false in Hno. rewrite existsb_exists in Hno.
      rewrite <- (list_fmap_id (gst_Listeners _)) at 2. apply list_fmap_ext. intros i l Hl.
      rewrite delete_id, lst_set_Routes_id; [done|]. apply eq_None_not_Some. intros Hs.
      apply Hno. exists l. split; [|by apply bool_decide_eq_true].
      apply list_elem_of_In. by eapply list_elem_of_lookup_2.
Qed.

#[export] Program Instance k8s_lawful_binder : LawfulBinder K8sGateway K8sRoute := {|
  attached_routes := λ g, listener_routes (gst_Listeners (kg_GatewayState g));
  storable_gateway := λ g, spec_in_range (gcc_Spec (kg_Config g));
  storable_route := λ r, typed_route (kr_Route r)
|}.
Next Obligation.
  intros g r g' r' b HB. apply Bind_frame in HB as (Hg & HID & Hsub & Hsame).
  split_and!; [by rewrite Hg|by apply K8sRoute_ID_object|done|]. intros Hb. by rewrite (Hsame Hb).
Qed.
Next Obligation.
  intros g r g' r' b [= HU]. revert HU. unfold Unbind.
  destruct (unbind_listeners_spec (gst_Listeners (kg_GatewayState g)) r g false)
    as (r1 & -> & Hsame). intros [= <- <- <-]. simpl.
  split; [done|]. split; [by apply same_bindings_ID|].
  assert (listener_routes ((λ l, lst_set_Routes (delete (K8sRoute_ID r) (lst_Routes l)) l)
    <$> gst_Listeners (kg_GatewayState g))
    = listener_routes (gst_Listeners (kg_GatewayState g)) ∖ {[K8sRoute_ID r]}) as Heq.
  { apply set_eq. intros x. rewrite elem_of_difference, elem_of_singleton, !elem_of_listener_routes.
    split.
    - intros (l & (l0 & -> & Hl0)%list_elem_of_fmap & [v Hx]). simpl in Hx.
      apply lookup_delete_Some in Hx as [Hne Hx]. split; [|done]. exists l0. split; [done|eauto].
    - intros ((l & Hl & Hx) & Hne). eexists. split; [by apply list_elem_of_fmap_2|]. simpl.
      by rewrite lookup_delete_ne. }
  split; [done|]. intros Hno. rewrite Heq. apply not_true_iff_false in Hno.
  rewrite existsb_exists in Hno. apply difference_disjoint_L, disjoint_singleton_r.
  intros (l & Hl & Hs)%elem_of_listener_routes. apply Hno. exists l.
  split; [by apply list_elem_of_In|by apply bool_decide_eq_true].
Qed.
Next Obligation.
  intros g r g' r' b HB. apply Bind_frame in HB as (-> & -> & _). done.
Qed.
Next Obligation.
  intros g r g' r' b [= HU]. revert HU. unfold Unbind.
  destruct (unbind_listeners_spec (gst_Listeners (kg_GatewayState g)) r g false)
    as (r1 & -> & Hsame). intros [= <- <- <-]. simpl. by rewrite (proj1 Hsame).
Qed.

End k8s_binder.

(** ** Examples *)

Module StoreExamples.

(** Goroutines run in the order they were started. *)
#[export] Instance in_order : Scheduler :=
  {| schedule := λ l, l; schedule_perm := λ l, Permutation_refl l |}.

(** Records that hold the object itself. *)
Inductive record : Type := GatewayData (g : K8sGateway) | RouteData (r : K8sRoute).

#[export] Instance plain_marshaler : Marshaler K8sGateway K8sRoute record := {|
  UnmarshalRoute := λ d, match d with RouteData r => Ok r | _ => Err (ErrString "not a route") end;
  MarshalRoute := λ r, Ok (RouteData r);
  UnmarshalGateway := λ d, match d with GatewayData g => Ok g | _ => Err (ErrString "not a gateway") end;
  MarshalGateway := λ g, Ok (GatewayData g)
|}.

#[export] Instance plain_lawful {MR : MapRange} {LS : LabelSelectors} (client : Client) :
  @LawfulMarshaler K8sGateway K8sRoute record _ (k8s_binders client) (k8s_lawful_binder client) _.
Proof. split; intros x Hx; exists (ltac:(first [exact (GatewayData x)|exact (RouteData x)])), x; done. Qed.

(** Consul counts the syncs and accepts them. *)
#[export] Instance counting : SyncAdapters nat := {|
  adapter_Clear := λ n _, (n, None);
  adapter_Sync := λ n _, (S n, (true, None))
|}.

#[export] Existing Instance canonical_range.
#[export] Existing Instance BinderExamples.no_selectors.
#[export] Instance bare_binders : Binders K8sGateway K8sRoute := k8s_binders BinderExamples.bare_client.
#[export] Instance bare_lawful : LawfulBinder K8sGateway K8sRoute :=
  k8s_lawful_binder BinderExamples.bare_client.

Abbreviation k8s_store := (@store (memoryBackend record) nat).

Definition empty_store : k8s_store := mkStore NewMemoryBackend 0.

(** The gateway of the binder's examples, and the same with TCP listeners. *)
Definition tcp_listeners : Gateway :=
  mkGateway (BinderExamples.meta "gateway") (mkGroupKind GroupName "Gateway") "class"
    [mkListener "a" None 80 "TCP" None None; mkListener "b" None 8080 "TCP" None None]
    [] (mkGatewayStatusObj [] [] []).
Definition tcp_gateway : K8sGateway :=
  mkK8sGateway tcp_listeners (InitialGatewayState tcp_listeners) zeroGatewayClassConfig.

Definition upsert_gateway (g : K8sGateway) (s : k8s_store) : k8s_store :=
  match UpsertGateway None g None s with Some (s, _) => s | None => s end.
Definition upsert_route (r : K8sRoute) (s : k8s_store) : k8s_store :=
  match UpsertRoute None r None s with Some (s, _) => s | None => s end.

Definition route_a : K8sRoute := BinderExamples.route_to [BinderExamples.section "a"].

(** The gateway is stored, then the route, which binds to it. *)
Definition bound_store : k8s_store :=
  upsert_route route_a (upsert_gateway BinderExamples.gateway0 empty_store).

End StoreExamples.

Import StoreExamples.

Lemma upsert_gateway_step g s :
  attached_routes g = ∅ → storable_gateway g →
  bool_decide (is_Some (UpsertGateway None g None s)) = true →
  store_step None s (upsert_gateway g s).
Proof.
  intros Hg Hst [[s' err] Hs]%bool_decide_eq_true. unfold upsert_gateway.
  eapply StepUpsertGateway; [exact Hg|exact Hst|]. by rewrite Hs.
Qed.

Lemma upsert_route_step r s :
  storable_route r → bool_decide (is_Some (UpsertRoute None r None s)) = true →
  store_step None s (upsert_route r s).
Proof.
  intros Hst [[s' err] Hs]%bool_decide_eq_true. unfold upsert_route.
  eapply StepUpsertRoute; [exact Hst|]. by rewrite Hs.
Qed.

Lemma bound_store_reachable : rtc (store_step None) empty_store bound_store.
Proof.
  eapply rtc_l; [|eapply rtc_l; [|apply rtc_refl]].
  - apply (upsert_gateway_step BinderExamples.gateway0);
      [vm_compute; reflexivity|apply zero_spec_in_range|vm_compute; reflexivity].
  - apply (upsert_route_step route_a); vm_compute; reflexivity.
Qed.

(** The store with the gateway and the route bound to it: one of each is
    listed, and the gateway's attached route is the stored one. *)
Lemma store_never_dangling_witness :
  ∃ gs rs, listGateways (st_backend bound_store) = Ok gs ∧
    listRoutes (st_backend bound_store) = Ok rs ∧ length gs = 1 ∧ length rs = 1 ∧
    ∃ g r, g ∈ gs ∧ r ∈ rs ∧ K8sRoute_ID r ∈ attached_routes g.
Proof.
  destruct (store_never_dangling None empty_store bound_store eq_refl bound_store_reachable)
    as (gs & rs & Hgs & Hrs & _ & _ & _ & _ & Hatt).
  exists gs, rs. split; [exact Hgs|]. split; [exact Hrs|].
  assert (match listRoutes (st_backend bound_store) with Ok l => length l | Err _ => 0 end = 1) as Hr
    by (vm_compute; reflexivity).
  assert (match listGateways (st_backend bound_store) with
          | Ok [g] => bool_decide (K8sRoute_ID route_a ∈ attached_routes g) | _ => false end = true)
    as Hg by (vm_compute; reflexivity).
  rewrite Hgs in Hg. rewrite Hrs in Hr.
  destruct gs as [|g [|]]; [discriminate Hg| |discriminate Hg].
  split; [reflexivity|]. split; [exact Hr|]. apply bool_decide_eq_true in Hg.
  destruct (Hatt g (K8sRoute_ID route_a) ltac:(left) Hg) as (r & Hin & Hid).
  exists g, r. split; [left|]. split; [exact Hin|].
  change (K8sRoute_ID r) with (route_ID r). rewrite Hid. exact Hg.
Defined.

Lemma delete_route_complete_witness :
  ∃ s' err, DeleteRoute None (K8sRoute_ID route_a) bound_store = Some (s', err) ∧
    getRoute (st_backend s') (K8sRoute_ID route_a) = Ok None ∧
    ∀ gid g, getGateway (st_backend s') gid = Ok (Some g) →
      K8sRoute_ID route_a ∉ attached_routes g.
Proof.
  destruct (DeleteRoute None (K8sRoute_ID route_a) bound_store) as [[s' err]|] eqn:Hdel.
  - destruct (delete_route_complete None (K8sRoute_ID route_a) bound_store s' err) as (H1 & _ & H2 & _).
    + apply (reachable_inv None empty_store); [reflexivity|exact bound_store_reachable].
    + exact Hdel.
    + exists s', err. split; [reflexivity|]. split; [exact H1|exact H2].
  - exfalso. assert (bool_decide (is_Some (DeleteRoute None (K8sRoute_ID route_a) bound_store)) = true)
      as Hs by (vm_compute; reflexivity). rewrite Hdel in Hs. discriminate Hs.
Defined.

(** The conditions published for the route's parent. *)
Definition published_conditions (s : k8s_store) : list (list ConditionStatus) :=
  match getRoute (st_backend s) (K8sRoute_ID route_a) with
  | Ok (Some r) =>
      (λ kv, c_Status <$> RouteStatus_Conditions kv.2 1 (λ _, 0%Z))
        <$> range (rs_ParentStatuses (kr_RouteState r))
  | _ => []
  end.
Definition attached_count (s : k8s_store) : list nat :=
  match listGateways (st_backend s) with
  | Ok gs => (λ g : K8sGateway, size (attached_routes g)) <$> gs
  | Err _ => []
  end.

(** A gateway update does not refresh the status of the routes it drops.
    A route bound to a gateway reports Accepted and ResolvedRefs True.  When
    the gateway is updated so that its listeners no longer admit the route,
    the stored gateway has no attached route any more, but the stored status
    of the route still says it is accepted; only upserting the route itself
    corrects it. *)
Theorem gateway_update_leaves_stale_route_status :
  let dropped := upsert_gateway tcp_gateway bound_store in
  attached_count bound_store = [1] ∧
  published_conditions bound_store = [[ConditionTrue; ConditionTrue]] ∧
  attached_count dropped = [0] ∧
  published_conditions dropped = [[ConditionTrue; ConditionTrue]] ∧
  published_conditions (upsert_route route_a dropped) = [[ConditionFalse; ConditionTrue]].
Proof. vm_compute. done. Qed.
