(* ===== verification/Provenance.v ===== *)
(** * Where stored gateways come from

    A property of gateways that binding and serialization keep holds of every
    gateway the store keeps, as long as it holds of the gateways that are
    upserted: no operation of the store makes up a gateway. *)

From S2P Require Import Prelude Errors Core Store.

(** Kept by binding and serialization. *)
Class Stable {G R D : Type} `{StoreObjects G R, Binders G R, Marshaler G R D} (P : G → Prop) : Prop := {
  stable_Bind : ∀ g r g' r' m, binder_Bind g r = Some (g', r', m) → P g → P g';
  stable_Unbind : ∀ g r g' r' m, binder_Unbind g r = Some (g', r', m) → P g → P g';
  stable_Marshal : ∀ g d g', MarshalGateway g = Ok d → UnmarshalGateway d = Ok g' →
    P g → P g' ∧ gateway_ID g' = gateway_ID g
}.

Section provenance.
Context {MR : MapRange} {SC : Scheduler} {G R D W : Type}.
Context {OB : StoreObjects G R} {BI : Binders G R} {MA : Marshaler G R D} {AD : SyncAdapters W}.
Context (statusUpdater : option (StatusUpdaters G R W)).
Context (P : G → Prop) {ST : Stable (D := D) P}.
Implicit Types (b : memoryBackend D) (s : @store (memoryBackend D) W).

(** Every stored gateway has the property and its own key. *)
Definition all_gateways b : Prop :=
  ∀ id d g, mb_gateways b !! id = Some d → UnmarshalGateway d = Ok g → P g ∧ gateway_ID g = id.

Lemma listGateways_all b gs : all_gateways b → listGateways b = Ok gs → Forall P gs.
Proof.
  intros Hall Hl. unfold listGateways in Hl. apply mapM_result_Ok in Hl.
  apply Forall_forall. intros g Hg.
  apply list_elem_of_lookup in Hg as [i Hi].
  destruct (Forall2_lookup_r _ _ _ _ _ Hl Hi) as (d & Hd & Hu).
  apply list_elem_of_lookup_2, elem_of_range_values in Hd as [id Hid].
  by apply (Hall id d g).
Qed.

Lemma getGateway_all b id g : all_gateways b → getGateway b id = Ok (Some g) → P g ∧ gateway_ID g = id.
Proof.
  intros Hall. unfold getGateway. cbn [backend_GetGateway memory_backend]. unfold memory_GetGateway.
  destruct (mb_gateways b !! id) as [d|] eqn:Hd; [|done].
  destruct (UnmarshalGateway d) as [g'|] eqn:Hu; [|done]. intros [= <-]. by eapply Hall.
Qed.

Lemma bindOrUnbindAll_all f gs (rs : list R) (s : bind_state) :
  (∀ g r g' r' m, f g r = Some (g', r', m) → P g → P g') → Forall P gs →
  bindOrUnbindAll f gs rs = Some s → Forall P (bs_gateways s).
Proof.
  intros Hf Hgs. unfold bindOrUnbindAll.
  apply (foldM_ind _ (λ _ (s : bind_state), Forall P (bs_gateways s))); [done|].
  intros _ [i j] s1 s2 _ Hall. unfold bind_pair. cbn [fst snd].
  destruct (bs_gateways s1 !! i) as [g|] eqn:Hg; [|done]. cbn [mbind option_bind].
  destruct (bs_routes s1 !! j) as [r|]; [|done]. cbn [mbind option_bind].
  destruct (f g r) as [[[g' r'] m]|] eqn:Hfr; [|done]. cbn [mbind option_bind].
  assert (P g') by (eapply Hf; [done|]; by eapply Forall_lookup_1).
  destruct m; intros [= <-]; by apply Forall_insert.
Qed.

Lemma modified_gateways_all (s : @bind_state G R) : Forall P (bs_gateways s) → Forall P (modified_gateways s).
Proof.
  intros Hall. apply Forall_forall. intros g (id & i & _ & Hg)%elem_of_modified_gateways.
  by eapply Forall_lookup_1.
Qed.

Lemma upsertGateways_all b gs b' e :
  all_gateways b → Forall P gs → upsertGateways b gs = (b', e) →
  all_gateways b' ∧ mb_routes b' = mb_routes b.
Proof using ST.
  intros Hall Hgs. unfold upsertGateways.
  destruct (mapM_result _ gs) as [records|e'] eqn:Hm; [|by intros [= <- _]].
  intros [= <- _]. split; [|done]. intros id d g. simpl.
  destruct (foldl_insert_lookup grec_ID grec_Data records (mb_gateways b) id)
    as [[_ ->]|(r & Hr & Hid & ->)]; [by apply Hall|]. intros [= <-] Hu.
  apply mapM_result_Ok in Hm. apply list_elem_of_lookup in Hr as [i Hi].
  destruct (Forall2_lookup_r _ _ _ _ _ Hm Hi) as (g0 & Hg0 & Hr).
  destruct (MarshalGateway g0) as [d0|] eqn:Hd0; [|done]. injection Hr as <-. simpl in *. subst id.
  eapply stable_Marshal; [done|done|]. by eapply Forall_lookup_1.
Qed.

Lemma upsertRoutes_all b rs b' e :
  all_gateways b → upsertRoutes b rs = (b', e) → all_gateways b'.
Proof.
  intros Hall. unfold upsertRoutes. by destruct (mapM_result _ rs); intros [= <- _].
Qed.

Lemma upsertGatewaysAndRoutes_all b gs rs b' e :
  all_gateways b → Forall P gs → upsertGatewaysAndRoutes b gs rs = (b', e) → all_gateways b'.
Proof using ST.
  intros Hall Hgs. unfold upsertGatewaysAndRoutes.
  destruct (upsertGateways b gs) as [b1 [e1|]] eqn:Hup;
    apply upsertGateways_all in Hup as [Hall1 _]; try done; [by intros [= <- _]|].
  intros Hr. by eapply upsertRoutes_all.
Qed.

Lemma UpsertGateway_all gateway cond s s' err :
  all_gateways (st_backend s) → P gateway →
  UpsertGateway statusUpdater gateway cond s = Some (s', err) → all_gateways (st_backend s').
Proof using ST.
  intros Hall HP. unfold UpsertGateway.
  destruct (getGateway _ _) as [current|e]; [|by intros [= <- _]].
  destruct (match cond with Some f => negb (f current) | None => false end); [by intros [= <- _]|].
  destruct (listRoutes (st_backend s)) as [routes|e]; [|by intros [= <- _]].
  destruct (bindAll [gateway] routes) as [bound|] eqn:Hb; [|done]. cbn [mbind option_bind].
  apply bindOrUnbindAll_all in Hb; [|apply stable_Bind|by constructor].
  destruct (upsertGatewaysAndRoutes _ _ _) as [b e] eqn:Hup.
  apply upsertGatewaysAndRoutes_all in Hup; [|done|done].
  destruct e as [e|]; [by intros [= <- _]|].
  destruct (syncGatewaysAndRoutes _ _ _ _) as [[w err']|]; [|done]. simpl. by intros [= <- _].
Qed.

Lemma UpsertRoute_all route cond s s' err :
  all_gateways (st_backend s) →
  UpsertRoute statusUpdater route cond s = Some (s', err) → all_gateways (st_backend s').
Proof using ST.
  intros Hall. unfold UpsertRoute.
  destruct (getRoute _ _) as [current|e]; [|by intros [= <- _]].
  destruct (match cond with Some f => negb (f current) | None => false end); [by intros [= <- _]|].
  destruct (listGateways (st_backend s)) as [gateways|e] eqn:Hl; [|by intros [= <- _]].
  destruct (bindAll gateways [route]) as [bound|] eqn:Hb; [|done]. cbn [mbind option_bind].
  apply bindOrUnbindAll_all in Hb; [|apply stable_Bind|by eapply listGateways_all].
  destruct (upsertGatewaysAndRoutes _ _ _) as [b e] eqn:Hup.
  apply upsertGatewaysAndRoutes_all in Hup; [|done|by apply modified_gateways_all].
  destruct e as [e|]; [by intros [= <- _]|].
  destruct (syncGatewaysAndRoutes _ _ _ _) as [[w err']|]; [|done]. simpl. by intros [= <- _].
Qed.

Lemma DeleteRoute_all id s s' err :
  all_gateways (st_backend s) →
  DeleteRoute statusUpdater id s = Some (s', err) → all_gateways (st_backend s').
Proof using ST.
  intros Hall. unfold DeleteRoute.
  destruct (getRoute _ _) as [[route|]|e]; [|by intros [= <- _]..].
  destruct (listGateways (st_backend s)) as [gateways|e] eqn:Hl; [|by intros [= <- _]].
  destruct (unbindAll gateways [route]) as [bound|] eqn:Hb; [|done]. cbn [mbind option_bind].
  apply bindOrUnbindAll_all in Hb; [|apply stable_Unbind|by eapply listGateways_all].
  cbn [backend_DeleteRoute memory_backend memory_DeleteRoute].
  destruct (upsertGateways _ _) as [b e] eqn:Hup.
  apply upsertGateways_all in Hup as [Hup _]; [|done|by apply modified_gateways_all].
  destruct e as [e|]; [by intros [= <- _]|].
  destruct (syncGateways _ _ _) as [[w err']|]; [|done]. simpl. by intros [= <- _].
Qed.

(** Deleting a gateway that succeeds removes its key. *)
Lemma DeleteGateway_gone id s s' :
  DeleteGateway statusUpdater id s = Some (s', None) → mb_gateways (st_backend s') !! id = None.
Proof.
  unfold DeleteGateway, getGateway. cbn [backend_GetGateway memory_backend].
  unfold memory_GetGateway. destruct (mb_gateways (st_backend s) !! id) as [d|] eqn:Hd.
  2:{ simpl. by intros [= <-]. }
  destruct (UnmarshalGateway d) as [gateway|e]; [|done]. simpl.
  destruct (adapter_Clear (st_world s) id) as [w [e|]]; [done|].
  destruct (listRoutes (st_backend s)) as [routes|e]; [|done].
  destruct (unbindAll [gateway] routes) as [unbound|]; [|done]. simpl.
  destruct (upsertRoutes _ _) as [b e] eqn:Hup.
  assert (mb_gateways b !! id = None) as Hgone.
  { revert Hup. unfold upsertRoutes. by destruct (mapM_result _ _); intros [= <- _];
      cbn [mb_gateways memory_DeleteGateway fst]; rewrite lookup_delete_eq. }
  destruct e as [e|]; [done|].
  destruct (syncRouteStatuses _ _ _) as [[w' err']|]; [|done]. simpl. by intros [= <- _].
Qed.

Lemma DeleteGateway_all id s s' err :
  all_gateways (st_backend s) →
  DeleteGateway statusUpdater id s = Some (s', err) → all_gateways (st_backend s').
Proof.
  intros Hall. unfold DeleteGateway.
  destruct (getGateway _ _) as [[gateway|]|e]; [|by intros [= <- _]..].
  destruct (adapter_Clear (st_world s) id) as [w [e|]]; [by intros [= <- _]|].
  destruct (listRoutes (st_backend s)) as [routes|e]; [|by intros [= <- _]].
  destruct (unbindAll [gateway] routes) as [unbound|]; [|done]. simpl.
  destruct (upsertRoutes _ _) as [b e] eqn:Hup. apply upsertRoutes_all in Hup.
  - destruct e as [e|]; [by intros [= <- _]|].
    destruct (syncRouteStatuses _ _ _) as [[w' err']|]; [|done]. simpl. by intros [= <- _].
  - intros id' d' g'. cbn. intros [_ Hd']%lookup_delete_Some. by apply Hall.
Qed.

End provenance.
