(* ===== verification/Secrets.v ===== *)
(** * Serving TLS certificates to Envoy ([internal/envoy/secrets.go])

    [secretManager] tracks which Envoy node watches which certificate, fetches
    a certificate when its first watcher appears, pushes it into the cache the
    SDS server answers from, and drops it with its last watcher.

    The secret store ([SecretClient]) and the cache of go-control-plane
    ([SecretCache]) are outside the repository: the first is the argument
    [FetchSecret] of the operations that call it, the second the class
    [SecretCaches].  A certificate is a name with a chain and a private key. *)

From S2P Require Import Prelude Errors K8sSecret.

(** The part of [tls.Secret] the manager looks at. *)
Record TLSSecret : Type := mkTLSSecret {
  tlss_Name : string;
  tlss_CertificateChain : string;
  tlss_PrivateKey : string
}.

(** A certificate with its expiration, or the error of the secret store. *)
Abbreviation fetcher := (string → result (TLSSecret * Z)).

(** ** The registry of clients *)

Definition ErrInvalidSecretProtocol : error := ErrString "secret protocol is not registered".

Definition MultiSecretClient_Register (m : gmap string fetcher) (protocol : string)
    (client : fetcher) : gmap string fetcher := <[protocol := client]> m.

Definition MultiSecretClient_FetchSecret {U : NetURL} (m : gmap string fetcher) (name : string) :
    result (TLSSecret * Z) :=
  match url_Parse name with
  | Err e => Err e
  | Ok parsed =>
      match m !! u_Scheme parsed with
      | Some fetch => fetch name
      | None => Err ErrInvalidSecretProtocol
      end
  end.

(** ** The manager *)

Class SecretCaches (C : Type) : Type := {
  UpdateResource : C → string → TLSSecret → C * option error;
  DeleteResource : C → string → C * option error
}.

(** Reference counted certificates. *)
Record watchedCertificate : Type := mkWatchedCertificate {
  wc_Secret : TLSSecret;
  wc_expiration : Z;
  wc_refs : gmap string unit
}.

Record secretManager : Type := mkSecretManager {
  sm_watchers : gmap string (gmap string unit);
  sm_registry : gmap string watchedCertificate
}.

Definition NewSecretManager : secretManager := mkSecretManager ∅ ∅.

(** Ten minutes, in seconds. *)
Definition expirationDelta : Z := 600.

Section manager.
Context {MR : MapRange} {C : Type} {CA : SecretCaches C}.

Definition Nodes (s : secretManager) : list string := (range (sm_watchers s)).*1.
Definition Resources (s : secretManager) : list string := (range (sm_registry s)).*1.

Definition updateCertificate (cache : C) (cert : TLSSecret) : C * option error :=
  UpdateResource cache (tlss_Name cert) cert.

Fixpoint updateCertificates (cache : C) (certs : list TLSSecret) : C * option error :=
  match certs with
  | [] => (cache, None)
  | cert :: certs =>
      match updateCertificate cache cert with
      | (cache, Some e) => (cache, Some e)
      | (cache, None) => updateCertificates cache certs
      end
  end.

Fixpoint removeCertificates (cache : C) (names : list string) : C * option error :=
  match names with
  | [] => (cache, None)
  | name :: names =>
      match DeleteResource cache name with
      | (cache, Some e) => (cache, Some e)
      | (cache, None) => removeCertificates cache names
      end
  end.

(** Add [name] to the set of the node's watcher. *)
Definition watcher_add (s : secretManager) (node name : string) : secretManager :=
  mkSecretManager (alter (λ w, <[name := tt]> w) node (sm_watchers s)) (sm_registry s).
Definition watcher_delete (s : secretManager) (node name : string) : secretManager :=
  mkSecretManager (alter (λ w, delete name w) node (sm_watchers s)) (sm_registry s).
Definition ref_add (c : watchedCertificate) (node : string) : watchedCertificate :=
  mkWatchedCertificate (wc_Secret c) (wc_expiration c) (<[node := tt]> (wc_refs c)).
Definition ref_delete (c : watchedCertificate) (node : string) : watchedCertificate :=
  mkWatchedCertificate (wc_Secret c) (wc_expiration c) (delete node (wc_refs c)).
Definition set_registry (s : secretManager) (name : string) (c : watchedCertificate) :
    secretManager := mkSecretManager (sm_watchers s) (<[name := c]> (sm_registry s)).

(** The loop of [watch]: stops at the first failing fetch. *)
Fixpoint watch_loop (FetchSecret : fetcher) (s : secretManager) (names : list string)
    (node : string) (certificates : list TLSSecret) :
    secretManager * result (list TLSSecret) :=
  match names with
  | [] => (s, Ok certificates)
  | name :: names =>
      let s := watcher_add s node name in
      match sm_registry s !! name with
      | Some entry =>
          watch_loop FetchSecret (set_registry s name (ref_add entry node)) names node certificates
      | None =>
          match FetchSecret name with
          | Err e => (s, Err e)
          | Ok (certificate, expires) =>
              watch_loop FetchSecret
                (set_registry s name
                   (mkWatchedCertificate certificate expires {[node := tt]}))
                names node (certificates ++ [certificate])
          end
      end
  end.

Definition watch (FetchSecret : fetcher) (s : secretManager) (cache : C) (names : list string)
    (node : string) : secretManager * C * option error :=
  let s := match sm_watchers s !! node with
           | Some _ => s
           | None => mkSecretManager (<[node := ∅]> (sm_watchers s)) (sm_registry s)
           end in
  match watch_loop FetchSecret s names node [] with
  | (s, Err e) => (s, cache, Some e)
  | (s, Ok certificates) =>
      let (cache, err) := updateCertificates cache certificates in (s, cache, err)
  end.

(** Drop the node's reference to a certificate; [true] when it was the last. *)
Definition release (s : secretManager) (node name : string) : secretManager * bool :=
  match sm_registry s !! name with
  | Some certificate =>
      let certificate := ref_delete certificate node in
      if bool_decide (wc_refs certificate = ∅) then
        (mkSecretManager (sm_watchers s) (delete name (sm_registry s)), true)
      else (set_registry s name certificate, false)
  | None => (s, false)
  end.

Fixpoint unwatch_loop (s : secretManager) (names : list string) (node : string)
    (certificates : list string) : secretManager * list string :=
  match names with
  | [] => (s, certificates)
  | name :: names =>
      let (s, collected) := release (watcher_delete s node name) node name in
      unwatch_loop s names node (if collected : bool then certificates ++ [name] else certificates)
  end.

Definition unwatch (s : secretManager) (cache : C) (names : list string) (node : string) :
    secretManager * C * option error :=
  match sm_watchers s !! node with
  | None => (s, cache, None)
  | Some _ =>
      let (s, certificates) := unwatch_loop s names node [] in
      let s := match sm_watchers s !! node with
               | Some watcher =>
                   if bool_decide (watcher = ∅)
                   then mkSecretManager (delete node (sm_watchers s)) (sm_registry s) else s
               | None => s
               end in
      let (cache, err) := removeCertificates cache certificates in (s, cache, err)
  end.

Definition SetResourcesForNode (FetchSecret : fetcher) (s : secretManager) (cache : C)
    (names : list string) (node : string) : secretManager * C * option error :=
  match sm_watchers s !! node with
  | None => watch FetchSecret s cache names node
  | Some watcher =>
      let to_watch := List.filter (λ n, negb (bool_decide (is_Some (watcher !! n)))) names in
      let keep := List.filter (λ n, bool_decide (is_Some (watcher !! n))) names in
      let to_unwatch := List.filter (λ n, negb (bool_decide (n ∈ keep))) (range watcher).*1 in
      match watch FetchSecret s cache to_watch node with
      | (s, cache, Some e) => (s, cache, Some e)
      | (s, cache, None) => unwatch s cache to_unwatch node
      end
  end.

Definition Watch := watch.
Definition Unwatch := unwatch.

(** The loop of [UnwatchAll] keeps the watcher until the end. *)
Fixpoint release_loop (s : secretManager) (names : list string) (node : string)
    (certificates : list string) : secretManager * list string :=
  match names with
  | [] => (s, certificates)
  | name :: names =>
      let (s, collected) := release s node name in
      release_loop s names node (if collected : bool then certificates ++ [name] else certificates)
  end.

Definition UnwatchAll (s : secretManager) (cache : C) (node : string) :
    secretManager * C * option error :=
  match sm_watchers s !! node with
  | None => (s, cache, None)
  | Some watcher =>
      let (s, certificates) := release_loop s (range watcher).*1 node [] in
      let s := mkSecretManager (delete node (sm_watchers s)) (sm_registry s) in
      let (cache, err) := removeCertificates cache certificates in (s, cache, err)
  end.

(** One certificate of [manage]; failures are logged and skipped. *)
Definition manage_one (FetchSecret : fetcher) (force : bool) (now : Z)
    (acc : secretManager * C) (kv : string * watchedCertificate) : secretManager * C :=
  let '(s, cache) := acc in
  let '(secretName, secret) := kv in
  if force || bool_decide (wc_expiration secret - expirationDelta < now)%Z then
    match FetchSecret secretName with
    | Err _ => (s, cache)
    | Ok (certificate, expires) =>
        match updateCertificate cache certificate with
        | (cache, Some _) => (s, cache)
        | (cache, None) =>
            (set_registry s secretName
               (mkWatchedCertificate certificate expires (wc_refs secret)), cache)
        end
    end
  else (s, cache).

Definition manage (FetchSecret : fetcher) (force : bool) (now : Z) (s : secretManager) (cache : C) :
    secretManager * C :=
  foldl (manage_one FetchSecret force now) (s, cache) (range (sm_registry s)).

End manager.

(** ** What the manager promises *)

(** The resources a cache holds, and how it changes them: a failing operation
    changes nothing. *)
Class LawfulCache (C : Type) `{SecretCaches C} : Type := {
  cached : C → gset string;
  UpdateResource_law : ∀ c name s c' err, UpdateResource c name s = (c', err) →
    cached c' = match err with None => {[name]} ∪ cached c | Some _ => cached c end;
  DeleteResource_law : ∀ c name c' err, DeleteResource c name = (c', err) →
    cached c' = match err with None => cached c ∖ {[name]} | Some _ => cached c end
}.

(** The node watches the certificate. *)
Definition watches (s : secretManager) (node name : string) : Prop :=
  is_Some (sm_watchers s !! node ≫= λ w, w !! name).
(** The certificate is registered with a reference of the node. *)
Definition holds (s : secretManager) (name node : string) : Prop :=
  is_Some (sm_registry s !! name ≫= λ c, wc_refs c !! node).

(** The references of registered certificates are the watchers, and a
    certificate without references is not kept. *)
Definition refs_coherent (s : secretManager) : Prop :=
  (∀ node name, watches s node name ↔ holds s name node) ∧
  (∀ name c, sm_registry s !! name = Some c → wc_refs c ≠ ∅).

Definition coherent {C} `{LawfulCache C} (s : secretManager) (cache : C) : Prop :=
  refs_coherent s ∧ cached cache = dom (sm_registry s).

(** The secret store answers with the certificate it was asked for. *)
Definition names_answers (FetchSecret : fetcher) : Prop :=
  ∀ name s e, FetchSecret name = Ok (s, e) → tlss_Name s = name.

(** More generally, for stores that answer some names with certificates of
    other names.  [N] are the names looked at and [K] those that are answered
    under their own name: a certificate carries a name of [N] iff it was asked
    for by that name and the name is in [K]. *)
Definition answers_as (N K : string → Prop) (FetchSecret : fetcher) : Prop :=
  ∀ name s e n, FetchSecret name = Ok (s, e) → N n → (tlss_Name s = n ↔ name = n ∧ K n).

(** Of the names of [N], the cache holds the registered ones in [K]. *)
Definition coherent_as {C} `{LawfulCache C} (N K : string → Prop) (s : secretManager)
    (cache : C) : Prop :=
  refs_coherent s ∧ ∀ n, N n → (n ∈ cached cache ↔ n ∈ dom (sm_registry s) ∧ K n).

Definition every (name : string) : Prop := True.

Lemma names_answers_as FetchSecret :
  names_answers FetchSecret ↔ answers_as every every FetchSecret.
Proof.
  split.
  - intros HF name s e n Hf _. rewrite (HF _ _ _ Hf). unfold every. tauto.
  - intros HF name s e Hf. by apply (HF name s e name Hf).
Qed.

Lemma coherent_every {C} `{LawfulCache C} (s : secretManager) (cache : C) :
  coherent s cache ↔ coherent_as every every s cache.
Proof.
  unfold coherent, coherent_as, every. split; intros [Hr Hc]; (split; [done|]).
  - intros n _. rewrite Hc. tauto.
  - apply set_eq. intros n. rewrite Hc by done. tauto.
Qed.

Lemma watches_add s node name node' name' :
  is_Some (sm_watchers s !! node) →
  watches (watcher_add s node name) node' name' ↔
  watches s node' name' ∨ (node' = node ∧ name' = name).
Proof.
  intros [w Hw]. unfold watches, watcher_add. simpl.
  destruct (decide (node' = node)) as [->|Hne].
  - rewrite lookup_alter_eq, Hw. simpl. destruct (decide (name' = name)) as [->|Hn].
    + rewrite lookup_insert_eq. naive_solver eauto.
    + rewrite lookup_insert_ne by done. naive_solver.
  - rewrite lookup_alter_ne by done. naive_solver.
Qed.

Lemma watches_delete s node name node' name' :
  watches (watcher_delete s node name) node' name' ↔
  watches s node' name' ∧ ¬ (node' = node ∧ name' = name).
Proof.
  unfold watches, watcher_delete. simpl.
  destruct (decide (node' = node)) as [->|Hne].
  - rewrite lookup_alter_eq. destruct (sm_watchers s !! node) as [w|]; simpl;
      [|split; [by intros []|by intros [[] _]]].
    destruct (decide (name' = name)) as [->|Hn].
    + rewrite lookup_delete_eq. split; [by intros []|]. intros [_ Hno]. by destruct Hno.
    + rewrite lookup_delete_ne by done. naive_solver.
  - rewrite lookup_alter_ne by done. naive_solver.
Qed.

Lemma holds_set s name c name' node :
  holds (set_registry s name c) name' node ↔
  (name' = name ∧ is_Some (wc_refs c !! node)) ∨ (name' ≠ name ∧ holds s name' node).
Proof.
  unfold holds, set_registry. simpl. destruct (decide (name' = name)) as [->|Hne].
  - rewrite lookup_insert_eq. simpl. naive_solver.
  - rewrite lookup_insert_ne by done. naive_solver.
Qed.

(** One watched name, registered before or not. *)
Lemma refs_coherent_watch s node name secret expires :
  refs_coherent s → is_Some (sm_watchers s !! node) →
  let refs := default ∅ (wc_refs <$> sm_registry s !! name) in
  refs_coherent (set_registry (watcher_add s node name) name
    (mkWatchedCertificate secret expires (<[node := tt]> refs))).
Proof.
  intros [Hiff Hne] Hnode. simpl. split.
  - intros node' name'. rewrite holds_set. simpl.
    change (watches (set_registry (watcher_add s node name) name _) node' name')
      with (watches (watcher_add s node name) node' name').
    change (holds (watcher_add s node name) name' node') with (holds s name' node').
    rewrite watches_add by done. rewrite Hiff. unfold holds.
    destruct (decide (name' = name)) as [->|Hn]; [|naive_solver].
    destruct (decide (node' = node)) as [->|Hnn].
    + rewrite lookup_insert_eq. naive_solver eauto.
    + rewrite lookup_insert_ne by done.
      destruct (sm_registry s !! name) as [c|]; simpl; [naive_solver|].
      rewrite lookup_empty. split; [intros [[]|[]]; done|]. intros [[_ []]|[]]; done.
  - intros name' c. simpl. intros [[<- <-]|[_ Hc]]%lookup_insert_Some; simpl.
    + apply insert_non_empty.
    + by apply (Hne name').
Qed.

Section lawful.
Context {MR : MapRange} {C : Type} `{LC : LawfulCache C}.

Lemma updateCertificates_cached cache certs cache' :
  updateCertificates cache certs = (cache', None) →
  cached cache' = list_to_set (tlss_Name <$> certs) ∪ cached cache.
Proof.
  revert cache. induction certs as [|cert certs IH]; intros cache; simpl.
  { intros [= <-]. by rewrite (left_id_L ∅ (∪)). }
  destruct (updateCertificate cache cert) as [c [e|]] eqn:Hu; [done|].
  intros Hrest. rewrite (IH _ Hrest). apply UpdateResource_law in Hu. rewrite Hu.
  rewrite (assoc_L (∪)). f_equal. apply (comm_L (∪)).
Qed.

Lemma removeCertificates_cached cache names cache' :
  removeCertificates cache names = (cache', None) →
  cached cache' = cached cache ∖ list_to_set names.
Proof.
  revert cache. induction names as [|name names IH]; intros cache; simpl.
  { intros [= <-]. by rewrite difference_empty_L. }
  destruct (DeleteResource cache name) as [c [e|]] eqn:Hd; [done|].
  intros Hrest. rewrite (IH _ Hrest). apply DeleteResource_law in Hd. rewrite Hd.
  by rewrite difference_difference_l_L.
Qed.

End lawful.

Lemma watch_loop_spec N K FetchSecret names node s certs s' certs' :
  answers_as N K FetchSecret → refs_coherent s → is_Some (sm_watchers s !! node) →
  watch_loop FetchSecret s names node certs = (s', Ok certs') →
  refs_coherent s' ∧ is_Some (sm_watchers s' !! node) ∧
  (∀ node' n, watches s' node' n ↔ watches s node' n ∨ (node' = node ∧ n ∈ names)) ∧
  ∃ new, certs' = certs ++ new ∧
    ∀ n, N n → (n ∈ dom (sm_registry s') ∧ K n ↔
      n ∈ tlss_Name <$> new ∨ (n ∈ dom (sm_registry s) ∧ K n)).
Proof.
  intros Hnames. revert s certs.
  induction names as [|name names IH]; intros s certs Hcoh Hnode; simpl.
  { intros [= <- <-]. split_and!; try done.
    - intros node' n. split; [by left|]. intros [?|[_ []%not_elem_of_nil]]. done.
    - exists []. rewrite app_nil_r. split; [done|]. intros n _. simpl.
      rewrite elem_of_nil. tauto. }
  assert (∀ s1 c, s1 = set_registry (watcher_add s node name) name c →
    is_Some (sm_watchers s1 !! node)) as Hnode1.
  { intros s1 c ->. simpl. rewrite lookup_alter_eq. by destruct Hnode as [? ->]. }
  assert (∀ s1 c node' n, s1 = set_registry (watcher_add s node name) name c →
    watches s1 node' n ↔ watches s node' n ∨ (node' = node ∧ n = name)) as Hw1.
  { intros s1 c node' n ->. by apply watches_add. }
  destruct (sm_registry s !! name) as [entry|] eqn:Hreg.
  - pose proof (refs_coherent_watch s node name (wc_Secret entry) (wc_expiration entry) Hcoh Hnode)
      as Hcoh1. rewrite Hreg in Hcoh1. simpl in Hcoh1. fold (ref_add entry node) in Hcoh1.
    intros Hloop. destruct (IH _ _ Hcoh1 (Hnode1 _ _ eq_refl) Hloop)
      as (Hcoh' & Hnode' & Hw & new & -> & Hdom).
    split_and!; try done.
    + intros node' n. rewrite Hw, (Hw1 _ _ _ _ eq_refl), elem_of_cons. naive_solver.
    + exists new. split; [done|]. intros n HN. rewrite (Hdom n HN). simpl. rewrite dom_insert_L.
      assert (name ∈ dom (sm_registry s)) by (apply elem_of_dom; eauto). set_solver.
  - destruct (FetchSecret name) as [[cert expires]|e] eqn:Hf; [|done].
    pose proof (refs_coherent_watch s node name cert expires Hcoh Hnode) as Hcoh1.
    rewrite Hreg in Hcoh1. simpl in Hcoh1. rewrite insert_empty in Hcoh1.
    intros Hloop. destruct (IH _ _ Hcoh1 (Hnode1 _ _ eq_refl) Hloop)
      as (Hcoh' & Hnode' & Hw & new & -> & Hdom).
    split_and!; try done.
    + intros node' n. rewrite Hw, (Hw1 _ _ _ _ eq_refl), elem_of_cons. naive_solver.
    + exists (cert :: new). rewrite <- app_assoc. split; [done|]. intros n HN.
      rewrite (Hdom n HN). simpl. rewrite dom_insert_L, elem_of_cons, elem_of_union,
        elem_of_singleton. pose proof (Hnames name cert expires n Hf HN). naive_solver.
Qed.

(** Coherence of everyone but [node], whose references are described by [P]. *)
Definition coherent_for (s : secretManager) (node : string) (P : string → Prop) : Prop :=
  (∀ node' name, node' ≠ node → watches s node' name ↔ holds s name node') ∧
  (∀ name, holds s name node ↔ P name) ∧
  (∀ name c, sm_registry s !! name = Some c → wc_refs c ≠ ∅).

Lemma coherent_for_watches s node :
  refs_coherent s ↔ coherent_for s node (watches s node).
Proof.
  split.
  - intros [Hiff Hne]. split_and!; [by intros; apply Hiff|by intros; rewrite Hiff|done].
  - intros (Hother & Hnode & Hne). split; [|done]. intros node' name.
    destruct (decide (node' = node)) as [->|]; [by rewrite Hnode|by apply Hother].
Qed.

Lemma coherent_for_ext s node P Q :
  (∀ n, P n ↔ Q n) → coherent_for s node P → coherent_for s node Q.
Proof. intros HPQ (H1 & H2 & H3). split_and!; try done. intros n. by rewrite H2. Qed.

Lemma release_spec s node name P s' collected :
  coherent_for s node P → release s node name = (s', collected) →
  coherent_for s' node (λ n, P n ∧ n ≠ name) ∧ sm_watchers s' = sm_watchers s ∧
  dom (sm_registry s') = dom (sm_registry s) ∖ (if collected then {[name]} else ∅).
Proof.
  intros (Hother & Hnode & Hne). unfold release.
  destruct (sm_registry s !! name) as [c|] eqn:Hreg.
  2: { intros [= <- <-]. split; [|by rewrite difference_empty_L]. split; [done|]. split; [|done].
       intros n. rewrite Hnode. split; [|by intros []]. intros HP. split; [done|].
       intros ->. apply Hnode in HP. unfold holds in HP. rewrite Hreg in HP. by destruct HP. }
  case_bool_decide as Hempty; intros [= <- <-].
  - simpl in Hempty. split_and!; simpl; [|done|by rewrite dom_delete_L].
    assert (∀ name' node', holds (mkSecretManager (sm_watchers s) (delete name (sm_registry s)))
      name' node' ↔ name' ≠ name ∧ holds s name' node') as Hh.
    { intros name' node'. unfold holds. simpl. destruct (decide (name' = name)) as [->|Hn].
      - rewrite lookup_delete_eq. split; [by intros []|by intros []].
      - rewrite lookup_delete_ne by done. naive_solver. }
    split_and!.
    + intros node' name' Hnn. rewrite Hh, <- Hother by done. split; [|by intros []].
      intros Hw. split; [|done]. intros ->. apply Hother in Hw; [|done]. unfold holds in Hw.
      rewrite Hreg in Hw. simpl in Hw. destruct Hw as [u Hu].
      assert (delete node (wc_refs c) !! node' = Some u) as Hd by by rewrite lookup_delete_ne.
      by rewrite Hempty in Hd.
    + intros n. rewrite Hh, Hnode. tauto.
    + intros name' c'. simpl. intros [_ Hc]%lookup_delete_Some. by apply (Hne name').
  - split_and!; simpl; [|done|].
    + split_and!.
      * intros node' name' Hnn. rewrite holds_set. simpl.
        change (watches (set_registry s name (ref_delete c node)) node' name') with (watches s node' name').
        rewrite lookup_delete_ne by done. rewrite Hother by done. unfold holds.
        destruct (decide (name' = name)) as [->|]; [rewrite Hreg; simpl; naive_solver|naive_solver].
      * intros n. rewrite holds_set, Hnode. simpl. rewrite lookup_delete_eq. split.
        -- intros [[_ []]|]; [done|tauto].
        -- intros [? ?]. by right.
      * intros name' c'. simpl. intros [[<- <-]|[_ Hc]]%lookup_insert_Some; [done|by apply (Hne name')].
    + rewrite dom_insert_L, difference_empty_L.
      apply subseteq_union_1_L, singleton_subseteq_l, elem_of_dom. eauto.
Qed.

Lemma coherent_for_watcher_delete s node name P :
  coherent_for s node P → coherent_for (watcher_delete s node name) node P.
Proof.
  intros (Hother & Hnode & Hne). split_and!; [|exact Hnode|exact Hne].
  intros node' name' Hnn. rewrite watches_delete.
  change (holds (watcher_delete s node name) name' node') with (holds s name' node').
  rewrite Hother by done. naive_solver.
Qed.

Lemma unwatch_loop_spec names node s certs P s' certs' :
  coherent_for s node P → unwatch_loop s names node certs = (s', certs') →
  coherent_for s' node (λ n, P n ∧ n ∉ names) ∧
  (∀ node' n, watches s' node' n ↔ watches s node' n ∧ ¬ (node' = node ∧ n ∈ names)) ∧
  ∃ gone, certs' = certs ++ gone ∧
    dom (sm_registry s') = dom (sm_registry s) ∖ list_to_set gone.
Proof.
  revert s certs P. induction names as [|name names IH]; intros s certs P Hcoh; simpl.
  { intros [= <- <-]. split_and!.
    - eapply coherent_for_ext; [|done]. intros n. split; [|by intros []].
      intros HP. split; [done|apply not_elem_of_nil].
    - intros node' n. split; [|by intros []]. intros Hw. split; [done|]. by intros [_ []%not_elem_of_nil].
    - exists []. rewrite app_nil_r. split; [done|]. simpl. by rewrite difference_empty_L. }
  destruct (release (watcher_delete s node name) node name) as [s1 collected] eqn:Hrel.
  apply release_spec with (P := P) in Hrel as (Hcoh1 & Hw1 & Hdom1);
    [|by apply coherent_for_watcher_delete].
  intros Hloop. destruct (IH _ _ _ Hcoh1 Hloop) as (Hcoh' & Hw & gone & -> & Hdom).
  split_and!.
  - eapply coherent_for_ext; [|done]. intros n. simpl. rewrite not_elem_of_cons. tauto.
  - intros node' n. rewrite Hw. unfold watches at 1. rewrite Hw1.
    change (is_Some (sm_watchers (watcher_delete s node name) !! node' ≫= λ w, w !! n))
      with (watches (watcher_delete s node name) node' n).
    rewrite watches_delete, elem_of_cons. naive_solver.
  - simpl in Hdom1. exists ((if collected then [name] else []) ++ gone).
    split; [destruct collected; by rewrite <- ?app_assoc|].
    rewrite Hdom, Hdom1. destruct collected; simpl; set_solver.
Qed.

Lemma release_loop_spec names node s certs P s' certs' :
  coherent_for s node P → release_loop s names node certs = (s', certs') →
  coherent_for s' node (λ n, P n ∧ n ∉ names) ∧ sm_watchers s' = sm_watchers s ∧
  ∃ gone, certs' = certs ++ gone ∧
    dom (sm_registry s') = dom (sm_registry s) ∖ list_to_set gone.
Proof.
  revert s certs P. induction names as [|name names IH]; intros s certs P Hcoh; simpl.
  { intros [= <- <-]. split_and!; try done.
    - eapply coherent_for_ext; [|done]. intros n. split; [|by intros []].
      intros HP. split; [done|apply not_elem_of_nil].
    - exists []. rewrite app_nil_r. split; [done|]. simpl. by rewrite difference_empty_L. }
  destruct (release s node name) as [s1 collected] eqn:Hrel.
  apply release_spec with (P := P) in Hrel as (Hcoh1 & Hw1 & Hdom1); [|done].
  intros Hloop. destruct (IH _ _ _ Hcoh1 Hloop) as (Hcoh' & Hw & gone & -> & Hdom).
  split_and!.
  - eapply coherent_for_ext; [|done]. intros n. simpl. rewrite not_elem_of_cons. tauto.
  - congruence.
  - exists ((if collected then [name] else []) ++ gone).
    split; [destruct collected; by rewrite <- ?app_assoc|].
    rewrite Hdom, Hdom1. destruct collected; simpl; set_solver.
Qed.

Section operations.
Context {MR : MapRange} {C : Type} `{LC : LawfulCache C}.
Implicit Types (s : secretManager) (cache : C).

Lemma watch_spec_as N K FetchSecret s cache names node s' cache' :
  answers_as N K FetchSecret → coherent_as N K s cache →
  watch FetchSecret s cache names node = (s', cache', None) →
  coherent_as N K s' cache' ∧
  ∀ node' n, watches s' node' n ↔ watches s node' n ∨ (node' = node ∧ n ∈ names).
Proof.
  intros Hnames [Hcoh Hcached]. unfold watch.
  set (s0 := match sm_watchers s !! node with Some _ => s | None => _ end).
  assert (is_Some (sm_watchers s0 !! node) ∧ sm_registry s0 = sm_registry s ∧
    ∀ node' n, watches s0 node' n ↔ watches s node' n) as (Hnode & Hreg & Hw0).
  { unfold s0. destruct (sm_watchers s !! node) as [w|] eqn:Hw; [by rewrite Hw; split_and!; eauto|].
    simpl. rewrite lookup_insert_eq. split_and!; [eauto|done|]. intros node' n. unfold watches. simpl.
    destruct (decide (node' = node)) as [->|Hne].
    - rewrite lookup_insert_eq, Hw. simpl. rewrite lookup_empty. done.
    - by rewrite lookup_insert_ne. }
  assert (refs_coherent s0) as Hcoh0.
  { destruct Hcoh as [Hiff Hne]. split; [|by rewrite Hreg]. intros node' n.
    rewrite Hw0, Hiff. unfold holds. by rewrite Hreg. }
  clearbody s0.
  destruct (watch_loop FetchSecret s0 names node []) as [s1 [certs|e]] eqn:Hloop; [|done].
  destruct (updateCertificates cache certs) as [c err] eqn:Hup. intros [= <- <- ->].
  apply (watch_loop_spec N K) in Hloop as (Hcoh1 & _ & Hw1 & new & -> & Hdom); [|done|done|done].
  apply updateCertificates_cached in Hup. simpl in Hup. split.
  - split; [done|]. intros n HN. rewrite (Hdom n HN), Hup, elem_of_union, elem_of_list_to_set,
      (Hcached n HN), Hreg. done.
  - intros node' n. by rewrite Hw1, Hw0.
Qed.

(** Removing an empty watcher. *)
Lemma refs_coherent_registry s w' :
  (∀ node n, watches (mkSecretManager w' (sm_registry s)) node n ↔ watches s node n) →
  refs_coherent s → refs_coherent (mkSecretManager w' (sm_registry s)).
Proof. intros Hw [Hiff Hne]. split; [|done]. intros node n. rewrite Hw. apply Hiff. Qed.

Lemma unwatch_spec_as N K s cache names node s' cache' :
  coherent_as N K s cache → unwatch s cache names node = (s', cache', None) →
  coherent_as N K s' cache' ∧
  ∀ node' n, watches s' node' n ↔ watches s node' n ∧ ¬ (node' = node ∧ n ∈ names).
Proof.
  intros [Hcoh Hcached]. unfold unwatch.
  destruct (sm_watchers s !! node) as [w|] eqn:Hw.
  2: { intros [= <- <-]. split; [done|]. intros node' n. split; [|by intros []].
       intros Hwn. split; [done|]. intros [-> _]. unfold watches in Hwn. rewrite Hw in Hwn.
       by destruct Hwn. }
  destruct (unwatch_loop s names node []) as [s1 gone] eqn:Hloop.
  destruct (removeCertificates cache gone) as [c err] eqn:Hrem. intros [= <- <- ->].
  apply (coherent_for_watches s node) in Hcoh.
  destruct (unwatch_loop_spec _ _ _ _ _ _ _ Hcoh Hloop) as (Hcoh1 & Hw1 & gone' & -> & Hdom).
  apply removeCertificates_cached in Hrem. simpl in Hrem.
  assert (refs_coherent s1) as Hcoh1'.
  { apply (coherent_for_watches s1 node). eapply coherent_for_ext; [|exact Hcoh1].
    intros n. simpl. rewrite Hw1. naive_solver. }
  set (s2 := match sm_watchers s1 !! node with Some _ => _ | None => s1 end).
  assert (sm_registry s2 = sm_registry s1 ∧ ∀ node' n, watches s2 node' n ↔ watches s1 node' n)
    as [Hreg2 Hw2].
  { unfold s2. destruct (sm_watchers s1 !! node) as [w1|] eqn:Hw1n; [|done].
    case_bool_decide as He; [|done]. split; [done|]. intros node' n. unfold watches. simpl.
    destruct (decide (node' = node)) as [->|Hne].
    - rewrite lookup_delete_eq, Hw1n, He. simpl. by rewrite lookup_empty.
    - by rewrite lookup_delete_ne. }
  clearbody s2. split.
  - split.
    + destruct Hcoh1' as [Hiff Hne]. split; [|by rewrite Hreg2]. intros node' n.
      rewrite Hw2, Hiff. unfold holds. by rewrite Hreg2.
    + intros n HN. rewrite Hrem, Hreg2, Hdom, !elem_of_difference, (Hcached n HN). tauto.
  - intros node' n. by rewrite Hw2, Hw1.
Qed.

Lemma UnwatchAll_spec_as N K s cache node s' cache' :
  coherent_as N K s cache → UnwatchAll s cache node = (s', cache', None) →
  coherent_as N K s' cache' ∧ ∀ node' n, watches s' node' n ↔ watches s node' n ∧ node' ≠ node.
Proof.
  intros [Hcoh Hcached]. unfold UnwatchAll.
  destruct (sm_watchers s !! node) as [w|] eqn:Hw.
  2: { intros [= <- <-]. split; [done|]. intros node' n. split; [|by intros []].
       intros Hwn. split; [done|]. intros ->. unfold watches in Hwn. rewrite Hw in Hwn.
       by destruct Hwn. }
  destruct (release_loop s (range w).*1 node []) as [s1 gone] eqn:Hloop.
  destruct (removeCertificates cache gone) as [c err] eqn:Hrem. intros [= <- <- ->].
  apply (coherent_for_watches s node) in Hcoh.
  destruct (release_loop_spec _ _ _ _ _ _ _ Hcoh Hloop) as ((Ho & Hn & Hne) & Hw1 & gone' & -> & Hdom).
  apply removeCertificates_cached in Hrem. simpl in Hrem.
  set (s2 := mkSecretManager (delete node (sm_watchers s1)) (sm_registry s1)).
  assert (∀ node' n, watches s2 node' n ↔ watches s node' n ∧ node' ≠ node) as Hw2.
  { intros node' n. unfold watches, s2. simpl. rewrite Hw1.
    destruct (decide (node' = node)) as [->|Hnn].
    - rewrite lookup_delete_eq. simpl. split; [by intros []|by intros []].
    - rewrite lookup_delete_ne by done. naive_solver. }
  split; [|done]. split.
  2: { intros n HN. unfold s2. simpl. rewrite Hrem, Hdom, !elem_of_difference, (Hcached n HN). tauto. }
  split; [|done].
  intros node' n. rewrite Hw2. change (holds s2 n node') with (holds s1 n node').
  destruct (decide (node' = node)) as [->|Hnn].
  - split; [by intros []|]. rewrite Hn. intros [Hwn Hnot]. exfalso. apply Hnot.
    apply elem_of_range_keys. unfold watches in Hwn. by rewrite Hw in Hwn.
  - rewrite <- Ho by done. unfold watches. rewrite Hw1. naive_solver.
Qed.

Lemma manage_spec_as N K FetchSecret force now s cache s' cache' :
  answers_as N K FetchSecret → coherent_as N K s cache →
  manage FetchSecret force now s cache = (s', cache') →
  coherent_as N K s' cache' ∧ ∀ node n, watches s' node n ↔ watches s node n.
Proof.
  intros Hnames Hcoh. unfold manage.
  assert (∀ l s1 c1, (∀ name c, (name, c) ∈ l → ∃ c1, sm_registry s1 !! name = Some c1 ∧ wc_refs c1 = wc_refs c) →
    coherent_as N K s1 c1 → (∀ node n, watches s1 node n ↔ watches s node n) →
    foldl (manage_one FetchSecret force now) (s1, c1) l = (s', cache') →
    coherent_as N K s' cache' ∧ ∀ node n, watches s' node n ↔ watches s node n) as Hl.
  { induction l as [|[name c] l IH]; intros s1 c1 Hin Hcoh1 Hw1; simpl; [by intros [= <- <-]|].
    destruct (force || _); [|apply IH; [intros; apply Hin; by right|done|done]].
    destruct (FetchSecret name) as [[cert expires]|e] eqn:Hf;
      [|apply IH; [intros; apply Hin; by right|done|done]].
    destruct (updateCertificate c1 cert) as [c2 err] eqn:Hu.
    apply UpdateResource_law in Hu. destruct Hcoh1 as [[Hiff Hne] Hcached].
    destruct err as [e|].
    { apply IH; [intros; apply Hin; by right|split; [by split|by rewrite Hu]|done]. }
    destruct (Hin name c ltac:(left)) as (creg & Hreg & Hrefs). apply IH.
    - intros name' c' Hin'. simpl. destruct (decide (name' = name)) as [->|Hn].
      + exists (mkWatchedCertificate cert expires (wc_refs c)). rewrite lookup_insert_eq.
        split; [done|]. simpl. destruct (Hin name c' ltac:(by right)) as (c'' & Hc'' & Heq).
        rewrite Hreg in Hc''. injection Hc'' as <-. congruence.
      + rewrite lookup_insert_ne by done. apply Hin. by right.
    - split; [split|].
      + intros node n. rewrite holds_set. simpl.
        change (watches (set_registry s1 name _) node n) with (watches s1 node n). rewrite Hiff.
        unfold holds. destruct (decide (n = name)) as [->|]; [|naive_solver].
        rewrite Hreg. simpl. rewrite Hrefs. naive_solver.
      + intros n c'. simpl. intros [[<- <-]|[_ Hc]]%lookup_insert_Some; [|by apply (Hne n)].
        simpl. rewrite <- Hrefs. by apply (Hne name).
      + intros n HN. pose proof (Hnames name cert expires n Hf HN) as Hname.
        pose proof (Hcached n HN) as Hcn. rewrite Hu. simpl.
        rewrite dom_insert_L, !elem_of_union, !elem_of_singleton. naive_solver.
    - done. }
  apply Hl; [|done|done]. intros name c Hc%elem_of_range. eauto.
Qed.

Lemma SetResourcesForNode_spec_as N K FetchSecret s cache names node s' cache' :
  answers_as N K FetchSecret → coherent_as N K s cache →
  SetResourcesForNode FetchSecret s cache names node = (s', cache', None) →
  coherent_as N K s' cache' ∧
  (∀ n, watches s' node n ↔ n ∈ names) ∧
  (∀ node' n, node' ≠ node → watches s' node' n ↔ watches s node' n).
Proof.
  intros Hnames Hcoh. unfold SetResourcesForNode.
  destruct (sm_watchers s !! node) as [w|] eqn:Hw.
  - assert (∀ n, watches s node n ↔ is_Some (w !! n)) as Hwn
      by (intros n; unfold watches; by rewrite Hw).
    destruct (watch _ _ _ _ _) as [[s1 c1] [e|]] eqn:Hwatch; [done|]. intros Hun.
    apply (watch_spec_as N K) in Hwatch as [Hcoh1 Hw1]; [|done|done].
    apply (unwatch_spec_as N K) in Hun as [Hcoh2 Hw2]; [|done]. split; [done|]. split.
    + intros n. rewrite Hw2, Hw1, Hwn.
      rewrite !elem_of_bfilter, elem_of_range_keys, !negb_true_iff, !bool_decide_eq_false.
      rewrite elem_of_bfilter, bool_decide_eq_true. destruct (decide (is_Some (w !! n))), (decide (n ∈ names)); tauto.
    + intros node' n Hne. rewrite Hw2, Hw1. naive_solver.
  - intros Hwatch. apply (watch_spec_as N K) in Hwatch as [Hcoh1 Hw1]; [|done|done]. split; [done|]. split.
    + intros n. rewrite Hw1. unfold watches. rewrite Hw. simpl. split; [|naive_solver].
      intros [[]|[_ ?]]; done.
    + intros node' n Hne. rewrite Hw1. naive_solver.
Qed.

(** With a store that answers every name with its own certificate. *)
Lemma SetResourcesForNode_spec FetchSecret s cache names node s' cache' :
  names_answers FetchSecret → coherent s cache →
  SetResourcesForNode FetchSecret s cache names node = (s', cache', None) →
  coherent s' cache' ∧
  (∀ n, watches s' node n ↔ n ∈ names) ∧
  (∀ node' n, node' ≠ node → watches s' node' n ↔ watches s node' n).
Proof.
  rewrite names_answers_as, !coherent_every. apply SetResourcesForNode_spec_as.
Qed.

End operations.

(** ** Theorems *)

Section theorems.
Context {MR : MapRange} {C : Type} `{LC : LawfulCache C}.

(** The operations that report success, and the refresh loop, which reports
    nothing.  Each may find the secret store in a different state: [stores] are
    the ways it may answer. *)
Inductive secret_step (stores : fetcher → Prop) : secretManager * C → secretManager * C → Prop :=
  | StepSetResources FetchSecret names node s c s' c' :
      stores FetchSecret →
      SetResourcesForNode FetchSecret s c names node = (s', c', None) →
      secret_step stores (s, c) (s', c')
  | StepWatch FetchSecret names node s c s' c' :
      stores FetchSecret →
      Watch FetchSecret s c names node = (s', c', None) → secret_step stores (s, c) (s', c')
  | StepUnwatch names node s c s' c' :
      Unwatch s c names node = (s', c', None) → secret_step stores (s, c) (s', c')
  | StepUnwatchAll node s c s' c' :
      UnwatchAll s c node = (s', c', None) → secret_step stores (s, c) (s', c')
  | StepManage FetchSecret force now s c s' c' :
      stores FetchSecret →
      manage FetchSecret force now s c = (s', c') → secret_step stores (s, c) (s', c').

Lemma secret_step_coherent N K stores a b :
  (∀ F, stores F → answers_as N K F) →
  secret_step stores a b → coherent_as N K a.1 a.2 → coherent_as N K b.1 b.2.
Proof.
  intros HF.
  destruct 1 as [F ns n s c s' c' Hstore Hs|F ns n s c s' c' Hstore Hs|ns n s c s' c' Hs|
                 n s c s' c' Hs|F f w s c s' c' Hstore Hs]; simpl; intros Hc;
    try apply HF in Hstore.
  - by eapply SetResourcesForNode_spec_as.
  - by eapply watch_spec_as.
  - by eapply unwatch_spec_as.
  - by eapply UnwatchAll_spec_as.
  - by eapply manage_spec_as.
Qed.

(** After any sequence of such operations, from nothing: the nodes a
    certificate is registered for are those that watch it, and of the names in
    [N] the cache holds those in [K] that some node watches. *)
Lemma secret_steps_cached N K stores (cache0 cache : C) (s : secretManager) :
  (∀ F, stores F → answers_as N K F) → cached cache0 = ∅ →
  rtc (secret_step stores) (NewSecretManager, cache0) (s, cache) →
  (∀ name node, watches s node name ↔ holds s name node) ∧
  (∀ name, N name → (name ∈ cached cache ↔ K name ∧ ∃ node, watches s node name)).
Proof.
  intros HF Hempty Hrtc.
  assert (coherent_as N K s cache) as [[Hiff Hne] Hcached].
  { assert (∀ a b, rtc (secret_step stores) a b →
      coherent_as N K a.1 a.2 → coherent_as N K b.1 b.2) as Hall.
    { intros a b. induction 1 as [|a x b Hstep _ IH]; [done|].
      intros Ha. by eapply IH, secret_step_coherent. }
    apply (Hall _ _ Hrtc). simpl. split; [split; [|done]|].
    - intros node name. unfold watches, holds. simpl. by rewrite !lookup_empty.
    - intros n _. rewrite Hempty. set_solver. }
  split; [intros name node; apply Hiff|]. intros name HN. rewrite (Hcached name HN).
  assert (name ∈ dom (sm_registry s) ↔ ∃ node, watches s node name) as ->; [|tauto].
  rewrite elem_of_dom. split.
  - intros [c Hc]. destruct (map_choose (wc_refs c) (Hne name c Hc)) as (node & u & Hu).
    exists node. apply Hiff. unfold holds. rewrite Hc. simpl. eauto.
  - intros [node Hw]. apply Hiff in Hw. unfold holds in Hw.
    destruct (sm_registry s !! name) as [c|]; [eauto|by destruct Hw].
Qed.

(** A node's request replaces its set of watched certificates.  In a
    coherent state, when [SetResourcesForNode] reports success the node
    watches exactly the requested certificates, all of them are in the cache,
    and no other node's set changed. *)
Theorem set_resources_exact (FetchSecret : fetcher) (s s' : secretManager) (cache cache' : C)
    (names : list string) (node : string) :
  names_answers FetchSecret → coherent s cache →
  SetResourcesForNode FetchSecret s cache names node = (s', cache', None) →
  coherent s' cache' ∧
  (∀ n, watches s' node n ↔ n ∈ names) ∧
  (∀ n, n ∈ names → n ∈ cached cache') ∧
  (∀ node' n, node' ≠ node → watches s' node' n ↔ watches s node' n).
Proof.
  intros HF Hcoh Hset. apply SetResourcesForNode_spec in Hset as (Hcoh' & Hn & Ho); [|done|done].
  split_and!; try done. intros n Hin. destruct Hcoh' as [[Hiff _] ->].
  apply Hn, Hiff in Hin. apply elem_of_dom. unfold holds in Hin.
  destruct (sm_registry s' !! n); [eauto|by destruct Hin].
Qed.

End theorems.

(** ** Examples *)

Module SecretExamples.

(** A cache that is just the set of its resources. *)
#[export] Instance set_cache : SecretCaches (gset string) := {|
  UpdateResource := λ c name _, ({[name]} ∪ c, None);
  DeleteResource := λ c name, (c ∖ {[name]}, None)
|}.

#[export] Program Instance set_cache_lawful : LawfulCache (gset string) := {| cached := id |}.
Next Obligation. by intros c name s c' err [= <- <-]. Qed.
Next Obligation. by intros c name c' err [= <- <-]. Qed.

(** A secret store that has every certificate, and one that is down. *)
Definition serving : fetcher := λ name, Ok (mkTLSSecret name "chain" "key", 1000%Z).
Definition down : fetcher := λ name, Err (ErrString "unavailable").

Lemma serving_names : names_answers serving.
Proof. by intros name s e [= <- _]. Qed.

Definition request (F : fetcher) (names : list string) (node : string)
    (sc : secretManager * gset string) : secretManager * gset string :=
  (@SetResourcesForNode canonical_range _ _ F sc.1 sc.2 names node).1.
Definition request_error (F : fetcher) (names : list string) (node : string)
    (sc : secretManager * gset string) : option error :=
  (@SetResourcesForNode canonical_range _ _ F sc.1 sc.2 names node).2.

Lemma request_step (stores : fetcher → Prop) F names node sc :
  stores F → request_error F names node sc = None →
  @secret_step canonical_range _ _ stores sc (request F names node sc).
Proof.
  destruct sc as [s c]. intros HF He. unfold request, request_error in *. simpl in *.
  destruct (SetResourcesForNode F s c names node) as [[s' c'] err] eqn:Hs. simpl in *. subst err.
  by eapply StepSetResources.
Qed.

End SecretExamples.

Lemma set_resources_exact_witness :
  let '(s', cache', err) := @SetResourcesForNode canonical_range (gset string)
    SecretExamples.set_cache SecretExamples.serving NewSecretManager ∅ ["a"; "b"] "node" in
  err = None ∧ (∀ n, watches s' "node" n ↔ n ∈ ["a"; "b"]).
Proof.
  destruct (SetResourcesForNode _ _ _ _ _) as [[s' cache'] err] eqn:Hset.
  assert (err = None) as He.
  { change err with (s', cache', err).2. rewrite <- Hset. vm_compute. reflexivity. }
  split; [exact He|]. rewrite He in Hset.
  destruct (@set_resources_exact canonical_range _ _ SecretExamples.set_cache_lawful
    SecretExamples.serving NewSecretManager s' ∅ cache' ["a"; "b"] "node") as (_ & H & _).
  - exact SecretExamples.serving_names.
  - split; [|reflexivity]. split; [|done]. intros node name. unfold watches, holds. simpl.
    by rewrite !lookup_empty.
  - exact Hset.
  - exact H.
Defined.

(** A certificate whose first fetch fails is never served.  When the
    secret store is unavailable the request of a node fails; when the node
    asks again later, with the store back, the request succeeds, but the
    certificate is neither registered nor in the cache: the node already
    counts as watching it. *)
Theorem failed_fetch_is_not_retried :
  let failed := SecretExamples.request SecretExamples.down ["a"] "node" (NewSecretManager, ∅) in
  let again := SecretExamples.request SecretExamples.serving ["a"] "node" failed in
  SecretExamples.request_error SecretExamples.down ["a"] "node" (NewSecretManager, ∅) ≠ None ∧
  SecretExamples.request_error SecretExamples.serving ["a"] "node" failed = None ∧
  watches again.1 "node" "a" ∧ sm_registry again.1 !! "a" = None ∧ "a" ∉ again.2.
Proof.
  cbv zeta. split; [vm_compute; discriminate|]. split; [vm_compute; reflexivity|].
  split; [vm_compute; eexists; reflexivity|]. split; [vm_compute; reflexivity|].
  eapply bool_decide_eq_false. vm_compute. reflexivity.
Qed.
