(* ===== verification/Sds.v ===== *)
(** * The SDS server's callbacks ([internal/envoy/middleware.go], [handler.go])

    Envoy connects with a client certificate; the middleware reads the SPIFFE
    identities in it and admits the stream for the first one that names a
    gateway of the store.  The request handler then lets the stream watch the
    certificates its gateway may fetch.

    gRPC and TLS are outside the repository: a peer is the list of the URIs
    (scheme and path) of its certificates, and a stream context the gateway
    identity it carries.  The store is read through its interface
    [GetGateway]; a panic is [None]. *)

From S2P Require Import Prelude Errors Core K8s Status State Objects K8sSecret Secrets.

(** ** Authentication ([middleware.go]) *)

Definition spiffePathErr : error := ErrString "invalid spiffe path".

Definition parseURI (path : string) : result GatewayID :=
  let path := strings_TrimPrefix path "/" in
  let tokens := strings_SplitN "/" 8 path in
  let gateway (namespace service : string) : GatewayID :=
    mkGatewayID (if decide (namespace = "default") then "" else namespace) service in
  match tokens with
  | [t0; _; t2; namespace; t4; _; t6; service] =>
      if bool_decide (t0 ≠ "ap") || bool_decide (t2 ≠ "ns") || bool_decide (t4 ≠ "dc")
         || bool_decide (t6 ≠ "svc") then Err spiffePathErr
      else Ok (gateway namespace service)
  | [t0; namespace; t2; _; t4; service] =>
      if bool_decide (t0 ≠ "ns") || bool_decide (t2 ≠ "dc") || bool_decide (t4 ≠ "svc")
      then Err spiffePathErr
      else Ok (gateway namespace service)
  | _ => Err spiffePathErr
  end.

Record URI : Type := mkURI { uri_Scheme : string; uri_Path : string }.

Section sds.
Context {MR : MapRange} {G C : Type} {CA : SecretCaches C}.
Context (GetGateway : GatewayID → result (option G)).
Context (gateway_CanFetchSecrets : G → list string → result bool).
Context (FetchSecret : fetcher).

(** The identity of one URI, if it names a known gateway. *)
Definition verify_uri (uri : URI) : option GatewayID :=
  if decide (uri_Scheme uri = "spiffe") then
    match parseURI (uri_Path uri) with
    | Err _ => None
    | Ok info =>
        match GetGateway info with
        | Ok (Some _) => Some info
        | Ok None | Err _ => None
        end
    end
  else None.

(** The certificates of the peer, each with its URIs. *)
Definition verifySPIFFE (PeerCertificates : list (list URI)) : option GatewayID :=
  head (omap verify_uri (concat PeerCertificates)).

(** ** Requests ([handler.go]) *)

Record RequestHandler : Type := mkRequestHandler {
  rh_nodeMap : gmap Z string;
  rh_streamContexts : gmap Z GatewayID;
  rh_activeStreams : Z
}.

(** [streamContext] and [GatewayFromContext]: the background context carries
    no gateway. *)
Definition stream_gateway (r : RequestHandler) (streamID : Z) : GatewayID :=
  default (mkGatewayID "" "") (rh_streamContexts r !! streamID).

Definition SecretType : string := "type.googleapis.com/envoy.extensions.transport_sockets.tls.v3.Secret".

Definition OnStreamOpen (r : RequestHandler) (ctx : GatewayID) (streamID : Z) : RequestHandler :=
  mkRequestHandler (rh_nodeMap r) (<[streamID := ctx]> (rh_streamContexts r))
    (rh_activeStreams r + 1).

(** [NewRequestHandler]'s [StreamOpenFunc]: only secrets are served. *)
Definition StreamOpenFunc (r : RequestHandler) (ctx : GatewayID) (streamID : Z)
    (typeURL : string) : RequestHandler * option error :=
  if decide (typeURL = SecretType) then (OnStreamOpen r ctx streamID, None)
  else (r, Some (ErrString ("unsupported type: " +:+ typeURL))).

(** The state of the handler together with the secret manager and its cache. *)
Record sds_state : Type := mkSdsState {
  ss_handler : RequestHandler;
  ss_secrets : secretManager;
  ss_cache : C
}.

Definition OnStreamClosed (st : sds_state) (streamID : Z) : sds_state :=
  let r := ss_handler st in
  let '(secrets, cache) :=
    match rh_nodeMap r !! streamID with
    | Some node => (UnwatchAll (ss_secrets st) (ss_cache st) node).1
    | None => (ss_secrets st, ss_cache st)
    end in
  mkSdsState
    (mkRequestHandler (delete streamID (rh_nodeMap r)) (delete streamID (rh_streamContexts r))
       (match rh_streamContexts r !! streamID with
        | Some _ => rh_activeStreams r - 1
        | None => rh_activeStreams r
        end)%Z) secrets cache.

Definition PermissionDenied : error :=
  ErrString "the current gateway does not have permission to fetch the requested secrets".

(** A gateway that is not in the store is a nil interface: calling it panics. *)
Definition OnStreamRequest (st : sds_state) (streamID : Z) (resources : list string)
    (node : string) : option (sds_state * option error) :=
  let r := ss_handler st in
  match GetGateway (stream_gateway r streamID) with
  | Err e => Some (st, Some e)
  | Ok None => None
  | Ok (Some gateway) =>
      match gateway_CanFetchSecrets gateway resources with
      | Err e => Some (st, Some e)
      | Ok false => Some (st, Some PermissionDenied)
      | Ok true =>
          let r := mkRequestHandler (<[streamID := node]> (rh_nodeMap r)) (rh_streamContexts r)
                     (rh_activeStreams r) in
          let '(secrets, cache, err) :=
            SetResourcesForNode FetchSecret (ss_secrets st) (ss_cache st) resources node in
          Some (mkSdsState r secrets cache, err)
      end
  end.

End sds.

(** ** Identities *)

Lemma SplitN_cons sep n c s :
  strings_SplitN sep (S (S n)) (String c s) =
  if decide (c = sep) then EmptyString :: strings_SplitN sep (S n) s
  else match strings_SplitN sep (S (S n)) s with
       | [] => [String c EmptyString]
       | t :: ts => String c t :: ts
       end.
Proof. reflexivity. Qed.

Lemma TrimPrefix_slash s : strings_TrimPrefix (String "/" s) "/" = s.
Proof.
  unfold strings_TrimPrefix. by rewrite strings_HasPrefix_cons, strings_HasPrefix_nil.
Qed.

Lemma SplitN_app n a b :
  strings_Split "/" a = [a] →
  strings_SplitN "/" (S (S n)) (a +:+ String "/" b) = a :: strings_SplitN "/" (S n) b.
Proof.
  induction a as [|c a IH]; [done|]. intros [Hc Ha]%token_cons.
  change (String c a +:+ String "/" b) with (String c (a +:+ String "/" b)).
  rewrite SplitN_cons, decide_False, IH by done. done.
Qed.

Lemma SplitN_single n a :
  strings_Split "/" a = [a] → strings_SplitN "/" (S n) a = [a].
Proof.
  destruct n as [|n]; [by destruct a|]. induction a as [|c a IH]; [done|].
  intros [Hc Ha]%token_cons. rewrite SplitN_cons, decide_False, IH by done. done.
Qed.

(** SPIFFE identities are read correctly.  The path Consul issues to a
    service, in the default partition or in a named one, parses to the
    namespace and service it was issued for, the namespace "default" being
    the empty one. *)
Theorem parse_spiffe_identity (partition namespace datacenter service : string) :
  Forall (λ s, strings_Split "/" s = [s]) [partition; namespace; datacenter; service] →
  let id := mkGatewayID (if decide (namespace = "default") then "" else namespace) service in
  parseURI ("/ns/" +:+ namespace +:+ "/dc/" +:+ datacenter +:+ "/svc/" +:+ service) = Ok id ∧
  parseURI ("/ap/" +:+ partition +:+ "/ns/" +:+ namespace +:+ "/dc/" +:+ datacenter
            +:+ "/svc/" +:+ service) = Ok id.
Proof.
  intros Hall. rewrite !Forall_cons in Hall. destruct Hall as (Hp & Hn & Hd & Hs & _). simpl.
  assert (strings_Split "/" "ns" = ["ns"] ∧ strings_Split "/" "dc" = ["dc"] ∧
    strings_Split "/" "svc" = ["svc"] ∧ strings_Split "/" "ap" = ["ap"]) as (Kns & Kdc & Ksvc & Kap)
    by done.
  split; unfold parseURI.
  - replace (strings_TrimPrefix _ _) with ("ns" +:+ String "/" (namespace +:+ String "/"
      ("dc" +:+ String "/" (datacenter +:+ String "/" ("svc" +:+ String "/" service)))))
      by (symmetry; apply TrimPrefix_slash).
    rewrite !SplitN_app by done. rewrite SplitN_single by done. done.
  - replace (strings_TrimPrefix _ _) with ("ap" +:+ String "/" (partition +:+ String "/"
      ("ns" +:+ String "/" (namespace +:+ String "/"
      ("dc" +:+ String "/" (datacenter +:+ String "/" ("svc" +:+ String "/" service)))))))
      by (symmetry; apply TrimPrefix_slash).
    rewrite !SplitN_app by done. rewrite SplitN_single by done. done.
Qed.

Lemma parse_spiffe_identity_witness :
  parseURI "/ns/default/dc/dc1/svc/gateway" = Ok (mkGatewayID "" "gateway") ∧
  parseURI "/ap/part/ns/team/dc/dc1/svc/gateway" = Ok (mkGatewayID "team" "gateway").
Proof.
  split.
  - apply (parse_spiffe_identity "part" "default" "dc1" "gateway"). repeat constructor.
  - apply (parse_spiffe_identity "part" "team" "dc1" "gateway"). repeat constructor.
Defined.

(** ** Authorization *)

Section authorization.
Context {MR : MapRange} {C : Type} `{LC : LawfulCache C}.
Context (GetGateway : GatewayID → result (option K8sGateway)) (FetchSecret : fetcher).

Definition k8s_CanFetchSecrets (g : K8sGateway) (secrets : list string) : result bool :=
  Ok (CanFetchSecrets g secrets).

(** Some listener of the gateway references the certificate. *)
Definition references_certificate (gateway : K8sGateway) (secret : string) : Prop :=
  ∃ l, l ∈ gst_Listeners (kg_GatewayState gateway) ∧ secret ∈ tls_Certificates (lst_TLS l).

Lemma verifySPIFFE_Some (peer : list (list URI)) (id : GatewayID) :
  verifySPIFFE GetGateway peer = Some id →
  ∃ uri uris gateway, uris ∈ peer ∧ uri ∈ uris ∧ uri_Scheme uri = "spiffe" ∧
    parseURI (uri_Path uri) = Ok id ∧ GetGateway id = Ok (Some gateway).
Proof.
  intros (uri & Huri & Hver)%head_Some_elem_of%list_elem_of_omap.
  apply list_elem_of_In, in_concat in Huri as (uris & Huris & Huri).
  apply list_elem_of_In in Huris. apply list_elem_of_In in Huri.
  unfold verify_uri in Hver. destruct (decide (uri_Scheme uri = "spiffe")) as [Hsch|]; [|done].
  destruct (parseURI (uri_Path uri)) as [info|] eqn:Hp; [|done].
  destruct (GetGateway info) as [[gateway|]|] eqn:Hg; [|done|done]. injection Hver as <-.
  by exists uri, uris, gateway.
Qed.

Lemma CanFetchSecrets_references (gateway : K8sGateway) (resources : list string) secret :
  CanFetchSecrets gateway resources = true → secret ∈ resources →
  references_certificate gateway secret.
Proof.
  intros Hcan Hin%list_elem_of_In. unfold CanFetchSecrets in Hcan.
  apply forallb_forall with (x := secret) in Hcan; [|done].
  apply bool_decide_eq_true in Hcan. by apply elem_of_certificates.
Qed.

(** C5: Envoy only gets certificates of its own gateway.  A stream is admitted
    only for a gateway of the store named by a SPIFFE URI of the peer's
    certificate.  A request of the stream for a certificate that gateway does
    not reference is denied and changes nothing; a request that succeeds makes
    its node watch exactly the requested certificates, each of which a
    listener of that very gateway references, without touching any other
    node. *)
Theorem stream_gets_only_its_gateways_certificates (peer : list (list URI)) (id : GatewayID)
    (st st' : @sds_state C) (streamID : Z) (resources : list string) (node : string)
    (err : option error) :
  names_answers FetchSecret → coherent (ss_secrets st) (ss_cache st) →
  verifySPIFFE GetGateway peer = Some id →
  rh_streamContexts (ss_handler st) !! streamID = Some id →
  OnStreamRequest GetGateway k8s_CanFetchSecrets FetchSecret st streamID resources node
    = Some (st', err) →
  ∃ uri uris gateway,
    (uris ∈ peer ∧ uri ∈ uris ∧ uri_Scheme uri = "spiffe" ∧
     parseURI (uri_Path uri) = Ok id ∧ GetGateway id = Ok (Some gateway)) ∧
    ((∃ secret, secret ∈ resources ∧ ¬ references_certificate gateway secret) →
       err = Some PermissionDenied ∧ st' = st) ∧
    (err = None →
       (∀ secret, watches (ss_secrets st') node secret ↔ secret ∈ resources) ∧
       (∀ secret, watches (ss_secrets st') node secret → references_certificate gateway secret) ∧
       ∀ node' secret, node' ≠ node →
         watches (ss_secrets st') node' secret ↔ watches (ss_secrets st) node' secret).
Proof.
  intros HF Hcoh (uri & uris & gateway & Hadm)%verifySPIFFE_Some Hctx Hreq.
  exists uri, uris, gateway. split; [done|]. destruct Hadm as (_ & _ & _ & _ & Hg).
  unfold OnStreamRequest, stream_gateway in Hreq. rewrite Hctx in Hreq. simpl in Hreq.
  rewrite Hg in Hreq. destruct (CanFetchSecrets gateway resources) eqn:Hcan.
  - destruct (SetResourcesForNode _ _ _ _ _) as [[secrets cache] e] eqn:Hset.
    injection Hreq as <- <-. split.
    + intros (secret & Hin & Hno). destruct Hno. by apply (CanFetchSecrets_references _ resources).
    + intros ->. simpl. apply SetResourcesForNode_spec in Hset as (_ & Hn & Ho); [|done|done].
      split_and!; [done| |done]. intros secret Hw%Hn. by apply (CanFetchSecrets_references _ resources).
  - injection Hreq as <- <-. by split.
Qed.

End authorization.

(** ** Examples *)

Module SdsExamples.

Definition meta : ObjectMeta := mkObjectMeta "gateway" "default" "gateway" 1 "1" 0 ∅ ∅ [] [] None.
Definition gateway : Gateway :=
  mkGateway meta (mkGroupKind GroupName "Gateway") "class" [] [] (mkGatewayStatusObj [] [] []).

(** A gateway with one listener and its certificate. *)
Definition listener : ListenerState :=
  mkListenerState ∅ "HTTPS" "https"
    (mkTLSParams true "" "" [] ["k8s://default/cert"]) zeroListenerStatus.
Definition k8s : K8sGateway :=
  mkK8sGateway gateway (gst_set_Listeners [listener] (InitialGatewayState gateway))
    zeroGatewayClassConfig.
Definition lookup_gateway (id : GatewayID) : result (option K8sGateway) :=
  Ok (if decide (id = mkGatewayID "" "gateway") then Some k8s else None).

Definition peer : list (list URI) :=
  [[mkURI "https" "/"; mkURI "spiffe" "/ns/default/dc/dc1/svc/gateway"]].
Definition open : @sds_state (gset string) :=
  mkSdsState (OnStreamOpen (mkRequestHandler ∅ ∅ 0) (mkGatewayID "" "gateway") 1)
    NewSecretManager ∅.
Definition request (resources : list string) : option (sds_state * option error) :=
  @OnStreamRequest canonical_range _ _ SecretExamples.set_cache lookup_gateway k8s_CanFetchSecrets
    SecretExamples.serving open 1 resources "node".

End SdsExamples.

Lemma stream_gets_only_its_gateways_certificates_witness :
  (∃ st', SdsExamples.request ["k8s://default/cert"] = Some (st', None) ∧
     ∀ secret, watches (ss_secrets st') "node" secret ↔ secret ∈ ["k8s://default/cert"]) ∧
  SdsExamples.request ["k8s://default/other"] = Some (SdsExamples.open, Some PermissionDenied).
Proof.
  assert (@coherent _ _ SecretExamples.set_cache_lawful (ss_secrets SdsExamples.open)
    (ss_cache SdsExamples.open)) as Hcoh.
  { split; [|reflexivity]. split; [|done]. intros node name. unfold watches, holds. simpl.
    by rewrite !lookup_empty. }
  split; [|vm_compute; reflexivity].
  destruct (SdsExamples.request ["k8s://default/cert"]) as [[st' err]|] eqn:Hreq;
    [|vm_compute in Hreq; discriminate].
  assert (err = None) as He.
  { transitivity (SdsExamples.request ["k8s://default/cert"] ≫= snd);
      [by rewrite Hreq|vm_compute; reflexivity]. }
  exists st'. split; [by rewrite He|].
  destruct (@stream_gets_only_its_gateways_certificates canonical_range _ _
    SecretExamples.set_cache_lawful SdsExamples.lookup_gateway SecretExamples.serving
    SdsExamples.peer (mkGatewayID "" "gateway") SdsExamples.open st' 1 ["k8s://default/cert"]
    "node" err) as (uri & uris & gw & _ & _ & Hok).
  - exact SecretExamples.serving_names.
  - exact Hcoh.
  - vm_compute. reflexivity.
  - reflexivity.
  - exact Hreq.
  - by apply Hok in He as [He _].
Defined.
