(* ===== verification/Intentions.v ===== *)
(** * The intentions reconciler ([internal/consul/intentions.go], [disco_chain_watcher.go])

    An API gateway may only reach a service that has an intention allowing it.
    For each service of the gateway's ingress a goroutine watches the compiled
    discovery chain and reports which targets appeared and disappeared; the
    reconciler counts the references to every target, remembers the targets
    that lost their last one (the tombstones), and writes the intentions with
    compare-and-swap and retries.

    The goroutines are a heap of watchers; the reconcile loop, the watchers,
    the calls of [SetIngressServices] and the other clients of Consul
    interleave as the steps of [intentions_step].  Consul's API is the class
    [IntentionEntries] over a world [W], with its documented behaviour as
    [LawfulIntentions]; [interlude] is what other clients do between the read
    and the write of an update. *)

From S2P Require Import Prelude Errors ConfigEntries.

(** ** Data *)

Record SourceIntention : Type := mkSourceIntention {
  src_Name : string;
  src_Namespace : string;
  src_Action : string;
  src_Description : string
}.

#[export] Instance SourceIntention_eq_dec : EqDecision SourceIntention.
Proof. solve_decision. Defined.

Record ServiceIntentionsConfigEntry : Type := mkServiceIntentions {
  sie_Name : string;
  sie_Namespace : string;
  sie_Sources : list SourceIntention
}.

Definition sie_set_Sources (sources : list SourceIntention) (e : ServiceIntentionsConfigEntry) :=
  mkServiceIntentions (sie_Name e) (sie_Namespace e) sources.

Definition IntentionDefaultNamespace : string := "default".
Definition IntentionActionAllow : string := "allow".
Definition updateIntentionsMaxRetries : nat := 3.

(** The discovery chain of a service, as far as it is read. *)
Record DiscoveryTarget : Type := mkDiscoveryTarget {
  dt_Service : string;
  dt_Namespace : string
}.
Record CompiledDiscoveryChain : Type := mkCompiledDiscoveryChain {
  chain_ServiceName : string;
  chain_Protocol : string;
  chain_Targets : gmap string DiscoveryTarget
}.

Record discoChainWatchResult : Type := mkWatchResult {
  res_name : CompoundServiceName;
  res_added : list CompoundServiceName;
  res_removed : list CompoundServiceName
}.

(** A watcher goroutine: [dw_sending] is the result it offers to the
    reconcile loop, with the names the result brings its reader to. *)
Record discoChainWatcher : Type := mkWatcher {
  dw_name : CompoundServiceName;
  dw_cancelled : bool;
  dw_prevResults : ServiceNameIndex;
  dw_index : Z;
  dw_sending : option (discoChainWatchResult * ServiceNameIndex)
}.

Abbreviation intentionTargetReferenceIndex := (gmap CompoundServiceName ServiceNameIndex).

(** [chainWatchers] holds pointers into the heap of goroutines [ir_heap];
    [ir_next] is its first fresh address. *)
Record IntentionsReconciler : Type := mkReconciler {
  ir_gatewayName : CompoundServiceName;
  ir_chainWatchers : gmap CompoundServiceName nat;
  ir_heap : gmap nat discoChainWatcher;
  ir_next : nat;
  ir_ingressServiceIndex : ServiceNameIndex;
  ir_targetIndex : intentionTargetReferenceIndex;
  ir_targetTombstones : ServiceNameIndex
}.

(** ** Interfaces *)

(** [consulConfigEntries], for entries of kind service-intentions. *)
Class IntentionEntries (W : Type) : Type := {
  intentions_Get : W → CompoundServiceName → result (ServiceIntentionsConfigEntry * Z);
  intentions_CAS : W → ServiceIntentionsConfigEntry → Z → W * result bool;
  intentions_Delete : W → CompoundServiceName → W * option error;
  interlude : W → W
}.

(** Run an operation until it succeeds, at most [maxRetries] times more. *)
Fixpoint retry_loop {W} (maxRetries : nat) (op : W → W * option error) (w : W) : W * option error :=
  match op w, maxRetries with
  | (w, None), _ => (w, None)
  | (w, Some e), O => (w, Some e)
  | (w, Some _), S n => retry_loop n op w
  end.

(** [backoff.Retry] with [backoff.WithMaxRetries] over a constant back-off. *)
Class RetryBackoff : Type := {
  backoff_Run : ∀ {W : Type}, nat → (W → W * option error) → W → W * option error;
  backoff_Run_spec : ∀ {W : Type} maxRetries (op : W → W * option error) w,
    backoff_Run maxRetries op w = retry_loop maxRetries op w
}.

(** ** Reference counting *)

Definition addRef (i : intentionTargetReferenceIndex) (target source : CompoundServiceName) :
    intentionTargetReferenceIndex :=
  <[target := ServiceNameIndex_Add (default NewServiceNameIndex (i !! target)) [source]]> i.

Section index.
Context {MR : MapRange}.

Definition delRef (i : intentionTargetReferenceIndex) (target source : CompoundServiceName) :
    intentionTargetReferenceIndex :=
  match i !! target with
  | Some refs =>
      let refs := ServiceNameIndex_Remove refs [source] in
      match ServiceNameIndex_All refs with
      | [] => delete target i
      | _ => <[target := refs]> i
      end
  | None => i
  end.

Definition listRefs (i : intentionTargetReferenceIndex) (target : CompoundServiceName) :
    list CompoundServiceName :=
  match i !! target with Some refs => ServiceNameIndex_All refs | None => [] end.

Definition all (i : intentionTargetReferenceIndex) : list CompoundServiceName := (range i).*1.

(** One target of the added, and one of the removed ones. *)
Definition handle_added (source : CompoundServiceName) (r : IntentionsReconciler)
    (target : CompoundServiceName) : IntentionsReconciler :=
  mkReconciler (ir_gatewayName r) (ir_chainWatchers r) (ir_heap r) (ir_next r)
    (ir_ingressServiceIndex r) (addRef (ir_targetIndex r) target source)
    (ServiceNameIndex_Remove (ir_targetTombstones r) [target]).

Definition handle_removed (source : CompoundServiceName) (r : IntentionsReconciler)
    (target : CompoundServiceName) : IntentionsReconciler :=
  let index := delRef (ir_targetIndex r) target source in
  mkReconciler (ir_gatewayName r) (ir_chainWatchers r) (ir_heap r) (ir_next r)
    (ir_ingressServiceIndex r) index
    (match listRefs index target with
     | [] => ServiceNameIndex_Add (ir_targetTombstones r) [target]
     | _ => ir_targetTombstones r
     end).

Definition handleChainResult (r : IntentionsReconciler) (result : discoChainWatchResult) :
    IntentionsReconciler :=
  let r := foldl (handle_added (res_name result)) r (res_added result) in
  foldl (handle_removed (res_name result)) r (res_removed result).

(** ** Watching discovery chains *)

Definition compiledDiscoChainToServiceNames (chain : CompiledDiscoveryChain) : ServiceNameIndex :=
  foldl (λ names target,
      if bool_decide (dt_Service target = chain_ServiceName chain) &&
         negb (bool_decide (chain_Protocol chain = "tcp"))
      then names
      else ServiceNameIndex_Add names
             [mkCompoundServiceName (dt_Service target) (dt_Namespace target) ""])
    NewServiceNameIndex (range (chain_Targets chain)).*2.

Definition newDiscoChainWatcher (service : CompoundServiceName) : discoChainWatcher :=
  mkWatcher service false NewServiceNameIndex 0 None.

Definition Cancel (w : discoChainWatcher) : discoChainWatcher :=
  mkWatcher (dw_name w) true (dw_prevResults w) (dw_index w) (dw_sending w).

(** An iteration of [watchLoop], up to the offer of its result: a failed
    query is repeated. *)
Definition watch_poll (w : discoChainWatcher) (response : result (CompiledDiscoveryChain * Z)) :
    discoChainWatcher :=
  match response with
  | Err _ => w
  | Ok (chain, lastIndex) =>
      let names := compiledDiscoChainToServiceNames chain in
      let '(added, removed) := ServiceNameIndex_Diff (dw_prevResults w) names in
      mkWatcher (dw_name w) (dw_cancelled w) (dw_prevResults w)
        (if (lastIndex <? dw_index w)%Z then 0 else lastIndex)%Z
        (Some (mkWatchResult (dw_name w) added removed, names))
  end.

(** The result was received. *)
Definition watch_sent (w : discoChainWatcher) (names : ServiceNameIndex) : discoChainWatcher :=
  mkWatcher (dw_name w) (dw_cancelled w) names (dw_index w) None.

Definition ingressToServiceIndex (igw : IngressGatewayConfigEntry) : ServiceNameIndex :=
  foldl (λ idx lis,
      foldl (λ idx service,
        ServiceNameIndex_Add idx
          [mkCompoundServiceName (isvc_Name service) (isvc_Namespace service) ""])
        idx (il_Services lis))
    NewServiceNameIndex (ingress_Listeners igw).

Definition set_watchers (r : IntentionsReconciler) watchers heap next : IntentionsReconciler :=
  mkReconciler (ir_gatewayName r) watchers heap next (ir_ingressServiceIndex r)
    (ir_targetIndex r) (ir_targetTombstones r).

Definition stop_watcher (r : IntentionsReconciler) (service : CompoundServiceName) :
    IntentionsReconciler :=
  match ir_chainWatchers r !! service with
  | Some id => set_watchers r (delete service (ir_chainWatchers r)) (alter Cancel id (ir_heap r))
                 (ir_next r)
  | None => r
  end.

Definition start_watcher (r : IntentionsReconciler) (service : CompoundServiceName) :
    IntentionsReconciler :=
  match ir_chainWatchers r !! service with
  | Some _ => r
  | None => set_watchers r (<[service := ir_next r]> (ir_chainWatchers r))
              (<[ir_next r := newDiscoChainWatcher service]> (ir_heap r)) (S (ir_next r))
  end.

Definition updateChainWatchers (r : IntentionsReconciler) (igw : IngressGatewayConfigEntry) :
    IntentionsReconciler :=
  let newIdx := ingressToServiceIndex igw in
  let '(added, removed) := ServiceNameIndex_Diff (ir_ingressServiceIndex r) newIdx in
  let r := foldl stop_watcher r removed in
  let r := foldl start_watcher r added in
  mkReconciler (ir_gatewayName r) (ir_chainWatchers r) (ir_heap r) (ir_next r) newIdx
    (ir_targetIndex r) (ir_targetTombstones r).

End index.

Definition newIntentionsReconciler (name : CompoundServiceName) : IntentionsReconciler :=
  mkReconciler name ∅ ∅ 0 NewServiceNameIndex ∅ NewServiceNameIndex.

(** ** Writing intentions *)

Definition canonicalizeDefault (s : string) : string :=
  if decide (s = "") then IntentionDefaultNamespace else s.

Definition sourceIntentionMatches (a b : SourceIntention) : bool :=
  bool_decide (src_Name a = src_Name b) &&
  bool_decide (canonicalizeDefault (src_Namespace a) = canonicalizeDefault (src_Namespace b)).

(** [now] is the formatted time. *)
Definition sourceIntention (r : IntentionsReconciler) (now : string) : SourceIntention :=
  mkSourceIntention (csn_Name (ir_gatewayName r)) (csn_Namespace (ir_gatewayName r))
    IntentionActionAllow
    ("Allow traffic from Consul API Gateway. Reconciled by controller at " +:+ now +:+ ".").

Definition addSourceCB (source : SourceIntention) (intention : ServiceIntentionsConfigEntry) :
    ServiceIntentionsConfigEntry * bool :=
  if existsb (λ src, sourceIntentionMatches src source) (sie_Sources intention)
  then (intention, false)
  else (sie_set_Sources (sie_Sources intention ++ [source]) intention, true).

(** Remove the first matching source. *)
Fixpoint delete_source (source : SourceIntention) (sources : list SourceIntention) :
    option (list SourceIntention) :=
  match sources with
  | [] => None
  | src :: rest =>
      if sourceIntentionMatches src source then Some rest
      else (src ::.) <$> delete_source source rest
  end.

Definition delSourceCB (source : SourceIntention) (intention : ServiceIntentionsConfigEntry) :
    ServiceIntentionsConfigEntry * bool :=
  match delete_source source (sie_Sources intention) with
  | Some sources => (sie_set_Sources sources intention, true)
  | None => (intention, false)
  end.

Section writing.
Context {MR : MapRange} {MF : MultierrorFormat} {BO : RetryBackoff} {W : Type}.
Context {IE : IntentionEntries W}.

Definition getOrInitIntention (w : W) (name : CompoundServiceName) :
    result (ServiceIntentionsConfigEntry * Z) :=
  match intentions_Get w name with
  | Ok found => Ok found
  | Err err =>
      if strings_Contains (Error err) "Unexpected response code: 404"
      then Ok (mkServiceIntentions (csn_Name name) (csn_Namespace name) [], 0%Z)
      else Err err
  end.

(** The operation that is retried. *)
Definition update_attempt (name : CompoundServiceName)
    (updateFn : ServiceIntentionsConfigEntry → ServiceIntentionsConfigEntry * bool) (w : W) :
    W * option error :=
  match getOrInitIntention w name with
  | Err err => (w, Some err)
  | Ok (intention, idx) =>
      let '(intention, updated) := updateFn intention in
      if negb updated then (w, None)
      else
        let w := interlude w in
        match sie_Sources intention with
        | [] => intentions_Delete w
                  (mkCompoundServiceName (sie_Name intention) (sie_Namespace intention) "")
        | _ =>
            match intentions_CAS w intention idx with
            | (w, Err err) => (w, Some err)
            | (w, Ok false) => (w, Some (ErrString "CAS operation failed"))
            | (w, Ok true) => (w, None)
            end
        end
  end.

Definition updateIntentionSources (name : CompoundServiceName)
    (updateFn : ServiceIntentionsConfigEntry → ServiceIntentionsConfigEntry * bool) (w : W) :
    W * option error :=
  let name :=
    if decide (csn_Namespace name = IntentionDefaultNamespace)
    then mkCompoundServiceName (csn_Name name) "" (csn_Partition name) else name in
  backoff_Run updateIntentionsMaxRetries (update_attempt name updateFn) w.

Definition sync_message (what : string) (target : CompoundServiceName) : string :=
  "failed to update intention with " +:+ what +:+ " gateway source (" +:+ csn_Namespace target
  +:+ "/" +:+ csn_Name target +:+ "): ".

Fixpoint sync_targets (source : SourceIntention) (w : W) (targets : list CompoundServiceName) :
    W * list error :=
  match targets with
  | [] => (w, [])
  | target :: targets =>
      let '(w, err) := updateIntentionSources target (addSourceCB source) w in
      let '(w, errs) := sync_targets source w targets in
      (w, match err with
          | Some e => ErrWrap (sync_message "added" target) e :: errs
          | None => errs
          end)
  end.

Fixpoint sync_tombstones (source : SourceIntention) (w : W) (tombstones : ServiceNameIndex)
    (targets : list CompoundServiceName) : W * ServiceNameIndex * list error :=
  match targets with
  | [] => (w, tombstones, [])
  | target :: targets =>
      match updateIntentionSources target (delSourceCB source) w with
      | (w, Some e) =>
          let '(w, tombstones, errs) := sync_tombstones source w tombstones targets in
          (w, tombstones, ErrWrap (sync_message "removed" target) e :: errs)
      | (w, None) =>
          sync_tombstones source w (ServiceNameIndex_Remove tombstones [target]) targets
      end
  end.

Definition set_tombstones (r : IntentionsReconciler) tombstones : IntentionsReconciler :=
  mkReconciler (ir_gatewayName r) (ir_chainWatchers r) (ir_heap r) (ir_next r)
    (ir_ingressServiceIndex r) (ir_targetIndex r) tombstones.

Definition syncIntentions (now : string) (r : IntentionsReconciler) (w : W) :
    IntentionsReconciler * W * option error :=
  let source := sourceIntention r now in
  let '(w, errs1) := sync_targets source w (all (ir_targetIndex r)) in
  let '(w, tombstones, errs2) :=
    sync_tombstones source w (ir_targetTombstones r) (ServiceNameIndex_All (ir_targetTombstones r)) in
  (set_tombstones r tombstones, w,
   match errs1 ++ errs2 with [] => None | errs => Some (ErrMulti errs) end).

(** ** Interleavings *)

(** The steps of the process and of Consul's other clients.  [ingresses]
    restricts the calls of [SetIngressServices], [others] the other clients. *)
Inductive intentions_step (ingresses : IntentionsReconciler → IngressGatewayConfigEntry → Prop)
    (others : W → W → Prop) : IntentionsReconciler * W → IntentionsReconciler * W → Prop :=
  | StepIngress r w igw :
      ingresses r igw →
      intentions_step ingresses others (r, w) (updateChainWatchers r igw, w)
  | StepPoll r w id watcher response :
      ir_heap r !! id = Some watcher → dw_sending watcher = None →
      intentions_step ingresses others (r, w)
        (set_watchers r (ir_chainWatchers r) (<[id := watch_poll watcher response]> (ir_heap r))
           (ir_next r), w)
  | StepDeliver r w id watcher result names now r' w' err :
      ir_heap r !! id = Some watcher → dw_sending watcher = Some (result, names) →
      syncIntentions now (handleChainResult
        (set_watchers r (ir_chainWatchers r) (<[id := watch_sent watcher names]> (ir_heap r))
           (ir_next r)) result) w = (r', w', err) →
      intentions_step ingresses others (r, w) (r', w')
  | StepExit r w id watcher :
      ir_heap r !! id = Some watcher → dw_cancelled watcher = true →
      intentions_step ingresses others (r, w)
        (set_watchers r (ir_chainWatchers r) (delete id (ir_heap r)) (ir_next r), w)
  | StepSync r w now r' w' err :
      syncIntentions now r w = (r', w', err) →
      intentions_step ingresses others (r, w) (r', w')
  | StepOthers r w w' :
      others w w' → intentions_step ingresses others (r, w) (r, w').

End writing.

(** One name added to, or removed from, an index. *)
Lemma is_Some_Remove (idx : ServiceNameIndex) t u :
  is_Some (ServiceNameIndex_Remove idx [t] !! u) ↔ u ≠ t ∧ is_Some (idx !! u).
Proof.
  rewrite lookup_names_Remove. case_decide as Hu; rewrite list_elem_of_singleton in Hu;
    split; naive_solver.
Qed.

Lemma is_Some_Add (idx : ServiceNameIndex) t u :
  is_Some (ServiceNameIndex_Add idx [t] !! u) ↔ u = t ∨ is_Some (idx !! u).
Proof.
  rewrite lookup_names_Add. case_decide as Hu; rewrite list_elem_of_singleton in Hu;
    split; naive_solver.
Qed.

(** ** Consul's contract *)

(** Consul reads the empty namespace as the default one. *)
Definition key (name : CompoundServiceName) : CompoundServiceName :=
  mkCompoundServiceName (csn_Name name)
    (if decide (csn_Namespace name = IntentionDefaultNamespace) then "" else csn_Namespace name) "".
Definition entry_key (e : ServiceIntentionsConfigEntry) : CompoundServiceName :=
  key (mkCompoundServiceName (sie_Name e) (sie_Namespace e) "").

(** [view] is the stored intentions, [modify_index] the index of the last
    change of an entry (zero when there is none).  A write that reports an
    error may have been applied. *)
Class LawfulIntentions (W : Type) `{IntentionEntries W, MultierrorFormat} : Type := {
  view : W → gmap CompoundServiceName (list SourceIntention);
  modify_index : W → CompoundServiceName → Z;
  Get_found : ∀ w name e idx, intentions_Get w name = Ok (e, idx) →
    entry_key e = key name ∧ view w !! key name = Some (sie_Sources e) ∧
    modify_index w (key name) = idx;
  Get_missing : ∀ w name err, intentions_Get w name = Err err →
    strings_Contains (Error err) "Unexpected response code: 404" = true →
    view w !! key name = None ∧ modify_index w (key name) = 0%Z;
  CAS_effect : ∀ w e idx w' r, intentions_CAS w e idx = (w', r) →
    (view w' = view w ∧ r ≠ Ok true) ∨
    (modify_index w (entry_key e) = idx ∧
     view w' = <[entry_key e := sie_Sources e]> (view w) ∧ r ≠ Ok false);
  Delete_effect : ∀ w name w' err, intentions_Delete w name = (w', err) →
    (view w' = view w ∧ err ≠ None) ∨ view w' = delete (key name) (view w);
  interlude_index : ∀ w k, modify_index (interlude w) k = modify_index w k →
    view (interlude w) !! k = view w !! k
}.

Lemma key_canonical name :
  key (if decide (csn_Namespace name = IntentionDefaultNamespace)
       then mkCompoundServiceName (csn_Name name) "" (csn_Partition name) else name) = key name.
Proof. unfold key. by repeat case_decide. Qed.

(** A callback only rewrites the sources, and leaves them alone when it
    reports no change. *)
Definition callback (f : ServiceIntentionsConfigEntry → ServiceIntentionsConfigEntry * bool)
    (g : list SourceIntention → list SourceIntention * bool) : Prop :=
  (∀ e, f e = (sie_set_Sources (g (sie_Sources e)).1 e, (g (sie_Sources e)).2)) ∧
  (∀ S, (g S).2 = false → (g S).1 = S).

Definition add_sources (source : SourceIntention) (S : list SourceIntention) :
    list SourceIntention * bool :=
  if existsb (λ src, sourceIntentionMatches src source) S then (S, false)
  else (S ++ [source], true).
Definition del_sources (source : SourceIntention) (S : list SourceIntention) :
    list SourceIntention * bool :=
  match delete_source source S with Some S' => (S', true) | None => (S, false) end.

Lemma addSourceCB_callback source : callback (addSourceCB source) (add_sources source).
Proof.
  split; [intros []|intros S]; unfold addSourceCB, add_sources; simpl; by case_match.
Qed.

Lemma delSourceCB_callback source : callback (delSourceCB source) (del_sources source).
Proof.
  split; [intros []|intros S]; unfold delSourceCB, del_sources; simpl; by case_match.
Qed.

(** The sources of a list that stand for the gateway. *)
Definition matching (source : SourceIntention) (S : list SourceIntention) : list SourceIntention :=
  List.filter (λ src, sourceIntentionMatches src source) S.
Definition unmatching (source : SourceIntention) (S : list SourceIntention) :
    list SourceIntention :=
  List.filter (λ src, negb (sourceIntentionMatches src source)) S.

Lemma sourceIntentionMatches_refl a : sourceIntentionMatches a a = true.
Proof. unfold sourceIntentionMatches. by rewrite !bool_decide_true. Qed.

Lemma existsb_matching source S :
  existsb (λ src, sourceIntentionMatches src source) S = negb (bool_decide (matching source S = [])).
Proof.
  unfold matching. induction S as [|src S IH]; [done|]. simpl.
  destruct (sourceIntentionMatches src source); [done|]. by rewrite IH.
Qed.

Lemma unmatching_none source S : matching source S = [] → unmatching source S = S.
Proof.
  unfold matching, unmatching. induction S as [|src S IH]; [done|]. simpl.
  destruct (sourceIntentionMatches src source); [done|]. simpl. intros HS. by rewrite IH.
Qed.

Lemma delete_source_None source S : delete_source source S = None ↔ matching source S = [].
Proof.
  unfold matching. induction S as [|src S IH]; [done|]. simpl.
  destruct (sourceIntentionMatches src source); [done|].
  rewrite <- IH. by destruct (delete_source source S).
Qed.

Lemma delete_source_Some source S S' :
  delete_source source S = Some S' →
  matching source S' = tail (matching source S) ∧ unmatching source S' = unmatching source S.
Proof.
  unfold matching, unmatching. revert S'. induction S as [|src S IH]; [done|]. simpl. intros S'.
  destruct (sourceIntentionMatches src source) eqn:Hm; simpl; [by intros [= <-]|].
  destruct (delete_source source S) as [S''|]; [|done]. simpl. intros [= <-]. simpl. rewrite Hm.
  simpl. destruct (IH S'' eq_refl) as [-> ->]. done.
Qed.

Lemma matching_add source S :
  matching source (add_sources source S).1 =
  if decide (matching source S = []) then [source] else matching source S.
Proof.
  unfold add_sources. rewrite existsb_matching. case_decide as Hm.
  - rewrite bool_decide_true by done. simpl. unfold matching in *. rewrite List.filter_app, Hm. simpl.
    by rewrite sourceIntentionMatches_refl.
  - by rewrite bool_decide_false.
Qed.

Lemma matching_del source S :
  matching source (del_sources source S).1 = tail (matching source S).
Proof.
  unfold del_sources. destruct (delete_source source S) as [S'|] eqn:Hd; simpl.
  - by apply delete_source_Some in Hd as [-> _].
  - apply delete_source_None in Hd. by rewrite Hd.
Qed.

(** With at most one source per gateway, deleting it filters it out. *)
Lemma del_sources_unique source S :
  length (matching source S) ≤ 1 → (del_sources source S).1 = unmatching source S.
Proof.
  intros Hlen. transitivity (unmatching source (del_sources source S).1).
  - symmetry. apply unmatching_none. rewrite matching_del. by apply tail_short.
  - unfold del_sources. destruct (delete_source source S) as [S'|] eqn:Hd; [|done].
    cbn [fst]. by apply delete_source_Some in Hd as [_ ->].
Qed.

Lemma add_sources_idemp source S :
  (add_sources source (add_sources source S).1).1 = (add_sources source S).1.
Proof.
  unfold add_sources at 1. rewrite existsb_matching, matching_add, bool_decide_false; [done|].
  by case_decide.
Qed.

Lemma del_sources_idemp source S :
  length (matching source S) ≤ 1 →
  (del_sources source (del_sources source S).1).1 = (del_sources source S).1.
Proof.
  intros Hlen. unfold del_sources at 1.
  replace (delete_source source (del_sources source S).1) with (@None (list SourceIntention));
    [done|].
  symmetry. apply delete_source_None. rewrite matching_del.
  by apply tail_short.
Qed.

(** ** Updates *)

Section updates.
Context {MR : MapRange} {MF : MultierrorFormat} {BO : RetryBackoff} {W : Type}.
Context {IE : IntentionEntries W} {LI : LawfulIntentions W}.

Definition sources (w : W) (k : CompoundServiceName) : list SourceIntention :=
  default [] (view w !! k).

Lemma getOrInitIntention_Ok w name e idx :
  getOrInitIntention w name = Ok (e, idx) →
  entry_key e = key name ∧ sie_Sources e = sources w (key name) ∧
  modify_index w (key name) = idx.
Proof.
  unfold getOrInitIntention, sources. destruct (intentions_Get w name) as [[e' idx']|err] eqn:Hg.
  - intros [= <- <-]. apply Get_found in Hg as (Hk & Hv & Hi). by rewrite Hv.
  - destruct (strings_Contains _ _) eqn:Hc; [|done]. intros [= <- <-].
    apply Get_missing in Hg as [Hv Hi]; [|done]. by rewrite Hv.
Qed.

(** One attempt: it changes nothing, or, after what other clients did since
    the read, it changes at most the one entry, to the callback's result; a
    committed compare-and-swap saw the sources the callback was given. *)
Lemma update_attempt_spec name f g w w' err :
  callback f g → update_attempt name f w = (w', err) →
  let S := sources w (key name) in
  (w' = w ∧ (err = None → (g S).2 = false)) ∨
  ((g S).2 = true ∧
   (∀ k, k ≠ key name → sources w' k = sources (interlude w) k) ∧
   ((sources w' (key name) = sources (interlude w) (key name) ∧ err ≠ None) ∨
    (sources w' (key name) = (g S).1 ∧
     ((g S).1 ≠ [] → sources (interlude w) (key name) = S)))).
Proof.
  intros [Hf Hg] Hatt S. unfold update_attempt in Hatt.
  destruct (getOrInitIntention w name) as [[e idx]|e] eqn:Hget.
  2:{ left. injection Hatt as <- <-. done. }
  apply getOrInitIntention_Ok in Hget as (Hk & HS & Hidx). rewrite Hf, HS in Hatt. fold S in Hatt.
  destruct (g S) as [S' [|]] eqn:HgS; cbn [negb fst snd] in Hatt |- *.
  2:{ left. injection Hatt as <- <-. done. }
  right. split; [done|]. cbn [sie_Sources sie_set_Sources] in Hatt.
  assert (entry_key (sie_set_Sources S' e) = key name) as Hk' by exact Hk.
  destruct S' as [|s S'].
  - apply Delete_effect in Hatt as [[Hv Herr]|Hv]; unfold sources at 1 3 5; rewrite Hv.
    + split; [done|]. left. done.
    + fold (entry_key (sie_set_Sources [] e)). rewrite Hk'. split.
      * intros k Hne. by rewrite lookup_delete_ne.
      * right. by rewrite lookup_delete_eq.
  - destruct (intentions_CAS _ _ _) as [w2 r] eqn:Hcas.
    apply CAS_effect in Hcas as [[Hv Hr]|(Hi & Hv & Hr)].
    + assert (w' = w2 ∧ err ≠ None) as [-> Herr] by (destruct r as [[|]|]; by injection Hatt as <- <-).
      unfold sources. rewrite Hv. split; [done|]. by left.
    + assert (w' = w2) as -> by (destruct r as [[|]|]; by injection Hatt as <- <-).
      rewrite Hk' in Hi, Hv. unfold sources at 1 3 4 5. rewrite Hv, lookup_insert_eq. split.
      * intros k Hne. by rewrite lookup_insert_ne.
      * right. split; [done|]. intros _. unfold S, sources.
        rewrite interlude_index; [done|]. by rewrite Hi.
Qed.

(** A relation that one attempt establishes and that composes holds of the
    retried update. *)
Lemma retry_loop_ind (R : W → W → option error → Prop) op n w w' err :
  (∀ w w' err, op w = (w', err) → R w w' err) →
  (∀ w1 w2 w3 e err, R w1 w2 (Some e) → R w2 w3 err → R w1 w3 err) →
  retry_loop n op w = (w', err) → R w w' err.
Proof.
  intros Hop Htrans. revert w. induction n as [|n IH]; intros w; simpl;
    destruct (op w) as [w1 [e|]] eqn:Hw; try (intros [= <- <-]; by apply Hop).
  intros Hr. eapply Htrans; [by apply Hop|by apply IH].
Qed.

Lemma updateIntentionSources_ind (R : W → W → option error → Prop) name f w w' err :
  (∀ name' w w' err, key name' = key name → update_attempt name' f w = (w', err) → R w w' err) →
  (∀ w1 w2 w3 e err, R w1 w2 (Some e) → R w2 w3 err → R w1 w3 err) →
  updateIntentionSources name f w = (w', err) → R w w' err.
Proof.
  intros Hop Htrans. unfold updateIntentionSources. rewrite backoff_Run_spec.
  apply retry_loop_ind; [|done]. intros w1 w2 e. apply Hop, key_canonical.
Qed.

(** *** Without other writers *)

Definition quiet : Prop := ∀ w k, sources (interlude w) k = sources w k.

Lemma update_quiet name f g w w' err :
  quiet → callback f g →
  (g (g (sources w (key name))).1).1 = (g (sources w (key name))).1 →
  updateIntentionSources name f w = (w', err) →
  (∀ k, k ≠ key name → sources w' k = sources w k) ∧
  (sources w' (key name) = sources w (key name) ∨
   sources w' (key name) = (g (sources w (key name))).1) ∧
  (err = None → sources w' (key name) = (g (sources w (key name))).1).
Proof.
  intros HQ Hcb Hidem Hup. revert Hidem.
  apply (updateIntentionSources_ind (λ w w' err,
    (g (g (sources w (key name))).1).1 = (g (sources w (key name))).1 →
    (∀ k, k ≠ key name → sources w' k = sources w k) ∧
    (sources w' (key name) = sources w (key name) ∨
     sources w' (key name) = (g (sources w (key name))).1) ∧
    (err = None → sources w' (key name) = (g (sources w (key name))).1)) name f); [| |done].
  - clear w w' err Hup. intros name' w w' err Hk Hatt _.
    apply (update_attempt_spec _ _ g) in Hatt; [|done]. rewrite Hk in Hatt.
    destruct Hatt as [[-> Herr]|(Hg & Ho & Hn)].
    + split_and!; [done|by left|]. intros Hnone. destruct Hcb as [_ Hcb]. rewrite Hcb; auto.
    + split; [intros k Hne; by rewrite Ho, HQ|].
      destruct Hn as [[-> Herr]|[-> _]]; [|by auto]. rewrite HQ. split; [by left|].
      by intros ->.
  - clear w w' err Hup. intros w1 w2 w3 e err H12 H23 Hidem. destruct (H12 Hidem) as (Ho & Hn & _).
    assert ((g (sources w2 (key name))).1 = (g (sources w1 (key name))).1) as Hg2
      by (by destruct Hn as [->| ->]).
    rewrite Hg2 in H23. destruct H23 as (Ho' & Hn' & He').
    { done. }
    split_and!.
    + intros k Hne. by rewrite Ho', Ho.
    + destruct Hn' as [->| ->]; [done|by right].
    + done.
Qed.

Lemma sync_targets_quiet source ts w w' errs :
  quiet → sync_targets source w ts = (w', errs) →
  ∀ k, (k ∉ key <$> ts → sources w' k = sources w k) ∧
       (sources w' k = sources w k ∨ sources w' k = (add_sources source (sources w k)).1) ∧
       (errs = [] → k ∈ key <$> ts → sources w' k = (add_sources source (sources w k)).1).
Proof.
  intros HQ. revert w errs. induction ts as [|t ts IH]; intros w errs; cbn [sync_targets].
  { intros [= <- <-] k. split_and!; [done|by left|]. by intros _ ?%not_elem_of_nil. }
  destruct (updateIntentionSources t _ w) as [w1 err] eqn:Hup.
  destruct (sync_targets source w1 ts) as [w2 errs2] eqn:Hrest. intros [= <- <-] k.
  apply (update_quiet _ _ (add_sources source)) in Hup as (Ho & Hn & He);
    [|done|apply addSourceCB_callback|apply add_sources_idemp].
  destruct (IH w1 errs2 Hrest k) as (Ho' & Hn' & He'). rewrite fmap_cons.
  assert (sources w1 k = sources w k ∨
    sources w1 k = (add_sources source (sources w k)).1) as H1.
  { destruct (decide (k = key t)) as [->|Hne]; [done|left; auto]. }
  assert ((add_sources source (sources w1 k)).1 = (add_sources source (sources w k)).1) as Hadd.
  { destruct H1 as [->| ->]; [done|apply add_sources_idemp]. }
  rewrite Hadd in Hn', He'. split_and!.
  - rewrite not_elem_of_cons. intros [Hne Hnin]. rewrite Ho', Ho; done.
  - destruct Hn' as [->| ->]; [done|by right].
  - destruct err as [e|]; [done|]. intros -> [->|Hin]%elem_of_cons; [|auto].
    destruct (decide (key t ∈ key <$> ts)) as [Hin|Hnin]; [by auto|]. rewrite Ho' by done. auto.
Qed.

Lemma matching_unmatching source S : matching source (unmatching source S) = [].
Proof.
  unfold matching, unmatching. induction S as [|src S IH]; [done|]. simpl.
  destruct (sourceIntentionMatches src source) eqn:Hm; simpl; [done|]. by rewrite Hm.
Qed.

Lemma unmatching_idemp source S :
  unmatching source (unmatching source S) = unmatching source S.
Proof. apply unmatching_none, matching_unmatching. Qed.

Lemma update_del_quiet source t w w' err :
  quiet → length (matching source (sources w (key t))) ≤ 1 →
  updateIntentionSources t (delSourceCB source) w = (w', err) →
  (∀ k, k ≠ key t → sources w' k = sources w k) ∧
  (sources w' (key t) = sources w (key t) ∨
   sources w' (key t) = unmatching source (sources w (key t))) ∧
  (err = None → sources w' (key t) = unmatching source (sources w (key t))).
Proof.
  intros HQ Hlen Hup.
  apply (update_quiet _ _ (del_sources source)) in Hup;
    [|done|apply delSourceCB_callback|by apply del_sources_idemp].
  by rewrite del_sources_unique in Hup.
Qed.

Lemma sync_tombstones_quiet source ts T w w' T' errs :
  quiet → (∀ k, length (matching source (sources w k)) ≤ 1) →
  sync_tombstones source w T ts = (w', T', errs) →
  (∀ k, (k ∉ key <$> ts → sources w' k = sources w k) ∧
     (sources w' k = sources w k ∨ sources w' k = unmatching source (sources w k)) ∧
     (errs = [] → k ∈ key <$> ts → sources w' k = unmatching source (sources w k))) ∧
  (∀ u, is_Some (T' !! u) → is_Some (T !! u)) ∧
  (∀ u, is_Some (T !! u) → T' !! u = None → matching source (sources w' (key u)) = []) ∧
  (errs = [] → ∀ u, u ∈ ts → T' !! u = None).
Proof.
  intros HQ. revert w T errs. induction ts as [|t ts IH]; intros w T errs Hlen; cbn [sync_tombstones].
  { intros [= <- <- <-]. split_and!; [|done|by intros u [? ->]|by intros _ ? ?%not_elem_of_nil].
    intros k. split_and!; [done|by left|]. by intros _ ?%not_elem_of_nil. }
  destruct (updateIntentionSources t _ w) as [w1 err] eqn:Hup.
  apply update_del_quiet in Hup as (Ho & Hn & He); [|done|apply Hlen].
  assert (∀ k, sources w1 k = sources w k ∨ sources w1 k = unmatching source (sources w k)) as H1.
  { intros k. destruct (decide (k = key t)) as [->|Hne]; [done|left; auto]. }
  assert (∀ k, unmatching source (sources w1 k) = unmatching source (sources w k)) as Hun.
  { intros k. destruct (H1 k) as [->| ->]; [done|apply unmatching_idemp]. }
  assert (∀ k, length (matching source (sources w1 k)) ≤ 1) as Hlen1.
  { intros k. destruct (H1 k) as [->| ->]; [done|]. rewrite matching_unmatching. simpl. lia. }
  assert (∀ T0 errs2, sync_tombstones source w1 T0 ts = (w', T', errs2) →
    ∀ k, (k ∉ key <$> t :: ts → sources w' k = sources w k) ∧
      (sources w' k = sources w k ∨ sources w' k = unmatching source (sources w k)) ∧
      (err = None → errs2 = [] → k ∈ key <$> t :: ts →
         sources w' k = unmatching source (sources w k))) as Hks.
  { intros T0 errs2 Hrest k. destruct (IH w1 T0 errs2 Hlen1 Hrest) as (Hk & _).
    destruct (Hk k) as (Ho' & Hn' & He'). rewrite Hun in Hn', He'. rewrite fmap_cons. split_and!.
    - rewrite not_elem_of_cons. intros [Hne Hnin]. rewrite Ho', Ho; done.
    - destruct Hn' as [->| ->]; [done|by right].
    - intros Herr Herrs [->|Hin]%elem_of_cons; [|auto].
      destruct (decide (key t ∈ key <$> ts)) as [Hin|Hnin]; [by auto|]. rewrite Ho' by done. auto. }
  destruct err as [e|].
  - destruct (sync_tombstones source w1 T ts) as [[w2 T2] errs2] eqn:Hrest. intros [= -> -> <-].
    destruct (IH w1 T errs2 Hlen1 Hrest) as (_ & HT & Hdrop & _).
    split_and!; [|done|done|done]. intros k. destruct (Hks T errs2 Hrest k) as (? & ? & _).
    by split_and!.
  - intros Hrest. destruct (IH w1 _ errs Hlen1 Hrest) as (Hk & HT & Hdrop & Hall).
    pose proof (is_Some_Remove T t) as Hrm.
    split_and!.
    + intros k. destruct (Hks _ errs Hrest k) as (? & ? & ?). split_and!; auto.
    + intros u Hu%HT. by apply Hrm in Hu as [_ Hu].
    + intros u Hu Hnone. destruct (decide (u = t)) as [->|Hne]; [|apply Hdrop; [by apply Hrm|done]].
      assert (matching source (sources w1 (key t)) = []) as Hz
        by (rewrite He by done; apply matching_unmatching).
      destruct (Hk (key t)) as (_ & [->| ->] & _); [done|apply matching_unmatching].
    + intros Herrs u [->|Hin]%elem_of_cons; [|auto]. apply eq_None_not_Some.
      intros Hu%HT%Hrm. by destruct Hu.
Qed.

(** Consul answers every request, and nobody else writes in between. *)
Definition answering : Prop :=
  (∀ w name, is_Ok (getOrInitIntention w name) = true) ∧
  (∀ w e idx, modify_index w (entry_key e) = idx → (intentions_CAS w e idx).2 = Ok true) ∧
  (∀ w name, (intentions_Delete w name).2 = None) ∧
  (∀ w k, modify_index (interlude w) k = modify_index w k).

Lemma update_answering name f g w :
  answering → callback f g → (updateIntentionSources name f w).2 = None.
Proof.
  intros (HG & HC & HD & HI) [Hf _]. unfold updateIntentionSources. rewrite backoff_Run_spec.
  set (name' := if decide _ then _ else _).
  assert ((update_attempt name' f w).2 = None) as Hatt.
  { unfold update_attempt. specialize (HG w name').
    destruct (getOrInitIntention w name') as [[e idx]|] eqn:Hget; [|done].
    apply getOrInitIntention_Ok in Hget as (Hk & _ & Hidx). rewrite Hf.
    destruct (g (sie_Sources e)) as [S' [|]]; [|done]. cbn [negb fst snd].
    destruct S' as [|s S']; [apply HD|]. cbn [sie_Sources sie_set_Sources].
    specialize (HC (interlude w) (sie_set_Sources (s :: S') e) idx).
    destruct (intentions_CAS _ _ _) as [w' r]. cbn [snd] in HC. rewrite HC; [done|].
    rewrite HI. change (entry_key (sie_set_Sources (s :: S') e)) with (entry_key e). by rewrite Hk. }
  simpl. destruct (update_attempt name' f w) as [w' err]. simpl in Hatt. by subst.
Qed.

Lemma sync_answering source ts w T :
  answering →
  (sync_targets source w ts).2 = [] ∧ (sync_tombstones source w T ts).2 = [].
Proof.
  intros HA. revert w T. induction ts as [|t ts IH]; intros w T; [done|].
  cbn [sync_targets sync_tombstones]. split.
  - pose proof (update_answering t _ _ w HA (addSourceCB_callback source)) as Hup.
    destruct (updateIntentionSources t _ w) as [w1 err]. cbn [snd] in Hup. subst err.
    destruct (IH w1 T) as [Hrest _]. by destruct (sync_targets source w1 ts).
  - pose proof (update_answering t _ _ w HA (delSourceCB_callback source)) as Hup.
    destruct (updateIntentionSources t _ w) as [w1 err]. cbn [snd] in Hup. subst err. apply IH.
Qed.

(** C30: a sync writes exactly the intentions the gateway needs.  When no other
    client writes during the sync, whatever fails, the intentions of targets
    either stay or gain the gateway's allow source (only when they had none),
    those of dropped targets either stay or lose exactly the gateway's source,
    all other intentions stay as they were, and a dropped target is only
    forgotten once its intention is clean.  A sync that reports no error did
    all of it, and when Consul answers every request no error is reported. *)
Theorem sync_intentions_exact (now : string) (r r' : IntentionsReconciler) (w w' : W)
    (err : option error) :
  let source := sourceIntention r now in
  let targets := key <$> all (ir_targetIndex r) in
  let dropped := key <$> ServiceNameIndex_All (ir_targetTombstones r) in
  quiet → (∀ k, length (matching source (sources w k)) ≤ 1) →
  (∀ k, k ∈ targets → k ∉ dropped) →
  syncIntentions now r w = (r', w', err) →
  (∀ k, k ∈ targets →
     sources w' k = sources w k ∨ (matching source (sources w k) = [] ∧
                                   sources w' k = sources w k ++ [source])) ∧
  (∀ k, k ∈ dropped →
     sources w' k = sources w k ∨ sources w' k = unmatching source (sources w k)) ∧
  (∀ k, k ∉ targets → k ∉ dropped → sources w' k = sources w k) ∧
  ir_targetIndex r' = ir_targetIndex r ∧
  (∀ u, is_Some (ir_targetTombstones r !! u) → ir_targetTombstones r' !! u = None →
     matching source (sources w' (key u)) = []) ∧
  (err = None →
     (∀ k, k ∈ targets → matching source (sources w' k) ≠ []) ∧
     (∀ k, k ∈ dropped → sources w' k = unmatching source (sources w k)) ∧
     ir_targetTombstones r' = ∅) ∧
  (answering → err = None).
Proof.
  intros source targets dropped HQ Hlen Hdisj Hsync. unfold syncIntentions in Hsync.
  fold source in Hsync.
  destruct (sync_targets _ _ _) as [w1 errs1] eqn:Hadd.
  destruct (sync_tombstones _ _ _ _) as [[w2 T'] errs2] eqn:Hdel.
  injection Hsync as <- <- Herr.
  pose proof (sync_targets_quiet _ _ _ _ _ HQ Hadd) as H1. fold targets in H1.
  assert (∀ k, length (matching source (sources w1 k)) ≤ 1) as Hlen1.
  { intros k. destruct (H1 k) as (_ & [->| ->] & _); [done|]. rewrite matching_add.
    case_decide; [simpl; lia|done]. }
  pose proof (f_equal snd Hdel) as Hdel2.
  apply sync_tombstones_quiet in Hdel as (H2 & HT & Hdrop & Hall); [|done|done].
  fold dropped in H2.
  assert (∀ k, k ∈ dropped → sources w1 k = sources w k) as Hold.
  { intros k Hk. apply H1. intros Hk'. by apply (Hdisj k). }
  assert (err = None → errs1 = [] ∧ errs2 = []) as Hnone.
  { intros ->. by apply app_eq_nil; destruct (errs1 ++ errs2). }
  split_and!.
  - intros k Hk. rewrite (proj1 (H2 k)) by auto.
    destruct (H1 k) as (_ & [->| ->] & _); [by left|].
    unfold add_sources. rewrite existsb_matching. case_bool_decide; simpl; auto.
  - intros k Hk. rewrite <- (Hold k Hk). apply H2.
  - intros k Hk Hk'. rewrite (proj1 (H2 k) Hk'). by apply H1.
  - done.
  - done.
  - intros [-> ->]%Hnone. split_and!.
    + intros k Hk. rewrite (proj1 (H2 k)) by auto. destruct (H1 k) as (_ & _ & ->); [|done|done].
      rewrite matching_add. by case_decide.
    + intros k Hk. rewrite <- (Hold k Hk). by apply H2.
    + apply map_eq. intros u. rewrite lookup_empty.
      destruct (ir_targetTombstones r !! u) as [[]|] eqn:Hu.
      * apply Hall; [done|]. apply elem_of_range_keys. by rewrite Hu.
      * apply eq_None_not_Some. intros Hs%HT. rewrite Hu in Hs. by destruct Hs.
  - intros HA. destruct (sync_answering source (all (ir_targetIndex r)) w ∅ HA) as [HA1 _].
    destruct (sync_answering source (ServiceNameIndex_All (ir_targetTombstones r)) w1
      (ir_targetTombstones r) HA) as [_ HA2].
    rewrite Hadd in HA1. rewrite Hdel2 in HA2. simpl in HA1, HA2. by subst.
Qed.

End updates.

(** ** The reference index *)

Definition references (i : intentionTargetReferenceIndex) (target source : CompoundServiceName) :
    Prop := ∃ refs, i !! target = Some refs ∧ is_Some (refs !! source).

(** Targets without references are not kept. *)
Definition index_wf (i : intentionTargetReferenceIndex) : Prop :=
  ∀ target refs, i !! target = Some refs → refs ≠ ∅.

Lemma foldl_preserve {A B C} (h : B → C) (f : B → A → B) xs b :
  (∀ b a, h (f b a) = h b) → h (foldl f b xs) = h b.
Proof. intros Hf. revert b. induction xs as [|x xs IH]; intros b; [done|]. simpl. by rewrite IH. Qed.

Section reference_index.
Context {MR : MapRange}.
Implicit Types (i : intentionTargetReferenceIndex) (t s : CompoundServiceName).

Lemma addRef_references i t0 s0 t s :
  references (addRef i t0 s0) t s ↔ (t = t0 ∧ s = s0) ∨ references i t s.
Proof.
  unfold references, addRef. destruct (decide (t = t0)) as [->|Ht].
  - rewrite lookup_insert_eq. split.
    + intros (refs & <-%(inj Some) & [Hs|Hs]%is_Some_Add); [by left|right].
      destruct (i !! t0) as [refs|]; [by exists refs|]. by destruct Hs.
    + intros H. eexists. split; [done|]. apply is_Some_Add.
      destruct H as [[_ ->]|(refs & -> & Hs)]; auto.
  - rewrite lookup_insert_ne by done. naive_solver.
Qed.

Lemma delRef_references i t0 s0 t s :
  references (delRef i t0 s0) t s ↔ references i t s ∧ ¬ (t = t0 ∧ s = s0).
Proof.
  unfold references, delRef. destruct (i !! t0) as [refs0|] eqn:Hi.
  2:{ split; [|naive_solver]. intros (refs & Ht & Hs). split; [by exists refs|]. intros [-> _].
      by rewrite Hi in Ht. }
  pose proof (is_Some_Remove refs0 s0) as Hrm.
  set (refs := ServiceNameIndex_Remove refs0 [s0]) in *.
  destruct (decide (t = t0)) as [->|Ht].
  - destruct (ServiceNameIndex_All refs) as [|u us] eqn:Hall.
    + assert (∀ u, ¬ is_Some (refs !! u)) as Hno.
      { intros u Hu%elem_of_range_keys. unfold ServiceNameIndex_All in Hall. rewrite Hall in Hu.
        by apply not_elem_of_nil in Hu. }
      rewrite lookup_delete_eq. split; [by intros (? & ? & _)|].
      intros [(refs' & Hr & Hs) Hne]. exfalso. rewrite Hi in Hr. injection Hr as <-.
      apply (Hno s), Hrm. naive_solver.
    + rewrite lookup_insert_eq. split.
      * intros (refs' & <-%(inj Some) & [Hne Hs]%Hrm). naive_solver.
      * intros [(refs' & Hr & Hs) Hne]. rewrite Hi in Hr. injection Hr as <-. exists refs.
        split; [done|]. apply Hrm. naive_solver.
  - destruct (ServiceNameIndex_All refs);
      [rewrite lookup_delete_ne by done|rewrite lookup_insert_ne by done]; naive_solver.
Qed.

Lemma addRef_wf i t s : index_wf i → index_wf (addRef i t s).
Proof.
  intros Hwf t' refs. unfold addRef. destruct (decide (t' = t)) as [->|Hne].
  - rewrite lookup_insert_eq. intros <-%(inj Some) Hempty.
    assert (is_Some ((∅ : ServiceNameIndex) !! s)) as Hs
      by (rewrite <- Hempty; apply is_Some_Add; by left).
    rewrite lookup_empty in Hs. by destruct Hs.
  - rewrite lookup_insert_ne by done. apply Hwf.
Qed.

Lemma delRef_wf i t s : index_wf i → index_wf (delRef i t s).
Proof.
  intros Hwf t' refs. unfold delRef. destruct (i !! t) as [refs0|]; [|apply Hwf].
  set (refs' := ServiceNameIndex_Remove refs0 [s]).
  destruct (ServiceNameIndex_All refs') as [|u us] eqn:Hall.
  - intros [_ Hl]%lookup_delete_Some. by apply (Hwf t').
  - intros [[_ <-]|[_ Hl]]%lookup_insert_Some; [|by apply (Hwf t')].
    intros Hempty. unfold ServiceNameIndex_All in Hall. by rewrite Hempty, range_empty in Hall.
Qed.

Lemma index_wf_lookup i t : index_wf i → is_Some (i !! t) ↔ ∃ s, references i t s.
Proof.
  intros Hwf. split.
  - intros [refs Hl]. destruct (map_choose refs (Hwf t refs Hl)) as (s & u & Hs).
    exists s, refs. by rewrite Hs.
  - intros (s & refs & -> & _). done.
Qed.

Lemma listRefs_nil i t : index_wf i → listRefs i t = [] ↔ i !! t = None.
Proof.
  intros Hwf. unfold listRefs. destruct (i !! t) as [refs|] eqn:Hl; [|done].
  split; [|done]. intros Hall. destruct (Hwf t refs Hl). apply map_eq. intros s.
  rewrite lookup_empty. apply eq_None_not_Some. intros Hs%elem_of_range_keys.
  unfold ServiceNameIndex_All in Hall. rewrite Hall in Hs. by apply not_elem_of_nil in Hs.
Qed.

End reference_index.

(** ** Every intention of the gateway is tracked *)

Section handling.
Context {MR : MapRange}.
Implicit Types (r : IntentionsReconciler) (t s : CompoundServiceName).

(** A current target, or one waiting for the removal of its intention. *)
Definition known r t : Prop :=
  is_Some (ir_targetIndex r !! t) ∨ is_Some (ir_targetTombstones r !! t).

Lemma handle_added_known r s t t' :
  known r t' → known (handle_added s r t) t'.
Proof.
  unfold known. cbn [handle_added ir_targetIndex ir_targetTombstones]. unfold addRef.
  destruct (decide (t' = t)) as [->|Hne]; [rewrite lookup_insert_eq; eauto|].
  rewrite lookup_insert_ne, is_Some_Remove by done. naive_solver.
Qed.

Lemma handle_removed_known r s t t' :
  index_wf (ir_targetIndex r) → known r t' → known (handle_removed s r t) t'.
Proof.
  intros Hwf Hk. pose proof (delRef_wf (ir_targetIndex r) t s Hwf) as Hwf'.
  unfold known. cbn [handle_removed ir_targetIndex ir_targetTombstones].
  destruct (decide (t' = t)) as [->|Hne].
  - destruct (listRefs (delRef (ir_targetIndex r) t s) t) as [|x xs] eqn:Hl.
    + right. apply is_Some_Add. by left.
    + left. apply not_eq_None_Some. intros Hn. by rewrite (proj2 (listRefs_nil _ t Hwf')) in Hl.
  - destruct Hk as [Hk|Hk].
    + left. apply index_wf_lookup in Hk as [s' Hs']; [|done]. apply index_wf_lookup; [done|].
      exists s'. apply delRef_references. naive_solver.
    + right. case_match; [|done]. apply is_Some_Add. by right.
Qed.

Lemma handleChainResult_spec r result :
  index_wf (ir_targetIndex r) →
  index_wf (ir_targetIndex (handleChainResult r result)) ∧
  (∀ t, known r t → known (handleChainResult r result) t) ∧
  (∀ t s, references (ir_targetIndex (handleChainResult r result)) t s ↔
     (references (ir_targetIndex r) t s ∨ (s = res_name result ∧ t ∈ res_added result)) ∧
     ¬ (s = res_name result ∧ t ∈ res_removed result)).
Proof.
  intros Hwf. unfold handleChainResult. set (n := res_name result).
  assert (∀ ts r, index_wf (ir_targetIndex r) →
    let r' := foldl (handle_added n) r ts in
    index_wf (ir_targetIndex r') ∧ (∀ t, known r t → known r' t) ∧
    (∀ t s, references (ir_targetIndex r') t s ↔
       references (ir_targetIndex r) t s ∨ (s = n ∧ t ∈ ts))) as Hadd.
  { clear. induction ts as [|t0 ts IH]; intros r Hwf; cbn [foldl].
    - split_and!; [done|done|]. intros t s. rewrite elem_of_nil. naive_solver.
    - destruct (IH (handle_added n r t0)) as (Hwf' & Hk & Hr); [by apply addRef_wf|].
      split_and!; [done|intros t Ht; by apply Hk, handle_added_known|].
      intros t s. rewrite Hr. cbn [handle_added ir_targetIndex]. rewrite addRef_references, elem_of_cons.
      naive_solver. }
  assert (∀ ts r, index_wf (ir_targetIndex r) →
    let r' := foldl (handle_removed n) r ts in
    index_wf (ir_targetIndex r') ∧ (∀ t, known r t → known r' t) ∧
    (∀ t s, references (ir_targetIndex r') t s ↔
       references (ir_targetIndex r) t s ∧ ¬ (s = n ∧ t ∈ ts))) as Hdel.
  { clear. induction ts as [|t0 ts IH]; intros r Hwf; cbn [foldl].
    - split_and!; [done|done|]. intros t s. rewrite elem_of_nil. naive_solver.
    - destruct (IH (handle_removed n r t0)) as (Hwf' & Hk & Hr); [by apply delRef_wf|].
      split_and!; [done|intros t Ht; by apply Hk, handle_removed_known|].
      intros t s. rewrite Hr. cbn [handle_removed ir_targetIndex].
      rewrite delRef_references, elem_of_cons. naive_solver. }
  destruct (Hadd (res_added result) r Hwf) as (Hwf1 & Hk1 & Hr1).
  destruct (Hdel (res_removed result) _ Hwf1) as (Hwf2 & Hk2 & Hr2).
  split_and!; [done|auto|]. intros t s. by rewrite Hr2, Hr1.
Qed.

End handling.

Section tracking.
Context {MR : MapRange} {MF : MultierrorFormat} {BO : RetryBackoff} {W : Type}.
Context {IE : IntentionEntries W} {LI : LawfulIntentions W}.
Context (gateway : CompoundServiceName).
Implicit Types (r : IntentionsReconciler) (w : W) (t : CompoundServiceName).

(** The sources of an intention that stand for the gateway; the time of a
    source does not matter. *)
Definition grants w k : list SourceIntention :=
  matching (sourceIntention (newIntentionsReconciler gateway) "") (sources w k).

Lemma matching_grants r now w k :
  ir_gatewayName r = gateway → matching (sourceIntention r now) (sources w k) = grants w k.
Proof. unfold grants, matching, sourceIntentionMatches. by intros <-. Qed.

(** Services whose intentions others write the gateway into. *)
Context (foreign : CompoundServiceName → Prop).

(** What other clients do to the gateway's sources: to the foreign services
    anything, elsewhere they may remove them but add none. *)
Definition adds_none w w' : Prop :=
  ∀ k, ¬ foreign k → grants w' k = grants w k ∨ grants w' k = [].

Lemma adds_none_trans w1 w2 w3 : adds_none w1 w2 → adds_none w2 w3 → adds_none w1 w3.
Proof. intros H12 H23 k Hk. destruct (H23 k Hk) as [->| ->]; [by apply H12|by right]. Qed.

Lemma adds_none_length w w' k :
  adds_none w w' → ¬ foreign k → length (grants w k) ≤ 1 → length (grants w' k) ≤ 1.
Proof. intros Hw Hk. destruct (Hw k Hk) as [->| ->]; simpl; lia. Qed.

Lemma update_add_grants r now t w w' err :
  ir_gatewayName r = gateway → (∀ w, adds_none w (interlude w)) →
  updateIntentionSources t (addSourceCB (sourceIntention r now)) w = (w', err) →
  ∀ k, ¬ foreign k →
    (k ≠ key t → grants w' k = grants w k ∨ grants w' k = []) ∧
    (length (grants w k) ≤ 1 → length (grants w' k) ≤ 1).
Proof.
  intros Hgw Hint. apply (updateIntentionSources_ind (λ w w' err, ∀ k, ¬ foreign k →
    (k ≠ key t → grants w' k = grants w k ∨ grants w' k = []) ∧
    (length (grants w k) ≤ 1 → length (grants w' k) ≤ 1))).
  - clear w w' err. intros name w w' err Hk Hatt k Hforeign.
    apply (update_attempt_spec _ _ _ _ _ _ (addSourceCB_callback _)) in Hatt. rewrite Hk in Hatt.
    destruct Hatt as [[-> _]|(_ & Ho & Hn)]; [by split; [left|]|].
    destruct (decide (k = key t)) as [->|Hne].
    + split; [done|]. intros Hlen. destruct Hn as [[Hn _]|[Hn _]].
      * rewrite <- (matching_grants r now), Hn, matching_grants by done.
        by eapply adds_none_length.
      * rewrite <- (matching_grants r now), Hn, matching_add, matching_grants by done.
        case_decide; [simpl; lia|done].
    + assert (grants w' k = grants (interlude w) k) as ->.
      { unfold grants. by rewrite Ho by done. }
      split; [intros _; by apply Hint|by apply adds_none_length].
  - clear. intros w1 w2 w3 e err H12 H23 k Hf.
    destruct (H12 k Hf) as [Ha Hb], (H23 k Hf) as [Ha' Hb'].
    split; [|auto]. intros Hne. destruct (Ha' Hne) as [->| ->]; auto.
Qed.

Lemma update_del_grants r now t w w' err :
  ir_gatewayName r = gateway → (∀ w, adds_none w (interlude w)) →
  updateIntentionSources t (delSourceCB (sourceIntention r now)) w = (w', err) →
  (∀ k, ¬ foreign k → length (grants w k) ≤ 1) →
  adds_none w w' ∧ (err = None → ¬ foreign (key t) → grants w' (key t) = []).
Proof.
  intros Hgw Hint. apply (updateIntentionSources_ind (λ w w' err,
    (∀ k, ¬ foreign k → length (grants w k) ≤ 1) →
    adds_none w w' ∧ (err = None → ¬ foreign (key t) → grants w' (key t) = []))).
  - clear w w' err. intros name w w' err Hk Hatt Hlen.
    apply (update_attempt_spec _ _ _ _ _ _ (delSourceCB_callback _)) in Hatt. rewrite Hk in Hatt.
    destruct Hatt as [[-> Herr]|(_ & Ho & Hn)].
    { split; [intros k _; by left|]. intros He%Herr _. rewrite <- (matching_grants r now) by done.
      unfold del_sources in He. destruct (delete_source _ _) eqn:Hd; [done|].
      by apply delete_source_None in Hd. }
    assert (∀ k, k ≠ key t → ¬ foreign k → grants w' k = grants w k ∨ grants w' k = []) as Hother.
    { intros k Hne Hf. assert (grants w' k = grants (interlude w) k) as ->;
        [unfold grants; by rewrite Ho by done|by apply Hint]. }
    destruct Hn as [[Hn Herr]|[Hn _]].
    + split; [|done]. intros k Hf. destruct (decide (k = key t)) as [->|Hne]; [|by auto].
      rewrite <- (matching_grants r now), Hn, matching_grants by done. by apply Hint.
    + assert (¬ foreign (key t) → grants w' (key t) = []) as Hz.
      { intros Hf. rewrite <- (matching_grants r now), Hn, matching_del, matching_grants by done.
        by apply tail_short, Hlen. }
      split; [|auto]. intros k Hf. destruct (decide (k = key t)) as [->|Hne]; auto.
  - clear. intros w1 w2 w3 e err H12 H23 Hlen. destruct (H12 Hlen) as [H2 _].
    destruct H23 as [H3 He].
    { intros k Hf. by apply (adds_none_length w1); auto. }
    split; [|done]. by eapply adds_none_trans.
Qed.

Lemma sync_targets_grants r now ts w w' errs :
  ir_gatewayName r = gateway → (∀ w, adds_none w (interlude w)) →
  sync_targets (sourceIntention r now) w ts = (w', errs) →
  ∀ k, ¬ foreign k →
    (k ∉ key <$> ts → grants w' k = grants w k ∨ grants w' k = []) ∧
    (length (grants w k) ≤ 1 → length (grants w' k) ≤ 1).
Proof.
  intros Hgw Hint. revert w errs. induction ts as [|t ts IH]; intros w errs; cbn [sync_targets].
  { intros [= <- <-] k _. by split; [left|]. }
  destruct (updateIntentionSources t _ w) as [w1 err] eqn:Hup.
  destruct (sync_targets _ w1 ts) as [w2 errs2] eqn:Hrest. intros [= <- <-] k Hf.
  destruct (update_add_grants _ _ _ _ _ _ Hgw Hint Hup k Hf) as [Ha Hb].
  destruct (IH _ _ Hrest k Hf) as [Ha' Hb']. split; [|auto].
  rewrite fmap_cons, not_elem_of_cons. intros [Hne Hnin].
  destruct (Ha' Hnin) as [->| ->]; auto.
Qed.

Lemma sync_tombstones_grants r now ts T w w' T' errs :
  ir_gatewayName r = gateway → (∀ w, adds_none w (interlude w)) →
  (∀ k, ¬ foreign k → length (grants w k) ≤ 1) →
  sync_tombstones (sourceIntention r now) w T ts = (w', T', errs) →
  adds_none w w' ∧
  (∀ u, ¬ foreign (key u) → is_Some (T !! u) → T' !! u = None → grants w' (key u) = []).
Proof.
  intros Hgw Hint. revert w T errs. induction ts as [|t ts IH]; intros w T errs Hlen;
    cbn [sync_tombstones].
  { intros [= <- <- <-]. split; [intros k _; by left|]. by intros u _ [? ->]. }
  destruct (updateIntentionSources t _ w) as [w1 err] eqn:Hup.
  destruct (update_del_grants _ _ _ _ _ _ Hgw Hint Hup Hlen) as [H1 He].
  assert (∀ k, ¬ foreign k → length (grants w1 k) ≤ 1) as Hlen1
    by (intros k Hf; by apply (adds_none_length w); auto).
  destruct err as [e|].
  - destruct (sync_tombstones _ w1 T ts) as [[w2 T2] errs2] eqn:Hrest. intros [= -> -> <-].
    destruct (IH _ _ _ Hlen1 Hrest) as [H2 HT]. split; [by eapply adds_none_trans|done].
  - intros Hrest. destruct (IH _ _ _ Hlen1 Hrest) as [H2 HT]. split; [by eapply adds_none_trans|].
    intros u Hf Hu Hnone. destruct (decide (u = t)) as [->|Hne].
    + destruct (H2 (key t) Hf) as [->| ->]; auto.
    + apply HT; [done| |done]. by apply is_Some_Remove.
Qed.

(** The reconciler knows every intention that has the gateway as a source,
    but those others made. *)
Definition tracked r w : Prop :=
  ir_gatewayName r = gateway ∧ index_wf (ir_targetIndex r) ∧
  ∀ k, ¬ foreign k →
    length (grants w k) ≤ 1 ∧ (grants w k ≠ [] → ∃ t, key t = k ∧ known r t).

Lemma syncIntentions_tracked now r w r' w' err :
  (∀ w, adds_none w (interlude w)) → tracked r w →
  syncIntentions now r w = (r', w', err) → tracked r' w'.
Proof.
  intros Hint (Hgw & Hwf & Hk) Hsync. unfold syncIntentions in Hsync.
  destruct (sync_targets _ _ _) as [w1 errs1] eqn:Hadd.
  destruct (sync_tombstones _ _ _ _) as [[w2 T'] errs2] eqn:Hdel. injection Hsync as <- <- _.
  pose proof (sync_targets_grants _ _ _ _ _ _ Hgw Hint Hadd) as H1.
  apply sync_tombstones_grants in Hdel as [H2 HT];
    [|done|done|intros k Hf; by apply H1, Hk].
  split_and!; [done|done|]. intros k Hf. split.
  { eapply adds_none_length; [exact H2|done|]. by apply H1, Hk. }
  intros Hne. unfold known. cbn [set_tombstones ir_targetIndex ir_targetTombstones].
  assert (grants w1 k ≠ []) as Hne1
    by (destruct (H2 k Hf) as [<-|Hz]; [done|by rewrite Hz in Hne]).
  destruct (decide (k ∈ key <$> all (ir_targetIndex r))) as [Hin|Hnin].
  - apply list_elem_of_fmap in Hin as (t & -> & Ht%elem_of_range_keys). eauto.
  - destruct (proj1 (H1 k Hf) Hnin) as [Heq|Heq]; [|done]. rewrite Heq in Hne1.
    apply (Hk k Hf) in Hne1 as (t & <- & [Ht|Ht]); [by eauto|].
    exists t. split; [done|]. destruct (T' !! t) eqn:HT'; [by right|]. by rewrite HT in Hne.
Qed.

Lemma intentions_step_tracked ingresses others a b :
  (∀ w, adds_none w (interlude w)) → (∀ w w', others w w' → adds_none w w') →
  intentions_step ingresses others a b → tracked a.1 a.2 → tracked b.1 b.2.
Proof.
  intros Hint Hoth Hstep Htr. pose proof Htr as (Hgw & Hwf & Hk).
  destruct Hstep as [r w igw _|r w id wt resp Hid Hs|r w id wt result names now r' w' err Hid Hs Hsync
    |r w id wt Hid Hc|r w now r' w' err Hsync|r w w' Ho]; simpl in *.
  - assert (∀ {C} (h : IntentionsReconciler → C),
      (∀ r ws hp n, h (set_watchers r ws hp n) = h r) → ∀ added removed,
      h (foldl start_watcher (foldl stop_watcher r removed) added) = h r) as Hpres.
    { intros C h Hh added removed. rewrite !foldl_preserve; [done|..];
        intros b s; unfold stop_watcher, start_watcher; case_match; try done; apply Hh. }
    unfold tracked, known, updateChainWatchers in *.
    destruct (ServiceNameIndex_Diff _ _) as [added removed].
    cbn [ir_gatewayName ir_targetIndex ir_targetTombstones].
    by rewrite !Hpres.
  - done.
  - eapply syncIntentions_tracked; [done| |exact Hsync].
    destruct (handleChainResult_spec (set_watchers r (ir_chainWatchers r)
      (<[id:=watch_sent wt names]> (ir_heap r)) (ir_next r)) result) as (Hwf' & Hkn & _); [done|].
    split_and!; [|done|].
    + unfold handleChainResult. by rewrite !foldl_preserve.
    + intros k Hf. split; [by apply Hk|]. intros (t & <- & Ht)%(Hk k Hf). exists t.
      split; [done|]. by apply Hkn.
  - done.
  - by eapply syncIntentions_tracked.
  - split_and!; [done|done|]. intros k Hf. destruct (Hk k Hf) as [Hlen Hkn].
    split; [by eapply adds_none_length; eauto|]. intros Hne. apply Hkn.
    destruct (Hoth _ _ Ho k Hf) as [<-|Hz]; [done|by rewrite Hz in Hne].
Qed.

(** C31: the reconciler forgets none of the intentions it makes.  Let a fresh
    reconciler run against any Consul, with its watchers, changes of the
    ingress gateway and other clients of Consul interleaved in any order,
    writes failing or not.  [foreign] are the services that already had an
    intention for the gateway when the reconciler started (after a restart of
    the controller, say) and those other clients make one for; other clients
    may remove the gateway's sources anywhere.  Every other service has at most
    one intention for the gateway at any time, and if it has one, it is a
    current target or waits for the intention's removal. *)
Theorem gateway_intentions_are_tracked (ingresses : IntentionsReconciler → IngressGatewayConfigEntry → Prop)
    (others : W → W → Prop) (w0 w : W) (r : IntentionsReconciler) :
  (∀ w, adds_none w (interlude w)) → (∀ w w', others w w' → adds_none w w') →
  (∀ k, grants w0 k ≠ [] → foreign k) →
  rtc (intentions_step ingresses others) (newIntentionsReconciler gateway, w0) (r, w) →
  ∀ k, ¬ foreign k →
    length (grants w k) ≤ 1 ∧
    (grants w k ≠ [] → ∃ t, key t = k ∧
       (t ∈ all (ir_targetIndex r) ∨ t ∈ ServiceNameIndex_All (ir_targetTombstones r))).
Proof.
  intros Hint Hoth Hinit Hrtc k Hf.
  assert (tracked r w) as (_ & _ & Hk).
  { refine (rtc_preserve _ (λ a, tracked a.1 a.2) _ _ _ Hrtc _).
    { intros a b. by apply intentions_step_tracked. }
    split_and!; [done|intros t refs; simpl; by rewrite lookup_empty|].
    intros k' Hf'. simpl. assert (grants w0 k' = []) as ->; [|split; [simpl; lia|done]].
    destruct (grants w0 k') eqn:Hg; [done|]. destruct Hf'. apply Hinit. by rewrite Hg. }
  split; [by apply Hk|]. intros (t & Ht & Hkn)%(Hk k Hf). exists t. split; [done|].
  by destruct Hkn as [Hkn|Hkn]; [left|right]; apply elem_of_range_keys.
Qed.

End tracking.

(** ** The targets are those of the watched chains *)

(** Every service of the ingress gateway stays in it. *)
Definition keeps_services (r : IntentionsReconciler) (igw : IngressGatewayConfigEntry) : Prop :=
  ∀ s, is_Some (ir_ingressServiceIndex r !! s) → is_Some (ingressToServiceIndex igw !! s).

Section exactness.
Context {MR : MapRange}.
Implicit Types (r : IntentionsReconciler) (t s : CompoundServiceName).

Definition watched r t s : Prop :=
  ∃ id wt, ir_heap r !! id = Some wt ∧ dw_name wt = s ∧ is_Some (dw_prevResults wt !! t).

(** The running watchers: one for each service of [chainWatchers], none
    cancelled, offering the difference to what they delivered. *)
Definition watchers_wf r : Prop :=
  (∀ id wt, ir_heap r !! id = Some wt →
     ir_chainWatchers r !! dw_name wt = Some id ∧ id < ir_next r ∧ dw_cancelled wt = false ∧
     ∀ result names, dw_sending wt = Some (result, names) →
       let d := ServiceNameIndex_Diff (dw_prevResults wt) names in
       result = mkWatchResult (dw_name wt) d.1 d.2) ∧
  (∀ s id, ir_chainWatchers r !! s = Some id →
     ∃ wt, ir_heap r !! id = Some wt ∧ dw_name wt = s).

Definition targets_exact r : Prop :=
  index_wf (ir_targetIndex r) ∧
  (∀ t s, references (ir_targetIndex r) t s ↔ watched r t s) ∧
  (∀ t, is_Some (ir_targetTombstones r !! t) → ir_targetIndex r !! t = None).

Definition reconciler_wf r : Prop :=
  watchers_wf r ∧ targets_exact r ∧
  (∀ s, is_Some (ir_chainWatchers r !! s) ↔ is_Some (ir_ingressServiceIndex r !! s)).

Lemma start_watcher_wf r s :
  watchers_wf r ∧ targets_exact r →
  (watchers_wf (start_watcher r s) ∧ targets_exact (start_watcher r s)) ∧
  (∀ s', is_Some (ir_chainWatchers (start_watcher r s) !! s') ↔
     s' = s ∨ is_Some (ir_chainWatchers r !! s')).
Proof.
  intros [[Hheap Hptr] (Hwf & Hrefs & Htomb)]. unfold start_watcher.
  destruct (ir_chainWatchers r !! s) as [id0|] eqn:Hs.
  { split; [done|]. intros s'. naive_solver. }
  assert (ir_heap r !! ir_next r = None) as Hfresh.
  { apply eq_None_not_Some. intros [wt Hwt]. apply Hheap in Hwt. lia. }
  split; [split; [split|split_and!]|]; cbn [set_watchers ir_heap ir_chainWatchers ir_next
    ir_targetIndex ir_targetTombstones]; try done.
  - intros id wt [[<- <-]|[Hne Hid]]%lookup_insert_Some.
    + cbn [newDiscoChainWatcher dw_name dw_cancelled dw_sending]. rewrite lookup_insert_eq.
      split_and!; [done|lia|done|done].
    + apply Hheap in Hid as (Hc & Hlt & Hcan & Hsend).
      rewrite lookup_insert_ne by (intros ->; by rewrite Hs in Hc). split_and!; [done|lia|done|done].
  - intros s' id [[<- <-]|[Hne Hid]]%lookup_insert_Some; [rewrite lookup_insert_eq; eauto|].
    apply Hptr in Hid as (wt & Hwt & Hn). exists wt. split; [|done].
    rewrite lookup_insert_ne; [done|]. intros Heq. by rewrite Heq, Hwt in Hfresh.
  - intros t s'. rewrite Hrefs. unfold watched. cbn [set_watchers ir_heap]. split.
    + intros (id & wt & Hid & Hn & Hp). exists id, wt. split_and!; try done.
      rewrite lookup_insert_ne; [done|]. intros Heq.
      by rewrite Heq, Hid in Hfresh.
    + intros (id & wt & [[<- <-]|[Hne Hid]]%lookup_insert_Some & Hn & Hp); [|by exists id, wt].
      cbn [newDiscoChainWatcher dw_prevResults] in Hp. unfold NewServiceNameIndex in Hp.
      rewrite lookup_empty in Hp. by destruct Hp.
  - intros s'. rewrite lookup_insert_is_Some'. naive_solver.
Qed.

Lemma start_watchers_wf ss r :
  watchers_wf r ∧ targets_exact r →
  (watchers_wf (foldl start_watcher r ss) ∧ targets_exact (foldl start_watcher r ss)) ∧
  (∀ s', is_Some (ir_chainWatchers (foldl start_watcher r ss) !! s') ↔
     s' ∈ ss ∨ is_Some (ir_chainWatchers r !! s')).
Proof.
  revert r. induction ss as [|s ss IH]; intros r Hwf; cbn [foldl].
  { split; [done|]. intros s'. rewrite elem_of_nil. naive_solver. }
  destruct (start_watcher_wf r s Hwf) as [Hwf' Hc]. destruct (IH _ Hwf') as [Hwf'' Hc'].
  split; [done|]. intros s'. rewrite Hc', Hc, elem_of_cons. naive_solver.
Qed.

Lemma updateChainWatchers_wf r igw :
  keeps_services r igw → reconciler_wf r → reconciler_wf (updateChainWatchers r igw).
Proof.
  intros Hkeep (Hw & Ht & Hidx). unfold updateChainWatchers, ServiceNameIndex_Diff.
  set (added := List.filter _ (range (ingressToServiceIndex igw)).*1).
  set (removed := List.filter _ _).
  assert (removed = []) as ->.
  { apply filter_none. intros s Hs. apply elem_of_range_keys, Hkeep in Hs.
    by rewrite bool_decide_true. }
  cbn [foldl]. destruct (start_watchers_wf added r (conj Hw Ht)) as [[Hw' Ht'] Hc].
  split_and!; [done|done|]. intros s. cbn [ir_chainWatchers ir_ingressServiceIndex].
  rewrite Hc, Hidx. unfold added. rewrite elem_of_missing.
  unfold ServiceNameIndex_Exists. rewrite bool_decide_eq_true, bool_decide_eq_false.
  pose proof (Hkeep s). destruct (decide (is_Some (ir_ingressServiceIndex r !! s))); naive_solver.
Qed.

Lemma handleChainResult_disjoint r result :
  index_wf (ir_targetIndex r) →
  (∀ t, is_Some (ir_targetTombstones r !! t) → ir_targetIndex r !! t = None) →
  ∀ t, is_Some (ir_targetTombstones (handleChainResult r result) !! t) →
       ir_targetIndex (handleChainResult r result) !! t = None.
Proof.
  set (disjoint r := ∀ t, is_Some (ir_targetTombstones r !! t) → ir_targetIndex r !! t = None).
  intros Hwf Hdis. unfold handleChainResult. set (n := res_name result).
  assert (∀ ts r, index_wf (ir_targetIndex r) → disjoint r →
    let r' := foldl (handle_added n) r ts in index_wf (ir_targetIndex r') ∧ disjoint r') as Hadd.
  { clear. induction ts as [|t0 ts IH]; intros r Hwf Hdis; [done|]. apply IH; [by apply addRef_wf|].
    intros t [Hne Ht]%is_Some_Remove. cbn [handle_added ir_targetIndex]. unfold addRef.
    rewrite lookup_insert_ne; [by apply Hdis|done]. }
  assert (∀ ts r, index_wf (ir_targetIndex r) → disjoint r →
    disjoint (foldl (handle_removed n) r ts)) as Hdel.
  { clear. induction ts as [|t0 ts IH]; intros r Hwf Hdis; [done|]. cbn [foldl].
    pose proof (delRef_wf _ t0 n Hwf) as Hwf'. apply IH; [done|].
    intros t. cbn [handle_removed ir_targetIndex ir_targetTombstones].
    destruct (listRefs _ t0) eqn:Hl.
    - intros [->|Ht]%is_Some_Add; [by apply listRefs_nil|].
      apply eq_None_not_Some. intros [s [Hs _]%delRef_references]%index_wf_lookup; [|done].
      apply Hdis, eq_None_not_Some in Ht. by apply Ht, index_wf_lookup; [|exists s].
    - intros Ht. apply eq_None_not_Some.
      intros [s [Hs _]%delRef_references]%index_wf_lookup; [|done].
      apply Hdis, eq_None_not_Some in Ht. by apply Ht, index_wf_lookup; [|exists s]. }
  destruct (Hadd (res_added result) r Hwf Hdis) as [Hwf1 Hdis1]. by apply Hdel.
Qed.

(** A watcher moves on. *)
Lemma set_watcher_wf r id wt wt' :
  watchers_wf r → ir_heap r !! id = Some wt → dw_cancelled wt' = false →
  dw_name wt' = dw_name wt →
  (∀ result names, dw_sending wt' = Some (result, names) →
     let d := ServiceNameIndex_Diff (dw_prevResults wt') names in
     result = mkWatchResult (dw_name wt') d.1 d.2) →
  watchers_wf (set_watchers r (ir_chainWatchers r) (<[id := wt']> (ir_heap r)) (ir_next r)).
Proof.
  intros [Hheap Hptr] Hid Hcan Hn Hsend.
  split; cbn [set_watchers ir_heap ir_chainWatchers ir_next].
  - intros id' wt2 [[<- <-]|[_ Hid']]%lookup_insert_Some; [|by apply Hheap].
    destruct (Hheap _ _ Hid) as (? & ? & _). rewrite Hn in *. by split_and!.
  - intros s id' (wt2 & Hwt2 & Hn2)%Hptr. destruct (decide (id = id')) as [<-|Hne];
      [|exists wt2; by rewrite lookup_insert_ne].
    rewrite Hid in Hwt2. injection Hwt2 as <-. exists wt'. by rewrite lookup_insert_eq, Hn.
Qed.

(** Delivering a result brings the references to what the watcher saw. *)
Lemma deliver_wf r id wt result names :
  reconciler_wf r → ir_heap r !! id = Some wt → dw_sending wt = Some (result, names) →
  reconciler_wf (handleChainResult
    (set_watchers r (ir_chainWatchers r) (<[id := watch_sent wt names]> (ir_heap r)) (ir_next r))
    result).
Proof.
  intros ([Hheap Hptr] & (Hwf & Hrefs & Htomb) & Hidx) Hid Hsend.
  set (r1 := set_watchers _ _ _ _).
  destruct (handleChainResult_spec r1 result Hwf) as (Hwf' & _ & Hrefs').
  pose proof (handleChainResult_disjoint r1 result Hwf Htomb) as Hdis.
  assert (∀ {C} (h : IntentionsReconciler → C),
    (∀ s r t, h (handle_added s r t) = h r) → (∀ s r t, h (handle_removed s r t) = h r) →
    h (handleChainResult r1 result) = h r1) as Hpres.
  { intros C h Ha Hr. unfold handleChainResult. rewrite !foldl_preserve; auto. }
  assert (watchers_wf r1) as Hwf1.
  { apply (set_watcher_wf _ _ wt); [by split|done| |done|done]. by apply (Hheap _ _ Hid). }
  unfold reconciler_wf, watchers_wf, targets_exact, watched in *.
  rewrite !(Hpres _ ir_heap), !(Hpres _ ir_chainWatchers), !(Hpres _ ir_next),
    !(Hpres _ ir_ingressServiceIndex) by done.
  split_and!; [apply Hwf1|apply Hwf1|done| |done|done].
  intros t s. rewrite Hrefs'. cbn [r1 set_watchers ir_targetIndex ir_heap]. rewrite Hrefs.
  destruct (Hheap _ _ Hid) as (Hc & _ & _ & Hres). specialize (Hres _ _ Hsend).
  destruct (decide (s = dw_name wt)) as [->|Hs].
  - rewrite Hres. cbn [res_name res_added res_removed ServiceNameIndex_Diff fst snd].
    rewrite !elem_of_missing. unfold ServiceNameIndex_Exists.
    rewrite !bool_decide_eq_true, !bool_decide_eq_false.
    assert ((∃ id' wt', ir_heap r !! id' = Some wt' ∧ dw_name wt' = dw_name wt ∧
      is_Some (dw_prevResults wt' !! t)) ↔ is_Some (dw_prevResults wt !! t)) as ->.
    { split; [|by eauto]. intros (id' & wt' & Hid' & Hn & Hp).
      destruct (Hheap _ _ Hid') as [Hc' _]. rewrite Hn, Hc in Hc'. injection Hc' as <-.
      rewrite Hid in Hid'. by injection Hid' as <-. }
    transitivity (is_Some (names !! t)).
    { destruct (decide (is_Some (names !! t))), (decide (is_Some (dw_prevResults wt !! t)));
        naive_solver. }
    split; [intros Ht; exists id, (watch_sent wt names); by rewrite lookup_insert_eq|].
    intros (id' & wt' & [[<- <-]|[Hne Hid']]%lookup_insert_Some & Hn & Hp); [done|].
    destruct (Hheap _ _ Hid') as [Hc' _]. rewrite Hn, Hc in Hc'. by injection Hc' as <-.
  - rewrite Hres. cbn [res_name]. split.
    + intros [[(id' & wt' & Hid' & Hn & Hp)|[? _]] _]; [|done]. exists id', wt'.
      rewrite lookup_insert_ne; [done|]. intros <-. rewrite Hid in Hid'. by injection Hid' as <-.
    + intros (id' & wt' & [[<- <-]|[Hne Hid']]%lookup_insert_Some & Hn & Hp); [done|].
      split; [left; by exists id', wt'|by intros [? _]].
Qed.

Lemma new_reconciler_wf gateway : reconciler_wf (newIntentionsReconciler gateway).
Proof.
  unfold reconciler_wf, watchers_wf, targets_exact, watched, references, index_wf.
  cbn [newIntentionsReconciler ir_heap ir_chainWatchers ir_targetIndex ir_targetTombstones
    ir_ingressServiceIndex]. unfold NewServiceNameIndex.
  setoid_rewrite lookup_empty. split_and!; try done; naive_solver.
Qed.

Context {MF : MultierrorFormat} {BO : RetryBackoff} {W : Type} {IE : IntentionEntries W}.

Lemma sync_tombstones_shrink source ts T (w w' : W) T' errs :
  sync_tombstones source w T ts = (w', T', errs) → ∀ u, is_Some (T' !! u) → is_Some (T !! u).
Proof.
  revert w T errs. induction ts as [|t ts IH]; intros w T errs; cbn [sync_tombstones].
  { by intros [= <- <- <-]. }
  destruct (updateIntentionSources t _ w) as [w1 [e|]].
  - destruct (sync_tombstones source w1 T ts) as [[w2 T2] errs2] eqn:Hrest. intros [= -> -> <-].
    by eapply IH.
  - intros Hrest u Hu. by eapply IH, is_Some_Remove in Hu as [_ Hu].
Qed.

Lemma syncIntentions_wf now r (w : W) r' w' err :
  syncIntentions now r w = (r', w', err) → reconciler_wf r → reconciler_wf r'.
Proof.
  unfold syncIntentions. destruct (sync_targets _ _ _) as [w1 errs1].
  destruct (sync_tombstones _ _ _ _) as [[w2 T'] errs2] eqn:Hdel. intros [= <- _ _].
  intros (Hw & (Hwf & Hrefs & Htomb) & Hidx). split; [exact Hw|]. split; [|exact Hidx].
  split_and!; [done|done|]. intros t Ht. apply Htomb. by eapply sync_tombstones_shrink.
Qed.

Lemma intentions_step_wf others (a b : IntentionsReconciler * W) :
  intentions_step keeps_services others a b → reconciler_wf a.1 → reconciler_wf b.1.
Proof.
  intros Hstep Hr.
  destruct Hstep as [r w igw Hi|r w id wt resp Hid Hs|r w id wt result names now r' w' err Hid Hs Hsync
    |r w id wt Hid Hc|r w now r' w' err Hsync|r w w' Ho]; simpl in *.
  - by apply updateChainWatchers_wf.
  - destruct Hr as ([Hheap Hptr] & (Hwf & Hrefs & Htomb) & Hidx).
    destruct (Hheap _ _ Hid) as (Hc & Hlt & Hcan & _).
    assert (dw_name (watch_poll wt resp) = dw_name wt ∧
      dw_prevResults (watch_poll wt resp) = dw_prevResults wt) as [Hn Hp]
      by (by destruct resp as [[]|]).
    split; [|split; [|exact Hidx]].
    { apply (set_watcher_wf _ _ wt); [by split|done|by destruct resp as [[]|]|done|].
      intros result names. destruct resp as [[chain last]|]; [|cbn [watch_poll]; by rewrite Hs].
      cbn [watch_poll ServiceNameIndex_Diff dw_sending dw_prevResults]. by intros [= <- <-]. }
    split_and!; [done| |done]. intros t s. cbn [set_watchers ir_targetIndex]. rewrite Hrefs.
    unfold watched. cbn [set_watchers ir_heap]. split.
    + intros (id' & wt' & Hid' & Hn' & Hp'). destruct (decide (id = id')) as [<-|Hne];
        [|exists id', wt'; by rewrite lookup_insert_ne].
      rewrite Hid in Hid'. injection Hid' as <-. exists id, (watch_poll wt resp).
      by rewrite lookup_insert_eq, Hn, Hp.
    + intros (id' & wt' & [[<- <-]|[Hne Hid']]%lookup_insert_Some & Hn' & Hp');
        [|by exists id', wt']. rewrite Hn, Hp in *. by exists id, wt.
  - eapply syncIntentions_wf; [exact Hsync|]. by apply deliver_wf.
  - destruct Hr as ([Hheap _] & _). apply Hheap in Hid as (_ & _ & Hcan & _). by rewrite Hc in Hcan.
  - by eapply syncIntentions_wf.
  - done.
Qed.

(** The targets are those of the watched discovery chains.  As long as no
    service leaves the ingress gateway, in every interleaving of the
    reconciler, its watchers, changes of the ingress gateway and other clients
    of Consul: exactly the services of the ingress gateway are watched; a
    target is referenced by exactly the services whose last delivered chain
    contains it, and is kept exactly while there is one; and no target waits
    for the removal of its intention. *)
Theorem intention_targets_exact (others : W → W → Prop) (gateway : CompoundServiceName)
    (w0 w : W) (r : IntentionsReconciler) :
  rtc (intentions_step keeps_services others) (newIntentionsReconciler gateway, w0) (r, w) →
  (∀ s, is_Some (ir_ingressServiceIndex r !! s) ↔
     ∃ id wt, ir_heap r !! id = Some wt ∧ dw_name wt = s) ∧
  (∀ t s, s ∈ listRefs (ir_targetIndex r) t ↔
     ∃ id wt, ir_heap r !! id = Some wt ∧ dw_name wt = s ∧ is_Some (dw_prevResults wt !! t)) ∧
  (∀ t, t ∈ all (ir_targetIndex r) ↔ ∃ s, s ∈ listRefs (ir_targetIndex r) t) ∧
  (∀ t, t ∈ all (ir_targetIndex r) → t ∉ ServiceNameIndex_All (ir_targetTombstones r)).
Proof.
  intros Hrtc. assert (reconciler_wf r) as ([Hheap Hptr] & (Hwf & Hrefs & Htomb) & Hidx).
  { refine (rtc_preserve _ (λ a, reconciler_wf a.1) _ _ _ Hrtc _).
    { intros a b. by apply intentions_step_wf. }
    apply new_reconciler_wf. }
  assert (∀ t s, s ∈ listRefs (ir_targetIndex r) t ↔ references (ir_targetIndex r) t s) as Hlist.
  { intros t s. unfold listRefs, references. destruct (ir_targetIndex r !! t) as [refs|].
    - unfold ServiceNameIndex_All. rewrite elem_of_range_keys. naive_solver.
    - rewrite elem_of_nil. naive_solver. }
  split_and!.
  - intros s. rewrite <- Hidx. split; [intros [id Hid]; apply Hptr in Hid as (wt & ? & ?); eauto|].
    intros (id & wt & Hid & <-). apply Hheap in Hid as [-> _]. eauto.
  - intros t s. rewrite Hlist. apply Hrefs.
  - intros t. unfold all. rewrite elem_of_range_keys, index_wf_lookup by done.
    by setoid_rewrite Hlist.
  - intros t Ht%elem_of_range_keys Ht'%elem_of_range_keys. apply Htomb in Ht'. rewrite Ht' in Ht.
    by destruct Ht.
Qed.

End exactness.

(** ** Examples *)

Module IntentionExamples.

Definition plain_format : MultierrorFormat := {| multierror_format := λ msgs, strings_Join msgs "; " |}.

#[export] Program Instance plain_retry : RetryBackoff := {| backoff_Run := λ W, @retry_loop W |}.
Next Obligation. done. Qed.

(** A Consul that answers every request; its clock counts the writes. *)
Record consul : Type := mkConsul {
  c_entries : gmap CompoundServiceName (list SourceIntention * Z);
  c_clock : Z
}.

Definition consul_index (c : consul) (k : CompoundServiceName) : Z :=
  default 0%Z (snd <$> c_entries c !! k).

#[export] Instance consul_entries : IntentionEntries consul := {|
  intentions_Get := λ c name,
    match c_entries c !! key name with
    | Some (srcs, idx) => Ok (mkServiceIntentions (csn_Name name) (csn_Namespace name) srcs, idx)
    | None => Err (ErrString "Unexpected response code: 404 (config entry not found)")
    end;
  intentions_CAS := λ c e idx,
    if decide (consul_index c (entry_key e) = idx)
    then (mkConsul (<[entry_key e := (sie_Sources e, c_clock c)]> (c_entries c)) (c_clock c + 1), Ok true)
    else (c, Ok false);
  intentions_Delete := λ c name, (mkConsul (delete (key name) (c_entries c)) (c_clock c + 1), None);
  interlude := id
|}.

#[export] Program Instance consul_lawful : @LawfulIntentions consul consul_entries plain_format := {|
  view := λ c, fst <$> c_entries c;
  modify_index := consul_index
|}.
Next Obligation.
  intros c name e idx. simpl. unfold consul_index. rewrite lookup_fmap.
  destruct (c_entries c !! key name) as [[srcs idx']|]; [|done]. by intros [= <- <-].
Qed.
Next Obligation.
  intros c name err. simpl. unfold consul_index. rewrite lookup_fmap.
  by destruct (c_entries c !! key name) as [[srcs idx']|].
Qed.
Next Obligation.
  intros c e idx c' r. simpl. case_decide as Hi; intros [= <- <-]; [right|by left].
  split_and!; [done|apply (fmap_insert fst)|done].
Qed.
Next Obligation.
  intros c name c' err. simpl. intros [= <- <-]. right. apply (fmap_delete fst).
Qed.
Next Obligation. done. Qed.

Lemma consul_answering : @answering plain_format consul consul_entries consul_lawful.
Proof.
  split_and!; [| |done|done].
  - intros w name. unfold getOrInitIntention. simpl.
    by destruct (c_entries w !! key name) as [[srcs idx]|].
  - intros w e idx Hidx. simpl in *. by rewrite decide_True.
Qed.

Definition service (name : string) : CompoundServiceName := mkCompoundServiceName name "" "".
Definition gateway : CompoundServiceName := service "gateway".

Definition ingress (names : list string) : IngressGatewayConfigEntry :=
  mkIngressGatewayConfigEntry "gateway" "" ∅
    [mkIngressListener 80 "tcp" ((λ n, mkIngressService n [] "") <$> names)
       (mkIngressTLSConfig None "" "" [])] None.

Definition chain (protocol : string) (targets : list string) : CompiledDiscoveryChain :=
  mkCompiledDiscoveryChain "route" protocol
    (list_to_map ((λ n, (n, mkDiscoveryTarget n "")) <$> targets)).

(** A Consul where another client already uses the service web. *)
Definition other_source : SourceIntention := mkSourceIntention "frontend" "" "allow" "".
Definition consul0 : consul := mkConsul {[service "web" := ([other_source], 1%Z)]} 2.

Abbreviation state := (IntentionsReconciler * consul)%type.

Definition step_ingress (names : list string) (s : state) : state :=
  (@updateChainWatchers canonical_range s.1 (ingress names), s.2).
Definition step_poll (id : nat) (c : CompiledDiscoveryChain) (s : state) : state :=
  match ir_heap s.1 !! id with
  | Some wt =>
      (set_watchers s.1 (ir_chainWatchers s.1)
         (<[id := @watch_poll canonical_range wt (Ok (c, 1%Z))]> (ir_heap s.1)) (ir_next s.1), s.2)
  | None => s
  end.
Definition step_sync (s : state) : state :=
  (@syncIntentions canonical_range plain_format _ _ _ "now" s.1 s.2).1.
(** The result of the watcher, just before the sync it triggers. *)
Definition received (id : nat) (s : state) : state :=
  match ir_heap s.1 !! id with
  | Some wt =>
      match dw_sending wt with
      | Some (result, names) =>
          (@handleChainResult canonical_range
            (set_watchers s.1 (ir_chainWatchers s.1) (<[id := watch_sent wt names]> (ir_heap s.1))
               (ir_next s.1)) result, s.2)
      | None => s
      end
  | None => s
  end.
Definition step_deliver (id : nat) (s : state) : state := step_sync (received id s).
Definition step_exit (id : nat) (s : state) : state :=
  (set_watchers s.1 (ir_chainWatchers s.1) (delete id (ir_heap s.1)) (ir_next s.1), s.2).

(** The route first leads to web, then to api. *)
Definition start : state := (newIntentionsReconciler gateway, consul0).
Definition to_web : state :=
  step_deliver 0 (step_poll 0 (chain "http" ["route"; "web"]) (step_ingress ["route"] start)).
Definition to_api : state := step_deliver 0 (step_poll 0 (chain "http" ["route"; "api"]) to_web).

(** A Consul with an intention a previous process made for the gateway, and a
    new reconciler whose route leads to web. *)
Definition consul_before : consul :=
  mkConsul {[service "old" :=
    ([mkSourceIntention "gateway" "" "allow" ""], 1%Z)]} 2.
Definition restarted : state :=
  step_deliver 0 (step_poll 0 (chain "http" ["route"; "web"])
    (step_ingress ["route"] (newIntentionsReconciler gateway, consul_before))).

Lemma unique_sources (c : consul) source :
  forallb (λ '(_, (srcs, _)), length (matching source srcs) <=? 1)
    (map_to_list (c_entries c)) = true →
  ∀ k, length (matching source (@sources _ _ _ consul_lawful c k)) ≤ 1.
Proof.
  intros Hall k. unfold sources. cbn [view consul_lawful]. rewrite lookup_fmap.
  destruct (c_entries c !! k) as [[srcs idx]|] eqn:Hk; [|simpl; lia].
  apply forallb_forall with (x := (k, (srcs, idx))) in Hall.
  - by apply Nat.leb_le in Hall.
  - by apply list_elem_of_In, elem_of_map_to_list.
Qed.

Lemma to_web_state :
  @all canonical_range (ir_targetIndex to_web.1) = [service "web"] ∧
  length (@sources _ _ _ consul_lawful to_web.2 (service "web")) = 2.
Proof. vm_compute. done. Qed.

Lemma to_api_state :
  @all canonical_range (ir_targetIndex to_api.1) = [service "api"] ∧
  @sources _ _ _ consul_lawful to_api.2 (service "web") = [other_source] ∧
  length (@sources _ _ _ consul_lawful to_api.2 (service "api")) = 1.
Proof. vm_compute. done. Qed.

Section steps.
Context (ingresses : IntentionsReconciler → IngressGatewayConfigEntry → Prop).
Abbreviation step := (@intentions_step canonical_range plain_format plain_retry consul
  consul_entries ingresses eq).

Lemma step_ingress_step names s : ingresses s.1 (ingress names) → step s (step_ingress names s).
Proof. destruct s. apply StepIngress. Qed.

Lemma step_poll_step id c s :
  (dw_sending <$> ir_heap s.1 !! id) = Some None → step s (step_poll id c s).
Proof.
  destruct s as [r w]. unfold step_poll. cbn [fst snd]. destruct (ir_heap r !! id) as [wt|] eqn:Hid; [|done].
  intros [= Hs]. by apply StepPoll.
Qed.

Lemma step_sync_step s : step s (step_sync s).
Proof.
  destruct s as [r w]. unfold step_sync. cbn [fst snd].
  destruct (syncIntentions "now" r w) as [[r' w'] err] eqn:Hs. by eapply StepSync.
Qed.

Lemma step_deliver_step id s : step s (step_deliver id s).
Proof.
  unfold step_deliver, received. destruct s as [r w]. cbn [fst snd].
  destruct (ir_heap r !! id) as [wt|] eqn:Hid; [|apply step_sync_step].
  destruct (dw_sending wt) as [[result names]|] eqn:Hs; [|apply step_sync_step].
  unfold step_sync. cbn [fst snd]. destruct (syncIntentions _ _ _) as [[r' w'] err] eqn:Hsync.
  by eapply StepDeliver.
Qed.

Lemma step_exit_step id s : (dw_cancelled <$> ir_heap s.1 !! id) = Some true → step s (step_exit id s).
Proof.
  destruct s as [r w]. unfold step_exit. cbn [fst snd]. destruct (ir_heap r !! id) as [wt|] eqn:Hid; [|done].
  intros [= Hc]. by eapply StepExit.
Qed.

Lemma to_api_reachable : ingresses start.1 (ingress ["route"]) → rtc step start to_api.
Proof.
  intros Hi. eapply rtc_l; [by apply (step_ingress_step ["route"])|].
  eapply rtc_l; [apply (step_poll_step 0 (chain "http" ["route"; "web"])); vm_compute; reflexivity|].
  eapply rtc_l; [apply (step_deliver_step 0)|]. fold to_web.
  eapply rtc_l; [apply (step_poll_step 0 (chain "http" ["route"; "api"])); vm_compute; reflexivity|].
  eapply rtc_l; [apply (step_deliver_step 0)|]. apply rtc_refl.
Qed.

End steps.

Lemma restarted_reachable :
  rtc (@intentions_step canonical_range plain_format plain_retry consul consul_entries
    (λ _ _, True) eq) (newIntentionsReconciler gateway, consul_before) restarted.
Proof.
  eapply rtc_l; [by apply (step_ingress_step _ ["route"])|].
  eapply rtc_l; [apply (step_poll_step _ 0 (chain "http" ["route"; "web"])); vm_compute; reflexivity|].
  eapply rtc_l; [apply (step_deliver_step _ 0)|]. apply rtc_refl.
Qed.

End IntentionExamples.

Lemma intention_targets_exact_witness :
  @all canonical_range (ir_targetIndex IntentionExamples.to_api.1) = [IntentionExamples.service "api"] ∧
  ∀ t, t ∈ @all canonical_range (ir_targetIndex IntentionExamples.to_api.1) →
       t ∉ @ServiceNameIndex_All canonical_range (ir_targetTombstones IntentionExamples.to_api.1).
Proof.
  split; [apply IntentionExamples.to_api_state|].
  apply (@intention_targets_exact canonical_range IntentionExamples.plain_format
    IntentionExamples.plain_retry _ IntentionExamples.consul_entries eq IntentionExamples.gateway
    IntentionExamples.consul0 IntentionExamples.to_api.2 IntentionExamples.to_api.1).
  rewrite <- surjective_pairing. apply IntentionExamples.to_api_reachable. by intros s [? ?].
Defined.

(** After a restart: Consul still has an intention from before for a service
    that is no target any more. *)
Lemma gateway_intentions_are_tracked_witness :
  @grants _ _ _ IntentionExamples.consul_lawful IntentionExamples.gateway
    IntentionExamples.restarted.2 (IntentionExamples.service "old") ≠ [] ∧
  ∀ k, k ≠ IntentionExamples.service "old" →
       @grants _ _ _ IntentionExamples.consul_lawful IntentionExamples.gateway
         IntentionExamples.restarted.2 k ≠ [] →
       ∃ t, key t = k ∧ (t ∈ @all canonical_range (ir_targetIndex IntentionExamples.restarted.1) ∨
         t ∈ @ServiceNameIndex_All canonical_range (ir_targetTombstones IntentionExamples.restarted.1)).
Proof.
  split; [vm_compute; discriminate|]. intros k Hk.
  apply (@gateway_intentions_are_tracked canonical_range IntentionExamples.plain_format
    IntentionExamples.plain_retry _ IntentionExamples.consul_entries IntentionExamples.consul_lawful
    IntentionExamples.gateway (λ k, k = IntentionExamples.service "old") (λ _ _, True) eq
    IntentionExamples.consul_before IntentionExamples.restarted.2 IntentionExamples.restarted.1).
  - intros w k' _. by left.
  - intros w w' -> k' _. by left.
  - intros k'. unfold grants, sources. simpl.
    destruct (decide (k' = IntentionExamples.service "old")) as [->|Hne]; [done|].
    rewrite map_fmap_singleton, lookup_singleton_ne by done. done.
  - rewrite <- surjective_pairing. apply IntentionExamples.restarted_reachable.
  - exact Hk.
Defined.

(** Access granted before a restart may stay for ever.  A reconciler starts
    with empty indexes whatever Consul holds: when it finds an intention for
    the gateway that its predecessor made for a service which is no target any
    more, the service is neither a target nor waiting for removal, and no
    further sync removes the intention. *)
Theorem restart_keeps_stale_intention :
  rtc (@intentions_step canonical_range IntentionExamples.plain_format
    IntentionExamples.plain_retry _ IntentionExamples.consul_entries (λ _ _, True) eq)
    (newIntentionsReconciler IntentionExamples.gateway, IntentionExamples.consul_before)
    IntentionExamples.restarted ∧
  @all canonical_range (ir_targetIndex IntentionExamples.restarted.1)
    = [IntentionExamples.service "web"] ∧
  ir_targetTombstones IntentionExamples.restarted.1 = ∅ ∧
  IntentionExamples.step_sync IntentionExamples.restarted = IntentionExamples.restarted ∧
  @grants _ _ _ IntentionExamples.consul_lawful IntentionExamples.gateway
    IntentionExamples.restarted.2 (IntentionExamples.service "old") ≠ [].
Proof.
  split; [apply IntentionExamples.restarted_reachable|].
  split_and!; try (vm_compute; reflexivity). vm_compute. discriminate.
Qed.

(** The sync after the route moved from web to api. *)
Lemma sync_intentions_exact_witness :
  let s := IntentionExamples.received 0 (IntentionExamples.step_poll 0
    (IntentionExamples.chain "http" ["route"; "api"]) IntentionExamples.to_web) in
  let s' := @syncIntentions canonical_range IntentionExamples.plain_format
    IntentionExamples.plain_retry _ IntentionExamples.consul_entries "now" s.1 s.2 in
  s'.2 = None ∧
  @sources _ _ _ IntentionExamples.consul_lawful s'.1.2 (IntentionExamples.service "web") =
    unmatching (sourceIntention s.1 "now")
      (@sources _ _ _ IntentionExamples.consul_lawful s.2 (IntentionExamples.service "web")).
Proof.
  intros s s'. destruct s' as [[r' w'] err] eqn:Hs'.
  destruct (@sync_intentions_exact canonical_range IntentionExamples.plain_format
    IntentionExamples.plain_retry _ IntentionExamples.consul_entries
    IntentionExamples.consul_lawful "now" s.1 r' s.2 w' err) as (_ & _ & _ & _ & _ & Hok & Hans).
  - by intros w k.
  - apply IntentionExamples.unique_sources. vm_compute. reflexivity.
  - intros k. replace (key <$> all (ir_targetIndex s.1)) with [IntentionExamples.service "api"]
      by (vm_compute; reflexivity).
    replace (key <$> ServiceNameIndex_All (ir_targetTombstones s.1))
      with [IntentionExamples.service "web"] by (vm_compute; reflexivity).
    by intros ->%list_elem_of_singleton ?%list_elem_of_singleton.
  - exact Hs'.
  - assert (err = None) as Herr.
    { apply Hans, IntentionExamples.consul_answering. }
    split; [exact Herr|]. apply Hok; [exact Herr|].
    replace (key <$> ServiceNameIndex_All (ir_targetTombstones s.1))
      with [IntentionExamples.service "web"] by (vm_compute; reflexivity).
    by apply list_elem_of_singleton.
Defined.

(** An ingress service that goes away leaves its access behind.  When the
    only service of the ingress gateway, whose route led to web, is removed,
    its watcher is stopped without giving back its references: no watcher is
    left that could, web stays a target without waiting for removal, and
    after every further sync Consul still allows the gateway to reach it. *)
Theorem removed_service_keeps_intention :
  let s := IntentionExamples.step_exit 0
    (IntentionExamples.step_ingress [] IntentionExamples.to_web) in
  rtc (@intentions_step canonical_range IntentionExamples.plain_format
    IntentionExamples.plain_retry _ IntentionExamples.consul_entries (λ _ _, True) eq)
    IntentionExamples.start s ∧
  ir_heap s.1 = ∅ ∧ ir_ingressServiceIndex s.1 = ∅ ∧
  @all canonical_range (ir_targetIndex s.1) = [IntentionExamples.service "web"] ∧
  ir_targetTombstones s.1 = ∅ ∧
  IntentionExamples.step_sync s = s ∧
  @grants _ _ _ IntentionExamples.consul_lawful IntentionExamples.gateway s.2
    (IntentionExamples.service "web") ≠ [].
Proof.
  split.
  - eapply rtc_l; [by apply (IntentionExamples.step_ingress_step _ ["route"])|].
    eapply rtc_l; [apply (IntentionExamples.step_poll_step _ 0
      (IntentionExamples.chain "http" ["route"; "web"])); vm_compute; reflexivity|].
    eapply rtc_l; [apply (IntentionExamples.step_deliver_step _ 0)|].
    fold IntentionExamples.to_web.
    eapply rtc_l; [by apply (IntentionExamples.step_ingress_step _ [])|].
    eapply rtc_l; [apply (IntentionExamples.step_exit_step _ 0); vm_compute; reflexivity|].
    apply rtc_refl.
  - split_and!; try (vm_compute; reflexivity). vm_compute. discriminate.
Qed.
