(* ===== verification/IntentionsLoop.v ===== *)
(** * The goroutine of the intentions reconciler ([internal/consul/intentions.go],
    [Reconcile], [reconcileLoop] and [Stop])

    [Reconcile] asks the loop of the reconciler for a synchronisation: it hands
    it a fresh error channel and waits for the answer on it, unless the context
    of the reconciler ends first, and closes the channel when it returns.  The
    loop evaluates [syncIntentions] when it comes to the [select] that offers
    the answer, and then either sends, on a channel that may be closed by now,
    or sees the end of the context.  A send on a closed channel panics.

    [Intentions] has what the steps of the loop do to the reconciler and to
    Consul; here is how they are asked for.  The adapter calls [Reconcile],
    [SetIngressServices] and [Stop] with its mutex held and drops the
    reconciler when it stops it: [serialized] states that, and with it no call
    is left unanswered and nothing panics.  Without it a panic can be
    reached. *)

From S2P Require Import Prelude Errors ConfigEntries Intentions.

(** ** States *)

(** Error channels by their number. *)
Inductive call_phase : Type :=
  | CIdle
  | COffering (ch : nat)   (* the first select of [Reconcile] *)
  | CWaiting (ch : nat).   (* the second *)

Inductive il_phase : Type :=
  | LSelect
  | LSyncing (ch : nat)                       (* [syncIntentions] for a call *)
  | LReplying (ch : nat) (err : option error) (* the inner select *)
  | LReturned
  | LPanicked.

(** How a call returns: with an answer of the loop or with [ctx.Err()]. *)
Inductive reply : Type :=
  | Replied (err : option error)
  | Cancelled.

(** What can be observed: calls, what the synchronisations for them yield, and
    what they return. *)
Inductive loop_event : Type :=
  | Called (ch : nat)
  | Synced (ch : nat) (err : option error)
  | Answered (ch : nat) (r : reply).

Record loop_state (W : Type) : Type := mkLoopState {
  il_reconciler : IntentionsReconciler;
  il_world : W;
  il_cancelled : bool;          (* [ctx] is done *)
  il_loop : il_phase;
  il_call : call_phase;
  il_closed : gset nat;         (* closed channels *)
  il_next : nat;                (* the next channel *)
  il_log : list loop_event      (* latest first *)
}.
Arguments mkLoopState {_} _ _ _ _ _ _ _ _.
Arguments il_reconciler {_} _.
Arguments il_world {_} _.
Arguments il_cancelled {_} _.
Arguments il_loop {_} _.
Arguments il_call {_} _.
Arguments il_closed {_} _.
Arguments il_next {_} _.
Arguments il_log {_} _.

Section setters.
Context {W : Type}.
Implicit Types s : loop_state W.

Definition il_set_data (r : IntentionsReconciler) (w : W) s : loop_state W :=
  mkLoopState r w (il_cancelled s) (il_loop s) (il_call s) (il_closed s) (il_next s) (il_log s).
Definition il_set_cancelled s : loop_state W :=
  mkLoopState (il_reconciler s) (il_world s) true (il_loop s) (il_call s) (il_closed s) (il_next s) (il_log s).
Definition il_set_loop (l : il_phase) s : loop_state W :=
  mkLoopState (il_reconciler s) (il_world s) (il_cancelled s) l (il_call s) (il_closed s) (il_next s) (il_log s).
Definition il_set_call (c : call_phase) s : loop_state W :=
  mkLoopState (il_reconciler s) (il_world s) (il_cancelled s) (il_loop s) c (il_closed s) (il_next s) (il_log s).
Definition il_emit (e : loop_event) s : loop_state W :=
  mkLoopState (il_reconciler s) (il_world s) (il_cancelled s) (il_loop s) (il_call s) (il_closed s)
    (il_next s) (e :: il_log s).
Definition il_close (ch : nat) s : loop_state W :=
  mkLoopState (il_reconciler s) (il_world s) (il_cancelled s) (il_loop s) (il_call s)
    ({[ch]} ∪ il_closed s) (il_next s) (il_log s).
Definition il_fresh s : loop_state W :=
  mkLoopState (il_reconciler s) (il_world s) (il_cancelled s) (il_loop s) (il_call s) (il_closed s)
    (S (il_next s)) (il_log s).
End setters.

(** ** Steps *)

Section loop.
Context {MR : MapRange} {MF : MultierrorFormat} {BO : RetryBackoff} {W : Type}.
Context {IE : IntentionEntries W}.

(** The loop is started after the watchers. *)
Definition NewIntentionsReconciler (ingress : IngressGatewayConfigEntry) (w : W) : loop_state W :=
  let name := mkCompoundServiceName (ingress_Name ingress) (ingress_Namespace ingress) "" in
  mkLoopState (updateChainWatchers (newIntentionsReconciler name) ingress) w false LSelect CIdle ∅ 0 [].

Definition Stop (s : loop_state W) : loop_state W := il_set_cancelled s.
Definition SetIngressServices (igw : IngressGatewayConfigEntry) (s : loop_state W) : loop_state W :=
  il_set_data (updateChainWatchers (il_reconciler s) igw) (il_world s) s.

(** [Reconcile] makes its channel, and when it returns closes it. *)
Definition Reconcile_begin (s : loop_state W) : loop_state W :=
  il_fresh (il_emit (Called (il_next s)) (il_set_call (COffering (il_next s)) s)).
Definition Reconcile_return (ch : nat) (r : reply) (s : loop_state W) : loop_state W :=
  il_emit (Answered ch r) (il_set_call CIdle (il_close ch s)).

(** Whether the caller holds the adapter's mutex: calls do not overlap and
    nothing is called after [Stop]. *)
Definition permitted (serialized : bool) (s : loop_state W) : Prop :=
  serialized = true → il_call s = CIdle ∧ il_cancelled s = false.

Inductive il_step (others : W → W → Prop) (serialized : bool) : loop_state W → loop_state W → Prop :=
  (* the callers *)
  | LStop s :
      permitted serialized s → il_step others serialized s (Stop s)
  | LSetIngress s igw :
      permitted serialized s → il_step others serialized s (SetIngressServices igw s)
  | LCall s :
      il_call s = CIdle → permitted serialized s → il_step others serialized s (Reconcile_begin s)
  (* the first select of [Reconcile] *)
  | LHandOver s ch :
      il_call s = COffering ch → il_loop s = LSelect →
      il_step others serialized s (il_set_loop (LSyncing ch) (il_set_call (CWaiting ch) s))
  | LOfferCancelled s ch :
      il_call s = COffering ch → il_cancelled s = true →
      il_step others serialized s (Reconcile_return ch Cancelled s)
  (* the second *)
  | LAnswer s ch err :
      il_call s = CWaiting ch → il_loop s = LReplying ch err →
      il_step others serialized s (Reconcile_return ch (Replied err) (il_set_loop LSelect s))
  | LWaitCancelled s ch :
      il_call s = CWaiting ch → il_cancelled s = true →
      il_step others serialized s (Reconcile_return ch Cancelled s)
  (* the loop *)
  | LSync s ch now r w err :
      il_loop s = LSyncing ch → syncIntentions now (il_reconciler s) (il_world s) = (r, w, err) →
      il_step others serialized s (il_emit (Synced ch err) (il_set_loop (LReplying ch err) (il_set_data r w s)))
  | LPanic s ch err :
      il_loop s = LReplying ch err → ch ∈ il_closed s →
      il_step others serialized s (il_set_loop LPanicked s)
  | LReplyCancelled s ch err :
      il_loop s = LReplying ch err → il_cancelled s = true →
      il_step others serialized s (il_set_loop LReturned s)
  | LDone s :
      il_loop s = LSelect → il_cancelled s = true → il_step others serialized s (il_set_loop LReturned s)
  | LDeliver s id watcher result names now r w err :
      il_loop s = LSelect →
      ir_heap (il_reconciler s) !! id = Some watcher → dw_sending watcher = Some (result, names) →
      syncIntentions now (handleChainResult
        (set_watchers (il_reconciler s) (ir_chainWatchers (il_reconciler s))
           (<[id := watch_sent watcher names]> (ir_heap (il_reconciler s))) (ir_next (il_reconciler s)))
        result) (il_world s) = (r, w, err) →
      il_step others serialized s (il_set_data r w s)
  | LTick s now r w err :
      il_loop s = LSelect → syncIntentions now (il_reconciler s) (il_world s) = (r, w, err) →
      il_step others serialized s (il_set_data r w s)
  (* the watchers and other clients of Consul *)
  | LWatcher s id watcher response :
      ir_heap (il_reconciler s) !! id = Some watcher → dw_sending watcher = None →
      il_step others serialized s
        (il_set_data (set_watchers (il_reconciler s) (ir_chainWatchers (il_reconciler s))
           (<[id := watch_poll watcher response]> (ir_heap (il_reconciler s)))
           (ir_next (il_reconciler s))) (il_world s) s)
  | LWatcherExit s id watcher :
      ir_heap (il_reconciler s) !! id = Some watcher → dw_cancelled watcher = true →
      il_step others serialized s
        (il_set_data (set_watchers (il_reconciler s) (ir_chainWatchers (il_reconciler s))
           (delete id (ir_heap (il_reconciler s))) (ir_next (il_reconciler s))) (il_world s) s)
  | LOthers s w :
      others (il_world s) w →
      il_step others serialized s (il_set_data (il_reconciler s) w s).
End loop.

(** ** What the calls observe *)

(** Every call has a channel of its own, is synchronised for at most once,
    after it began, and returns, once, what that synchronisation yielded. *)
Fixpoint well_answered (log : list loop_event) : Prop :=
  match log with
  | [] => True
  | Called ch :: log => (Called ch ∉ log) ∧ well_answered log
  | Synced ch err :: log => Called ch ∈ log ∧ (∀ err', Synced ch err' ∉ log) ∧ well_answered log
  | Answered ch r :: log =>
      (∃ err, r = Replied err ∧ Synced ch err ∈ log) ∧ (∀ r', Answered ch r' ∉ log) ∧ well_answered log
  end.

Definition event_channel (e : loop_event) : nat :=
  match e with Called ch | Synced ch _ | Answered ch _ => ch end.

Section serialized.
Context {MR : MapRange} {MF : MultierrorFormat} {BO : RetryBackoff} {W : Type}.
Context {IE : IntentionEntries W} (others : W → W → Prop).
Implicit Types s : loop_state W.

(** A call that waits to be synchronised for. *)
Definition pending (ch : nat) s : Prop :=
  il_cancelled s = false ∧ (ch ∉ il_closed s) ∧ ch < il_next s ∧
  Called ch ∈ il_log s ∧ (∀ err, Synced ch err ∉ il_log s) ∧ (∀ r, Answered ch r ∉ il_log s).

Definition call_ok s : Prop :=
  match il_call s, il_loop s with
  | CIdle, LSelect => True
  | CIdle, LReturned => il_cancelled s = true
  | COffering ch, LSelect => pending ch s
  | CWaiting ch, LSyncing ch' => ch' = ch ∧ pending ch s
  | CWaiting ch, LReplying ch' err =>
      ch' = ch ∧ il_cancelled s = false ∧ (ch ∉ il_closed s) ∧ ch < il_next s ∧
      Synced ch err ∈ il_log s ∧ (∀ r, Answered ch r ∉ il_log s)
  | _, _ => False
  end.

Definition loop_ok s : Prop :=
  call_ok s ∧ well_answered (il_log s) ∧
  (∀ e, e ∈ il_log s → event_channel e < il_next s) ∧
  (∀ ch, ch ∈ il_closed s → ch < il_next s).

(** What a step does to the data of the reconciler is not seen here. *)
Lemma loop_ok_data r w s : loop_ok s → loop_ok (il_set_data r w s).
Proof. done. Qed.

Lemma begin_ok s : il_call s = CIdle → il_cancelled s = false → loop_ok s → loop_ok (Reconcile_begin s).
Proof.
  intros Hidle Hc (Hcall & Hlog & Hev & Hcl). unfold call_ok in Hcall. rewrite Hidle in Hcall.
  assert (∀ e, event_channel e = il_next s → e ∉ il_log s) as Hnew.
  { intros e He Hin. apply Hev in Hin. lia. }
  split_and!.
  - unfold call_ok. cbn. destruct (il_loop s); [|done..| |done]; [|by rewrite Hc in Hcall].
    split_and!; cbn; [done| |lia|by left|..].
    + intros Hin%Hcl. lia.
    + intros err [?|?]%elem_of_cons; [done|]. by eapply (Hnew (Synced _ _)).
    + intros r [?|?]%elem_of_cons; [done|]. by eapply (Hnew (Answered _ _)).
  - cbn. split; [by apply (Hnew (Called _))|done].
  - cbn. intros e [->|Hin]%elem_of_cons; [cbn; lia|]. apply Hev in Hin. lia.
  - cbn. intros ch Hin%Hcl. lia.
Qed.

Lemma hand_over_ok s ch :
  il_call s = COffering ch → il_loop s = LSelect → loop_ok s →
  loop_ok (il_set_loop (LSyncing ch) (il_set_call (CWaiting ch) s)).
Proof.
  intros Hc Hl (Hcall & Hrest). unfold call_ok in Hcall. rewrite Hc, Hl in Hcall. done.
Qed.

Lemma answer_ok s ch err :
  il_call s = CWaiting ch → il_loop s = LReplying ch err → loop_ok s →
  loop_ok (Reconcile_return ch (Replied err) (il_set_loop LSelect s)).
Proof.
  intros Hc Hl (Hcall & Hlog & Hev & Hcl). unfold call_ok in Hcall. rewrite Hc, Hl in Hcall.
  destruct Hcall as (_ & _ & _ & Hlt & Hsync & Hans). split_and!; cbn.
  - done.
  - by split; [eauto|].
  - intros e [->|Hin]%elem_of_cons; [done|by apply Hev].
  - intros ch' [->%elem_of_singleton|Hin]%elem_of_union; [done|by apply Hcl].
Qed.

Lemma sync_ok s ch err r w :
  il_loop s = LSyncing ch → loop_ok s →
  loop_ok (il_emit (Synced ch err) (il_set_loop (LReplying ch err) (il_set_data r w s))).
Proof.
  intros Hl (Hcall & Hlog & Hev & Hcl). unfold call_ok in Hcall. rewrite Hl in Hcall.
  destruct (il_call s) as [| |ch'] eqn:Hc; [done..|].
  destruct Hcall as (<- & Hca & Hclosed & Hlt & Hcalled & Hsync & Hans). split_and!.
  - unfold call_ok. cbn. rewrite Hc. split_and!; [done..|by left|].
    intros r' [?|?]%elem_of_cons; [done|]. by eapply Hans.
  - done.
  - cbn. intros e [->|Hin]%elem_of_cons; [done|by apply Hev].
  - done.
Qed.

(** The calls and the loop keep to each other. *)
Lemma il_step_ok s s' : il_step others true s s' → loop_ok s → loop_ok s'.
Proof.
  intros Hstep Hok. pose proof (proj1 Hok) as Hcall. unfold call_ok in Hcall.
  destruct Hstep as [s Hp|s igw Hp|s Hidle Hp|s ch Hc Hl|s ch Hc Hd|s ch err Hc Hl|s ch Hc Hd
    |s ch now r w err Hl Hs|s ch err Hl Hin|s ch err Hl Hd|s Hl Hd|s id watcher result names now r w err Hl
    |s now r w err Hl|s id watcher response|s id watcher|s w].
  - destruct (Hp eq_refl) as [Hidle _], Hok as (_ & Hrest). split; [|done].
    unfold call_ok. cbn. rewrite Hidle in Hcall |- *. by destruct (il_loop s).
  - by apply loop_ok_data.
  - apply begin_ok; [done| |done]. by apply (Hp eq_refl).
  - by apply hand_over_ok.
  - rewrite Hc in Hcall. destruct (il_loop s); [|done..]. destruct Hcall as [Hf _]. congruence.
  - by apply answer_ok.
  - rewrite Hc in Hcall. destruct (il_loop s); [done|..|done|done].
    + destruct Hcall as (_ & Hf & _). congruence.
    + destruct Hcall as (_ & Hf & _). congruence.
  - by apply sync_ok.
  - rewrite Hl in Hcall. destruct (il_call s); [done..|]. by destruct Hcall as (-> & _ & Hno & _).
  - rewrite Hl in Hcall. destruct (il_call s); [done..|]. destruct Hcall as (_ & Hf & _). congruence.
  - rewrite Hl in Hcall. destruct Hok as (_ & Hrest). split; [|done]. unfold call_ok. cbn.
    destruct (il_call s); [done| |done]. destruct Hcall as [Hf _]. congruence.
  - by apply loop_ok_data.
  - by apply loop_ok_data.
  - by apply loop_ok_data.
  - by apply loop_ok_data.
  - by apply loop_ok_data.
Qed.

Lemma new_ok ingress (w : W) : loop_ok (NewIntentionsReconciler ingress w).
Proof. split_and!; cbn; [done|done|set_solver|set_solver]. Qed.

(** A call in progress can be answered, in at most three steps of the loop. *)
Lemma call_finishes s :
  loop_ok s → il_call s ≠ CIdle → ∃ s', rtc (il_step others true) s s' ∧ il_call s' = CIdle.
Proof.
  intros Hok Hbusy. pose proof (proj1 Hok) as Hcall. unfold call_ok in Hcall.
  assert (∀ s ch err, il_call s = CWaiting ch → il_loop s = LReplying ch err →
    ∃ s', rtc (il_step others true) s s' ∧ il_call s' = CIdle) as Hreply.
  { intros s1 ch err Hc Hl. eexists. split; [apply rtc_once; by eapply LAnswer|done]. }
  assert (∀ s ch, il_call s = CWaiting ch → il_loop s = LSyncing ch →
    ∃ s', rtc (il_step others true) s s' ∧ il_call s' = CIdle) as Hsync.
  { intros s1 ch Hc Hl.
    destruct (syncIntentions "" (il_reconciler s1) (il_world s1)) as [[r w] err] eqn:Hs.
    destruct (Hreply (il_emit (Synced ch err) (il_set_loop (LReplying ch err) (il_set_data r w s1))) ch err)
      as (s' & Hr & Hd); [done..|].
    exists s'. split; [|done]. eapply rtc_l; [by eapply LSync|exact Hr]. }
  destruct (il_call s) as [|ch|ch] eqn:Hc; [done|..]; destruct (il_loop s) as [|ch'|ch' err| |] eqn:Hl; try done.
  - destruct (Hsync (il_set_loop (LSyncing ch) (il_set_call (CWaiting ch) s)) ch) as (s' & Hr & Hd); [done..|].
    exists s'. split; [|done]. eapply rtc_l; [by eapply LHandOver|exact Hr].
  - destruct Hcall as [-> _]. by eapply Hsync.
  - destruct Hcall as [-> _]. by eapply Hreply.
Qed.

Lemma loop_ends s :
  loop_ok s → il_cancelled s = true →
  ∃ s', rtc (il_step others true) s s' ∧ il_loop s' = LReturned.
Proof.
  intros [Hcall _] Hd. unfold call_ok, pending in Hcall. rewrite Hd in Hcall.
  destruct (il_call s), (il_loop s) eqn:Hl; try naive_solver.
  eexists. split; [apply rtc_once; by apply LDone|done].
Qed.
End serialized.

(** ** Theorems *)

(** The synchronisations that the goroutine performs, forced ones included,
    are steps of [Intentions], whoever calls [Stop] when: its invariants hold
    for the reconciler as it runs. *)
Theorem loop_refines_reconciler {W} `{MapRange, MultierrorFormat, RetryBackoff, IntentionEntries W}
    (others : W → W → Prop) (serialized : bool) (ingress : IngressGatewayConfigEntry) (w0 : W) (s : loop_state W) :
  rtc (il_step others serialized) (NewIntentionsReconciler ingress w0) s →
  rtc (intentions_step (λ _ _, True) others)
    (newIntentionsReconciler (mkCompoundServiceName (ingress_Name ingress) (ingress_Namespace ingress) ""), w0)
    (il_reconciler s, il_world s).
Proof.
  intros Hrun.
  refine (rtc_preserve _ (λ s, rtc _ _ (il_reconciler s, il_world s)) _ _ _ Hrun _).
  - intros a b Hstep Hreach. destruct Hstep; try exact Hreach; eapply rtc_r; try exact Hreach.
    + by apply StepIngress.
    + by eapply StepSync.
    + by eapply StepDeliver.
    + by eapply StepSync.
    + by eapply StepPoll.
    + by eapply StepExit.
    + by apply StepOthers.
  - apply rtc_once. by apply StepIngress.
Qed.

(** C32: forced synchronisations are answered.  With the calls of the adapter,
    which holds its mutex and drops a stopped reconciler, and in every
    interleaving with the loop, its watchers and other clients of Consul: the
    loop never panics, every call that returned returned what the one
    synchronisation made for it yielded, a call in progress can be answered,
    and a stopped loop can end. *)
Theorem forced_sync_answered {W} `{MapRange, MultierrorFormat, RetryBackoff, IntentionEntries W}
    (others : W → W → Prop) (ingress : IngressGatewayConfigEntry) (w0 : W) (s : loop_state W) :
  rtc (il_step others true) (NewIntentionsReconciler ingress w0) s →
  il_loop s ≠ LPanicked ∧ well_answered (il_log s) ∧
  (il_call s ≠ CIdle → ∃ s', rtc (il_step others true) s s' ∧ il_call s' = CIdle) ∧
  (il_cancelled s = true → ∃ s', rtc (il_step others true) s s' ∧ il_loop s' = LReturned).
Proof.
  intros Hrun. assert (loop_ok s) as Hok.
  { refine (rtc_preserve _ loop_ok _ _ _ Hrun (new_ok _ _)). intros a b. apply il_step_ok. }
  split_and!.
  - intros Hp. destruct Hok as [Hcall _]. unfold call_ok in Hcall. rewrite Hp in Hcall. by destruct (il_call s).
  - apply Hok.
  - by apply call_finishes.
  - by apply loop_ends.
Qed.

(** Without the mutex the loop can panic: [Stop] during a synchronisation lets
    [Reconcile] return and close the channel that the loop then sends on. *)
Theorem stop_during_reconcile_panics {W} `{MapRange, MultierrorFormat, RetryBackoff, IntentionEntries W}
    (others : W → W → Prop) (ingress : IngressGatewayConfigEntry) (w0 : W) :
  ∃ s, rtc (il_step others false) (NewIntentionsReconciler ingress w0) s ∧ il_loop s = LPanicked.
Proof.
  set (s0 := NewIntentionsReconciler ingress w0).
  destruct (syncIntentions "" (il_reconciler s0) w0) as [[r w] err] eqn:Hs.
  eexists. split.
  - eapply rtc_l; [by apply (LCall _ _ s0)|].
    eapply rtc_l; [by eapply LHandOver|].
    eapply rtc_l; [by apply LStop|].
    eapply rtc_l; [by eapply LWaitCancelled|].
    eapply rtc_l; [by eapply (LSync _ _ _ 0)|].
    apply rtc_once. eapply LPanic; [done|]. cbn. set_solver.
  - done.
Qed.

(** A call that is answered, for the example of [Intentions]. *)
Lemma forced_sync_answered_witness :
  ∃ s : loop_state IntentionExamples.consul,
    il_log s = [Answered 0 (Replied None); Synced 0 None; Called 0] ∧ il_loop s ≠ LPanicked ∧
    well_answered (il_log s).
Proof.
  set (s0 := @NewIntentionsReconciler canonical_range _
    (mkIngressGatewayConfigEntry "gateway" "" ∅ [] None) IntentionExamples.consul0).
  destruct (@syncIntentions canonical_range IntentionExamples.plain_format IntentionExamples.plain_retry _
    IntentionExamples.consul_entries "now" (il_reconciler s0) (il_world s0)) as [[r w] err] eqn:Hs.
  assert (err = None) as -> by (vm_compute in Hs; by injection Hs).
  eexists (Reconcile_return 0 (Replied None) (il_set_loop LSelect
    (il_emit (Synced 0 None) (il_set_loop (LReplying 0 None) (il_set_data r w
      (il_set_loop (LSyncing 0) (il_set_call (CWaiting 0) (Reconcile_begin s0)))))))).
  split; [reflexivity|].
  destruct (@forced_sync_answered _ canonical_range IntentionExamples.plain_format
    IntentionExamples.plain_retry IntentionExamples.consul_entries eq
    (mkIngressGatewayConfigEntry "gateway" "" ∅ [] None) IntentionExamples.consul0
    (Reconcile_return 0 (Replied None) (il_set_loop LSelect
      (il_emit (Synced 0 None) (il_set_loop (LReplying 0 None) (il_set_data r w
        (il_set_loop (LSyncing 0) (il_set_call (CWaiting 0) (Reconcile_begin s0))))))))) as (Hp & Hw & _).
  - eapply rtc_l; [by apply (LCall _ _ s0)|].
    eapply rtc_l; [by eapply LHandOver|].
    eapply rtc_l; [by eapply (LSync _ _ _ 0)|].
    apply rtc_once. by eapply LAnswer.
  - by split.
Defined.
