(* ===== verification/ApiServer.v ===== *)
(** * Writing to the API server ([internal/k8s/gatewayclient/gatewayclient.go])

    The half of the client wrapper that changes the cluster.  [Object] is
    controller-runtime's [client.Object], for the kinds this code base writes.
    The controller-runtime client is the class [ApiServer] over a world [W]:
    reads, writes, [controllerutil.CreateOrUpdate] and
    [ctrl.SetControllerReference]; [LawfulApi] states their documented
    behaviour in terms of the stored objects ([view]).  A mutate function that
    panics makes the whole call panic ([None]). *)

From S2P Require Import Prelude Errors K8s GatewayClient.

(** ** Objects *)

Inductive Kind : Type :=
  | KServiceAccount | KRole | KRoleBinding | KSecret | KDeployment | KService
  | KGateway | KGatewayClass | KHTTPRoute | KTCPRoute | KGatewayClassConfig.

#[export] Instance Kind_eq_dec : EqDecision Kind.
Proof. solve_decision. Defined.

Definition Kind_to_nat (k : Kind) : nat :=
  match k with
  | KServiceAccount => 0 | KRole => 1 | KRoleBinding => 2 | KSecret => 3 | KDeployment => 4
  | KService => 5 | KGateway => 6 | KGatewayClass => 7 | KHTTPRoute => 8 | KTCPRoute => 9
  | KGatewayClassConfig => 10
  end.
Definition Kind_of_nat (n : nat) : option Kind :=
  [KServiceAccount; KRole; KRoleBinding; KSecret; KDeployment; KService; KGateway; KGatewayClass;
   KHTTPRoute; KTCPRoute; KGatewayClassConfig] !! n.

#[export] Program Instance Kind_countable : Countable Kind :=
  inj_countable Kind_to_nat Kind_of_nat _.
Next Obligation. by intros []. Qed.

Inductive Object : Type :=
  | ObjServiceAccount (o : ServiceAccount)
  | ObjRole (o : Role)
  | ObjRoleBinding (o : RoleBinding)
  | ObjSecret (o : Secret)
  | ObjDeployment (o : Deployment)
  | ObjService (o : Service)
  | ObjGateway (o : Gateway)
  | ObjGatewayClass (o : GatewayClass)
  | ObjRoute (o : Route)
  | ObjGatewayClassConfig (o : GatewayClassConfig).

Definition obj_Kind (o : Object) : Kind :=
  match o with
  | ObjServiceAccount _ => KServiceAccount
  | ObjRole _ => KRole
  | ObjRoleBinding _ => KRoleBinding
  | ObjSecret _ => KSecret
  | ObjDeployment _ => KDeployment
  | ObjService _ => KService
  | ObjGateway _ => KGateway
  | ObjGatewayClass _ => KGatewayClass
  | ObjRoute (RouteHTTP _) => KHTTPRoute
  | ObjRoute (RouteTCP _) => KTCPRoute
  | ObjGatewayClassConfig _ => KGatewayClassConfig
  end.

Definition obj_Meta (o : Object) : ObjectMeta :=
  match o with
  | ObjServiceAccount o => sa_Meta o
  | ObjRole o => role_Meta o
  | ObjRoleBinding o => rb_Meta o
  | ObjSecret o => sec_Meta o
  | ObjDeployment o => dep_Meta o
  | ObjService o => svc_Meta o
  | ObjGateway o => gw_Meta o
  | ObjGatewayClass o => gc_Meta o
  | ObjRoute o => route_Meta o
  | ObjGatewayClassConfig o => gcc_Meta o
  end.

Definition obj_set_Meta (m : ObjectMeta) (o : Object) : Object :=
  match o with
  | ObjServiceAccount o => ObjServiceAccount (mkServiceAccount m)
  | ObjRole o => ObjRole (mkRole m (role_Rules o))
  | ObjRoleBinding o => ObjRoleBinding (mkRoleBinding m (rb_RoleRef o) (rb_Subjects o))
  | ObjSecret o => ObjSecret (mkSecret m (sec_Type o) (sec_Data o))
  | ObjDeployment o =>
      ObjDeployment (mkDeployment m (dep_Replicas o) (dep_MatchLabels o) (dep_Template o))
  | ObjService o =>
      ObjService (mkService m (svc_Type o) (svc_ClusterIP o) (svc_Selector o) (svc_Ports o)
        (svc_Ingress o))
  | ObjGateway o =>
      ObjGateway (mkGateway m (gw_GroupKind o) (gw_GatewayClassName o) (gw_Listeners o)
        (gw_Addresses o) (gw_Status o))
  | ObjGatewayClass o =>
      ObjGatewayClass (mkGatewayClass m (gc_ControllerName o) (gc_ParametersRef o)
        (gc_Conditions o))
  | ObjRoute (RouteHTTP o) =>
      ObjRoute (RouteHTTP (mkK8sHTTPRoute m (khr_GroupKind o) (khr_ParentRefs o) (khr_Hostnames o)
        (khr_Rules o) (khr_Status o)))
  | ObjRoute (RouteTCP o) =>
      ObjRoute (RouteTCP (mkK8sTCPRoute m (ktr_GroupKind o) (ktr_ParentRefs o) (ktr_Rules o)
        (ktr_Status o)))
  | ObjGatewayClassConfig o => ObjGatewayClassConfig (mkGatewayClassConfig m (gcc_Spec o))
  end.

Abbreviation ObjectKey := (Kind * NamespacedName)%type.
Definition obj_key (o : Object) : ObjectKey := (obj_Kind o, om_key (obj_Meta o)).

(** ** The controller-runtime client *)

Inductive OperationResult : Type :=
  | OperationResultNone
  | OperationResultCreated
  | OperationResultUpdated.

#[export] Instance OperationResult_eq_dec : EqDecision OperationResult.
Proof. solve_decision. Defined.

(** A mutate function: the object it is run on, mutated, or an error. *)
Abbreviation mutator := (Object → option (result Object)).

Class ApiServer (W : Type) : Type := {
  api_Get : W → Kind → NamespacedName → get_result Object;
  api_Create : W → Object → W * option error;
  api_Update : W → Object → W * option error;
  api_UpdateStatus : W → Object → W * option error;
  api_Delete : W → Object → W * get_result unit;
  controllerutil_CreateOrUpdate :
    W → Object → mutator → option (W * result OperationResult);
  ctrl_SetControllerReference : ObjectMeta → ObjectMeta → result ObjectMeta
}.

Section client.
Context {W : Type} {AP : ApiServer W}.

Definition wrap_K8s (err : option error) : option error := ErrK8s <$> err.

Definition Update (w : W) (obj : Object) : W * option error :=
  let (w, err) := api_Update w obj in (w, wrap_K8s err).

Definition UpdateStatus (w : W) (obj : Object) : W * option error :=
  let (w, err) := api_UpdateStatus w obj in (w, wrap_K8s err).

(** [SetFinalizers] mutates the object the caller passed; the inner error is
    wrapped a second time. *)
Definition EnsureFinalizer (w : W) (object : Object) (finalizer : string) :
    W * Object * result bool :=
  let finalizers := om_Finalizers (obj_Meta object) in
  if existsb (λ f, bool_decide (f = finalizer)) finalizers then (w, object, Ok false)
  else
    let object := obj_set_Meta (om_set_Finalizers (finalizers ++ [finalizer]) (obj_Meta object)) object in
    match Update w object with
    | (w, Some err) => (w, object, Err (ErrK8s err))
    | (w, None) => (w, object, Ok true)
    end.

Definition RemoveFinalizer (w : W) (object : Object) (finalizer : string) :
    W * Object * result bool :=
  let finalizers := List.filter (λ f, negb (bool_decide (f = finalizer)))
    (om_Finalizers (obj_Meta object)) in
  let found := existsb (λ f, bool_decide (f = finalizer)) (om_Finalizers (obj_Meta object)) in
  if found then
    let object := obj_set_Meta (om_set_Finalizers finalizers (obj_Meta object)) object in
    match Update w object with
    | (w, Some err) => (w, object, Err (ErrK8s err))
    | (w, None) => (w, object, Ok found)
    end
  else (w, object, Ok found).

Fixpoint multiMutatorFn (mutators : list mutator) (o : Object) : option (result Object) :=
  match mutators with
  | [] => Some (Ok o)
  | mutate :: mutators =>
      res ← mutate o;
      match res with
      | Ok o => multiMutatorFn mutators o
      | Err err => Some (Err err)
      end
  end.

Definition CreateOrUpdateDeployment (w : W) (deployment : Deployment) (mutators : list mutator) :
    option (W * result bool) :=
  res ← controllerutil_CreateOrUpdate w (ObjDeployment deployment) (multiMutatorFn mutators);
  match res : W * result OperationResult with
  | (w, Err err) => Some (w, Err (ErrK8s err))
  | (w, Ok operation) => Some (w, Ok (bool_decide (operation ≠ OperationResultNone)))
  end.

Definition CreateOrUpdateSecret (w : W) (secret : Secret) (mutators : list mutator) :
    option (W * result bool) :=
  res ← controllerutil_CreateOrUpdate w (ObjSecret secret) (multiMutatorFn mutators);
  match res : W * result OperationResult with
  | (w, Err err) => Some (w, Err (ErrK8s err))
  | (w, Ok op) => Some (w, Ok (bool_decide (op ≠ OperationResultNone)))
  end.

Definition CreateOrUpdateService (w : W) (service : Service) (mutators : list mutator) :
    option (W * result bool) :=
  res ← controllerutil_CreateOrUpdate w (ObjService service) (multiMutatorFn mutators);
  match res : W * result OperationResult with
  | (w, Err err) => Some (w, Err (ErrK8s err))
  | (w, Ok op) => Some (w, Ok (bool_decide (op ≠ OperationResultNone)))
  end.

Definition DeleteService (w : W) (service : Service) : W * option error :=
  match api_Delete w (ObjService service) with
  | (w, Failed err) => (w, Some (ErrK8s err))
  | (w, _) => (w, None)
  end.

Definition EnsureExists (w : W) (obj : Object) (mutators : list mutator) :
    option (W * result bool) :=
  res ← controllerutil_CreateOrUpdate w obj (multiMutatorFn mutators);
  match res : W * result OperationResult with
  | (w, Err err) => Some (w, Err (ErrK8s err))
  | (w, Ok op) => Some (w, Ok (bool_decide (op ≠ OperationResultNone)))
  end.

Definition SetControllerOwnership (owner object : Object) : result Object :=
  match ctrl_SetControllerReference (obj_Meta owner) (obj_Meta object) with
  | Err err => Err (ErrK8s err)
  | Ok m => Ok (obj_set_Meta m object)
  end.

Definition not_owned : error := ErrString "service account not owned by the gateway".

Definition EnsureServiceAccount (w : W) (owner : Gateway) (serviceAccount : ServiceAccount) :
    W * option error :=
  match api_Get w KServiceAccount (om_key (sa_Meta serviceAccount)) with
  | NotFound =>
      match SetControllerOwnership (ObjGateway owner) (ObjServiceAccount serviceAccount) with
      | Err err => (w, Some err)
      | Ok serviceAccount =>
          let (w, err) := api_Create w serviceAccount in (w, wrap_K8s err)
      end
  | Failed err => (w, Some (ErrK8s err))
  | Found created =>
      if existsb (λ ref, bool_decide (or_UID ref = om_UID (gw_Meta owner)) &&
                         bool_decide (or_Name ref = om_Name (gw_Meta owner)))
           (om_OwnerReferences (obj_Meta created))
      then (w, None)
      else (w, Some not_owned)
  end.

End client.

(** ** The contract of the API server *)

(** What the server stores for an object it is sent: it fills in the fields
    it owns and keeps the rest. *)
Definition admits (sent stored : Object) : Prop :=
  obj_key stored = obj_key sent ∧
  om_Labels (obj_Meta stored) = om_Labels (obj_Meta sent) ∧
  om_Annotations (obj_Meta stored) = om_Annotations (obj_Meta sent) ∧
  om_OwnerReferences (obj_Meta stored) = om_OwnerReferences (obj_Meta sent) ∧
  om_Finalizers (obj_Meta stored) = om_Finalizers (obj_Meta sent) ∧
  match sent, stored with
  | ObjServiceAccount _, ObjServiceAccount _ => True
  | ObjRole a, ObjRole b => role_Rules a = role_Rules b
  | ObjRoleBinding a, ObjRoleBinding b => rb_RoleRef a = rb_RoleRef b ∧ rb_Subjects a = rb_Subjects b
  | ObjSecret a, ObjSecret b => sec_Data a = sec_Data b
  | ObjDeployment a, ObjDeployment b =>
      dep_Replicas a = dep_Replicas b ∧ dep_MatchLabels a = dep_MatchLabels b ∧
      dep_Template a = dep_Template b
  | ObjService a, ObjService b =>
      svc_Type a = svc_Type b ∧ svc_Selector a = svc_Selector b ∧ svc_Ports a = svc_Ports b
  | ObjGateway a, ObjGateway b =>
      gw_GatewayClassName a = gw_GatewayClassName b ∧ gw_Listeners a = gw_Listeners b ∧
      gw_Addresses a = gw_Addresses b
  | ObjGatewayClass a, ObjGatewayClass b =>
      gc_ControllerName a = gc_ControllerName b ∧ gc_ParametersRef a = gc_ParametersRef b
  | ObjRoute _, ObjRoute _ => True
  | ObjGatewayClassConfig a, ObjGatewayClassConfig b => gcc_Spec a = gcc_Spec b
  | _, _ => False
  end.

Lemma admits_refl o : admits o o.
Proof. unfold admits. split_and!; try done. by destruct o. Qed.

(** A write of an object either had no effect or stored it; one that
    reports success did the latter. *)
Definition written (view view' : gmap ObjectKey Object) (o : Object) (ok : bool) : Prop :=
  (view' = view ∧ ok = false) ∨
  (∃ stored, admits o stored ∧ view' = <[obj_key o := stored]> view).

(** An update that takes the last finalizer off an object that was marked for
    deletion lets the server delete it. *)
Definition finalized (view view' : gmap ObjectKey Object) (o : Object) : Prop :=
  om_Finalizers (obj_Meta o) = [] ∧
  (∃ current, view !! obj_key o = Some current ∧ is_Some (om_DeletionTimestamp (obj_Meta current))) ∧
  view' = delete (obj_key o) view.

(** An update of a status leaves the finalizers of the object and all other
    objects alone. *)
Definition status_written (view view' : gmap ObjectKey Object) (o : Object) : Prop :=
  (∀ k, k ≠ obj_key o → view' !! k = view !! k) ∧
  om_Finalizers ∘ obj_Meta <$> view' !! obj_key o = om_Finalizers ∘ obj_Meta <$> view !! obj_key o.

Class LawfulApi (W : Type) `{ApiServer W} : Type := {
  view : W → gmap ObjectKey Object;
  view_key : ∀ w k o, view w !! k = Some o → obj_key o = k;
  Get_effect : ∀ w kind n,
    match api_Get w kind n with
    | Found o => view w !! (kind, n) = Some o
    | NotFound => view w !! (kind, n) = None
    | Failed _ => True
    end;
  Create_effect : ∀ w o w' err, api_Create w o = (w', err) →
    written (view w) (view w') o (bool_decide (err = None));
  Update_effect : ∀ w o w' err, api_Update w o = (w', err) →
    written (view w) (view w') o (bool_decide (err = None)) ∨ finalized (view w) (view w') o;
  UpdateStatus_effect : ∀ w o w' err, api_UpdateStatus w o = (w', err) →
    status_written (view w) (view w') o;
  CreateOrUpdate_panic : ∀ w o f,
    controllerutil_CreateOrUpdate w o f = None → f (default o (view w !! obj_key o)) = None;
  CreateOrUpdate_effect : ∀ w o f w' r, controllerutil_CreateOrUpdate w o f = Some (w', r) →
    view w' = view w ∧ (∃ e, r = Err e) ∨
    ∃ o', f (default o (view w !! obj_key o)) = Some (Ok o') ∧ obj_key o' = obj_key o ∧
      ((view w !! obj_key o = Some o' ∧ view w' = view w) ∨
       (view w !! obj_key o ≠ Some o' ∧ written (view w) (view w') o' (is_Ok r)));
  SetControllerReference_ok : ∀ owner m m', ctrl_SetControllerReference owner m = Ok m' →
    ∃ refs, m' = om_set_OwnerReferences refs m ∧
      mkOwnerReference (om_UID owner) (om_Name owner) true ∈ refs;
  SetControllerReference_again : ∀ owner m m' m1, ctrl_SetControllerReference owner m = Ok m' →
    om_OwnerReferences m1 = om_OwnerReferences m' → om_Namespace m1 = om_Namespace m' →
    ctrl_SetControllerReference owner m1 = Ok m1
}.
