(* ===== verification/Cluster.v ===== *)
(** * A cluster in memory

    Objects have decidable equality, and the contract of [ApiServer] has an
    instance: a map of the stored objects.  The theorems about the code that
    writes to the cluster are evaluated on it. *)

From S2P Require Import Prelude Errors K8s GatewayClient ApiServer.

#[export] Instance GroupKind_eq_dec : EqDecision GroupKind. Proof. solve_decision. Defined.
#[export] Instance OwnerReference_eq_dec : EqDecision OwnerReference. Proof. solve_decision. Defined.
#[export] Instance ObjectMeta_eq_dec : EqDecision ObjectMeta. Proof. solve_decision. Defined.
#[export] Instance Condition_eq_dec : EqDecision Condition. Proof. solve_decision. Defined.
#[export] Instance LabelSelector_eq_dec : EqDecision LabelSelector. Proof. solve_decision. Defined.
#[export] Instance RouteNamespaces_eq_dec : EqDecision RouteNamespaces. Proof. solve_decision. Defined.
#[export] Instance AllowedRoutes_eq_dec : EqDecision AllowedRoutes. Proof. solve_decision. Defined.
#[export] Instance SecretObjectReference_eq_dec : EqDecision SecretObjectReference. Proof. solve_decision. Defined.
#[export] Instance GatewayTLSConfig_eq_dec : EqDecision GatewayTLSConfig. Proof. solve_decision. Defined.
#[export] Instance Listener_eq_dec : EqDecision Listener. Proof. solve_decision. Defined.
#[export] Instance ListenerStatusObj_eq_dec : EqDecision ListenerStatusObj. Proof. solve_decision. Defined.
#[export] Instance GatewayStatusObj_eq_dec : EqDecision GatewayStatusObj. Proof. solve_decision. Defined.
#[export] Instance Gateway_eq_dec : EqDecision Gateway. Proof. solve_decision. Defined.
#[export] Instance BackendObjectReference_eq_dec : EqDecision BackendObjectReference. Proof. solve_decision. Defined.
#[export] Instance BackendRef_eq_dec : EqDecision BackendRef. Proof. solve_decision. Defined.
#[export] Instance HTTPHeader_eq_dec : EqDecision HTTPHeader. Proof. solve_decision. Defined.
#[export] Instance HTTPRequestHeaderFilter_eq_dec : EqDecision HTTPRequestHeaderFilter. Proof. solve_decision. Defined.
#[export] Instance HTTPRequestRedirectFilter_eq_dec : EqDecision HTTPRequestRedirectFilter. Proof. solve_decision. Defined.
#[export] Instance HTTPPathModifier_eq_dec : EqDecision HTTPPathModifier. Proof. solve_decision. Defined.
#[export] Instance HTTPRouteFilter_eq_dec : EqDecision HTTPRouteFilter. Proof. solve_decision. Defined.
#[export] Instance K8sHTTPPathMatch_eq_dec : EqDecision K8sHTTPPathMatch. Proof. solve_decision. Defined.
#[export] Instance K8sHTTPHeaderMatch_eq_dec : EqDecision K8sHTTPHeaderMatch. Proof. solve_decision. Defined.
#[export] Instance K8sHTTPQueryParamMatch_eq_dec : EqDecision K8sHTTPQueryParamMatch. Proof. solve_decision. Defined.
#[export] Instance K8sHTTPRouteMatch_eq_dec : EqDecision K8sHTTPRouteMatch. Proof. solve_decision. Defined.
#[export] Instance HTTPBackendRef_eq_dec : EqDecision HTTPBackendRef. Proof. solve_decision. Defined.
#[export] Instance K8sHTTPRouteRule_eq_dec : EqDecision K8sHTTPRouteRule. Proof. solve_decision. Defined.
#[export] Instance TCPRouteRule_eq_dec : EqDecision TCPRouteRule. Proof. solve_decision. Defined.
#[export] Instance RouteParentStatus_eq_dec : EqDecision RouteParentStatus. Proof. solve_decision. Defined.
#[export] Instance K8sHTTPRoute_eq_dec : EqDecision K8sHTTPRoute. Proof. solve_decision. Defined.
#[export] Instance K8sTCPRoute_eq_dec : EqDecision K8sTCPRoute. Proof. solve_decision. Defined.
#[export] Instance Route_eq_dec : EqDecision Route. Proof. solve_decision. Defined.
#[export] Instance LoadBalancerIngress_eq_dec : EqDecision LoadBalancerIngress. Proof. solve_decision. Defined.
#[export] Instance ServicePort_eq_dec : EqDecision ServicePort. Proof. solve_decision. Defined.
#[export] Instance Service_eq_dec : EqDecision Service. Proof. solve_decision. Defined.
#[export] Instance Secret_eq_dec : EqDecision Secret. Proof. solve_decision. Defined.
#[export] Instance ParametersReference_eq_dec : EqDecision ParametersReference. Proof. solve_decision. Defined.
#[export] Instance GatewayClass_eq_dec : EqDecision GatewayClass. Proof. solve_decision. Defined.
#[export] Instance ContainerPort_eq_dec : EqDecision ContainerPort. Proof. solve_decision. Defined.
#[export] Instance VolumeMount_eq_dec : EqDecision VolumeMount. Proof. solve_decision. Defined.
#[export] Instance VolumeSource_eq_dec : EqDecision VolumeSource. Proof. solve_decision. Defined.
#[export] Instance Volume_eq_dec : EqDecision Volume. Proof. solve_decision. Defined.
#[export] Instance EnvVarValue_eq_dec : EqDecision EnvVarValue. Proof. solve_decision. Defined.
#[export] Instance EnvVar_eq_dec : EqDecision EnvVar. Proof. solve_decision. Defined.
#[export] Instance Container_eq_dec : EqDecision Container. Proof. solve_decision. Defined.
#[export] Instance WeightedPodAffinityTerm_eq_dec : EqDecision WeightedPodAffinityTerm. Proof. solve_decision. Defined.
#[export] Instance PodSpec_eq_dec : EqDecision PodSpec. Proof. solve_decision. Defined.
#[export] Instance PodTemplateSpec_eq_dec : EqDecision PodTemplateSpec. Proof. solve_decision. Defined.
#[export] Instance Deployment_eq_dec : EqDecision Deployment. Proof. solve_decision. Defined.
#[export] Instance ServiceAccount_eq_dec : EqDecision ServiceAccount. Proof. solve_decision. Defined.
#[export] Instance PolicyRule_eq_dec : EqDecision PolicyRule. Proof. solve_decision. Defined.
#[export] Instance Role_eq_dec : EqDecision Role. Proof. solve_decision. Defined.
#[export] Instance RoleBinding_eq_dec : EqDecision RoleBinding. Proof. solve_decision. Defined.
#[export] Instance PortSpec_eq_dec : EqDecision PortSpec. Proof. solve_decision. Defined.
#[export] Instance AuthSpec_eq_dec : EqDecision AuthSpec. Proof. solve_decision. Defined.
#[export] Instance ConsulSpec_eq_dec : EqDecision ConsulSpec. Proof. solve_decision. Defined.
#[export] Instance ImageSpec_eq_dec : EqDecision ImageSpec. Proof. solve_decision. Defined.
#[export] Instance DeploymentSpec_eq_dec : EqDecision DeploymentSpec. Proof. solve_decision. Defined.
#[export] Instance GatewayClassConfigSpec_eq_dec : EqDecision GatewayClassConfigSpec. Proof. solve_decision. Defined.
#[export] Instance GatewayClassConfig_eq_dec : EqDecision GatewayClassConfig. Proof. solve_decision. Defined.
#[export] Instance Object_eq_dec : EqDecision Object. Proof. solve_decision. Defined.

(** ** The stored objects *)

(** Every object is stored under its own key. *)
Definition keyed (m : gmap ObjectKey Object) : bool :=
  bool_decide (map_Forall (λ k o, obj_key o = k) m).

Definition cluster : Type := { m : gmap ObjectKey Object | keyed m = true }.

Definition objects (c : cluster) : gmap ObjectKey Object := proj1_sig c.

Lemma keyed_insert o m : keyed m = true → keyed (<[obj_key o := o]> m) = true.
Proof.
  unfold keyed. rewrite !bool_decide_eq_true. intros Hm. by apply map_Forall_insert_2.
Qed.

Lemma keyed_delete k m : keyed m = true → keyed (delete k m) = true.
Proof. unfold keyed. rewrite !bool_decide_eq_true. apply map_Forall_delete. Qed.

Definition put_object (c : cluster) (o : Object) : cluster :=
  exist _ (<[obj_key o := o]> (objects c)) (keyed_insert o _ (proj2_sig c)).

Definition remove_object (c : cluster) (o : Object) : cluster :=
  exist _ (delete (obj_key o) (objects c)) (keyed_delete _ _ (proj2_sig c)).

Lemma keyed_empty : keyed ∅ = true.
Proof. unfold keyed. by apply bool_decide_eq_true, map_Forall_empty. Qed.

Definition empty_cluster : cluster := exist _ ∅ keyed_empty.

Lemma obj_Meta_set m o : obj_Meta (obj_set_Meta m o) = m.
Proof. by destruct o as [| | | | | | | |[]|]. Qed.

Lemma obj_Kind_set m o : obj_Kind (obj_set_Meta m o) = obj_Kind o.
Proof. by destruct o as [| | | | | | | |[]|]. Qed.

Lemma obj_key_set_Finalizers finalizers o :
  obj_key (obj_set_Meta (om_set_Finalizers finalizers (obj_Meta o)) o) = obj_key o.
Proof. unfold obj_key. by rewrite obj_Meta_set, obj_Kind_set. Qed.

(** An owner becomes the controller unless there is another one. *)
Definition set_controller (owner m : ObjectMeta) : result ObjectMeta :=
  let ref := mkOwnerReference (om_UID owner) (om_Name owner) true in
  if bool_decide (ref ∈ om_OwnerReferences m) then Ok m
  else if existsb or_Controller (om_OwnerReferences m) then Err (ErrString "already owned")
  else Ok (om_set_OwnerReferences (om_OwnerReferences m ++ [ref]) m).

Definition create_or_update (c : cluster) (o : Object) (f : mutator) :
    option (cluster * result OperationResult) :=
  let current := objects c !! obj_key o in
  res ← f (default o current);
  match res with
  | Err e => Some (c, Err e)
  | Ok o' =>
      if decide (obj_key o' = obj_key o) then
        if decide (current = Some o') then Some (c, Ok OperationResultNone)
        else Some (put_object c o', Ok (if current is Some _ then OperationResultUpdated else OperationResultCreated))
      else Some (c, Err (ErrString "the name was changed"))
  end.

#[export] Instance cluster_api : ApiServer cluster := {|
  api_Get c kind n := match objects c !! (kind, n) with Some o => Found o | None => NotFound end;
  api_Create c o :=
    if objects c !! obj_key o is Some _ then (c, Some (ErrString "already exists")) else (put_object c o, None);
  api_Update c o :=
    if objects c !! obj_key o is Some current then
      (if bool_decide (om_Finalizers (obj_Meta o) = [] ∧ is_Some (om_DeletionTimestamp (obj_Meta current)))
       then remove_object c o else put_object c o, None)
    else (c, Some (ErrString "not found"));
  api_UpdateStatus c o :=
    if objects c !! obj_key o is Some current then
      (put_object c (obj_set_Meta (om_set_Finalizers (om_Finalizers (obj_Meta current)) (obj_Meta o)) o), None)
    else (c, Some (ErrString "not found"));
  api_Delete c o := if objects c !! obj_key o is Some _ then (remove_object c o, Found tt) else (c, NotFound);
  controllerutil_CreateOrUpdate := create_or_update;
  ctrl_SetControllerReference := set_controller
|}.

Lemma om_set_OwnerReferences_self m : om_set_OwnerReferences (om_OwnerReferences m) m = m.
Proof. by destruct m. Qed.

Lemma cluster_create_or_update c o f c' r :
  create_or_update c o f = Some (c', r) →
  objects c' = objects c ∧ (∃ e, r = Err e) ∨
  ∃ o', f (default o (objects c !! obj_key o)) = Some (Ok o') ∧ obj_key o' = obj_key o ∧
    ((objects c !! obj_key o = Some o' ∧ objects c' = objects c) ∨
     (objects c !! obj_key o ≠ Some o' ∧ written (objects c) (objects c') o' (is_Ok r))).
Proof.
  unfold create_or_update. destruct (f _) as [[o'|e]|] eqn:Hf; simpl; [|intros [= <- <-]; eauto|done].
  destruct (decide (obj_key o' = obj_key o)) as [Hk|]; [|intros [= <- <-]; eauto].
  destruct (decide _) as [Hsame|Hne]; intros [= <- <-]; right; exists o'; split_and!; try done; auto.
  right. split; [done|]. right. exists o'. split; [apply admits_refl|done].
Qed.

Lemma cluster_set_controller owner m m' :
  set_controller owner m = Ok m' →
  ∃ refs, m' = om_set_OwnerReferences refs m ∧
    mkOwnerReference (om_UID owner) (om_Name owner) true ∈ refs.
Proof.
  unfold set_controller. case_bool_decide as Hin; [|destruct (existsb _ _); [done|]]; intros [= <-].
  - exists (om_OwnerReferences m). by rewrite om_set_OwnerReferences_self.
  - eexists. split; [done|]. set_solver.
Qed.

Lemma cluster_set_controller_again owner m m' m1 :
  set_controller owner m = Ok m' → om_OwnerReferences m1 = om_OwnerReferences m' →
  set_controller owner m1 = Ok m1.
Proof.
  intros (refs & -> & Hin)%cluster_set_controller Hrefs. unfold set_controller.
  by rewrite bool_decide_true by by rewrite Hrefs.
Qed.

#[export] Program Instance cluster_lawful : LawfulApi cluster := {| view := objects |}.
Next Obligation.
  intros [m Hm] k o. simpl. unfold keyed in Hm. apply bool_decide_eq_true in Hm. apply Hm.
Qed.
Next Obligation. intros c kind n. simpl. by destruct (objects c !! _). Qed.
Next Obligation.
  intros c o c' err. simpl. destruct (objects c !! _); intros [= <- <-]; [by left|].
  right. exists o. split; [apply admits_refl|done].
Qed.
Next Obligation.
  intros c o c' err. simpl. destruct (objects c !! obj_key o) as [current|] eqn:Hc; intros [= <- <-];
    [|by left; left].
  case_bool_decide as Hf; [right|left; right].
  - destruct Hf. split_and!; [done|by eexists|done].
  - exists o. split; [apply admits_refl|done].
Qed.
Next Obligation.
  intros c o c' err. simpl. destruct (objects c !! obj_key o) as [current|] eqn:Hc; intros [= <- <-];
    [|by split].
  unfold status_written. simpl. rewrite obj_key_set_Finalizers. split.
  - intros k Hk. by rewrite lookup_insert_ne.
  - rewrite lookup_insert_eq, Hc. simpl. by rewrite obj_Meta_set.
Qed.
Next Obligation.
  intros c o f. simpl. unfold create_or_update. destruct (f _) as [[]|]; simpl; by repeat case_decide.
Qed.
Next Obligation. intros c o f c' r. apply cluster_create_or_update. Qed.
Next Obligation. intros owner m m'. apply cluster_set_controller. Qed.
Next Obligation. intros owner m m' m1 H1 H2 _. by eapply cluster_set_controller_again. Qed.
