(* ===== verification/Deployer.v ===== *)
(** * Deploying gateways ([internal/k8s/reconciler/deployer.go], [internal/consul/namespaces.go])

    Before a gateway is synced to Consul the deployer makes sure that its
    Consul namespace and its Kubernetes objects exist: service account, role
    and binding, the secret with Consul's CA, the deployment and the service.
    Consul's namespace and ACL endpoints are the class [ConsulNamespaces];
    a panic is [None]. *)

From S2P Require Import Prelude Errors Json Core K8s Status GatewayClient Resolver State Converter Objects Builder ApiServer Cluster.

(** ** Consul namespaces ([namespaces.go], [controller.go]) *)

Definition WildcardNamespace : string := "*".
Definition DefaultNamespace : string := "default".

Record PartitionInfo : Type := mkPartitionInfo {
  pi_EnablePartitions : bool;
  pi_PartitionName : string
}.

Definition NewPartitionInfo (partitionName : string) : PartitionInfo :=
  if decide (partitionName = "") then mkPartitionInfo false "" else mkPartitionInfo true partitionName.

Record ACLPolicy : Type := mkACLPolicy {
  pol_Name : string;
  pol_Description : string;
  pol_Rules : string
}.

Record ConsulNamespace : Type := mkConsulNamespace {
  cns_Name : string;
  cns_Description : string;
  cns_PolicyDefaults : list string;
  cns_Meta : gmap string string
}.

(** The namespace and ACL endpoints of Consul, and the escaping that
    [html/template] applies to a value in text. *)
Class ConsulNamespaces (W : Type) : Type := {
  namespaces_Read : W → string → result (option ConsulNamespace);
  namespaces_Create : W → ConsulNamespace → W * option error;
  acl_PolicyCreate : W → ACLPolicy → W * result ACLPolicy;
  acl_PolicyReadByName : W → string → result (option ACLPolicy);
  html_escape : string → string
}.

Record ConsulNamespaceConfig : Type := mkConsulNamespaceConfig {
  cnc_ConsulDestinationNamespace : string;
  cnc_MirrorKubernetesNamespaces : bool;
  cnc_MirrorKubernetesNamespacePrefix : string;
  cnc_PartitionInfo : PartitionInfo
}.

(** The mapper from Kubernetes to Consul namespaces. *)
Definition cnc_Namespace (c : ConsulNamespaceConfig) (namespace : string) : string :=
  let consulNamespace :=
    if cnc_MirrorKubernetesNamespaces c
    then cnc_MirrorKubernetesNamespacePrefix c +:+ namespace
    else cnc_ConsulDestinationNamespace c in
  if decide (consulNamespace = "default") then "" else consulNamespace.

Section namespaces.
Context {MF : MultierrorFormat} {W : Type} {CN : ConsulNamespaces W}.

Definition isPolicyExistsErr (err : error) (policyName : string) : bool :=
  strings_Contains (Error err) "Unexpected response code: 500" &&
  strings_Contains (Error err)
    ("Invalid Policy: A Policy with Name " +:+ strconv_Quote policyName +:+ " already exists").

(** The rendered template, [nl] ending its lines. *)
Definition crossNamespaceRules (partitionInfo : PartitionInfo) : string :=
  let q := String quote_char "" in
  (if pi_EnablePartitions partitionInfo
   then nl +:+ "partition " +:+ q +:+ html_escape (pi_PartitionName partitionInfo) +:+ q +:+ " {"
   else "") +:+
  nl +:+ "  namespace_prefix " +:+ q +:+ q +:+ " {" +:+
  nl +:+ "    service_prefix " +:+ q +:+ q +:+ " {" +:+
  nl +:+ "      policy = " +:+ q +:+ "read" +:+ q +:+
  nl +:+ "    }" +:+
  nl +:+ "    node_prefix " +:+ q +:+ q +:+ " {" +:+
  nl +:+ "      policy = " +:+ q +:+ "read" +:+ q +:+
  nl +:+ "    }" +:+
  nl +:+ "  }" +:+
  (if pi_EnablePartitions partitionInfo then nl +:+ "}" else "").

Definition getOrCreateCrossNamespacePolicy (w : W) (partitionInfo : PartitionInfo) :
    W * result ACLPolicy :=
  let policy := mkACLPolicy "cross-namespace-policy"
    "Policy to allow permissions to cross Consul namespaces for k8s services"
    (crossNamespaceRules partitionInfo) in
  match acl_PolicyCreate w policy with
  | (w, Ok createdPolicy) => (w, Ok createdPolicy)
  | (w, Err err) =>
      if negb (isPolicyExistsErr err (pol_Name policy)) then (w, Err err)
      else match acl_PolicyReadByName w (pol_Name policy) with
           | Err err => (w, Err err)
           | Ok None => (w, Err (ErrString ("failed to read policy " +:+
               strconv_Quote "cross-namespace-policy" +:+ " from consul server")))
           | Ok (Some createdPolicy) => (w, Ok createdPolicy)
           end
  end.

Definition EnsureNamespaceExists (w : W) (ns : string) (partitionInfo : PartitionInfo) :
    W * result bool :=
  if bool_decide (ns = WildcardNamespace) || bool_decide (ns = DefaultNamespace) then (w, Ok false)
  else match namespaces_Read w ns with
  | Err err => (w, Err err)
  | Ok (Some _) => (w, Ok false)
  | Ok None =>
      match getOrCreateCrossNamespacePolicy w partitionInfo with
      | (w, Err err) => (w, Err err)
      | (w, Ok crossNamespacePolicy) =>
          match namespaces_Create w (mkConsulNamespace ns "Auto-generated by consul-api-gateway"
                  [pol_Name crossNamespacePolicy] {["external-source" := "kubernetes"]}) with
          | (w, Some err) => (w, Err err)
          | (w, None) => (w, Ok true)
          end
      end
  end.

End namespaces.

(** ** The deployer ([deployer.go]) *)

Record GatewayDeployer : Type := mkDeployer {
  d_consulCA : string;
  d_primaryDatacenter : string;
  d_sdsHost : string;
  d_sdsPort : Z;
  d_consulNamespaceMirroring : bool;
  d_partitionInfo : PartitionInfo
}.

Section deployer.
Context {EN : Environment} {MF : MultierrorFormat} {W : Type}.
Context {AP : ApiServer W} {CN : ConsulNamespaces W}.

(** Continue unless there was an error. *)
Definition and_then (r : option (W * option error)) (k : W → option (W * option error)) :
    option (W * option error) :=
  match r with
  | Some (w, None) => k w
  | _ => r
  end.

Definition d_Deployment (d : GatewayDeployer) (namespace : string) (config : GatewayClassConfig)
    (gateway : Gateway) (currentReplicas : option Z) : option Deployment :=
  db_Build (WithPrimaryConsulDatacenter (d_primaryDatacenter d)
    (WithConsulGatewayNamespace namespace
    (WithConsulCA (d_consulCA d)
    (WithClassConfig config
    (WithSDS (d_sdsHost d) (d_sdsPort d) (NewGatewayDeployment gateway)))))) currentReplicas.

Definition d_Service (config : GatewayClassConfig) (gateway : Gateway) : option (option Service) :=
  sb_Build (sb_WithClassConfig config (NewGatewayService gateway)).

Definition ensureServiceAccount (config : GatewayClassConfig) (gateway : Gateway) (w : W) :
    option (W * option error) :=
  match ServiceAccountFor config gateway with
  | None => Some (w, None)
  | Some serviceAccount =>
      and_then (Some (EnsureServiceAccount w gateway serviceAccount)) (λ w,
      match RoleFor config gateway with
      | None => Some (w, None)
      | Some role =>
          res ← EnsureExists w (ObjRole role) [];
          match res : W * result bool with
          | (w, Err err) => Some (w, Some err)
          | (w, Ok _) =>
              match RoleBindingFor config gateway with
              | None => Some (w, None)
              | Some binding =>
                  res ← EnsureExists w (ObjRoleBinding binding) [];
                  match res : W * result bool with
                  | (w, Err err) => Some (w, Some err)
                  | (w, Ok _) => Some (w, None)
                  end
              end
          end
      end)
  end.

(** The callback of the object that is created or updated: merge what is
    wanted into it and claim ownership. *)
Definition claim (gateway : Gateway) (o : Object) : option (result Object) :=
  Some (SetControllerOwnership (ObjGateway gateway) o).

Definition mutate_secret (gateway : Gateway) (secret : Secret) : mutator := λ mutated,
  match mutated with
  | ObjSecret mutated => claim gateway (ObjSecret (MergeSecret secret mutated))
  | _ => None
  end.

Definition wrap_update (message : string) (r : option (W * result bool)) :
    option (W * option error) :=
  res ← r;
  match res : W * result bool with
  | (w, Err err) => Some (w, Some (ErrWrap message err))
  | (w, Ok _) => Some (w, None)
  end.

Definition ensureSecret (d : GatewayDeployer) (config : GatewayClassConfig) (gateway : Gateway)
    (w : W) : option (W * option error) :=
  if bool_decide (cs_Scheme (gcc_ConsulSpec (gcc_Spec config)) ≠ "https") then Some (w, None)
  else
    let secret := mkSecret
      (new_meta (om_Name (gw_Meta gateway)) (om_Namespace (gw_Meta gateway))
         (LabelsForGateway gateway) ∅) ""
      {["consul-ca-cert" := d_consulCA d]} in
    wrap_update "failed to create or update gateway secret: "
      (CreateOrUpdateSecret w secret [mutate_secret gateway secret]).

Definition mutate_deployment (gateway : Gateway) (deployment : Deployment) : mutator := λ mutated,
  match mutated with
  | ObjDeployment mutated =>
      mutated ← MergeDeployment deployment mutated;
      claim gateway (ObjDeployment mutated)
  | _ => None
  end.

(** [GetDeployment] of the client, on the written objects. *)
Definition read_Deployment (w : W) (key : NamespacedName) : result (option Deployment) :=
  match api_Get w KDeployment key with
  | Found (ObjDeployment dep) => Ok (Some dep)
  | Found _ | NotFound => Ok None
  | Failed err => Err (ErrK8s err)
  end.

Definition ensureDeployment (d : GatewayDeployer) (namespace : string)
    (config : GatewayClassConfig) (gateway : Gateway) (w : W) : option (W * option error) :=
  match read_Deployment w (gateway_NamespacedName gateway) with
  | Err err => Some (w, Some err)
  | Ok currentDeployment =>
      let currentReplicas := currentDeployment ≫= dep_Replicas in
      deployment ← d_Deployment d namespace config gateway currentReplicas;
      wrap_update "failed to create or update gateway deployment: "
        (CreateOrUpdateDeployment w deployment [mutate_deployment gateway deployment])
  end.

Definition mutate_service (gateway : Gateway) (service : Service) : mutator := λ mutated,
  match mutated with
  | ObjService mutated => claim gateway (ObjService (MergeService service mutated))
  | _ => None
  end.

Definition ensureService (config : GatewayClassConfig) (gateway : Gateway) (w : W) :
    option (W * option error) :=
  built ← d_Service config gateway;
  match built : option Service with
  | None => Some (w, None)
  | Some service =>
      wrap_update "failed to create or update gateway service: "
        (CreateOrUpdateService w service [mutate_service gateway service])
  end.

(** The Consul namespace, when namespaces are mirrored. *)
Definition deploy_namespace (d : GatewayDeployer) (ns : string) (w : W) :
    option (W * option error) :=
  if d_consulNamespaceMirroring d then
    match EnsureNamespaceExists w ns (d_partitionInfo d) with
    | (w, Err err) => Some (w, Some err)
    | (w, Ok _) => Some (w, None)
    end
  else Some (w, None).

Definition Deploy (d : GatewayDeployer) (gateway : K8sGateway) (w : W) :
    option (W * option error) :=
  let gw := kg_Gateway gateway in
  let config := kg_Config gateway in
  and_then (deploy_namespace d (om_Namespace (gw_Meta gw)) w) (λ w,
  and_then (ensureServiceAccount config gw w) (λ w,
  and_then (ensureSecret d config gw w) (λ w,
  and_then (ensureDeployment d (gst_ConsulNamespace (kg_GatewayState gateway)) config gw w) (λ w,
  ensureService config gw w)))).

End deployer.

(** ** Settled clusters *)

Lemma obj_set_Meta_id o : obj_set_Meta (obj_Meta o) o = o.
Proof. by destruct o as [[]|[]|[]|[]|[]|[]|[]|[]|[[]|[]]|[]]. Qed.

(** Consul's endpoints do not touch the cluster. *)
Class SeparateConsul (W : Type) `{LawfulApi W, ConsulNamespaces W} : Prop := {
  namespaces_Create_view : ∀ w ns, view (namespaces_Create w ns).1 = view w;
  acl_PolicyCreate_view : ∀ w p, view (acl_PolicyCreate w p).1 = view w
}.

(** Decide a relation between concrete lists of kinds. *)
Ltac decide_kinds := apply (bool_decide_unpack _); vm_compute; exact I.

Section settled.
Context {EN : Environment} {MF : MultierrorFormat} {W : Type}.
Context {AP : ApiServer W} {LA : LawfulApi W} {CN : ConsulNamespaces W} {SC : SeparateConsul W}.
Implicit Types (w : W) (v : gmap ObjectKey Object).

Lemma SetControllerOwnership_Ok owner o o' :
  SetControllerOwnership owner o = Ok o' →
  obj_key o' = obj_key o ∧
  (∃ refs, o' = obj_set_Meta (om_set_OwnerReferences refs (obj_Meta o)) o ∧
     mkOwnerReference (om_UID (obj_Meta owner)) (om_Name (obj_Meta owner)) true ∈ refs) ∧
  ∀ stored, admits o' stored → SetControllerOwnership owner stored = Ok stored.
Proof using LA.
  unfold SetControllerOwnership.
  destruct (ctrl_SetControllerReference _ (obj_Meta o)) as [m'|] eqn:Hset; [|done].
  intros [= <-]. destruct (SetControllerReference_ok _ _ _ Hset) as (refs & -> & Hin). split_and!.
  - unfold obj_key. by rewrite obj_Kind_set, obj_Meta_set.
  - by exists refs.
  - intros stored (Hkey & _ & _ & Hrefs & _). rewrite obj_Meta_set in Hrefs.
    unfold obj_key in Hkey. rewrite obj_Meta_set in Hkey. injection Hkey as _ Hns _.
    erewrite SetControllerReference_again; [by rewrite obj_set_Meta_id|exact Hset|done|done].
Qed.

(** One object that is created or updated: only its key changes, and with
    success the callback accepted what is stored now. *)
Lemma CreateOrUpdate_ensures w o f w' r :
  controllerutil_CreateOrUpdate w o f = Some (w', r) →
  (∀ k, k ≠ obj_key o → view w' !! k = view w !! k) ∧
  (is_Ok r = true → ∃ o' stored, f (default o (view w !! obj_key o)) = Some (Ok o') ∧
     view w' !! obj_key o = Some stored ∧ admits o' stored).
Proof using LA.
  intros Hcou. apply CreateOrUpdate_effect in Hcou
    as [[Hv (e & ->)]|(o' & Hf & Hk & [[Hcur Hv]|[_ [[Hv Hr]|(stored & Had & Hv)]]])].
  - rewrite Hv. done.
  - rewrite Hv. split; [done|]. intros _. exists o', o'. split_and!; [done|done|apply admits_refl].
  - rewrite Hv. split; [done|]. by rewrite Hr.
  - rewrite Hv, Hk. split; [intros k Hne; by rewrite lookup_insert_ne|].
    intros _. exists o', stored. by rewrite lookup_insert_eq.
Qed.

(** An object the callback leaves alone is not written. *)
Lemma CreateOrUpdate_settled w o f o' :
  view w !! obj_key o = Some o' → f o' = Some (Ok o') →
  ∃ w' r, controllerutil_CreateOrUpdate w o f = Some (w', r) ∧ view w' = view w.
Proof using LA.
  intros Hv Hf. destruct (controllerutil_CreateOrUpdate w o f) as [[w' r]|] eqn:Hcou.
  - exists w', r. split; [done|]. apply CreateOrUpdate_effect in Hcou
      as [[Hv' _]|(o2 & Hf2 & _ & [[_ Hv']|[Hne _]])]; [done|done|].
    rewrite Hv in Hf2. simpl in Hf2. by rewrite Hf in Hf2; injection Hf2 as <-.
  - apply CreateOrUpdate_panic in Hcou. rewrite Hv in Hcou. simpl in Hcou. by rewrite Hf in Hcou.
Qed.

Lemma EnsureNamespaceExists_view w ns p : view (EnsureNamespaceExists w ns p).1 = view w.
Proof using SC.
  unfold EnsureNamespaceExists. destruct (_ || _); [done|].
  destruct (namespaces_Read w ns) as [[|]|]; [done| |done].
  assert (view (getOrCreateCrossNamespacePolicy w p).1 = view w) as Hp.
  { unfold getOrCreateCrossNamespacePolicy. set (policy := mkACLPolicy _ _ _).
    pose proof (acl_PolicyCreate_view w policy) as Hc.
    destruct (acl_PolicyCreate w policy) as [w1 [|err]]; [done|].
    destruct (negb _); [done|]. by destruct (acl_PolicyReadByName _ _) as [[|]|]. }
  destruct (getOrCreateCrossNamespacePolicy w p) as [w1 [policy|]]; [|done]. simpl in Hp.
  match goal with |- context [namespaces_Create w1 ?c] =>
    pose proof (namespaces_Create_view w1 c) as Hn; destruct (namespaces_Create w1 c) as [w2 [|]] end;
    simpl in *; by rewrite Hn.
Qed.

(** *** Service accounts, roles and bindings *)

Definition owned_by (gateway : Gateway) (m : ObjectMeta) : bool :=
  existsb (λ ref, bool_decide (or_UID ref = om_UID (gw_Meta gateway)) &&
                  bool_decide (or_Name ref = om_Name (gw_Meta gateway))) (om_OwnerReferences m).

Definition accounts_settled (config : GatewayClassConfig) (gateway : Gateway) v : Prop :=
  (∀ sa, ServiceAccountFor config gateway = Some sa →
     ∃ o, v !! (KServiceAccount, om_key (sa_Meta sa)) = Some o ∧ owned_by gateway (obj_Meta o) = true) ∧
  (∀ role, RoleFor config gateway = Some role → is_Some (v !! obj_key (ObjRole role))) ∧
  (∀ binding, RoleBindingFor config gateway = Some binding →
     is_Some (v !! obj_key (ObjRoleBinding binding))).

Definition account_kinds : list Kind := [KServiceAccount; KRole; KRoleBinding].

Lemma EnsureServiceAccount_ensures w gateway sa w' err :
  EnsureServiceAccount w gateway sa = (w', err) →
  (∀ k, k ≠ obj_key (ObjServiceAccount sa) → view w' !! k = view w !! k) ∧
  (err = None → ∃ o, view w' !! obj_key (ObjServiceAccount sa) = Some o ∧
     owned_by gateway (obj_Meta o) = true).
Proof using LA.
  unfold EnsureServiceAccount. pose proof (Get_effect w KServiceAccount (om_key (sa_Meta sa))) as Hget.
  destruct (api_Get w KServiceAccount _) as [created| |e].
  - fold (owned_by gateway (obj_Meta created)).
    destruct (owned_by gateway (obj_Meta created)) eqn:Ho; intros [= <- <-]; [|done].
    split; [done|]. intros _. by exists created.
  - destruct (SetControllerOwnership _ _) as [o'|e] eqn:Hset; [|by intros [= <- <-]].
    destruct (api_Create w o') as [w1 err1] eqn:Hcreate. intros [= <- <-].
    apply SetControllerOwnership_Ok in Hset as (Hkey & (refs & Ho' & Hin) & _).
    apply Create_effect in Hcreate as [[Hv Herr]|(stored & Had & Hv)].
    + rewrite Hv. split; [done|]. destruct err1; [done|]. by rewrite bool_decide_true in Herr.
    + rewrite Hv, Hkey. split; [intros k Hne; by rewrite lookup_insert_ne|]. intros _.
      exists stored. rewrite lookup_insert_eq. split; [done|].
      destruct Had as (_ & _ & _ & Hrefs & _). unfold owned_by.
      rewrite Hrefs, Ho', obj_Meta_set. simpl.
      apply existsb_exists. exists (mkOwnerReference (om_UID (gw_Meta gateway)) (om_Name (gw_Meta gateway)) true).
      split; [by apply list_elem_of_In|]. simpl. by rewrite !bool_decide_true.
  - by intros [= <- <-].
Qed.

Lemma EnsureExists_ensures w o w' r :
  EnsureExists w o [] = Some (w', r) →
  (∀ k, k ≠ obj_key o → view w' !! k = view w !! k) ∧
  (is_Ok r = true → is_Some (view w' !! obj_key o)).
Proof using LA.
  unfold EnsureExists. destruct (controllerutil_CreateOrUpdate _ _ _) as [[w1 r1]|] eqn:Hcou; [|done].
  apply CreateOrUpdate_ensures in Hcou as [Hf Hok]. destruct r1 as [op|e]; simpl; intros [= <- <-].
  - split; [done|]. intros _. destruct Hok as (_ & stored & _ & Hs & _); [done|]. by rewrite Hs.
  - done.
Qed.

Lemma EnsureExists_settled w o :
  is_Some (view w !! obj_key o) → ∃ w' r, EnsureExists w o [] = Some (w', r) ∧ view w' = view w.
Proof using LA.
  intros [o' Ho']. unfold EnsureExists.
  destruct (CreateOrUpdate_settled w o (multiMutatorFn []) o' Ho' eq_refl) as (w' & r & -> & Hv).
  destruct r; simpl; eauto.
Qed.

(** Only objects of these kinds with the gateway's name changed. *)
Definition only_changes (kinds : list Kind) (gateway : Gateway) v v' : Prop :=
  ∀ k, k.1 ∉ kinds ∨ k.2 ≠ gateway_NamespacedName gateway → v' !! k = v !! k.

Lemma only_changes_refl kinds gateway v : only_changes kinds gateway v v.
Proof. by intros k _. Qed.

Lemma only_changes_trans kinds gateway v1 v2 v3 :
  only_changes kinds gateway v1 v2 → only_changes kinds gateway v2 v3 →
  only_changes kinds gateway v1 v3.
Proof. intros H12 H23 k Hk. by rewrite H23, H12. Qed.

Lemma only_changes_weaken kinds kinds' gateway v v' :
  kinds ⊆ kinds' → only_changes kinds gateway v v' → only_changes kinds' gateway v v'.
Proof. intros Hsub H k [Hk|Hk]; apply H; [left|by right]. intros Hin. by apply Hk, Hsub. Qed.

Lemma only_changes_key kinds gateway v v' kind :
  kind ∈ kinds → (∀ k, k ≠ (kind, gateway_NamespacedName gateway) → v' !! k = v !! k) →
  only_changes kinds gateway v v'.
Proof. intros Hin H [kd nn] Hk. apply H. intros [= -> ->]. simpl in Hk. by destruct Hk. Qed.

Lemma account_keys config gateway :
  (∀ sa, ServiceAccountFor config gateway = Some sa →
     obj_key (ObjServiceAccount sa) = (KServiceAccount, gateway_NamespacedName gateway)) ∧
  (∀ role, RoleFor config gateway = Some role →
     obj_key (ObjRole role) = (KRole, gateway_NamespacedName gateway)) ∧
  (∀ binding, RoleBindingFor config gateway = Some binding →
     obj_key (ObjRoleBinding binding) = (KRoleBinding, gateway_NamespacedName gateway)).
Proof.
  unfold RoleBindingFor, ServiceAccountFor, RoleFor. split_and!; intros o; simpl;
    destruct (negb _); simpl; try done; try (by intros [= <-]);
    destruct (bool_decide _); simpl; try done; by intros [= <-].
Qed.

Lemma ensureServiceAccount_ensures config gateway w w' err :
  ensureServiceAccount config gateway w = Some (w', err) →
  only_changes account_kinds gateway (view w) (view w') ∧
  (err = None → accounts_settled config gateway (view w')).
Proof using LA.
  destruct (account_keys config gateway) as (Hsak & Hrk & Hbk).
  unfold ensureServiceAccount, accounts_settled.
  destruct (ServiceAccountFor config gateway) as [sa|] eqn:Hsa.
  2:{ intros [= <- <-]. split; [apply only_changes_refl|]. intros _.
      unfold RoleBindingFor, RoleFor in *. rewrite Hsa. unfold ServiceAccountFor in Hsa.
      destruct (negb _); [|done]. simpl. by split_and!. }
  specialize (Hsak sa eq_refl).
  destruct (EnsureServiceAccount w gateway sa) as [w1 err1] eqn:Hesa.
  apply EnsureServiceAccount_ensures in Hesa as [Hf1 Hok1]. rewrite Hsak in Hf1, Hok1.
  apply (only_changes_key account_kinds) in Hf1; [|by left].
  destruct err1 as [e1|]; simpl; [by intros [= <- <-]|]. specialize (Hok1 eq_refl).
  destruct (RoleFor config gateway) as [role|] eqn:Hrole.
  2:{ intros [= <- <-]. split; [done|]. intros _. unfold RoleBindingFor. rewrite Hsa, Hrole. simpl.
      split_and!; [|done|done]. intros sa' [= <-]. change (om_key (sa_Meta sa)) with (obj_key (ObjServiceAccount sa)).2.
      by rewrite Hsak. }
  specialize (Hrk role eq_refl).
  destruct (EnsureExists w1 (ObjRole role) []) as [[w2 r2]|] eqn:He2; [|done].
  apply EnsureExists_ensures in He2 as [Hf2 Hok2]. rewrite Hrk in Hf2, Hok2.
  pose proof Hf2 as Hg2. apply (only_changes_key account_kinds) in Hf2; [|by right; left].
  destruct r2 as [b2|e2]; simpl; [|intros [= <- <-]; split; [by eapply only_changes_trans|done]].
  specialize (Hok2 eq_refl).
  destruct (RoleBindingFor config gateway) as [binding|] eqn:Hb.
  2:{ unfold RoleBindingFor in Hb. by rewrite Hsa, Hrole in Hb. }
  specialize (Hbk binding eq_refl).
  destruct (EnsureExists w2 (ObjRoleBinding binding) []) as [[w3 r3]|] eqn:He3; [|done].
  apply EnsureExists_ensures in He3 as [Hf3 Hok3]. rewrite Hbk in Hf3, Hok3.
  pose proof Hf3 as Hg3. apply (only_changes_key account_kinds) in Hf3; [|by right; right; left].
  assert (only_changes account_kinds gateway (view w) (view w3)) as Hall
    by (eapply only_changes_trans; [done|]; by eapply only_changes_trans).
  destruct r3 as [b3|e3]; simpl; intros [= <- <-]; [|done]. split; [done|]. intros _.
  split_and!.
  - intros sa' [= <-]. change (om_key (sa_Meta sa)) with (obj_key (ObjServiceAccount sa)).2.
    rewrite Hsak. cbn [snd]. by rewrite Hg3, Hg2.
  - intros role' [= <-]. rewrite Hrk. by rewrite Hg3.
  - intros binding' [= <-]. rewrite Hbk. by apply Hok3.
Qed.

Lemma ensureServiceAccount_settled config gateway w :
  accounts_settled config gateway (view w) →
  ∃ w' err, ensureServiceAccount config gateway w = Some (w', err) ∧ view w' = view w.
Proof using LA.
  unfold accounts_settled, ensureServiceAccount. intros (Hsa & Hrole & Hb).
  destruct (ServiceAccountFor config gateway) as [sa|]; [|eauto].
  destruct (Hsa sa eq_refl) as (o & Ho & Hown).
  assert (∃ err, EnsureServiceAccount w gateway sa = (w, err)) as [err ->].
  { unfold EnsureServiceAccount. pose proof (Get_effect w KServiceAccount (om_key (sa_Meta sa))) as Hget.
    destruct (api_Get w KServiceAccount _) as [created| |e]; [|by rewrite Ho in Hget|eauto].
    rewrite Ho in Hget. injection Hget as <-. fold (owned_by gateway (obj_Meta o)).
    rewrite Hown. eauto. }
  destruct err as [err|]; simpl; [eauto|].
  destruct (RoleFor config gateway) as [role|]; [|eauto].
  destruct (EnsureExists_settled w (ObjRole role)) as (w1 & r1 & -> & Hv1); [by apply Hrole|].
  destruct r1 as [b1|e1]; simpl; [|eauto].
  destruct (RoleBindingFor config gateway) as [binding|]; [|eauto].
  destruct (EnsureExists_settled w1 (ObjRoleBinding binding)) as (w2 & r2 & -> & Hv2);
    [rewrite Hv1; by apply Hb|].
  destruct r2; simpl; eexists _, _; (split; [done|]); by rewrite Hv2, Hv1.
Qed.

(** *** Merged objects *)

(** A callback run through a client method whose error is wrapped. *)
Lemma update_ensures message w o f w' err :
  wrap_update message (EnsureExists w o [f]) = Some (w', err) →
  (∀ k, k ≠ obj_key o → view w' !! k = view w !! k) ∧
  (err = None → ∃ o' stored, f (default o (view w !! obj_key o)) = Some (Ok o') ∧
     view w' !! obj_key o = Some stored ∧ admits o' stored).
Proof using LA.
  unfold wrap_update, EnsureExists.
  destruct (controllerutil_CreateOrUpdate _ _ _) as [[w1 r1]|] eqn:Hcou; [|done].
  apply CreateOrUpdate_ensures in Hcou as [Hf Hok].
  destruct r1 as [op|e]; simpl; intros [= <- <-]; (split; [done|]); [intros _|done].
  destruct Hok as (o' & stored & Hm & Hs & Had); [done|]. exists o', stored.
  split_and!; [|done|done]. simpl in Hm. destruct (f _) as [[o1|]|]; by simpl in Hm.
Qed.

Lemma update_settled message w o f o' :
  view w !! obj_key o = Some o' → f o' = Some (Ok o') →
  ∃ w' err, wrap_update message (EnsureExists w o [f]) = Some (w', err) ∧ view w' = view w.
Proof using LA.
  intros Hv Hf. unfold wrap_update, EnsureExists.
  destruct (CreateOrUpdate_settled w o (multiMutatorFn [f]) o' Hv) as (w' & r & -> & Hw).
  { simpl. by rewrite Hf. }
  destruct r; simpl; eauto.
Qed.

Lemma claim_Ok gateway o o' :
  claim gateway o = Some (Ok o') →
  SetControllerOwnership (ObjGateway gateway) o = Ok o'.
Proof. by intros [= ->]. Qed.

Lemma claim_stored gateway o o' stored :
  claim gateway o = Some (Ok o') → admits o' stored → claim gateway stored = Some (Ok stored).
Proof using LA.
  intros Hc%claim_Ok Had. apply SetControllerOwnership_Ok in Hc as (_ & _ & Hagain).
  unfold claim. by rewrite Hagain.
Qed.

(** The annotations and the spec survive the claim and the server. *)
Lemma claim_secret gateway s o' stored :
  claim gateway (ObjSecret s) = Some (Ok o') → admits o' stored →
  ∃ s', stored = ObjSecret s' ∧ sec_Data s' = sec_Data s ∧
    om_Annotations (sec_Meta s') = om_Annotations (sec_Meta s).
Proof using LA.
  intros Hc%claim_Ok Had. apply SetControllerOwnership_Ok in Hc as (_ & (refs & -> & _) & _).
  destruct Had as (_ & _ & Han & _ & _ & Hspec). simpl in *.
  destruct stored; try done. exists o. by rewrite Hspec.
Qed.

Lemma claim_service gateway s o' stored :
  claim gateway (ObjService s) = Some (Ok o') → admits o' stored →
  ∃ s', stored = ObjService s' ∧ svc_Ports s' = svc_Ports s ∧
    (svc_Type s' = svc_Type s ∧ svc_Selector s' = svc_Selector s) ∧
    om_Annotations (svc_Meta s') = om_Annotations (svc_Meta s).
Proof using LA.
  intros Hc%claim_Ok Had. apply SetControllerOwnership_Ok in Hc as (_ & (refs & -> & _) & _).
  destruct Had as (_ & _ & Han & _ & _ & Hspec). simpl in *.
  destruct stored; try done. exists o. destruct Hspec as (-> & -> & ->). done.
Qed.

Lemma claim_deployment gateway s o' stored :
  claim gateway (ObjDeployment s) = Some (Ok o') → admits o' stored →
  ∃ s', stored = ObjDeployment s' ∧ dep_Replicas s' = dep_Replicas s ∧
    dep_Template s' = dep_Template s ∧ dep_MatchLabels s' = dep_MatchLabels s.
Proof using LA.
  intros Hc%claim_Ok Had. apply SetControllerOwnership_Ok in Hc as (_ & (refs & -> & _) & _).
  destruct Had as (_ & _ & _ & _ & _ & Hspec). simpl in *.
  destruct stored; try done. exists o. by destruct Hspec as (-> & -> & ->).
Qed.

(** The gateway is recorded as the controller of an object. *)
Definition controlled_by (gateway : Gateway) (o : Object) : Prop :=
  mkOwnerReference (om_UID (gw_Meta gateway)) (om_Name (gw_Meta gateway)) true
    ∈ om_OwnerReferences (obj_Meta o).

Lemma claim_controlled gateway o o' stored :
  claim gateway o = Some (Ok o') → admits o' stored → controlled_by gateway stored.
Proof using LA.
  intros Hc%claim_Ok (_ & _ & _ & Hrefs & _).
  apply SetControllerOwnership_Ok in Hc as (_ & (refs & -> & Hin) & _).
  unfold controlled_by. rewrite Hrefs, obj_Meta_set. done.
Qed.

(** *** The secret *)

Definition gateway_secret (d : GatewayDeployer) (gateway : Gateway) : Secret :=
  mkSecret (new_meta (om_Name (gw_Meta gateway)) (om_Namespace (gw_Meta gateway))
    (LabelsForGateway gateway) ∅) "" {["consul-ca-cert" := d_consulCA d]}.

Definition secret_settled (d : GatewayDeployer) (config : GatewayClassConfig) (gateway : Gateway) v :
    Prop :=
  requiresCA config = true →
  ∃ s, v !! (KSecret, gateway_NamespacedName gateway) = Some (ObjSecret s) ∧
    sec_Data s = {["consul-ca-cert" := d_consulCA d]} ∧ controlled_by gateway (ObjSecret s) ∧
    mutate_secret gateway (gateway_secret d gateway) (ObjSecret s) = Some (Ok (ObjSecret s)).

Lemma mutate_secret_stored gateway a o o' stored :
  mutate_secret gateway a o = Some (Ok o') → admits o' stored →
  ∃ s, stored = ObjSecret s ∧ sec_Data s = sec_Data a ∧ controlled_by gateway stored ∧
    mutate_secret gateway a stored = Some (Ok stored).
Proof using LA.
  destruct o as [| | |b| | | | | |]; try done. simpl. intros Hc Had.
  destruct (claim_secret _ _ _ _ Hc Had) as (s & Hs & Hd & Han). exists s. subst stored.
  assert (compareSecrets a (MergeSecret a b) = true) as Hm.
  { unfold MergeSecret. destruct (compareSecrets a b) eqn:Hab; [done|].
    by apply compareSecrets_same_data. }
  assert (MergeSecret a s = s) as Has.
  { unfold MergeSecret at 1. replace (compareSecrets a s) with true; [done|].
    rewrite <-Hm. unfold compareSecrets. by rewrite Hd, Han. }
  split_and!; [done| |by eapply claim_controlled|].
  - rewrite Hd. by apply compareSecrets_data.
  - simpl. rewrite Has. by eapply claim_stored.
Qed.

Lemma ensureSecret_ensures d config gateway w w' err :
  ensureSecret d config gateway w = Some (w', err) →
  only_changes [KSecret] gateway (view w) (view w') ∧
  (err = None → secret_settled d config gateway (view w')).
Proof using LA.
  unfold ensureSecret, secret_settled, requiresCA. case_bool_decide as Hs.
  { intros [= <- <-]. split; [apply only_changes_refl|]. intros _ Hr.
    by apply bool_decide_eq_true in Hr. }
  fold (gateway_secret d gateway). intros [Hf Hok]%(update_ensures _ _ (ObjSecret _)).
  split; [eapply only_changes_key; [by left|exact Hf]|].
  intros (o' & stored & Hm & Hst & Had)%Hok _.
  destruct (mutate_secret_stored _ _ _ _ _ Hm Had) as (s & -> & Hd & Hc & Hagain).
  by exists s.
Qed.

Lemma ensureSecret_settled d config gateway w :
  secret_settled d config gateway (view w) →
  ∃ w' err, ensureSecret d config gateway w = Some (w', err) ∧ view w' = view w.
Proof using LA.
  intros Hsettled. unfold ensureSecret. case_bool_decide as Hs; [eauto|].
  destruct Hsettled as (s & Hv & _ & _ & Hm); [by apply bool_decide_eq_true|].
  by apply (update_settled _ w (ObjSecret (gateway_secret d gateway)) _ (ObjSecret s)).
Qed.

(** *** The service *)

(** The service of the cluster serves what the wanted one does. *)
Definition serves (wanted s : Service) : Prop := compareServices wanted s = true.

Definition service_settled (config : GatewayClassConfig) (gateway : Gateway) v : Prop :=
  ∀ wanted, d_Service config gateway = Some (Some wanted) →
  ∃ s, v !! (KService, gateway_NamespacedName gateway) = Some (ObjService s) ∧
    serves wanted s ∧ controlled_by gateway (ObjService s) ∧
    mutate_service gateway wanted (ObjService s) = Some (Ok (ObjService s)).

Lemma mutate_service_stored gateway a o o' stored :
  mutate_service gateway a o = Some (Ok o') → admits o' stored →
  ∃ s, stored = ObjService s ∧ serves a s ∧ controlled_by gateway stored ∧
    mutate_service gateway a stored = Some (Ok stored).
Proof using LA.
  destruct o as [| | | | |b| | | |]; try done. simpl. intros Hc Had.
  destruct (claim_service _ _ _ _ Hc Had) as (s & Hs & Hp & _ & Han). exists s. subst stored.
  assert (serves a s) as Has.
  { unfold serves. rewrite <-(compareServices_merged a b). unfold compareServices.
    by rewrite Hp, Han. }
  split_and!; [done|done|by eapply claim_controlled|].
  simpl. replace (MergeService a s) with s by (unfold MergeService; by rewrite Has).
  by eapply claim_stored.
Qed.

Lemma d_Service_key config gateway s :
  d_Service config gateway = Some (Some s) →
  obj_key (ObjService s) = (KService, gateway_NamespacedName gateway).
Proof.
  unfold d_Service, sb_Build. simpl.
  destruct (gcc_ServiceType (gcc_Spec config)); [by intros [= <-]|done].
Qed.

Lemma ensureService_ensures config gateway w w' err :
  ensureService config gateway w = Some (w', err) →
  only_changes [KService] gateway (view w) (view w') ∧
  (err = None → service_settled config gateway (view w')).
Proof using LA.
  unfold ensureService, service_settled. destruct (d_Service config gateway) as [[s|]|] eqn:Hs;
    [|simpl; intros [= <- <-]; by split; [apply only_changes_refl|]|done].
  simpl. apply d_Service_key in Hs.
  intros [Hf Hok]%(update_ensures _ _ (ObjService _)). rewrite Hs in Hf, Hok.
  split; [eapply only_changes_key; [by left|exact Hf]|].
  intros (o' & stored & Hm & Hst & Had)%Hok wanted [= <-].
  destruct (mutate_service_stored _ _ _ _ _ Hm Had) as (s' & -> & Hd & Hc & Hagain).
  by exists s'.
Qed.

Lemma ensureService_settled config gateway w :
  service_settled config gateway (view w) →
  ∃ w' err, ensureService config gateway w = Some (w', err) ∧ view w' = view w.
Proof using LA.
  unfold ensureService, service_settled. intros Hsettled.
  destruct (d_Service config gateway) as [[s|]|] eqn:Hs; [|simpl; eauto|by unfold d_Service, sb_Build in Hs].
  simpl. destruct (Hsettled s eq_refl) as (s' & Hv & _ & _ & Hm).
  apply (update_settled _ w (ObjService s) _ (ObjService s')); [|done].
  by rewrite (d_Service_key _ _ _ Hs).
Qed.

(** *** The deployment *)

(** The deployment that is built when there are that many replicas. *)
Definition gateway_deployment (d : GatewayDeployer) (namespace : string)
    (config : GatewayClassConfig) (gateway : Gateway) (currentReplicas : option Z) : Deployment :=
  let b := WithPrimaryConsulDatacenter (d_primaryDatacenter d)
    (WithConsulGatewayNamespace namespace (WithConsulCA (d_consulCA d)
    (WithClassConfig config (WithSDS (d_sdsHost d) (d_sdsPort d) (NewGatewayDeployment gateway))))) in
  mkDeployment (new_meta (om_Name (gw_Meta gateway)) (om_Namespace (gw_Meta gateway))
      (LabelsForGateway gateway) ∅)
    (Some (instances config currentReplicas)) (LabelsForGateway gateway)
    (mkPodTemplateSpec (LabelsForGateway gateway) {["consul.hashicorp.com/connect-inject" := "false"]}
       (podSpec b config)).

Lemma d_Deployment_Some d namespace config gateway currentReplicas :
  d_Deployment d namespace config gateway currentReplicas =
  Some (gateway_deployment d namespace config gateway currentReplicas).
Proof. reflexivity. Qed.

Lemma instances_idemp config r : instances config (Some (instances config r)) = instances config r.
Proof.
  unfold instances. set (spec := gcc_DeploymentSpec (gcc_Spec config)).
  set (n := match r with Some current => current | None => _ end). clearbody n.
  destruct (ds_MaxInstances spec) as [hi|], (ds_MinInstances spec) as [lo|];
    repeat match goal with
    | |- context [(?a <? ?b)%Z] => destruct (Z.ltb_spec a b)
    | H : context [(?a <? ?b)%Z] |- _ => destruct (Z.ltb_spec a b)
    end; lia.
Qed.

(** The deployment of the cluster runs what the wanted one does: containers
    with its ports, that many times. *)
Definition runs (wanted dep : Deployment) : Prop := compareDeployments wanted dep = Some true.

Definition deployment_settled (d : GatewayDeployer) (namespace : string)
    (config : GatewayClassConfig) (gateway : Gateway) v : Prop :=
  ∃ dep, v !! (KDeployment, gateway_NamespacedName gateway) = Some (ObjDeployment dep) ∧
    controlled_by gateway (ObjDeployment dep) ∧
    let wanted := gateway_deployment d namespace config gateway (dep_Replicas dep) in
    runs wanted dep ∧
    mutate_deployment gateway wanted (ObjDeployment dep) = Some (Ok (ObjDeployment dep)).

Lemma runs_replicas wanted dep : runs wanted dep → dep_Replicas dep = dep_Replicas wanted.
Proof.
  unfold runs, compareDeployments. destruct (forallb2 _ _ _); [|done].
  destruct (dep_Replicas dep), (dep_Replicas wanted); simpl; try done.
  intros [= ->%bool_decide_eq_true]. done.
Qed.

Lemma MergeDeployment_runs wanted b m :
  is_Some (dep_Replicas wanted) → MergeDeployment wanted b = Some m → runs wanted m.
Proof.
  unfold MergeDeployment, runs. intros [n Hn].
  destruct (compareDeployments wanted b) as [[|]|] eqn:Hc; simpl; intros [= <-]; [done|].
  unfold compareDeployments. simpl. rewrite forallb2_refl by apply same_ports_refl.
  rewrite Hn. simpl. by rewrite bool_decide_true.
Qed.

Lemma mutate_deployment_stored gateway a o o' stored :
  mutate_deployment gateway a o = Some (Ok o') → admits o' stored → is_Some (dep_Replicas a) →
  ∃ dep, stored = ObjDeployment dep ∧ runs a dep ∧ controlled_by gateway stored ∧
    mutate_deployment gateway a stored = Some (Ok stored).
Proof using LA.
  destruct o as [| | | |b| | | | |]; try done. simpl.
  destruct (MergeDeployment a b) as [m|] eqn:Hm; [|done]. simpl. intros Hc Had Hn.
  destruct (claim_deployment _ _ _ _ Hc Had) as (dep & Hs & Hr & Ht & _). exists dep. subst stored.
  assert (runs a dep) as Hruns.
  { apply MergeDeployment_runs in Hm; [|done]. revert Hm. unfold runs, compareDeployments.
    by rewrite Hr, Ht. }
  split_and!; [done|done|by eapply claim_controlled|].
  simpl. unfold MergeDeployment. rewrite Hruns. simpl. by eapply claim_stored.
Qed.

Lemma read_Deployment_effect w key r :
  read_Deployment w key = Ok r →
  r = match view w !! (KDeployment, key) with Some (ObjDeployment dep) => Some dep | _ => None end.
Proof using LA.
  unfold read_Deployment. pose proof (Get_effect w KDeployment key) as Hget.
  destruct (api_Get w KDeployment key) as [o| |]; [rewrite Hget|rewrite Hget|done].
  - destruct o; by intros [= <-].
  - by intros [= <-].
Qed.

(** The replicas of the deployment of the gateway in the cluster. *)
Definition current_replicas (gateway : Gateway) v : option Z :=
  match v !! (KDeployment, gateway_NamespacedName gateway) with
  | Some (ObjDeployment dep) => dep_Replicas dep
  | _ => None
  end.

Lemma ensureDeployment_ensures d namespace config gateway w w' err :
  ensureDeployment d namespace config gateway w = Some (w', err) →
  only_changes [KDeployment] gateway (view w) (view w') ∧
  (err = None →
   deployment_settled d namespace config gateway (view w') ∧
   current_replicas gateway (view w') = Some (instances config (current_replicas gateway (view w)))).
Proof using LA.
  unfold ensureDeployment.
  destruct (read_Deployment w _) as [current|e] eqn:Hread;
    [|intros [= <- <-]; by split; [apply only_changes_refl|]].
  apply read_Deployment_effect in Hread.
  replace (current ≫= dep_Replicas) with (current_replicas gateway (view w))
    by (rewrite Hread; unfold current_replicas; by destruct (view w !! _) as [[]|]).
  rewrite d_Deployment_Some. cbn [mbind option_bind].
  intros [Hf Hok]%(update_ensures _ _ (ObjDeployment _)).
  split; [eapply only_changes_key; [by left|exact Hf]|].
  intros (o' & stored & Hm & Hst & Had)%Hok.
  destruct (mutate_deployment_stored _ _ _ _ _ Hm Had) as (dep & -> & Hruns & Hc & Hagain);
    [by eexists|].
  pose proof (runs_replicas _ _ Hruns) as Hr. cbn in Hr.
  unfold current_replicas at 1.
  change (view w' !! (KDeployment, gateway_NamespacedName gateway) = Some (ObjDeployment dep)) in Hst.
  rewrite Hst. split; [|done].
  exists dep. split_and!; [done|done|..]; cbn zeta; rewrite Hr; unfold gateway_deployment;
    rewrite instances_idemp; done.
Qed.

Lemma ensureDeployment_settled d namespace config gateway w :
  deployment_settled d namespace config gateway (view w) →
  ∃ w' err, ensureDeployment d namespace config gateway w = Some (w', err) ∧ view w' = view w.
Proof using LA.
  intros (dep & Hv & _ & _ & Hm). unfold ensureDeployment.
  destruct (read_Deployment w _) as [current|e] eqn:Hread; [|eauto].
  apply read_Deployment_effect in Hread. rewrite Hv in Hread. subst current.
  cbn [mbind option_bind]. rewrite d_Deployment_Some. cbn [mbind option_bind].
  by apply (update_settled _ w (ObjDeployment _) _ (ObjDeployment dep)).
Qed.

(** *** The whole deployment *)

(** The cluster is as the gateway wants it: everything exists, belongs to the
    gateway, runs and serves what is wanted, and would be left alone. *)
Definition deployed (d : GatewayDeployer) (gateway : K8sGateway) v : Prop :=
  let gw := kg_Gateway gateway in
  let config := kg_Config gateway in
  accounts_settled config gw v ∧
  secret_settled d config gw v ∧
  deployment_settled d (gst_ConsulNamespace (kg_GatewayState gateway)) config gw v ∧
  service_settled config gw v.

Lemma only_changes_lookup kinds gateway v v' kind n :
  only_changes kinds gateway v v' → kind ∉ kinds → v' !! (kind, n) = v !! (kind, n).
Proof. intros H Hk. apply H. by left. Qed.

Lemma accounts_settled_frame kinds config gateway v v' :
  only_changes kinds gateway v v' → Forall (λ k, k ∉ kinds) account_kinds →
  accounts_settled config gateway v → accounts_settled config gateway v'.
Proof.
  intros Hch Hall (Hsa & Hr & Hb). unfold account_kinds in Hall. rewrite !Forall_cons in Hall.
  destruct Hall as (H1 & H2 & H3 & _).
  unfold accounts_settled, obj_key in *. cbn [obj_Kind] in *. split_and!; intros o Ho;
    rewrite (only_changes_lookup _ _ _ _ _ _ Hch); auto.
Qed.

Lemma secret_settled_frame kinds d config gateway v v' :
  only_changes kinds gateway v v' → KSecret ∉ kinds →
  secret_settled d config gateway v → secret_settled d config gateway v'.
Proof.
  intros Hch Hk Hs Hr. destruct (Hs Hr) as (s & Hv & H). exists s.
  by rewrite (only_changes_lookup _ _ _ _ _ _ Hch).
Qed.

Lemma deployment_settled_frame kinds d namespace config gateway v v' :
  only_changes kinds gateway v v' → KDeployment ∉ kinds →
  deployment_settled d namespace config gateway v →
  deployment_settled d namespace config gateway v'.
Proof.
  intros Hch Hk (dep & Hv & H). exists dep. by rewrite (only_changes_lookup _ _ _ _ _ _ Hch).
Qed.

Lemma current_replicas_frame kinds gateway v v' :
  only_changes kinds gateway v v' → KDeployment ∉ kinds →
  current_replicas gateway v' = current_replicas gateway v.
Proof.
  intros Hch Hk. unfold current_replicas. by rewrite (only_changes_lookup _ _ _ _ _ _ Hch).
Qed.

Lemma and_then_Some r k w' err :
  and_then r k = Some (w', err) →
  (∃ w1, r = Some (w1, None) ∧ k w1 = Some (w', err)) ∨ (∃ e, r = Some (w', Some e) ∧ err = Some e).
Proof.
  destruct r as [[w1 [e|]]|]; simpl; [intros [= <- <-]; right; eauto|intros; left; eauto|done].
Qed.

(** The step that makes the Consul namespace leaves the cluster alone. *)
Lemma deploy_namespace_view d ns w :
  ∃ w' err, deploy_namespace d ns w = Some (w', err) ∧ view w' = view w.
Proof using SC.
  unfold deploy_namespace. destruct (d_consulNamespaceMirroring d); [|eauto].
  pose proof (EnsureNamespaceExists_view w ns (d_partitionInfo d)) as Hv.
  destruct (EnsureNamespaceExists w ns _) as [w1 [|]]; simpl in Hv; eauto.
Qed.

Definition deployed_kinds : list Kind :=
  [KServiceAccount; KRole; KRoleBinding; KSecret; KDeployment; KService].

Lemma only_changes_deployed kind gateway v v' :
  only_changes [kind] gateway v v' → kind ∈ deployed_kinds →
  only_changes deployed_kinds gateway v v'.
Proof. intros H Hin. eapply only_changes_weaken; [|exact H]. by intros k ->%list_elem_of_singleton. Qed.

Lemma Deploy_ensures d gateway w w' err :
  Deploy d gateway w = Some (w', err) →
  let gw := kg_Gateway gateway in
  only_changes deployed_kinds gw (view w) (view w') ∧
  (err = None → deployed d gateway (view w') ∧
   current_replicas gw (view w') = Some (instances (kg_Config gateway) (current_replicas gw (view w)))).
Proof using SC.
  intros Hd gw. unfold Deploy in Hd. fold gw in Hd.
  destruct (deploy_namespace_view d (om_Namespace (gw_Meta gw)) w) as (w0 & e0 & Hns & Hv0).
  rewrite Hns in Hd. rewrite <-Hv0. clear Hns Hv0.
  destruct e0 as [e0|]; simpl in Hd.
  { injection Hd as <- <-. split; [apply only_changes_refl|done]. }
  apply and_then_Some in Hd as [(w1 & [C1 S1]%ensureServiceAccount_ensures & Hd)
                               |(e & [C1 _]%ensureServiceAccount_ensures & ->)];
    apply (only_changes_weaken _ deployed_kinds) in C1 as D1; [|by decide_kinds|done|by decide_kinds].
  specialize (S1 eq_refl).
  apply and_then_Some in Hd as [(w2 & [C2 S2]%ensureSecret_ensures & Hd)
                               |(e & [C2 _]%ensureSecret_ensures & ->)];
    (apply only_changes_deployed in C2 as D2; [|by decide_kinds]);
    (eapply only_changes_trans in D2; [|exact D1]); [|done].
  specialize (S2 eq_refl).
  apply and_then_Some in Hd as [(w3 & [C3 S3]%ensureDeployment_ensures & Hd)
                               |(e & [C3 _]%ensureDeployment_ensures & ->)];
    (apply only_changes_deployed in C3 as D3; [|by decide_kinds]);
    (eapply only_changes_trans in D3; [|exact D2]); [|done].
  destruct (S3 eq_refl) as [S3' R3]. clear S3.
  apply ensureService_ensures in Hd as [C4 S4].
  apply only_changes_deployed in C4 as D4; [|by decide_kinds].
  eapply only_changes_trans in D4; [|exact D3].
  split; [done|]. intros ->. specialize (S4 eq_refl). split.
  - split_and!; [| | |done].
    + apply (accounts_settled_frame _ _ _ _ _ C4); [by decide_kinds|].
      apply (accounts_settled_frame _ _ _ _ _ C3); [by decide_kinds|].
      by apply (accounts_settled_frame _ _ _ _ _ C2); [decide_kinds|].
    + apply (secret_settled_frame _ _ _ _ _ _ C4); [by decide_kinds|].
      by apply (secret_settled_frame _ _ _ _ _ _ C3); [decide_kinds|].
    + by apply (deployment_settled_frame _ _ _ _ _ _ _ C4); [decide_kinds|].
  - rewrite (current_replicas_frame _ _ _ _ C4) by decide_kinds. rewrite R3. do 2 f_equal.
    rewrite (current_replicas_frame _ _ _ _ C2) by decide_kinds.
    by rewrite (current_replicas_frame _ _ _ _ C1) by decide_kinds.
Qed.

Lemma and_then_settled r k w :
  (∃ w1 err, r = Some (w1, err) ∧ view w1 = view w) →
  (∀ w1, view w1 = view w → ∃ w2 err, k w1 = Some (w2, err) ∧ view w2 = view w) →
  ∃ w' err, and_then r k = Some (w', err) ∧ view w' = view w.
Proof. intros (w1 & [e|] & -> & Hv) Hk; simpl; eauto. Qed.

Lemma Deploy_settled d gateway w :
  deployed d gateway (view w) →
  ∃ w' err, Deploy d gateway w = Some (w', err) ∧ view w' = view w.
Proof using SC.
  intros (Sa & Ss & Sd & Sv). unfold Deploy.
  apply and_then_settled; [apply deploy_namespace_view|]. intros w1 Hv1. rewrite <-Hv1 in *.
  apply and_then_settled; [by apply ensureServiceAccount_settled|]. intros w2 Hv2.
  rewrite <-Hv2 in *.
  apply and_then_settled; [by apply ensureSecret_settled|]. intros w3 Hv3. rewrite <-Hv3 in *.
  apply and_then_settled; [by apply ensureDeployment_settled|]. intros w4 Hv4. rewrite <-Hv4 in *.
  by apply ensureService_settled.
Qed.

End settled.

(** ** What is deployed *)







(** ** What the class configuration prescribes

    Written from the settings, without the builders. *)



Section prescribed.
Context {EN : Environment}.
Context (d : GatewayDeployer) (namespace : string) (config : GatewayClassConfig) (gw : Gateway).

#[local] Abbreviation spec := (gcc_Spec config).
#[local] Abbreviation consul := (gcc_ConsulSpec spec).
#[local] Abbreviation auth := (cs_AuthSpec consul).
#[local] Abbreviation https := (bool_decide (cs_Scheme consul = "https")).







(** *** The objects after a deployment, by what was there before *)








(** *** The builders build what is prescribed *)




#[local] Abbreviation builder :=
  (WithPrimaryConsulDatacenter (d_primaryDatacenter d) (WithConsulGatewayNamespace namespace
    (WithConsulCA (d_consulCA d) (WithClassConfig config
      (WithSDS (d_sdsHost d) (d_sdsPort d) (NewGatewayDeployment gw)))))).



End prescribed.




Section deployment.
Context {EN : Environment} {MF : MultierrorFormat} {W : Type}.
Context {AP : ApiServer W} {LA : LawfulApi W} {CN : ConsulNamespaces W} {SC : SeparateConsul W}.

(** *** One object after the other *)











(** C29: deploying settles.  After a deployment that succeeded, deploying the
    gateway again, in whatever world with the same cluster, neither panics nor
    changes a single object, whatever it returns: the replica count it reads
    back is the one it wrote, the merges find nothing to change and the owner
    is already recorded.  Repeated reconciliations therefore do not make the
    cluster flap. *)
Theorem deploy_converges (d : GatewayDeployer) (gateway : K8sGateway) (w w' w1 : W) :
  Deploy d gateway w = Some (w', None) → view w1 = view w' →
  ∃ w2 err, Deploy d gateway w1 = Some (w2, err) ∧ view w2 = view w'.
Proof using SC.
  intros [_ Hok]%Deploy_ensures Hv. destruct (Hok eq_refl) as [Hd _]. rewrite <-Hv in *.
  by apply Deploy_settled.
Qed.

End deployment.

(** ** Examples *)

Module DeployerExamples.

(** Consul without namespaces to mirror. *)
Definition no_namespaces : ConsulNamespaces cluster := {|
  namespaces_Read _ ns := Ok (Some (mkConsulNamespace ns "" [] ∅));
  namespaces_Create c _ := (c, None);
  acl_PolicyCreate c p := (c, Ok p);
  acl_PolicyReadByName _ _ := Ok None;
  html_escape s := s
|}.

#[export] Existing Instance no_namespaces.
#[export] Existing Instance BuilderExamples.environment.

#[export] Instance no_namespaces_separate : SeparateConsul cluster.
Proof. by split. Qed.

Definition deployer : GatewayDeployer :=
  mkDeployer "-----BEGIN CERTIFICATE-----" "" "sds" 9090 true (NewPartitionInfo "").

Definition gateway : K8sGateway :=
  mkK8sGateway BuilderExamples.gateway (InitialGatewayState BuilderExamples.gateway)
    BuilderExamples.config.

(** The cluster after the deployment of the gateway. *)
Definition after : option (cluster * option error) := Deploy deployer gateway empty_cluster.

Lemma after_ok : ∃ w', Deploy deployer gateway empty_cluster = Some (w', None).
Proof.
  assert (match after with Some (_, None) => true | _ => false end = true) as H
    by (vm_compute; reflexivity).
  unfold after in H. destruct (Deploy _ _ _) as [[w' [e|]]|]; [done|by exists w'|done].
Qed.

End DeployerExamples.

Import (hints) DeployerExamples.


Lemma deploy_converges_witness :
  ∃ w' w2 : cluster, ∃ err,
    Deploy DeployerExamples.deployer DeployerExamples.gateway empty_cluster = Some (w', None) ∧
    Deploy DeployerExamples.deployer DeployerExamples.gateway w' = Some (w2, err) ∧ view w2 = view w'.
Proof.
  destruct DeployerExamples.after_ok as [w' Hw'].
  destruct (deploy_converges _ _ _ _ w' Hw' eq_refl) as (w2 & err & H2 & Hv).
  exists w', w2, err. split; [exact Hw'|]. split; [exact H2|exact Hv].
Defined.
