(* ===== verification/GatewayClasses.v ===== *)
(** * Gateway classes ([internal/k8s/reconciler/gatewayclass.go])

    The manager caches the gateway classes it has seen, each with the
    configuration it resolved to and the status of that resolution.  The
    world [W] is the cluster: it is read through [reads] and written through
    [ApiServer]. *)

From S2P Require Import Prelude Errors Json K8s Status GatewayClient Resolver State ApiServer Cluster.

(** The reads of the controller-runtime client in a world. *)
Class ClusterReads (W : Type) : Type := { reads : W → RuntimeClient }.

(** The readings of the time: the [j]-th one for the [i]-th status built. *)
Class Clock (W : Type) : Type := { clock : W → nat → nat → Z }.

Record K8sGatewayClass : Type := mkK8sGatewayClass {
  kgc_status : GatewayClassStatus;
  kgc_class : GatewayClass;
  kgc_config : GatewayClassConfig
}.

Definition NewK8sGatewayClass (class : GatewayClass) : K8sGatewayClass :=
  mkK8sGatewayClass (mkGatewayClassStatus zeroGatewayClassAcceptedStatus) class zeroGatewayClassConfig.

Definition kgc_IsValid (c : K8sGatewayClass) : bool :=
  negb (GatewayClassAcceptedStatus_HasError (gcs_Accepted (kgc_status c))).

(** Recording an invalid reference to the parameters. *)
Definition set_InvalidParameters (message : string) (c : K8sGatewayClass) : K8sGatewayClass :=
  let s := gcs_Accepted (kgc_status c) in
  mkK8sGatewayClass
    (mkGatewayClassStatus (mkGatewayClassAcceptedStatus (Some (ErrString message))
       (GatewayClassAccepted_Waiting s)))
    (kgc_class c) (kgc_config c).

Definition gc_set_Conditions (conditions : list Condition) (gc : GatewayClass) : GatewayClass :=
  mkGatewayClass (gc_Meta gc) (gc_ControllerName gc) (gc_ParametersRef gc) conditions.

Definition kgc_set_Conditions (conditions : list Condition) (c : K8sGatewayClass) : K8sGatewayClass :=
  mkK8sGatewayClass (kgc_status c) (gc_set_Conditions conditions (kgc_class c)) (kgc_config c).

Abbreviation K8sGatewayClasses := (gmap string K8sGatewayClass).

Section classes.
Context {MF : MultierrorFormat} {W : Type} {AP : ApiServer W} {CR : ClusterReads W} {CL : Clock W}.

Definition kgc_Validate (w : W) (c : K8sGatewayClass) : result K8sGatewayClass :=
  match gc_ParametersRef (kgc_class c) with
  | None => Ok c
  | Some ref =>
      if bool_decide (prm_Group ref ≠ APIGroup) || bool_decide (prm_Kind ref ≠ GatewayClassConfigKind)
      then Ok (set_InvalidParameters "unsupported gateway class configuration" c)
      else
        found ← GetGatewayClassConfig (reads w) (mkNamespacedName "" (prm_Name ref));
        match found with
        | None => Ok (set_InvalidParameters "gateway class not found" c)
        | Some found =>
            Ok (mkK8sGatewayClass (mkGatewayClassStatus zeroGatewayClassAcceptedStatus)
                  (kgc_class c) found)
        end
  end.

(** The class object is mutated before the update and restored when it fails. *)
Definition kgc_SyncStatus (w : W) (c : K8sGatewayClass) : W * K8sGatewayClass * option error :=
  let current := gc_Conditions (kgc_class c) in
  let conditions :=
    GatewayClassStatus_Conditions (kgc_status c) (om_Generation (gc_Meta (kgc_class c))) (clock w 0) in
  if negb (ConditionsEqual conditions current) then
    let c := kgc_set_Conditions conditions c in
    match UpdateStatus w (ObjGatewayClass (kgc_class c)) with
    | (w, Some err) => (w, kgc_set_Conditions current c, Some err)
    | (w, None) => (w, c, None)
    end
  else (w, c, None).

Definition GetConfig (g : K8sGatewayClasses) (name : string) : GatewayClassConfig * bool :=
  match g !! name with
  | Some class => if kgc_IsValid class then (kgc_config class, true) else (zeroGatewayClassConfig, false)
  | None => (zeroGatewayClassConfig, false)
  end.

(** The cached class is the object whose status is synced. *)
Definition classes_Upsert (w : W) (g : K8sGatewayClasses) (class : K8sGatewayClass) :
    W * K8sGatewayClasses * option error :=
  let name := om_Name (gc_Meta (kgc_class class)) in
  let version c := om_ResourceVersion (gc_Meta (kgc_class c)) in
  if match g !! name with
     | Some current => ResourceVersionGreater (version current) (version class)
     | None => false
     end
  then (w, g, None)
  else
    let '(w, class, err) := kgc_SyncStatus w class in
    (w, <[name := class]> g, err).

Definition classes_Delete (g : K8sGatewayClasses) (name : string) : K8sGatewayClasses := delete name g.

(** [UpsertGatewayClass] of the manager. *)
Definition upsert_class (w : W) (g : K8sGatewayClasses) (gc : GatewayClass) :
    W * K8sGatewayClasses * option error :=
  match kgc_Validate w (NewK8sGatewayClass gc) with
  | Err err => (w, g, Some err)
  | Ok class => classes_Upsert w g class
  end.

End classes.

(** ** Properties *)

Section properties.
Context {MF : MultierrorFormat} {W : Type} {AP : ApiServer W} {CR : ClusterReads W} {CL : Clock W}.

(** A class update is stale when a newer version is cached. *)
Definition stale_class (g : K8sGatewayClasses) (gc : GatewayClass) : Prop :=
  ∃ current, g !! om_Name (gc_Meta gc) = Some current ∧
    ResourceVersionGreater (om_ResourceVersion (gc_Meta (kgc_class current)))
      (om_ResourceVersion (gc_Meta gc)) = true.

Lemma kgc_Validate_class (w : W) c c' : kgc_Validate w c = Ok c' → kgc_class c' = kgc_class c.
Proof.
  unfold kgc_Validate. destruct (gc_ParametersRef (kgc_class c)) as [ref|]; [|by intros [= <-]].
  destruct (_ || _); [by intros [= <-]|].
  destruct (GetGatewayClassConfig _ _) as [[found|]|]; [by intros [= <-]..|done].
Qed.

(** Syncing the status only touches the conditions. *)
Lemma kgc_SyncStatus_class (w : W) c w' c' err :
  kgc_SyncStatus w c = (w', c', err) →
  kgc_status c' = kgc_status c ∧ kgc_config c' = kgc_config c ∧
  gc_Meta (kgc_class c') = gc_Meta (kgc_class c) ∧
  gc_ControllerName (kgc_class c') = gc_ControllerName (kgc_class c).
Proof.
  unfold kgc_SyncStatus. destruct (negb _); [|by intros [= <- <- <-]].
  destruct (UpdateStatus _ _) as [w1 [e|]]; by intros [= <- <- <-].
Qed.

(** An upsert caches the class it was given, if it changes the cache at all. *)
Lemma upsert_class_cached (w w' : W) g g' gc err :
  upsert_class w g gc = (w', g', err) →
  g' = g ∨ ∃ c, g' = <[om_Name (gc_Meta gc) := c]> g ∧ gc_Meta (kgc_class c) = gc_Meta gc ∧
    gc_ControllerName (kgc_class c) = gc_ControllerName gc.
Proof.
  unfold upsert_class. destruct (kgc_Validate w (NewK8sGatewayClass gc)) as [c|e] eqn:Hval;
    [|intros [= _ <- _]; by left].
  apply kgc_Validate_class in Hval. simpl in Hval. unfold classes_Upsert. rewrite Hval.
  destruct (match g !! _ with Some current => _ | None => false end); [intros [= _ <- _]; by left|].
  destruct (kgc_SyncStatus w c) as [[w1 c1] e1] eqn:Hsync. intros [= _ <- _]. right. exists c1.
  apply kgc_SyncStatus_class in Hsync as (_ & _ & -> & ->). by rewrite Hval.
Qed.

(** What a fresh class resolves to, by the reads of the validation. *)
Lemma kgc_Validate_resolves (w : W) gc controllerName :
  rc_GatewayClass (reads w) (mkNamespacedName "" (om_Name (gc_Meta gc))) = Found gc →
  gc_ControllerName gc = controllerName →
  match kgc_Validate w (NewK8sGatewayClass gc) with
  | Ok c => GetConfigForGatewayClassName (reads w) controllerName (om_Name (gc_Meta gc))
      = Ok (if kgc_IsValid c then (kgc_config c, true) else (zeroGatewayClassConfig, false))
  | Err e => GetConfigForGatewayClassName (reads w) controllerName (om_Name (gc_Meta gc))
      = Err (ErrK8s e)
  end.
Proof.
  intros Hget Hctl. unfold GetConfigForGatewayClassName, GetGatewayClass, kgc_Validate.
  rewrite Hget. cbn [getter kgc_class NewK8sGatewayClass].
  rewrite bool_decide_false by (by intros []).
  destruct (gc_ParametersRef gc) as [ref|]; [|done].
  destruct (_ || _); [done|].
  destruct (GetGatewayClassConfig _ _) as [[found|]|e]; done.
Qed.

(** The cached classes agree with the cluster.  When a class of this
    controller is reconciled, either its parameters could not be read, which
    is an error and leaves the cache as it was, or the cache afterwards answers
    exactly what looking the class up in the cluster does: its configuration,
    or that it cannot be used.  A stale update and other classes change
    nothing. *)
Theorem class_cache_agrees (w w' : W) (g g' : K8sGatewayClasses) (gc : GatewayClass)
    (controllerName : string) err :
  let name := om_Name (gc_Meta gc) in
  upsert_class w g gc = (w', g', err) →
  rc_GatewayClass (reads w) (mkNamespacedName "" name) = Found gc →
  gc_ControllerName gc = controllerName →
  (∀ other, other ≠ name → g' !! other = g !! other) ∧
  match GetConfigForGatewayClassName (reads w) controllerName name with
  | Err e => g' = g ∧ w' = w ∧ ErrK8s <$> err = Some e
  | Ok answer =>
      (stale_class g gc ∧ g' = g ∧ w' = w ∧ err = None) ∨
      (¬ stale_class g gc ∧ GetConfig g' name = answer)
  end.
Proof.
  intros name Hup Hget Hctl. pose proof (kgc_Validate_resolves w gc controllerName Hget Hctl) as Hres.
  unfold upsert_class in Hup.
  destruct (kgc_Validate w (NewK8sGatewayClass gc)) as [c|e] eqn:Hval; fold name in Hres; rewrite Hres.
  2:{ injection Hup as <- <- <-. done. }
  apply kgc_Validate_class in Hval. simpl in Hval. unfold classes_Upsert in Hup.
  rewrite Hval in Hup. fold name in Hup. unfold stale_class. fold name.
  destruct (match g !! name with Some current => _ | None => false end) eqn:Hstale.
  - injection Hup as <- <- <-. split; [done|]. left. split_and!; [|done..].
    destruct (g !! name) as [current|]; [|done]. by exists current.
  - destruct (kgc_SyncStatus w c) as [[w1 c1] e1] eqn:Hsync. injection Hup as <- <- <-.
    apply kgc_SyncStatus_class in Hsync as (Hst & Hcfg & _).
    split; [intros other Hne; by rewrite lookup_insert_ne|]. right. split.
    + intros (current & Hcur & Hgt). by rewrite Hcur, Hgt in Hstale.
    + unfold GetConfig. rewrite lookup_insert_eq. unfold kgc_IsValid. by rewrite Hst, Hcfg.
Qed.

End properties.

(** ** Examples *)

Module ClassExamples.

(** A client that finds one class and one configuration. *)
Definition finding (class : GatewayClass) (config : GatewayClassConfig) : RuntimeClient := {|
  rc_GatewayClassConfig n := if decide (nn_Name n = om_Name (gcc_Meta config)) then Found config else NotFound;
  rc_GatewayClass n := if decide (nn_Name n = om_Name (gc_Meta class)) then Found class else NotFound;
  rc_Gateway _ := NotFound;
  rc_Secret _ := NotFound;
  rc_Service _ := NotFound;
  rc_HTTPRoute _ := NotFound;
  rc_TCPRoute _ := NotFound;
  rc_MeshService _ := NotFound;
  rc_Namespace _ := NotFound;
  rc_Deployment _ := NotFound;
  rc_ListGatewayClasses := Ok [class];
  rc_ListGateways := Ok [];
  rc_ListPods _ := Ok [];
  rc_ListDeployments _ := Ok [];
  rc_ListReferenceGrants _ := Ok [];
  rc_ListReferencePolicies _ := Ok [];
  rc_ListGatewaysIn _ := Ok [];
  rc_ListHTTPRoutes := Ok [];
  rc_ListHTTPRoutesIn _ := Ok [];
  rc_ListTCPRoutes := Ok [];
  rc_ListTCPRoutesIn _ := Ok []
|}.

Definition config : GatewayClassConfig := mkGatewayClassConfig (new_meta "config" "" ∅ ∅) zeroGatewayClassConfigSpec.

Definition class : GatewayClass :=
  mkGatewayClass (mkObjectMeta "class" "" "uid" 1 "5" 0 ∅ ∅ [] [] None) "controller"
    (Some (mkParametersReference APIGroup GatewayClassConfigKind "config")) [].

#[export] Instance class_reads : ClusterReads cluster := {| reads _ := finding class config |}.
#[export] Instance stopped_clock : Clock cluster := {| clock _ _ _ := 0%Z |}.

End ClassExamples.

Import (hints) ClassExamples.

Lemma class_cache_agrees_witness :
  ∃ (w' : cluster) g' err,
    upsert_class (put_object empty_cluster (ObjGatewayClass ClassExamples.class)) ∅ ClassExamples.class
      = (w', g', err) ∧ GetConfig g' "class" = (ClassExamples.config, true).
Proof.
  destruct (upsert_class (put_object empty_cluster (ObjGatewayClass ClassExamples.class)) ∅
    ClassExamples.class) as [[w' g'] err] eqn:Hup.
  exists w', g', err. split; [reflexivity|].
  destruct (class_cache_agrees _ _ _ _ _ "controller" _ Hup eq_refl eq_refl) as [_ H].
  destruct H as [[(current & Hc & _) _]|[_ H]]; [discriminate Hc|exact H].
Defined.
