(* ===== verification/Statuses.v ===== *)
(** * Status updates ([internal/k8s/reconciler/statuses.go])

    The status updater of the store: it deploys a gateway, syncs it to
    Consul, and writes the statuses that changed to the cluster.  The gateway
    and the route are pointers the updater mutates; the result of an
    operation includes the object as it leaves it. *)

From S2P Require Import Prelude Errors Json Core K8s Status GatewayClient Resolver State Converter Objects Builder ApiServer Cluster Deployer GatewayClasses Binder GatewayValidator Store.

Definition gw_set_Status (status : GatewayStatusObj) (gw : Gateway) : Gateway :=
  mkGateway (gw_Meta gw) (gw_GroupKind gw) (gw_GatewayClassName gw) (gw_Listeners gw)
    (gw_Addresses gw) status.

(** The outcome of a sync, recorded in the status. *)
Definition in_sync_after (didSync : bool) (err : option error) (s : GatewayStatus) : GatewayStatus :=
  match err with
  | Some err => mkGatewayStatus (gs_Ready s) (gs_Scheduled s) (mkGatewayInSyncStatus (Some err))
  | None =>
      if didSync then mkGatewayStatus (gs_Ready s) (gs_Scheduled s) zeroGatewayInSyncStatus else s
  end.

Section updater.
Context {EN : Environment} {MF : MultierrorFormat} {MR : MapRange} {W : Type}.
Context {AP : ApiServer W} {CN : ConsulNamespaces W} {CL : Clock W}.
Context (json_of_condition : Condition → string) (json_of_parent : RouteParentStatus → string).
Context (deployer : GatewayDeployer) (controllerName : string).

Abbreviation sync_fn := (W → option (W * (bool * option error))).

Definition update_gateway_status (w : W) (g : K8sGateway) (sync : sync_fn) :
    option (W * K8sGateway * option error) :=
  res ← Deploy deployer g w;
  match res : W * option error with
  | (w, Some err) => Some (w, g, Some err)
  | (w, None) =>
      res ← sync w;
      let '(w, (didSync, err)) := res : W * (bool * option error) in
      let state := kg_GatewayState g in
      let state := gst_set_Status (in_sync_after didSync err (gst_Status state)) state in
      let (state, gatewayStatus) := GetStatus state (kg_Gateway g) (clock w) in
      let g := kg_set_State state g in
      if negb (GatewayStatusEqual gatewayStatus (gw_Status (kg_Gateway g))) then
        let g := mkK8sGateway (gw_set_Status gatewayStatus (kg_Gateway g)) state (kg_Config g) in
        let (w, err) := UpdateStatus w (ObjGateway (kg_Gateway g)) in
        Some (w, g, err)
      else Some (w, g, None)
  end.

Definition update_route_status (w : W) (r : K8sRoute) : W * K8sRoute * option error :=
  let '(status, ok) := NeedsUpdate json_of_condition json_of_parent
    (rs_ParentStatuses (kr_RouteState r)) (routeStatus r) controllerName
    (om_Generation (route_Meta (kr_Route r))) (clock w 0) in
  if ok : bool then
    let r := setStatus r status in
    match UpdateStatus w (ObjRoute (kr_Route r)) with
    | (w, Some err) => (w, r, Some (ErrWrap "error updating route status: " err))
    | (w, None) => (w, r, None)
    end
  else (w, r, None).

(** The updater as the store uses it: the object is not read afterwards. *)
#[export] Instance k8s_status_updater : StatusUpdaters K8sGateway K8sRoute W := {|
  UpdateGatewayStatusOnSync w g sync :=
    res ← update_gateway_status w g sync; Some (res.1.1, res.2);
  UpdateRouteStatus w r := let res := update_route_status w r in (res.1.1, res.2)
|}.

End updater.

(** ** Settling *)

Section settling.
Context {EN : Environment} {MF : MultierrorFormat} {MR : MapRange} {W : Type}.
Context {AP : ApiServer W} {LA : LawfulApi W} {CN : ConsulNamespaces W} {SC : SeparateConsul W}.
Context {CL : Clock W} (deployer : GatewayDeployer).
Implicit Types (w : W) (g : K8sGateway).

(** A sync reaches Consul only and returns. *)
Definition syncs_consul (sync : W → option (W * (bool * option error))) : Prop :=
  ∀ w, ∃ w' outcome, sync w = Some (w', outcome) ∧ view w' = view w.

(** An equal status is the stored one, but for the addresses. *)
Lemma GetStatus_equal s gateway clock :
  GatewayStatusEqual (GetStatus s gateway clock).2 (gw_Status gateway) = true →
  gso_Conditions (GetStatus s gateway clock).2 = gso_Conditions (gw_Status gateway) ∧
  gso_Listeners (GetStatus s gateway clock).2 = gso_Listeners (gw_Status gateway).
Proof.
  unfold GatewayStatusEqual, GetStatus. cbn [snd gso_Conditions gso_Listeners].
  set (conds := GatewayStatus_Conditions _ _ _). set (news := (imap _ _).*2).
  destruct (ConditionsEqual conds _) eqn:Hc; [rewrite ConditionsEqual_refl|by rewrite Hc].
  by destruct (ListenerStatusesEqual news _) eqn:Hl; [|rewrite Hl].
Qed.

(** Replacing the addresses of the stored status does not affect the parts
    that are compared. *)
Lemma GetStatus_addresses s gateway addresses clock :
  let stored := gw_Status gateway in
  GetStatus s (gw_set_Status (mkGatewayStatusObj addresses (gso_Conditions stored)
    (gso_Listeners stored)) gateway) clock = GetStatus s gateway clock.
Proof. done. Qed.

Lemma deployed_frame kinds g v v' :
  only_changes kinds (kg_Gateway g) v v' → Forall (λ k, k ∉ kinds) deployed_kinds →
  deployed deployer g v → deployed deployer g v'.
Proof.
  intros Hch Hk (Ha & Hs & Hd & Hv). unfold deployed_kinds in Hk. rewrite !Forall_cons in Hk.
  destruct Hk as (H1 & H2 & H3 & H4 & H5 & H6 & _). split_and!.
  - eapply accounts_settled_frame; [exact Hch|by repeat constructor|done].
  - by eapply secret_settled_frame.
  - by eapply deployment_settled_frame.
  - intros wanted Hw. destruct (Hv wanted Hw) as (s & Hs' & H). exists s.
    by rewrite (only_changes_lookup _ _ _ _ _ _ Hch).
Qed.

(** What deployments look at in a gateway: not its status. *)
Definition same_spec g g' : Prop :=
  kg_Config g' = kg_Config g ∧
  gst_ConsulNamespace (kg_GatewayState g') = gst_ConsulNamespace (kg_GatewayState g) ∧
  ∃ status, kg_Gateway g' = gw_set_Status status (kg_Gateway g).

Lemma deployed_same_spec g g' v :
  same_spec g g' → deployed deployer g v → deployed deployer g' v.
Proof.
  intros (Hc & Hns & status & Hg). unfold deployed. rewrite Hc, Hns, Hg.
  by intros (? & ? & ? & ?).
Qed.

(** The status of the gateway is what would be computed again. *)
Definition status_settled g : Prop :=
  ∀ clock, (GetStatus (kg_GatewayState g) (kg_Gateway g) clock).1 = kg_GatewayState g ∧
    GatewayStatusEqual (GetStatus (kg_GatewayState g) (kg_Gateway g) clock).2
      (gw_Status (kg_Gateway g)) = true.

Lemma GetStatus_settles s gw config clock :
  let '(s', st) := GetStatus s gw clock in
  status_settled (mkK8sGateway (gw_set_Status st gw) s' config) ∧
  (GatewayStatusEqual st (gw_Status gw) = true → status_settled (mkK8sGateway gw s' config)).
Proof.
  pose proof (GetStatus_equal s gw clock) as Heq.
  pose proof (λ c2, GetStatus_again s gw clock c2) as Hagain.
  destruct (GetStatus s gw clock) as [s' st]. cbn [snd] in Heq. fold (gw_set_Status st gw) in Hagain.
  split.
  - intros c2. cbn [kg_GatewayState kg_Gateway]. destruct (Hagain c2) as (-> & He & _). done.
  - intros He c2. destruct (Hagain c2) as (Hget & _ & _). destruct (Heq He) as [Hc Hl].
    assert (GetStatus s' (gw_set_Status st gw) c2 = GetStatus s' gw c2) as Hsame.
    { unfold GetStatus. cbn [gw_set_Status gw_Status]. by rewrite Hc, Hl. }
    rewrite Hsame in Hget. cbn [kg_GatewayState kg_Gateway]. by rewrite Hget.
Qed.

Lemma GetStatus_namespace s gw clock :
  gst_ConsulNamespace (GetStatus s gw clock).1 = gst_ConsulNamespace s.
Proof. done. Qed.

Lemma update_gateway_status_ensures w g sync w' g' :
  syncs_consul sync → update_gateway_status deployer w g sync = Some (w', g', None) →
  deployed deployer g' (view w') ∧ status_settled g' ∧ same_spec g g' ∧
  only_changes (KGateway :: deployed_kinds) (kg_Gateway g) (view w) (view w').
Proof using SC.
  intros Hsync. unfold update_gateway_status.
  destruct (Deploy deployer g w) as [[w1 [e|]]|] eqn:Hd; [done| |done]. cbn [mbind option_bind].
  apply Deploy_ensures in Hd as [Hch1 Hok]. destruct (Hok eq_refl) as [Hdep _].
  apply (only_changes_weaken _ (KGateway :: deployed_kinds)) in Hch1; [|by right].
  destruct (Hsync w1) as (w2 & [didSync err] & -> & Hv2). cbn [mbind option_bind].
  rewrite <-Hv2 in Hdep, Hch1. clear Hok Hv2.
  set (s0 := gst_set_Status _ _).
  pose proof (GetStatus_settles s0 (kg_Gateway g) (kg_Config g) (clock w2)) as Hset.
  pose proof (GetStatus_namespace s0 (kg_Gateway g) (clock w2)) as Hns.
  destruct (GetStatus s0 (kg_Gateway g) (clock w2)) as [s1 st]. destruct Hset as [Hset Hkeep].
  assert (∀ status, same_spec g (mkK8sGateway (gw_set_Status status (kg_Gateway g)) s1 (kg_Config g)))
    as Hspec by (intros status; split_and!; [done|done|by exists status]).
  assert (same_spec g (mkK8sGateway (kg_Gateway g) s1 (kg_Config g))) as Hspec0.
  { specialize (Hspec (gw_Status (kg_Gateway g))). by destruct g as [[]]. }
  cbn [kg_set_State kg_Gateway kg_Config kg_GatewayState].
  destruct (GatewayStatusEqual st _) eqn:He; cbn [negb].
  - intros [= <- <-]. split_and!; [by eapply deployed_same_spec|by apply Hkeep|done|done].
  - unfold UpdateStatus. destruct (api_UpdateStatus w2 _) as [w3 [e|]] eqn:Hup; [done|].
    intros [= <- <-]. pose proof (proj1 (UpdateStatus_effect _ _ _ _ Hup)) as Hf.
    assert (only_changes [KGateway] (kg_Gateway g) (view w2) (view w3)) as Hch3
      by (eapply only_changes_key; [by left|exact Hf]).
    split_and!; [|done|done|].
    + eapply deployed_same_spec; [done|]. eapply deployed_frame; [done|by decide_kinds|done].
    + eapply only_changes_trans; [exact Hch1|]. eapply only_changes_weaken; [|exact Hch3].
      by intros k ->%list_elem_of_singleton; left.
Qed.

(** A sync whose outcome the status already records. *)
Definition sync_recorded g (sync : W → option (W * (bool * option error))) : Prop :=
  syncs_consul sync ∧
  ∀ w w' didSync err, sync w = Some (w', (didSync, err)) →
    in_sync_after didSync err (gst_Status (kg_GatewayState g)) = gst_Status (kg_GatewayState g).

Lemma update_gateway_status_settled w g sync :
  deployed deployer g (view w) → status_settled g → sync_recorded g sync →
  ∃ w' err, update_gateway_status deployer w g sync = Some (w', g, err) ∧ view w' = view w.
Proof using SC.
  intros Hdep Hset [Hsync Hsame]. unfold update_gateway_status.
  destruct (Deploy_settled deployer g w Hdep) as (w1 & [e|] & -> & Hv1); cbn [mbind option_bind].
  { by exists w1, (Some e). }
  destruct (Hsync w1) as (w2 & [didSync err] & Hs2 & Hv2). rewrite Hs2. cbn [mbind option_bind].
  rewrite (Hsame _ _ _ _ Hs2).
  replace (gst_set_Status _ _) with (kg_GatewayState g) by by destruct (kg_GatewayState g).
  destruct (Hset (clock w2)) as [Hst He].
  destruct (GetStatus _ _ (clock w2)) as [s st]. simpl in Hst, He. subst s.
  cbn [kg_set_State kg_Gateway]. rewrite He. cbn [negb].
  exists w2, None. destruct g. simpl. split; [done|]. by rewrite Hv2, Hv1.
Qed.

(** Status updates settle.  After an update that succeeded, the next one,
    at any later time and in any world with the same cluster, for a sync whose
    outcome is already recorded, writes nothing and leaves the gateway as it
    is, whatever it returns; and an update only ever writes the gateway's own
    object and the objects deployed for it. *)
Theorem status_updates_settle w g sync w1 g1 :
  syncs_consul sync → update_gateway_status deployer w g sync = Some (w1, g1, None) →
  only_changes (KGateway :: deployed_kinds) (kg_Gateway g) (view w) (view w1) ∧
  ∀ w2 sync2, view w2 = view w1 → sync_recorded g1 sync2 →
    ∃ w3 err, update_gateway_status deployer w2 g1 sync2 = Some (w3, g1, err) ∧ view w3 = view w1.
Proof using SC.
  intros Hsync Hup. apply update_gateway_status_ensures in Hup as (Hdep & Hset & _ & Hch); [|done].
  split; [done|]. intros w2 sync2 Hv2 Hsync2. rewrite <-Hv2 in *. by apply update_gateway_status_settled.
Qed.

(** The gateway with other addresses. *)
Definition with_addresses (addresses : list string) g : K8sGateway :=
  kg_set_State (gst_set_Addresses addresses (kg_GatewayState g)) g.

Lemma status_settled_addresses addresses g : status_settled g → status_settled (with_addresses addresses g).
Proof.
  intros Hset c. destruct (Hset c) as [H1 H2]. destruct g as [gw s config].
  destruct s as [ns st pr sr gen old ls]. unfold GetStatus in *.
  unfold with_addresses, gst_set_Addresses, gst_set_Listeners in *. simpl in *.
  split; [injection H1 as H1; by rewrite H1|done].
Qed.

(** A change of the addresses alone is not published.  When the addresses
    of an up-to-date gateway change and its conditions do not, the update
    writes nothing, and the gateway in the cluster keeps its old addresses. *)
Theorem address_change_not_published w g sync w1 g1 addresses :
  syncs_consul sync → update_gateway_status deployer w g sync = Some (w1, g1, None) →
  sync_recorded g1 sync →
  let g2 := with_addresses addresses g1 in
  gso_Addresses (GetStatus (kg_GatewayState g2) (kg_Gateway g2) (clock w1)).2 = addresses ∧
  ∃ w2 err, update_gateway_status deployer w1 g2 sync = Some (w2, g2, err) ∧ view w2 = view w1.
Proof using SC.
  intros Hsync Hup Hrec g2. apply update_gateway_status_ensures in Hup as (Hdep & Hset & _); [|done].
  split; [done|]. apply update_gateway_status_settled; [|by apply status_settled_addresses|done].
  eapply deployed_same_spec; [|exact Hdep]. split_and!; [done|done|].
  exists (gw_Status (kg_Gateway g1)). by destruct g1 as [[]].
Qed.

End settling.

(** ** Routes *)

Section routes.
Context {MF : MultierrorFormat} {MR : MapRange} {W : Type} {AP : ApiServer W} {CL : Clock W}.
Context (json_of_condition : Condition → string) (json_of_parent : RouteParentStatus → string).
Context (controllerName : string).

(** What the sort keys have to do with the values (see [State]). *)
Context (json_of_condition_type : ∀ a a' b b',
  c_Type a = c_Type a' → c_Type b = c_Type b' → c_Type a ≠ c_Type b →
  String.ltb (json_of_condition a) (json_of_condition b)
  = String.ltb (json_of_condition a') (json_of_condition b')).
Context (json_of_parent_key : ∀ a a' b b',
  (rps_ParentRef a, rps_ControllerName a) = (rps_ParentRef a', rps_ControllerName a') →
  (rps_ParentRef b, rps_ControllerName b) = (rps_ParentRef b', rps_ControllerName b') →
  (rps_ParentRef a, rps_ControllerName a) ≠ (rps_ParentRef b, rps_ControllerName b) →
  String.ltb (json_of_parent a) (json_of_parent b)
  = String.ltb (json_of_parent a') (json_of_parent b')).
Context (json_of_parent_inj : ∀ a b, json_of_parent a = json_of_parent b → a = b).

Lemma routeStatus_setStatus r status : routeStatus (setStatus r status) = status.
Proof. by destruct r as [[]]. Qed.

Lemma NeedsUpdate_clock r status generation clock1 clock2 :
  (NeedsUpdate json_of_condition json_of_parent r status controllerName generation clock1).2
  = (NeedsUpdate json_of_condition json_of_parent r status controllerName generation clock2).2.
Proof using json_of_condition_type json_of_parent_key.
  unfold NeedsUpdate. cbn [snd]. f_equal. apply eq_true_iff_eq.
  rewrite !RouteStatusEqual_strip. by erewrite strip_merged.
Qed.

(** Updates of a route's status settle.  After an update that succeeded,
    a later one neither writes nor fails, at any time and in any world; and the
    statuses that other controllers wrote on the route are kept. *)
Theorem route_updates_settle (w w1 : W) (r r1 : K8sRoute) :
  update_route_status json_of_condition json_of_parent controllerName w r = (w1, r1, None) →
  (∀ w2, update_route_status json_of_condition json_of_parent controllerName w2 r1 = (w2, r1, None)) ∧
  (r1 = r ∨
   filterParentStatuses (routeStatus r1) controllerName
   ≡ₚ sort_conditions json_of_condition <$> filterParentStatuses (routeStatus r) controllerName).
Proof using json_of_condition_type json_of_parent_key json_of_parent_inj.
  unfold update_route_status. set (statuses := rs_ParentStatuses (kr_RouteState r)).
  set (generation := om_Generation (route_Meta (kr_Route r))).
  pose proof (λ c2, NeedsUpdate_again _ _ json_of_condition_type json_of_parent_key
    json_of_parent_inj statuses (routeStatus r) controllerName generation (clock w 0) c2) as Hagain.
  pose proof (λ c2, NeedsUpdate_clock statuses (routeStatus r) generation (clock w 0) c2) as Hclock.
  destruct (NeedsUpdate _ _ statuses (routeStatus r) controllerName generation (clock w 0))
    as [status [|]]; cbn [fst snd] in Hagain, Hclock.
  - destruct (UpdateStatus w _) as [w' [e|]]; [done|]. intros [= <- <-]. split.
    + intros w2. rewrite routeStatus_setStatus. destruct (Hagain (clock w2 0)) as [H _].
      replace (om_Generation (route_Meta (kr_Route (setStatus r status)))) with generation
        by by destruct r as [[]].
      change (rs_ParentStatuses (kr_RouteState (setStatus r status))) with statuses.
      by destruct (NeedsUpdate _ _ _ _ _ _ (clock w2 0)) as [st2 ok2]; simpl in H; subst ok2.
    + right. rewrite routeStatus_setStatus. apply (Hagain (clock w 0)).
  - intros [= <- <-]. split; [|by left]. intros w2. specialize (Hclock (clock w2 0)).
    fold statuses generation.
    by destruct (NeedsUpdate _ _ _ _ _ _ (clock w2 0)) as [st2 ok2]; simpl in Hclock; subst ok2.
Qed.

End routes.

(** ** Examples *)

Module StatusExamples.

#[export] Existing Instance canonical_range.
#[export] Existing Instance ClassExamples.stopped_clock.
#[export] Existing Instance DeployerExamples.no_namespaces.
#[export] Existing Instance DeployerExamples.no_namespaces_separate.
#[export] Existing Instance BuilderExamples.environment.

Definition synced : cluster → option (cluster * (bool * option error)) := λ w, Some (w, (true, None)).

Lemma synced_consul : syncs_consul synced.
Proof. intros w. by exists w, (true, None). Qed.

Definition before : cluster := put_object empty_cluster (ObjGateway BuilderExamples.gateway).

Lemma updated :
  ∃ w' g', update_gateway_status DeployerExamples.deployer before DeployerExamples.gateway synced
    = Some (w', g', None) ∧ gs_InSync (gst_Status (kg_GatewayState g')) = zeroGatewayInSyncStatus.
Proof.
  assert (match update_gateway_status DeployerExamples.deployer before DeployerExamples.gateway synced with
          | Some (_, g', None) =>
              match gs_InSync (gst_Status (kg_GatewayState g')) with
              | mkGatewayInSyncStatus None => true | _ => false end
          | _ => false
          end = true) as H by (vm_compute; reflexivity).
  destruct (update_gateway_status _ _ _ _) as [[[w' g'] [e|]]|]; [done| |done].
  exists w', g'. split; [done|].
  destruct (gs_InSync (gst_Status (kg_GatewayState g'))) as [[|]]; done.
Qed.

Lemma synced_recorded g :
  gs_InSync (gst_Status (kg_GatewayState g)) = zeroGatewayInSyncStatus → sync_recorded g synced.
Proof.
  intros Hin. split; [apply synced_consul|]. intros w w' d e [= <- <- <-]. simpl. rewrite <-Hin.
  by destruct (gst_Status (kg_GatewayState g)).
Qed.

End StatusExamples.

Import (hints) StatusExamples.

Lemma status_updates_settle_witness :
  ∃ (w1 : cluster) g1 w3 err,
    update_gateway_status DeployerExamples.deployer StatusExamples.before DeployerExamples.gateway
      StatusExamples.synced = Some (w1, g1, None) ∧
    update_gateway_status DeployerExamples.deployer w1 g1 StatusExamples.synced = Some (w3, g1, err) ∧
    view w3 = view w1.
Proof.
  destruct StatusExamples.updated as (w1 & g1 & Hup & Hin).
  destruct (status_updates_settle _ _ _ _ _ _ StatusExamples.synced_consul Hup) as [_ H].
  destruct (H w1 _ eq_refl (StatusExamples.synced_recorded g1 Hin)) as (w3 & err & H3 & Hv).
  exists w1, g1, w3, err. split; [exact Hup|]. split; [exact H3|exact Hv].
Defined.

Lemma address_change_not_published_witness :
  ∃ (w1 : cluster) g1 w2 err,
    let g2 := with_addresses ["10.0.0.1"] g1 in
    update_gateway_status DeployerExamples.deployer StatusExamples.before DeployerExamples.gateway
      StatusExamples.synced = Some (w1, g1, None) ∧
    update_gateway_status DeployerExamples.deployer w1 g2 StatusExamples.synced = Some (w2, g2, err) ∧
    view w2 = view w1.
Proof.
  destruct StatusExamples.updated as (w1 & g1 & Hup & Hin).
  destruct (address_change_not_published _ _ _ _ _ _ ["10.0.0.1"] StatusExamples.synced_consul Hup
    (StatusExamples.synced_recorded g1 Hin)) as [_ (w2 & err & H2 & Hv)].
  exists w1, g1, w2, err. split; [exact Hup|]. split; [exact H2|exact Hv].
Defined.

Module RouteStatusExamples.

Definition route : K8sRoute :=
  mkK8sRoute (RouteTCP (mkK8sTCPRoute (mkObjectMeta "route" "default" "uid" 1 "1" 0 ∅ ∅ [] [] None)
      (mkGroupKind GroupName "TCPRoute") [witness_ref] [] witness_foreign))
    (mkRouteState ∅ NewResolutionErrors witness_statuses).

Definition before : cluster := put_object empty_cluster (ObjRoute (kr_Route route)).

Abbreviation update :=
  (update_route_status (W := cluster) SortKeys.condition_key SortKeys.parent_key "ours").

Lemma route_updated : ∃ w1 r1, update before route = (w1, r1, None).
Proof.
  unfold update_route_status. destruct (NeedsUpdate _ _ _ _ _ _ _) as [status [|]]; [|by eauto].
  unfold UpdateStatus. cbn [api_UpdateStatus cluster_api].
  change (obj_key (ObjRoute (kr_Route (setStatus route status))))
    with (obj_key (ObjRoute (kr_Route route))).
  unfold before at 1. cbn [put_object objects proj1_sig]. rewrite lookup_insert_eq. by eauto.
Qed.

End RouteStatusExamples.

Lemma route_updates_settle_witness :
  ∃ w1 r1, RouteStatusExamples.update RouteStatusExamples.before RouteStatusExamples.route
      = (w1, r1, None) ∧
    RouteStatusExamples.update w1 r1 = (w1, r1, None).
Proof.
  destruct RouteStatusExamples.route_updated as (w1 & r1 & Hup).
  exists w1, r1. split; [exact Hup|].
  apply (route_updates_settle SortKeys.condition_key SortKeys.parent_key "ours"
    SortKeys.condition_key_order SortKeys.parent_key_order SortKeys.parent_key_inj _ _ _ _ Hup).
Defined.
