(* ===== verification/Manager.v ===== *)
(** * The reconcile manager ([internal/k8s/reconciler/manager.go])

    The manager receives the objects the controllers reconcile.  It decides
    whether they are managed, validates them and hands them to the store.
    [manager] is its state: the cached gateway classes, the map from managed
    gateways to their Consul namespaces, and the store with the world.  The
    manager's mutex makes every operation atomic; a panic is [None].

    The text of a JSON document is abstract ([JsonText]); encoding a
    configuration never fails. *)

From S2P Require Import Prelude Errors Json Core K8s Status GatewayClient Resolver State Converter Objects Builder ApiServer Cluster Deployer ClassConfig GatewayClasses Binder K8sSecret GatewayValidator RouteValidator Store Provenance Statuses.

Definition annotationConfig : string := "api-gateway.consul.hashicorp.com/config".

Definition gw_set_Annotations (annotations : gmap string string) (gw : Gateway) : Gateway :=
  mkGateway (om_set_Annotations annotations (gw_Meta gw)) (gw_GroupKind gw) (gw_GatewayClassName gw)
    (gw_Listeners gw) (gw_Addresses gw) (gw_Status gw).

Definition gst_set_ConsulNamespace (ns : string) (g : GatewayState) : GatewayState :=
  mkGatewayState ns (gst_Status g) (gst_PodReady g) (gst_ServiceReady g) (gst_Generation g)
    (gst_Addresses g) (gst_Listeners g).

Section manager.
Context {JT : JsonText} {MF : MultierrorFormat} {MR : MapRange} {NU : NetURL} {SCH : Scheduler}.
Context {D B W : Type} {MA : Marshaler K8sGateway K8sRoute D} {BI : Binders K8sGateway K8sRoute}.
Context {BE : Backend B D} {AD : SyncAdapters W} {AP : ApiServer W} {CR : ClusterReads W} {CL : Clock W}.
Context (statusUpdater : option (StatusUpdaters K8sGateway K8sRoute W)).
(** The resolver reads the cluster and Consul. *)
Context (resolver : W → BackendResolver) (format_kinds : list RouteGroupKind → string).
Context (controllerName : string) (consulNamespaceMapper : string → string).

Record manager : Type := mkManager {
  m_gatewayClasses : K8sGatewayClasses;
  m_namespaceMap : gmap NamespacedName string;
  m_store : @store B W
}.

Definition m_world (m : manager) : W := st_world (m_store m).

Definition m_set_world (w : W) (m : manager) : manager :=
  mkManager (m_gatewayClasses m) (m_namespaceMap m) (mkStore (st_backend (m_store m)) w).
Definition m_set_store (s : store) (m : manager) : manager :=
  mkManager (m_gatewayClasses m) (m_namespaceMap m) s.
Definition m_set_namespaces (ns : gmap NamespacedName string) (m : manager) : manager :=
  mkManager (m_gatewayClasses m) ns (m_store m).

(** An operation of the store, run by the manager. *)
Definition on_store (r : option (store * option error)) (m : manager) :
    option (manager * option error) :=
  res ← r;
  let (s, err) := res : store * option error in
  Some (m_set_store s m, err).

Definition m_UpsertGatewayClass (gc : GatewayClass) (m : manager) : manager * option error :=
  let '(w, classes, err) := upsert_class (m_world m) (m_gatewayClasses m) gc in
  (m_set_world w (mkManager classes (m_namespaceMap m) (m_store m)), err).

(** The configuration a gateway is annotated with. *)
Definition annotated_config (g : Gateway) : option GatewayClassConfigSpec :=
  text ← om_Annotations (gw_Meta g) !! annotationConfig;
  match j ← json_parse text; unmarshal_spec j with
  | Ok spec => Some spec
  | Err _ => None
  end.

(** The configuration of a gateway that is not annotated, [None] when the
    gateway is not managed: from the cached classes, or else the cluster. *)
Definition class_config (className : string) (m : manager) : result (option GatewayClassConfig) :=
  match GetConfig (m_gatewayClasses m) className with
  | (config, true) => Ok (Some config)
  | (_, false) =>
      match GetConfigForGatewayClassName (reads (m_world m)) controllerName className with
      | Err err => Err err
      | Ok (config, true) => Ok (Some config)
      | Ok (_, false) => Ok None
      end
  end.

Definition annotate (config : GatewayClassConfig) (g : Gateway) : Gateway :=
  gw_set_Annotations
    (<[annotationConfig := json_text (marshal_spec (gcc_Spec config))]> (om_Annotations (gw_Meta g))) g.

(** An upsert is skipped when a newer version is stored. *)
Definition not_newer (version : string) (current : option string) : bool :=
  match current with
  | None => true
  | Some currentVersion => negb (ResourceVersionGreater currentVersion version)
  end.

Definition m_UpsertGateway (g : Gateway) (m : manager) : option (manager * option error) :=
  match annotated_config g with
  | None =>
      match class_config (gw_GatewayClassName g) m with
      | Err err => Some (m, Some err)
      | Ok None => Some (m, None)
      | Ok (Some config) =>
          let (w, err) := Update (m_world m) (ObjGateway (annotate config g)) in
          Some (m_set_world w m, err)
      end
  | Some spec =>
      let config := mkGatewayClassConfig (new_meta "" "" ∅ ∅) spec in
      let g := annotate config g in
      let consulNamespace := consulNamespaceMapper (om_Namespace (gw_Meta g)) in
      let m := m_set_namespaces
        (<[gateway_NamespacedName g := consulNamespace]> (m_namespaceMap m)) m in
      service ← d_Service config g;
      match GatewayValidator_Validate (New (reads (m_world m)) controllerName) format_kinds g service with
      | Err err => Some (m, Some err)
      | Ok state =>
          let gateway := newK8sGateway config g (gst_set_ConsulNamespace consulNamespace state) in
          on_store (UpsertGateway statusUpdater gateway
            (Some (λ current, not_newer (om_ResourceVersion (gw_Meta g))
                     (om_ResourceVersion ∘ gw_Meta ∘ kg_Gateway <$> current))) (m_store m)) m
      end
  end.

Definition managedByCachedGatewaysForRoute (namespace : string) (parents : list ParentReference)
    (m : manager) : bool :=
  existsb (λ parent,
    match ReferencesGateway namespace parent with
    | Some name => bool_decide (is_Some (m_namespaceMap m !! name))
    | None => false
    end) parents.

Definition deleteUnmanagedRoute (namespace : string) (parents : list ParentReference) (id : string)
    (m : manager) : option (manager * result bool) :=
  let managed :=
    if managedByCachedGatewaysForRoute namespace parents m then Ok true
    else IsManagedRoute (reads (m_world m)) namespace parents in
  match managed with
  | Err err => Some (m, Err err)
  | Ok true => Some (m, Ok true)
  | Ok false =>
      res ← on_store (DeleteRoute statusUpdater id (m_store m)) m;
      match res : manager * option error with
      | (m, Some err) => Some (m, Err err)
      | (m, None) => Some (m, Ok false)
      end
  end.

Definition m_upsertRoute (r : Route) (parents : list ParentReference) (id : string) (m : manager) :
    option (manager * option error) :=
  res ← deleteUnmanagedRoute (route_Namespace r) parents id m;
  match res : manager * result bool with
  | (m, Err err) => Some (m, Some err)
  | (m, Ok false) => Some (m, None)
  | (m, Ok true) =>
      match @RouteValidator_Validate (resolver (m_world m)) (New (reads (m_world m)) controllerName) r with
      | Err err => Some (m, Some err)
      | Ok state =>
          on_store (UpsertRoute statusUpdater (newK8sRoute r state)
            (Some (λ current, not_newer (om_ResourceVersion (route_Meta r))
                     (om_ResourceVersion ∘ route_Meta ∘ kr_Route <$> current))) (m_store m)) m
      end
  end.

Definition m_UpsertHTTPRoute (r : K8sHTTPRoute) : manager → option (manager * option error) :=
  m_upsertRoute (RouteHTTP r) (khr_ParentRefs r) (HTTPRouteID (om_key (khr_Meta r))).

Definition m_UpsertTCPRoute (r : K8sTCPRoute) : manager → option (manager * option error) :=
  m_upsertRoute (RouteTCP r) (ktr_ParentRefs r) (TCPRouteID (om_key (ktr_Meta r))).

Definition m_DeleteGatewayClass (name : string) (m : manager) : manager :=
  mkManager (classes_Delete (m_gatewayClasses m) name) (m_namespaceMap m) (m_store m).

(** A gateway that is not in the map has the empty namespace. *)
Definition m_DeleteGateway (name : NamespacedName) (m : manager) : option (manager * option error) :=
  res ← on_store (DeleteGateway statusUpdater
    (mkGatewayID (default "" (m_namespaceMap m !! name)) (nn_Name name)) (m_store m)) m;
  match res : manager * option error with
  | (m, Some err) => Some (m, Some err)
  | (m, None) => Some (m_set_namespaces (delete name (m_namespaceMap m)) m, None)
  end.

Definition m_DeleteHTTPRoute (name : NamespacedName) (m : manager) : option (manager * option error) :=
  on_store (DeleteRoute statusUpdater (HTTPRouteID name) (m_store m)) m.

Definition m_DeleteTCPRoute (name : NamespacedName) (m : manager) : option (manager * option error) :=
  on_store (DeleteRoute statusUpdater (TCPRouteID name) (m_store m)) m.

End manager.

(** ** What the manager relies on *)

(** The encoding of a gateway keeps its metadata, its Consul namespace and its
    configuration, up to what a snapshot keeps. *)
Class KeepsOrigin (D : Type) `{Marshaler K8sGateway K8sRoute D} : Prop := {
  marshal_keeps : ∀ g d g', spec_in_range (gcc_Spec (kg_Config g)) → MarshalGateway g = Ok d → UnmarshalGateway d = Ok g' →
    gw_Meta (kg_Gateway g') = gw_Meta (kg_Gateway g) ∧
    gst_ConsulNamespace (kg_GatewayState g') = gst_ConsulNamespace (kg_GatewayState g) ∧
    snapshot (gcc_Spec (kg_Config g')) = snapshot (gcc_Spec (kg_Config g))
}.

(** ** Tracked gateways *)

Section tracking.
Context {JT : JsonText} {LJ : LawfulJsonText} {MF : MultierrorFormat} {MR : MapRange} {NU : NetURL}.
Context {SCH : Scheduler} {D W : Type} {MA : Marshaler K8sGateway K8sRoute D} {KO : KeepsOrigin D}.
Context {LS : LabelSelectors} (client : Client) {AD : SyncAdapters W}.
Context {AP : ApiServer W} {CR : ClusterReads W} {CL : Clock W}.
Context (statusUpdater : option (StatusUpdaters K8sGateway K8sRoute W)).
Context (resolver : W → BackendResolver) (format_kinds : list RouteGroupKind → string).
Context (controllerName : string) (consulNamespaceMapper : string → string).

#[local] Instance manager_binders : Binders K8sGateway K8sRoute := k8s_binders client.

Abbreviation memory_manager := (@manager (memoryBackend D) W).
Implicit Types (m : memory_manager) (ns : gmap NamespacedName string).

(** A gateway the map knows: under its name with its Consul namespace, the one
    its Kubernetes namespace maps to; and its object carries the configuration
    it is run with. *)
Definition tracked ns (g : K8sGateway) : Prop :=
  let gw := kg_Gateway g in
  ns !! gateway_NamespacedName gw = Some (gst_ConsulNamespace (kg_GatewayState g)) ∧
  gst_ConsulNamespace (kg_GatewayState g) = consulNamespaceMapper (om_Namespace (gw_Meta gw)) ∧
  annotated_config gw = Some (snapshot (gcc_Spec (kg_Config g))).

Lemma tracked_keeps ns g g' :
  gw_Meta (kg_Gateway g') = gw_Meta (kg_Gateway g) →
  gst_ConsulNamespace (kg_GatewayState g') = gst_ConsulNamespace (kg_GatewayState g) →
  snapshot (gcc_Spec (kg_Config g')) = snapshot (gcc_Spec (kg_Config g)) →
  tracked ns g → tracked ns g'.
Proof.
  unfold tracked, annotated_config, gateway_NamespacedName. by intros -> -> ->.
Qed.

Lemma annotated_config_in_range g spec : annotated_config g = Some spec → spec_in_range spec.
Proof.
  unfold annotated_config. destruct (om_Annotations (gw_Meta g) !! annotationConfig) as [text|]; [|done].
  simpl. destruct (json_parse text) as [j|]; [|done]. simpl.
  destruct (unmarshal_spec j) as [s|] eqn:Hu; [|done]. intros [= <-]. by eapply unmarshal_spec_in_range.
Qed.

#[local] Instance tracked_stable ns : Stable (D := D) (tracked ns).
Proof using KO.
  split.
  - intros g r g' r' md [Hg _]%Bind_frame. apply tracked_keeps; by rewrite Hg.
  - intros g r g' r' md [= HU]. revert HU. unfold Unbind.
    destruct (unbind_listeners_spec (gst_Listeners (kg_GatewayState g)) r g false)
      as (r1 & -> & _). intros [= <- _ _]. by apply tracked_keeps.
  - intros g d g' Hm Hu Ht.
    assert (spec_in_range (gcc_Spec (kg_Config g))) as Hr
      by (destruct Ht as (_ & _ & Ha); exact (annotated_config_in_range _ _ Ha)).
    destruct (marshal_keeps g d g' Hr Hm Hu) as (Hmeta & Hns & Hc).
    split; [by eapply tracked_keeps|]. unfold gateway_ID. simpl. unfold K8sGateway_ID.
    by rewrite Hmeta, Hns.
Qed.

(** The invariant: every stored gateway is tracked, under its identity. *)
Definition all_tracked m : Prop :=
  all_gateways (tracked (m_namespaceMap m)) (st_backend (m_store m)).

(** The snapshot of a decoded configuration is what re-annotating writes. *)
Lemma annotated_config_annotate spec g :
  spec_in_range spec → annotated_config (annotate (mkGatewayClassConfig (new_meta "" "" ∅ ∅) spec) g) = Some (snapshot spec).
Proof using LJ.
  intros Hr. unfold annotated_config, annotate. cbn [gw_set_Annotations gw_Meta om_set_Annotations
    om_Annotations gcc_Spec]. rewrite lookup_insert_eq. cbn [mbind option_bind].
  rewrite json_parse_text. cbn [mbind result_bind]. by rewrite spec_roundtrip.
Qed.

(** Mapping a gateway keeps the tracked ones tracked. *)
Lemma tracked_insert ns gw g :
  tracked ns g →
  tracked (<[gateway_NamespacedName gw := consulNamespaceMapper (om_Namespace (gw_Meta gw))]> ns) g.
Proof.
  intros (Hns & Hmap & Hcfg). split_and!; [|done|done].
  destruct (decide (gateway_NamespacedName gw = gateway_NamespacedName (kg_Gateway g))) as [Heq|Hne].
  - rewrite Heq, lookup_insert_eq, Hmap. do 2 f_equal. by injection Heq.
  - by rewrite lookup_insert_ne.
Qed.

Lemma all_gateways_mono (P Q : K8sGateway → Prop) (b : memoryBackend D) :
  (∀ g, P g → Q g) → all_gateways P b → all_gateways Q b.
Proof. intros HPQ Hall id d g Hd Hu. destruct (Hall id d g Hd Hu). split; auto. Qed.

Lemma on_store_Some r m m' err :
  on_store r m = Some (m', err) →
  ∃ s, r = Some (s, err) ∧ m' = m_set_store s m.
Proof. destruct r as [[s e]|]; [|done]. simpl. intros [= <- <-]. by exists s. Qed.

Lemma m_UpsertGateway_tracked g m m' err :
  all_tracked m →
  m_UpsertGateway statusUpdater format_kinds controllerName consulNamespaceMapper g m = Some (m', err) →
  all_tracked m'.
Proof using LJ KO.
  intros Hall. unfold m_UpsertGateway. destruct (annotated_config g) as [spec|] eqn:Hspec.
  2:{ destruct (class_config _ _ m) as [[config|]|e]; [|by intros [= <- _]..].
      destruct (Update _ _) as [w e]. by intros [= <- _]. }
  apply annotated_config_in_range in Hspec.
  set (config := mkGatewayClassConfig (new_meta "" "" ∅ ∅) spec). set (g1 := annotate config g).
  set (ns := <[gateway_NamespacedName g1 := _]> (m_namespaceMap m)).
  assert (all_gateways (tracked ns) (st_backend (m_store m))) as Hall'.
  { eapply all_gateways_mono; [|exact Hall]. intros g0. apply tracked_insert. }
  destruct (d_Service config g1) as [service|]; [|done]. cbn [mbind option_bind].
  destruct (GatewayValidator_Validate _ _ _ _) as [state|e]; [|by intros [= <- _]].
  intros (s & Hup & ->)%on_store_Some. unfold all_tracked. simpl.
  eapply (UpsertGateway_all _ (tracked ns)); [exact Hall'| |exact Hup].
  split_and!; [|done|].
  - unfold ns. simpl. by rewrite lookup_insert_eq.
  - simpl. by apply annotated_config_annotate.
Qed.

Lemma m_DeleteGateway_tracked n m m' err :
  all_tracked m → m_DeleteGateway statusUpdater n m = Some (m', err) →
  all_tracked m' ∧
  (err = None → ∀ id d g, mb_gateways (st_backend (m_store m')) !! id = Some d →
     UnmarshalGateway d = Ok g → gateway_NamespacedName (kg_Gateway g) ≠ n).
Proof using KO.
  intros Hall. unfold m_DeleteGateway.
  destruct (on_store _ m) as [[m1 e]|] eqn:Hon; [|done]. cbn [mbind option_bind].
  apply on_store_Some in Hon as (s & Hdel & ->).
  pose proof Hdel as Hall'. apply (DeleteGateway_all _ (tracked (m_namespaceMap m))) in Hall'; [|done].
  destruct e as [e|]; intros [= <- <-]; [by split|]. apply DeleteGateway_gone in Hdel as Hgone.
  assert (∀ id d g, mb_gateways (st_backend s) !! id = Some d → UnmarshalGateway d = Ok g →
    gateway_NamespacedName (kg_Gateway g) ≠ n) as Hne.
  { intros id d g Hd Hu Hn. destruct (Hall' id d g Hd Hu) as [(Hns & _) Hid].
    assert (mkGatewayID (default "" (m_namespaceMap m !! n)) (nn_Name n) = id) as Hid'.
    { rewrite <-Hid, <-Hn. by rewrite Hns. }
    by rewrite Hid', Hd in Hgone. }
  split; [|done]. intros id d g Hd Hu. destruct (Hall' id d g Hd Hu) as [(Hns & Hrest) Hid].
  split; [|done]. split; [|done]. simpl. rewrite lookup_delete_ne; [done|]. intros ->.
  by apply (Hne id d g Hd Hu).
Qed.

Lemma on_store_route_tracked (op : option (store * option error)) m m' err :
  (∀ s e, op = Some (s, e) → all_gateways (tracked (m_namespaceMap m)) (st_backend s)) →
  on_store op m = Some (m', err) → all_tracked m'.
Proof. intros Hop (s & Hs & ->)%on_store_Some. by eapply Hop. Qed.

Lemma deleteRoute_tracked id m m' err :
  all_tracked m → on_store (DeleteRoute statusUpdater id (m_store m)) m = Some (m', err) →
  all_tracked m'.
Proof using KO.
  intros Hall. apply on_store_route_tracked. intros s e Hs.
  exact (DeleteRoute_all statusUpdater (tracked _) id _ s e Hall Hs).
Qed.

Lemma deleteUnmanagedRoute_tracked namespace parents id m m' r :
  all_tracked m → deleteUnmanagedRoute statusUpdater namespace parents id m = Some (m', r) →
  all_tracked m'.
Proof using KO.
  intros Hall. unfold deleteUnmanagedRoute.
  destruct (if managedByCachedGatewaysForRoute _ _ _ then _ else _) as [[|]|e]; [by intros [= <- _]| |by intros [= <- _]].
  destruct (on_store _ m) as [[m1 e]|] eqn:Hon; [|done]. cbn [mbind option_bind].
  apply deleteRoute_tracked in Hon; [by destruct e; intros [= <- _]|done].
Qed.

Lemma m_upsertRoute_tracked r parents id m m' err :
  all_tracked m →
  m_upsertRoute statusUpdater resolver controllerName r parents id m = Some (m', err) → all_tracked m'.
Proof using KO.
  intros Hall. unfold m_upsertRoute.
  destruct (deleteUnmanagedRoute _ _ _ _ m) as [[m1 res]|] eqn:Hdel; [|done]. cbn [mbind option_bind].
  apply deleteUnmanagedRoute_tracked in Hdel; [|done].
  destruct res as [[|]|e]; [|by intros [= <- _]..].
  destruct (RouteValidator_Validate _ _) as [state|e]; [|by intros [= <- _]].
  apply on_store_route_tracked. intros s e Hs. exact (UpsertRoute_all statusUpdater (tracked _) _ _ _ s e Hdel Hs).
Qed.

End tracking.

(** ** Validated gateways are fresh *)

Section fresh.
Context {MR : MapRange} {NU : NetURL} (client : Client) (format_kinds : list RouteGroupKind → string).

Definition no_routes (l : ListenerState) : Prop := lst_Routes l = ∅.

Lemma Forall_foldl_alter (f : ListenerState → ListenerState) ls idxs :
  (∀ l, no_routes l → no_routes (f l)) → Forall no_routes ls →
  Forall no_routes (foldl (λ ls i, alter f i ls) ls idxs).
Proof.
  intros Hf. revert ls. induction idxs as [|i idxs IH]; intros ls Hls; [done|]. simpl. apply IH.
  apply Forall_alter; [done|]. intros l Hl _. apply Hf. by eapply Forall_lookup_1.
Qed.

Lemma validate_port_fresh ls m : Forall no_routes ls → Forall no_routes (validate_port ls m).
Proof.
  intros Hls. unfold validate_port. repeat case_bool_decide; repeat apply Forall_foldl_alter; done.
Qed.

Lemma validateProtocols_routes l listener :
  lst_Routes (validateProtocols format_kinds l listener) = lst_Routes l.
Proof. unfold validateProtocols. by repeat case_match. Qed.

Lemma validate_tls_options_routes options l : lst_Routes (validate_tls_options options l) = lst_Routes l.
Proof.
  unfold validate_tls_options, tls_min_version, tls_max_version, tls_cipher_suites.
  by repeat (case_match; simplify_eq; try done).
Qed.

Lemma validateTLS_routes l gateway listener l' :
  validateTLS client l gateway listener = Ok l' → lst_Routes l' = lst_Routes l.
Proof.
  unfold validateTLS. destruct (l_TLS listener) as [tls|]; [|by case_match; intros [= <-]].
  destruct (bool_decide _); [by intros [= <-]|].
  destruct (gtls_CertificateRefs tls) as [|ref refs]; [by intros [= <-]|].
  destruct (gatewayAllowedForSecretRef _ _ _) as [allowed|]; [|done]. simpl.
  destruct allowed; simpl; [|by intros [= <-]].
  destruct (resolveCertificateReference _ _ _) as [resource|e].
  - intros [= <-]. by rewrite validate_tls_options_routes.
  - destruct (As_CertificateResolutionError e); [by intros [= <-]|done].
Qed.

Lemma validate_listener_routes l gateway listener l' :
  validate_listener client format_kinds l gateway listener = Ok l' → lst_Routes l' = lst_Routes l.
Proof.
  unfold validate_listener. destruct (validateTLS _ _ _ _) as [l1|] eqn:Htls; [|done]. simpl.
  apply validateTLS_routes in Htls. rewrite validateProtocols_routes in Htls.
  assert (lst_Routes (validateUnsupported l gateway) = lst_Routes l) as Hu
    by (unfold validateUnsupported; by case_bool_decide).
  destruct (_ && _); intros [= <-]; simpl; by rewrite Htls, Hu.
Qed.

Lemma validateListeners_fresh st gateway st' :
  Forall no_routes (gst_Listeners st) →
  validateListeners client format_kinds st gateway = Ok st' → Forall no_routes (gst_Listeners st').
Proof.
  intros Hls. unfold validateListeners.
  destruct (mapM_result _ _) as [ls|] eqn:Hm; [|done]. cbn [mbind result_bind].
  assert (Forall no_routes ls) as Hnew.
  { apply mapM_result_Ok in Hm. apply Forall_lookup_2. intros i l Hi.
    destruct (Forall2_lookup_r _ _ _ _ _ Hm Hi) as ([l0 listener] & Hz & Hv).
    apply validate_listener_routes in Hv. unfold no_routes. rewrite Hv. simpl.
    apply lookup_zip_Some in Hz as [Hl0 _]. by apply (Forall_lookup_1 _ _ _ _ Hls Hl0). }
  intros [= <-]. by destruct (existsb _ _); [|destruct (_ || _ || _)].
Qed.

Lemma Validate_fresh gateway service st :
  GatewayValidator_Validate client format_kinds gateway service = Ok st →
  Forall no_routes (gst_Listeners st).
Proof.
  unfold GatewayValidator_Validate. set (st0 := validateListenerConflicts _ _).
  assert (Forall no_routes (gst_Listeners st0)) as H0.
  { assert (Forall no_routes (gst_Listeners (InitialGatewayState gateway))) as Hi
      by by apply Forall_fmap, Forall_true.
    change (gst_Listeners st0) with (foldl (λ ls kv, validate_port ls kv.2)
      (gst_Listeners (InitialGatewayState gateway)) (range (mergeListenersByPort gateway))).
    revert Hi. generalize (gst_Listeners (InitialGatewayState gateway)) as ls.
    induction (range (mergeListenersByPort gateway)) as [|kv kvs IH]; intros ls Hls; [done|].
    simpl. apply IH. by apply validate_port_fresh. }
  unfold validatePods. destruct (cl_PodsWithLabels client _) as [pods|]; [|done].
  cbn [mbind result_bind].
  destruct (validatePods_spec st0 pods) as ([_ Hl1] & Ha1 & Hs1 & _).
  set (st1 := foldl validatePodConditions st0 pods) in *.
  destruct (validateGatewayIP client st1 gateway service) as [st2|] eqn:Hip; [|done].
  cbn [mbind result_bind].
  apply validateGatewayIP_spec in Hip as ([_ Hl2] & _);
    [|unfold addressed; by rewrite Ha1, Hs1|by rewrite Ha1].
  apply validateListeners_fresh. case_bool_decide; simpl; by rewrite Hl2, Hl1.
Qed.

End fresh.

(** ** Reachable managers *)

Section reachable.
Context {JT : JsonText} {LJ : LawfulJsonText} {MF : MultierrorFormat} {MR : MapRange} {NU : NetURL}.
Context {SCH : Scheduler} {D W : Type} {MA : Marshaler K8sGateway K8sRoute D} {KO : KeepsOrigin D}.
Context {LS : LabelSelectors} (client : Client) {AD : SyncAdapters W}.
#[local] Instance reachable_binders : Binders K8sGateway K8sRoute := k8s_binders client.
#[local] Instance reachable_lawful : LawfulBinder K8sGateway K8sRoute := k8s_lawful_binder client.
Context {LM : LawfulMarshaler K8sGateway K8sRoute D}.
Context {AP : ApiServer W} {CR : ClusterReads W} {CL : Clock W}.
Context (statusUpdater : option (StatusUpdaters K8sGateway K8sRoute W)).
Context (resolver : W → BackendResolver) (format_kinds : list RouteGroupKind → string).
Context (controllerName : string) (consulNamespaceMapper : string → string).

Abbreviation memory_manager := (@manager (memoryBackend D) W).
Implicit Types (m : memory_manager).

(** One operation of the manager, one tick of the store's sync loop, or a
    change of the outside world.  The routes it is given carry the kind of
    their type, which the store's encoding relies on. *)
Inductive manager_step : memory_manager → memory_manager → Prop :=
  | MUpsertGatewayClass gc m m' err :
      m_UpsertGatewayClass gc m = (m', err) → manager_step m m'
  | MUpsertGateway g m m' err :
      m_UpsertGateway statusUpdater format_kinds controllerName consulNamespaceMapper g m
        = Some (m', err) → manager_step m m'
  | MUpsertHTTPRoute r m m' err :
      typed_route (RouteHTTP r) →
      m_UpsertHTTPRoute statusUpdater resolver controllerName r m = Some (m', err) → manager_step m m'
  | MUpsertTCPRoute r m m' err :
      typed_route (RouteTCP r) →
      m_UpsertTCPRoute statusUpdater resolver controllerName r m = Some (m', err) → manager_step m m'
  | MDeleteGatewayClass name m : manager_step m (m_DeleteGatewayClass name m)
  | MDeleteGateway n m m' err :
      m_DeleteGateway statusUpdater n m = Some (m', err) → manager_step m m'
  | MDeleteHTTPRoute n m m' err :
      m_DeleteHTTPRoute statusUpdater n m = Some (m', err) → manager_step m m'
  | MDeleteTCPRoute n m m' err :
      m_DeleteTCPRoute statusUpdater n m = Some (m', err) → manager_step m m'
  | MSyncAll m s err :
      syncAll statusUpdater (m_store m) = Some (s, err) → manager_step m (m_set_store s m)
  | MWorld w m : manager_step m (m_set_world w m).

Definition new_manager (w : W) : memory_manager := mkManager ∅ ∅ (mkStore NewMemoryBackend w).

Definition manager_inv m : Prop :=
  all_tracked consulNamespaceMapper m ∧ store_inv (st_backend (m_store m)).

Lemma m_UpsertGateway_store g m m' err :
  store_inv (st_backend (m_store m)) →
  m_UpsertGateway statusUpdater format_kinds controllerName consulNamespaceMapper g m = Some (m', err) →
  store_inv (st_backend (m_store m')).
Proof using LM.
  intros Hinv. unfold m_UpsertGateway. destruct (annotated_config g) as [spec|] eqn:Hspec.
  2:{ destruct (class_config _ _ m) as [[config|]|e]; [|by intros [= <- _]..].
      destruct (Update _ _) as [w e]. by intros [= <- _]. }
  destruct (d_Service _ _) as [service|]; [|done]. cbn [mbind option_bind].
  destruct (GatewayValidator_Validate _ _ _ _) as [state|e] eqn:Hval; [|by intros [= <- _]].
  intros (s & Hup & ->)%on_store_Some.
  eapply UpsertGateway_inv; [exact Hinv| | |exact Hup]; [|exact (annotated_config_in_range _ _ Hspec)].
  apply Validate_fresh in Hval. apply set_eq. intros x. split; [|by intros []%not_elem_of_empty].
  intros (l & Hl & [v Hv])%elem_of_listener_routes. simpl in Hl.
  rewrite Forall_forall in Hval. specialize (Hval l Hl). unfold no_routes in Hval.
  by rewrite Hval in Hv.
Qed.

Lemma deleteUnmanagedRoute_store namespace parents id m m' r :
  store_inv (st_backend (m_store m)) →
  deleteUnmanagedRoute statusUpdater namespace parents id m = Some (m', r) →
  store_inv (st_backend (m_store m')) ∧
  (r = Ok false → mb_routes (st_backend (m_store m')) = delete id (mb_routes (st_backend (m_store m))) ∧
     dom (mb_gateways (st_backend (m_store m'))) = dom (mb_gateways (st_backend (m_store m)))).
Proof using LM.
  intros Hinv. unfold deleteUnmanagedRoute.
  destruct (if managedByCachedGatewaysForRoute _ _ _ then _ else _) as [[|]|e];
    [by intros [= <- <-]| |by intros [= <- <-]].
  destruct (on_store _ m) as [[m1 e]|] eqn:Hon; [|done]. cbn [mbind option_bind].
  apply on_store_Some in Hon as (s & Hs & ->). apply DeleteRoute_spec in Hs as (Hinv' & Hr & Hd); [|done].
  by destruct e; intros [= <- <-].
Qed.

Lemma m_upsertRoute_store r parents id m m' err :
  store_inv (st_backend (m_store m)) → typed_route r →
  m_upsertRoute statusUpdater resolver controllerName r parents id m = Some (m', err) →
  store_inv (st_backend (m_store m')).
Proof using LM.
  intros Hinv Hty. unfold m_upsertRoute.
  destruct (deleteUnmanagedRoute _ _ _ _ m) as [[m1 res]|] eqn:Hdel; [|done]. cbn [mbind option_bind].
  apply deleteUnmanagedRoute_store in Hdel as [Hinv1 _]; [|done].
  destruct res as [[|]|e]; [|by intros [= <- _]..].
  destruct (RouteValidator_Validate _ _) as [state|e]; [|by intros [= <- _]].
  intros (s & Hup & ->)%on_store_Some. eapply UpsertRoute_inv; [exact Hinv1| |exact Hup]; exact Hty.
Qed.

Lemma m_DeleteGateway_store n m m' err :
  store_inv (st_backend (m_store m)) →
  m_DeleteGateway statusUpdater n m = Some (m', err) → store_inv (st_backend (m_store m')).
Proof using LM.
  intros Hinv. unfold m_DeleteGateway.
  destruct (on_store _ m) as [[m1 e]|] eqn:Hon; [|done]. cbn [mbind option_bind].
  apply on_store_Some in Hon as (s & Hs & ->). apply DeleteGateway_inv in Hs; [|done].
  by destruct e; intros [= <- _].
Qed.

Lemma delete_route_manager id m m' err :
  manager_inv m → on_store (DeleteRoute statusUpdater id (m_store m)) m = Some (m', err) →
  manager_inv m'.
Proof using LM KO.
  intros [Ht Hinv] Hon. split; [by eapply deleteRoute_tracked|].
  apply on_store_Some in Hon as (s & Hs & ->). by eapply DeleteRoute_spec.
Qed.

Lemma manager_step_inv m m' : manager_step m m' → manager_inv m → manager_inv m'.
Proof using LM KO LJ.
  intros Hstep [Ht Hinv].
  destruct Hstep as [gc m m' e Hs|g m m' e Hs|r m m' e Hty Hs|r m m' e Hty Hs|name m|n m m' e Hs|n m m' e Hs
                    |n m m' e Hs|m s e Hs|w m].
  - unfold m_UpsertGatewayClass in Hs. destruct (upsert_class _ _ _) as [[w classes] e'].
    by injection Hs as <- _.
  - split; [by eapply m_UpsertGateway_tracked|by eapply m_UpsertGateway_store].
  - split; [by eapply m_upsertRoute_tracked|by eapply m_upsertRoute_store].
  - split; [by eapply m_upsertRoute_tracked|by eapply m_upsertRoute_store].
  - done.
  - split; [by eapply m_DeleteGateway_tracked|by eapply m_DeleteGateway_store].
  - by eapply delete_route_manager.
  - by eapply delete_route_manager.
  - apply syncAll_inv in Hs. unfold manager_inv, all_tracked. simpl. by rewrite Hs.
  - done.
Qed.

Lemma reachable_manager_inv w m : rtc manager_step (new_manager w) m → manager_inv m.
Proof using LM KO LJ.
  assert (manager_inv (new_manager w)) as H0 by (split; [by intros id d g|by split; intros ??]).
  revert H0. generalize (new_manager w). intros m0 H0 Hrtc.
  induction Hrtc as [|m1 m2 m3 Hstep _ IH]; [done|]. apply IH. by eapply manager_step_inv.
Qed.

(** C3: the manager knows every gateway it keeps.  In every state the manager
    can reach, whatever is reconciled, deleted, synced or changed from outside
    and whatever errors occur: the stored gateways and routes can be listed;
    every stored gateway is mapped, under its own name, to the Consul namespace
    of its Kubernetes namespace, runs with the configuration its object is
    annotated with, and every route attached to it is stored. *)
Theorem manager_tracks_gateways (w : W) m :
  rtc manager_step (new_manager w) m →
  ∃ gs rs, listGateways (st_backend (m_store m)) = Ok gs ∧
    listRoutes (st_backend (m_store m)) = Ok rs ∧
    ∀ g, g ∈ gs →
      m_namespaceMap m !! gateway_NamespacedName (kg_Gateway g)
        = Some (consulNamespaceMapper (om_Namespace (gw_Meta (kg_Gateway g)))) ∧
      gid_ConsulNamespace (gateway_ID g)
        = consulNamespaceMapper (om_Namespace (gw_Meta (kg_Gateway g))) ∧
      annotated_config (kg_Gateway g) = Some (snapshot (gcc_Spec (kg_Config g))) ∧
      (∀ id, id ∈ attached_routes g → ∃ r, r ∈ rs ∧ route_ID r = id).
Proof using LM KO LJ.
  intros [Ht Hinv]%reachable_manager_inv.
  destruct (listGateways_ok _ Hinv) as (gs & Hgs & _).
  destruct (listRoutes_ok _ Hinv) as (rs & Hrs & Hrids & _).
  exists gs, rs. split_and!; [done|done|]. intros g Hg.
  pose proof (listGateways_all _ _ _ Ht Hgs) as Hall. rewrite Forall_forall in Hall.
  destruct (Hall g Hg) as (Hns & Hmap & Hcfg). split_and!; [by rewrite <-Hmap|done|done|].
  intros id Hid. assert (id ∈ dom (mb_routes (st_backend (m_store m)))) as Hdom
    by by eapply listed_attached.
  apply elem_of_dom, elem_of_range_keys in Hdom. rewrite <-Hrids in Hdom.
  apply list_elem_of_fmap in Hdom as (r & -> & Hr). eauto.
Qed.

(** C12: deleting a gateway is complete.  After [DeleteGateway] succeeded in a
    reachable state, no stored gateway has that name and namespace, the name is
    forgotten, and the remaining gateways are still tracked. *)
Theorem deleted_gateway_gone (w : W) m m' (n : NamespacedName) :
  rtc manager_step (new_manager w) m → m_DeleteGateway statusUpdater n m = Some (m', None) →
  m_namespaceMap m' !! n = None ∧ all_tracked consulNamespaceMapper m' ∧
  ∀ id g, getGateway (st_backend (m_store m')) id = Ok (Some g) →
    gateway_NamespacedName (kg_Gateway g) ≠ n.
Proof using LM KO LJ.
  intros [Ht Hinv]%reachable_manager_inv Hdel.
  pose proof Hdel as Hmap. unfold m_DeleteGateway in Hmap.
  destruct (on_store _ m) as [[m1 [e|]]|]; [done| |done]. injection Hmap as Hmap.
  eapply m_DeleteGateway_tracked in Hdel as [Ht' Hgone]; [|exact Ht]. specialize (Hgone eq_refl).
  split_and!; [|done|].
  - rewrite <-Hmap. simpl. by rewrite lookup_delete_eq.
  - intros id g. unfold getGateway. cbn [backend_GetGateway memory_backend]. unfold memory_GetGateway.
    destruct (mb_gateways _ !! id) as [d|] eqn:Hd; [|done].
    destruct (UnmarshalGateway d) as [g'|] eqn:Hu; [|done]. intros [= <-]. by eapply Hgone.
Qed.

(** A route that is no longer managed is removed.  When neither the
    manager's map nor the cluster knows a gateway among the parents of a
    reconciled route, the route is deleted from the store with everything
    attached to it, and nothing else is. *)
Theorem unmanaged_route_removed (w : W) m m' (r : Route) parents id :
  rtc manager_step (new_manager w) m →
  managedByCachedGatewaysForRoute (route_Namespace r) parents m = false →
  IsManagedRoute (reads (m_world m)) (route_Namespace r) parents = Ok false →
  m_upsertRoute statusUpdater resolver controllerName r parents id m = Some (m', None) →
  getRoute (st_backend (m_store m')) id = Ok None ∧
  (∀ other, other ≠ id →
     getRoute (st_backend (m_store m')) other = getRoute (st_backend (m_store m)) other) ∧
  (∀ gid g, getGateway (st_backend (m_store m')) gid = Ok (Some g) → id ∉ attached_routes g) ∧
  dom (mb_gateways (st_backend (m_store m'))) = dom (mb_gateways (st_backend (m_store m))).
Proof using LM KO LJ.
  intros [_ Hinv]%reachable_manager_inv Hcache Hremote Hup. unfold m_upsertRoute in Hup.
  destruct (deleteUnmanagedRoute _ _ _ _ m) as [[m1 res]|] eqn:Hdel; [|done].
  cbn [mbind option_bind] in Hup.
  assert (res = Ok false ∨ ∃ e, res = Err e) as Hres.
  { unfold deleteUnmanagedRoute in Hdel. rewrite Hcache, Hremote in Hdel.
    destruct (on_store _ m) as [[m2 [e|]]|]; [|simpl in Hdel|done]; injection Hdel as <- <-; eauto. }
  apply deleteUnmanagedRoute_store in Hdel as [Hinv1 Hrest]; [|done].
  destruct Hres as [->|[e ->]]; [|done]. injection Hup as <-.
  destruct (Hrest eq_refl) as [Hr Hd]. split_and!; [| | |done].
  - rewrite getRoute_lookup, Hr by done. by rewrite lookup_delete_eq.
  - intros other Hne. rewrite !getRoute_lookup, Hr by done. by rewrite lookup_delete_ne.
  - intros gid g Hg Hid. apply getGateway_Some in Hg as [_ Hatt]; [|done].
    apply Hatt in Hid. rewrite Hr, dom_delete in Hid. set_solver.
Qed.

(** The wrong gateway is deleted.  Deleting a gateway the manager does not
    know, for instance one of another controller, removes whatever gateway of
    that name is stored in the default Consul namespace, although its object,
    in another Kubernetes namespace, still exists. *)
Theorem unknown_gateway_deletes_namesake (w : W) m m' (n : NamespacedName) :
  rtc manager_step (new_manager w) m → m_namespaceMap m !! n = None →
  m_DeleteGateway statusUpdater n m = Some (m', None) →
  getGateway (st_backend (m_store m')) (mkGatewayID "" (nn_Name n)) = Ok None ∧
  ∀ g, getGateway (st_backend (m_store m)) (mkGatewayID "" (nn_Name n)) = Ok (Some g) →
    gateway_NamespacedName (kg_Gateway g) ≠ n ∧ om_Name (gw_Meta (kg_Gateway g)) = nn_Name n ∧
    is_Some (m_namespaceMap m' !! gateway_NamespacedName (kg_Gateway g)).
Proof using LM KO LJ.
  intros [Ht Hinv]%reachable_manager_inv Hnone Hdel. unfold m_DeleteGateway in Hdel.
  destruct (on_store _ m) as [[m1 e]|] eqn:Hon; [|done]. cbn [mbind option_bind] in Hdel.
  apply on_store_Some in Hon as (s & Hs & ->). rewrite Hnone in Hs.
  destruct e as [e|]; [done|]. injection Hdel as <-. split.
  - apply DeleteGateway_gone in Hs.
    change (mb_gateways (st_backend s) !! mkGatewayID "" (nn_Name n) = None) in Hs. unfold getGateway.
    cbn [backend_GetGateway memory_backend m_set_namespaces m_set_store m_store].
    unfold memory_GetGateway. by rewrite Hs.
  - intros g Hg. apply (getGateway_all _ _ _ _ Ht) in Hg as [(Hns & _) Hid].
    assert (gateway_NamespacedName (kg_Gateway g) ≠ n) as Hne
      by (intros Heq; by rewrite Heq, Hnone in Hns).
    split_and!; [done|by injection Hid|]. simpl. by rewrite lookup_delete_ne, Hns.
Qed.

Lemma UpsertGateway_stored gateway f s s' :
  store_inv (st_backend s) → storable_gateway gateway → f None = true →
  UpsertGateway statusUpdater gateway (Some f) s = Some (s', None) →
  is_Some (mb_gateways (st_backend s') !! gateway_ID gateway).
Proof using LM.
  intros Hinv Hst Hf. unfold UpsertGateway.
  destruct (getGateway _ _) as [current|e] eqn:Hget; [|done].
  destruct (negb (f current)) eqn:Hcond.
  - intros [= <-]. destruct current as [current|]; [|by rewrite Hf in Hcond].
    revert Hget. unfold getGateway. cbn [backend_GetGateway memory_backend]. unfold memory_GetGateway.
    by destruct (mb_gateways (st_backend s) !! gateway_ID gateway).
  - destruct (listRoutes (st_backend s)) as [routes|e] eqn:Hl; [|done].
    destruct (bindAll [gateway] routes) as [bound|] eqn:Hb; [|done]. cbn [mbind option_bind].
    pose proof (bindOrUnbindAll_storable _ _ _ _ Bind_storable Hb ltac:(by apply Forall_singleton)
      (listed_routes_storable _ _ Hinv Hl)) as Hbs.
    apply bindOrUnbindAll_inv in Hb as (Hids & _); [|apply binding_Bind|apply NoDup_singleton].
    unfold upsertGatewaysAndRoutes.
    destruct (upsertGateways_ok (st_backend s) (bs_gateways bound) (proj1 Hbs)) as (ms & -> & Hms).
    destruct (upsertRoutes_ok (mkMemoryBackend ms (mb_routes (st_backend s))) (modified_routes bound)
      (proj2 (modified_storable _ Hbs))) as (mr & -> & _).
    destruct (syncGatewaysAndRoutes _ _ _ _) as [[w err]|]; [|done]. simpl. intros [= <- _]. simpl.
    destruct (Hms (gateway_ID gateway)) as [[Hn _]|(g & d & g' & _ & _ & Hd & _)]; [|by eexists].
    exfalso. apply Hn. rewrite Hids. by left.
Qed.

Lemma m_UpsertGateway_stored g spec m m' :
  store_inv (st_backend (m_store m)) → annotated_config g = Some spec →
  m_UpsertGateway statusUpdater format_kinds controllerName consulNamespaceMapper g m = Some (m', None) →
  ∃ stored, getGateway (st_backend (m_store m'))
      (mkGatewayID (consulNamespaceMapper (om_Namespace (gw_Meta g))) (om_Name (gw_Meta g)))
      = Ok (Some stored).
Proof using LM.
  intros Hinv Hspec Hup.
  destruct (m_UpsertGateway_store _ _ _ _ Hinv Hup) as [Hg' _]. unfold m_UpsertGateway in Hup. rewrite Hspec in Hup.
  destruct (d_Service _ _) as [service|]; [|done]. cbn [mbind option_bind] in Hup.
  destruct (GatewayValidator_Validate _ _ _ _) as [state|e]; [|done].
  apply on_store_Some in Hup as (s & Hup & ->).
  apply UpsertGateway_stored in Hup as [d Hd]; [|done|exact (annotated_config_in_range _ _ Hspec)|done].
  change (mb_gateways (st_backend s) !! mkGatewayID (consulNamespaceMapper (om_Namespace (gw_Meta g)))
    (om_Name (gw_Meta g)) = Some d) in Hd.
  destruct (Hg' _ d Hd) as (stored & Hu & _). exists stored. unfold getGateway.
  cbn [backend_GetGateway memory_backend m_set_store m_store]. unfold memory_GetGateway.
  by rewrite Hd, Hu.
Qed.

(** C28: a managed gateway is stored by its second reconciliation.  A gateway
    that is not being deleted, without a snapshot and of a class of ours, is first written back, annotated
    with the snapshot of the class configuration, and the store is left alone;
    the object that is then in the cluster is reconciled, at any later time,
    with exactly that configuration, and is stored under its Consul namespace
    when that reconciliation succeeds. *)
Theorem managed_gateway_stored {LA : LawfulApi W} (w : W) m (g : Gateway) (config : GatewayClassConfig) :
  rtc manager_step (new_manager w) m →
  annotated_config g = None →
  class_config controllerName (gw_GatewayClassName g) m = Ok (Some config) →
  spec_in_range (gcc_Spec config) →
  (∀ o, view (m_world m) !! (KGateway, gateway_NamespacedName g) = Some o →
     om_DeletionTimestamp (obj_Meta o) = None) →
  ∃ m1 err1,
    m_UpsertGateway statusUpdater format_kinds controllerName consulNamespaceMapper g m = Some (m1, err1) ∧
    st_backend (m_store m1) = st_backend (m_store m) ∧
    (err1 = None → ∃ g1,
       view (m_world m1) !! (KGateway, gateway_NamespacedName g) = Some (ObjGateway g1) ∧
       annotated_config g1 = Some (snapshot (gcc_Spec config)) ∧
       ∀ m2 m3, rtc manager_step m1 m2 →
         m_UpsertGateway statusUpdater format_kinds controllerName consulNamespaceMapper g1 m2
           = Some (m3, None) →
         ∃ stored, getGateway (st_backend (m_store m3))
             (mkGatewayID (consulNamespaceMapper (om_Namespace (gw_Meta g))) (om_Name (gw_Meta g)))
             = Ok (Some stored)).
Proof using LM KO LJ.
  intros Hreach Hann Hclass Hrange Hlive.
  assert (∀ m1, rtc manager_step m m1 → manager_inv m1) as Hlater
    by (intros m1 Hm1; eapply reachable_manager_inv; by etrans).
  destruct (Update (m_world m) (ObjGateway (annotate config g))) as [w1 err1] eqn:Hup.
  assert (m_UpsertGateway statusUpdater format_kinds controllerName consulNamespaceMapper g m
    = Some (m_set_world w1 m, err1)) as Hfirst
    by (unfold m_UpsertGateway; by rewrite Hann, Hclass, Hup).
  exists (m_set_world w1 m), err1. split_and!; [done|done|]. intros ->.
  unfold Update in Hup. destruct (api_Update _ _) as [w2 [e|]] eqn:Hapi; [done|]. injection Hup as ->.
  apply Update_effect in Hapi as [[[_ Hf]|(stored & Had & Hv)]|(_ & (o0 & Ho0 & Hd) & _)];
    [by rewrite bool_decide_true in Hf| |].
  2:{ apply Hlive in Ho0. rewrite Ho0 in Hd. by destruct Hd. }
  destruct Had as (Hkey & _ & Hannot & _ & _ & Hspec). destruct stored as [| | | | | |g1| | |]; try done.
  exists g1. change (m_world (m_set_world w1 m)) with w1. rewrite Hv.
  change (obj_key (ObjGateway (annotate config g))) with (KGateway, gateway_NamespacedName g) in *.
  rewrite lookup_insert_eq. split; [done|].
  assert (annotated_config g1 = Some (snapshot (gcc_Spec config))) as Hann1.
  { rewrite <-(annotated_config_annotate (gcc_Spec config) g Hrange). unfold annotated_config.
    simpl in Hannot. by rewrite Hannot. }
  split; [done|]. intros m2 m3 Hm2 Hup2.
  injection Hkey as Hns Hname. rewrite <-Hns, <-Hname.
  eapply m_UpsertGateway_stored; [|exact Hann1|exact Hup2].
  apply Hlater. eapply rtc_l; [by eapply MUpsertGateway|done].
Qed.

End reachable.

(** ** Examples *)

Module JsonCoding.

(** Texts of documents: any injective coding will do. *)
Fixpoint json_tree (j : json) : gen_tree (bool + Z + string) :=
  match j with
  | JNull => GenNode 0 []
  | JBool b => GenLeaf (inl (inl b))
  | JNumber z => GenLeaf (inl (inr z))
  | JString s => GenLeaf (inr s)
  | JArray xs => GenNode 1 (map json_tree xs)
  | JObject fields => GenNode 2 (map (λ kv, GenNode 3 [GenLeaf (inr kv.1); json_tree kv.2]) fields)
  end.

Fixpoint tree_json (t : gen_tree (bool + Z + string)) : json :=
  match t with
  | GenLeaf (inl (inl b)) => JBool b
  | GenLeaf (inl (inr z)) => JNumber z
  | GenLeaf (inr s) => JString s
  | GenNode 1 ts => JArray (map tree_json ts)
  | GenNode 2 ts =>
      JObject (map (λ t, match t with
                         | GenNode _ [GenLeaf (inr k); v] => (k, tree_json v)
                         | _ => ("", JNull)
                         end) ts)
  | _ => JNull
  end.

Lemma tree_json_tree : ∀ j, tree_json (json_tree j) = j.
Proof.
  fix IH 1. intros [|b|z|s|xs|fields]; try reflexivity; simpl; f_equal.
  - induction xs as [|x xs IHxs]; [reflexivity|]. simpl. by rewrite IH, IHxs.
  - induction fields as [|[k v] fields IHf]; [reflexivity|]. simpl. by rewrite IH, IHf.
Qed.

#[export] Instance coded_text : JsonText := {|
  json_text j := string_code (json_tree j);
  json_parse s := match string_decode s with Some t => Ok (tree_json t) | None => Err err_json end
|}.

#[export] Instance coded_lawful : LawfulJsonText.
Proof. split. intros j. cbn [json_parse json_text coded_text]. by rewrite string_decode_code, tree_json_tree. Qed.

End JsonCoding.

Module ManagerExamples.

Import StoreExamples.

#[export] Existing Instance JsonCoding.coded_text.
#[export] Existing Instance JsonCoding.coded_lawful.
#[export] Existing Instance plain_url.

(** Consul accepts everything. *)
#[export] Instance accepting : SyncAdapters cluster := {|
  adapter_Clear c _ := (c, None);
  adapter_Sync c _ := (c, (true, None))
|}.

#[export] Instance plain_keeps : KeepsOrigin record.
Proof. split. by intros g d g' _ [= <-] [= <-]. Qed.

#[export] Existing Instance ClassExamples.class_reads.
#[export] Existing Instance ClassExamples.stopped_clock.

Definition kinds : list RouteGroupKind → string := λ _, "".
Definition to_default : string → string := λ _, "".
Definition echo : cluster → BackendResolver := λ _, echo_resolver.

Abbreviation example_manager := (@manager (memoryBackend record) cluster).

(** A gateway of the class in a namespace, with these annotations. *)
Definition gateway_in (namespace : string) (annotations : gmap string string) : Gateway :=
  mkGateway (mkObjectMeta "gateway" namespace "uid" 1 "10" 0 ∅ annotations [] [] None)
    (mkGroupKind GroupName "Gateway") "class" [mkListener "a" None 80 "TCP" None None] []
    (mkGatewayStatusObj [] [] []).

Definition annotated_gateway (namespace : string) : Gateway :=
  annotate ClassExamples.config (gateway_in namespace ∅).

Definition upsert (g : Gateway) (m : example_manager) : option (example_manager * option error) :=
  m_UpsertGateway None kinds "controller" to_default g m.

Definition delete_gateway (n : NamespacedName) (m : example_manager) :
    option (example_manager * option error) := m_DeleteGateway None n m.

Abbreviation step := (manager_step BinderExamples.bare_client None echo kinds "controller" to_default).

Definition start : example_manager :=
  new_manager (put_object empty_cluster (ObjGateway (gateway_in "team" ∅))).

Definition stored_names (m : example_manager) : list NamespacedName :=
  match listGateways (st_backend (m_store m)) with
  | Ok gs => gateway_NamespacedName ∘ kg_Gateway <$> gs
  | Err _ => []
  end.

Definition finished (r : option (example_manager * option error)) (ok : example_manager → bool) : bool :=
  match r with Some (m, None) => ok m | _ => false end.

Lemma finished_Some r ok : finished r ok = true → ∃ m, r = Some (m, None) ∧ ok m = true.
Proof. destruct r as [[m [e|]]|]; intros H; [discriminate H|by exists m|discriminate H]. Qed.

(** The manager after the gateway of namespace [team] was reconciled. *)
Lemma with_gateway :
  ∃ m, rtc step start m ∧ stored_names m = [mkNamespacedName "team" "gateway"] ∧
    m_namespaceMap m !! mkNamespacedName "other" "gateway" = None ∧
    finished (delete_gateway (mkNamespacedName "team" "gateway") m)
      (λ m', bool_decide (stored_names m' = [])) = true ∧
    finished (delete_gateway (mkNamespacedName "other" "gateway") m)
      (λ m', bool_decide (stored_names m' = [])) = true.
Proof.
  destruct (finished_Some (upsert (annotated_gateway "team") start) (λ m,
    bool_decide (stored_names m = [mkNamespacedName "team" "gateway"]) &&
    bool_decide (m_namespaceMap m !! mkNamespacedName "other" "gateway" = None) &&
    finished (delete_gateway (mkNamespacedName "team" "gateway") m)
      (λ m', bool_decide (stored_names m' = [])) &&
    finished (delete_gateway (mkNamespacedName "other" "gateway") m)
      (λ m', bool_decide (stored_names m' = [])))) as (m & Hm & Hok); [vm_compute; reflexivity|].
  rewrite !andb_true_iff, !bool_decide_eq_true in Hok. destruct Hok as [[[H1 H2] H3] H4].
  exists m. split; [|by split_and!].
  eapply rtc_l; [|apply rtc_refl]. by eapply MUpsertGateway.
Qed.

(** A route of namespace [team] with these parents. *)
Definition route_with (parents : list ParentReference) : K8sTCPRoute :=
  mkK8sTCPRoute (mkObjectMeta "route" "team" "uid2" 1 "11" 0 ∅ ∅ [] [] None)
    (mkGroupKind GroupName "TCPRoute") parents
    [mkTCPRouteRule [mkBackendRef (mkBackendObjectReference None None "db" None (Some 5432%Z)) None]] [].

Definition attached : K8sTCPRoute := route_with [mkParentReference None None None "gateway" None None].
Definition detached : K8sTCPRoute := route_with [].
Definition the_route : string := TCPRouteID (mkNamespacedName "team" "route").

Definition upsert_tcp (r : K8sTCPRoute) (m : example_manager) :
    option (example_manager * option error) := m_UpsertTCPRoute None echo "controller" r m.

Definition has_route (m : example_manager) : bool :=
  match getRoute (st_backend (m_store m)) the_route with Ok (Some _) => true | _ => false end.

(** The manager after the gateway and a route attached to it were reconciled. *)
Lemma with_route :
  ∃ m, rtc step start m ∧ has_route m = true ∧
    managedByCachedGatewaysForRoute "team" (ktr_ParentRefs detached) m = false ∧
    IsManagedRoute (reads (m_world m)) "team" (ktr_ParentRefs detached) = Ok false ∧
    ∃ m', upsert_tcp detached m = Some (m', None).
Proof.
  destruct (finished_Some (upsert (annotated_gateway "team") start)
    (λ m, finished (upsert_tcp attached m)
       (λ m', has_route m' && finished (upsert_tcp detached m') (λ _, true))))
    as (m & Hm & Hok); [vm_compute; reflexivity|].
  destruct (finished_Some _ _ Hok) as (m' & Hm' & [Hr Hd]%andb_true_iff).
  destruct (finished_Some _ _ Hd) as (m2 & Hm2 & _).
  exists m'. split_and!; [|exact Hr|reflexivity|reflexivity|by exists m2].
  eapply rtc_l; [by eapply MUpsertGateway|]. eapply rtc_l; [eapply (MUpsertTCPRoute _ _ _ _ _ _ attached); [reflexivity|exact Hm']|apply rtc_refl].
Qed.

(** A gateway without a snapshot is annotated, and then stored. *)
Lemma two_reconciliations :
  ∃ m1, upsert (gateway_in "team" ∅) start = Some (m1, None) ∧ stored_names m1 = [] ∧
    finished (upsert (annotated_gateway "team") m1)
      (λ m2, bool_decide (stored_names m2 = [mkNamespacedName "team" "gateway"])) = true ∧
    view (m_world m1) !! (KGateway, mkNamespacedName "team" "gateway")
      = Some (ObjGateway (annotated_gateway "team")).
Proof.
  destruct (finished_Some (upsert (gateway_in "team" ∅) start)
    (λ m1, bool_decide (stored_names m1 = []) && finished (upsert (annotated_gateway "team") m1)
      (λ m2, bool_decide (stored_names m2 = [mkNamespacedName "team" "gateway"])) &&
      bool_decide (view (m_world m1) !! (KGateway, mkNamespacedName "team" "gateway")
        = Some (ObjGateway (annotated_gateway "team")))))
    as (m1 & Hm1 & Hok); [vm_compute; reflexivity|].
  rewrite !andb_true_iff, !bool_decide_eq_true in Hok. destruct Hok as [[H1 H2] H3].
  exists m1. by split_and!.
Qed.

Lemma unannotated : annotated_config (gateway_in "team" ∅) = None.
Proof. unfold annotated_config. simpl. by rewrite lookup_empty. Qed.

Lemma not_deleted o :
  view (m_world start) !! (KGateway, gateway_NamespacedName (gateway_in "team" ∅)) = Some o →
  om_DeletionTimestamp (obj_Meta o) = None.
Proof. simpl. rewrite lookup_insert_eq. by intros [= <-]. Qed.

Lemma class_found : class_config "controller" "class" start = Ok (Some ClassExamples.config).
Proof.
  unfold class_config, GetConfig. simpl. by rewrite lookup_empty.
Qed.

Lemma config_in_range : spec_in_range (gcc_Spec ClassExamples.config).
Proof.
  unfold spec_in_range, pointers_in_range, in_range. simpl.
  split_and!; try lia; intros z Hz; rewrite ?elem_of_cons, elem_of_nil in Hz; naive_solver.
Qed.

End ManagerExamples.

Import (hints) StoreExamples.
Import (hints) ManagerExamples.

Lemma manager_tracks_gateways_witness :
  ∃ (m : ManagerExamples.example_manager) gs,
    ManagerExamples.stored_names m = [mkNamespacedName "team" "gateway"] ∧
    listGateways (st_backend (m_store m)) = Ok gs ∧
    ∀ g, g ∈ gs → m_namespaceMap m !! gateway_NamespacedName (kg_Gateway g) = Some "".
Proof.
  destruct ManagerExamples.with_gateway as (m & Hreach & Hnames & _).
  destruct (manager_tracks_gateways _ _ _ _ _ _ _ _ Hreach) as (gs & rs & Hgs & _ & Hall).
  exists m, gs. split; [exact Hnames|]. split; [exact Hgs|].
  intros g Hg. apply (Hall g Hg).
Defined.

Lemma deleted_gateway_gone_witness :
  ∃ m m' : ManagerExamples.example_manager,
    ManagerExamples.stored_names m = [mkNamespacedName "team" "gateway"] ∧
    m_DeleteGateway None (mkNamespacedName "team" "gateway") m = Some (m', None) ∧
    m_namespaceMap m' !! mkNamespacedName "team" "gateway" = None.
Proof.
  destruct ManagerExamples.with_gateway as (m & Hreach & Hnames & _ & Hdel & _).
  destruct (ManagerExamples.finished_Some _ _ Hdel) as (m' & Hm' & _).
  destruct (deleted_gateway_gone _ _ _ _ _ _ _ _ _ _ Hreach Hm') as (Hgone & _).
  exists m, m'. split; [exact Hnames|]. split; [exact Hm'|exact Hgone].
Defined.

Lemma unknown_gateway_deletes_namesake_witness :
  ∃ m m' : ManagerExamples.example_manager,
    ManagerExamples.stored_names m = [mkNamespacedName "team" "gateway"] ∧
    m_DeleteGateway None (mkNamespacedName "other" "gateway") m = Some (m', None) ∧
    getGateway (st_backend (m_store m')) (mkGatewayID "" "gateway") = Ok None.
Proof.
  destruct ManagerExamples.with_gateway as (m & Hreach & Hnames & Hnone & _ & Hdel).
  destruct (ManagerExamples.finished_Some _ _ Hdel) as (m' & Hm' & _).
  destruct (unknown_gateway_deletes_namesake _ _ _ _ _ _ _ _ _ _ Hreach Hnone Hm') as (Hgone & _).
  exists m, m'. split; [exact Hnames|]. split; [exact Hm'|exact Hgone].
Defined.

Lemma unmanaged_route_removed_witness :
  ∃ m m' : ManagerExamples.example_manager,
    ManagerExamples.has_route m = true ∧
    ManagerExamples.upsert_tcp ManagerExamples.detached m = Some (m', None) ∧
    getRoute (st_backend (m_store m')) ManagerExamples.the_route = Ok None.
Proof.
  destruct ManagerExamples.with_route as (m & Hreach & Hr & Hc & Hi & m' & Hm').
  destruct (unmanaged_route_removed _ _ _ _ _ _ _ _ _ (RouteTCP ManagerExamples.detached)
    (ktr_ParentRefs ManagerExamples.detached) ManagerExamples.the_route Hreach Hc Hi Hm') as (Hgone & _).
  exists m, m'. split; [exact Hr|]. split; [exact Hm'|exact Hgone].
Defined.

Lemma managed_gateway_stored_witness :
  ∃ m1 m2 : ManagerExamples.example_manager, ∃ stored,
    ManagerExamples.upsert (ManagerExamples.gateway_in "team" ∅) ManagerExamples.start = Some (m1, None) ∧
    ManagerExamples.upsert (ManagerExamples.annotated_gateway "team") m1 = Some (m2, None) ∧
    getGateway (st_backend (m_store m2)) (mkGatewayID "" "gateway") = Ok (Some stored).
Proof.
  destruct ManagerExamples.two_reconciliations as (m1 & Hm1 & _ & H2 & Hview).
  destruct (ManagerExamples.finished_Some _ _ H2) as (m2 & Hm2 & _).
  destruct (managed_gateway_stored BinderExamples.bare_client None ManagerExamples.echo
    ManagerExamples.kinds "controller" ManagerExamples.to_default _ ManagerExamples.start
    (ManagerExamples.gateway_in "team" ∅) ClassExamples.config (rtc_refl _ _)
    ManagerExamples.unannotated ManagerExamples.class_found ManagerExamples.config_in_range
    ManagerExamples.not_deleted) as (m1' & err & Hm1' & _ & Hnext).
  assert (Some (m1', err) = Some (m1, None)) as Hsame by (rewrite <-Hm1'; exact Hm1).
  injection Hsame as -> ->.
  destruct (Hnext eq_refl) as (g1 & Hg1 & _ & Hstore).
  assert (g1 = ManagerExamples.annotated_gateway "team") as ->
    by (pose proof (eq_trans (eq_sym Hg1) Hview) as Hsame; by injection Hsame).
  destruct (Hstore m1 m2 (rtc_refl _ _) Hm2) as [stored Hst].
  exists m1, m2, stored. split; [exact Hm1|]. split; [exact Hm2|exact Hst].
Defined.
