(* ===== verification/JsonCode.v ===== *)
(** * Plain encodings of the Kubernetes types

    The encodings of the Kubernetes types belong to packages outside the
    repository and are a parameter of [Codec].  This file has an encoding of
    the model's records that can stand for them: a record is the array of its
    fields.  It shows that what [Codec] assumes can hold, and it lets the
    definitions of [Codec] be evaluated. *)

From S2P Require Import Prelude Errors Json K8s.

Class JsonCode (A : Type) : Type := {
  to_json : A → json;
  of_json : json → option A;
  of_to_json : ∀ a, of_json (to_json a) = Some a;
  to_json_not_null : ∀ a, to_json a ≠ JNull
}.

#[export] Instance string_code_json : JsonCode string.
Proof.
  by refine {| to_json := JString; of_json j := match j with JString s => Some s | _ => None end |}.
Defined.

#[export] Instance Z_code_json : JsonCode Z.
Proof.
  by refine {| to_json := JNumber; of_json j := match j with JNumber z => Some z | _ => None end |}.
Defined.

#[export] Instance bool_code_json : JsonCode bool.
Proof.
  by refine {| to_json := JBool; of_json j := match j with JBool b => Some b | _ => None end |}.
Defined.

#[export] Instance prod_code_json {A B} `{JsonCode A, JsonCode B} : JsonCode (A * B).
Proof.
  refine {| to_json p := JArray [to_json p.1; to_json p.2];
     of_json j := match j with
                  | JArray [a; b] => a ← of_json a; b ← of_json b; Some (a, b)
                  | _ => None
                  end |}.
  - intros [a b]. simpl. by rewrite !of_to_json.
  - done.
Defined.

#[export] Instance sum_code_json {A B} `{JsonCode A, JsonCode B} : JsonCode (A + B).
Proof.
  refine {| to_json s := match s with
                  | inl a => JArray [JBool true; to_json a]
                  | inr b => JArray [JBool false; to_json b]
                  end;
     of_json j := match j with
                  | JArray [JBool true; a] => inl <$> of_json a
                  | JArray [JBool false; b] => inr <$> of_json b
                  | _ => None
                  end |}.
  - intros [a|b]; simpl; by rewrite of_to_json.
  - by intros [a|b].
Defined.

#[export] Instance option_code_json {A} `{JsonCode A} : JsonCode (option A).
Proof.
  refine {| to_json o := match o with Some a => JArray [to_json a] | None => JArray [] end;
     of_json j := match j with
                  | JArray [] => Some None
                  | JArray [a] => Some <$> of_json a
                  | _ => None
                  end |}.
  - intros [a|]; simpl; by rewrite ?of_to_json.
  - by intros [a|].
Defined.

#[export] Instance list_code_json {A} `{JsonCode A} : JsonCode (list A).
Proof.
  refine {| to_json xs := JArray (to_json <$> xs);
     of_json j := match j with JArray js => mapM of_json js | _ => None end |}.
  - intros xs. apply mapM_Some. induction xs; constructor; auto using of_to_json.
  - done.
Defined.

(** Encoding through another type. *)
Definition code_iso {A B} `{JsonCode B} (f : A → B) (g : B → A) (Hgf : ∀ a, g (f a) = a) : JsonCode A.
Proof.
  refine {| to_json a := to_json (f a); of_json j := g <$> of_json j |}.
  - intros a. rewrite of_to_json. simpl. by rewrite Hgf.
  - intros a. apply to_json_not_null.
Defined.

#[export] Instance map_code_json : JsonCode (gmap string string) :=
  code_iso map_to_list list_to_map (λ m, list_to_map_to_list m).

#[export] Instance ConditionStatus_code : JsonCode ConditionStatus :=
  code_iso
    (λ s, match s with ConditionTrue => inl true | ConditionFalse => inl false | ConditionUnknown => inr true end)
    (λ s, match s : bool + bool with
          | inl true => ConditionTrue | inl false => ConditionFalse | inr _ => ConditionUnknown end) ltac:(by intros []).

#[export] Instance GroupKind_code : JsonCode GroupKind :=
  code_iso
    (λ r, (gk_Group r, gk_Kind r))
    (λ '(x0, x1), mkGroupKind x0 x1) ltac:(by intros []).

#[export] Instance OwnerReference_code : JsonCode OwnerReference :=
  code_iso
    (λ r, (or_UID r, or_Name r, or_Controller r))
    (λ '(x0, x1, x2), mkOwnerReference x0 x1 x2) ltac:(by intros []).

#[export] Instance ObjectMeta_code : JsonCode ObjectMeta :=
  code_iso
    (λ r, (om_Name r, om_Namespace r, om_UID r, om_Generation r, om_ResourceVersion r,
      om_CreationTimestamp r, om_Labels r, om_Annotations r, om_OwnerReferences r, om_Finalizers
      r, om_DeletionTimestamp r))
    (λ '(x0, x1, x2, x3, x4, x5, x6, x7, x8, x9, x10), mkObjectMeta x0 x1 x2 x3 x4 x5 x6 x7 x8 x9
      x10) ltac:(by intros []).

#[export] Instance Condition_code : JsonCode Condition :=
  code_iso
    (λ r, (c_Type r, c_Status r, c_ObservedGeneration r, c_LastTransitionTime r, c_Reason r,
      c_Message r))
    (λ '(x0, x1, x2, x3, x4, x5), mkCondition x0 x1 x2 x3 x4 x5) ltac:(by intros []).

#[export] Instance RouteGroupKind_code : JsonCode RouteGroupKind :=
  code_iso
    (λ r, (rgk_Group r, rgk_Kind r))
    (λ '(x0, x1), mkRouteGroupKind x0 x1) ltac:(by intros []).

#[export] Instance LabelSelector_code : JsonCode LabelSelector :=
  code_iso
    (λ r, (ls_MatchLabels r, ls_MatchExpressions r))
    (λ '(x0, x1), mkLabelSelector x0 x1) ltac:(by intros []).

#[export] Instance RouteNamespaces_code : JsonCode RouteNamespaces :=
  code_iso
    (λ r, (rn_From r, rn_Selector r))
    (λ '(x0, x1), mkRouteNamespaces x0 x1) ltac:(by intros []).

#[export] Instance AllowedRoutes_code : JsonCode AllowedRoutes :=
  code_iso
    (λ r, (ar_Namespaces r, ar_Kinds r))
    (λ '(x0, x1), mkAllowedRoutes x0 x1) ltac:(by intros []).

#[export] Instance SecretObjectReference_code : JsonCode SecretObjectReference :=
  code_iso
    (λ r, (sor_Group r, sor_Kind r, sor_Name r, sor_Namespace r))
    (λ '(x0, x1, x2, x3), mkSecretObjectReference x0 x1 x2 x3) ltac:(by intros []).

#[export] Instance GatewayTLSConfig_code : JsonCode GatewayTLSConfig :=
  code_iso
    (λ r, (gtls_Mode r, gtls_CertificateRefs r, gtls_Options r))
    (λ '(x0, x1, x2), mkGatewayTLSConfig x0 x1 x2) ltac:(by intros []).

#[export] Instance Listener_code : JsonCode Listener :=
  code_iso
    (λ r, (l_Name r, l_Hostname r, l_Port r, l_Protocol r, l_TLS r, l_AllowedRoutes r))
    (λ '(x0, x1, x2, x3, x4, x5), mkListener x0 x1 x2 x3 x4 x5) ltac:(by intros []).

#[export] Instance ListenerStatusObj_code : JsonCode ListenerStatusObj :=
  code_iso
    (λ r, (lso_Name r, lso_SupportedKinds r, lso_AttachedRoutes r, lso_Conditions r))
    (λ '(x0, x1, x2, x3), mkListenerStatusObj x0 x1 x2 x3) ltac:(by intros []).

#[export] Instance GatewayStatusObj_code : JsonCode GatewayStatusObj :=
  code_iso
    (λ r, (gso_Addresses r, gso_Conditions r, gso_Listeners r))
    (λ '(x0, x1, x2), mkGatewayStatusObj x0 x1 x2) ltac:(by intros []).

#[export] Instance Gateway_code : JsonCode Gateway :=
  code_iso
    (λ r, (gw_Meta r, gw_GroupKind r, gw_GatewayClassName r, gw_Listeners r, gw_Addresses r,
      gw_Status r))
    (λ '(x0, x1, x2, x3, x4, x5), mkGateway x0 x1 x2 x3 x4 x5) ltac:(by intros []).

#[export] Instance ParentReference_code : JsonCode ParentReference :=
  code_iso
    (λ r, (pr_Group r, pr_Kind r, pr_Namespace r, pr_Name r, pr_SectionName r, pr_Port r))
    (λ '(x0, x1, x2, x3, x4, x5), mkParentReference x0 x1 x2 x3 x4 x5) ltac:(by intros []).

#[export] Instance BackendObjectReference_code : JsonCode BackendObjectReference :=
  code_iso
    (λ r, (bor_Group r, bor_Kind r, bor_Name r, bor_Namespace r, bor_Port r))
    (λ '(x0, x1, x2, x3, x4), mkBackendObjectReference x0 x1 x2 x3 x4) ltac:(by intros []).

#[export] Instance BackendRef_code : JsonCode BackendRef :=
  code_iso
    (λ r, (br_Ref r, br_Weight r))
    (λ '(x0, x1), mkBackendRef x0 x1) ltac:(by intros []).

#[export] Instance HTTPHeader_code : JsonCode HTTPHeader :=
  code_iso
    (λ r, (hh_Name r, hh_Value r))
    (λ '(x0, x1), mkHTTPHeader x0 x1) ltac:(by intros []).

#[export] Instance HTTPRequestHeaderFilter_code : JsonCode HTTPRequestHeaderFilter :=
  code_iso
    (λ r, (hrh_Set r, hrh_Add r, hrh_Remove r))
    (λ '(x0, x1, x2), mkHTTPRequestHeaderFilter x0 x1 x2) ltac:(by intros []).

#[export] Instance HTTPRequestRedirectFilter_code : JsonCode HTTPRequestRedirectFilter :=
  code_iso
    (λ r, (hrr_Scheme r, hrr_Hostname r, hrr_Port r, hrr_StatusCode r))
    (λ '(x0, x1, x2, x3), mkHTTPRequestRedirectFilter x0 x1 x2 x3) ltac:(by intros []).

#[export] Instance HTTPPathModifier_code : JsonCode HTTPPathModifier :=
  code_iso
    (λ r, (hpm_Type r, hpm_ReplacePrefixMatch r))
    (λ '(x0, x1), mkHTTPPathModifier x0 x1) ltac:(by intros []).

#[export] Instance HTTPRouteFilter_code : JsonCode HTTPRouteFilter :=
  code_iso
    (λ f, match f with
          | HTTPRouteFilterRequestHeaderModifier f => inl (inl f)
          | HTTPRouteFilterRequestRedirect f => inl (inr f)
          | HTTPRouteFilterURLRewrite path => inr (inl path)
          | HTTPRouteFilterOther ty => inr (inr ty)
          end)
    (λ s, match s with
          | inl (inl f) => HTTPRouteFilterRequestHeaderModifier f
          | inl (inr f) => HTTPRouteFilterRequestRedirect f
          | inr (inl path) => HTTPRouteFilterURLRewrite path
          | inr (inr ty) => HTTPRouteFilterOther ty
          end) ltac:(by intros []).

#[export] Instance K8sHTTPPathMatch_code : JsonCode K8sHTTPPathMatch :=
  code_iso
    (λ r, (kpm_Type r, kpm_Value r))
    (λ '(x0, x1), mkK8sHTTPPathMatch x0 x1) ltac:(by intros []).

#[export] Instance K8sHTTPHeaderMatch_code : JsonCode K8sHTTPHeaderMatch :=
  code_iso
    (λ r, (khm_Type r, khm_Name r, khm_Value r))
    (λ '(x0, x1, x2), mkK8sHTTPHeaderMatch x0 x1 x2) ltac:(by intros []).

#[export] Instance K8sHTTPQueryParamMatch_code : JsonCode K8sHTTPQueryParamMatch :=
  code_iso
    (λ r, (kqm_Type r, kqm_Name r, kqm_Value r))
    (λ '(x0, x1, x2), mkK8sHTTPQueryParamMatch x0 x1 x2) ltac:(by intros []).

#[export] Instance K8sHTTPRouteMatch_code : JsonCode K8sHTTPRouteMatch :=
  code_iso
    (λ r, (km_Path r, km_Headers r, km_QueryParams r, km_Method r))
    (λ '(x0, x1, x2, x3), mkK8sHTTPRouteMatch x0 x1 x2 x3) ltac:(by intros []).

#[export] Instance HTTPBackendRef_code : JsonCode HTTPBackendRef :=
  code_iso
    (λ r, (hbr_BackendRef r, hbr_Filters r))
    (λ '(x0, x1), mkHTTPBackendRef x0 x1) ltac:(by intros []).

#[export] Instance K8sHTTPRouteRule_code : JsonCode K8sHTTPRouteRule :=
  code_iso
    (λ r, (kr_Matches r, kr_Filters r, kr_BackendRefs r))
    (λ '(x0, x1, x2), mkK8sHTTPRouteRule x0 x1 x2) ltac:(by intros []).

#[export] Instance TCPRouteRule_code : JsonCode TCPRouteRule :=
  code_iso
    (λ r, tr_BackendRefs r)
    (λ x, mkTCPRouteRule x) ltac:(by intros []).

#[export] Instance RouteParentStatus_code : JsonCode RouteParentStatus :=
  code_iso
    (λ r, (rps_ParentRef r, rps_ControllerName r, rps_Conditions r))
    (λ '(x0, x1, x2), mkRouteParentStatus x0 x1 x2) ltac:(by intros []).

#[export] Instance K8sHTTPRoute_code : JsonCode K8sHTTPRoute :=
  code_iso
    (λ r, (khr_Meta r, khr_GroupKind r, khr_ParentRefs r, khr_Hostnames r, khr_Rules r, khr_Status
      r))
    (λ '(x0, x1, x2, x3, x4, x5), mkK8sHTTPRoute x0 x1 x2 x3 x4 x5) ltac:(by intros []).

#[export] Instance K8sTCPRoute_code : JsonCode K8sTCPRoute :=
  code_iso
    (λ r, (ktr_Meta r, ktr_GroupKind r, ktr_ParentRefs r, ktr_Rules r, ktr_Status r))
    (λ '(x0, x1, x2, x3, x4), mkK8sTCPRoute x0 x1 x2 x3 x4) ltac:(by intros []).

#[export] Instance Route_code : JsonCode Route :=
  code_iso (λ r, match r with RouteHTTP r => inl r | RouteTCP r => inr r end)
    (λ s, match s with inl r => RouteHTTP r | inr r => RouteTCP r end) ltac:(by intros []).
