(* ===== verification/Codec.v ===== *)
(** * The encoding of stored objects

    [reconciler/marshaler.go], and the encoders it reaches: [MarshalJSON] and
    [UnmarshalJSON] of [K8sRoute] ([route.go]), of [ResolvedRoutes]
    ([state/gateway.go]) and of [RouteRuleReferenceMap] and
    [ResolutionErrors] ([service/rule.go], [service/resolver.go]), and the
    structs without one ([K8sGateway], [GatewayState], [ListenerState],
    [RouteState]), which [encoding/json] writes field by field.

    The text of a document is abstract ([JsonText]), base64 is not
    ([Base64]).  The encoding of the Kubernetes types, which follows the tags
    of structs outside the repository, and the Kubernetes serializer are the
    class [KubernetesJson].

    A nil pointer that the code never follows has no value in the model: a
    document without a gateway state, a route state or a reference is an error
    here.  The error of a [MarshalJSON] method is reported without the prefix
    that [encoding/json] adds. *)

From S2P Require Import Prelude Errors Json Base64 Core K8s Status GatewayClient Resolver State Converter Objects ApiServer Cluster Builder Deployer GatewayClasses Binder K8sSecret GatewayValidator RouteValidator ClassConfig CoreCodec Store Statuses Manager JsonCode.

(** ** Outside the repository *)

Record GroupVersionKind : Type := mkGroupVersionKind {
  gvk_Group : string;
  gvk_Version : string;
  gvk_Kind : string
}.

(** The encodings of the Kubernetes types.  [gateway_members] are the members
    a [Gateway] contributes to the struct that embeds it.  [serializer_Decode]
    is given the type of the object to decode into, if there is one, and
    returns what that object holds afterwards. *)
Class KubernetesJson : Type := {
  gateway_members : Gateway → list (string * json);
  read_gateway : list (string * json) → result Gateway;
  meta_json : ObjectMeta → json;
  read_meta : json → result ObjectMeta;
  http_rule_json : K8sHTTPRouteRule → json;
  read_http_rule : json → result K8sHTTPRouteRule;
  tcp_rule_json : TCPRouteRule → json;
  read_tcp_rule : json → result TCPRouteRule;
  http_backend_json : HTTPBackendRef → json;
  read_http_backend : json → result HTTPBackendRef;
  backend_json : BackendRef → json;
  read_backend : json → result BackendRef;
  parent_json : ParentReference → json;
  read_parent : json → result ParentReference;
  gvk_json : GroupVersionKind → json;
  read_gvk : json → result GroupVersionKind;
  route_version : Route → string;
  serializer_Encode : Route → result string;
  serializer_Decode : string → GroupVersionKind → option string → result (option Route)
}.

(** ** Values *)

(** A [[]byte].  An array of numbers, which the decoder also takes, is never
    written. *)
Definition write_bytes (s : string) : json := JString (base64_EncodeToString s).
Definition read_bytes (j : json) : result string :=
  match j with JNull => Ok "" | JString s => base64_Decode s | _ => Err err_json end.

Definition write_pointer {A} (f : A → json) (p : option A) : json := default JNull (f <$> p).

(** A pointer that the code follows. *)
Definition err_nil : error := ErrString "nil pointer".
Definition some_or {A} (p : option A) : result A :=
  match p with Some a => Ok a | None => Err err_nil end.

(** A map whose keys have a text. *)
Definition write_keyed `{Countable K} {V} (key : K → string) (f : V → json) (m : gmap K V) : json :=
  json_Marshal_map f (kmap key m : gmap string V).
Definition read_keyed `{Countable K} {V} (parse : string → result K) (f : json → result V) (j : json) :
    result (gmap K V) :=
  m ← json_Unmarshal_map f j;
  kvs ← mapM_result (λ kv : string * V, k ← parse kv.1; Ok (k, kv.2)) (map_to_list m);
  Ok (list_to_map kvs).

(** ** Gateways *)

Section codec.
Context {JT : JsonText} {MR : MapRange} {MF : MultierrorFormat} {KJ : KubernetesJson}.

(** *** [ResolvedRoutes] *)

Definition ResolvedRoutes_MarshalJSON (r : gmap string ResolvedRoute) : json :=
  json_Marshal_map (λ route, write_bytes (json_text (MarshalResolvedRoute route))) r.

(** The routes are decoded in the order of the map; the first error ends it. *)
Definition ResolvedRoutes_UnmarshalJSON (b : json) : result (gmap string ResolvedRoute) :=
  stored ← json_Unmarshal_map read_bytes b;
  routes ← mapM_result (λ kv : string * string,
    doc ← json_parse kv.2;
    resolvedRoute ← UnmarshalResolvedRoute doc;
    Ok (kv.1, resolvedRoute)) (range stored);
  Ok (list_to_map routes).

(** *** Statuses and states *)

Definition marshal_TLSParams (t : TLSParams) : json :=
  json_object [("Enabled", JBool (tls_Enabled t)); ("MinVersion", JString (tls_MinVersion t));
    ("MaxVersion", JString (tls_MaxVersion t)); ("CipherSuites", write_list JString (tls_CipherSuites t));
    ("Certificates", write_list JString (tls_Certificates t))].

Definition unmarshal_TLSParams : json → result TLSParams :=
  read_struct zeroTLSParams (λ fields,
    enabled ← read_bool (json_member fields "Enabled");
    minVersion ← json_Unmarshal_string (json_member fields "MinVersion");
    maxVersion ← json_Unmarshal_string (json_member fields "MaxVersion");
    cipherSuites ← read_slice json_Unmarshal_string (json_member fields "CipherSuites");
    certificates ← read_slice json_Unmarshal_string (json_member fields "Certificates");
    Ok (mkTLSParams enabled minVersion maxVersion cipherSuites certificates)).

Definition marshal_GatewayStatus (s : GatewayStatus) : json :=
  json_object [("Ready", GatewayReadyStatus_MarshalJSON (gs_Ready s));
    ("Scheduled", GatewayScheduledStatus_MarshalJSON (gs_Scheduled s));
    ("InSync", GatewayInSyncStatus_MarshalJSON (gs_InSync s))].

Definition unmarshal_GatewayStatus : json → result GatewayStatus :=
  read_struct zeroGatewayStatus (λ fields,
    ready ← GatewayReadyStatus_UnmarshalJSON zeroGatewayReadyStatus (json_member fields "Ready");
    scheduled ← GatewayScheduledStatus_UnmarshalJSON zeroGatewayScheduledStatus (json_member fields "Scheduled");
    inSync ← GatewayInSyncStatus_UnmarshalJSON zeroGatewayInSyncStatus (json_member fields "InSync");
    Ok (mkGatewayStatus ready scheduled inSync)).

Definition marshal_ListenerStatus (s : ListenerStatus) : json :=
  json_object [("Conflicted", ListenerConflictedStatus_MarshalJSON (ls_Conflicted s));
    ("Detached", ListenerDetachedStatus_MarshalJSON (ls_Detached s));
    ("Ready", ListenerReadyStatus_MarshalJSON (ls_Ready s));
    ("ResolvedRefs", ListenerResolvedRefsStatus_MarshalJSON (ls_ResolvedRefs s))].

Definition unmarshal_ListenerStatus : json → result ListenerStatus :=
  read_struct zeroListenerStatus (λ fields,
    conflicted ← ListenerConflictedStatus_UnmarshalJSON zeroListenerConflictedStatus (json_member fields "Conflicted");
    detached ← ListenerDetachedStatus_UnmarshalJSON zeroListenerDetachedStatus (json_member fields "Detached");
    ready ← ListenerReadyStatus_UnmarshalJSON zeroListenerReadyStatus (json_member fields "Ready");
    refs ← ListenerResolvedRefsStatus_UnmarshalJSON zeroListenerResolvedRefsStatus (json_member fields "ResolvedRefs");
    Ok (mkListenerStatus conflicted detached ready refs)).

Definition marshal_ListenerState (l : ListenerState) : json :=
  json_object [("Routes", ResolvedRoutes_MarshalJSON (lst_Routes l));
    ("Protocol", JString (lst_Protocol l)); ("Name", JString (lst_Name l));
    ("TLS", marshal_TLSParams (lst_TLS l)); ("Status", marshal_ListenerStatus (lst_Status l))].

Definition unmarshal_ListenerState (j : json) : result ListenerState :=
  match j with
  | JObject fields =>
      routes ← ResolvedRoutes_UnmarshalJSON (json_member fields "Routes");
      protocol ← json_Unmarshal_string (json_member fields "Protocol");
      name ← json_Unmarshal_string (json_member fields "Name");
      tls ← unmarshal_TLSParams (json_member fields "TLS");
      status ← unmarshal_ListenerStatus (json_member fields "Status");
      Ok (mkListenerState routes protocol name tls status)
  | _ => Err err_json
  end.

Definition marshal_GatewayState (g : GatewayState) : json :=
  json_object [("ConsulNamespace", JString (gst_ConsulNamespace g));
    ("Status", marshal_GatewayStatus (gst_Status g)); ("PodReady", JBool (gst_PodReady g));
    ("ServiceReady", JBool (gst_ServiceReady g)); ("Generation", write_int 64 (gst_Generation g));
    ("Addresses", write_list JString (gst_Addresses g));
    ("Listeners", write_list marshal_ListenerState (gst_Listeners g))].

Definition unmarshal_GatewayState (j : json) : result GatewayState :=
  match j with
  | JObject fields =>
      consulNamespace ← json_Unmarshal_string (json_member fields "ConsulNamespace");
      status ← unmarshal_GatewayStatus (json_member fields "Status");
      podReady ← read_bool (json_member fields "PodReady");
      serviceReady ← read_bool (json_member fields "ServiceReady");
      generation ← read_int 64 (json_member fields "Generation");
      addresses ← read_slice json_Unmarshal_string (json_member fields "Addresses");
      listeners ← read_slice unmarshal_ListenerState (json_member fields "Listeners");
      Ok (mkGatewayState consulNamespace status podReady serviceReady generation addresses listeners)
  | _ => Err err_json
  end.

(** *** [K8sGateway] *)

Definition marshal_GatewayClassConfig (c : GatewayClassConfig) : json :=
  json_object [("metadata", meta_json (gcc_Meta c)); ("spec", marshal_spec (gcc_Spec c))].

Definition unmarshal_GatewayClassConfig : json → result GatewayClassConfig :=
  read_struct zeroGatewayClassConfig (λ fields,
    meta ← read_meta (json_member fields "metadata");
    spec ← unmarshal_spec (json_member fields "spec");
    Ok (mkGatewayClassConfig meta spec)).

Definition marshal_K8sGateway (g : K8sGateway) : json :=
  JObject (gateway_members (kg_Gateway g) ++
    [("GatewayState", marshal_GatewayState (kg_GatewayState g));
     ("Config", marshal_GatewayClassConfig (kg_Config g))]).

Definition unmarshal_K8sGateway (j : json) : result K8sGateway :=
  match j with
  | JObject fields =>
      gateway ← read_gateway fields;
      state ← read_pointer unmarshal_GatewayState (json_member fields "GatewayState");
      config ← unmarshal_GatewayClassConfig (json_member fields "Config");
      state ← some_or state;
      Ok (mkK8sGateway gateway state config)
  | _ => Err err_json
  end.

(** ** Routes *)

(** *** [RouteRuleReferenceMap] *)

Definition marshal_RouteRule (rule : RouteRule) : json :=
  json_object [("HTTPRule", match rule with RuleHTTP r => http_rule_json r | _ => JNull end);
    ("TCPRule", match rule with RuleTCP r => tcp_rule_json r | _ => JNull end)].

(** The model has no rule with both pointers set. *)
Definition unmarshal_RouteRule : json → result RouteRule :=
  read_struct RuleEmpty (λ fields,
    http ← read_pointer read_http_rule (json_member fields "HTTPRule");
    tcp ← read_pointer read_tcp_rule (json_member fields "TCPRule");
    match http, tcp with
    | Some r, None => Ok (RuleHTTP r)
    | None, Some r => Ok (RuleTCP r)
    | None, None => Ok RuleEmpty
    | Some _, Some _ => Err err_json
    end).

Definition ResolvedReferenceType_text (t : ResolvedReferenceType) : string :=
  match t with HTTPRouteReference => "HTTPRoute" | ConsulServiceReference => "ConsulService" end.
Definition ResolvedReferenceType_all : list ResolvedReferenceType :=
  [HTTPRouteReference; ConsulServiceReference].

Definition marshal_ConsulService (c : ConsulService) : json :=
  json_object [("Namespace", JString (csvc_Namespace c)); ("Name", JString (csvc_Name c))].
Definition unmarshal_ConsulService : json → result ConsulService :=
  read_struct (mkConsulService "" "") (λ fields,
    namespace ← json_Unmarshal_string (json_member fields "Namespace");
    name ← json_Unmarshal_string (json_member fields "Name");
    Ok (mkConsulService namespace name)).

Definition marshal_BackendReference (b : BackendReference) : json :=
  json_object [("HTTPRef", write_pointer http_backend_json (bref_HTTPRef b));
    ("BackendRef", write_pointer backend_json (bref_BackendRef b))].
Definition unmarshal_BackendReference : json → result BackendReference :=
  read_struct (mkBackendReference None None) (λ fields,
    http ← read_pointer read_http_backend (json_member fields "HTTPRef");
    backend ← read_pointer read_backend (json_member fields "BackendRef");
    Ok (mkBackendReference http backend)).

Definition marshal_ResolvedReference (r : ResolvedReference) : json :=
  json_object [("Type", JString (ResolvedReferenceType_text (rr_Type r)));
    ("Reference", marshal_BackendReference (rr_Reference r));
    ("Consul", write_pointer marshal_ConsulService (rr_Consul r))].
Definition unmarshal_ResolvedReference (j : json) : result ResolvedReference :=
  match j with
  | JObject fields =>
      type ← read_const ResolvedReferenceType_all ResolvedReferenceType_text (json_member fields "Type");
      reference ← read_pointer unmarshal_BackendReference (json_member fields "Reference");
      consul ← read_pointer unmarshal_ConsulService (json_member fields "Consul");
      reference ← some_or reference;
      Ok (mkResolvedReference type reference consul)
  | _ => Err err_json
  end.

(** [data]: the text of a rule is its key, so of two rules with the same text
    the one the loop meets last is kept. *)
Definition references_by_text (r : RouteRuleReferenceMap) : gmap string (list ResolvedReference) :=
  foldl (λ data (kv : nat * (RouteRule * list ResolvedReference)),
    <[json_text (marshal_RouteRule kv.2.1) := kv.2.2]> data) ∅ (range r).

Definition RouteRuleReferenceMap_MarshalJSON (r : RouteRuleReferenceMap) : json :=
  json_Marshal_map (write_list marshal_ResolvedReference) (references_by_text r).

(** Every rule is decoded into a fresh allocation. *)
Definition RouteRuleReferenceMap_UnmarshalJSON (b : json) : result RouteRuleReferenceMap :=
  data ← json_Unmarshal_map (read_slice unmarshal_ResolvedReference) b;
  rules ← mapM_result (λ kv : string * list ResolvedReference,
    doc ← json_parse kv.1;
    rule ← unmarshal_RouteRule doc;
    Ok (rule, kv.2)) (range data);
  Ok (map_seq 0 rules).

(** *** [RouteState] *)

(** The fields of [ResolutionError] are unexported: the decoder leaves them. *)
Definition zeroResolutionError : ResolutionError := NewK8sResolutionError "".

Definition ResolutionErrors_UnmarshalJSON : json → result ResolutionErrors :=
  read_keyed (λ s, match ServiceResolutionErrorType_of_string s with
                   | Some t => Ok t | None => Err err_json end)
    (read_slice (read_struct zeroResolutionError (λ _, Ok zeroResolutionError))).

Definition marshal_RouteStatus (s : RouteStatus) : json :=
  json_object [("Accepted", RouteAcceptedStatus_MarshalJSON (rst_Accepted s));
    ("ResolvedRefs", RouteResolvedRefsStatus_MarshalJSON (rst_ResolvedRefs s))].
Definition unmarshal_RouteStatus : json → result RouteStatus :=
  read_struct zeroRouteStatus (λ fields,
    accepted ← RouteAcceptedStatus_UnmarshalJSON zeroRouteAcceptedStatus (json_member fields "Accepted");
    refs ← RouteResolvedRefsStatus_UnmarshalJSON zeroRouteResolvedRefsStatus (json_member fields "ResolvedRefs");
    Ok (mkRouteStatus accepted refs)).

(** [common.AsJSON] and [common.ParseParent], the keys of [RouteStatuses]. *)
Definition AsJSON_parent (ref : ParentReference) : string := json_text (parent_json ref).
Definition ParseParent (stringified : string) : result ParentReference :=
  doc ← json_parse stringified; read_parent doc.

Definition marshal_RouteState (s : RouteState) : json :=
  json_object [("References", RouteRuleReferenceMap_MarshalJSON (rs_References s));
    ("ResolutionErrors", ResolutionErrors_MarshalJSON (rs_ResolutionErrors s));
    ("ParentStatuses", write_keyed AsJSON_parent marshal_RouteStatus (rs_ParentStatuses s))].

Definition unmarshal_RouteState (j : json) : result RouteState :=
  match j with
  | JObject fields =>
      references ← RouteRuleReferenceMap_UnmarshalJSON (json_member fields "References");
      errors ← ResolutionErrors_UnmarshalJSON (json_member fields "ResolutionErrors");
      statuses ← read_keyed ParseParent unmarshal_RouteStatus (json_member fields "ParentStatuses");
      Ok (mkRouteState references errors statuses)
  | _ => Err err_json
  end.

(** *** [K8sRoute] *)

Definition route_GVK (r : Route) : GroupVersionKind :=
  mkGroupVersionKind (gk_Group (route_GroupKind r)) (route_version r) (gk_Kind (route_GroupKind r)).

Definition K8sRoute_MarshalJSON (r : K8sRoute) : result json :=
  buffer ← serializer_Encode (kr_Route r);
  Ok (json_object [("GVK", gvk_json (route_GVK (kr_Route r))); ("Route", write_bytes buffer);
    ("RouteState", marshal_RouteState (kr_RouteState r))]).

(** The object to decode into: none for another kind. *)
Definition route_into (kind : string) : option string :=
  if bool_decide (kind = "HTTPRoute") then Some "HTTPRoute"
  else if bool_decide (kind = "TCPRoute") then Some "TCPRoute"
  else None.

(** Both fields may be left nil. *)
Definition K8sRoute_UnmarshalJSON (b : json) : result (option Route * option RouteState) :=
  match b with
  | JObject fields =>
      gvk ← read_gvk (json_member fields "GVK");
      data ← read_bytes (json_member fields "Route");
      routeState ← read_pointer unmarshal_RouteState (json_member fields "RouteState");
      into ← serializer_Decode data gvk (route_into (gvk_Kind gvk));
      Ok (into, routeState)
  | JNull =>
      into ← serializer_Decode "" (mkGroupVersionKind "" "" "") None;
      Ok (into, None)
  | _ => Err err_json
  end.

(** ** [Marshaler] ([marshaler.go]) *)

Definition codec_UnmarshalRoute (data : string) : result K8sRoute :=
  doc ← json_parse data;
  stored ← K8sRoute_UnmarshalJSON doc;
  route ← some_or stored.1;
  routeState ← some_or stored.2;
  Ok (mkK8sRoute route routeState).
Definition codec_MarshalRoute (route : K8sRoute) : result string :=
  json_text <$> K8sRoute_MarshalJSON route.
Definition codec_UnmarshalGateway (data : string) : result K8sGateway :=
  doc ← json_parse data; unmarshal_K8sGateway doc.
Definition codec_MarshalGateway (gateway : K8sGateway) : result string :=
  Ok (json_text (marshal_K8sGateway gateway)).

#[export] Instance codec_marshaler : Marshaler K8sGateway K8sRoute string := {|
  UnmarshalRoute := codec_UnmarshalRoute;
  MarshalRoute := codec_MarshalRoute;
  UnmarshalGateway := codec_UnmarshalGateway;
  MarshalGateway := codec_MarshalGateway
|}.

End codec.

(** ** What the encoding relies on *)

(** The Kubernetes types are read back from their encoding, whatever other
    members are next to those of an embedded gateway, and none of them is
    encoded as [null].  The serializer reads back a route that carries its
    kind, and never sets an object it was not given. *)
Class LawfulKubernetesJson `{KubernetesJson} : Prop := {
  gateway_members_own : ∀ g n, n ∈ (gateway_members g).*1 → n ≠ "GatewayState" ∧ n ≠ "Config";
  read_gateway_members : ∀ g extra,
    (∀ n, n ∈ extra.*1 → n = "GatewayState" ∨ n = "Config") →
    read_gateway (gateway_members g ++ extra) = Ok g;
  read_meta_json : ∀ m, read_meta (meta_json m) = Ok m;
  http_rule_law : ∀ r, http_rule_json r ≠ JNull ∧ read_http_rule (http_rule_json r) = Ok r;
  tcp_rule_law : ∀ r, tcp_rule_json r ≠ JNull ∧ read_tcp_rule (tcp_rule_json r) = Ok r;
  http_backend_law : ∀ r, http_backend_json r ≠ JNull ∧ read_http_backend (http_backend_json r) = Ok r;
  backend_law : ∀ r, backend_json r ≠ JNull ∧ read_backend (backend_json r) = Ok r;
  read_parent_json : ∀ p, read_parent (parent_json p) = Ok p;
  read_gvk_json : ∀ g, read_gvk (gvk_json g) = Ok g;
  serializer_roundtrip : ∀ r, typed_route r →
    ∃ data, serializer_Encode r = Ok data ∧
      serializer_Decode data (route_GVK r) (Some (route_kind r)) = Ok (Some r);
  serializer_nil : ∀ data gvk o, serializer_Decode data gvk None = Ok o → o = None
}.

(** ** Maps *)

(** A written map is read with every value as its own decoder reads it. *)
Lemma json_map_read {A B} (f : A → json) (g : json → result B) (h : A → B) (m : gmap string A) :
  (∀ k v, m !! k = Some v → g (f v) = Ok (h v)) →
  json_Unmarshal_map g (json_Marshal_map f m) = Ok (h <$> m).
Proof.
  intros Hg. unfold json_Marshal_map, json_Unmarshal_map.
  assert (mapM_result (λ kv : string * json, v ← g kv.2; Ok (kv.1, v))
    (prod_map id f <$> sorted_entries m) = Ok (sorted_entries (h <$> m))) as ->.
  { rewrite <- sorted_entries_fmap. apply mapM_result_Ok, Forall2_fmap, Forall2_same_length_lookup.
    split; [done|]. intros i [k v] [k' v'] Hi Hi'. rewrite Hi in Hi'. injection Hi' as <- <-.
    assert (m !! k = Some v) as Hm.
    { apply elem_of_map_to_list. rewrite <- sorted_entries_perm. by eapply list_elem_of_lookup_2. }
    simpl. by rewrite (Hg k v Hm). }
  cbn. by rewrite foldl_insert_sorted.
Qed.

(** Decoding the entries of a map, listed in any order: [enc] was written for
    each value, and [h] is read. *)
Lemma mapM_entries {K} `{Countable K} {A C B} (f : K * C → result (K * B)) (enc : A → C) (h : A → B)
    (m : gmap K A) l :
  l ≡ₚ map_to_list (enc <$> m) → (∀ k a, m !! k = Some a → f (k, enc a) = Ok (k, h a)) →
  ∃ l', mapM_result f l = Ok l' ∧ list_to_map l' = h <$> m.
Proof.
  rewrite map_to_list_fmap. intros (l1 & -> & Hl)%Permutation_map_inv Hf.
  exists (prod_map id h <$> l1). split.
  - assert (Forall (λ ka, f (prod_map id enc ka) = Ok (prod_map id h ka)) l1) as Hall.
    { apply Forall_forall. intros [k a] Hin. apply Hf, elem_of_map_to_list. by rewrite Hl. }
    clear Hl. induction Hall as [|ka l1 Hka _ IH]; [done|].
    cbn [map mapM_result]. by rewrite Hka, IH.
  - rewrite list_to_map_fmap. f_equal. rewrite <- (list_to_map_to_list m).
    apply list_to_map_proper; [|by symmetry]. rewrite <- Hl. apply NoDup_fst_map_to_list.
Qed.

(** Reading with a decoder that may forget something. *)
Definition decoded {A B} (g : json → result B) (f : A → json) (default : A → B) (a : A) : B :=
  match g (f a) with Ok b => b | Err _ => default a end.

Lemma decoded_Ok {A B} (g : json → result B) (f : A → json) d a b :
  g (f a) = Ok b → g (f a) = Ok (decoded g f d a).
Proof. unfold decoded. by intros ->. Qed.

Lemma keyed_read `{Countable K} {V} (key : K → string) parse (f : V → json) (g : json → result V)
    (h : V → V) (m : gmap K V) :
  (∀ k, parse (key k) = Ok k) → (∀ k v, m !! k = Some v → g (f v) = Ok (h v)) →
  read_keyed parse g (write_keyed key f m) = Ok (h <$> m).
Proof.
  intros Hkey Hg. unfold read_keyed, write_keyed.
  assert (Inj (=) (=) key) as Hinj.
  { intros a b Hab. apply (f_equal parse) in Hab. rewrite !Hkey in Hab. by injection Hab. }
  rewrite (json_map_read f g h).
  2:{ intros s v (k & -> & Hk)%lookup_kmap_Some; [|done]. by eapply Hg. }
  cbn [mbind result_bind]. rewrite <- kmap_fmap by done.
  pose proof (map_to_list_kmap (M2 := gmap string) key (h <$> m)) as Hp.
  apply Permutation_map_inv in Hp as (l & -> & Hl).
  assert (mapM_result (λ kv : string * V, k ← parse kv.1; Ok (k, kv.2)) (map (prod_map key id) l) = Ok l) as ->.
  { clear Hl. induction l as [|[k v] l IH]; [done|]. simpl. rewrite Hkey. simpl. by rewrite IH. }
  cbn. f_equal. rewrite <- (list_to_map_to_list (h <$> m)). apply list_to_map_proper; [|by symmetry].
  rewrite <- Hl. apply NoDup_fst_map_to_list.
Qed.

Section roundtrip.
Context {JT : JsonText} {LJ : LawfulJsonText} {MR : MapRange} {MF : MultierrorFormat}.
Context {KJ : KubernetesJson} {LK : LawfulKubernetesJson}.

(** ** Gateways *)

Lemma ResolvedRoutes_roundtrip (r : gmap string ResolvedRoute) :
  ResolvedRoutes_UnmarshalJSON (ResolvedRoutes_MarshalJSON r) = Ok (route_width <$> r).
Proof using LJ.
  unfold ResolvedRoutes_UnmarshalJSON, ResolvedRoutes_MarshalJSON.
  rewrite (json_map_read _ _ (λ route, json_text (MarshalResolvedRoute route)))
    by (intros k v _; apply base64_roundtrip).
  cbn [mbind result_bind].
  destruct (mapM_entries (λ kv : string * string, doc ← json_parse kv.2;
      resolvedRoute ← UnmarshalResolvedRoute doc; Ok (kv.1, resolvedRoute))
    (λ route, json_text (MarshalResolvedRoute route)) route_width r _ (range_perm _))
    as (l & -> & Hl); [|cbn; by rewrite Hl].
  intros k route _. cbn [fst snd]. rewrite json_parse_text. cbn [mbind result_bind].
  by rewrite ResolvedRoute_roundtrip.
Qed.

Lemma read_bool_JBool b : read_bool (JBool b) = Ok b.
Proof. done. Qed.

Lemma TLSParams_roundtrip t : unmarshal_TLSParams (marshal_TLSParams t) = Ok t.
Proof. unfold unmarshal_TLSParams, marshal_TLSParams. read_object. by destruct t. Qed.

(** What a decoded status shares with the one that was encoded. *)
Definition listener_status_kept (s s' : ListenerStatus) : Prop :=
  visible (ListenerConflictedStatus_errors (ls_Conflicted s'))
    = visible (ListenerConflictedStatus_errors (ls_Conflicted s)) ∧
  visible (ListenerDetachedStatus_errors (ls_Detached s'))
    = visible (ListenerDetachedStatus_errors (ls_Detached s)) ∧
  visible (ListenerReadyStatus_errors (ls_Ready s')) = visible (ListenerReadyStatus_errors (ls_Ready s)) ∧
  visible (ListenerResolvedRefsStatus_errors (ls_ResolvedRefs s'))
    = visible (ListenerResolvedRefsStatus_errors (ls_ResolvedRefs s)).

Definition gateway_status_kept (s s' : GatewayStatus) : Prop :=
  visible (GatewayReadyStatus_errors (gs_Ready s')) = visible (GatewayReadyStatus_errors (gs_Ready s)) ∧
  visible (GatewayScheduledStatus_errors (gs_Scheduled s'))
    = visible (GatewayScheduledStatus_errors (gs_Scheduled s)) ∧
  visible (GatewayInSyncStatus_errors (gs_InSync s')) = visible (GatewayInSyncStatus_errors (gs_InSync s)).

Definition route_status_kept (s s' : RouteStatus) : Prop :=
  visible (RouteAcceptedStatus_errors (rst_Accepted s')) = visible (RouteAcceptedStatus_errors (rst_Accepted s)) ∧
  visible (RouteResolvedRefsStatus_errors (rst_ResolvedRefs s'))
    = visible (RouteResolvedRefsStatus_errors (rst_ResolvedRefs s)).

Lemma ListenerStatus_roundtrip s :
  ∃ s', unmarshal_ListenerStatus (marshal_ListenerStatus s) = Ok s' ∧ listener_status_kept s s'.
Proof.
  destruct (generated_roundtrip _ ListenerConflictedStatus_UnmarshalJSON _ (ls_Conflicted s)) as (c & Hc & ?).
  destruct (generated_roundtrip _ ListenerDetachedStatus_UnmarshalJSON _ (ls_Detached s)) as (d & Hd & ?).
  destruct (generated_roundtrip _ ListenerReadyStatus_UnmarshalJSON _ (ls_Ready s)) as (r & Hr & ?).
  destruct (generated_roundtrip _ ListenerResolvedRefsStatus_UnmarshalJSON _ (ls_ResolvedRefs s)) as (f & Hf & ?).
  exists (mkListenerStatus c d r f). split; [|done].
  unfold unmarshal_ListenerStatus, marshal_ListenerStatus. read_object.
  unfold ListenerConflictedStatus_MarshalJSON, ListenerDetachedStatus_MarshalJSON,
    ListenerReadyStatus_MarshalJSON, ListenerResolvedRefsStatus_MarshalJSON. by rewrite Hc, Hd, Hr, Hf.
Qed.

Lemma GatewayStatus_roundtrip s :
  ∃ s', unmarshal_GatewayStatus (marshal_GatewayStatus s) = Ok s' ∧ gateway_status_kept s s'.
Proof.
  destruct (generated_roundtrip _ GatewayReadyStatus_UnmarshalJSON _ (gs_Ready s)) as (r & Hr & ?).
  destruct (generated_roundtrip _ GatewayScheduledStatus_UnmarshalJSON _ (gs_Scheduled s)) as (c & Hc & ?).
  destruct (generated_roundtrip _ GatewayInSyncStatus_UnmarshalJSON _ (gs_InSync s)) as (i & Hi & ?).
  exists (mkGatewayStatus r c i). split; [|done].
  unfold unmarshal_GatewayStatus, marshal_GatewayStatus. read_object.
  unfold GatewayReadyStatus_MarshalJSON, GatewayScheduledStatus_MarshalJSON, GatewayInSyncStatus_MarshalJSON. by rewrite Hr, Hc, Hi.
Qed.

Lemma RouteStatus_roundtrip s :
  ∃ s', unmarshal_RouteStatus (marshal_RouteStatus s) = Ok s' ∧ route_status_kept s s'.
Proof.
  destruct (generated_roundtrip _ RouteAcceptedStatus_UnmarshalJSON _ (rst_Accepted s)) as (a & Ha & ?).
  destruct (generated_roundtrip _ RouteResolvedRefsStatus_UnmarshalJSON _ (rst_ResolvedRefs s)) as (r & Hr & ?).
  exists (mkRouteStatus a r). split; [|done].
  unfold unmarshal_RouteStatus, marshal_RouteStatus. read_object.
  unfold RouteAcceptedStatus_MarshalJSON, RouteResolvedRefsStatus_MarshalJSON. by rewrite Ha, Hr.
Qed.

(** A slice whose elements are read up to a relation. *)
Lemma list_kept {A} (f : A → json) (g : json → result A) (P : A → A → Prop) xs :
  (∀ x, ∃ y, g (f x) = Ok y ∧ P x y) →
  ∃ ys, read_slice g (write_list f xs) = Ok ys ∧ Forall2 P xs ys.
Proof.
  intros Hg. exists (decoded g f id <$> xs). split.
  - apply read_write_list. intros x _. destruct (Hg x) as (y & Hy & _). by eapply decoded_Ok.
  - apply Forall2_fmap_r, Forall_Forall2_diag, Forall_forall. intros x _.
    destruct (Hg x) as (y & Hy & HP). unfold compose, decoded. by rewrite Hy.
Qed.

Lemma read_pointer_some {A} (f : json → result A) j a :
  j ≠ JNull → f j = Ok a → read_pointer f j = Ok (Some a).
Proof. intros Hj Hf. unfold read_pointer. by destruct j; rewrite ?Hf. Qed.

Definition listener_kept (l l' : ListenerState) : Prop :=
  lst_Routes l' = route_width <$> lst_Routes l ∧ lst_Protocol l' = lst_Protocol l ∧
  lst_Name l' = lst_Name l ∧ lst_TLS l' = lst_TLS l ∧ listener_status_kept (lst_Status l) (lst_Status l').

Definition gateway_state_kept (g g' : GatewayState) : Prop :=
  gst_ConsulNamespace g' = gst_ConsulNamespace g ∧ gateway_status_kept (gst_Status g) (gst_Status g') ∧
  gst_PodReady g' = gst_PodReady g ∧ gst_ServiceReady g' = gst_ServiceReady g ∧
  gst_Generation g' = wrap 64 (gst_Generation g) ∧ gst_Addresses g' = gst_Addresses g ∧
  Forall2 listener_kept (gst_Listeners g) (gst_Listeners g').

Lemma ListenerState_roundtrip l :
  ∃ l', unmarshal_ListenerState (marshal_ListenerState l) = Ok l' ∧ listener_kept l l'.
Proof using LJ.
  destruct (ListenerStatus_roundtrip (lst_Status l)) as (s & Hs & Hk).
  exists (mkListenerState (route_width <$> lst_Routes l) (lst_Protocol l) (lst_Name l) (lst_TLS l) s).
  split; [|done]. unfold unmarshal_ListenerState, marshal_ListenerState. read_object.
  by rewrite ResolvedRoutes_roundtrip, TLSParams_roundtrip, Hs.
Qed.

Lemma GatewayState_roundtrip g :
  ∃ g', unmarshal_GatewayState (marshal_GatewayState g) = Ok g' ∧ gateway_state_kept g g'.
Proof using LJ.
  destruct (GatewayStatus_roundtrip (gst_Status g)) as (s & Hs & Hk).
  destruct (list_kept _ _ _ (gst_Listeners g) ListenerState_roundtrip) as (ls & Hls & Hall).
  exists (mkGatewayState (gst_ConsulNamespace g) s (gst_PodReady g) (gst_ServiceReady g)
    (wrap 64 (gst_Generation g)) (gst_Addresses g) ls).
  split; [|done]. unfold unmarshal_GatewayState, marshal_GatewayState. read_object.
  by rewrite Hs, Hls.
Qed.

Lemma GatewayClassConfig_roundtrip c :
  spec_in_range (gcc_Spec c) →
  unmarshal_GatewayClassConfig (marshal_GatewayClassConfig c)
  = Ok (mkGatewayClassConfig (gcc_Meta c) (snapshot (gcc_Spec c))).
Proof using LK.
  intros Hr. unfold unmarshal_GatewayClassConfig, marshal_GatewayClassConfig. read_object.
  by rewrite read_meta_json, spec_roundtrip.
Qed.

(** The members next to those of the embedded gateway. *)
Lemma gateway_member g (extra : list (string * option json)) n :
  n = "GatewayState" ∨ n = "Config" → NoDup extra.*1 → existsb (String.eqb n) extra.*1 = true →
  json_member (gateway_members g ++ json_fields extra) n = default JNull (field extra n).
Proof using LK.
  intros Hn Hnd Hin. rewrite <- (member_field extra n Hnd Hin). unfold json_member.
  rewrite !json_members_lookup, reverse_app, list_to_map_app. f_equal.
  rewrite lookup_union_l; [done|]. apply not_elem_of_list_to_map_1.
  rewrite fmap_reverse, elem_of_reverse. intros [??]%gateway_members_own. by destruct Hn.
Qed.

Lemma K8sGateway_roundtrip g :
  spec_in_range (gcc_Spec (kg_Config g)) →
  ∃ g', unmarshal_K8sGateway (marshal_K8sGateway g) = Ok g' ∧
    kg_Gateway g' = kg_Gateway g ∧ gateway_state_kept (kg_GatewayState g) (kg_GatewayState g') ∧
    kg_Config g' = mkGatewayClassConfig (gcc_Meta (kg_Config g)) (snapshot (gcc_Spec (kg_Config g))).
Proof using LJ LK.
  intros Hr. destruct (GatewayState_roundtrip (kg_GatewayState g)) as (st & Hst & Hk).
  eexists (mkK8sGateway _ st _). split; [|done]. unfold unmarshal_K8sGateway, marshal_K8sGateway.
  rewrite read_gateway_members by (intros n [->|[->|[]%elem_of_nil]%elem_of_cons]%elem_of_cons; auto).
  set (extra := [("GatewayState", Some (marshal_GatewayState (kg_GatewayState g)));
                 ("Config", Some (marshal_GatewayClassConfig (kg_Config g)))]).
  change [("GatewayState", marshal_GatewayState (kg_GatewayState g));
          ("Config", marshal_GatewayClassConfig (kg_Config g))] with (json_fields extra).
  rewrite !(gateway_member (kg_Gateway g) extra)
    by (first [by auto|apply (bool_decide_unpack _); vm_compute; exact I|reflexivity]).
  unfold extra. cbn [field String.eqb Ascii.eqb Bool.eqb default from_option id mbind result_bind].
  rewrite (read_pointer_some _ _ st) by done. cbn [mbind result_bind].
  by rewrite GatewayClassConfig_roundtrip.
Qed.

(** *** What a decoded gateway shows *)

Lemma has_error_visible errs1 errs2 : visible errs1 = visible errs2 → has_error errs1 = has_error errs2.
Proof.
  revert errs2. induction errs1 as [|[n1 [e1|]] errs1 IH]; intros [|[n2 [e2|]] errs2]; try done;
    simpl; intros [=]; subst; auto.
Qed.

Lemma listener_status_kept_Conditions s s' generation clock :
  listener_status_kept s s' →
  ListenerStatus_Conditions s' generation clock = ListenerStatus_Conditions s generation clock.
Proof.
  intros (Hc & Hd & Hr & Hf). unfold ListenerStatus_Conditions, ListenerConflictedStatus_Condition,
    ListenerDetachedStatus_Condition, ListenerReadyStatus_Condition, ListenerResolvedRefsStatus_Condition.
  by rewrite (condition_of_visible _ _ _ _ _ Hc), (condition_of_visible _ _ _ _ _ Hd),
    (condition_of_visible _ _ _ _ _ Hr), (condition_of_visible _ _ _ _ _ Hf).
Qed.

Lemma listener_status_kept_Valid s s' :
  listener_status_kept s s' → ListenerStatus_Valid s' = ListenerStatus_Valid s.
Proof.
  intros (Hc & Hd & _ & Hf). unfold ListenerStatus_Valid, ListenerConflictedStatus_HasError,
    ListenerDetachedStatus_HasError, ListenerResolvedRefsStatus_HasError.
  by rewrite (has_error_visible _ _ Hc), (has_error_visible _ _ Hd), (has_error_visible _ _ Hf).
Qed.

Lemma gateway_status_kept_Conditions s s' generation clock :
  gateway_status_kept s s' →
  GatewayStatus_Conditions s' generation clock = GatewayStatus_Conditions s generation clock.
Proof.
  intros (Hr & Hs & Hi). unfold GatewayStatus_Conditions, GatewayReadyStatus_Condition,
    GatewayScheduledStatus_Condition, GatewayInSyncStatus_Condition.
  by rewrite (condition_of_visible _ _ _ _ _ Hr), (condition_of_visible _ _ _ _ _ Hs),
    (condition_of_visible _ _ _ _ _ Hi).
Qed.

Lemma kept_set_RouteConflict e s s' :
  listener_status_kept s s' → listener_status_kept (set_RouteConflict e s) (set_RouteConflict e s').
Proof.
  intros (Hc & Hd & Hr & Hf). split_and!; [|done..]. revert Hc.
  unfold visible, ListenerConflictedStatus_errors. simpl. intros Hv. injection Hv as H1 H2 _. by rewrite H1, H2.
Qed.

(** Listeners whose routes have integers of their width. *)
Definition listener_in_range (l : ListenerState) : Prop :=
  map_Forall (λ _, route_in_range) (lst_Routes l).

Lemma kept_Routes l l' : listener_kept l l' → listener_in_range l → lst_Routes l' = lst_Routes l.
Proof.
  intros (-> & _) Hl. rewrite <- (map_fmap_id (lst_Routes l)) at 2. apply map_fmap_ext.
  intros k r Hk. by apply route_width_id, (Hl k r).
Qed.

Lemma kept_Valid l l' : listener_kept l l' → ListenerState_Valid l' = ListenerState_Valid l.
Proof.
  intros (Hr & Hp & _ & _ & Hs). unfold ListenerState_Valid.
  by rewrite Hr, map_size_fmap, Hp, (listener_status_kept_Valid _ _ Hs).
Qed.

Lemma kept_resolveListener l l' listener :
  listener_kept l l' → listener_in_range l → resolveListener l' listener = resolveListener l listener.
Proof.
  intros Hk Hl. unfold resolveListener. rewrite (kept_Routes l l' Hk Hl).
  destruct Hk as (_ & Hp & _ & Ht & _). by rewrite Hp, Ht.
Qed.

Lemma kept_resolve_listeners ls ls' i listeners :
  Forall2 listener_kept ls ls' → Forall listener_in_range ls →
  resolve_listeners ls' i listeners = resolve_listeners ls i listeners.
Proof.
  intros Hk Hl. revert i. induction listeners as [|listener listeners IH]; intros i; [done|]. simpl.
  destruct (ls !! i) as [l|] eqn:Hi.
  - destruct (Forall2_lookup_l _ _ _ _ _ Hk Hi) as (l' & Hi' & Hll). rewrite Hi'. simpl. rewrite IH.
    destruct (resolve_listeners ls (S i) listeners) as [rest|]; [|done]. simpl.
    rewrite (kept_Valid l l' Hll), (kept_resolveListener l l'); [done|done|].
    by eapply Forall_lookup_1.
  - assert (ls' !! i = None) as ->; [|done].
    apply lookup_ge_None. rewrite <- (Forall2_length _ _ _ Hk). by apply lookup_ge_None.
Qed.

Lemma kept_getStatus l l' generation clock :
  listener_kept l l' → (getStatus l' generation clock).2 = (getStatus l generation clock).2.
Proof.
  intros (Hr & Hp & Hn & _ & Hs). unfold getStatus. rewrite Hr, map_size_fmap, Hp, Hn. simpl. f_equal.
  apply listener_status_kept_Conditions.
  repeat case_bool_decide; [by apply kept_set_RouteConflict..|done].
Qed.

Lemma kept_GetStatus g g' gateway clock :
  gateway_state_kept g g' → in_range 64 (gst_Generation g) →
  (GetStatus g' gateway clock).2 = (GetStatus g gateway clock).2.
Proof.
  intros (_ & Hs & _ & _ & Hgen & Ha & Hl) Hr. rewrite wrap_id in Hgen by done.
  assert (∀ c, (imap (λ i l, getStatus l (gst_Generation g) (c i)) (gst_Listeners g')).*2
    = (imap (λ i l, getStatus l (gst_Generation g) (c i)) (gst_Listeners g)).*2) as Heq.
  { intros c. rewrite !fmap_imap. clear -Hl. revert c.
    induction Hl as [|l l' ls ls' Hll _ IH]; intros c; [done|]. rewrite !imap_cons. simpl. f_equal.
    - by apply kept_getStatus.
    - exact (IH (λ i, c (S i))). }
  unfold GetStatus. simpl. rewrite Hgen, Ha, Heq, <- (Forall2_length _ _ _ Hl).
  by rewrite !(gateway_status_kept_Conditions _ _ _ _ Hs).
Qed.

(** The integers of a gateway have the width of their types. *)
Definition gateway_in_range (g : K8sGateway) : Prop :=
  spec_in_range (gcc_Spec (kg_Config g)) ∧ in_range 64 (gst_Generation (kg_GatewayState g)) ∧
  Forall listener_in_range (gst_Listeners (kg_GatewayState g)).

(** C22: gateways survive persistence.  Encoding a gateway and decoding it never
    fails, and the decoded gateway is the same to its readers: it has the same
    Kubernetes object and identity, resolves to the same Consul gateway (or
    panics alike), and publishes the same Kubernetes status. *)
Theorem gateway_roundtrip (g : K8sGateway) :
  gateway_in_range g →
  ∃ data g', codec_MarshalGateway g = Ok data ∧ codec_UnmarshalGateway data = Ok g' ∧
    kg_Gateway g' = kg_Gateway g ∧ K8sGateway_ID g' = K8sGateway_ID g ∧
    K8sGateway_Resolve g' = K8sGateway_Resolve g ∧
    ∀ clock, (GetStatus (kg_GatewayState g') (kg_Gateway g') clock).2
             = (GetStatus (kg_GatewayState g) (kg_Gateway g) clock).2.
Proof using LJ LK.
  intros (Hspec & Hgen & Hl).
  destruct (K8sGateway_roundtrip g Hspec) as (g' & Hu & Hgw & Hst & Hcfg).
  exists (json_text (marshal_K8sGateway g)), g'. split; [done|].
  split; [unfold codec_UnmarshalGateway; by rewrite json_parse_text|]. split; [done|].
  assert (K8sGateway_ID g' = K8sGateway_ID g) as Hid
    by (unfold K8sGateway_ID; by rewrite Hgw, (proj1 Hst)).
  split; [done|]. split.
  - unfold K8sGateway_Resolve. rewrite Hgw, Hid, Hcfg.
    rewrite (kept_resolve_listeners (gst_Listeners (kg_GatewayState g))); [done|apply Hst|done].
  - intros clock. rewrite Hgw. by apply kept_GetStatus.
Qed.

(** ** Routes *)

Abbreviation rule_text rule := (json_text (marshal_RouteRule rule)).

Lemma RouteRule_roundtrip rule : unmarshal_RouteRule (marshal_RouteRule rule) = Ok rule.
Proof using LK.
  unfold unmarshal_RouteRule, marshal_RouteRule. read_object. destruct rule as [r|r|]; [| |done].
  - destruct (http_rule_law r) as [Hn Hr]. by rewrite (read_pointer_some _ _ _ Hn Hr).
  - destruct (tcp_rule_law r) as [Hn Hr]. cbn. by rewrite (read_pointer_some _ _ _ Hn Hr).
Qed.

Lemma rule_text_inj r1 r2 : rule_text r1 = rule_text r2 → r1 = r2.
Proof using LJ LK.
  intros Ht. apply (f_equal json_parse) in Ht. rewrite !json_parse_text in Ht.
  assert (marshal_RouteRule r1 = marshal_RouteRule r2) as Hm by congruence.
  apply (f_equal unmarshal_RouteRule) in Hm. rewrite !RouteRule_roundtrip in Hm. by injection Hm.
Qed.

Lemma pointer_roundtrip {A} (f : A → json) (g : json → result A) p :
  (∀ a, f a ≠ JNull ∧ g (f a) = Ok a) → read_pointer g (write_pointer f p) = Ok p.
Proof. intros Hf. destruct p as [a|]; [|done]. destruct (Hf a). by apply read_pointer_some. Qed.

Lemma ConsulService_roundtrip c : unmarshal_ConsulService (marshal_ConsulService c) = Ok c.
Proof. unfold unmarshal_ConsulService, marshal_ConsulService. read_object. by destruct c. Qed.

Lemma BackendReference_roundtrip b : unmarshal_BackendReference (marshal_BackendReference b) = Ok b.
Proof using LK.
  unfold unmarshal_BackendReference, marshal_BackendReference. read_object.
  rewrite (pointer_roundtrip _ _ _ http_backend_law). cbn [mbind result_bind].
  rewrite (pointer_roundtrip _ _ _ backend_law). by destruct b.
Qed.

Lemma read_reference_type t :
  read_const ResolvedReferenceType_all ResolvedReferenceType_text (JString (ResolvedReferenceType_text t)) = Ok t.
Proof. revert t. read_constants. Qed.

Lemma ResolvedReference_roundtrip r : unmarshal_ResolvedReference (marshal_ResolvedReference r) = Ok r.
Proof using LK.
  unfold unmarshal_ResolvedReference, marshal_ResolvedReference. read_object.
  rewrite read_reference_type. cbn [mbind result_bind].
  rewrite (read_pointer_some _ _ (rr_Reference r)) by (done || apply BackendReference_roundtrip).
  cbn [mbind result_bind]. rewrite pointer_roundtrip by (intros c; split; [done|apply ConsulService_roundtrip]).
  by destruct r.
Qed.

(** What is kept of the references: one entry for every rule, with the
    references of one of the entries of that rule. *)
Definition references_kept (m m' : RouteRuleReferenceMap) : Prop :=
  (∀ i rule refs, m' !! i = Some (rule, refs) → ∃ p, m !! p = Some (rule, refs)) ∧
  (∀ p rule refs, m !! p = Some (rule, refs) → ∃ i refs', m' !! i = Some (rule, refs')) ∧
  (∀ i j rule refs refs', m' !! i = Some (rule, refs) → m' !! j = Some (rule, refs') → i = j).

Lemma references_by_text_Some (m : RouteRuleReferenceMap) text refs :
  references_by_text m !! text = Some refs →
  ∃ p rule, m !! p = Some (rule, refs) ∧ text = rule_text rule.
Proof.
  unfold references_by_text. intros Ht.
  destruct (foldl_insert_lookup (λ kv : nat * (RouteRule * list ResolvedReference), rule_text kv.2.1)
    (λ kv, kv.2.2) (range m) ∅ text) as [[_ He]|([p [rule refs']] & Hin & Hk & He)]; simpl in *.
  - rewrite He in Ht. by rewrite lookup_empty in Ht.
  - rewrite He in Ht. injection Ht as <-. exists p, rule. split; [by apply elem_of_range|done].
Qed.

Lemma references_by_text_is_Some (m : RouteRuleReferenceMap) p rule refs :
  m !! p = Some (rule, refs) → is_Some (references_by_text m !! rule_text rule).
Proof.
  intros Hp. unfold references_by_text.
  destruct (foldl_insert_lookup (λ kv : nat * (RouteRule * list ResolvedReference), rule_text kv.2.1)
    (λ kv, kv.2.2) (range m) ∅ (rule_text rule)) as [[Hn _]|(x & _ & _ & He)]; [|rewrite He; eauto].
  exfalso. apply Hn, list_elem_of_fmap. exists (p, (rule, refs)). split; [done|]. by apply elem_of_range.
Qed.

Lemma references_roundtrip (m : RouteRuleReferenceMap) :
  ∃ m', RouteRuleReferenceMap_UnmarshalJSON (RouteRuleReferenceMap_MarshalJSON m) = Ok m' ∧
    references_kept m m'.
Proof using LJ LK.
  unfold RouteRuleReferenceMap_UnmarshalJSON, RouteRuleReferenceMap_MarshalJSON.
  rewrite (json_map_read _ _ id).
  2:{ intros k refs _. rewrite (read_write_list _ _ id), list_fmap_id; [done|].
      intros r _. apply ResolvedReference_roundtrip. }
  rewrite map_fmap_id. cbn [mbind result_bind]. set (data := references_by_text m).
  set (f := λ kv : string * list ResolvedReference, _).
  assert (∀ k refs, data !! k = Some refs → ∃ rule, f (k, refs) = Ok (rule, refs) ∧ k = rule_text rule ∧
    ∃ p, m !! p = Some (rule, refs)) as Hf.
  { intros k refs (p & rule & Hp & ->)%references_by_text_Some. exists rule. split_and!; [|done|eauto].
    unfold f. cbn [fst snd]. rewrite json_parse_text. cbn [mbind result_bind]. by rewrite RouteRule_roundtrip. }
  assert (∃ rules, mapM_result f (range data) = Ok rules ∧
    Forall2 (λ kv rr, kv.1 = rule_text rr.1 ∧ kv.2 = rr.2 ∧ ∃ p, m !! p = Some rr) (range data) rules)
    as (rules & -> & Hrules).
  { assert (∀ k refs, (k, refs) ∈ range data → data !! k = Some refs) as Hin
      by (intros k refs; apply elem_of_range).
    revert Hin. generalize (range data) as l. induction l as [|[k refs] l IH]; intros Hin; [by exists []|].
    destruct (Hf k refs) as (rule & Hk & Ht & Hp); [apply Hin; left|].
    destruct IH as (rules & Hm & Hall); [intros k' refs' Hkr; apply Hin; by right|].
    exists ((rule, refs) :: rules). split; [|by constructor]. cbn [mapM_result]. by rewrite Hk, Hm. }
  exists (map_seq 0 rules). split; [done|]. split_and!.
  - intros i rule refs Hi. rewrite lookup_map_seq_0 in Hi.
    by destruct (Forall2_lookup_r _ _ _ _ _ Hrules Hi) as ([k v] & _ & _ & _ & Hp).
  - intros p rule refs Hp. destruct (references_by_text_is_Some m p rule refs Hp) as [refs' Hr].
    apply elem_of_range, list_elem_of_lookup_1 in Hr as [i Hi].
    destruct (Forall2_lookup_l _ _ _ _ _ Hrules Hi) as ([rule' v] & Hi' & Ht & Hv & _). simpl in *.
    apply rule_text_inj in Ht as ->. exists i, v. by rewrite lookup_map_seq_0.
  - intros i j rule refs refs' Hi Hj. rewrite lookup_map_seq_0 in Hi, Hj.
    destruct (Forall2_lookup_r _ _ _ _ _ Hrules Hi) as ([k v] & Hki & Hk & _).
    destruct (Forall2_lookup_r _ _ _ _ _ Hrules Hj) as ([k' v'] & Hkj & Hk' & _). simpl in *. subst.
    apply (NoDup_lookup (range data).*1 _ _ (rule_text rule)); [apply NoDup_range_keys|..];
      rewrite list_lookup_fmap; by rewrite ?Hki, ?Hkj.
Qed.

(** The errors of a route are counted, their texts are not kept. *)
Definition forget_texts (errs : list ResolutionError) : list ResolutionError :=
  (λ _, zeroResolutionError) <$> errs.

Lemma ResolutionErrors_roundtrip (r : ResolutionErrors) :
  ResolutionErrors_UnmarshalJSON (ResolutionErrors_MarshalJSON r)
  = Ok (forget_texts <$> r).
Proof.
  unfold ResolutionErrors_UnmarshalJSON.
  change (ResolutionErrors_MarshalJSON r) with (write_keyed ServiceResolutionErrorType_string
    (λ errs : list ResolutionError, JArray ((λ _, JObject []) <$> errs)) r).
  apply keyed_read; [intros t; by rewrite ServiceResolutionErrorType_of_to|].
  intros t errs _. unfold read_slice, read_list.
  assert (mapM_result (read_struct zeroResolutionError (λ _, Ok zeroResolutionError))
    ((λ _ : ResolutionError, JObject []) <$> errs) = Ok (forget_texts errs)) as ->; [|done].
  induction errs as [|e errs IH]; [done|]. rewrite fmap_cons. cbn [mapM_result]. by rewrite IH.
Qed.

Lemma ParseParent_AsJSON ref : ParseParent (AsJSON_parent ref) = Ok ref.
Proof using LJ LK.
  unfold ParseParent, AsJSON_parent. rewrite json_parse_text. cbn [mbind result_bind]. apply read_parent_json.
Qed.

(** The statuses of the same parents, which show the same. *)
Definition statuses_kept (m m' : gmap ParentReference RouteStatus) : Prop :=
  ∀ ref, option_Forall2 route_status_kept (m !! ref) (m' !! ref).

Lemma statuses_roundtrip (m : gmap ParentReference RouteStatus) :
  ∃ m', read_keyed ParseParent unmarshal_RouteStatus (write_keyed AsJSON_parent marshal_RouteStatus m) = Ok m' ∧
    statuses_kept m m'.
Proof using LJ LK.
  exists (decoded unmarshal_RouteStatus marshal_RouteStatus id <$> m). split.
  - apply keyed_read; [apply ParseParent_AsJSON|]. intros ref s _.
    destruct (RouteStatus_roundtrip s) as (s' & Hs & _). by eapply decoded_Ok.
  - intros ref. rewrite lookup_fmap. destruct (m !! ref) as [s|]; [|constructor]. constructor.
    destruct (RouteStatus_roundtrip s) as (s' & Hs & Hk). unfold decoded. by rewrite Hs.
Qed.

Definition route_state_kept (s s' : RouteState) : Prop :=
  references_kept (rs_References s) (rs_References s') ∧
  rs_ResolutionErrors s' = forget_texts <$> rs_ResolutionErrors s ∧
  statuses_kept (rs_ParentStatuses s) (rs_ParentStatuses s').

Lemma RouteState_roundtrip s :
  ∃ s', unmarshal_RouteState (marshal_RouteState s) = Ok s' ∧ route_state_kept s s'.
Proof using LJ LK.
  destruct (references_roundtrip (rs_References s)) as (refs & Hr & Hrk).
  destruct (statuses_roundtrip (rs_ParentStatuses s)) as (ps & Hp & Hpk).
  eexists (mkRouteState refs _ ps). split; [|by split_and!]. unfold unmarshal_RouteState, marshal_RouteState.
  read_object. rewrite Hr. cbn [mbind result_bind]. rewrite ResolutionErrors_roundtrip.
  cbn [mbind result_bind]. by rewrite Hp.
Qed.

(** What decoding an encoded route comes down to. *)
Lemma K8sRoute_decode r doc :
  K8sRoute_MarshalJSON r = Ok doc →
  ∃ data st, serializer_Encode (kr_Route r) = Ok data ∧ route_state_kept (kr_RouteState r) st ∧
    K8sRoute_UnmarshalJSON doc
    = (into ← serializer_Decode data (route_GVK (kr_Route r)) (route_into (gk_Kind (route_GroupKind (kr_Route r))));
       Ok (into, Some st)).
Proof using LJ LK.
  unfold K8sRoute_MarshalJSON. destruct (serializer_Encode (kr_Route r)) as [data|] eqn:He; [|done].
  cbn [mbind result_bind]. intros [= <-].
  destruct (RouteState_roundtrip (kr_RouteState r)) as (st & Hst & Hk). exists data, st. split_and!; [done..|].
  unfold K8sRoute_UnmarshalJSON. read_object. rewrite read_gvk_json. cbn [mbind result_bind].
  unfold write_bytes, read_bytes. rewrite base64_roundtrip. cbn [mbind result_bind].
  by rewrite (read_pointer_some _ _ st).
Qed.

Lemma K8sRoute_roundtrip r :
  typed_route (kr_Route r) →
  ∃ data r', codec_MarshalRoute r = Ok data ∧ codec_UnmarshalRoute data = Ok r' ∧
    kr_Route r' = kr_Route r ∧ route_state_kept (kr_RouteState r) (kr_RouteState r').
Proof using LJ LK.
  intros Hty. destruct (serializer_roundtrip _ Hty) as (data & He & Hd).
  destruct (K8sRoute_MarshalJSON r) as [doc|] eqn:Hm; [|unfold K8sRoute_MarshalJSON in Hm; by rewrite He in Hm].
  destruct (K8sRoute_decode r doc Hm) as (data' & st & He' & Hk & Hu). rewrite He in He'. injection He' as <-.
  exists (json_text doc), (mkK8sRoute (kr_Route r) st). unfold codec_MarshalRoute, codec_UnmarshalRoute.
  rewrite Hm, json_parse_text. cbn [mbind result_bind]. rewrite Hu.
  assert (route_into (gk_Kind (route_GroupKind (kr_Route r))) = Some (route_kind (kr_Route r))) as ->
    by (rewrite Hty; by destruct (kr_Route r)).
  rewrite Hd. by split_and!.
Qed.

(** C23: routes survive persistence.  A route that carries its kind is encoded and
    decoded without error; the decoded route is the same Kubernetes object,
    under the same identity, it publishes the same conditions for the same
    parents, it has one entry for every rule it had references for, with
    references it had for that rule, and errors of the same types in the same
    numbers. *)
Theorem route_roundtrip (r : K8sRoute) :
  typed_route (kr_Route r) →
  ∃ data r', codec_MarshalRoute r = Ok data ∧ codec_UnmarshalRoute data = Ok r' ∧
    kr_Route r' = kr_Route r ∧ K8sRoute_ID r' = K8sRoute_ID r ∧
    references_kept (rs_References (kr_RouteState r)) (rs_References (kr_RouteState r')) ∧
    (∀ ref generation clock,
       (λ s, RouteStatus_Conditions s generation clock) <$> rs_ParentStatuses (kr_RouteState r') !! ref
       = (λ s, RouteStatus_Conditions s generation clock) <$> rs_ParentStatuses (kr_RouteState r) !! ref) ∧
    (∀ t, length <$> rs_ResolutionErrors (kr_RouteState r') !! t
          = length <$> rs_ResolutionErrors (kr_RouteState r) !! t).
Proof using LJ LK.
  intros Hty. destruct (K8sRoute_roundtrip r Hty) as (data & r' & Hm & Hu & Hr & Hrefs & Herr & Hst).
  exists data, r'. split_and!; [done..|by apply K8sRoute_ID_object|done| |].
  - intros ref generation clock. destruct (Hst ref) as [s s' (Ha & Hf)|]; [|done]. simpl. f_equal.
    unfold RouteStatus_Conditions, RouteAcceptedStatus_Condition, RouteResolvedRefsStatus_Condition.
    by rewrite (condition_of_visible _ _ _ _ _ Ha), (condition_of_visible _ _ _ _ _ Hf).
  - intros t. rewrite Herr, lookup_fmap. destruct (rs_ResolutionErrors (kr_RouteState r) !! t); [|done].
    simpl. unfold forget_texts. by rewrite length_fmap.
Qed.

(** A route whose kind is not one of the two is never read back: the code
    finds no type to decode into, and what it returns, if anything, has no
    Kubernetes object. *)
Theorem untyped_route_lost (r : K8sRoute) (doc : json) (o : option Route) (st : option RouteState) :
  gk_Kind (route_GroupKind (kr_Route r)) ≠ "HTTPRoute" →
  gk_Kind (route_GroupKind (kr_Route r)) ≠ "TCPRoute" →
  K8sRoute_MarshalJSON r = Ok doc → K8sRoute_UnmarshalJSON doc = Ok (o, st) → o = None.
Proof using LJ LK.
  intros Hh Ht Hm Hu. destruct (K8sRoute_decode r doc Hm) as (data & st' & _ & _ & Hd). rewrite Hd in Hu.
  unfold route_into in Hu. rewrite !bool_decide_false in Hu by done.
  destruct (serializer_Decode _ _ _) as [into|] eqn:Hs; [|done]. cbn in Hu. injection Hu as <- _.
  by eapply serializer_nil.
Qed.

(** ** The encoding keeps what the store and the manager rely on *)

Lemma kept_listener_routes ls ls' :
  Forall2 listener_kept ls ls' → listener_routes ls' = listener_routes ls.
Proof.
  intros Hl. unfold listener_routes. f_equal.
  induction Hl as [|l l' ls ls' (Hr & _) _ IH]; [done|]. by rewrite !fmap_cons, Hr, dom_fmap_L, IH.
Qed.

#[export] Instance codec_lawful {LS : LabelSelectors} (client : Client) :
  @LawfulMarshaler K8sGateway K8sRoute string _ (k8s_binders client) (k8s_lawful_binder client) _.
Proof using LJ LK.
  split.
  - intros g Hspec. change (spec_in_range (gcc_Spec (kg_Config g))) in Hspec.
    destruct (K8sGateway_roundtrip g Hspec) as (g' & Hu & Hgw & Hst & Hcfg).
    exists (json_text (marshal_K8sGateway g)), g'. split; [done|].
    split; [cbn; unfold codec_UnmarshalGateway; by rewrite json_parse_text|].
    split; [cbn; unfold K8sGateway_ID; by rewrite Hgw, (proj1 Hst)|]. split.
    + apply kept_listener_routes, Hst.
    + cbn. rewrite Hcfg. by apply snapshot_in_range.
  - intros r Hty. destruct (K8sRoute_roundtrip r Hty) as (data & r' & Hm & Hu & Hr & _).
    exists data, r'. split_and!; [done|done|by apply K8sRoute_ID_object|]. cbn. by rewrite Hr.
Qed.

#[export] Instance codec_keeps_origin : KeepsOrigin string.
Proof using LJ LK.
  split. intros g d g' Hspec Hm Hu. injection Hm as <-.
  destruct (K8sGateway_roundtrip g Hspec) as (g1 & Hu1 & Hgw & Hst & Hcfg).
  change (codec_UnmarshalGateway (json_text (marshal_K8sGateway g)) = Ok g') in Hu.
  unfold codec_UnmarshalGateway in Hu. rewrite json_parse_text in Hu. cbn [mbind result_bind] in Hu.
  rewrite Hu1 in Hu. injection Hu as <-. rewrite Hgw, Hcfg, (proj1 Hst). simpl.
  by rewrite snapshot_idemp.
Qed.

(** ** What is read from a store *)

Lemma decoded_listener j l : unmarshal_ListenerState j = Ok l → listener_in_range l.
Proof.
  destruct j as [| | | | |fields]; try done. unfold unmarshal_ListenerState. intros H. decoder H.
  injection H as <-. unfold listener_in_range. simpl.
  match goal with Hr : ResolvedRoutes_UnmarshalJSON _ = Ok ?m |- map_Forall _ ?m =>
    unfold ResolvedRoutes_UnmarshalJSON in Hr; decoder Hr; injection Hr as <- end.
  match goal with Hm : mapM_result _ _ = Ok ?kvs |- _ => apply mapM_result_Ok in Hm; rename Hm into Hall end.
  intros k r Hk%elem_of_list_to_map_2. apply list_elem_of_lookup_1 in Hk as [i Hi].
  destruct (Forall2_lookup_r _ _ _ _ _ Hall Hi) as (kv & _ & Hr). decoder Hr. injection Hr as _ <-.
  by eapply decoded_route.
Qed.

(** Whatever bytes a store holds, a gateway that is decoded from them has
    integers of the width of their Go types. *)
Lemma decoded_gateway (data : string) (g : K8sGateway) :
  codec_UnmarshalGateway data = Ok g → gateway_in_range g.
Proof.
  unfold codec_UnmarshalGateway. intros H. apply bind_Ok in H as (doc & _ & H).
  destruct doc as [| | | | |fields]; try done. unfold unmarshal_K8sGateway in H.
  apply bind_Ok in H as (gw & _ & H). apply bind_Ok in H as (ost & Hst & H).
  apply bind_Ok in H as (config & Hc & H). apply bind_Ok in H as (st & Ho & H). injection H as <-.
  destruct ost as [st'|]; [|done]. injection Ho as ->.
  assert (∃ j, unmarshal_GatewayState j = Ok st) as [j Hj].
  { exists (json_member fields "GatewayState"). unfold read_pointer in Hst.
    destruct (json_member fields "GatewayState"); try done;
      destruct (unmarshal_GatewayState _); simpl in Hst; try done; by injection Hst as ->. }
  clear Hst. unfold gateway_in_range. cbn [kg_Config kg_GatewayState]. split_and!.
  - destruct (json_member fields "Config") as [| | | | |fs]; try done;
      unfold unmarshal_GatewayClassConfig, read_struct in Hc.
    + injection Hc as <-. apply zero_spec_in_range.
    + decoder Hc. injection Hc as <-. by eapply unmarshal_spec_in_range.
  - destruct j as [| | | | |fs]; try done. unfold unmarshal_GatewayState in Hj. decoder Hj.
    injection Hj as <-. by eapply read_int_in_range.
  - destruct j as [| | | | |fs]; try done. unfold unmarshal_GatewayState in Hj. decoder Hj.
    injection Hj as <-. by eapply read_slice_Forall; [apply decoded_listener|].
Qed.

End roundtrip.

(** ** The store over the encoding *)

Section encoded.
Context {JT : JsonText} {LJ : LawfulJsonText} {MF : MultierrorFormat} {MR : MapRange} {NU : NetURL}.
Context {SCH : Scheduler} {KJ : KubernetesJson} {LK : LawfulKubernetesJson} {W : Type}.
Context {LS : LabelSelectors} (client : Client) {AD : SyncAdapters W}.
#[local] Instance encoded_binders : Binders K8sGateway K8sRoute := k8s_binders client.
#[local] Instance encoded_lawful : LawfulBinder K8sGateway K8sRoute := k8s_lawful_binder client.
Context {AP : ApiServer W} {CR : ClusterReads W} {CL : Clock W}.
Context (statusUpdater : option (StatusUpdaters K8sGateway K8sRoute W)).
Context (resolver : W → BackendResolver) (format_kinds : list RouteGroupKind → string).
Context (controllerName : string) (consulNamespaceMapper : string → string).

(** C21: the store that the code keeps is well typed.  In every state the manager
    can reach with its records in the encoding of the code, whatever is
    reconciled, deleted, synced or changed from outside: the gateways and
    routes can be listed; every gateway listed has integers of the width of
    their Go types, in its configuration, its state and its routes; every
    route listed carries the kind of its type; and both can be written back,
    and are then read under the same identity. *)
Theorem encoded_store_typed (w : W) (m : @manager (memoryBackend string) W) :
  rtc (manager_step client statusUpdater resolver format_kinds controllerName consulNamespaceMapper)
    (new_manager w) m →
  ∃ gs rs, listGateways (st_backend (m_store m)) = Ok gs ∧ listRoutes (st_backend (m_store m)) = Ok rs ∧
    (∀ g, g ∈ gs → gateway_in_range g ∧ ∃ data g', codec_MarshalGateway g = Ok data ∧
       codec_UnmarshalGateway data = Ok g' ∧ K8sGateway_ID g' = K8sGateway_ID g) ∧
    (∀ r, r ∈ rs → typed_route (kr_Route r) ∧ ∃ data r', codec_MarshalRoute r = Ok data ∧
       codec_UnmarshalRoute data = Ok r' ∧ K8sRoute_ID r' = K8sRoute_ID r).
Proof using LJ LK.
  intros Hreach. destruct (reachable_manager_inv client statusUpdater resolver format_kinds controllerName
    consulNamespaceMapper w m Hreach) as [_ Hinv].
  destruct (listGateways_ok _ Hinv) as (gs & Hgs & _ & Hg). destruct (listRoutes_ok _ Hinv) as (rs & Hrs & _).
  destruct (listed_storable _ _ _ Hinv Hgs Hrs) as [Hsg Hsr].
  rewrite Forall_forall in Hsg. rewrite Forall_forall in Hsr.
  exists gs, rs. split_and!; [done|done| |].
  - intros g Hin. destruct (Hg g Hin) as (data & _ & Hu). split; [exact (decoded_gateway data g Hu)|].
    destruct (MarshalGateway_law g (Hsg g Hin)) as (d & g' & Hm & Hu' & Hid & _). by exists d, g'.
  - intros r Hin. split; [exact (Hsr r Hin)|].
    destruct (MarshalRoute_law r (Hsr r Hin)) as (d & r' & Hm & Hu & Hid & _). by exists d, r'.
Qed.

End encoded.

(** ** Examples *)

Module CodecExamples.

#[export] Existing Instance JsonCoding.coded_text.
#[export] Existing Instance JsonCoding.coded_lawful.
#[export] Existing Instance canonical_range.

Definition read_code {A} `{JsonCode A} (j : json) : result A :=
  match of_json j with Some a => Ok a | None => Err err_json end.

Lemma read_code_to_json {A} `{JsonCode A} (a : A) : read_code (to_json a) = Ok a.
Proof. unfold read_code. by rewrite of_to_json. Qed.

(** The plain encodings, and a serializer that writes the encoding. *)
#[export] Instance plain_kubernetes : KubernetesJson := {|
  gateway_members g := [("metadata", to_json g)];
  read_gateway fields := read_code (json_member fields "metadata");
  meta_json := to_json; read_meta := read_code;
  http_rule_json := to_json; read_http_rule := read_code;
  tcp_rule_json := to_json; read_tcp_rule := read_code;
  http_backend_json := to_json; read_http_backend := read_code;
  backend_json := to_json; read_backend := read_code;
  parent_json := to_json; read_parent := read_code;
  gvk_json g := to_json (gvk_Group g, gvk_Version g, gvk_Kind g);
  read_gvk j := '(g, v, k) ← read_code j; Ok (mkGroupVersionKind g v k);
  route_version _ := "v1alpha2";
  serializer_Encode r := Ok (json_text (to_json r));
  serializer_Decode data _ into :=
    match into with
    | None => Ok None
    | Some _ => doc ← json_parse data; r ← read_code doc; Ok (Some r)
    end
|}.

#[export] Instance plain_kubernetes_lawful : LawfulKubernetesJson.
Proof.
  split; try (intros r; split; [apply to_json_not_null|apply read_code_to_json]);
    try (intros r; apply read_code_to_json).
  - intros g n Hn. simpl in Hn. apply list_elem_of_singleton in Hn as ->. by split.
  - intros g extra Hextra. change (read_code (json_member (("metadata", to_json g) :: extra) "metadata") = Ok g).
    unfold json_member. rewrite json_members_lookup, reverse_cons, list_to_map_app.
    rewrite lookup_union_r; [apply read_code_to_json|]. apply not_elem_of_list_to_map_1.
    rewrite fmap_reverse, elem_of_reverse. intros Hin. by destruct (Hextra _ Hin).
  - intros [g v k]. cbn [gvk_json read_gvk plain_kubernetes]. by rewrite read_code_to_json.
  - intros r _. eexists. split; [done|]. cbn [serializer_Decode plain_kubernetes].
    rewrite json_parse_text. cbn [mbind result_bind]. by rewrite read_code_to_json.
  - intros data gvk o. cbn. by intros [= <-].
Qed.

(** A gateway with a route on its first listener, whose status has an error. *)
Definition weighted : HTTPService := mkHTTPService (mkResolvedService "ns" "web") 10 [].
Definition bound_route : ResolvedRoute :=
  ResolvedHTTP (mkHTTPRoute (mkCommonRoute {["external-source" := "consul-api-gateway"]} "route" "ns") ["*"]
    [mkHTTPRouteRule [mkHTTPMatch (mkHTTPPathMatch HTTPPathMatchPrefixType "/") [] [] HTTPMethodGet] [] [weighted]]).

Definition stored_gateway : K8sGateway :=
  mkK8sGateway BinderExamples.two_listeners
    (mkGatewayState "ns" zeroGatewayStatus true false 3 ["10.0.0.1"]
      [mkListenerState {["http-default/route" := bound_route]} "HTTP" "a" zeroTLSParams zeroListenerStatus;
       mkListenerState ∅ "HTTP" "b" zeroTLSParams (set_RouteConflict (Some (ErrString "conflict")) zeroListenerStatus)])
    zeroGatewayClassConfig.

Lemma stored_gateway_in_range : gateway_in_range stored_gateway.
Proof.
  split; [apply zero_spec_in_range|]. split; [unfold in_range; simpl; lia|].
  repeat constructor; unfold listener_in_range; simpl; [|apply map_Forall_empty].
  apply map_Forall_singleton. repeat constructor; simpl; unfold in_range; lia.
Qed.

(** A route with references for two rules. *)
Definition stored_route : K8sRoute :=
  mkK8sRoute (RouteTCP (mkK8sTCPRoute (BinderExamples.meta "route") (mkGroupKind GroupName "TCPRoute") [] [] []))
    (mkRouteState
       {[0 := (RuleTCP (mkTCPRouteRule []), []);
         1 := (RuleEmpty, [NewConsulServiceReference (mkConsulService "ns" "web")])]}
       (ResolutionErrors_Add ∅ (NewConsulResolutionError "not found"))
       {[BinderExamples.section "a" := zeroRouteStatus]}).

(** A route object without its kind. *)
Definition kindless_route : K8sRoute :=
  mkK8sRoute (RouteTCP (mkK8sTCPRoute (BinderExamples.meta "route") (mkGroupKind "" "") [] [] []))
    NewRouteState.

#[export] Existing Instance plain_url.
#[export] Existing Instance StoreExamples.in_order.
#[export] Existing Instance BinderExamples.no_selectors.
#[export] Existing Instance ManagerExamples.accepting.
#[export] Existing Instance ClassExamples.class_reads.
#[export] Existing Instance ClassExamples.stopped_clock.
#[export] Instance bare_binders : Binders K8sGateway K8sRoute := k8s_binders BinderExamples.bare_client.

Abbreviation encoded_manager := (@manager (memoryBackend string) cluster).
Abbreviation encoded_step := (manager_step BinderExamples.bare_client None ManagerExamples.echo
  ManagerExamples.kinds "controller" ManagerExamples.to_default).

Definition encoded_start : encoded_manager :=
  new_manager (put_object empty_cluster (ObjGateway (ManagerExamples.gateway_in "team" ∅))).

Definition succeeds (r : option (encoded_manager * option error)) (ok : encoded_manager → bool) : bool :=
  match r with Some (m, None) => ok m | _ => false end.

Lemma succeeds_Some r ok : succeeds r ok = true → ∃ m, r = Some (m, None) ∧ ok m = true.
Proof. destruct r as [[m [e|]]|]; intros H; [discriminate H|by exists m|discriminate H]. Qed.

Definition count {A} (r : result (list A)) : nat := match r with Ok l => length l | Err _ => 0 end.

Lemma encoded_gateway_and_route :
  ∃ m : encoded_manager, rtc encoded_step encoded_start m ∧
    count (listGateways (st_backend (m_store m))) = 1 ∧ count (listRoutes (st_backend (m_store m))) = 1.
Proof.
  destruct (succeeds_Some (m_UpsertGateway None ManagerExamples.kinds "controller" ManagerExamples.to_default
      (ManagerExamples.annotated_gateway "team") encoded_start)
    (λ m, succeeds (m_UpsertTCPRoute None ManagerExamples.echo "controller" ManagerExamples.attached m)
      (λ m', bool_decide (count (listGateways (st_backend (m_store m'))) = 1) &&
             bool_decide (count (listRoutes (st_backend (m_store m'))) = 1))))
    as (m & Hm & Hok); [vm_compute; reflexivity|].
  destruct (succeeds_Some _ _ Hok) as (m' & Hm' & [H1 H2]%andb_true_iff).
  apply bool_decide_eq_true in H1, H2. exists m'. split; [|by split].
  eapply rtc_l; [by eapply MUpsertGateway|].
  eapply rtc_l; [eapply (MUpsertTCPRoute _ _ _ _ _ _ ManagerExamples.attached); [reflexivity|exact Hm']|apply rtc_refl].
Qed.

End CodecExamples.

Import CodecExamples.

Lemma gateway_roundtrip_witness :
  ∃ data g', codec_MarshalGateway stored_gateway = Ok data ∧ codec_UnmarshalGateway data = Ok g' ∧
    K8sGateway_Resolve g' = K8sGateway_Resolve stored_gateway ∧
    length <$> (rg_Listeners <$> K8sGateway_Resolve g') = Some 1.
Proof.
  destruct (gateway_roundtrip stored_gateway stored_gateway_in_range)
    as (data & g' & Hm & Hu & _ & _ & Hres & _).
  exists data, g'. split; [exact Hm|]. split; [exact Hu|]. split; [exact Hres|].
  rewrite Hres. vm_compute. reflexivity.
Defined.

Lemma route_roundtrip_witness :
  ∃ data r', codec_MarshalRoute stored_route = Ok data ∧ codec_UnmarshalRoute data = Ok r' ∧
    kr_Route r' = kr_Route stored_route ∧
    ∃ i refs, rs_References (kr_RouteState r') !! i = Some (RuleEmpty, refs).
Proof.
  destruct (route_roundtrip stored_route) as (data & r' & Hm & Hu & Hr & _ & Hrefs & _); [reflexivity|].
  exists data, r'. split; [exact Hm|]. split; [exact Hu|]. split; [exact Hr|].
  eapply (proj1 (proj2 Hrefs) 1). vm_compute. reflexivity.
Defined.

(** The gateway and the route of the manager's examples are reconciled, with
    their records in the encoding of the code. *)
Lemma encoded_store_typed_witness :
  ∃ (m : @manager (memoryBackend string) cluster) gs rs,
    listGateways (st_backend (m_store m)) = Ok gs ∧ listRoutes (st_backend (m_store m)) = Ok rs ∧
    length gs = 1 ∧ length rs = 1 ∧ (∀ g, g ∈ gs → gateway_in_range g) ∧
    ∀ r, r ∈ rs → typed_route (kr_Route r).
Proof.
  destruct (encoded_gateway_and_route) as (m & Hreach & Hgs & Hrs).
  destruct (encoded_store_typed BinderExamples.bare_client None ManagerExamples.echo ManagerExamples.kinds
    "controller" ManagerExamples.to_default _ m Hreach) as (gs & rs & Hlg & Hlr & Hg & Hr).
  exists m, gs, rs. rewrite Hlg in Hgs. rewrite Hlr in Hrs.
  split; [exact Hlg|]. split; [exact Hlr|]. split; [exact Hgs|]. split; [exact Hrs|].
  split; [intros g Hin; exact (proj1 (Hg g Hin))|intros r Hin; exact (proj1 (Hr r Hin))].
Defined.

(** Two rules with the same text are one after decoding, and a route object
    without its kind is not decoded. *)
Example codec_edge_cases :
  (∃ m', RouteRuleReferenceMap_UnmarshalJSON (RouteRuleReferenceMap_MarshalJSON
     {[0 := (RuleTCP (mkTCPRouteRule []), []); 1 := (RuleTCP (mkTCPRouteRule []), [])]}) = Ok m' ∧ size m' = 1) ∧
  (∃ data, codec_MarshalRoute kindless_route = Ok data ∧ is_Ok (codec_UnmarshalRoute data) = false).
Proof. split; eexists; (split; [vm_compute; reflexivity|vm_compute; reflexivity]). Qed.
