(* ===== verification/Events.v ===== *)
(** * Watched events ([internal/k8s/controllers])

    The controllers also watch objects they do not reconcile: services,
    reference grants and policies, and the pods of gateways.  The map
    functions of the watches turn such an event into the requests it
    enqueues.  What matters of them is completeness: an event that changes
    what a route is validated to has to enqueue the route. *)

From S2P Require Import Prelude Errors Json Core K8s Status GatewayClient Resolver State Converter Objects Binder K8sSecret GatewayValidator RouteValidator.

(** ** The map functions *)

Section events.
Context (rc : RuntimeClient).

(** [gateway_controller.go] *)

Definition podToGatewayRequest (object : ObjectMeta) : list NamespacedName :=
  match IsManagedGateway (om_Labels object) with
  | Some gw => [mkNamespacedName (om_Namespace object) gw]
  | None => []
  end.

(** The loop of the three [get...AffectedByReferenceGrant]: a failed listing
    ends it with the matches so far. *)
Fixpoint affected_by_grant {R} (list_in : string → result (list R)) (from : list ReferenceGrantFrom)
    (matches : list R) : list R :=
  match from with
  | [] => matches
  | f :: from =>
      match list_in (rgf_Namespace f) with
      | Err _ => matches
      | Ok items => affected_by_grant list_in from (matches ++ items)
      end
  end.

Definition getGatewaysAffectedByReferenceGrant (refGrant : ReferenceGrant) : list Gateway :=
  affected_by_grant (GetGatewaysInNamespace rc) (rg_From refGrant) [].

Definition getRequestsFromReferenceGrant (refGrant : ReferenceGrant) : list NamespacedName :=
  gateway_NamespacedName <$> getGatewaysAffectedByReferenceGrant refGrant.

(** Does a backend reference of a route in [namespace] name the service? *)
Definition references_service (namespace : string) (service : Service) (ref : BackendRef) : bool :=
  let refNamespace := default namespace (bor_Namespace (br_Ref ref)) in
  bool_decide (refNamespace = om_Namespace (svc_Meta service)) &&
  bool_decide (bor_Name (br_Ref ref) = om_Name (svc_Meta service)).

(** [http_route_controller.go] *)

Definition http_getRoutesAffectedByService (service : Service) : list K8sHTTPRoute :=
  match GetHTTPRoutes rc with
  | Err _ => []
  | Ok routes =>
      List.filter (λ route,
        existsb (λ rule,
          existsb (λ ref, references_service (om_Namespace (khr_Meta route)) service (hbr_BackendRef ref))
            (kr_BackendRefs rule)) (khr_Rules route)) routes
  end.

Definition http_serviceToRouteRequests (service : Service) : list NamespacedName :=
  (λ route, om_key (khr_Meta route)) <$> http_getRoutesAffectedByService service.

Definition http_getRoutesAffectedByReferenceGrant (refGrant : ReferenceGrant) : list K8sHTTPRoute :=
  affected_by_grant (GetHTTPRoutesInNamespace rc) (rg_From refGrant) [].

Definition http_getRouteRequestsFromReferenceGrant (refGrant : ReferenceGrant) : list NamespacedName :=
  (λ route, om_key (khr_Meta route)) <$> http_getRoutesAffectedByReferenceGrant refGrant.

(** [tcp_route_controller.go] *)

Definition tcp_getRoutesAffectedByService (service : Service) : list K8sTCPRoute :=
  match GetTCPRoutes rc with
  | Err _ => []
  | Ok routes =>
      List.filter (λ route,
        existsb (λ rule,
          existsb (references_service (om_Namespace (ktr_Meta route)) service)
            (tr_BackendRefs rule)) (ktr_Rules route)) routes
  end.

Definition tcp_serviceToRouteRequests (service : Service) : list NamespacedName :=
  (λ route, om_key (ktr_Meta route)) <$> tcp_getRoutesAffectedByService service.

Definition tcp_getRoutesAffectedByReferenceGrant (refGrant : ReferenceGrant) : list K8sTCPRoute :=
  affected_by_grant (GetTCPRoutesInNamespace rc) (rg_From refGrant) [].

Definition tcp_getRouteRequestsFromReferenceGrant (refGrant : ReferenceGrant) : list NamespacedName :=
  (λ route, om_key (ktr_Meta route)) <$> tcp_getRoutesAffectedByReferenceGrant refGrant.

(** The requests of the controller that reconciles the route. *)

Definition requests_for_service (route : Route) : Service → list NamespacedName :=
  match route with
  | RouteHTTP _ => http_serviceToRouteRequests
  | RouteTCP _ => tcp_serviceToRouteRequests
  end.

Definition requests_for_grant (route : Route) : ReferenceGrant → list NamespacedName :=
  match route with
  | RouteHTTP _ => http_getRouteRequestsFromReferenceGrant
  | RouteTCP _ => tcp_getRouteRequestsFromReferenceGrant
  end.

(** The cluster lists the route, among all routes of its kind and among those
    of its namespace; no namespace fails to be listed. *)

Definition listed (route : Route) : Prop :=
  match route with
  | RouteHTTP r => ∃ routes, rc_ListHTTPRoutes rc = Ok routes ∧ r ∈ routes
  | RouteTCP r => ∃ routes, rc_ListTCPRoutes rc = Ok routes ∧ r ∈ routes
  end.

Definition listed_in {R} (list_in : string → result (list R)) (ns : string) (r : R) : Prop :=
  (∀ n, ∃ items, list_in n = Ok items) ∧ ∃ items, list_in ns = Ok items ∧ r ∈ items.

Definition listed_in_namespace (route : Route) : Prop :=
  match route with
  | RouteHTTP r => listed_in (rc_ListHTTPRoutesIn rc) (route_Namespace route) r
  | RouteTCP r => listed_in (rc_ListTCPRoutesIn rc) (route_Namespace route) r
  end.

End events.

(** All backends of a route. *)
Definition route_backends (route : Route) : list BackendRef :=
  match route with
  | RouteHTTP r => khr_Rules r ≫= λ rule, hbr_BackendRef <$> kr_BackendRefs rule
  | RouteTCP r => ktr_Rules r ≫= tr_BackendRefs
  end.

(** ** Which routes an event enqueues *)

Lemma existsb_concat {A B} (f : B → bool) (g : A → list B) xs :
  existsb (λ x, existsb f (g x)) xs = existsb f (xs ≫= g).
Proof. induction xs as [|x xs IH]; [done|]. simpl. by rewrite IH, existsb_app. Qed.

Lemma existsb_fmap {A B} (f : B → bool) (g : A → B) xs : existsb f (g <$> xs) = existsb (f ∘ g) xs.
Proof. induction xs as [|x xs IH]; [done|]. simpl. f_equal. exact IH. Qed.

Lemma existsb_ext_all {A} (f g : A → bool) xs : (∀ x, f x = g x) → existsb f xs = existsb g xs.
Proof. intros Hfg. induction xs as [|x xs IH]; [done|]. simpl. by rewrite Hfg, IH. Qed.

Lemma elem_of_filter_bool {A} (f : A → bool) xs x : x ∈ List.filter f xs ↔ x ∈ xs ∧ f x = true.
Proof. rewrite !list_elem_of_In. apply filter_In. Qed.

(** The affected routes of a kind, in terms of all backends. *)
Lemma http_affected rc service routes r :
  rc_ListHTTPRoutes rc = Ok routes →
  r ∈ http_getRoutesAffectedByService rc service ↔
  r ∈ routes ∧ existsb (references_service (om_Namespace (khr_Meta r)) service)
                 (route_backends (RouteHTTP r)) = true.
Proof.
  intros Hl. unfold http_getRoutesAffectedByService, GetHTTPRoutes. rewrite Hl. simpl.
  rewrite elem_of_filter_bool, <-existsb_concat.
  erewrite existsb_ext_all; [done|]. intros rule. simpl. by rewrite existsb_fmap.
Qed.

Lemma tcp_affected rc service routes r :
  rc_ListTCPRoutes rc = Ok routes →
  r ∈ tcp_getRoutesAffectedByService rc service ↔
  r ∈ routes ∧ existsb (references_service (om_Namespace (ktr_Meta r)) service)
                 (route_backends (RouteTCP r)) = true.
Proof.
  intros Hl. unfold tcp_getRoutesAffectedByService, GetTCPRoutes. rewrite Hl. simpl.
  by rewrite elem_of_filter_bool, <-existsb_concat.
Qed.

Lemma references_service_true namespace service ref :
  references_service namespace service ref = true ↔
  om_key (svc_Meta service)
    = mkNamespacedName (default namespace (bor_Namespace (br_Ref ref))) (bor_Name (br_Ref ref)).
Proof.
  unfold references_service. rewrite andb_true_iff, !bool_decide_eq_true. unfold om_key.
  split; [by intros [-> ->]|by intros [= -> ->]].
Qed.

(** A listed route with a backend that names the service is enqueued. *)
Lemma service_enqueues rc route service ref :
  listed rc route → ref ∈ route_backends route →
  references_service (route_Namespace route) service ref = true →
  route_NamespacedName route ∈ requests_for_service rc route service.
Proof.
  intros Hl Href Hs.
  assert (existsb (references_service (route_Namespace route) service) (route_backends route) = true)
    as He by (apply existsb_elem; eauto).
  destruct route as [r|r]; destruct Hl as (routes & Hl & Hr); simpl; apply list_elem_of_fmap;
    exists r; (split; [done|]).
  - by apply (http_affected _ _ _ _ Hl).
  - by apply (tcp_affected _ _ _ _ Hl).
Qed.

Lemma affected_by_grant_elem {R} (list_in : string → result (list R)) from matches r :
  (∀ n, ∃ items, list_in n = Ok items) →
  r ∈ affected_by_grant list_in from matches ↔
  r ∈ matches ∨ ∃ f items, f ∈ from ∧ list_in (rgf_Namespace f) = Ok items ∧ r ∈ items.
Proof.
  intros Hok. revert matches. induction from as [|f from IH]; intros matches; simpl.
  { split; [by left|]. intros [?|(f & ? & []%not_elem_of_nil & _)]. done. }
  destruct (Hok (rgf_Namespace f)) as [items Hi]. rewrite Hi, IH, elem_of_app. split.
  - intros [[?|?]|(f' & is' & ? & ? & ?)]; [by left| |].
    + right. exists f, items. split_and!; [by left|done|done].
    + right. exists f', is'. split_and!; [by right|done|done].
  - intros [?|(f' & is' & [->|?]%elem_of_cons & Hf' & ?)]; [by left; left| |].
    + left. right. rewrite Hi in Hf'. by injection Hf' as ->.
    + right. by exists f', is'.
Qed.

Lemma listed_in_lister {R} (list_in : string → result (list R)) ns r :
  listed_in list_in ns r → listed_in (λ n, lister (list_in n)) ns r.
Proof.
  intros [Hok (items & Hi & Hr)]. split; [|exists items; by rewrite Hi].
  intros n. destruct (Hok n) as [is' Hn]. exists is'. by rewrite Hn.
Qed.

(** A grant from the namespace of a route enqueues the route. *)
Lemma grant_enqueues rc route g f :
  listed_in_namespace rc route → f ∈ rg_From g → rgf_Namespace f = route_Namespace route →
  route_NamespacedName route ∈ requests_for_grant rc route g.
Proof.
  intros Hl Hf Hn.
  destruct route as [r|r]; apply listed_in_lister in Hl as [Hok (items & Hi & Hr)]; simpl;
    apply list_elem_of_fmap; exists r; (split; [done|]);
    apply affected_by_grant_elem; try done; right; exists f, items; by rewrite Hn.
Qed.

(** ** What the validation of a route depends on *)

Lemma foldR_ext {A} (f g : A → RouteState → result RouteState) xs st :
  (∀ x st, x ∈ xs → f x st = g x st) → foldR f xs st = foldR g xs st.
Proof.
  revert st. induction xs as [|x xs IH]; intros st Hfg; [done|]. simpl. rewrite Hfg by by left.
  destruct (g x st) as [st'|]; [|done]. simpl. apply IH. intros y st1 Hy. apply Hfg. by right.
Qed.

(** Two validators that permit and resolve the backends of the route alike. *)
Definition agree_on (route : Route) (br br' : BackendResolver) (c c' : Client) : Prop :=
  ∀ ref, ref ∈ route_backends route →
    routeAllowedForBackendRef c' route ref = routeAllowedForBackendRef c route ref ∧
    @br_Resolve br' (route_Namespace route) (br_Ref ref) = @br_Resolve br (route_Namespace route) (br_Ref ref).

Lemma validate_backend_ext route br br' c c' ptr rule ref sref st :
  agree_on route br br' c c' → ref ∈ route_backends route →
  @validate_backend br' c' route ptr rule ref sref st = @validate_backend br c route ptr rule ref sref st.
Proof. intros Hag Href. unfold validate_backend. by destruct (Hag ref Href) as [-> ->]. Qed.

Lemma Validate_ext route br br' c c' :
  agree_on route br br' c c' →
  @RouteValidator_Validate br' c' route = @RouteValidator_Validate br c route.
Proof.
  intros Hag. destruct route as [r|r]; simpl.
  - apply foldR_ext. intros [i rule] st Hi. apply foldR_ext. intros ref st' Href.
    apply validate_backend_ext; [done|]. apply elem_of_lookup_imap in Hi as (j & x & [= -> ->] & Hx).
    simpl. apply list_elem_of_bind. exists x. split; [|by eapply list_elem_of_lookup_2].
    apply list_elem_of_fmap. eauto.
  - unfold validateTCPRoute. destruct (ktr_Rules r) as [|rule [|]] eqn:Hr; [done| |done].
    destruct (tr_BackendRefs rule) as [|ref [|]] eqn:Hb; [done| |done].
    apply validate_backend_ext; [done|]. simpl. rewrite Hr. simpl. rewrite Hb. by left.
Qed.

(** ** Events and what they change *)

(** An event of a watched object: a service was created, changed or deleted,
    or reference grants or policies were (the versions before and after). *)
Inductive event : Type :=
  | ServiceEvent (service : Service)
  | GrantEvent (grants : list ReferenceGrant).

(** The requests the event enqueues for the controller of the route. *)
Definition event_requests (rc : RuntimeClient) (route : Route) (ev : event) : list NamespacedName :=
  match ev with
  | ServiceEvent service => requests_for_service rc route service
  | GrantEvent grants => grants ≫= requests_for_grant rc route
  end.

(** The cluster before and after the event differ only in its objects. *)
Definition event_changes (rc rc' : RuntimeClient) (ev : event) : Prop :=
  (∀ n, rc_MeshService rc' n = rc_MeshService rc n) ∧
  match ev with
  | ServiceEvent service =>
      (∀ n, n ≠ om_key (svc_Meta service) → rc_Service rc' n = rc_Service rc n) ∧
      (∀ ns, GetReferenceGrantsInNamespace rc' ns = GetReferenceGrantsInNamespace rc ns)
  | GrantEvent grants =>
      (∀ n, rc_Service rc' n = rc_Service rc n) ∧
      (∀ ns, ∃ gs gs', GetReferenceGrantsInNamespace rc ns = Ok gs ∧
         GetReferenceGrantsInNamespace rc' ns = Ok gs' ∧
         ∀ g, g ∉ grants → g ∈ gs' ↔ g ∈ gs)
  end.

Lemma existsb_same_grants (f : ReferenceGrant → bool) gs gs' :
  (∀ g, f g = true → g ∈ gs' ↔ g ∈ gs) → existsb f gs' = existsb f gs.
Proof. intros Hsame. apply eq_iff_eq_true. rewrite !existsb_elem. naive_solver. Qed.

(** A grant none of whose sources is the namespace of the route permits none
    of its references. *)
Lemma irrelevant_grant fromGK ns g :
  ¬ Exists (λ f, rgf_Namespace f = ns) (rg_From g) →
  existsb (grant_from_applies fromGK ns) (rg_From g) = false.
Proof.
  intros Hno. apply not_true_iff_false. rewrite existsb_elem. intros (f & Hf & Happ).
  apply grant_from_applies_true in Happ as (_ & _ & Hns). apply Hno, Exists_exists. eauto.
Qed.

Section complete.
Context {MF : MultierrorFormat} {MR : MapRange} {BO : Backoff}.
Context (controllerName : string) (mapper : string → string) (consul : nat → ConsulView).

(** The validation of a route against a cluster. *)
Definition validate_in (rc : RuntimeClient) (route : Route) : result RouteState :=
  let client := New rc controllerName in
  @RouteValidator_Validate (backendResolver client mapper consul) client route.

(** A backend resolves to the same when the object it names is the same. *)
Lemma Resolve_ext (rc rc' : RuntimeClient) namespace ref :
  let n := mkNamespacedName (default namespace (bor_Namespace ref)) (bor_Name ref) in
  rc_MeshService rc' n = rc_MeshService rc n → rc_Service rc' n = rc_Service rc n →
  Resolve (New rc' controllerName) mapper consul namespace ref
    = Resolve (New rc controllerName) mapper consul namespace ref.
Proof.
  intros n Hm Hs. unfold Resolve, consulServiceForK8SService, consulServiceForMeshService. simpl.
  unfold GetService, GetMeshService. fold n. by rewrite Hm, Hs.
Qed.

(** C24: watched events miss no route.  When a service, a reference grant or a
    reference policy is created, changed or deleted, and that changes what the
    validation of an HTTP or TCP route yields (its resolved backends or its
    resolution errors), the event enqueues a reconciliation of that route. *)
Theorem events_miss_no_route (rc rc' : RuntimeClient) (ev : event) (route : Route) :
  event_changes rc rc' ev → listed rc' route → listed_in_namespace rc' route →
  validate_in rc' route ≠ validate_in rc route →
  route_NamespacedName route ∈ event_requests rc' route ev.
Proof.
  intros [Hm Hev] Hl Hln Hdiff. destruct ev as [service|grants]; destruct Hev as [Hs Hg].
  - destruct (existsb (references_service (route_Namespace route) service) (route_backends route)) eqn:He.
    { apply existsb_elem in He as (ref & Href & Hr). by eapply service_enqueues. }
    destruct Hdiff. apply Validate_ext. intros ref Href. split.
    + unfold routeAllowedForBackendRef, referenceAllowed. case_bool_decide; [done|]. simpl. by rewrite Hg.
    + apply Resolve_ext; [done|]. apply Hs. intros Hkey. apply not_true_iff_false in He. apply He.
      apply existsb_elem. exists ref. split; [done|]. by apply references_service_true.
  - simpl. destruct (decide (Exists (λ g, Exists (λ f, rgf_Namespace f = route_Namespace route) (rg_From g)) grants))
      as [(g & Hgin & (f & Hf & Hns)%Exists_exists)%Exists_exists|Hno].
    { apply list_elem_of_bind. exists g. split; [by eapply grant_enqueues|done]. }
    destruct Hdiff. apply Validate_ext. intros ref Href. split; [|by apply Resolve_ext].
    unfold routeAllowedForBackendRef, referenceAllowed. case_bool_decide; [done|]. simpl.
    destruct (Hg (default "" (bor_Namespace (br_Ref ref)))) as (gs & gs' & -> & -> & Hsame). simpl.
    f_equal. apply existsb_same_grants. intros g [Hfrom _]%andb_true_iff. apply Hsame. intros Hin.
    rewrite irrelevant_grant in Hfrom; [done|]. intros Hex. apply Hno, Exists_exists. eauto.
Qed.

End complete.

(** ** Examples *)

Module EventExamples.

(** A cluster with these services, grants and this TCP route. *)
Definition cluster_of (services : list Service) (grants : list ReferenceGrant) (route : K8sTCPRoute) :
    RuntimeClient := {|
  rc_GatewayClassConfig _ := NotFound;
  rc_GatewayClass _ := NotFound;
  rc_Gateway _ := NotFound;
  rc_Secret _ := NotFound;
  rc_Service n :=
    match List.find (λ s, bool_decide (om_key (svc_Meta s) = n)) services with
    | Some s => Found s
    | None => NotFound
    end;
  rc_HTTPRoute _ := NotFound;
  rc_TCPRoute _ := NotFound;
  rc_MeshService _ := NotFound;
  rc_Namespace _ := NotFound;
  rc_Deployment _ := NotFound;
  rc_ListGatewayClasses := Ok [];
  rc_ListGateways := Ok [];
  rc_ListPods _ := Ok [];
  rc_ListDeployments _ := Ok [];
  rc_ListReferenceGrants ns := Ok (if bool_decide (ns = "data") then grants else []);
  rc_ListReferencePolicies _ := Ok [];
  rc_ListGatewaysIn _ := Ok [];
  rc_ListHTTPRoutes := Ok [];
  rc_ListHTTPRoutesIn _ := Ok [];
  rc_ListTCPRoutes := Ok [route];
  rc_ListTCPRoutesIn ns := Ok (if bool_decide (ns = om_Namespace (ktr_Meta route)) then [route] else [])
|}.

(** A route of namespace [team] to the service [db] of namespace [data]. *)
Definition route : K8sTCPRoute :=
  mkK8sTCPRoute (mkObjectMeta "route" "team" "uid" 1 "1" 0 ∅ ∅ [] [] None)
    (mkGroupKind GroupName "TCPRoute") []
    [mkTCPRouteRule [mkBackendRef (mkBackendObjectReference None None "db" (Some "data") (Some 5432%Z)) None]] [].

Definition db : Service := mkService (new_meta "db" "data" ∅ ∅) "ClusterIP" "" ∅ [] [].
Definition grant : ReferenceGrant :=
  mkReferenceGrant [mkReferenceGrantFrom GroupName "TCPRoute" "team"]
    [mkReferenceGrantTo "" "Service" None].

(** Consul knows the service under its own name. *)
Definition consul (_ : nat) : ConsulView :=
  mkConsulView (Ok ["node"]) (Ok [""]) (λ _ _ _, Ok (Some {["id" := mkAgentService "db" ""]}))
    (λ _ _, Ok []) (λ _ _, Ok None).

#[export] Instance event_range : MapRange := canonical_range.

Definition validate (rc : RuntimeClient) : result RouteState :=
  validate_in "controller" (λ ns, ns) consul rc (RouteTCP route).

Definition resolves (rc : RuntimeClient) : bool :=
  match validate rc with Ok st => bool_decide (rs_References st ≠ ∅) | Err _ => false end.

Lemma resolves_differ rc rc' : resolves rc' ≠ resolves rc → validate rc' ≠ validate rc.
Proof. unfold resolves. intros Hd Heq. by rewrite Heq in Hd. Qed.

Lemma route_listed services grants :
  listed (cluster_of services grants route) (RouteTCP route) ∧
  listed_in_namespace (cluster_of services grants route) (RouteTCP route).
Proof.
  split; [exists [route]; by split; [|left]|]. split; [by eauto|].
  exists [route]. by split; [|left].
Qed.

(** The service appears. *)
Lemma service_appears :
  event_changes (cluster_of [] [grant] route) (cluster_of [db] [grant] route) (ServiceEvent db).
Proof.
  split; [done|]. split; [|done]. intros n Hn. simpl. rewrite bool_decide_false; [done|]. intros <-. by apply Hn.
Qed.

(** The grant is revoked. *)
Lemma grant_revoked :
  event_changes (cluster_of [db] [grant] route) (cluster_of [db] [] route) (GrantEvent [grant]).
Proof.
  split; [done|]. split; [done|]. intros ns.
  exists ((if bool_decide (ns = "data") then [grant] else []) ++ []),
    ((if bool_decide (ns = "data") then [] else []) ++ []).
  split_and!; [done|done|]. intros g Hg. case_bool_decide; set_solver.
Qed.

End EventExamples.

Import (hints) EventExamples.

Lemma events_miss_no_route_witness :
  mkNamespacedName "team" "route" ∈ event_requests
    (EventExamples.cluster_of [EventExamples.db] [EventExamples.grant] EventExamples.route)
    (RouteTCP EventExamples.route) (ServiceEvent EventExamples.db) ∧
  mkNamespacedName "team" "route" ∈ event_requests
    (EventExamples.cluster_of [EventExamples.db] [] EventExamples.route)
    (RouteTCP EventExamples.route) (GrantEvent [EventExamples.grant]).
Proof.
  split.
  - apply (events_miss_no_route "controller" (λ ns, ns) EventExamples.consul
      (EventExamples.cluster_of [] [EventExamples.grant] EventExamples.route)
      _ _ (RouteTCP EventExamples.route) EventExamples.service_appears); [apply EventExamples.route_listed..|].
    apply EventExamples.resolves_differ. vm_compute. discriminate.
  - apply (events_miss_no_route "controller" (λ ns, ns) EventExamples.consul
      (EventExamples.cluster_of [EventExamples.db] [EventExamples.grant] EventExamples.route)
      _ _ (RouteTCP EventExamples.route) EventExamples.grant_revoked); [apply EventExamples.route_listed..|].
    apply EventExamples.resolves_differ. vm_compute. discriminate.
Defined.
