(* ===== verification/Controllers.v ===== *)
(** * The controllers ([internal/k8s/controllers])

    Each controller reconciles one kind of object: it reads the object a
    request names and hands it to the manager, and guards gateway classes and
    their configurations with finalizers.  A reconciliation returns a
    [ctrl.Result], modelled by its [RequeueAfter] in milliseconds, and an
    error; [None] is a panic.  The controllers run in the middleware that
    delays the requeue of errors that are not from Kubernetes. *)

From S2P Require Import Prelude Errors Json Core K8s Status GatewayClient Resolver State Converter Objects Builder ApiServer Cluster Deployer ClassConfig GatewayClasses Binder K8sSecret GatewayValidator RouteValidator Store Provenance Statuses Manager.

Definition gatewayClassFinalizer : string := "gateway-exists-finalizer.networking.x-k8s.io".
Definition gatewayClassConfigFinalizer : string :=
  "gateway-class-exists-finalizer.api-gateway.consul.hashicorp.com".

Definition result_error {A} (r : result A) : option error :=
  match r with Ok _ => None | Err err => Some err end.

Section controllers.
Context {JT : JsonText} {MF : MultierrorFormat} {MR : MapRange} {NU : NetURL} {SCH : Scheduler}.
Context {D B W : Type} {MA : Marshaler K8sGateway K8sRoute D} {BI : Binders K8sGateway K8sRoute}.
Context {BE : Backend B D} {AD : SyncAdapters W} {AP : ApiServer W} {CR : ClusterReads W} {CL : Clock W}.
Context (statusUpdater : option (StatusUpdaters K8sGateway K8sRoute W)).
Context (resolver : W → BackendResolver) (format_kinds : list RouteGroupKind → string).
Context (controllerName : string) (consulNamespaceMapper : string → string).

Abbreviation outcome := (@manager B W * (Z * option error))%type.

(** The class is a pointer: it is upserted only when [EnsureFinalizer] left it
    alone. *)
Definition GatewayClassReconciler_Reconcile (req : NamespacedName) (m : manager) : outcome :=
  let w := m_world m in
  match GetGatewayClass (reads w) req with
  | Err err => (m, (0, Some err))
  | Ok None => (m_DeleteGatewayClass (nn_Name req) m, (0, None))
  | Ok (Some gc) =>
      if bool_decide (gc_ControllerName gc ≠ controllerName) then (m, (0, None))
      else if bool_decide (is_Some (om_DeletionTimestamp (gc_Meta gc))) then
        match GatewayClassInUse (reads w) gc with
        | Err err => (m, (0, Some err))
        | Ok true => (m, (10000, None))
        | Ok false =>
            let '(w, _, removed) := RemoveFinalizer w (ObjGatewayClass gc) gatewayClassFinalizer in
            (m_set_world w m, (0, result_error removed))
        end
      else
        let '(w, _, updated) := EnsureFinalizer w (ObjGatewayClass gc) gatewayClassFinalizer in
        let m := m_set_world w m in
        match updated with
        | Err err => (m, (0, Some err))
        | Ok true => (m, (0, None))
        | Ok false => let (m, err) := m_UpsertGatewayClass gc m in (m, (0, err))
        end
  end%Z.

(** A listing that fails evicts nothing. *)
Definition evict_classes (gcc : GatewayClassConfig) (m : @manager B W) : manager :=
  match GatewayClassesUsingConfig (reads (m_world m)) gcc with
  | Ok classes => foldl (λ m gc, m_DeleteGatewayClass (om_Name (gc_Meta gc)) m) m classes
  | Err _ => m
  end.

Definition GatewayClassConfigReconciler_Reconcile (req : NamespacedName) (m : manager) : outcome :=
  let w := m_world m in
  match GetGatewayClassConfig (reads w) req with
  | Err err => (m, (0, Some err))
  | Ok None => (m, (0, None))
  | Ok (Some gcc) =>
      if bool_decide (is_Some (om_DeletionTimestamp (gcc_Meta gcc))) then
        match GatewayClassConfigInUse (reads w) gcc with
        | Err err => (m, (0, Some err))
        | Ok true => (m, (10000, None))
        | Ok false =>
            let '(w, _, removed) :=
              RemoveFinalizer w (ObjGatewayClassConfig gcc) gatewayClassConfigFinalizer in
            (m_set_world w m, (0, result_error removed))
        end
      else
        let m := evict_classes gcc m in
        let '(w, _, updated) :=
          EnsureFinalizer w (ObjGatewayClassConfig gcc) gatewayClassConfigFinalizer in
        (m_set_world w m, (0, result_error updated))
  end%Z.

(** What an operation of the manager answers, as a reconciliation. *)
Definition reconciled (r : option (manager * option error)) : option outcome :=
  res ← r;
  let (m, err) := res : manager * option error in
  Some (m, (0%Z, err)).

Definition GatewayReconciler_Reconcile (req : NamespacedName) (m : manager) : option outcome :=
  match GetGateway (reads (m_world m)) req with
  | Err err => Some (m, (0%Z, Some err))
  | Ok None => reconciled (m_DeleteGateway statusUpdater req m)
  | Ok (Some gw) =>
      reconciled (m_UpsertGateway statusUpdater format_kinds controllerName consulNamespaceMapper gw m)
  end.

Definition HTTPRouteReconciler_Reconcile (req : NamespacedName) (m : manager) : option outcome :=
  match GetHTTPRoute (reads (m_world m)) req with
  | Err err => Some (m, (0%Z, Some err))
  | Ok None => reconciled (m_DeleteHTTPRoute statusUpdater req m)
  | Ok (Some route) => reconciled (m_UpsertHTTPRoute statusUpdater resolver controllerName route m)
  end.

Definition TCPRouteReconciler_Reconcile (req : NamespacedName) (m : manager) : option outcome :=
  match GetTCPRoute (reads (m_world m)) req with
  | Err err => Some (m, (0%Z, Some err))
  | Ok None => reconciled (m_DeleteTCPRoute statusUpdater req m)
  | Ok (Some route) => reconciled (m_UpsertTCPRoute statusUpdater resolver controllerName route m)
  end.

(** ** The controllers of the process *)

Inductive controller : Type :=
  | CGatewayClass
  | CGatewayClassConfig
  | CGateway
  | CHTTPRoute
  | CTCPRoute.

Definition Reconcile (c : controller) (req : NamespacedName) (m : manager) : option outcome :=
  match c with
  | CGatewayClass => Some (GatewayClassReconciler_Reconcile req m)
  | CGatewayClassConfig => Some (GatewayClassConfigReconciler_Reconcile req m)
  | CGateway => GatewayReconciler_Reconcile req m
  | CHTTPRoute => HTTPRouteReconciler_Reconcile req m
  | CTCPRoute => TCPRouteReconciler_Reconcile req m
  end.

(** A reconciler in the requeueing middleware. *)
Definition NewRequeueingMiddleware (reconciler : NamespacedName → @manager B W → option outcome)
    (req : NamespacedName) (m : @manager B W) : option outcome :=
  res ← reconciler req m;
  let '(m, (result, err)) := res : outcome in
  Some (m, RescheduleK8sError result err).

End controllers.

(** ** The operator *)

(** The reads of the controllers go through controller-runtime's cache, which
    sets the kind of every object it returns. *)
Class TypedReads (W : Type) `{ClusterReads W} : Prop := {
  http_read_typed : ∀ (w : W) n r, GetHTTPRoute (reads w) n = Ok (Some r) → typed_route (RouteHTTP r);
  tcp_read_typed : ∀ (w : W) n r, GetTCPRoute (reads w) n = Ok (Some r) → typed_route (RouteTCP r)
}.

Section operator.
Context {JT : JsonText} {LJ : LawfulJsonText} {MF : MultierrorFormat} {MR : MapRange} {NU : NetURL}.
Context {SCH : Scheduler} {D W : Type} {MA : Marshaler K8sGateway K8sRoute D} {KO : KeepsOrigin D}.
Context {LS : LabelSelectors} (client : Client) {AD : SyncAdapters W}.
#[local] Instance operator_binders : Binders K8sGateway K8sRoute := k8s_binders client.
#[local] Instance operator_lawful : LawfulBinder K8sGateway K8sRoute := k8s_lawful_binder client.
Context {LM : LawfulMarshaler K8sGateway K8sRoute D}.
Context {AP : ApiServer W} {CR : ClusterReads W} {TR : TypedReads W} {CL : Clock W}.
Context (statusUpdater : option (StatusUpdaters K8sGateway K8sRoute W)).
Context (resolver : W → BackendResolver) (format_kinds : list RouteGroupKind → string).
Context (controllerName : string) (consulNamespaceMapper : string → string).

Abbreviation memory_manager := (@manager (memoryBackend D) W).
Implicit Types (m : memory_manager).

Abbreviation reconcile c :=
  (NewRequeueingMiddleware
     (Reconcile statusUpdater resolver format_kinds controllerName consulNamespaceMapper c)).
Abbreviation step :=
  (manager_step client statusUpdater resolver format_kinds controllerName consulNamespaceMapper).

(** A reconciliation by one of the controllers, a tick of the store's sync
    loop, or a change of the outside world. *)
Inductive operator_step : memory_manager → memory_manager → Prop :=
  | OReconcile c req m m' res :
      reconcile c req m = Some (m', res) → operator_step m m'
  | OSyncAll m s err :
      syncAll statusUpdater (m_store m) = Some (s, err) → operator_step m (m_set_store s m)
  | OWorld w m : operator_step m (m_set_world w m).

Lemma middleware_Some (f : NamespacedName → memory_manager → option (memory_manager * (Z * option error)))
    req m m' res :
  NewRequeueingMiddleware f req m = Some (m', res) →
  ∃ r err, f req m = Some (m', (r, err)) ∧ res = RescheduleK8sError r err.
Proof.
  unfold NewRequeueingMiddleware. destruct (f req m) as [[m1 [r err]]|]; [|done]. simpl.
  intros [= <- <-]. by eexists _, _.
Qed.

Lemma reconciled_Some (r : option (memory_manager * option error)) m' z err :
  reconciled r = Some (m', (z, err)) → r = Some (m', err).
Proof. destruct r as [[m e]|]; [|done]. simpl. by intros [= <- _ <-]. Qed.

(** What the controller of gateway classes does to the manager. *)
Lemma class_reconcile_cases req m m' r err :
  GatewayClassReconciler_Reconcile controllerName req m = (m', (r, err)) →
  (∃ w, m' = m_set_world w m) ∨
  m' = m_DeleteGatewayClass (nn_Name req) m ∨
  ∃ gc, gc_ControllerName gc = controllerName ∧ om_DeletionTimestamp (gc_Meta gc) = None ∧
    gatewayClassFinalizer ∈ om_Finalizers (gc_Meta gc) ∧
    m_UpsertGatewayClass gc m = (m', err).
Proof.
  assert (m_set_world (m_world m) m = m) as Hid by by destruct m as [? ? []].
  assert (∃ w, m = m_set_world w m) as Hsame by by exists (m_world m).
  unfold GatewayClassReconciler_Reconcile.
  destruct (GetGatewayClass _ _) as [[gc|]|e]; [|by intros [= <- _ _]; auto|by intros [= <- _ _]; auto].
  case_bool_decide as Hours; [by intros [= <- _ _]; auto|].
  case_bool_decide as Hdel.
  - destruct (GatewayClassInUse _ _) as [[|]|e]; [by intros [= <- _ _]; auto| |by intros [= <- _ _]; auto].
    destruct (RemoveFinalizer _ _ _) as [[w o] removed]. intros [= <- _ _]. left. by eexists.
  - unfold EnsureFinalizer. simpl. destruct (existsb _ _) eqn:He.
    + rewrite Hid. destruct (m_UpsertGatewayClass gc m) as [m1 e] eqn:Hup. intros [= <- _ <-].
      apply existsb_elem in He as (f & Hf & ->%bool_decide_eq_true).
      right. right. exists gc. split_and!; [done|by apply eq_None_not_Some|done|done].
    + destruct (Update _ _) as [w [e|]]; intros [= <- _ _]; left; by eexists.
Qed.

Lemma evict_names (classes : list GatewayClass) m :
  foldl (λ m gc, m_DeleteGatewayClass (om_Name (gc_Meta gc)) m) m classes
    = foldl (λ m n, m_DeleteGatewayClass n m) m ((om_Name ∘ gc_Meta) <$> classes).
Proof. revert m. induction classes as [|gc classes IH]; intros m; [done|]. apply IH. Qed.

(** What the controller of class configurations does to the manager. *)
Lemma config_reconcile_cases req m m' r err :
  GatewayClassConfigReconciler_Reconcile req m = (m', (r, err)) →
  ∃ w names, m' = m_set_world w (foldl (λ m n, m_DeleteGatewayClass n m) m names).
Proof.
  assert (∃ w names, m = m_set_world w (foldl (λ m n, m_DeleteGatewayClass n m) m names)) as Hsame
    by (exists (m_world m), []; by destruct m as [? ? []]).
  unfold GatewayClassConfigReconciler_Reconcile.
  destruct (GetGatewayClassConfig _ _) as [[gcc|]|e]; [|by intros [= <- _ _]..].
  case_bool_decide.
  - destruct (GatewayClassConfigInUse _ _) as [[|]|e]; [by intros [= <- _ _]| |by intros [= <- _ _]].
    destruct (RemoveFinalizer _ _ _) as [[w o] removed]. intros [= <- _ _]. by exists w, [].
  - destruct (EnsureFinalizer _ _ _) as [[w o] updated]. intros [= <- _ _]. exists w. unfold evict_classes.
    destruct (GatewayClassesUsingConfig _ _) as [classes|]; [|by exists []].
    exists ((om_Name ∘ gc_Meta) <$> classes). by rewrite evict_names.
Qed.

Lemma evict_steps names m : rtc step m (foldl (λ m n, m_DeleteGatewayClass n m) m names).
Proof.
  revert m. induction names as [|n names IH]; intros m; [done|]. simpl.
  eapply rtc_l; [apply MDeleteGatewayClass|apply IH].
Qed.

(** Every reconciliation is a sequence of operations of the manager. *)
Lemma operator_step_manager m m' : operator_step m m' → rtc step m m'.
Proof using TR.
  intros [c req m1 m1' res Hr|m1 s err Hs|w m1]; [|by eapply rtc_once, MSyncAll|by apply rtc_once, MWorld].
  apply middleware_Some in Hr as (r & err & Hr & _).
  destruct c; simpl in Hr.
  - injection Hr as Hr.
    destruct (class_reconcile_cases _ _ _ _ _ Hr) as [[w ->]|[->|(gc & _ & _ & _ & Hup)]]; apply rtc_once.
    + apply MWorld.
    + apply MDeleteGatewayClass.
    + by eapply MUpsertGatewayClass.
  - injection Hr as Hr. destruct (config_reconcile_cases _ _ _ _ _ Hr) as (w & names & ->).
    eapply rtc_r; [apply evict_steps|apply MWorld].
  - unfold GatewayReconciler_Reconcile in Hr.
    destruct (GetGateway _ _) as [[gw|]|e]; [| |by injection Hr as <- _ _];
      apply reconciled_Some in Hr; apply rtc_once; [by eapply MUpsertGateway|by eapply MDeleteGateway].
  - unfold HTTPRouteReconciler_Reconcile in Hr.
    destruct (GetHTTPRoute _ _) as [[route|]|e] eqn:Hget; [| |by injection Hr as <- _ _];
      apply reconciled_Some in Hr; apply rtc_once; [|by eapply MDeleteHTTPRoute].
    eapply MUpsertHTTPRoute; [by eapply http_read_typed|done].
  - unfold TCPRouteReconciler_Reconcile in Hr.
    destruct (GetTCPRoute _ _) as [[route|]|e] eqn:Hget; [| |by injection Hr as <- _ _];
      apply reconciled_Some in Hr; apply rtc_once; [|by eapply MDeleteTCPRoute].
    eapply MUpsertTCPRoute; [by eapply tcp_read_typed|done].
Qed.

(** ** The cached classes *)

(** A class that may be cached: one of this controller, that is not being
    deleted and cannot be deleted without the controller. *)
Definition protected (gc : GatewayClass) : Prop :=
  gc_ControllerName gc = controllerName ∧ om_DeletionTimestamp (gc_Meta gc) = None ∧
  gatewayClassFinalizer ∈ om_Finalizers (gc_Meta gc).

Definition all_protected m : Prop :=
  map_Forall (λ name c, om_Name (gc_Meta (kgc_class c)) = name ∧ protected (kgc_class c)) (m_gatewayClasses m).

Lemma upsert_class_protected gc m m' err :
  protected gc → all_protected m → m_UpsertGatewayClass gc m = (m', err) → all_protected m'.
Proof.
  intros Hgc Hall. unfold m_UpsertGatewayClass.
  destruct (upsert_class _ _ _) as [[w classes] e] eqn:Hup. intros [= <- _]. unfold all_protected. simpl.
  apply upsert_class_cached in Hup as [->|(c & -> & Hmeta & Hctl)]; [done|].
  apply map_Forall_insert_2; [|done]. unfold protected. by rewrite Hmeta, Hctl.
Qed.

Lemma delete_class_protected name m : all_protected m → all_protected (m_DeleteGatewayClass name m).
Proof. apply map_Forall_delete. Qed.

(** The operations on gateways and routes leave the cached classes alone. *)
Lemma on_store_classes (op : option (store * option error)) m m' err :
  on_store op m = Some (m', err) → m_gatewayClasses m' = m_gatewayClasses m.
Proof. by intros (s & _ & ->)%on_store_Some. Qed.

Lemma m_UpsertGateway_classes g m m' err :
  m_UpsertGateway statusUpdater format_kinds controllerName consulNamespaceMapper g m = Some (m', err) →
  m_gatewayClasses m' = m_gatewayClasses m.
Proof.
  unfold m_UpsertGateway. destruct (annotated_config g) as [spec|].
  - destruct (d_Service _ _) as [service|]; [|done]. cbn [mbind option_bind].
    destruct (GatewayValidator_Validate _ _ _ _) as [state|e]; [|by intros [= <- _]].
    by intros ->%on_store_classes.
  - destruct (class_config _ _ m) as [[config|]|e]; [|by intros [= <- _]..].
    destruct (Update _ _) as [w e]. by intros [= <- _].
Qed.

Lemma m_upsertRoute_classes r parents id m m' err :
  m_upsertRoute statusUpdater resolver controllerName r parents id m = Some (m', err) →
  m_gatewayClasses m' = m_gatewayClasses m.
Proof.
  unfold m_upsertRoute. destruct (deleteUnmanagedRoute _ _ _ _ m) as [[m1 res]|] eqn:Hdel; [|done].
  cbn [mbind option_bind].
  assert (m_gatewayClasses m1 = m_gatewayClasses m) as H1.
  { revert Hdel. unfold deleteUnmanagedRoute.
    destruct (if managedByCachedGatewaysForRoute _ _ _ then _ else _) as [[|]|e];
      [by intros [= <- _]| |by intros [= <- _]].
    destruct (on_store _ m) as [[m2 e]|] eqn:Hon; [|done]. cbn [mbind option_bind].
    apply on_store_classes in Hon. by destruct e; intros [= <- _]. }
  destruct res as [[|]|e]; [|by intros [= <- _]..].
  destruct (RouteValidator_Validate _ _) as [state|e]; [|by intros [= <- _]].
  intros Hon%on_store_classes. by rewrite Hon.
Qed.

Lemma m_DeleteGateway_classes n m m' err :
  m_DeleteGateway statusUpdater n m = Some (m', err) → m_gatewayClasses m' = m_gatewayClasses m.
Proof.
  unfold m_DeleteGateway. destruct (on_store _ m) as [[m1 e]|] eqn:Hon; [|done].
  cbn [mbind option_bind]. apply on_store_classes in Hon. by destruct e; intros [= <- _].
Qed.

Lemma same_classes_protected m m' :
  m_gatewayClasses m' = m_gatewayClasses m → all_protected m → all_protected m'.
Proof. unfold all_protected. by intros ->. Qed.

Lemma operator_step_protected m m' : operator_step m m' → all_protected m → all_protected m'.
Proof.
  intros [c req m1 m1' res Hr|m1 s err Hs|w m1] Hall; [|done..].
  apply middleware_Some in Hr as (r & err & Hr & _). destruct c; simpl in Hr.
  - injection Hr as Hr.
    destruct (class_reconcile_cases _ _ _ _ _ Hr) as [[w ->]|[->|(gc & ? & ? & ? & Hup)]]; [done| |].
    + by apply delete_class_protected.
    + by eapply upsert_class_protected.
  - injection Hr as Hr. destruct (config_reconcile_cases _ _ _ _ _ Hr) as (w & names & ->).
    clear Hr. unfold all_protected. simpl. revert m1 Hall.
    induction names as [|n names IH]; intros m1 Hall; [done|]. by apply IH, delete_class_protected.
  - unfold GatewayReconciler_Reconcile in Hr. eapply same_classes_protected; [|done].
    destruct (GetGateway _ _) as [[gw|]|e]; [| |by injection Hr as <- _ _]; apply reconciled_Some in Hr;
      [by eapply m_UpsertGateway_classes|by eapply m_DeleteGateway_classes].
  - unfold HTTPRouteReconciler_Reconcile in Hr. eapply same_classes_protected; [|done].
    destruct (GetHTTPRoute _ _) as [[route|]|e]; [| |by injection Hr as <- _ _]; apply reconciled_Some in Hr;
      [by eapply m_upsertRoute_classes|by eapply on_store_classes].
  - unfold TCPRouteReconciler_Reconcile in Hr. eapply same_classes_protected; [|done].
    destruct (GetTCPRoute _ _) as [[route|]|e]; [| |by injection Hr as <- _ _]; apply reconciled_Some in Hr;
      [by eapply m_upsertRoute_classes|by eapply on_store_classes].
Qed.

Lemma operator_reachable m m' :
  rtc operator_step m m' → all_protected m → all_protected m' ∧ rtc step m m'.
Proof using TR.
  induction 1 as [m|m m1 m2 Hstep _ IH]; intros H0; [done|].
  destruct IH as [Hall Hrtc]; [by eapply operator_step_protected|]. split; [done|].
  etrans; [by apply operator_step_manager|done].
Qed.

(** The invariants of the operator.  In every state that reconciliations
    of the five controllers, ticks of the sync loop and changes of the outside
    world can lead to: every cached gateway class belongs to this controller,
    carries the finalizer that keeps it from being deleted behind the
    controller's back, and was not being deleted when it was cached; and the
    state is one the manager can reach, so its stored gateways are tracked and
    its store is consistent. *)
Theorem operator_invariant (w : W) m :
  rtc operator_step (new_manager w) m →
  (∀ name c, m_gatewayClasses m !! name = Some c →
     om_Name (gc_Meta (kgc_class c)) = name ∧ protected (kgc_class c)) ∧
  rtc step (new_manager w) m ∧ manager_inv client consulNamespaceMapper m.
Proof using LM LJ KO TR.
  intros Hreach.
  destruct (operator_reachable _ _ Hreach) as [Hall Hsteps]; [apply map_Forall_empty|].
  split_and!; [|done|by eapply reachable_manager_inv]. intros name c Hc. by apply Hall in Hc.
Qed.

(** ** Finalizers *)

(** The stored class is held by the finalizer. *)
Definition held (finalizer : string) (o : option Object) : Prop :=
  ∃ obj, o = Some obj ∧ finalizer ∈ om_Finalizers (obj_Meta obj).

Lemma Update_held {LA : LawfulApi W} w w' o err finalizer k :
  Update w o = (w', err) → obj_key o = k → finalizer ∈ om_Finalizers (obj_Meta o) →
  held finalizer (view w !! k) → held finalizer (view w' !! k).
Proof.
  unfold Update. destruct (api_Update w o) as [w1 e] eqn:Hup. intros [= -> _] <- Hin Hheld.
  apply Update_effect in Hup as [[[-> _]|(stored & Had & ->)]|(Hnil & _)]; [done| |].
  - rewrite lookup_insert_eq. exists stored. split; [done|].
    destruct Had as (_ & _ & _ & _ & -> & _). done.
  - rewrite Hnil in Hin. by apply not_elem_of_nil in Hin.
Qed.

Lemma EnsureFinalizer_held {LA : LawfulApi W} w w' o o' r finalizer :
  EnsureFinalizer w o finalizer = (w', o', r) →
  held finalizer (view w !! obj_key o) → held finalizer (view w' !! obj_key o).
Proof.
  unfold EnsureFinalizer. destruct (existsb _ _); [by intros [= <- _ _]|].
  destruct (Update _ _) as [w1 err] eqn:Hup. intros Heq Hheld.
  assert (w' = w1) as -> by (destruct err; by injection Heq).
  eapply Update_held; [exact Hup|apply obj_key_set_Finalizers| |done].
  rewrite obj_Meta_set. simpl. rewrite elem_of_app. right. by left.
Qed.

Lemma SyncStatus_held {LA : LawfulApi W} w c w' c' err finalizer k :
  kgc_SyncStatus w c = (w', c', err) → held finalizer (view w !! k) → held finalizer (view w' !! k).
Proof.
  unfold kgc_SyncStatus. destruct (negb _); [|by intros [= <- _ _]]. unfold UpdateStatus.
  destruct (api_UpdateStatus _ _) as [w1 e] eqn:Hup. intros Heq.
  assert (w' = w1) as -> by (destruct e; by injection Heq).
  apply UpdateStatus_effect in Hup as [Hother Hsame]. set (obj := ObjGatewayClass _) in *.
  destruct (decide (k = obj_key obj)) as [->|Hne]; [|by rewrite Hother].
  intros (o & Ho & Hin). rewrite Ho in Hsame. destruct (view w1 !! obj_key obj) as [o1|] eqn:Ho1; [|done].
  injection Hsame as Hf. exists o1. by rewrite Hf.
Qed.

Lemma upsert_class_held {LA : LawfulApi W} gc m m' err finalizer k :
  m_UpsertGatewayClass gc m = (m', err) →
  held finalizer (view (m_world m) !! k) → held finalizer (view (m_world m') !! k).
Proof.
  unfold m_UpsertGatewayClass. destruct (upsert_class _ _ _) as [[w classes] e] eqn:Hup.
  intros [= <- _]. change (m_world (m_set_world w _)) with w. revert Hup. unfold upsert_class.
  destruct (kgc_Validate _ _) as [c|]; [|by intros [= <- _ _]]. unfold classes_Upsert.
  destruct (match _ !! _ with Some current => _ | None => false end); [by intros [= <- _ _]|].
  destruct (kgc_SyncStatus _ c) as [[w1 c1] e1] eqn:Hs. intros [= <- _ _]. by eapply SyncStatus_held.
Qed.

Lemma RemoveFinalizer_released {LA : LawfulApi W} w w' o o' b finalizer :
  RemoveFinalizer w o finalizer = (w', o', Ok b) → finalizer ∈ om_Finalizers (obj_Meta o) →
  ¬ held finalizer (view w' !! obj_key o).
Proof.
  unfold RemoveFinalizer. intros Heq Hin.
  assert (existsb (λ f, bool_decide (f = finalizer)) (om_Finalizers (obj_Meta o)) = true) as He.
  { apply existsb_elem. exists finalizer. by rewrite bool_decide_true. }
  rewrite He in Heq. set (o1 := obj_set_Meta _ o) in *. unfold Update in Heq.
  destruct (api_Update w o1) as [w1 [e|]] eqn:Hup; [done|]. injection Heq as <- _ _.
  rewrite <-(obj_key_set_Finalizers (List.filter (λ f, negb (bool_decide (f = finalizer)))
    (om_Finalizers (obj_Meta o))) o). fold o1.
  apply Update_effect in Hup as [[[_ Hf]|(stored & Had & ->)]|(_ & _ & ->)];
    [by rewrite bool_decide_true in Hf| |rewrite lookup_delete_eq; by intros (? & ? & _)].
  rewrite lookup_insert_eq. intros (o2 & [= <-] & Hf). destruct Had as (_ & _ & _ & _ & Hfin & _).
  rewrite Hfin in Hf. unfold o1 in Hf. rewrite obj_Meta_set in Hf. simpl in Hf.
  rewrite list_elem_of_In, filter_In in Hf. destruct Hf as [_ Hf]. by case_bool_decide.
Qed.

(** The class, or the configuration, is not used by any listed object. *)
Definition class_unused (w : W) (gc : GatewayClass) : Prop :=
  ∃ gateways, rc_ListGateways (reads w) = Ok gateways ∧
    ∀ g, g ∈ gateways → gw_GatewayClassName g ≠ om_Name (gc_Meta gc).

Definition config_unused (w : W) (gcc : GatewayClassConfig) : Prop :=
  ∃ classes, rc_ListGatewayClasses (reads w) = Ok classes ∧
    ∀ gc, gc ∈ classes → gatewayClassUsesConfig gc gcc = false.

Lemma GatewayClassInUse_false w gc : GatewayClassInUse (reads w) gc = Ok false ↔ class_unused w gc.
Proof.
  unfold GatewayClassInUse, class_unused.
  destruct (rc_ListGateways (reads w)) as [gws|e]; simpl; [|by split; [|intros (? & ? & _)]].
  split.
  - intros [= Hno]. exists gws. split; [done|]. intros g Hg Hname. apply not_true_iff_false in Hno.
    apply Hno, existsb_elem. exists g. by rewrite bool_decide_true.
  - intros (gws' & [= <-] & Hno). f_equal. apply not_true_iff_false. rewrite existsb_elem.
    intros (g & Hg & Hname%bool_decide_eq_true). by apply (Hno g).
Qed.

Lemma GatewayClassConfigInUse_false w gcc :
  GatewayClassConfigInUse (reads w) gcc = Ok false ↔ config_unused w gcc.
Proof.
  unfold GatewayClassConfigInUse, config_unused.
  destruct (rc_ListGatewayClasses (reads w)) as [gcs|e]; simpl; [|by split; [|intros (? & ? & _)]].
  split.
  - intros [= Hno]. exists gcs. split; [done|]. intros g Hg. apply not_true_iff_false. intros Huse.
    apply not_true_iff_false in Hno. apply Hno, existsb_elem. by exists g.
  - intros (gcs' & [= <-] & Hno). f_equal. apply not_true_iff_false. rewrite existsb_elem.
    intros (g & Hg & Huse). by rewrite (Hno g Hg) in Huse.
Qed.

(** A reconciliation from [w] to [w'] takes the finalizer off the object
    stored at [k] only if the object is deletable, and then does so unless it
    fails. *)
Definition released_iff {LA : LawfulApi W} (finalizer : string) (k : ObjectKey) (w' : W)
    (err : option error) (deletable : Prop) : Prop :=
  (¬ held finalizer (view w' !! k) → deletable) ∧
  (err = None → deletable → ¬ held finalizer (view w' !! k)).

Lemma still_held {LA : LawfulApi W} finalizer k w' err deletable :
  held finalizer (view w' !! k) → ¬ deletable → released_iff finalizer k w' err deletable.
Proof. intros Hheld Hnot. split; [by intros []|by intros _ ?%Hnot]. Qed.

Lemma now_released {LA : LawfulApi W} finalizer o w w' o' removed deletable :
  RemoveFinalizer w o finalizer = (w', o', removed) → finalizer ∈ om_Finalizers (obj_Meta o) →
  deletable → released_iff finalizer (obj_key o) w' (result_error removed) deletable.
Proof.
  intros Hrm Hin Hd. split; [done|]. intros Hok _. destruct removed as [b|]; [|done].
  by eapply RemoveFinalizer_released.
Qed.

Lemma class_released {LA : LawfulApi W} req m gc m' r err :
  GetGatewayClass (reads (m_world m)) req = Ok (Some gc) → gc_ControllerName gc = controllerName →
  view (m_world m) !! obj_key (ObjGatewayClass gc) = Some (ObjGatewayClass gc) →
  gatewayClassFinalizer ∈ om_Finalizers (gc_Meta gc) →
  GatewayClassReconciler_Reconcile controllerName req m = (m', (r, err)) →
  released_iff gatewayClassFinalizer (obj_key (ObjGatewayClass gc)) (m_world m') err
    (is_Some (om_DeletionTimestamp (gc_Meta gc)) ∧ class_unused (m_world m) gc).
Proof.
  intros Hget Hctl Hview Hfin. set (k := obj_key _).
  assert (held gatewayClassFinalizer (view (m_world m) !! k)) as Hheld by by exists (ObjGatewayClass gc).
  unfold GatewayClassReconciler_Reconcile. rewrite Hget, bool_decide_false by (intros Hne; by apply Hne).
  case_bool_decide as Hdel.
  - pose proof (GatewayClassInUse_false (m_world m) gc) as Huse.
    destruct (GatewayClassInUse _ gc) as [[|]|e].
    + intros [= <- _ <-]. apply still_held; [done|]. by intros [_ ?%Huse].
    + destruct (RemoveFinalizer _ _ _) as [[w o] removed] eqn:Hrm. intros [= <- _ <-].
      eapply (now_released _ (ObjGatewayClass gc)); [done..|]. by split; [|apply Huse].
    + intros [= <- _ <-]. apply still_held; [done|]. by intros [_ ?%Huse].
  - destruct (EnsureFinalizer _ _ _) as [[w o] updated] eqn:Hen. apply EnsureFinalizer_held in Hen; [|done].
    intros Hrec. apply still_held; [|by intros []].
    destruct updated as [[|]|e]; [by injection Hrec as <- _ _| |by injection Hrec as <- _ _].
    destruct (m_UpsertGatewayClass gc _) as [m1 e] eqn:Hup. injection Hrec as <- _ _.
    by eapply upsert_class_held.
Qed.

Lemma config_released {LA : LawfulApi W} req m gcc m' r err :
  GetGatewayClassConfig (reads (m_world m)) req = Ok (Some gcc) →
  view (m_world m) !! obj_key (ObjGatewayClassConfig gcc) = Some (ObjGatewayClassConfig gcc) →
  gatewayClassConfigFinalizer ∈ om_Finalizers (gcc_Meta gcc) →
  GatewayClassConfigReconciler_Reconcile req m = (m', (r, err)) →
  released_iff gatewayClassConfigFinalizer (obj_key (ObjGatewayClassConfig gcc)) (m_world m') err
    (is_Some (om_DeletionTimestamp (gcc_Meta gcc)) ∧ config_unused (m_world m) gcc).
Proof.
  intros Hget Hview Hfin. set (k := obj_key _).
  assert (held gatewayClassConfigFinalizer (view (m_world m) !! k)) as Hheld
    by by exists (ObjGatewayClassConfig gcc).
  unfold GatewayClassConfigReconciler_Reconcile. rewrite Hget. case_bool_decide as Hdel.
  - pose proof (GatewayClassConfigInUse_false (m_world m) gcc) as Huse.
    destruct (GatewayClassConfigInUse _ gcc) as [[|]|e].
    + intros [= <- _ <-]. apply still_held; [done|]. by intros [_ ?%Huse].
    + destruct (RemoveFinalizer _ _ _) as [[w o] removed] eqn:Hrm. intros [= <- _ <-].
      eapply (now_released _ (ObjGatewayClassConfig gcc)); [done..|]. by split; [|apply Huse].
    + intros [= <- _ <-]. apply still_held; [done|]. by intros [_ ?%Huse].
  - destruct (EnsureFinalizer _ _ _) as [[w o] updated] eqn:Hen. apply EnsureFinalizer_held in Hen; [|done].
    intros [= <- _ <-]. apply still_held; [done|by intros []].
Qed.

(** C15: finalizers are released exactly when nothing uses the object.  When a
    gateway class of this controller, stored with the finalizer, is reconciled,
    the stored class loses the finalizer only if it was marked for deletion and
    no gateway of the cluster names it; and it does lose it then, unless an
    error is reported.  The same holds of a class configuration and the classes
    that refer to it. *)
Theorem finalizers_guard_deletion {LA : LawfulApi W} (req : NamespacedName) m :
  (∀ gc m' r err,
     GetGatewayClass (reads (m_world m)) req = Ok (Some gc) → gc_ControllerName gc = controllerName →
     view (m_world m) !! obj_key (ObjGatewayClass gc) = Some (ObjGatewayClass gc) →
     gatewayClassFinalizer ∈ om_Finalizers (gc_Meta gc) →
     GatewayClassReconciler_Reconcile controllerName req m = (m', (r, err)) →
     released_iff gatewayClassFinalizer (obj_key (ObjGatewayClass gc)) (m_world m') err
       (is_Some (om_DeletionTimestamp (gc_Meta gc)) ∧ class_unused (m_world m) gc)) ∧
  (∀ gcc m' r err,
     GetGatewayClassConfig (reads (m_world m)) req = Ok (Some gcc) →
     view (m_world m) !! obj_key (ObjGatewayClassConfig gcc) = Some (ObjGatewayClassConfig gcc) →
     gatewayClassConfigFinalizer ∈ om_Finalizers (gcc_Meta gcc) →
     GatewayClassConfigReconciler_Reconcile req m = (m', (r, err)) →
     released_iff gatewayClassConfigFinalizer (obj_key (ObjGatewayClassConfig gcc)) (m_world m') err
       (is_Some (om_DeletionTimestamp (gcc_Meta gcc)) ∧ config_unused (m_world m) gcc)).
Proof.
  split.
  - intros gc m' r err. apply class_released.
  - intros gcc m' r err. apply config_released.
Qed.

(** ** Changed configurations *)

(** Evicting classes: the named ones are gone, the others stay. *)
Lemma evicted names m name :
  m_gatewayClasses (foldl (λ m n, m_DeleteGatewayClass n m) m names) !! name
    = if bool_decide (name ∈ names) then None else m_gatewayClasses m !! name.
Proof.
  revert m. induction names as [|n names IH]; intros m; [done|]. simpl. rewrite IH. simpl.
  unfold classes_Delete. destruct (decide (name = n)) as [->|Hne].
  - rewrite lookup_delete_eq, (bool_decide_true (n ∈ n :: names)) by by left. by case_bool_decide.
  - rewrite lookup_delete_ne by done.
    by rewrite (bool_decide_ext (name ∈ n :: names) (name ∈ names)) by (rewrite elem_of_cons; split; [by intros [?|?]|by right]).
Qed.

(** A changed configuration takes effect.  After a class configuration that
    is not being deleted was reconciled, the manager answers for every class
    that refers to it, and is in the cluster, with the configuration the
    cluster then holds, not with the one it had cached; classes that do not
    refer to it stay cached. *)
Theorem config_change_takes_effect (req : NamespacedName) m m' r err gcc classes :
  GetGatewayClassConfig (reads (m_world m)) req = Ok (Some gcc) →
  om_DeletionTimestamp (gcc_Meta gcc) = None →
  rc_ListGatewayClasses (reads (m_world m)) = Ok classes →
  GatewayClassConfigReconciler_Reconcile req m = (m', (r, err)) →
  (∀ gc, gc ∈ classes → gatewayClassUsesConfig gc gcc = true → gc_ControllerName gc = controllerName →
     rc_GatewayClass (reads (m_world m')) (mkNamespacedName "" (om_Name (gc_Meta gc))) = Found gc →
     class_config controllerName (om_Name (gc_Meta gc)) m'
       = match GetGatewayClassConfig (reads (m_world m')) (mkNamespacedName "" (om_Name (gcc_Meta gcc))) with
         | Ok config => Ok config
         | Err e => Err (ErrK8s e)
         end) ∧
  (∀ name, (∀ gc, gc ∈ classes → gatewayClassUsesConfig gc gcc = true → om_Name (gc_Meta gc) ≠ name) →
     m_gatewayClasses m' !! name = m_gatewayClasses m !! name).
Proof.
  intros Hget Hdel Hlist. unfold GatewayClassConfigReconciler_Reconcile.
  rewrite Hget, Hdel, bool_decide_false by by intros [? ?].
  destruct (EnsureFinalizer _ _ _) as [[w o] updated]. intros [= <- _ _].
  unfold evict_classes, GatewayClassesUsingConfig. rewrite Hlist. simpl.
  rewrite (evict_names (List.filter _ classes) m). set (names := _ <$> _).
  assert (∀ name, name ∈ names ↔ ∃ gc, gc ∈ classes ∧ gatewayClassUsesConfig gc gcc = true ∧
    om_Name (gc_Meta gc) = name) as Hnames.
  { intros name. unfold names. rewrite list_elem_of_fmap. setoid_rewrite list_elem_of_In.
    setoid_rewrite filter_In. split.
    - intros (gc & -> & Hgc & Huse). by exists gc.
    - intros (gc & Hgc & Huse & <-). by exists gc. }
  split.
  - intros gc Hgc Huse Hctl Hfound. unfold class_config, GetConfig.
    change (m_gatewayClasses (m_set_world w ?m)) with (m_gatewayClasses m).
    change (m_world (m_set_world w ?m)) with w in *.
    rewrite evicted, bool_decide_true by (apply Hnames; eauto).
    unfold GetConfigForGatewayClassName, GetGatewayClass. rewrite Hfound. simpl.
    rewrite bool_decide_false by (intros Hne; by apply Hne).
    unfold gatewayClassUsesConfig in Huse. destruct (gc_ParametersRef gc) as [ref|]; [|done].
    rewrite !andb_true_iff, !bool_decide_eq_true in Huse. destruct Huse as [[Hg Hk] Hn].
    rewrite (bool_decide_false (prm_Group ref ≠ _)) by (intros Hne; by apply Hne).
    rewrite (bool_decide_false (prm_Kind ref ≠ _)) by (intros Hne; by apply Hne). simpl. rewrite Hn.
    destruct (GetGatewayClassConfig (reads w) _) as [[found|]|e]; reflexivity.
  - intros name Hother. simpl. rewrite evicted, bool_decide_false; [done|].
    rewrite Hnames. intros (gc & Hgc & Huse & Hn). by apply (Hother gc).
Qed.

End operator.

(** ** Examples *)

Module ControllerExamples.

Import StoreExamples ManagerExamples.

(** The reads of a cluster are its stored objects. *)
Definition stored (c : cluster) : list Object := (map_to_list (objects c)).*2.

Definition get {A} (as_kind : Object → option A) (c : cluster) (kind : Kind) (n : NamespacedName) :
    get_result A :=
  match objects c !! (kind, n) ≫= as_kind with Some a => Found a | None => NotFound end.

Definition as_class (o : Object) := if o is ObjGatewayClass o then Some o else None.
Definition as_config (o : Object) := if o is ObjGatewayClassConfig o then Some o else None.
Definition as_gateway (o : Object) := if o is ObjGateway o then Some o else None.

Definition reading (c : cluster) : RuntimeClient := {|
  rc_GatewayClassConfig := get as_config c KGatewayClassConfig;
  rc_GatewayClass := get as_class c KGatewayClass;
  rc_Gateway := get as_gateway c KGateway;
  rc_Secret _ := NotFound;
  rc_Service _ := NotFound;
  rc_HTTPRoute _ := NotFound;
  rc_TCPRoute _ := NotFound;
  rc_MeshService _ := NotFound;
  rc_Namespace _ := NotFound;
  rc_Deployment _ := NotFound;
  rc_ListGatewayClasses := Ok (omap as_class (stored c));
  rc_ListGateways := Ok (omap as_gateway (stored c));
  rc_ListPods _ := Ok [];
  rc_ListDeployments _ := Ok [];
  rc_ListReferenceGrants _ := Ok [];
  rc_ListReferencePolicies _ := Ok [];
  rc_ListGatewaysIn _ := Ok [];
  rc_ListHTTPRoutes := Ok [];
  rc_ListHTTPRoutesIn _ := Ok [];
  rc_ListTCPRoutes := Ok [];
  rc_ListTCPRoutesIn _ := Ok []
|}.

#[export] Instance stored_reads : ClusterReads cluster := {| reads := reading |}.

Definition class_of (finalizers : list string) (deleted : option Z) : GatewayClass :=
  mkGatewayClass (mkObjectMeta "class" "" "uid" 1 "5" 0 ∅ ∅ [] finalizers deleted) "controller"
    (Some (mkParametersReference APIGroup GatewayClassConfigKind "config")) [].

Definition config_of (finalizers : list string) (deleted : option Z) (logLevel : string) : GatewayClassConfig :=
  mkGatewayClassConfig (mkObjectMeta "config" "" "uid" 1 "6" 0 ∅ ∅ [] finalizers deleted)
    (mkGatewayClassConfigSpec None ∅ [] false
      (mkConsulSpec (mkAuthSpec false "" "" "" "") "" "" "" "" (mkPortSpec 0 0))
      (mkImageSpec "" "") None logLevel (mkDeploymentSpec None None None) None).

Definition cluster_with (os : list Object) : cluster := foldl put_object empty_cluster os.

Definition req_class : NamespacedName := mkNamespacedName "" "class".
(** No route is ever found. *)
#[export] Instance no_routes_typed : TypedReads cluster.
Proof. by split. Qed.

Definition req_config : NamespacedName := mkNamespacedName "" "config".

Definition start_with (os : list Object) : example_manager := new_manager (cluster_with os).

Definition run (c : controller) (req : NamespacedName) (m : example_manager) :
    option (example_manager * (Z * option error)) :=
  NewRequeueingMiddleware (Reconcile None echo kinds "controller" to_default c) req m.

Abbreviation step := (operator_step BinderExamples.bare_client None echo kinds "controller" to_default).

Definition done_with (r : option (example_manager * (Z * option error))) (ok : example_manager → bool) : bool :=
  match r with Some (m, (_, None)) => ok m | _ => false end.

Lemma done_with_Some r ok :
  done_with r ok = true → ∃ m z, r = Some (m, (z, None)) ∧ ok m = true.
Proof. destruct r as [[m [z [e|]]]|]; intros H; [discriminate H|by exists m, z|discriminate H]. Qed.

Definition initial : example_manager :=
  start_with [ObjGatewayClass (class_of [] None); ObjGatewayClassConfig (config_of [] None "info")].

Definition caches (name : string) (m : example_manager) : bool :=
  bool_decide (is_Some (m_gatewayClasses m !! name)).

(** The class is given its finalizer, and then cached. *)
Lemma class_reconciled :
  ∃ m, rtc step initial m ∧ caches "class" m = true.
Proof.
  destruct (done_with_Some (run CGatewayClass req_class initial)
    (λ m, done_with (run CGatewayClass req_class m) (caches "class"))) as (m1 & z1 & H1 & Hok);
    [vm_compute; reflexivity|].
  destruct (done_with_Some _ _ Hok) as (m2 & z2 & H2 & Hc). exists m2. split; [|exact Hc].
  eapply rtc_l; [by eapply OReconcile|]. eapply rtc_l; [by eapply OReconcile|apply rtc_refl].
Qed.

End ControllerExamples.

Import (hints) StoreExamples.
Import (hints) ManagerExamples.
Import (hints) ControllerExamples.

Lemma operator_invariant_witness :
  ∃ m : ManagerExamples.example_manager, ∃ c,
    m_gatewayClasses m !! "class" = Some c ∧ protected "controller" (kgc_class c).
Proof.
  destruct ControllerExamples.class_reconciled as (m & Hreach & Hc).
  apply bool_decide_eq_true in Hc as [c Hc]. exists m, c. split; [exact Hc|].
  destruct (operator_invariant BinderExamples.bare_client _ _ _ _ _ _ _ Hreach) as [Hall _].
  apply (Hall "class" c Hc).
Defined.

Module FinalizerExamples.

Import StoreExamples ManagerExamples ControllerExamples.

(** A class and a configuration that nothing uses, marked for deletion. *)
Definition class : GatewayClass := class_of [gatewayClassFinalizer] (Some 7%Z).
Definition config : GatewayClassConfig := config_of [gatewayClassConfigFinalizer] (Some 7%Z) "info".

Definition deleting : example_manager := start_with [ObjGatewayClass class; ObjGatewayClassConfig config].
Definition unreferenced : example_manager := start_with [ObjGatewayClassConfig config].

Lemma class_stored :
  GetGatewayClass (reads (m_world deleting)) req_class = Ok (Some class) ∧
  view (m_world deleting) !! obj_key (ObjGatewayClass class) = Some (ObjGatewayClass class).
Proof. split; vm_compute; reflexivity. Qed.

Lemma config_stored :
  GetGatewayClassConfig (reads (m_world unreferenced)) req_config = Ok (Some config) ∧
  view (m_world unreferenced) !! obj_key (ObjGatewayClassConfig config)
    = Some (ObjGatewayClassConfig config).
Proof. split; vm_compute; reflexivity. Qed.

Definition class_done : example_manager * (Z * option error) :=
  GatewayClassReconciler_Reconcile "controller" req_class deleting.
Definition config_done : example_manager * (Z * option error) :=
  GatewayClassConfigReconciler_Reconcile req_config unreferenced.

Lemma no_errors : class_done.2.2 = None ∧ config_done.2.2 = None.
Proof. split; vm_compute; reflexivity. Qed.

Lemma unused :
  class_unused (m_world deleting) class ∧ config_unused (m_world unreferenced) config.
Proof.
  split.
  - exists []. split; [vm_compute; reflexivity|]. by intros g ?%not_elem_of_nil.
  - exists []. split; [vm_compute; reflexivity|]. by intros g ?%not_elem_of_nil.
Qed.

(** A configuration that changed after its class was cached. *)
Definition stale : example_manager :=
  let m := start_with [ObjGatewayClass (class_of [gatewayClassFinalizer] None);
                       ObjGatewayClassConfig (config_of [gatewayClassConfigFinalizer] None "info")] in
  let m := (m_UpsertGatewayClass (class_of [gatewayClassFinalizer] None) m).1 in
  m_set_world (put_object (m_world m)
    (ObjGatewayClassConfig (config_of [gatewayClassConfigFinalizer] None "debug"))) m.

Definition changed : GatewayClassConfig := config_of [gatewayClassConfigFinalizer] None "debug".

Definition config_reconciled : example_manager * (Z * option error) :=
  GatewayClassConfigReconciler_Reconcile req_config stale.

Definition the_class : GatewayClass :=
  match rc_GatewayClass (reads (m_world stale)) req_class with Found gc => gc | _ => class end.

Lemma changed_read : GetGatewayClassConfig (reads (m_world stale)) req_config = Ok (Some changed).
Proof. vm_compute. reflexivity. Qed.

Lemma class_listed : rc_ListGatewayClasses (reads (m_world stale)) = Ok [the_class].
Proof. vm_compute. reflexivity. Qed.

End FinalizerExamples.

Lemma finalizers_guard_deletion_witness :
  ¬ held gatewayClassFinalizer (view (m_world FinalizerExamples.class_done.1)
      !! obj_key (ObjGatewayClass FinalizerExamples.class)) ∧
  ¬ held gatewayClassConfigFinalizer (view (m_world FinalizerExamples.config_done.1)
      !! obj_key (ObjGatewayClassConfig FinalizerExamples.config)).
Proof.
  destruct FinalizerExamples.no_errors as [He1 He2].
  destruct FinalizerExamples.unused as [Hu1 Hu2].
  split.
  - destruct FinalizerExamples.class_stored as [Hg Hv].
    destruct (FinalizerExamples.class_done) as [m' [r err]] eqn:Hrun. simpl in He1.
    destruct (finalizers_guard_deletion "controller" ControllerExamples.req_class
      FinalizerExamples.deleting) as [Hclass _].
    destruct (Hclass _ m' r err Hg eq_refl Hv ltac:(by left) Hrun) as [_ Hrel].
    apply (Hrel He1). split; [by eexists|exact Hu1].
  - destruct FinalizerExamples.config_stored as [Hg Hv].
    destruct (FinalizerExamples.config_done) as [m' [r err]] eqn:Hrun. simpl in He2.
    destruct (finalizers_guard_deletion "controller" ControllerExamples.req_config
      FinalizerExamples.unreferenced) as [_ Hconfig].
    destruct (Hconfig _ m' r err Hg Hv ltac:(by left) Hrun) as [_ Hrel].
    apply (Hrel He2). split; [by eexists|exact Hu2].
Defined.

Lemma config_change_takes_effect_witness :
  class_config "controller" "class" FinalizerExamples.stale
    = Ok (Some (ControllerExamples.config_of [gatewayClassConfigFinalizer] None "info")) ∧
  class_config "controller" "class" FinalizerExamples.config_reconciled.1
    = Ok (Some FinalizerExamples.changed).
Proof.
  split; [vm_compute; reflexivity|].
  destruct FinalizerExamples.config_reconciled as [m' [r err]] eqn:Hrun.
  destruct (config_change_takes_effect "controller" ControllerExamples.req_config
    FinalizerExamples.stale m' r err FinalizerExamples.changed [FinalizerExamples.the_class]
    FinalizerExamples.changed_read eq_refl FinalizerExamples.class_listed Hrun) as [H _].
  assert (m' = FinalizerExamples.config_reconciled.1) as -> by by rewrite Hrun.
  etransitivity; [apply (H FinalizerExamples.the_class)|vm_compute; reflexivity].
  - by left.
  - vm_compute. reflexivity.
  - vm_compute. reflexivity.
  - vm_compute. reflexivity.
Defined.
