(* ===== verification/Watches.v ===== *)
(** * The watches of the controllers ([internal/k8s/controllers], [SetupWithManager])

    Each controller tells controller-runtime which kinds of objects it watches
    and how an event of such an object becomes requests: for the object itself
    ([For]), for the gateway that controls it ([Owns]) or by a map function
    ([Watches]), in one case behind a predicate on labels.  The set-ups are
    tables of watches here, and [watch_requests] is what they enqueue for an
    event.  The handlers of [For] and [Owns] and the predicate are
    controller-runtime's: parameters with their documented behaviour
    ([ControllerBuilder], [LawfulBuilder]).

    What matters is completeness, for gateways as [Events] has it for routes:
    which changes of the cluster enqueue the gateways whose validation they
    change, and which do not. *)

From S2P Require Import Prelude Errors Json Core K8s Status GatewayClient Resolver State Converter Objects Builder Cluster Binder K8sSecret GatewayValidator RouteValidator Events Controllers.

(** ** Watched objects and events *)

Inductive WatchKind : Type :=
  | WKGateway | WKGatewayClass | WKGatewayClassConfig | WKHTTPRoute | WKTCPRoute
  | WKDeployment | WKService | WKServiceAccount | WKSecret | WKPod
  | WKReferenceGrant | WKReferencePolicy | WKMeshService.

#[export] Instance WatchKind_eq_dec : EqDecision WatchKind.
Proof. solve_decision. Defined.

(** An object as the watches see it: its kind and metadata; a reference grant
    or policy with its specification. *)
Record WatchedObject : Type := mkWatchedObject {
  wo_kind : WatchKind;
  wo_Meta : ObjectMeta;
  wo_grant : ReferenceGrant
}.

(** Of an update both versions are known. *)
Inductive WatchEvent : Type :=
  | Created (o : WatchedObject)
  | Updated (old new : WatchedObject)
  | Deleted (o : WatchedObject).

Definition event_objects (ev : WatchEvent) : list WatchedObject :=
  match ev with
  | Created o | Deleted o => [o]
  | Updated old new => [old; new]
  end.
(** What a predicate on an object looks at. *)
Definition event_subject (ev : WatchEvent) : WatchedObject :=
  match ev with
  | Created o | Deleted o => o
  | Updated _ new => new
  end.

(** ** controller-runtime *)

(** [EnqueueRequestForOwner] for the controlling gateway, and
    [LabelSelectorPredicate] for a set of labels. *)
Class ControllerBuilder : Type := {
  request_for_gateway : ObjectMeta → list NamespacedName;
  label_predicate : gmap string string → ObjectMeta → bool
}.

Definition controlled_by (gateway : Gateway) (m : ObjectMeta) : Prop :=
  mkOwnerReference (om_UID (gw_Meta gateway)) (om_Name (gw_Meta gateway)) true ∈ om_OwnerReferences m.

#[export] Instance controlled_by_dec gateway m : Decision (controlled_by gateway m).
Proof. unfold controlled_by. apply _. Defined.

(** The owner is looked for in the namespace of the object, among the
    references marked as controller. *)
Class LawfulBuilder `{ControllerBuilder} : Prop := {
  request_for_controller gateway m :
    controlled_by gateway m → om_Namespace m = om_Namespace (gw_Meta gateway) →
    gateway_NamespacedName gateway ∈ request_for_gateway m;
  request_only_for_controller m :
    existsb or_Controller (om_OwnerReferences m) = false → request_for_gateway m = [];
  label_predicate_subset labels m :
    label_predicate labels m = true ↔ labels ⊆ om_Labels m
}.

(** ** The set-ups *)

Record controller_watch : Type := mkWatch {
  w_kind : WatchKind;
  w_handler : WatchedObject → list NamespacedName;
  w_predicate : ObjectMeta → bool
}.

Section setup.
Context {CB : ControllerBuilder} (rc : RuntimeClient).

Definition For (kind : WatchKind) : controller_watch :=
  mkWatch kind (λ o, [om_key (wo_Meta o)]) (λ _, true).
Definition Owns (kind : WatchKind) : controller_watch :=
  mkWatch kind (λ o, request_for_gateway (wo_Meta o)) (λ _, true).
Definition Watches (kind : WatchKind) (handler : WatchedObject → list NamespacedName) : controller_watch :=
  mkWatch kind handler (λ _, true).

Definition referenceGrantToGatewayRequests (o : WatchedObject) : list NamespacedName :=
  getRequestsFromReferenceGrant rc (wo_grant o).
Definition referencePolicyToGatewayRequests (o : WatchedObject) : list NamespacedName :=
  getRequestsFromReferenceGrant rc (wo_grant o).

Definition GatewayReconciler_SetupWithManager : list controller_watch :=
  let predicate := label_predicate {[ManagedLabel := "true"]} in
  [For WKGateway;
   Owns WKDeployment;
   Owns WKService;
   Owns WKServiceAccount;
   Owns WKSecret;
   mkWatch WKPod (λ o, podToGatewayRequest (wo_Meta o)) predicate;
   Watches WKReferenceGrant referenceGrantToGatewayRequests;
   Watches WKReferencePolicy referencePolicyToGatewayRequests].

Definition http_referenceGrantToRouteRequests (o : WatchedObject) : list NamespacedName :=
  http_getRouteRequestsFromReferenceGrant rc (wo_grant o).
Definition http_referencePolicyToRouteRequests (o : WatchedObject) : list NamespacedName :=
  http_getRouteRequestsFromReferenceGrant rc (wo_grant o).

(** The map functions of the services look at the name only. *)
Definition service_of (o : WatchedObject) : Service :=
  mkService (wo_Meta o) "" "" ∅ [] [].

Definition HTTPRouteReconciler_SetupWithManager : list controller_watch :=
  [For WKHTTPRoute;
   Watches WKReferenceGrant http_referenceGrantToRouteRequests;
   Watches WKReferencePolicy http_referencePolicyToRouteRequests;
   Watches WKService (λ o, http_serviceToRouteRequests rc (service_of o))].

Definition tcp_referenceGrantToRouteRequests (o : WatchedObject) : list NamespacedName :=
  tcp_getRouteRequestsFromReferenceGrant rc (wo_grant o).
Definition tcp_referencePolicyToRouteRequests (o : WatchedObject) : list NamespacedName :=
  tcp_getRouteRequestsFromReferenceGrant rc (wo_grant o).

Definition TCPRouteReconciler_SetupWithManager : list controller_watch :=
  [For WKTCPRoute;
   Watches WKReferenceGrant tcp_referenceGrantToRouteRequests;
   Watches WKReferencePolicy tcp_referencePolicyToRouteRequests;
   Watches WKService (λ o, tcp_serviceToRouteRequests rc (service_of o))].

Definition GatewayClassReconciler_SetupWithManager : list controller_watch := [For WKGatewayClass].
Definition GatewayClassConfigReconciler_SetupWithManager : list controller_watch := [For WKGatewayClassConfig].

Definition SetupWithManager (c : controller) : list controller_watch :=
  match c with
  | CGatewayClass => GatewayClassReconciler_SetupWithManager
  | CGatewayClassConfig => GatewayClassConfigReconciler_SetupWithManager
  | CGateway => GatewayReconciler_SetupWithManager
  | CHTTPRoute => HTTPRouteReconciler_SetupWithManager
  | CTCPRoute => TCPRouteReconciler_SetupWithManager
  end.

(** What an event enqueues: the handlers see every version of the object. *)
Definition watch_enqueues (ev : WatchEvent) (w : controller_watch) : list NamespacedName :=
  if bool_decide (w_kind w = wo_kind (event_subject ev)) && w_predicate w (wo_Meta (event_subject ev))
  then flat_map (w_handler w) (event_objects ev)
  else [].

Definition watch_requests (c : controller) (ev : WatchEvent) : list NamespacedName :=
  flat_map (watch_enqueues ev) (SetupWithManager c).
End setup.

(** ** Lemmas *)

Section watches.
Context {CB : ControllerBuilder} {LB : LawfulBuilder}.

Lemma watch_requests_elem rc c ev w n o :
  w ∈ SetupWithManager rc c → w_kind w = wo_kind (event_subject ev) →
  w_predicate w (wo_Meta (event_subject ev)) = true →
  o ∈ event_objects ev → n ∈ w_handler w o → n ∈ watch_requests rc c ev.
Proof.
  intros Hw Hk Hp Ho Hn. unfold watch_requests. apply list_elem_of_In, in_flat_map.
  exists w. split; [by apply list_elem_of_In|]. unfold watch_enqueues.
  rewrite bool_decide_eq_true_2, Hp by done. cbn. apply in_flat_map.
  exists o. by rewrite <- !list_elem_of_In.
Qed.

(** The predicate looks for the label that marks an object as managed. *)
Lemma predicate_managed m :
  label_predicate {[ManagedLabel := "true"]} m = true ↔ om_Labels m !! ManagedLabel = Some "true".
Proof using LB. by rewrite label_predicate_subset, map_singleton_subseteq_l. Qed.

Lemma labels_managed gateway labels :
  LabelsForGateway gateway ⊆ labels →
  IsManagedGateway labels = Some (om_Name (gw_Meta gateway)) ∧
  labels !! namespaceLabel = Some (om_Namespace (gw_Meta gateway)).
Proof.
  intros Hsub.
  assert (∀ k v, LabelsForGateway gateway !! k = Some v → labels !! k = Some v) as Hl
    by (intros k v Hk; by eapply lookup_weaken).
  unfold IsManagedGateway. rewrite (Hl ManagedLabel "true") by done.
  rewrite decide_True by done. split; apply Hl; done.
Qed.

(** A pod of the gateway that is in the gateway's namespace enqueues it. *)
Lemma pod_enqueues rc gateway ev o :
  wo_kind (event_subject ev) = WKPod → o ∈ event_objects ev →
  om_Labels (wo_Meta (event_subject ev)) !! ManagedLabel = Some "true" →
  LabelsForGateway gateway ⊆ om_Labels (wo_Meta o) →
  om_Namespace (wo_Meta o) = om_Namespace (gw_Meta gateway) →
  gateway_NamespacedName gateway ∈ watch_requests rc CGateway ev.
Proof using LB.
  intros Hk Ho Hlab Hsub Hns. apply labels_managed in Hsub as [Hm _].
  eapply (watch_requests_elem rc CGateway ev (mkWatch WKPod _ _)); [|done| |exact Ho|].
  - do 5 right. by left.
  - by apply predicate_managed.
  - cbn. unfold podToGatewayRequest. rewrite Hm, Hns. by left.
Qed.

(** An object the gateway controls enqueues it. *)
Lemma owned_enqueues rc gateway ev o :
  wo_kind (event_subject ev) ∈ [WKDeployment; WKService; WKServiceAccount; WKSecret] →
  o ∈ event_objects ev → controlled_by gateway (wo_Meta o) →
  om_Namespace (wo_Meta o) = om_Namespace (gw_Meta gateway) →
  gateway_NamespacedName gateway ∈ watch_requests rc CGateway ev.
Proof using LB.
  intros Hk Ho Hc Hns.
  eapply (watch_requests_elem rc CGateway ev (Owns (wo_kind (event_subject ev)))); [|done|done|exact Ho|].
  - unfold SetupWithManager, GatewayReconciler_SetupWithManager.
    repeat (apply elem_of_cons in Hk as [->|Hk]; [repeat first [left; reflexivity|right]|]).
    by apply elem_of_nil in Hk.
  - cbn. by apply request_for_controller.
Qed.
End watches.

(** ** What the validation of a gateway depends on *)

Lemma mapM_result_ext {A B} (f g : A → result B) xs :
  (∀ x, x ∈ xs → f x = g x) → mapM_result f xs = mapM_result g xs.
Proof.
  induction xs as [|x xs IH]; intros Hfg; [done|]. cbn. rewrite Hfg by by left.
  rewrite IH; [done|]. intros y Hy. apply Hfg. by right.
Qed.

(** The certificate that a listener refers to. *)
Definition certificate_ref (listener : Listener) : option SecretObjectReference :=
  tls ← l_TLS listener; head (gtls_CertificateRefs tls).

Section validation.
Context {MR : MapRange} {U : NetURL} (format_kinds : list RouteGroupKind → string).

Lemma validateTLS_ext c c' l gateway listener :
  (∀ ref, certificate_ref listener = Some ref →
     gatewayAllowedForSecretRef c' gateway ref = gatewayAllowedForSecretRef c gateway ref ∧
     resolveCertificateReference c' gateway ref = resolveCertificateReference c gateway ref) →
  validateTLS c' l gateway listener = validateTLS c l gateway listener.
Proof.
  intros Href. unfold validateTLS, certificate_ref in *.
  destruct (l_TLS listener) as [tls|]; [|done]. destruct (bool_decide _); [done|].
  cbn in Href. destruct (gtls_CertificateRefs tls) as [|ref refs]; [done|].
  destruct (Href ref eq_refl) as [-> ->]. done.
Qed.

Lemma Validate_gateway_ext c c' gateway service :
  cl_PodsWithLabels c' (LabelsForGateway gateway) = cl_PodsWithLabels c (LabelsForGateway gateway) →
  (∀ s, service = Some s →
     cl_GetService c' (om_key (svc_Meta s)) = cl_GetService c (om_key (svc_Meta s))) →
  (∀ listener ref, listener ∈ gw_Listeners gateway → certificate_ref listener = Some ref →
     gatewayAllowedForSecretRef c' gateway ref = gatewayAllowedForSecretRef c gateway ref ∧
     resolveCertificateReference c' gateway ref = resolveCertificateReference c gateway ref) →
  GatewayValidator_Validate c' format_kinds gateway service =
  GatewayValidator_Validate c format_kinds gateway service.
Proof.
  intros Hp Hs Href. unfold GatewayValidator_Validate.
  assert (∀ st, validatePods c' st gateway = validatePods c st gateway) as Hpods
    by (intros st; unfold validatePods; by rewrite Hp).
  rewrite Hpods. destruct (validatePods c _ gateway) as [st|]; [|done]. cbn.
  assert (validateGatewayIP c' st gateway service = validateGatewayIP c st gateway service) as ->.
  { unfold validateGatewayIP, assignGatewayIPFromPods, assignGatewayIPFromPodHost,
      assignGatewayIPFromServiceIngress, assignGatewayIPFromService. rewrite Hp.
    destruct service as [s|]; [|done]. specialize (Hs s eq_refl). unfold om_key in Hs. by rewrite Hs. }
  destruct (validateGatewayIP c st gateway service) as [st'|]; [|done]. cbn.
  unfold validateListeners. erewrite mapM_result_ext; [done|]. intros [l listener] Hin. cbn.
  unfold validate_listener. rewrite (validateTLS_ext c c'); [done|]. intros ref Hr.
  apply (Href listener); [|done].
  apply list_elem_of_lookup in Hin as [i Hi]. apply lookup_zip_with_Some in Hi as (x & y & [= -> ->] & _ & Hy).
  by eapply list_elem_of_lookup_2.
Qed.
End validation.

(** ** Events and what they change *)

(** Everything a validation reads but the pods, services, secrets or grants. *)
Definition same_pods (rc rc' : RuntimeClient) : Prop :=
  ∀ labels, rc_ListPods rc' labels = rc_ListPods rc labels.
Definition same_services (rc rc' : RuntimeClient) : Prop :=
  ∀ n, rc_Service rc' n = rc_Service rc n.
Definition same_secrets (rc rc' : RuntimeClient) : Prop :=
  ∀ n, rc_Secret rc' n = rc_Secret rc n.
Definition same_grants (rc rc' : RuntimeClient) : Prop :=
  ∀ ns, GetReferenceGrantsInNamespace rc' ns = GetReferenceGrantsInNamespace rc ns.

(** The clusters before and after an event differ only in its object. *)
Definition watched_change (rc rc' : RuntimeClient) (ev : WatchEvent) : Prop :=
  let objects := event_objects ev in
  match wo_kind (event_subject ev) with
  | WKPod =>
      same_services rc rc' ∧ same_secrets rc rc' ∧ same_grants rc rc' ∧
      ∀ labels, (∀ o, o ∈ objects → ¬ labels ⊆ om_Labels (wo_Meta o)) →
        rc_ListPods rc' labels = rc_ListPods rc labels
  | WKService =>
      same_pods rc rc' ∧ same_secrets rc rc' ∧ same_grants rc rc' ∧
      ∀ n, n ∉ (λ o, om_key (wo_Meta o)) <$> objects → rc_Service rc' n = rc_Service rc n
  | WKSecret =>
      same_pods rc rc' ∧ same_services rc rc' ∧ same_grants rc rc' ∧
      ∀ n, n ∉ (λ o, om_key (wo_Meta o)) <$> objects → rc_Secret rc' n = rc_Secret rc n
  | WKReferenceGrant | WKReferencePolicy =>
      same_pods rc rc' ∧ same_services rc rc' ∧ same_secrets rc rc' ∧
      ∀ ns, ∃ gs gs', GetReferenceGrantsInNamespace rc ns = Ok gs ∧
        GetReferenceGrantsInNamespace rc' ns = Ok gs' ∧
        ∀ g, g ∉ wo_grant <$> objects → g ∈ gs' ↔ g ∈ gs
  | _ => same_pods rc rc' ∧ same_services rc rc' ∧ same_secrets rc rc' ∧ same_grants rc rc'
  end.

(** The events the watches of the gateway controller do not see as the
    gateway's.  Of a pod: the label that marks it as managed is gone from its
    current version, or no version that carries the labels of the gateway is in
    the gateway's namespace.  Of a service: no version with the name of the
    gateway is controlled by it. *)
Definition unseen (gateway : Gateway) (ev : WatchEvent) : Prop :=
  match wo_kind (event_subject ev) with
  | WKPod =>
      om_Labels (wo_Meta (event_subject ev)) !! ManagedLabel ≠ Some "true" ∨
      (∀ o, o ∈ event_objects ev → LabelsForGateway gateway ⊆ om_Labels (wo_Meta o) →
         om_Namespace (wo_Meta o) ≠ om_Namespace (gw_Meta gateway))
  | WKService =>
      ∀ o, o ∈ event_objects ev → om_key (wo_Meta o) = gateway_NamespacedName gateway →
        ¬ controlled_by gateway (wo_Meta o)
  | _ => False
  end.

Lemma grant_enqueues_gateway `{ControllerBuilder} rc gateway ev o f :
  wo_kind (event_subject ev) = WKReferenceGrant ∨ wo_kind (event_subject ev) = WKReferencePolicy →
  o ∈ event_objects ev → f ∈ rg_From (wo_grant o) →
  rgf_Namespace f = om_Namespace (gw_Meta gateway) →
  listed_in (rc_ListGatewaysIn rc) (om_Namespace (gw_Meta gateway)) gateway →
  gateway_NamespacedName gateway ∈ watch_requests rc CGateway ev.
Proof.
  intros Hk Ho Hf Hns Hl. apply listed_in_lister in Hl as [Hok (items & Hi & Hg)].
  assert (gateway_NamespacedName gateway ∈ getRequestsFromReferenceGrant rc (wo_grant o)) as Hreq.
  { apply list_elem_of_fmap. exists gateway. split; [done|].
    apply affected_by_grant_elem; [exact Hok|]. right. exists f, items. by rewrite Hns. }
  destruct Hk as [Hk|Hk].
  - eapply (watch_requests_elem rc CGateway ev (Watches WKReferenceGrant (referenceGrantToGatewayRequests rc))); [|done|done|exact Ho|exact Hreq].
    do 6 right. by left.
  - eapply (watch_requests_elem rc CGateway ev (Watches WKReferencePolicy (referencePolicyToGatewayRequests rc))); [|done|done|exact Ho|exact Hreq].
    do 7 right. by left.
Qed.

Section complete.
Context {CB : ControllerBuilder} {LB : LawfulBuilder} {MR : MapRange} {U : NetURL}.
Context (format_kinds : list RouteGroupKind → string) (controllerName : string).

(** The validation of a gateway, with the service the deployer builds for it. *)
Definition validate_gateway_in (rc : RuntimeClient) (gateway : Gateway) (service : option Service) :
    result GatewayState :=
  GatewayValidator_Validate (New rc controllerName) format_kinds gateway service.

Lemma same_pods_labels rc rc' labels :
  rc_ListPods rc' labels = rc_ListPods rc labels → PodsWithLabels rc' labels = PodsWithLabels rc labels.
Proof. intros Hp. unfold PodsWithLabels. by rewrite Hp. Qed.

Lemma same_secret_ref rc rc' gateway ref :
  same_secrets rc rc' →
  resolveCertificateReference (New rc' controllerName) gateway ref =
  resolveCertificateReference (New rc controllerName) gateway ref.
Proof. intros Hs. unfold resolveCertificateReference. cbn. unfold GetSecret. by rewrite Hs. Qed.

Lemma same_grants_ref rc rc' gateway ref :
  same_grants rc rc' →
  gatewayAllowedForSecretRef (New rc' controllerName) gateway ref =
  gatewayAllowedForSecretRef (New rc controllerName) gateway ref.
Proof.
  intros Hg. unfold gatewayAllowedForSecretRef, referenceAllowed. case_bool_decide; [done|].
  cbn. by rewrite Hg.
Qed.

(** A reference grant that does not name the namespace of the gateway changes
    nothing for its references. *)
Lemma other_grants_ref rc rc' gateway ref (grants : list ReferenceGrant) :
  (∀ ns, ∃ gs gs', GetReferenceGrantsInNamespace rc ns = Ok gs ∧
     GetReferenceGrantsInNamespace rc' ns = Ok gs' ∧ ∀ g, g ∉ grants → g ∈ gs' ↔ g ∈ gs) →
  ¬ Exists (λ g, Exists (λ f, rgf_Namespace f = om_Namespace (gw_Meta gateway)) (rg_From g)) grants →
  gatewayAllowedForSecretRef (New rc' controllerName) gateway ref =
  gatewayAllowedForSecretRef (New rc controllerName) gateway ref.
Proof.
  intros Hg Hno. unfold gatewayAllowedForSecretRef, referenceAllowed. case_bool_decide; [done|]. cbn.
  destruct (Hg (default "" (sor_Namespace ref))) as (gs & gs' & -> & -> & Hsame). cbn. f_equal.
  apply existsb_same_grants. intros g [Hfrom _]%andb_true_iff. apply Hsame. intros Hin.
  rewrite irrelevant_grant in Hfrom; [done|]. intros Hex. apply Hno, Exists_exists. eauto.
Qed.

(** A change of a reference grant or policy enqueues the gateway or does not
    change its validation. *)
Lemma grant_change_gateway (rc rc' : RuntimeClient) ev gateway service :
  wo_kind (event_subject ev) = WKReferenceGrant ∨ wo_kind (event_subject ev) = WKReferencePolicy →
  same_pods rc rc' → same_services rc rc' → same_secrets rc rc' →
  (∀ ns, ∃ gs gs', GetReferenceGrantsInNamespace rc ns = Ok gs ∧
     GetReferenceGrantsInNamespace rc' ns = Ok gs' ∧
     ∀ g, g ∉ wo_grant <$> event_objects ev → g ∈ gs' ↔ g ∈ gs) →
  listed_in (rc_ListGatewaysIn rc') (om_Namespace (gw_Meta gateway)) gateway →
  gateway_NamespacedName gateway ∈ watch_requests rc' CGateway ev ∨
  validate_gateway_in rc' gateway service = validate_gateway_in rc gateway service.
Proof.
  intros Hk Hp Hs Hse Hg Hl.
  destruct (decide (Exists (λ g, Exists (λ f, rgf_Namespace f = om_Namespace (gw_Meta gateway))
      (rg_From g)) (wo_grant <$> event_objects ev))) as [Hex|Hno].
  - left. apply Exists_exists in Hex as (g & (o & -> & Ho)%list_elem_of_fmap & (f & Hf & Hns)%Exists_exists).
    by eapply grant_enqueues_gateway.
  - right. apply Validate_gateway_ext; [by apply same_pods_labels| |].
    + intros s _. cbn. unfold GetService. by rewrite Hs.
    + intros. split; [by eapply other_grants_ref|by apply same_secret_ref].
Qed.

(** A change of a service enqueues the gateway, is unseen or does not change the
    validation of the gateway. *)
Lemma service_change_gateway (rc rc' : RuntimeClient) ev gateway service :
  wo_kind (event_subject ev) = WKService → watched_change rc rc' ev →
  (∀ s, service = Some s → om_key (svc_Meta s) = gateway_NamespacedName gateway) →
  gateway_NamespacedName gateway ∈ watch_requests rc' CGateway ev ∨ unseen gateway ev ∨
  validate_gateway_in rc' gateway service = validate_gateway_in rc gateway service.
Proof using LB.
  intros Hk Hch Hkey. unfold watched_change in Hch. rewrite Hk in Hch.
  destruct Hch as (Hp & Hse & Hg & Hs).
  destruct (decide (gateway_NamespacedName gateway ∈ (λ o, om_key (wo_Meta o)) <$> event_objects ev))
    as [_|Hno].
  - destruct (decide (Exists (λ o, om_key (wo_Meta o) = gateway_NamespacedName gateway ∧
      controlled_by gateway (wo_Meta o)) (event_objects ev)))
      as [(o & Ho & Hoo & Hc)%Exists_exists|Hnone].
    + left. apply (owned_enqueues _ _ _ o); [rewrite Hk; set_solver|done|done|by injection Hoo].
    + right. left. unfold unseen. rewrite Hk. intros o Ho Hoo Hc. apply Hnone, Exists_exists. eauto.
  - right. right. apply Validate_gateway_ext; [by apply same_pods_labels| |].
    + intros s Hsome. cbn. unfold GetService. by rewrite (Hkey s Hsome), Hs.
    + intros. split; [by apply same_grants_ref|by apply same_secret_ref].
Qed.

Lemma pod_change_gateway (rc rc' : RuntimeClient) ev gateway service :
  wo_kind (event_subject ev) = WKPod → watched_change rc rc' ev →
  gateway_NamespacedName gateway ∈ watch_requests rc' CGateway ev ∨ unseen gateway ev ∨
  validate_gateway_in rc' gateway service = validate_gateway_in rc gateway service.
Proof using LB.
  intros Hk Hch. unfold watched_change in Hch. rewrite Hk in Hch.
  destruct Hch as (Hs & Hse & Hg & Hp). unfold unseen. rewrite Hk.
  destruct (decide (Exists (λ o, LabelsForGateway gateway ⊆ om_Labels (wo_Meta o)) (event_objects ev)))
    as [_|Hno].
  - destruct (decide (om_Labels (wo_Meta (event_subject ev)) !! ManagedLabel = Some "true"))
      as [Hm|Hm]; [|by right; left; left].
    destruct (decide (Exists (λ o, LabelsForGateway gateway ⊆ om_Labels (wo_Meta o) ∧
      om_Namespace (wo_Meta o) = om_Namespace (gw_Meta gateway)) (event_objects ev)))
      as [(o & Ho & Hsub & Hns)%Exists_exists|Hnone].
    + left. by apply (pod_enqueues _ _ _ o).
    + right. left. right. intros o Ho Hsub Hns. apply Hnone, Exists_exists. eauto.
  - right. right. apply Validate_gateway_ext.
    + apply same_pods_labels, Hp. intros o Ho Hsub. apply Hno, Exists_exists. eauto.
    + intros s _. cbn. unfold GetService. by rewrite Hs.
    + intros. split; [by apply same_grants_ref|by apply same_secret_ref].
Qed.

(** C25: which events miss no gateway.  When an object that is not a secret is
    created, changed or deleted, and that changes what the validation of a
    listed gateway yields (its pods, its addresses, whether its certificates
    are permitted), then the watches of the gateway controller enqueue the
    gateway, or the event is one of three the watches do not see: a pod whose
    current version has lost the label that marks it as managed, a pod with
    the gateway's labels outside the gateway's namespace, or a service with
    the gateway's name that the gateway does not control.  (Secrets are
    treated apart.) *)
Theorem events_miss_no_gateway (rc rc' : RuntimeClient) (ev : WatchEvent) (gateway : Gateway)
    (service : option Service) :
  watched_change rc rc' ev → wo_kind (event_subject ev) ≠ WKSecret →
  (∀ s, service = Some s → om_key (svc_Meta s) = gateway_NamespacedName gateway) →
  listed_in (rc_ListGatewaysIn rc') (om_Namespace (gw_Meta gateway)) gateway →
  validate_gateway_in rc' gateway service ≠ validate_gateway_in rc gateway service →
  gateway_NamespacedName gateway ∈ watch_requests rc' CGateway ev ∨ unseen gateway ev.
Proof using LB.
  intros Hch Hsec Hkey Hl Hdiff.
  destruct (wo_kind (event_subject ev)) eqn:Hk; try done;
    try (unfold watched_change in Hch; rewrite Hk in Hch;
         destruct Hdiff; destruct Hch as (Hp & Hs & Hse & Hg); apply Validate_gateway_ext;
         [by apply same_pods_labels
         |intros s _; cbn; unfold GetService; by rewrite Hs
         |intros; split; [by apply same_grants_ref|by apply same_secret_ref]]; fail).
  - destruct (service_change_gateway rc rc' ev gateway service) as [?|[?|?]]; auto; done.
  - destruct (pod_change_gateway rc rc' ev gateway service) as [?|[?|?]]; auto; done.
  - unfold watched_change in Hch. rewrite Hk in Hch. destruct Hch as (Hp & Hs & Hse & Hg).
    left. destruct (grant_change_gateway rc rc' ev gateway service) as [?|?]; auto; done.
  - unfold watched_change in Hch. rewrite Hk in Hch. destruct Hch as (Hp & Hs & Hse & Hg).
    left. destruct (grant_change_gateway rc rc' ev gateway service) as [?|?]; auto; done.
Qed.
End complete.

(** ** What is not watched *)

(** No version of the object has an owner that controls it, as is so for
    every secret that a user or a certificate manager creates. *)
Definition uncontrolled (ev : WatchEvent) : Prop :=
  ∀ o, o ∈ event_objects ev → existsb or_Controller (om_OwnerReferences (wo_Meta o)) = false.

Lemma flat_map_nil {A B} (f : A → list B) xs : (∀ x, x ∈ xs → f x = []) → flat_map f xs = [].
Proof.
  induction xs as [|x xs IH]; intros Hf; [done|]. cbn. rewrite Hf by by left.
  apply IH. intros y Hy. apply Hf. by right.
Qed.

(** An event of a kind that is not the kind of a watch does not reach it. *)
Lemma other_kind_enqueues ev w : w_kind w ≠ wo_kind (event_subject ev) → watch_enqueues ev w = [].
Proof. intros Hk. unfold watch_enqueues. by rewrite bool_decide_eq_false_2. Qed.

Lemma uncontrolled_enqueues `{LawfulBuilder} ev kind :
  uncontrolled ev → watch_enqueues ev (Owns kind) = [].
Proof.
  intros Hu. unfold watch_enqueues. destruct (_ && _); [|done]. apply flat_map_nil.
  intros o Ho. cbn. by apply request_only_for_controller, Hu.
Qed.

Lemma uncontrolled_secret_unwatched `{LawfulBuilder} rc c ev :
  wo_kind (event_subject ev) = WKSecret → uncontrolled ev → watch_requests rc c ev = [].
Proof.
  intros Hk Hu. apply flat_map_nil. intros w Hw.
  destruct c; cbn in Hw;
    repeat (apply elem_of_cons in Hw as [->|Hw];
            [first [by apply uncontrolled_enqueues|by apply other_kind_enqueues; rewrite Hk]|]);
    by apply elem_of_nil in Hw.
Qed.

Lemma mesh_service_unwatched `{ControllerBuilder} rc c ev :
  wo_kind (event_subject ev) = WKMeshService → watch_requests rc c ev = [].
Proof.
  intros Hk. apply flat_map_nil. intros w Hw. apply other_kind_enqueues. rewrite Hk.
  destruct c; cbn in Hw;
    repeat (apply elem_of_cons in Hw as [->|Hw]; [done|]); by apply elem_of_nil in Hw.
Qed.

(** A pod event enqueues nothing when the pod's current version is not marked as
    managed, and only gateways of the namespaces of its versions otherwise. *)
Lemma unmanaged_pod_unwatched `{LawfulBuilder} rc c ev :
  wo_kind (event_subject ev) = WKPod →
  om_Labels (wo_Meta (event_subject ev)) !! ManagedLabel ≠ Some "true" →
  watch_requests rc c ev = [].
Proof.
  intros Hk Hm. apply flat_map_nil. intros w Hw.
  destruct (decide (w_kind w = wo_kind (event_subject ev))) as [Hkind|];
    [|by apply other_kind_enqueues].
  unfold watch_enqueues. rewrite bool_decide_eq_true_2 by done. cbn.
  assert (w_predicate w = label_predicate {[ManagedLabel := "true"]}) as ->.
  { rewrite Hk in Hkind. revert Hkind. destruct c; cbn in Hw;
      repeat (apply elem_of_cons in Hw as [->|Hw]; [cbn; congruence|]); by apply elem_of_nil in Hw. }
  destruct (label_predicate _ _) eqn:Hp; [|done]. destruct Hm.
  by apply predicate_managed.
Qed.

Lemma elsewhere_pod_unwatched `{ControllerBuilder} rc gateway ev :
  wo_kind (event_subject ev) = WKPod →
  (∀ o, o ∈ event_objects ev → om_Namespace (wo_Meta o) ≠ om_Namespace (gw_Meta gateway)) →
  gateway_NamespacedName gateway ∉ watch_requests rc CGateway ev.
Proof.
  intros Hk Hns Hin. apply list_elem_of_In, in_flat_map in Hin as (w & Hw & Hin).
  apply list_elem_of_In in Hw. unfold watch_enqueues in Hin.
  case_bool_decide as Hkind; [|done]. destruct (w_predicate w _); [|done]. cbn in Hin.
  apply in_flat_map in Hin as (o & Ho & Hin). apply list_elem_of_In in Ho.
  rewrite Hk in Hkind. revert Hkind Hin. cbn in Hw.
  repeat (apply elem_of_cons in Hw as [->|Hw]; [cbn; try done|]); [|by apply elem_of_nil in Hw].
  intros _. unfold podToGatewayRequest. destruct (IsManagedGateway _) as [gw|]; [|done].
  intros [Heq|[]]. injection Heq as Hn _. by apply (Hns o).
Qed.

Lemma uncontrolled_service_unwatched `{LawfulBuilder} rc ev :
  wo_kind (event_subject ev) = WKService → uncontrolled ev →
  watch_requests rc CGateway ev = [].
Proof.
  intros Hk Hu. apply flat_map_nil. intros w Hw. cbn in Hw.
  repeat (apply elem_of_cons in Hw as [->|Hw];
          [first [by apply uncontrolled_enqueues|by apply other_kind_enqueues; rewrite Hk]|]);
    by apply elem_of_nil in Hw.
Qed.

(** ** An example *)

Module WatchExamples.

(** controller-runtime's owner handler and label predicate. *)
#[export] Instance builder : ControllerBuilder := {|
  request_for_gateway m :=
    (λ r, mkNamespacedName (om_Namespace m) (or_Name r)) <$> List.filter or_Controller (om_OwnerReferences m);
  label_predicate labels m := bool_decide (labels ⊆ om_Labels m)
|}.

#[export] Instance builder_lawful : LawfulBuilder.
Proof.
  split.
  - intros gateway m Hc Hns. cbn. rewrite Hns. apply list_elem_of_fmap.
    exists (mkOwnerReference (om_UID (gw_Meta gateway)) (om_Name (gw_Meta gateway)) true).
    split; [done|]. apply list_elem_of_In, filter_In. by rewrite <- list_elem_of_In.
  - intros m Hno. cbn. induction (om_OwnerReferences m) as [|r rs IH]; [done|]. cbn in *.
    apply orb_false_iff in Hno as [-> ?]. by apply IH.
  - intros labels m. apply bool_decide_eq_true.
Qed.

(** A cluster with a gateway, pods and secrets. *)
Definition cluster_of (gateway : Gateway) (pods : list (gmap string string * Pod)) (secrets : list Secret) :
    RuntimeClient := {|
  rc_GatewayClassConfig _ := NotFound;
  rc_GatewayClass _ := NotFound;
  rc_Gateway _ := NotFound;
  rc_Secret n :=
    match List.find (λ s, bool_decide (om_key (sec_Meta s) = n)) secrets with
    | Some s => Found s
    | None => NotFound
    end;
  rc_Service _ := NotFound;
  rc_HTTPRoute _ := NotFound;
  rc_TCPRoute _ := NotFound;
  rc_MeshService _ := NotFound;
  rc_Namespace _ := NotFound;
  rc_Deployment _ := NotFound;
  rc_ListGatewayClasses := Ok [];
  rc_ListGateways := Ok [gateway];
  rc_ListPods labels :=
    Ok ((λ p, (p.2, false)) <$> List.filter (λ p, bool_decide (labels ⊆ p.1)) pods);
  rc_ListDeployments _ := Ok [];
  rc_ListReferenceGrants _ := Ok [];
  rc_ListReferencePolicies _ := Ok [];
  rc_ListGatewaysIn ns :=
    Ok (if bool_decide (ns = om_Namespace (gw_Meta gateway)) then [gateway] else []);
  rc_ListHTTPRoutes := Ok [];
  rc_ListHTTPRoutesIn _ := Ok [];
  rc_ListTCPRoutes := Ok [];
  rc_ListTCPRoutesIn _ := Ok []
|}.

(** A gateway whose listener refers to the secret [cert] of its namespace. *)
Definition https_gateway : Gateway :=
  ValidatorExamples.gateway_with
    [mkListener "https" None 443 "HTTPS"
       (Some (mkGatewayTLSConfig None [mkSecretObjectReference None None "cert" None] ∅)) None].

Definition no_grant : ReferenceGrant := mkReferenceGrant [] [].
Definition pod_labels : gmap string string := LabelsForGateway https_gateway.
Definition pod : WatchedObject :=
  mkWatchedObject WKPod (new_meta "gateway-0" "default" pod_labels ∅) no_grant.
Definition certificate : Secret := mkSecret (new_meta "cert" "default" ∅ ∅) "kubernetes.io/tls" ∅.
Definition certificate_object : WatchedObject :=
  mkWatchedObject WKSecret (sec_Meta certificate) no_grant.

Definition validate (rc : RuntimeClient) : result GatewayState :=
  @validate_gateway_in canonical_range plain_url (λ _, "") "controller" rc https_gateway None.

Lemma gateway_listed pods secrets :
  listed_in (rc_ListGatewaysIn (cluster_of https_gateway pods secrets)) "default" https_gateway.
Proof. split; [by eauto|]. exists [https_gateway]. by split; [|left]. Qed.

(** The pod of the gateway starts. *)
Lemma pod_appears :
  watched_change (cluster_of https_gateway [] [])
    (cluster_of https_gateway [(pod_labels, ValidatorExamples.ready_pod)] []) (Created pod).
Proof.
  split_and!; [done..|]. intros labels Hl. cbn. rewrite bool_decide_eq_false_2; [done|].
  apply (Hl pod). by left.
Qed.

(** The pod of the gateway loses its labels. *)
Definition relabelled_pod : WatchedObject :=
  mkWatchedObject WKPod (new_meta "gateway-0" "default" ∅ ∅) no_grant.

Lemma pod_relabelled :
  watched_change (cluster_of https_gateway [(pod_labels, ValidatorExamples.ready_pod)] [])
    (cluster_of https_gateway [(∅, ValidatorExamples.ready_pod)] [])
    (Updated pod relabelled_pod).
Proof.
  split_and!; [done..|]. intros labels Hl. cbn.
  rewrite !bool_decide_eq_false_2; [done|apply (Hl pod)|apply (Hl relabelled_pod)];
    [by left|by right; left].
Qed.

(** The certificate is created. *)
Lemma certificate_appears :
  watched_change (cluster_of https_gateway [] []) (cluster_of https_gateway [] [certificate])
    (Created certificate_object).
Proof.
  split_and!; [done..|]. intros n Hn. cbn. rewrite bool_decide_eq_false_2; [done|].
  intros <-. apply Hn. by left.
Qed.

Definition addresses (rc : RuntimeClient) : list string :=
  match validate rc with Ok st => gst_Addresses st | Err _ => [] end.
Definition listeners_ready (rc : RuntimeClient) : bool :=
  match validate rc with
  | Ok st => forallb (λ l, negb (ListenerReadyStatus_HasError (ls_Ready (lst_Status l)))) (gst_Listeners st)
  | Err _ => false
  end.

Lemma addresses_differ rc rc' : addresses rc' ≠ addresses rc → validate rc' ≠ validate rc.
Proof. unfold addresses. intros Hd Heq. by rewrite Heq in Hd. Qed.

End WatchExamples.

Import (hints) WatchExamples.

Lemma events_miss_no_gateway_witness :
  mkNamespacedName "default" "gateway" ∈ watch_requests
    (WatchExamples.cluster_of WatchExamples.https_gateway
       [(WatchExamples.pod_labels, ValidatorExamples.ready_pod)] [])
    CGateway (Created WatchExamples.pod).
Proof.
  destruct (@events_miss_no_gateway _ WatchExamples.builder_lawful canonical_range plain_url (λ _, "")
    "controller" _ _ _ WatchExamples.https_gateway None WatchExamples.pod_appears)
    as [Hin|[Hm|Hns]].
  - discriminate.
  - discriminate.
  - apply WatchExamples.gateway_listed.
  - apply WatchExamples.addresses_differ. vm_compute. discriminate.
  - exact Hin.
  - destruct Hm. vm_compute. reflexivity.
  - destruct (Hns WatchExamples.pod); [left|reflexivity|vm_compute; reflexivity].
Defined.

(** The events that are not seen do change gateways.  A pod whose current
    version is not marked as managed enqueues nothing, a pod outside the
    namespace of a gateway does not enqueue it, and a service without a
    controlling owner enqueues no gateway; and a gateway loses its address,
    unnoticed, when the labels are taken off its pod. *)
Theorem unseen_events_enqueue_nothing `{LawfulBuilder} :
  (∀ rc c ev, wo_kind (event_subject ev) = WKPod →
     om_Labels (wo_Meta (event_subject ev)) !! ManagedLabel ≠ Some "true" →
     watch_requests rc c ev = []) ∧
  (∀ rc gateway ev, wo_kind (event_subject ev) = WKPod →
     (∀ o, o ∈ event_objects ev → om_Namespace (wo_Meta o) ≠ om_Namespace (gw_Meta gateway)) →
     gateway_NamespacedName gateway ∉ watch_requests rc CGateway ev) ∧
  (∀ rc ev, wo_kind (event_subject ev) = WKService → uncontrolled ev →
     watch_requests rc CGateway ev = []) ∧
  ∃ rc rc' ev gateway,
    watched_change rc rc' ev ∧ unseen gateway ev ∧
    (∀ c, watch_requests rc' c ev = []) ∧
    listed_in (rc_ListGatewaysIn rc') (om_Namespace (gw_Meta gateway)) gateway ∧
    ∃ st st',
      @validate_gateway_in canonical_range plain_url (λ _, "") "controller" rc gateway None = Ok st ∧
      @validate_gateway_in canonical_range plain_url (λ _, "") "controller" rc' gateway None = Ok st' ∧
      length (gst_Addresses st) = 1 ∧ gst_Addresses st' = [].
Proof.
  split; [apply unmanaged_pod_unwatched|]. split; [intros rc; apply elsewhere_pod_unwatched|].
  split; [apply uncontrolled_service_unwatched|].
  exists (WatchExamples.cluster_of WatchExamples.https_gateway
      [(WatchExamples.pod_labels, ValidatorExamples.ready_pod)] []),
    (WatchExamples.cluster_of WatchExamples.https_gateway [(∅, ValidatorExamples.ready_pod)] []),
    (Updated WatchExamples.pod WatchExamples.relabelled_pod), WatchExamples.https_gateway.
  split; [apply WatchExamples.pod_relabelled|]. split; [by left|].
  split; [intros c; by apply unmanaged_pod_unwatched|]. split; [apply WatchExamples.gateway_listed|].
  eexists _, _. split_and!; vm_compute; reflexivity.
Qed.

(** C26: the secret that a listener takes its certificate from is not watched,
    and neither are mesh services.  A secret without a controlling owner
    enqueues nothing, whichever the controller, although its creation alone
    makes the listener of a gateway valid: the gateway keeps its status
    until something else enqueues it. *)
Theorem certificate_events_missed `{LawfulBuilder} :
  (∀ rc c ev, wo_kind (event_subject ev) = WKSecret → uncontrolled ev → watch_requests rc c ev = []) ∧
  (∀ rc c ev, wo_kind (event_subject ev) = WKMeshService → watch_requests rc c ev = []) ∧
  ∃ rc rc' ev gateway,
    watched_change rc rc' ev ∧ wo_kind (event_subject ev) = WKSecret ∧ uncontrolled ev ∧
    listed_in (rc_ListGatewaysIn rc') (om_Namespace (gw_Meta gateway)) gateway ∧
    ∃ st st',
      @validate_gateway_in canonical_range plain_url (λ _, "") "controller" rc gateway None = Ok st ∧
      @validate_gateway_in canonical_range plain_url (λ _, "") "controller" rc' gateway None = Ok st' ∧
      (ListenerReadyStatus_HasError ∘ ls_Ready ∘ lst_Status <$> gst_Listeners st) = [true] ∧
      (ListenerReadyStatus_HasError ∘ ls_Ready ∘ lst_Status <$> gst_Listeners st') = [false].
Proof.
  split; [|split].
  - apply uncontrolled_secret_unwatched.
  - apply mesh_service_unwatched.
  - exists (WatchExamples.cluster_of WatchExamples.https_gateway [] []),
      (WatchExamples.cluster_of WatchExamples.https_gateway [] [WatchExamples.certificate]),
      (Created WatchExamples.certificate_object), WatchExamples.https_gateway.
    split; [apply WatchExamples.certificate_appears|]. split; [done|].
    split; [by intros o ->%list_elem_of_singleton|]. split; [apply WatchExamples.gateway_listed|].
    eexists _, _. split_and!; vm_compute; reflexivity.
Qed.

Lemma certificate_events_missed_witness :
  watch_requests (WatchExamples.cluster_of WatchExamples.https_gateway [] [WatchExamples.certificate])
    CGateway (Created WatchExamples.certificate_object) = [].
Proof.
  apply (proj1 (@certificate_events_missed _ WatchExamples.builder_lawful));
    [done|]. by intros o ->%list_elem_of_singleton.
Defined.
