(* ===== verification/SecretClients.v ===== *)
(** * The sources of certificates ([internal/k8s/certificates.go], [internal/vault])

    The three secret clients behind the secret manager: TLS secrets of the
    cluster, certificates in Vault's key-value store, and certificates Vault
    issues.  A certificate is named by a URL whose scheme selects the client.
    Decoding certificates and the Vault API are classes. *)

From S2P Require Import Prelude Errors Json K8s K8sSecret Secrets.

(** [encoding/pem], [crypto/x509] (the end of the validity of a certificate)
    and [encoding/base64]. *)
Class CertificateParsing : Type := {
  pem_Decode : string → option string;
  x509_ParseCertificate : string → result Z;
  base64_DecodeString : string → result string
}.

(** ** [url.Values] *)

Definition Values_Add (v : Values) (key value : string) : Values :=
  <[key := default [] (v !! key) ++ [value]]> v.
Definition Values_Get (v : Values) (key : string) : string :=
  match v !! key with Some (x :: _) => x | _ => "" end.

(** Adding a parameter unless it is empty. *)
Definition add_unless_empty (key value : string) (v : Values) : Values :=
  if bool_decide (value ≠ "") then Values_Add v key value else v.

(** [strings.Trim] with a single character. *)
Fixpoint trim_left (c : ascii) (s : list ascii) : list ascii :=
  match s with
  | d :: s' => if Ascii.eqb d c then trim_left c s' else s
  | [] => []
  end.
Definition strings_Trim (s : string) (c : ascii) : string :=
  String.string_of_list_ascii (rev (trim_left c (rev (trim_left c (String.list_ascii_of_string s))))).

(** ** References to Vault ([internal/vault/secrets.go]) *)

Definition ErrInvalidSecret : error := ErrString "invalid vault secret".

Definition KVSecretScheme : string := "vault+kv".
Definition PKISecretScheme : string := "vault+pki".
Definition queryParamAltNames : string := "altNames".
Definition queryParamIPSANs : string := "ipSans".
Definition queryParamOtherSANs : string := "otherSans".
Definition queryParamTTL : string := "ttl".
Definition queryParamCertField : string := "tlsCertField".
Definition queryParamPrivateKeyField : string := "tlsPrivateKeyField".

Record KVSecret : Type := mkKVSecret {
  kv_Path : string;
  kv_CertField : string;
  kv_PrivateKeyField : string
}.

Definition NewKVSecret (path certField privateKeyField : string) : KVSecret :=
  mkKVSecret path certField privateKeyField.

Record PKISecret : Type := mkPKISecret {
  pki_AltNames : string;
  pki_CommonName : string;
  pki_IPSANs : string;
  pki_OtherSANs : string;
  pki_TTL : string
}.

Definition NewPKISecret (commonName altNames ipSANs otherSANs ttl : string) : PKISecret :=
  mkPKISecret altNames commonName ipSANs otherSANs ttl.

Section references.
Context {NU : NetURL}.

Definition ParseKVSecret (ref : string) : result KVSecret :=
  parsed ← url_Parse ref;
  if bool_decide (u_Scheme parsed ≠ KVSecretScheme) then Err ErrInvalidSecret
  else if negb (strings_HasPrefix (u_Path parsed) "/") then Err ErrInvalidSecret
  else
    let query := url_ParseQuery (u_RawQuery parsed) in
    let certField := Values_Get query queryParamCertField in
    let privateKeyField := Values_Get query queryParamPrivateKeyField in
    if bool_decide (certField = "") || bool_decide (privateKeyField = "") then Err ErrInvalidSecret
    else Ok (NewKVSecret (u_Path parsed) certField privateKeyField).

Definition KVSecret_String (s : KVSecret) : string :=
  let v := ∅ in
  let v := add_unless_empty queryParamCertField (kv_CertField s) v in
  let v := add_unless_empty queryParamPrivateKeyField (kv_PrivateKeyField s) v in
  url_String (mkURL KVSecretScheme "" (kv_Path s) (values_Encode v)).

Definition ParsePKISecret (ref : string) : result PKISecret :=
  parsed ← url_Parse ref;
  if bool_decide (u_Scheme parsed ≠ PKISecretScheme) then Err ErrInvalidSecret
  else
    let query := url_ParseQuery (u_RawQuery parsed) in
    Ok (NewPKISecret (u_Host parsed) (Values_Get query queryParamAltNames)
          (Values_Get query queryParamIPSANs) (Values_Get query queryParamOtherSANs)
          (Values_Get query queryParamTTL)).

Definition PKISecret_String (s : PKISecret) : string :=
  let v := ∅ in
  let v := add_unless_empty queryParamAltNames (pki_AltNames s) v in
  let v := add_unless_empty queryParamIPSANs (pki_IPSANs s) v in
  let v := add_unless_empty queryParamOtherSANs (pki_OtherSANs s) v in
  let v := add_unless_empty queryParamTTL (pki_TTL s) v in
  url_String (mkURL PKISecretScheme (pki_CommonName s) "" (values_Encode v)).

End references.

(** ** Fetching *)

Definition SecretTypeTLS : string := "kubernetes.io/tls".
Definition TLSCertKey : string := "tls.crt".
Definition TLSPrivateKeyKey : string := "tls.key".

Section k8s.
Context {NU : NetURL} {CP : CertificateParsing}.
(** [Get] of the controller-runtime client. *)
Context (get : NamespacedName → result Secret).

Definition K8sSecretClient_FetchSecret : fetcher := λ fullName,
  k8sSecret ← ParseK8sSecret fullName;
  secret ← get (mkNamespacedName (sec_Namespace k8sSecret) (sec_Name k8sSecret));
  if bool_decide (sec_Type secret ≠ SecretTypeTLS) then
    Err (ErrString ("only TLS certificates are supported, got type: " +:+ sec_Type secret))
  else
    let certificateChain := map_get (sec_Data secret) TLSCertKey in
    match pem_Decode certificateChain with
    | None => Err (ErrString "failed to parse certificate PEM")
    | Some block =>
        match x509_ParseCertificate block with
        | Err err => Err (ErrWrap "failed to parse certificate: " err)
        | Ok notAfter =>
            let certificatePrivateKey := map_get (sec_Data secret) TLSPrivateKeyKey in
            Ok (mkTLSSecret fullName certificateChain certificatePrivateKey, notAfter)
        end
    end.

End k8s.

Section kv.
Context {NU : NetURL} {CP : CertificateParsing}.
(** [Get] of Vault's key-value client, at the path [NewKVSecretClient] was
    given: the data of a secret. *)
Context (kv_Get : string → result (gmap string json)).

(** The certificate is returned without its name. *)
Definition KVSecretClient_FetchSecret : fetcher := λ name,
  secret ← ParseKVSecret name;
  let path := strings_TrimPrefix (kv_Path secret) "/" in
  data ← kv_Get path;
  match data !! kv_CertField secret, data !! kv_PrivateKeyField secret with
  | Some certValue, Some privateKeyValue =>
      match certValue with
      | JString b64Cert =>
          if bool_decide (b64Cert = "") then Err (ErrString "cert value from Vault not string") else
          match base64_DecodeString b64Cert with
          | Err _ => Err (ErrString "cert value from Vault not base64-decodable")
          | Ok certBytes =>
              match pem_Decode certBytes with
              | None => Err (ErrString "failed to parse PEM cert value from Vault")
              | Some block =>
                  match x509_ParseCertificate block with
                  | Err err => Err (ErrWrap "failed to parse cert: " err)
                  | Ok notAfter =>
                      match privateKeyValue with
                      | JString b64PrivateKey =>
                          if bool_decide (b64PrivateKey = "") then
                            Err (ErrString "private key value from Vault not string")
                          else
                          match base64_DecodeString b64PrivateKey with
                          | Err _ => Err (ErrString "private key value from Vault not base64-decodable")
                          | Ok privateKeyBytes =>
                              Ok (mkTLSSecret "" certBytes privateKeyBytes, notAfter)
                          end
                      | _ => Err (ErrString "private key value from Vault not string")
                      end
                  end
              end
          end
      | _ => Err (ErrString "cert value from Vault not string")
      end
  | _, _ => Err (ErrString "cert or private key not included in Vault secret")
  end.

End kv.

Record IssueData : Type := mkIssueData {
  id_TTL : string;
  id_CommonName : string;
  id_OtherSANs : string;
  id_AltNames : string;
  id_IPSANs : string
}.

(** Vault's API and its helper library: the body of a request, the data of an
    answer, and the bundle of certificates parsed from it. *)
Class CertUtil : Type := {
  request_body : Type;
  response_data : Type;
  ParsedCertBundle : Type;
  mapstructure_Decode : IssueData → result request_body;
  certutil_ParsePKIMap : response_data → result ParsedCertBundle;
  pcb_PrivateKeyBytes : ParsedCertBundle → string;
  pcb_NotAfter : ParsedCertBundle → Z;
  (* the chain of CAs and the issuing CA of [ToCertBundle] *)
  ToCertBundle : ParsedCertBundle → result (list string * string)
}.

Definition defaultIssuer : string := "default".

Record PKISecretClient : Type := mkPKISecretClient {
  pkc_pkiPath : string;
  pkc_issuer : string;
  pkc_issue : string
}.

Definition NewPKISecretClient (pkiPath issue : string) : PKISecretClient :=
  mkPKISecretClient (strings_Trim pkiPath "/") defaultIssuer issue.

Section pki.
Context {NU : NetURL} {CU : CertUtil}.
(** [WriteWithContext] of Vault's logical client. *)
Context (write : string → request_body → result response_data).

Definition generateCertBundle (c : PKISecretClient) (name : string) : result ParsedCertBundle :=
  secret ← ParsePKISecret name;
  let path := "/" +:+ pkc_pkiPath c +:+ "/issuer/" +:+ pkc_issuer c +:+ "/issue/" +:+ pkc_issue c in
  body ← mapstructure_Decode
    (mkIssueData (pki_TTL secret) (pki_CommonName secret) (pki_OtherSANs secret)
       (pki_AltNames secret) (pki_IPSANs secret));
  data ← write path body;
  certutil_ParsePKIMap data.

Definition PKISecretClient_FetchSecret (c : PKISecretClient) : fetcher := λ name,
  cert ← generateCertBundle c name;
  bundle ← ToCertBundle cert;
  let (caChain, issuingCA) := bundle : list string * string in
  let caChain := if bool_decide (length caChain = 0) then [issuingCA] else caChain in
  Ok (mkTLSSecret name (strings_Join caChain (String "010" "")) (pcb_PrivateKeyBytes cert), pcb_NotAfter cert).

End pki.

(** ** The clients of the process ([internal/commands/server/server.go])

    Each argument is the client its constructor built, or the constructor's
    error. *)
Definition registerSecretClients (k8s pki kv : result fetcher) : result (gmap string fetcher) :=
  let secretClient := ∅ in
  k8sSecretClient ← k8s;
  let secretClient := MultiSecretClient_Register secretClient K8sSecretScheme k8sSecretClient in
  vaultPKIClient ← pki;
  let secretClient := MultiSecretClient_Register secretClient PKISecretScheme vaultPKIClient in
  vaultStaticClient ← kv;
  Ok (MultiSecretClient_Register secretClient KVSecretScheme vaultStaticClient).

(** ** Properties *)

Lemma Values_Get_add_eq key value v :
  v !! key = None → Values_Get (add_unless_empty key value v) key = value.
Proof.
  intros Hv. unfold add_unless_empty, Values_Get, Values_Add. case_bool_decide as Hne.
  - by rewrite lookup_insert_eq, Hv.
  - rewrite Hv. by destruct (decide (value = "")).
Qed.

Lemma lookup_add_ne key key' value v :
  key ≠ key' → add_unless_empty key value v !! key' = v !! key'.
Proof.
  intros Hne. unfold add_unless_empty, Values_Add. case_bool_decide; [|done]. by rewrite lookup_insert_ne.
Qed.

Lemma Values_Get_add_ne key key' value v :
  key ≠ key' → Values_Get (add_unless_empty key value v) key' = Values_Get v key'.
Proof. intros Hne. unfold Values_Get. by rewrite lookup_add_ne. Qed.

Lemma add_nonempty key value v :
  map_Forall (λ _ vs, vs ≠ []) v → map_Forall (λ _ vs, vs ≠ []) (add_unless_empty key value v).
Proof.
  intros Hv. unfold add_unless_empty, Values_Add. case_bool_decide; [|done].
  apply map_Forall_insert_2; [|done]. by destruct (default [] (v !! key)).
Qed.

(** The queries of the references, parameter by parameter. *)
#[local] Ltac solve_values := repeat apply add_nonempty; apply map_Forall_empty.
#[local] Ltac new_parameter := rewrite ?lookup_add_ne by done; apply lookup_empty.

Section roundtrip.
Context {NU : NetURL}.

(** References to Vault round-trip.  The text of a reference to the
    key-value store, with an absolute path and both fields, and of one to the
    issuer, whose common name is a host name, parses back to the reference. *)
Theorem vault_reference_roundtrip (kv : KVSecret) (pki : PKISecret) :
  (strings_HasPrefix (kv_Path kv) "/" = true → kv_CertField kv ≠ "" → kv_PrivateKeyField kv ≠ "" →
     ParseKVSecret (KVSecret_String kv) = Ok kv) ∧
  (host_ok (pki_CommonName pki) = true → pki_CommonName pki ≠ "" →
     ParsePKISecret (PKISecret_String pki) = Ok pki).
Proof.
  split.
  - intros Hp Hc Hk. unfold ParseKVSecret, KVSecret_String. cbv zeta.
    rewrite url_Parse_String by (unfold path_ok; by rewrite ?Hp). cbn [mbind result_bind u_Scheme u_Path u_RawQuery].
    rewrite bool_decide_false by (intros Hx; by apply Hx). rewrite Hp. cbn [negb].
    rewrite url_ParseQuery_Encode by solve_values.
    rewrite (Values_Get_add_eq queryParamPrivateKeyField) by new_parameter.
    rewrite Values_Get_add_ne by done. rewrite Values_Get_add_eq by new_parameter.
    rewrite !bool_decide_false by done. by destruct kv.
  - intros Hh Hne. unfold ParsePKISecret, PKISecret_String. cbv zeta.
    rewrite url_Parse_String; [|done|done|by unfold path_ok; rewrite (bool_decide_false (pki_CommonName pki = ""))].
    cbn [mbind result_bind u_Scheme u_Host u_RawQuery].
    rewrite bool_decide_false by (intros Hx; by apply Hx).
    rewrite url_ParseQuery_Encode by solve_values.
    rewrite (Values_Get_add_eq queryParamTTL) by new_parameter.
    rewrite 3!(Values_Get_add_ne queryParamTTL) by done.
    rewrite (Values_Get_add_eq queryParamOtherSANs) by new_parameter.
    rewrite 2!(Values_Get_add_ne queryParamOtherSANs) by done.
    rewrite (Values_Get_add_eq queryParamIPSANs) by new_parameter.
    rewrite (Values_Get_add_ne queryParamIPSANs) by done. rewrite Values_Get_add_eq by new_parameter.
    by destruct pki.
Qed.

End roundtrip.

Section clients.
Context {NU : NetURL} {CP : CertificateParsing} {CU : CertUtil}.
Context (get : NamespacedName → result Secret) (kv_Get : string → result (gmap string json)).
Context (write : string → request_body → result response_data) (c : PKISecretClient).

(** The clients the server registers. *)
Definition server_clients : result (gmap string fetcher) :=
  registerSecretClients (Ok (K8sSecretClient_FetchSecret get))
    (Ok (PKISecretClient_FetchSecret write c)) (Ok (KVSecretClient_FetchSecret kv_Get)).

Lemma server_clients_lookup m name :
  server_clients = Ok m →
  MultiSecretClient_FetchSecret m name
  = match url_Parse name with
    | Err e => Err e
    | Ok u =>
        if bool_decide (u_Scheme u = K8sSecretScheme) then K8sSecretClient_FetchSecret get name
        else if bool_decide (u_Scheme u = PKISecretScheme) then PKISecretClient_FetchSecret write c name
        else if bool_decide (u_Scheme u = KVSecretScheme) then KVSecretClient_FetchSecret kv_Get name
        else Err ErrInvalidSecretProtocol
    end.
Proof.
  intros [= <-]. unfold MultiSecretClient_FetchSecret, MultiSecretClient_Register.
  destruct (url_Parse name) as [u|]; [|done].
  case_bool_decide as H1; [rewrite H1, !lookup_insert_ne by done; by rewrite lookup_insert_eq|].
  case_bool_decide as H2; [rewrite H2, lookup_insert_ne by done; by rewrite lookup_insert_eq|].
  case_bool_decide as H3; [rewrite H3; by rewrite lookup_insert_eq|].
  rewrite !lookup_insert_ne by congruence. by rewrite lookup_empty.
Qed.

Lemma K8sSecretClient_name name s e :
  K8sSecretClient_FetchSecret get name = Ok (s, e) → tlss_Name s = name.
Proof.
  unfold K8sSecretClient_FetchSecret. destruct (ParseK8sSecret name) as [k|]; [|done]. simpl.
  destruct (get _) as [secret|]; [|done]. simpl. case_bool_decide; [done|].
  destruct (pem_Decode _) as [block|]; [|done]. destruct (x509_ParseCertificate block); [|done].
  by intros [= <- _].
Qed.

Lemma PKISecretClient_name name s e :
  PKISecretClient_FetchSecret write c name = Ok (s, e) → tlss_Name s = name.
Proof.
  unfold PKISecretClient_FetchSecret. destruct (generateCertBundle _ _ _) as [cert|]; [|done]. simpl.
  destruct (ToCertBundle cert) as [[chain ca]|]; [|done]. by intros [= <- _].
Qed.

Lemma KVSecretClient_name name s e :
  KVSecretClient_FetchSecret kv_Get name = Ok (s, e) → tlss_Name s = "".
Proof.
  unfold KVSecretClient_FetchSecret. destruct (ParseKVSecret name) as [k|]; [|done]. simpl.
  destruct (kv_Get _) as [data|]; [|done]. simpl.
  repeat (case_match; try done); by intros [= <- _].
Qed.

(** What a fetched certificate is cached as.  A certificate of the cluster
    or one that Vault issued carries the name it was requested by, which is the
    name the secret manager caches it under and Envoy asks for; a certificate
    from Vault's key-value store never does, as its name is left empty.  Other
    schemes are refused. *)
Theorem fetched_secrets_are_named m name s e :
  server_clients = Ok m → MultiSecretClient_FetchSecret m name = Ok (s, e) →
  ∃ u, url_Parse name = Ok u ∧
    (((u_Scheme u = K8sSecretScheme ∨ u_Scheme u = PKISecretScheme) ∧ tlss_Name s = name) ∨
     (u_Scheme u = KVSecretScheme ∧ tlss_Name s = "")).
Proof.
  intros Hm. rewrite (server_clients_lookup m name Hm). destruct (url_Parse name) as [u|]; [|done].
  intros Hf. exists u. split; [done|]. repeat case_bool_decide; [| | |done].
  - left. split; [by left|]. by eapply K8sSecretClient_name.
  - left. split; [by right|]. by eapply PKISecretClient_name.
  - right. split; [done|]. by eapply KVSecretClient_name.
Qed.

(** C38: a listener's certificate is the cluster's.  The reference that the
    validation of a listener produces for a secret is fetched successfully
    exactly when the cluster has that secret, it is a TLS secret and its
    certificate can be decoded; the certificate that is then served is that
    secret's, under the name of the reference. *)
Theorem certificate_reference_served m (k : K8sSecret) s e :
  server_clients = Ok m → strings_Split "/" (sec_Namespace k) = [sec_Namespace k] →
  MultiSecretClient_FetchSecret m (K8sSecret_String k) = Ok (s, e) ↔
  ∃ secret block,
    get (mkNamespacedName (sec_Namespace k) (sec_Name k)) = Ok secret ∧
    sec_Type secret = SecretTypeTLS ∧
    pem_Decode (map_get (sec_Data secret) TLSCertKey) = Some block ∧
    x509_ParseCertificate block = Ok e ∧
    s = mkTLSSecret (K8sSecret_String k) (map_get (sec_Data secret) TLSCertKey)
          (map_get (sec_Data secret) TLSPrivateKeyKey).
Proof.
  intros Hm Hk. rewrite (server_clients_lookup m _ Hm), url_Parse_K8sSecret. cbn [u_Scheme].
  rewrite bool_decide_true by done. unfold K8sSecretClient_FetchSecret.
  rewrite ParseK8sSecret_String by done. cbn [mbind result_bind].
  destruct (get _) as [secret|]; cbn [mbind result_bind]; [|by split; [|intros (? & ? & ? & _)]].
  case_bool_decide as Htype.
  { split; [done|]. intros (secret' & block & [= <-] & Ht & _). done. }
  split.
  - destruct (pem_Decode _) as [block|] eqn:Hpem; [|done].
    destruct (x509_ParseCertificate block) as [t|] eqn:Hx; [|done]. intros [= <- <-].
    exists secret, block. by split_and!.
  - intros (secret' & block & [= <-] & _ & -> & -> & ->). done.
Qed.

(** The clients of the cluster and of Vault's issuer answer with the
    certificate they were asked for, as the secret manager relies on. *)
Lemma k8s_names_answers : names_answers (K8sSecretClient_FetchSecret get).
Proof. intros name s e. apply K8sSecretClient_name. Qed.

Lemma pki_names_answers : names_answers (PKISecretClient_FetchSecret write c).
Proof. intros name s e. apply PKISecretClient_name. Qed.

(** A certificate of the key-value store is never served.  When a node starts
    to watch such a certificate the request succeeds, but the cache Envoy is
    served from does not get a resource of that name. *)
Theorem kv_certificate_not_served {C} `{LC : LawfulCache C} m u name node st st' (cache cache' : C) :
  server_clients = Ok m → url_Parse name = Ok u → u_Scheme u = KVSecretScheme → name ≠ "" →
  sm_registry st !! name = None → name ∉ cached cache →
  watch (MultiSecretClient_FetchSecret m) st cache [name] node = (st', cache', None) →
  name ∉ cached cache'.
Proof.
  intros Hm Hu Hs Hne Hreg Hno. unfold watch. set (st0 := match sm_watchers st !! node with Some _ => _ | None => _ end).
  assert (sm_registry st0 !! name = None) as Hreg0 by (unfold st0; by destruct (sm_watchers st !! node)).
  cbn [watch_loop]. change (sm_registry (watcher_add st0 node name)) with (sm_registry st0). rewrite Hreg0.
  destruct (MultiSecretClient_FetchSecret m name) as [[s e]|] eqn:Hf; [|done].
  assert (tlss_Name s = "") as Hname.
  { rewrite (server_clients_lookup m name Hm), Hu, Hs in Hf.
    rewrite !bool_decide_false, bool_decide_true in Hf by done. by eapply KVSecretClient_name. }
  destruct (updateCertificates _ _) as [cache1 err] eqn:Hup. intros [= _ <- ->].
  apply updateCertificates_cached in Hup. rewrite Hup. simpl. rewrite Hname. set_solver.
Qed.

End clients.

(** ** The secret manager with the clients of the process *)

Section served.
Context {NU : NetURL} {CP : CertificateParsing} {CU : CertUtil}.
Context {MR : MapRange} {C : Type} `{LC : LawfulCache C}.

(** The registered clients, whatever the cluster and Vault answer. *)
Definition server_stores (F : fetcher) : Prop :=
  ∃ get kv_Get write c m,
    server_clients get kv_Get write c = Ok m ∧ F = MultiSecretClient_FetchSecret m.

(** The name refers to Vault's key-value store. *)
Definition kv_name (name : string) : Prop :=
  ∃ u, url_Parse name = Ok u ∧ u_Scheme u = KVSecretScheme.

Lemma server_stores_answers F :
  server_stores F → answers_as (λ n, n ≠ "") (λ n, ¬ kv_name n) F.
Proof.
  intros (get & kv_Get & write & c & m & Hm & ->) name s e n Hf Hn.
  destruct (fetched_secrets_are_named get kv_Get write c m name s e Hm Hf)
    as (u & Hu & [[Hscheme Hname]|[Hscheme Hname]]); rewrite Hname.
  - split; [|tauto]. intros <-. split; [done|]. intros (u' & Hu' & Hkv).
    rewrite Hu in Hu'. injection Hu' as <-. rewrite Hkv in Hscheme. by destruct Hscheme.
  - split; [done|]. intros [-> Hkv]. destruct Hkv. by exists u.
Qed.

(** C11: certificates live exactly as long as they are watched.  Take the
    secret manager with the three registered clients (secrets of the cluster,
    Vault's issuer, Vault's key-value store), whatever these answer each time
    they are asked, and any sequence of operations that report success (a
    refresh may fail) from an empty cache.  Each certificate is registered with
    precisely the nodes that watch it, so dropping a watcher never removes a
    certificate another node uses, and dropping the last one always does.  A
    certificate whose name refers to the cluster or to the issuer is in the
    cache Envoy is served from exactly when some node watches it; one that
    refers to the key-value store is never there, watched or not. *)
Theorem cached_iff_watched (cache0 cache : C) (s : secretManager) :
  cached cache0 = ∅ →
  rtc (secret_step server_stores) (NewSecretManager, cache0) (s, cache) →
  (∀ name node, watches s node name ↔ holds s name node) ∧
  (∀ name, name ≠ "" → ¬ kv_name name →
     (name ∈ cached cache ↔ ∃ node, watches s node name)) ∧
  (∀ name, name ≠ "" → kv_name name → name ∉ cached cache).
Proof.
  intros Hempty Hrtc.
  destruct (secret_steps_cached (λ n, n ≠ "") (λ n, ¬ kv_name n) server_stores cache0 cache s
    server_stores_answers Hempty Hrtc) as [Hiff Hcached].
  split; [done|]. split.
  - intros name Hne Hkv. rewrite (Hcached name Hne). tauto.
  - intros name Hne Hkv. rewrite (Hcached name Hne). tauto.
Qed.

End served.

(** ** Examples *)

Module SecretClientExamples.

(** Every text is a certificate, valid for an hour. *)
#[export] Instance plain_certificates : CertificateParsing := {|
  pem_Decode s := if bool_decide (s = "") then None else Some s;
  x509_ParseCertificate _ := Ok 3600%Z;
  base64_DecodeString s := Ok s
|}.

#[export] Instance plain_certutil : CertUtil := {|
  request_body := IssueData;
  response_data := string;
  ParsedCertBundle := string;
  mapstructure_Decode d := Ok d;
  certutil_ParsePKIMap s := Ok s;
  pcb_PrivateKeyBytes s := s;
  pcb_NotAfter _ := 60%Z;
  ToCertBundle s := Ok ([], s)
|}.

Definition tls_secret : Secret :=
  mkSecret (new_meta "cert" "certs" ∅ ∅) SecretTypeTLS {["tls.crt" := "chain"; "tls.key" := "key"]}.

Definition get (n : NamespacedName) : result Secret :=
  if decide (n = mkNamespacedName "certs" "cert") then Ok tls_secret else Err (ErrString "not found").
Definition kv_get (_ : string) : result (gmap string json) :=
  Ok {["cert" := JString "chain"; "key" := JString "key"]}.
Definition issue (_ : string) (d : IssueData) : result string := Ok (id_CommonName d).
Definition issuer : PKISecretClient := NewPKISecretClient "/pki/" "role".

Definition clients : gmap string fetcher :=
  match server_clients get kv_get issue issuer with Ok m => m | Err _ => ∅ end.

Definition kv : KVSecret := mkKVSecret "/team/web" "cert" "key".
Definition pki : PKISecret := mkPKISecret "" "web.example.com" "10.0.0.1" "" "1h".

(** A node watches the certificate of the key-value store. *)
Definition watched : secretManager * gset string * option error :=
  watch (CA := SecretExamples.set_cache) (MultiSecretClient_FetchSecret clients) NewSecretManager ∅
    [KVSecret_String kv] "node".

Lemma watched_kv :
  ∃ st' cache' u, watched = (st', cache', None) ∧ url_Parse (KVSecret_String kv) = Ok u ∧
    u_Scheme u = KVSecretScheme.
Proof.
  assert (watched.2 = None) as He by (vm_compute; reflexivity).
  destruct watched as [[st' cache'] err]. simpl in He. subst err.
  exists st', cache', (mkURL KVSecretScheme "" "/team/web" (values_Encode
    {[queryParamCertField := ["cert"]; queryParamPrivateKeyField := ["key"]]})).
  split_and!; [done|vm_compute; reflexivity|done].
Qed.

(** Two nodes share a certificate of the cluster, one of them also watches one
    of Vault's key-value store; then the first node leaves the shared one. *)
Definition cluster_name : string := K8sSecret_String (NewK8sSecret "certs" "cert").
Definition fetch : fetcher := MultiSecretClient_FetchSecret clients.
Definition shared0 : secretManager * gset string := (NewSecretManager, ∅).
Definition shared1 := SecretExamples.request fetch [cluster_name] "node1" shared0.
Definition shared2 := SecretExamples.request fetch
  [cluster_name; KVSecret_String kv] "node2" shared1.
Definition shared3 := SecretExamples.request fetch [KVSecret_String kv] "node1" shared2.

Lemma fetch_stores : server_stores (CU := plain_certutil) fetch.
Proof. by exists get, kv_get, issue, issuer, clients. Qed.

Lemma shared_reached :
  rtc (@secret_step canonical_range _ SecretExamples.set_cache (server_stores (CU := plain_certutil)))
    (NewSecretManager, ∅) shared3.
Proof.
  assert (@secret_step canonical_range _ SecretExamples.set_cache
    (server_stores (CU := plain_certutil)) shared0 shared1) as H1.
  { unfold shared1. apply (SecretExamples.request_step _ fetch _ _ shared0 fetch_stores).
    vm_compute. reflexivity. }
  assert (@secret_step canonical_range _ SecretExamples.set_cache
    (server_stores (CU := plain_certutil)) shared1 shared2) as H2.
  { unfold shared2. apply (SecretExamples.request_step _ fetch _ _ shared1 fetch_stores).
    vm_compute. reflexivity. }
  assert (@secret_step canonical_range _ SecretExamples.set_cache
    (server_stores (CU := plain_certutil)) shared2 shared3) as H3.
  { unfold shared3. apply (SecretExamples.request_step _ fetch _ _ shared2 fetch_stores).
    vm_compute. reflexivity. }
  exact (rtc_l _ _ _ _ H1 (rtc_l _ _ _ _ H2 (rtc_l _ _ _ _ H3 (rtc_refl _ _)))).
Qed.

End SecretClientExamples.

Import (hints) SecretClientExamples.

Lemma vault_reference_roundtrip_witness :
  ParseKVSecret (KVSecret_String SecretClientExamples.kv) = Ok SecretClientExamples.kv ∧
  ParsePKISecret (PKISecret_String SecretClientExamples.pki) = Ok SecretClientExamples.pki.
Proof.
  destruct (vault_reference_roundtrip SecretClientExamples.kv SecretClientExamples.pki) as [H1 H2].
  split; [apply H1|apply H2]; by vm_compute.
Defined.

Lemma fetched_secrets_are_named_witness :
  ∃ s e, MultiSecretClient_FetchSecret SecretClientExamples.clients (KVSecret_String SecretClientExamples.kv)
      = Ok (s, e) ∧ tlss_Name s = "".
Proof.
  exists (mkTLSSecret "" "chain" "key"), 3600%Z. split; [vm_compute; reflexivity|].
  destruct (fetched_secrets_are_named (CU := SecretClientExamples.plain_certutil) SecretClientExamples.get SecretClientExamples.kv_get
    SecretClientExamples.issue SecretClientExamples.issuer SecretClientExamples.clients
    (KVSecret_String SecretClientExamples.kv) (mkTLSSecret "" "chain" "key") 3600%Z eq_refl)
    as (u & Hu & [[Hs _]|[_ Hn]]); [vm_compute; reflexivity| |exact Hn].
  exfalso. revert Hu Hs. vm_compute. intros [= <-] [Hs|Hs]; discriminate Hs.
Defined.

Lemma certificate_reference_served_witness :
  MultiSecretClient_FetchSecret SecretClientExamples.clients
    (K8sSecret_String (NewK8sSecret "certs" "cert"))
  = Ok (mkTLSSecret (K8sSecret_String (NewK8sSecret "certs" "cert")) "chain" "key", 3600%Z).
Proof.
  apply (certificate_reference_served (CU := SecretClientExamples.plain_certutil) SecretClientExamples.get SecretClientExamples.kv_get
    SecretClientExamples.issue SecretClientExamples.issuer); [reflexivity|reflexivity|].
  exists SecretClientExamples.tls_secret, "chain". split_and!; vm_compute; reflexivity.
Defined.

Lemma cached_iff_watched_witness :
  let s := SecretClientExamples.shared3 in
  (∀ name, name ≠ "" → ¬ kv_name name → (name ∈ s.2 ↔ ∃ node, watches s.1 node name)) ∧
  (∀ name, name ≠ "" → kv_name name → name ∉ s.2) ∧
  bool_decide (SecretClientExamples.cluster_name ∈ s.2) = true ∧
  bool_decide (KVSecret_String SecretClientExamples.kv ∈ s.2) = false ∧
  bool_decide (is_Some (sm_registry s.1 !! KVSecret_String SecretClientExamples.kv)) = true.
Proof.
  intros s.
  destruct (@cached_iff_watched _ SecretClientExamples.plain_certificates
    SecretClientExamples.plain_certutil canonical_range _ _ SecretExamples.set_cache_lawful ∅
    s.2 s.1) as (_ & Hown & Hkv); [reflexivity| |].
  - rewrite <- surjective_pairing.
    exact SecretClientExamples.shared_reached.
  - split; [exact Hown|]. split; [exact Hkv|].
    split; [vm_compute; reflexivity|]. split; vm_compute; reflexivity.
Defined.

Lemma kv_certificate_not_served_witness :
  ∃ st' (cache' : gset string),
    SecretClientExamples.watched = (st', cache', None) ∧
    KVSecret_String SecretClientExamples.kv ∉ cache'.
Proof.
  destruct SecretClientExamples.watched_kv as (st' & cache' & u & Hw & Hu & Hs).
  exists st', cache'. split; [exact Hw|].
  apply (@kv_certificate_not_served _ _ SecretClientExamples.plain_certutil SecretClientExamples.get SecretClientExamples.kv_get
    SecretClientExamples.issue SecretClientExamples.issuer _ SecretExamples.set_cache SecretExamples.set_cache_lawful
    SecretClientExamples.clients u _ "node" NewSecretManager st' ∅ cache' eq_refl Hu Hs); [by vm_compute|done|done|exact Hw].
Defined.
