(* ===== verification/JsonSyntax.v ===== *)
(** * The syntax of JSON

    The program renders the configuration of Envoy with text templates, which
    know nothing of JSON.  To say that what they render is the intended
    document this file defines how a text is read: a scanner that turns it
    into tokens and a pushdown automaton that builds the document.  Both read
    their input from left to right, so that a text can be read piece by piece
    ([scan_app], [json_value_inside]).  Of numbers only integers are covered,
    of escape sequences those of two characters; a text with others is
    rejected. *)

From S2P Require Import Prelude Errors Json.

Inductive token : Type :=
  | TOpenObject | TCloseObject | TOpenArray | TCloseArray | TColon | TComma
  | TString (s : string) | TNumber (z : Z) | TBool (b : bool) | TNull.

(** Where the scanner is: between tokens, in a string, after a backslash, in a
    number or in a word. *)
Inductive mode : Type :=
  | Between
  | InString (acc : string)
  | Escaped (acc : string)
  | InNumber (acc : string)
  | InWord (acc : string).

Definition snoc (s : string) (c : ascii) : string := s +:+ String c "".

Definition is_space (c : ascii) : bool :=
  match N_of_ascii c with 9 | 10 | 13 | 32 => true | _ => false end%N.
Definition is_digit (c : ascii) : bool :=
  (48 <=? N_of_ascii c)%N && (N_of_ascii c <=? 57)%N.
Definition is_lower (c : ascii) : bool :=
  (97 <=? N_of_ascii c)%N && (N_of_ascii c <=? 122)%N.

(** A character that stands for itself in a string. *)
Definition is_plain (c : ascii) : bool :=
  (32 <=? N_of_ascii c)%N && negb (N_of_ascii c =? 34)%N && negb (N_of_ascii c =? 92)%N.

Definition punctuation (c : ascii) : option token :=
  match N_of_ascii c with
  | 123 => Some TOpenObject
  | 125 => Some TCloseObject
  | 91 => Some TOpenArray
  | 93 => Some TCloseArray
  | 58 => Some TColon
  | 44 => Some TComma
  | _ => None
  end%N.

Definition signed_value (s : string) : option Z :=
  match s with
  | String c s' =>
      if Ascii.eqb c "-" then Z.opp <$> parse_digits 0 s' else parse_digits 0 s
  | EmptyString => None
  end.

(** Integers in their canonical form. *)
Definition number_value (s : string) : option Z :=
  z ← signed_value s; if bool_decide (strconv_Itoa z = s) then Some z else None.

Definition word_value (s : string) : option token :=
  if bool_decide (s = "true") then Some (TBool true)
  else if bool_decide (s = "false") then Some (TBool false)
  else if bool_decide (s = "null") then Some TNull
  else None.

Definition escape_value (c : ascii) : option ascii :=
  match N_of_ascii c with
  | 34 => Some "034"%char
  | 92 => Some "092"%char
  | 47 => Some "047"%char
  | 98 => Some "008"%char
  | 102 => Some "012"%char
  | 110 => Some "010"%char
  | 114 => Some "013"%char
  | 116 => Some "009"%char
  | _ => None
  end%N.

(** Tokens in the order they were read, and the mode. *)
Definition scanned : Type := list token * mode.

Definition scan_between (toks : list token) (c : ascii) : option scanned :=
  if is_space c then Some (toks, Between)
  else if is_digit c || bool_decide (c = "-"%char) then Some (toks, InNumber (String c ""))
  else if is_lower c then Some (toks, InWord (String c ""))
  else if bool_decide (c = "034"%char) then Some (toks, InString "")
  else t ← punctuation c; Some (toks ++ [t], Between).

Definition scan_char (st : scanned) (c : ascii) : option scanned :=
  let (toks, m) := st in
  match m with
  | Between => scan_between toks c
  | InString acc =>
      if bool_decide (c = "034"%char) then Some (toks ++ [TString acc], Between)
      else if bool_decide (c = "092"%char) then Some (toks, Escaped acc)
      else if is_plain c then Some (toks, InString (snoc acc c))
      else None
  | Escaped acc => e ← escape_value c; Some (toks, InString (snoc acc e))
  | InNumber acc =>
      if is_digit c then Some (toks, InNumber (snoc acc c))
      else z ← number_value acc; scan_between (toks ++ [TNumber z]) c
  | InWord acc =>
      if is_lower c then Some (toks, InWord (snoc acc c))
      else t ← word_value acc; scan_between (toks ++ [t]) c
  end.

Fixpoint scan (st : scanned) (s : string) : option scanned :=
  match s with
  | EmptyString => Some st
  | String c s => st ← scan_char st c; scan st s
  end.

(** ** Building the document *)

(** An enclosing array, object, or member whose value is being read. *)
Inductive frame : Type :=
  | FArray (xs : list json)
  | FObject (fields : list (string * json))
  | FMember (fields : list (string * json)) (key : string).

Inductive expect : Type :=
  | Value | ValueOrClose | KeyOrClose | Key | Colon (key : string) | Separator.

Inductive building : Type :=
  | Building (stack : list frame) (e : expect)
  | Built (j : json).

(** A value is complete. *)
Definition deliver (j : json) (stack : list frame) : option building :=
  match stack with
  | [] => Some (Built j)
  | FArray xs :: stack => Some (Building (FArray (xs ++ [j]) :: stack) Separator)
  | FMember fields key :: stack => Some (Building (FObject (fields ++ [(key, j)]) :: stack) Separator)
  | FObject _ :: _ => None
  end.

Definition begin_value (stack : list frame) (t : token) : option building :=
  match t with
  | TOpenObject => Some (Building (FObject [] :: stack) KeyOrClose)
  | TOpenArray => Some (Building (FArray [] :: stack) ValueOrClose)
  | TString s => deliver (JString s) stack
  | TNumber z => deliver (JNumber z) stack
  | TBool b => deliver (JBool b) stack
  | TNull => deliver JNull stack
  | _ => None
  end.

Definition build_token (b : building) (t : token) : option building :=
  match b with
  | Built _ => None
  | Building stack e =>
      match e, t, stack with
      | Value, t, _ => begin_value stack t
      | ValueOrClose, TCloseArray, FArray xs :: stack => deliver (JArray xs) stack
      | ValueOrClose, t, _ => begin_value stack t
      | (KeyOrClose | Separator), TCloseObject, FObject fields :: stack => deliver (JObject fields) stack
      | Separator, TCloseArray, FArray xs :: stack => deliver (JArray xs) stack
      | Separator, TComma, FArray _ :: _ => Some (Building stack Value)
      | Separator, TComma, FObject _ :: _ => Some (Building stack Key)
      | (KeyOrClose | Key), TString key, _ => Some (Building stack (Colon key))
      | Colon key, TColon, FObject fields :: stack => Some (Building (FMember fields key :: stack) Value)
      | _, _, _ => None
      end
  end.

Fixpoint build (b : building) (toks : list token) : option building :=
  match toks with
  | [] => Some b
  | t :: toks => b ← build_token b t; build b toks
  end.

Definition nl : ascii := "010".

(** [json_read s] is the document the text is read as; the end of a text ends a
    token like a line break does. *)
Definition json_tokens (s : string) : option (list token) :=
  match scan ([], Between) (snoc s nl) with
  | Some (toks, Between) => Some toks
  | _ => None
  end.

Definition json_read (s : string) : option json :=
  toks ← json_tokens s;
  match build (Building [] Value) toks with
  | Some (Built j) => Some j
  | _ => None
  end.

(** ** Reading piece by piece *)

Lemma scan_app st s1 s2 : scan st (s1 +:+ s2) = st' ← scan st s1; scan st' s2.
Proof.
  revert st. induction s1 as [|c s1 IH]; intros st; [done|]. simpl.
  destruct (scan_char st c) as [st'|]; simpl; [apply IH|done].
Qed.

Lemma build_app b ts1 ts2 : build b (ts1 ++ ts2) = b' ← build b ts1; build b' ts2.
Proof.
  revert b. induction ts1 as [|t ts1 IH]; intros b; [done|]. simpl.
  destruct (build_token b t) as [b'|]; simpl; [apply IH|done].
Qed.

(** A text without quotes, backslashes and control characters. *)
Fixpoint plain_text (s : string) : bool :=
  match s with
  | EmptyString => true
  | String c s => is_plain c && plain_text s
  end.

Lemma scan_plain toks acc s :
  plain_text s = true → scan (toks, InString acc) s = Some (toks, InString (acc +:+ s)).
Proof.
  revert acc. induction s as [|c s IH]; intros acc; simpl.
  { intros _. by rewrite append_nil_r. }
  intros [Hc Hs]%andb_true_iff. pose proof Hc as Hp. unfold is_plain in Hc.
  rewrite !andb_true_iff, !negb_true_iff, !N.eqb_neq in Hc. destruct Hc as [[_ Hq] Hb].
  rewrite !bool_decide_false by (by intros ->). rewrite Hp. simpl.
  rewrite IH by done. unfold snoc. by rewrite <-append_assoc.
Qed.

(** Numbers. *)
Lemma digit_value_pretty (d : N) : (d < 10)%N → digit_value (pretty_N_char d) = Some (Z.of_N d).
Proof.
  intros Hd. destruct d as [|p]; [done|].
  do 4 (try destruct p as [p|p|]); try done; try lia.
Qed.

Lemma parse_digits_pretty_go (x : N) s :
  parse_digits 0 (pretty_N_go x s) = parse_digits (Z.of_N x) s.
Proof.
  revert s. induction x as [x IH] using (well_founded_induction N.lt_wf_0). intros s.
  destruct (decide (x = 0%N)) as [->|Hx]; [by rewrite pretty_N_go_0|].
  rewrite pretty_N_go_step by lia. rewrite IH by (apply N.div_lt; lia). simpl.
  rewrite digit_value_pretty by (apply N.mod_lt; lia). simpl.
  f_equal. pose proof (N.div_mod x 10 ltac:(lia)). lia.
Qed.

Lemma parse_digits_pretty (n : N) : parse_digits 0 (pretty n) = Some (Z.of_N n).
Proof.
  unfold pretty, pretty_N. case_decide as Hn; [by subst|]. by rewrite parse_digits_pretty_go.
Qed.

(** The digits of a number scan as digits. *)
Fixpoint all_digits (s : string) : bool :=
  match s with
  | EmptyString => true
  | String c s => is_digit c && all_digits s
  end.

Lemma pretty_N_char_digit d : is_digit (pretty_N_char d) = true.
Proof. unfold pretty_N_char. by repeat case_match. Qed.

Lemma pretty_go_digits (x : N) s : all_digits s = true → all_digits (pretty_N_go x s) = true.
Proof.
  revert s. induction x as [x IH] using (well_founded_induction N.lt_wf_0). intros s Hs.
  destruct (decide (x = 0%N)) as [->|Hx]; [by rewrite pretty_N_go_0|].
  rewrite pretty_N_go_step by lia. apply IH; [apply N.div_lt; lia|]. simpl.
  by rewrite pretty_N_char_digit.
Qed.

Lemma pretty_digits (n : N) : ∃ c s, pretty n = String c s ∧ is_digit c = true ∧ all_digits s = true.
Proof.
  assert (all_digits (pretty n) = true ∧ pretty n ≠ "") as [Hd Hne].
  { unfold pretty, pretty_N. case_decide; [done|]. split; [by apply pretty_go_digits|].
    rewrite pretty_N_go_step by lia. intros Hnil.
    pose proof (parse_digits_pretty_go (n `div` 10) (String (pretty_N_char (n `mod` 10)) "")) as Hp.
    rewrite Hnil in Hp. simpl in Hp. rewrite digit_value_pretty in Hp by (apply N.mod_lt; lia).
    injection Hp as Hp. pose proof (N.div_mod n 10 ltac:(lia)). lia. }
  destruct (pretty n) as [|c s]; [done|]. simpl in Hd. apply andb_true_iff in Hd as [??]. by exists c, s.
Qed.

Lemma number_value_Itoa z : number_value (strconv_Itoa z) = Some z.
Proof.
  unfold number_value. assert (signed_value (strconv_Itoa z) = Some z) as ->;
    [|simpl; by rewrite bool_decide_true].
  unfold strconv_Itoa. destruct z as [|p|p]; [done| |].
  - change (pretty (Z.pos p)) with (pretty (N.pos p)).
    pose proof (parse_digits_pretty (N.pos p)) as Hp.
    destruct (pretty_digits (N.pos p)) as (c & s & Hc & Hd & _). rewrite Hc in Hp |- *.
    simpl. by destruct (Ascii.eqb_spec c "-") as [->|_].
  - change (pretty (Z.neg p)) with (String "-" (pretty (N.pos p))). simpl.
    by rewrite parse_digits_pretty.
Qed.

Lemma scan_digits toks acc s :
  all_digits s = true → scan (toks, InNumber acc) s = Some (toks, InNumber (acc +:+ s)).
Proof.
  revert acc. induction s as [|c s IH]; intros acc; simpl.
  { intros _. by rewrite append_nil_r. }
  intros [Hc Hs]%andb_true_iff. rewrite Hc. simpl. rewrite IH by done.
  unfold snoc. by rewrite <-append_assoc.
Qed.

Lemma is_digit_not_space c : is_digit c = true → is_space c = false.
Proof. destruct c as [[] [] [] [] [] [] [] []]; done. Qed.

Lemma scan_Itoa toks z :
  scan (toks, Between) (strconv_Itoa z) = Some (toks, InNumber (strconv_Itoa z)).
Proof.
  assert (HN : ∀ n : N, scan (toks, Between) (pretty n) = Some (toks, InNumber (pretty n))).
  { intros n. destruct (pretty_digits n) as (c & s & -> & Hc & Hs). simpl. unfold scan_between.
    rewrite is_digit_not_space, Hc by done. simpl. by rewrite scan_digits. }
  unfold strconv_Itoa. destruct z as [|p|p]; [done|apply (HN (N.pos p))|].
  change (pretty (Z.neg p)) with (String "-" (pretty (N.pos p))).
  destruct (pretty_digits (N.pos p)) as (c & s & -> & Hc & Hs). simpl. rewrite Hc. simpl.
  rewrite scan_digits by done. done.
Qed.

(** ** A document inside another one *)

Lemma scan_between_frame pre toks c toks' m' :
  scan_between toks c = Some (toks', m') → scan_between (pre ++ toks) c = Some (pre ++ toks', m').
Proof.
  unfold scan_between. repeat case_match; intros; simplify_eq; try done.
  destruct (punctuation c); simplify_eq/=. by rewrite app_assoc.
Qed.

Lemma scan_char_frame pre toks m c toks' m' :
  scan_char (toks, m) c = Some (toks', m') →
  scan_char (pre ++ toks, m) c = Some (pre ++ toks', m').
Proof.
  destruct m; simpl.
  - apply scan_between_frame.
  - repeat case_match; intros; simplify_eq; [by rewrite app_assoc|done..].
  - by destruct (escape_value c); intros; simplify_eq/=.
  - case_match; [by intros; simplify_eq|]. destruct (number_value _); simpl; [|done].
    rewrite <-app_assoc. apply scan_between_frame.
  - case_match; [by intros; simplify_eq|]. destruct (word_value _); simpl; [|done].
    rewrite <-app_assoc. apply scan_between_frame.
Qed.

Lemma scan_frame pre toks m s toks' m' :
  scan (toks, m) s = Some (toks', m') → scan (pre ++ toks, m) s = Some (pre ++ toks', m').
Proof.
  revert toks m. induction s as [|c s IH]; intros toks m; cbn [scan]; [by intros [= <- <-]|].
  destruct (scan_char (toks, m) c) as [[toks1 m1]|] eqn:Hc; [|done]. intros Hs.
  rewrite (scan_char_frame _ _ _ _ _ _ Hc). by apply IH.
Qed.

(** A state of the automaton on top of enclosing frames. *)
Definition on_top (base : list frame) (b : building) : option building :=
  match b with
  | Building stack e => Some (Building (stack ++ base) e)
  | Built j => deliver j base
  end.

Lemma deliver_on_top base j stack b : deliver j stack = Some b → deliver j (stack ++ base) = on_top base b.
Proof. destruct stack as [|[] stack]; intros; by simplify_eq/=. Qed.

Lemma build_token_on_top base stack e t b :
  build_token (Building stack e) t = Some b → build_token (Building (stack ++ base) e) t = on_top base b.
Proof.
  assert (begin_value stack t = Some b → begin_value (stack ++ base) t = on_top base b) as Hbegin.
  { destruct t; simpl; intros; simplify_eq/=; try done; by apply deliver_on_top. }
  destruct e, t, stack as [|[] stack]; simpl; intros Hb; try done; try (by apply Hbegin);
    try (by apply deliver_on_top); by simplify_eq/=.
Qed.

Lemma build_on_top base stack e toks j :
  build (Building stack e) toks = Some (Built j) → build (Building (stack ++ base) e) toks = deliver j base.
Proof.
  revert stack e. induction toks as [|t toks IH]; intros stack e; [done|].
  cbn [build]. destruct (build_token (Building stack e) t) as [b|] eqn:Ht; [|done]. intros Hb.
  rewrite (build_token_on_top _ _ _ _ _ Ht). destruct b as [stack1 e1|j1]; simpl; [by apply IH|].
  destruct toks as [|t1 toks]; [|done]. simpl in Hb. injection Hb as ->. simpl. by destruct (deliver j base).
Qed.

(** Wherever a value is expected, a text that reads as a document and is
    followed by a line break contributes that document. *)
Lemma json_value_inside s j :
  json_read s = Some j →
  ∃ toks, (∀ pre, scan (pre, Between) (snoc s nl) = Some (pre ++ toks, Between)) ∧
          (∀ stack, build (Building stack Value) toks = deliver j stack).
Proof.
  unfold json_read, json_tokens. destruct (scan _ _) as [[toks []]|] eqn:Hs; try done. simpl.
  destruct (build _ toks) as [[|j']|] eqn:Hb; try done. intros [= ->]. exists toks. split.
  - intros pre. rewrite <-(app_nil_r pre) at 1. by apply scan_frame.
  - intros stack. by apply (build_on_top stack []).
Qed.
