(* ===== verification/CertManager.v ===== *)
(** * The certificates of the process ([internal/consul/certmanager.go])

    [CertManager] follows the CA roots and the leaf certificate that Consul
    issues to the process, keeps them in memory and writes them to a
    directory Envoy reads them from.  A consumer waits until all of them were
    written.  The two watches run concurrently; the lock makes each handler
    atomic.  The file system and the parsing of certificates are classes; a
    channel that is closed twice panics ([None]). *)

From S2P Require Import Prelude Errors Builder.

(** ** Paths *)

(** [path.Clean], one element at a time: [cleaned] is the part that is already
    clean, last element first. *)
Definition clean_step (rooted : bool) (cleaned : list string) (elem : string) : list string :=
  if bool_decide (elem = "") || bool_decide (elem = ".") then cleaned
  else if bool_decide (elem = "..") then
    match cleaned with
    | last :: rest => if bool_decide (last = "..") then elem :: cleaned else rest
    | [] => if rooted then [] else [elem]
    end
  else elem :: cleaned.

Definition path_Clean (p : string) : string :=
  let rooted := strings_HasPrefix p "/" in
  let elems := rev (foldl (clean_step rooted) [] (strings_Split "/" p)) in
  match elems with
  | [] => if rooted then "/" else "."
  | _ => (if rooted then "/" else "") +:+ strings_Join elems "/"
  end.

(** [path.Join] of a directory and a file name. *)
Definition path_Join (dir file : string) : string :=
  if bool_decide (dir = "") then path_Clean file else path_Clean (dir +:+ "/" +:+ file).

(** ** Outside *)

(** The files and their contents.  A write that fails may leave anything in
    its own file. *)
Class FileSystem (W : Type) : Type := {
  file : W → string → option string;
  os_WriteFile : W → string → string → W * option error;
  os_WriteFile_ok : ∀ w p data w', os_WriteFile w p data = (w', None) → file w' p = Some data;
  os_WriteFile_kept : ∀ w p data w' err, os_WriteFile w p data = (w', err) →
    is_Some (file w p) → is_Some (file w' p);
  os_WriteFile_frame : ∀ w p data w' err, os_WriteFile w p data = (w', err) →
    ∀ q, q ≠ p → file w' q = file w q
}.

(** [crypto/tls] and [crypto/x509]; [net.ParseIP]. *)
Class TLSParsing : Type := {
  tls_Certificate : Type;
  x509_CertPool : Type;
  tls_X509KeyPair : string → string → result tls_Certificate;
  x509_NewCertPool : x509_CertPool;
  AppendCertsFromPEM : x509_CertPool → string → x509_CertPool;
  net_ParseIP : string → bool
}.

(** ** The manager *)

Definition RootCAFile : string := "root-ca.pem".
Definition ClientCertFile : string := "client.crt".
Definition ClientPrivateKeyFile : string := "client.pem".
Definition SDSCertConfigFile : string := "tls-sds.json".
Definition SDSCAConfigFile : string := "validation-context-sds.json".
Definition defaultSDSAddress : string := "localhost".
Definition defaultSDSPort : Z := 9090.

Record CertManagerOptions : Type := mkCertManagerOptions {
  cmo_Directory : string;
  cmo_PrimaryDatacenter : string;
  cmo_SDSAddress : string;
  cmo_SDSPort : Z
}.

Definition DefaultCertManagerOptions : CertManagerOptions :=
  mkCertManagerOptions "" "" defaultSDSAddress defaultSDSPort.

(** Answers of Consul's watches. *)
Record CARoot : Type := mkCARoot { root_RootCertPEM : string; root_Active : bool }.
Record LeafCert : Type := mkLeafCert { leaf_CertPEM : string; leaf_PrivateKeyPEM : string }.

(** What a handler may be passed; [None] is a nil pointer of the type. *)
Inductive watch_value : Type :=
  | WatchNil
  | WatchOther
  | WatchRoots (v : option (list CARoot))
  | WatchLeaf (v : option LeafCert).

Definition AddressTypeForAddress {TP : TLSParsing} (address : string) : string :=
  if net_ParseIP address then "STATIC" else "STRICT_DNS".

(** ** The templates *)

Record sdsClusterArgs : Type := mkSDSClusterArgs {
  sca_Name : string;
  sca_CertSDSConfigPath : string;
  sca_CASDSConfigPath : string;
  sca_AddressType : string;
  sca_SDSAddress : string;
  sca_SDSPort : Z
}.

Record sdsCertConfigArgs : Type := mkSDSCertConfigArgs {
  scc_CertPath : string;
  scc_CertPrivateKeyPath : string
}.

(** The templates below write a double quote as a single one. *)
Fixpoint quoted (s : string) : string :=
  match s with
  | EmptyString => EmptyString
  | String c s => String (if Ascii.eqb c "'" then "034"%char else c) (quoted s)
  end.

Definition sdsClusterTemplate (a : sdsClusterArgs) : string :=
  quoted "
{
  'name':'" +:+
  sca_Name a +:+
  quoted "',
  'connect_timeout':'5s',
  'type':'" +:+
  sca_AddressType a +:+
  quoted "',
  'transport_socket':{
     'name':'tls',
     'typed_config':{
        '@type':'type.googleapis.com/envoy.extensions.transport_sockets.tls.v3.UpstreamTlsContext',
        'common_tls_context':{
           'tls_certificate_sds_secret_configs':[
              {
                 'name':'tls_sds',
                 'sds_config':{
                    'path':'" +:+
  sca_CertSDSConfigPath a +:+
  quoted "'
                 }
              }
           ],
           'validation_context_sds_secret_config':{
              'name':'validation_context_sds',
              'sds_config':{
                 'path':'" +:+
  sca_CASDSConfigPath a +:+
  quoted "'
              }
           }
        }
     }
  },
  'http2_protocol_options':{},
  'loadAssignment':{
     'clusterName':'" +:+
  sca_Name a +:+
  quoted "',
     'endpoints':[
        {
           'lbEndpoints':[
              {
                 'endpoint':{
                    'address':{
                       'socket_address':{
                          'address':'" +:+
  sca_SDSAddress a +:+
  quoted "',
                          'port_value':" +:+
  strconv_Itoa (sca_SDSPort a) +:+
  quoted "
                       }
                    }
                 }
              }
           ]
        }
     ]
  }
}
".

Definition sdsCertConfigTemplate (a : sdsCertConfigArgs) : string :=
  quoted "
{
   'resources': [
     {
       '@type': 'type.googleapis.com/envoy.extensions.transport_sockets.tls.v3.Secret',
       'name': 'tls_sds',
       'tls_certificate': {
         'certificate_chain': {
           'filename': '" +:+
  scc_CertPath a +:+
  quoted "'
         },
         'private_key': {
           'filename': '" +:+
  scc_CertPrivateKeyPath a +:+
  quoted "'
         }
       }
     }
   ]
 }
 ".

Definition sdsCAConfigTemplate (caPath : string) : string :=
  quoted "
 {
   'resources': [
     {
       '@type': 'type.googleapis.com/envoy.extensions.transport_sockets.tls.v3.Secret',
       'name': 'validation_context_sds',
       'validation_context': {
         'trusted_ca': {
           'filename': '" +:+
  caPath +:+
  quoted "'
         }
       }
     }
   ]
 }
 ".

Section manager.
Context {TP : TLSParsing} {W : Type} {FS : FileSystem W}.

(** [initializeSignal] is the channel: whether it is closed. *)
Record CertManager : Type := mkCertManager {
  cm_service : string;
  cm_directory : string;
  cm_configDirectory : string;
  cm_primaryDatacenter : string;
  cm_sdsAddress : string;
  cm_sdsPort : Z;
  cm_signalled : bool;
  cm_initializeSignal : bool;
  cm_ca : option string;
  cm_certificate : option string;
  cm_privateKey : option string;
  cm_tlsCertificate : option tls_Certificate;
  cm_rootCertificatePool : option x509_CertPool
}.

Definition NewCertManager (service : string) (options : option CertManagerOptions) : CertManager :=
  let options := default DefaultCertManagerOptions options in
  mkCertManager service (cmo_Directory options) (cmo_Directory options)
    (cmo_PrimaryDatacenter options) (cmo_SDSAddress options) (cmo_SDSPort options)
    false false None None None None None.

Definition set_roots (ca : option string) (pool : x509_CertPool) (c : CertManager) : CertManager :=
  mkCertManager (cm_service c) (cm_directory c) (cm_configDirectory c) (cm_primaryDatacenter c)
    (cm_sdsAddress c) (cm_sdsPort c) (cm_signalled c) (cm_initializeSignal c) ca
    (cm_certificate c) (cm_privateKey c) (cm_tlsCertificate c) (Some pool).
Definition set_leaf (certificate privateKey : string) (cert : tls_Certificate) (c : CertManager) :
    CertManager :=
  mkCertManager (cm_service c) (cm_directory c) (cm_configDirectory c) (cm_primaryDatacenter c)
    (cm_sdsAddress c) (cm_sdsPort c) (cm_signalled c) (cm_initializeSignal c) (cm_ca c)
    (Some certificate) (Some privateKey) (Some cert) (cm_rootCertificatePool c).
Definition set_signalled (c : CertManager) : CertManager :=
  mkCertManager (cm_service c) (cm_directory c) (cm_configDirectory c) (cm_primaryDatacenter c)
    (cm_sdsAddress c) (cm_sdsPort c) true true (cm_ca c) (cm_certificate c) (cm_privateKey c)
    (cm_tlsCertificate c) (cm_rootCertificatePool c).

(** Closing a closed channel panics. *)
Definition signal (c : CertManager) : option CertManager :=
  let isInitialized := bool_decide (is_Some (cm_ca c)) && bool_decide (is_Some (cm_certificate c)) &&
    bool_decide (is_Some (cm_privateKey c)) in
  if negb (cm_signalled c) && isInitialized then
    if cm_initializeSignal c then None else Some (set_signalled c)
  else Some c.

(** Writing a cached value, if there is one. *)
Definition write_cached (w : W) (path : string) (value : option string) (message : string) :
    W * option error :=
  match value with
  | None => (w, None)
  | Some data =>
      let (w, err) := os_WriteFile w path data in (w, ErrWrap message <$> err)
  end.

Definition persist (c : CertManager) (w : W) : option (CertManager * W * option error) :=
  let rootCAFile := path_Join (cm_directory c) RootCAFile in
  let clientCertFile := path_Join (cm_directory c) ClientCertFile in
  let clientPrivateKeyFile := path_Join (cm_directory c) ClientPrivateKeyFile in
  let '(w, err) :=
    if bool_decide (cm_directory c ≠ "") then
      match write_cached w rootCAFile (cm_ca c) "error writing root CA fiile: " with
      | (w, Some err) => (w, Some err)
      | (w, None) =>
          match write_cached w clientCertFile (cm_certificate c) "error writing client cert fiile: " with
          | (w, Some err) => (w, Some err)
          | (w, None) =>
              write_cached w clientPrivateKeyFile (cm_privateKey c)
                "error writing client private key fiile: "
          end
      end
    else (w, None) in
  match err with
  | Some err => Some (c, w, Some err)
  | None => c ← signal c; Some (c, w, None)
  end.

(** A handler only logs the error of [persist]. *)
Definition persisted (r : option (CertManager * W * option error)) : option (CertManager * W) :=
  res ← r;
  let '(c, w, _) := res : CertManager * W * option error in Some (c, w).

(** The active root is the last one that is marked active. *)
Definition active_root (ca : option string) (roots : list CARoot) : option string :=
  foldl (λ ca root, if root_Active root then Some (root_RootCertPEM root) else ca) ca roots.

Definition handleRootWatch (raw : watch_value) (c : CertManager) (w : W) : option (CertManager * W) :=
  match raw with
  | WatchRoots (Some v) =>
      let roots := foldl (λ pool root, AppendCertsFromPEM pool (root_RootCertPEM root))
        x509_NewCertPool v in
      persisted (persist (set_roots (active_root (cm_ca c) v) roots c) w)
  | _ => Some (c, w)
  end.

Definition handleLeafWatch (raw : watch_value) (c : CertManager) (w : W) : option (CertManager * W) :=
  match raw with
  | WatchLeaf (Some v) =>
      match tls_X509KeyPair (leaf_CertPEM v) (leaf_PrivateKeyPEM v) with
      | Err _ => Some (c, w)
      | Ok cert => persisted (persist (set_leaf (leaf_CertPEM v) (leaf_PrivateKeyPEM v) cert c) w)
      end
  | _ => Some (c, w)
  end.

(** [Manage] up to where it waits for its context: the watches were parsed, or
    not, and the leaf certificate was fetched once, or not. *)
Definition Manage (rootWatch leafWatch : result unit) (leafCert : result (option LeafCert))
    (c : CertManager) (w : W) : option (CertManager * W * option error) :=
  match rootWatch, leafWatch with
  | Err err, _ | Ok _, Err err => Some (c, w, Some err)
  | Ok _, Ok _ =>
      match leafCert with
      | Err err => Some (c, w, Some err)
      | Ok leafCert =>
          res ← handleLeafWatch (WatchLeaf leafCert) c w;
          let (c, w) := res : CertManager * W in Some (c, w, None)
      end
  end.

(** [WaitForWrite]: what it may return, given that its context is done or not;
    with nothing to return it blocks. *)
Definition WaitForWrite (ctx_done : bool) (c : CertManager) : list (option error) :=
  (if cm_initializeSignal c then [None] else []) ++
  (if ctx_done then [Some (ErrString "wait canceled")] else []).

Definition RootCA (c : CertManager) : option string := cm_ca c.
Definition RootPool (c : CertManager) : option x509_CertPool := cm_rootCertificatePool c.
Definition Certificate (c : CertManager) : option string := cm_certificate c.
Definition PrivateKey (c : CertManager) : option string := cm_privateKey c.
Definition TLSCertificate (c : CertManager) : option tls_Certificate := cm_tlsCertificate c.

(** [RenderSDSConfig] *)
Definition RenderSDSConfig (c : CertManager) (w : W) : W * result string :=
  if bool_decide (cm_directory c = "") then
    (w, Err (ErrString "CertManager must be configured to persist to a directory"))
  else
    let rootCAFile := path_Join (cm_directory c) RootCAFile in
    let clientCertFile := path_Join (cm_directory c) ClientCertFile in
    let clientPrivateKeyFile := path_Join (cm_directory c) ClientPrivateKeyFile in
    let sdsCertConfigPath := path_Join (cm_directory c) SDSCertConfigFile in
    let sdsCAConfigPath := path_Join (cm_directory c) SDSCAConfigFile in
    let sdsCertConfig := sdsCertConfigTemplate (mkSDSCertConfigArgs clientCertFile clientPrivateKeyFile) in
    let sdsCAConfig := sdsCAConfigTemplate rootCAFile in
    match os_WriteFile w (path_Join (cm_configDirectory c) SDSCertConfigFile) sdsCertConfig with
    | (w, Some err) => (w, Err err)
    | (w, None) =>
        match os_WriteFile w (path_Join (cm_configDirectory c) SDSCAConfigFile) sdsCAConfig with
        | (w, Some err) => (w, Err err)
        | (w, None) =>
            (w, Ok (sdsClusterTemplate (mkSDSClusterArgs "sds-cluster" sdsCertConfigPath
                      sdsCAConfigPath (AddressTypeForAddress (cm_sdsAddress c)) (cm_sdsAddress c)
                      (cm_sdsPort c))))
        end
    end.

End manager.

(** ** Properties *)

(** A name that is one clean element of a path. *)
Definition plain_name (f : string) : Prop :=
  strings_Split "/" f = [f] ∧ f ≠ "" ∧ f ≠ "." ∧ f ≠ "..".

Lemma clean_step_plain rooted cleaned f :
  plain_name f → clean_step rooted cleaned f = f :: cleaned.
Proof.
  intros (_ & H1 & H2 & H3). unfold clean_step. by rewrite !bool_decide_false.
Qed.

Lemma strings_Join_snoc xs f :
  strings_Join (xs ++ [f]) "/" = (match xs with [] => "" | _ => strings_Join xs "/" +:+ "/" end) +:+ f.
Proof.
  induction xs as [|x xs IH]; [done|]. destruct xs as [|y xs]; [apply append_assoc|].
  change (strings_Join ((x :: y :: xs) ++ [f]) "/") with (x +:+ "/" +:+ strings_Join ((y :: xs) ++ [f]) "/").
  rewrite IH. change (strings_Join (x :: y :: xs) "/") with (x +:+ "/" +:+ strings_Join (y :: xs) "/").
  by rewrite <-!append_assoc.
Qed.

(** Cleaning a path that ends in a plain name only depends on the rest. *)
Lemma path_Join_plain dir : ∃ p, ∀ f, plain_name f → path_Join dir f = p +:+ f.
Proof.
  unfold path_Join. destruct (bool_decide (dir = "")) eqn:Hd.
  - exists "". intros f Hf. pose proof Hf as (Hs & Hne & _). unfold path_Clean.
    rewrite Hs. simpl. rewrite clean_step_plain by done. simpl.
    assert (strings_HasPrefix f "/" = false) as ->; [|done].
    destruct f as [|c f]; [done|]. apply token_cons in Hs as [Hc _]. unfold strings_HasPrefix. cbn [String.prefix].
    destruct (ascii_dec "/" c) as [<-|]; [by destruct Hc|done].
  - set (cleaned := foldl (clean_step (strings_HasPrefix dir "/")) [] (strings_Split "/" dir)).
    exists ((if strings_HasPrefix dir "/" then "/" else "") +:+
      match rev cleaned with [] => "" | _ => strings_Join (rev cleaned) "/" +:+ "/" end).
    intros f Hf. unfold path_Clean.
    assert (strings_HasPrefix (dir +:+ "/" +:+ f) "/" = strings_HasPrefix dir "/") as Hp.
    { apply bool_decide_eq_false in Hd. destruct dir as [|c d]; [done|].
      change (String c d +:+ "/" +:+ f) with (String c (d +:+ "/" +:+ f)).
      unfold strings_HasPrefix. cbn [String.prefix]. destruct (ascii_dec "/" c); [|done].
      etrans; [apply strings_HasPrefix_nil|symmetry; apply strings_HasPrefix_nil]. }
    rewrite Hp. pose proof Hf as [Hs _].
    change (dir +:+ "/" +:+ f) with (dir +:+ String "/" f). rewrite strings_Split_snoc, Hs.
    rewrite foldl_app. fold cleaned. simpl. rewrite clean_step_plain by done. simpl.
    rewrite strings_Join_snoc.
    destruct (rev cleaned ++ [f]) eqn:Hnil; [by destruct (rev cleaned)|].
    by rewrite <-append_assoc.
Qed.

Lemma path_Join_ne dir f g : plain_name f → plain_name g → f ≠ g → path_Join dir f ≠ path_Join dir g.
Proof.
  intros Hf Hg Hne. destruct (path_Join_plain dir) as [p Hp]. rewrite !Hp by done.
  by intros ?%append_inj.
Qed.

(** The files the certificates are kept in. *)
Definition cert_files : list string := [RootCAFile; ClientCertFile; ClientPrivateKeyFile].

Lemma plain_files : Forall plain_name (cert_files ++ [SDSCertConfigFile; SDSCAConfigFile]).
Proof. repeat constructor; done. Qed.

#[local] Ltac other_file :=
  apply path_Join_ne; [by (eapply Forall_forall; [apply plain_files|]; set_solver)..|done].

Section properties.
Context {TP : TLSParsing} {W : Type} {FS : FileSystem W}.

Lemma write_cached_ok w p value message w' :
  write_cached w p value message = (w', None) →
  (∀ data, value = Some data → file w' p = Some data) ∧ (∀ q, q ≠ p → file w' q = file w q).
Proof.
  unfold write_cached. destruct value as [data|]; [|intros [= <-]; by split].
  destruct (os_WriteFile w p data) as [w1 [e|]] eqn:Hw; [done|]. intros [= <-]. split.
  - intros data' [= <-]. by eapply os_WriteFile_ok.
  - by eapply os_WriteFile_frame.
Qed.

(** No write loses a file. *)
Lemma write_cached_kept w p value message w' err :
  write_cached w p value message = (w', err) → ∀ q, is_Some (file w q) → is_Some (file w' q).
Proof.
  unfold write_cached. destruct value as [data|]; [|by intros [= <- _]].
  destruct (os_WriteFile w p data) as [w1 e] eqn:Hw. intros [= <- _] q Hq.
  destruct (decide (q = p)) as [->|Hne]; [by eapply os_WriteFile_kept|].
  by rewrite (os_WriteFile_frame _ _ _ _ _ Hw).
Qed.

(** The value, if there is one, is in its file. *)
Definition on_disk (dir : string) (w : W) (f : string) (value : option string) : Prop :=
  ∀ data, value = Some data → file w (path_Join dir f) = Some data.

(** What the writes of [persist] do to the files. *)
Lemma persist_spec c w c' w' err :
  persist c w = Some (c', w', err) →
  (∀ q, is_Some (file w q) → is_Some (file w' q)) ∧
  match err with
  | Some _ => c' = c
  | None =>
      signal c = Some c' ∧
      (cm_directory c ≠ "" →
         on_disk (cm_directory c) w' RootCAFile (cm_ca c) ∧
         on_disk (cm_directory c) w' ClientCertFile (cm_certificate c) ∧
         on_disk (cm_directory c) w' ClientPrivateKeyFile (cm_privateKey c))
  end.
Proof.
  unfold persist. case_bool_decide as Hdir.
  2:{ destruct (signal c) as [c1|] eqn:Hs; [|done]. intros [= <- <- <-]. by split. }
  destruct (write_cached w _ _ _) as [w1 e1] eqn:H1. pose proof (write_cached_kept _ _ _ _ _ _ H1) as K1.
  destruct e1 as [e1|]; [by intros [= <- <- <-]|].
  destruct (write_cached w1 _ _ _) as [w2 e2] eqn:H2. pose proof (write_cached_kept _ _ _ _ _ _ H2) as K2.
  destruct e2 as [e2|]; [intros [= <- <- <-]; split; [by auto|done]|].
  destruct (write_cached w2 _ _ _) as [w3 e3] eqn:H3. pose proof (write_cached_kept _ _ _ _ _ _ H3) as K3.
  destruct e3 as [e3|]; [intros [= <- <- <-]; split; [by auto|done]|].
  destruct (signal c) as [c1|] eqn:Hs; [|done]. intros [= <- <- <-]. split; [by auto|].
  split; [done|]. intros _.
  apply write_cached_ok in H1 as [V1 _], H2 as [V2 F2], H3 as [V3 F3]. split_and!.
  - intros data Hd. rewrite F3 by other_file. rewrite F2 by other_file. by apply V1.
  - intros data Hd. rewrite F3 by other_file. by apply V2.
  - exact V3.
Qed.

(** ** Reachable states *)

(** A watch reports something, or the configuration is rendered. *)
Inductive cert_step : CertManager * W → CertManager * W → Prop :=
  | StepRoot raw c w c' w' : handleRootWatch raw c w = Some (c', w') → cert_step (c, w) (c', w')
  | StepLeaf raw c w c' w' : handleLeafWatch raw c w = Some (c', w') → cert_step (c, w) (c', w')
  | StepRender c w w' r : RenderSDSConfig c w = (w', r) → cert_step (c, w) (c, w').

(** The cached leaf certificate matches its private key. *)
Definition leaf_matches (c : CertManager) : Prop :=
  (cm_certificate c = None ∧ cm_privateKey c = None ∧ cm_tlsCertificate c = None) ∨
  ∃ cert key tls, cm_certificate c = Some cert ∧ cm_privateKey c = Some key ∧
    cm_tlsCertificate c = Some tls ∧ tls_X509KeyPair cert key = Ok tls.

Record cert_inv (dir : string) (c : CertManager) (w : W) : Prop := {
  inv_dir : cm_directory c = dir;
  inv_signal : cm_initializeSignal c = cm_signalled c;
  inv_leaf : leaf_matches c;
  inv_ready : cm_signalled c = true →
    is_Some (cm_ca c) ∧ is_Some (cm_certificate c) ∧
    (dir ≠ "" → ∀ f, f ∈ cert_files → is_Some (file w (path_Join dir f)))
}.

Lemma signal_total dir c w : cert_inv dir c w → is_Some (signal c).
Proof.
  intros [_ Hs _ _]. unfold signal. destruct (cm_signalled c); [by eauto|]. rewrite Hs.
  destruct (_ && _); by eauto.
Qed.

Lemma persist_inv dir c w c' w' err :
  cert_inv dir c w → persist c w = Some (c', w', err) → cert_inv dir c' w'.
Proof.
  intros [Hd Hs Hl Hr] (Hkept & Hres)%persist_spec. destruct err as [e|].
  { subst c'. split; try done. intros Hsig. destruct (Hr Hsig) as (? & ? & Hf).
    split_and!; try done. intros Hdir f Hin. by apply Hkept, Hf. }
  destruct Hres as [Hsignal Hdisk]. unfold signal in Hsignal.
  destruct (negb (cm_signalled c) && _) eqn:Hinit; [|injection Hsignal as <-].
  - rewrite Hs in Hsignal. rewrite !andb_true_iff, !bool_decide_eq_true, negb_true_iff in Hinit.
    destruct Hinit as [Hns [[Hca Hcert] Hkey]]. rewrite Hns in Hsignal. injection Hsignal as <-.
    split; [done|done|done|]. intros _. split_and!; [done|done|]. subst dir.
    intros Hdir f Hf. destruct (Hdisk Hdir) as (D1 & D2 & D3).
    destruct Hca as [ca Hca], Hcert as [cert Hcert], Hkey as [key Hkey].
    unfold cert_files in Hf. rewrite !elem_of_cons, elem_of_nil in Hf. destruct Hf as [->|[->|[->|[]]]].
    + rewrite (D1 ca) by done. by eauto.
    + rewrite (D2 cert) by done. by eauto.
    + rewrite (D3 key) by done. by eauto.
  - split; try done. intros Hsig. destruct (Hr Hsig) as (? & ? & Hf).
    split_and!; try done. intros Hdir f Hin. by apply Hkept, Hf.
Qed.

Lemma persist_total dir c w : cert_inv dir c w → is_Some (persist c w).
Proof.
  intros Hinv. unfold persist. destruct (signal_total dir c w Hinv) as [c1 ->].
  destruct (if bool_decide _ then _ else _) as [w1 [e|]]; by eauto.
Qed.

Lemma persisted_inv dir c w c' w' :
  cert_inv dir c w → persisted (persist c w) = Some (c', w') → cert_inv dir c' w'.
Proof.
  intros Hinv. destruct (persist c w) as [[[c1 w1] e]|] eqn:Hp; [|done]. intros [= <- <-].
  by eapply persist_inv.
Qed.

Lemma active_root_Some ca roots : is_Some ca → is_Some (active_root ca roots).
Proof.
  revert ca. unfold active_root. induction roots as [|r roots IH]; intros ca Hca; [done|]. simpl.
  apply IH. destruct (root_Active r); [by eauto|done].
Qed.

Lemma set_roots_inv dir c w roots pool :
  cert_inv dir c w → cert_inv dir (set_roots (active_root (cm_ca c) roots) pool c) w.
Proof.
  intros [Hd Hs Hl Hr]. split; try done. intros Hsig. destruct (Hr Hsig) as (? & ? & ?).
  split_and!; try done. by apply active_root_Some.
Qed.

Lemma set_leaf_inv dir c w cert key tls :
  tls_X509KeyPair cert key = Ok tls → cert_inv dir c w → cert_inv dir (set_leaf cert key tls c) w.
Proof.
  intros Hpair [Hd Hs Hl Hr]. split; [done|done| |].
  - right. by exists cert, key, tls.
  - intros Hsig. destruct (Hr Hsig) as (? & ? & ?). split_and!; [done|by eexists|done].
Qed.

Lemma RenderSDSConfig_kept c w w' r :
  RenderSDSConfig c w = (w', r) → ∀ q, is_Some (file w q) → is_Some (file w' q).
Proof.
  assert (∀ p data (w0 w1 : W) e, os_WriteFile w0 p data = (w1, e) → ∀ q, is_Some (file w0 q) → is_Some (file w1 q))
    as Hkept.
  { intros p data w0 w1 e Hw q Hq. destruct (decide (q = p)) as [->|Hne]; [by eapply os_WriteFile_kept|].
    by rewrite (os_WriteFile_frame _ _ _ _ _ Hw). }
  unfold RenderSDSConfig. case_bool_decide; [by intros [= <- _]|].
  destruct (os_WriteFile w _ _) as [w1 e1] eqn:H1. pose proof (Hkept _ _ _ _ _ H1) as K1. destruct e1; [by intros [= <- _]|].
  destruct (os_WriteFile w1 _ _) as [w2 e2] eqn:H2. pose proof (Hkept _ _ _ _ _ H2) as K2.
  destruct e2; intros [= <- _]; by auto.
Qed.

Lemma cert_step_inv dir a b : cert_step a b → cert_inv dir a.1 a.2 → cert_inv dir b.1 b.2.
Proof.
  intros [raw c w c' w' Hh|raw c w c' w' Hh|c w w' r Hh]; simpl; intros Hinv.
  - destruct raw as [| |[roots|]|v]; try by injection Hh as <- <-.
    eapply persisted_inv; [|exact Hh]. by apply set_roots_inv.
  - destruct raw as [| |roots|[leaf|]]; try by injection Hh as <- <-. simpl in Hh.
    destruct (tls_X509KeyPair _ _) as [tls|] eqn:Hpair; [|by injection Hh as <- <-].
    eapply persisted_inv; [|exact Hh]. by apply set_leaf_inv.
  - destruct Hinv as [Hd Hs Hl Hr]. split; try done. intros Hsig. destruct (Hr Hsig) as (? & ? & Hf).
    split_and!; try done. intros Hdir f Hin. eapply RenderSDSConfig_kept; [exact Hh|]. by apply Hf.
Qed.

Lemma new_inv service options w : cert_inv (cm_directory (NewCertManager service options)) (NewCertManager service options) w.
Proof. split; [done|done|by left|done]. Qed.

Lemma reachable_cert_inv service options w0 c w :
  rtc cert_step (NewCertManager service options, w0) (c, w) →
  cert_inv (cm_directory (NewCertManager service options)) c w.
Proof.
  set (dir := cm_directory _). intros Hr.
  assert (∀ a b, rtc cert_step a b → cert_inv dir a.1 a.2 → cert_inv dir b.1 b.2) as Hall.
  { intros a b. induction 1 as [|a x b Hs _ IH]; [done|]. intros Ha. by eapply IH, cert_step_inv. }
  apply (Hall _ _ Hr). apply new_inv.
Qed.

(** ** What the handlers leave alone *)

Lemma write_cached_frame w p value message w' err :
  write_cached w p value message = (w', err) → ∀ q, q ≠ p → file w' q = file w q.
Proof.
  unfold write_cached. destruct value as [data|]; [|by intros [= <- _]].
  destruct (os_WriteFile w p data) as [w1 e] eqn:Hw. intros [= <- _] q Hq. by eapply os_WriteFile_frame.
Qed.

Lemma persist_frame c w c' w' err q :
  persist c w = Some (c', w', err) →
  (∀ f, f ∈ cert_files → q ≠ path_Join (cm_directory c) f) → file w' q = file w q.
Proof.
  intros Hp Hq. unfold persist in Hp. case_bool_decide.
  2:{ by destruct (signal c); simplify_eq/=. }
  assert (∀ f, f ∈ cert_files → ∀ w1 value message w2 e,
    write_cached w1 (path_Join (cm_directory c) f) value message = (w2, e) → file w2 q = file w1 q) as Hw.
  { intros f Hf w1 value message w2 e Hwrite. by eapply write_cached_frame, Hq. }
  unfold cert_files in Hw.
  destruct (write_cached w _ _ _) as [w1 e1] eqn:H1. apply Hw in H1; [|by left].
  destruct e1 as [e1|]; [by simplify_eq/=|].
  destruct (write_cached w1 _ _ _) as [w2 e2] eqn:H2. apply Hw in H2; [|by right; left].
  destruct e2 as [e2|]; [simplify_eq/=; congruence|].
  destruct (write_cached w2 _ _ _) as [w3 e3] eqn:H3. apply Hw in H3; [|by right; right; left].
  destruct e3 as [e3|]; [simplify_eq/=; congruence|]. destruct (signal c); simplify_eq/=. congruence.
Qed.

Lemma persist_signalled c w c' w' err :
  persist c w = Some (c', w', err) → cm_signalled c = true → c' = c.
Proof.
  intros Hp Hs. apply persist_spec in Hp as [_ Hres]. destruct err; [done|]. destruct Hres as [Hsig _].
  unfold signal in Hsig. rewrite Hs in Hsig. by injection Hsig as <-.
Qed.

(** A handler writes only the files of the certificates, and does not take the
    signal back. *)
Record handled (c : CertManager) (w : W) (c' : CertManager) (w' : W) : Prop := {
  handled_files : ∀ q, (∀ f, f ∈ cert_files → q ≠ path_Join (cm_directory c) f) → file w' q = file w q;
  handled_signalled : cm_signalled c = true → cm_signalled c' = true
}.

Lemma persisted_handled c w c' w' : persisted (persist c w) = Some (c', w') → handled c w c' w'.
Proof.
  destruct (persist c w) as [[[c1 w1] e]|] eqn:Hp; [|done]. intros [= <- <-]. split.
  - intros q. by eapply persist_frame.
  - intros Hs. by rewrite (persist_signalled _ _ _ _ _ Hp Hs).
Qed.

Lemma handled_refl c w : handled c w c w.
Proof. by split. Qed.

Lemma handleRootWatch_handled raw c w c' w' : handleRootWatch raw c w = Some (c', w') → handled c w c' w'.
Proof.
  destruct raw as [| |[roots|]|]; simpl; try (by intros [= <- <-]; apply handled_refl).
  intros [Hf Hs]%persisted_handled. by split.
Qed.

Lemma handleLeafWatch_handled raw c w c' w' : handleLeafWatch raw c w = Some (c', w') → handled c w c' w'.
Proof.
  destruct raw as [| | |[leaf|]]; simpl; try (by intros [= <- <-]; apply handled_refl).
  destruct (tls_X509KeyPair _ _); [|by intros [= <- <-]; apply handled_refl].
  intros [Hf Hs]%persisted_handled. by split.
Qed.

(** The root certificates and the pool of them come together. *)
Definition pool_ready (c : CertManager) : Prop := is_Some (cm_ca c) → is_Some (cm_rootCertificatePool c).

Lemma persisted_pool c w c' w' : persisted (persist c w) = Some (c', w') → pool_ready c → pool_ready c'.
Proof.
  destruct (persist c w) as [[[c1 w1] err]|] eqn:Hp; [|done]. intros [= <- <-].
  apply persist_spec in Hp as [_ Hres]. destruct err; [by subst|]. destruct Hres as [Hsig _]. unfold signal in Hsig.
  destruct (negb _ && _); [destruct (cm_initializeSignal c); [done|]|]; by injection Hsig as <-.
Qed.

Lemma cert_step_pool a b : cert_step a b → pool_ready a.1 → pool_ready b.1.
Proof.
  intros [raw c w c' w' Hh|raw c w c' w' Hh|c w w' r Hh]; simpl; intros Hpool; [| |done].
  - destruct raw as [| |[roots|]|v]; try by injection Hh as <- <-.
    eapply persisted_pool; [exact Hh|]. intros _. by eexists.
  - destruct raw as [| |roots|[leaf|]]; try by injection Hh as <- <-. simpl in Hh.
    destruct (tls_X509KeyPair _ _) as [tls|]; [|by injection Hh as <- <-]. by eapply persisted_pool.
Qed.

(** The files that tell Envoy where the certificates are. *)
Definition cluster_args (c : CertManager) : sdsClusterArgs :=
  mkSDSClusterArgs "sds-cluster" (path_Join (cm_directory c) SDSCertConfigFile)
    (path_Join (cm_directory c) SDSCAConfigFile) (AddressTypeForAddress (cm_sdsAddress c)) (cm_sdsAddress c)
    (cm_sdsPort c).
Definition cert_args (dir : string) : sdsCertConfigArgs :=
  mkSDSCertConfigArgs (path_Join dir ClientCertFile) (path_Join dir ClientPrivateKeyFile).

Lemma RenderSDSConfig_ok c w w' sds :
  cm_configDirectory c = cm_directory c → RenderSDSConfig c w = (w', Ok sds) →
  sds = sdsClusterTemplate (cluster_args c) ∧
  file w' (path_Join (cm_directory c) SDSCertConfigFile) = Some (sdsCertConfigTemplate (cert_args (cm_directory c))) ∧
  file w' (path_Join (cm_directory c) SDSCAConfigFile)
  = Some (sdsCAConfigTemplate (path_Join (cm_directory c) RootCAFile)).
Proof.
  intros Hdir. unfold RenderSDSConfig. rewrite Hdir. case_bool_decide; [done|].
  destruct (os_WriteFile w _ _) as [w1 [e|]] eqn:H1; [done|].
  destruct (os_WriteFile w1 _ _) as [w2 [e|]] eqn:H2; [done|]. intros [= <- <-]. split; [done|]. split.
  - rewrite (os_WriteFile_frame _ _ _ _ _ H2) by other_file. by eapply os_WriteFile_ok.
  - by eapply os_WriteFile_ok.
Qed.

(** [Manage] handles the certificate it fetched, or does nothing. *)
Lemma Manage_spec rootWatch leafWatch leafCert c w c' w' err :
  Manage rootWatch leafWatch leafCert c w = Some (c', w', err) →
  (c', w') = (c, w) ∨ ∃ raw, handleLeafWatch raw c w = Some (c', w').
Proof.
  unfold Manage. destruct rootWatch, leafWatch; try (by intros [= <- <- _]; left).
  destruct leafCert as [l|]; [|by intros [= <- <- _]; left].
  destruct (handleLeafWatch _ c w) as [[c1 w1]|] eqn:Hh; [|done]. intros [= <- <- _]. right. by eexists.
Qed.

(** Consumers never see half a set of certificates.  Whatever Consul's
    watches report, in whatever order, and whichever writes fail: the handlers
    do not panic; and once [WaitForWrite] may return without an error, the CA
    and a leaf certificate with its matching private key are cached, and with a
    directory configured all three files exist.  A handler whose writes all
    succeeded leaves in the files exactly what is cached. *)
Theorem certificates_complete (service : string) (options : option CertManagerOptions) (w0 : W) c w :
  let dir := cm_directory (NewCertManager service options) in
  rtc cert_step (NewCertManager service options, w0) (c, w) →
  (∀ raw, is_Some (handleRootWatch raw c w) ∧ is_Some (handleLeafWatch raw c w)) ∧
  (∀ ctx_done, None ∈ WaitForWrite ctx_done c →
     ∃ ca cert key tls, cm_ca c = Some ca ∧ cm_certificate c = Some cert ∧
       cm_privateKey c = Some key ∧ cm_tlsCertificate c = Some tls ∧
       tls_X509KeyPair cert key = Ok tls ∧
       (dir ≠ "" → ∀ f, f ∈ cert_files → is_Some (file w (path_Join dir f)))) ∧
  (∀ c' w', persist c w = Some (c', w', None) → dir ≠ "" →
     on_disk dir w' RootCAFile (cm_ca c') ∧ on_disk dir w' ClientCertFile (cm_certificate c') ∧
     on_disk dir w' ClientPrivateKeyFile (cm_privateKey c')).
Proof.
  intros dir Hinv%reachable_cert_inv. fold dir in Hinv. split_and!.
  - intros raw. split.
    + destruct raw as [| |[roots|]|]; try by eauto. simpl.
      destruct (persist_total dir (set_roots (active_root (cm_ca c) roots)
        (foldl (λ pool root, AppendCertsFromPEM pool (root_RootCertPEM root)) x509_NewCertPool roots) c) w)
        as [[[c1 w1] e] ->]; [by apply set_roots_inv|by eauto].
    + destruct raw as [| | |[leaf|]]; try by eauto. simpl.
      destruct (tls_X509KeyPair _ _) as [tls|] eqn:Hpair; [|by eauto].
      destruct (persist_total dir (set_leaf (leaf_CertPEM leaf) (leaf_PrivateKeyPEM leaf) tls c) w)
        as [[[c1 w1] e] ->]; [by apply set_leaf_inv|by eauto].
  - intros ctx_done Hwait. destruct Hinv as [Hd Hs Hl Hr].
    assert (cm_signalled c = true) as Hsig.
    { rewrite <-Hs. unfold WaitForWrite in Hwait. destruct (cm_initializeSignal c); [done|].
      destruct ctx_done; simpl in Hwait; set_solver. }
    destruct (Hr Hsig) as ([ca Hca] & [cert Hcert] & Hf).
    destruct Hl as [(Hn & _)|(cert' & key & tls & Hc & Hk & Ht & Hp)]; [by rewrite Hn in Hcert|].
    by exists ca, cert', key, tls.
  - intros c' w' Hp Hdir. apply persist_spec in Hp as (_ & Hsig & Hdisk). destruct Hinv as [Hd _ _ _].
    rewrite Hd in Hdisk. destruct (Hdisk Hdir) as (D1 & D2 & D3).
    unfold signal in Hsig. destruct (negb _ && _); [destruct (cm_initializeSignal c); [done|]|];
      by injection Hsig as <-.
Qed.

End properties.

(** ** Examples *)

Module CertExamples.

(** Files that can always be written. *)
#[export] Program Instance memory_files : FileSystem (gmap string string) := {|
  file w p := w !! p;
  os_WriteFile w p data := (<[p := data]> w, None)
|}.
Next Obligation. intros w p data w' [= <-]. apply lookup_insert_eq. Qed.
Next Obligation. intros w p data w' err [= <- _] _. rewrite lookup_insert_eq. by eauto. Qed.
Next Obligation. intros w p data w' err [= <- _] q Hq. by rewrite lookup_insert_ne. Qed.

#[export] Instance plain_tls : TLSParsing := {|
  tls_Certificate := string;
  x509_CertPool := list string;
  tls_X509KeyPair cert _ := Ok cert;
  x509_NewCertPool := [];
  AppendCertsFromPEM pool pem := pool ++ [pem];
  net_ParseIP address := bool_decide (address = "127.0.0.1")
|}.

Definition options : CertManagerOptions := mkCertManagerOptions "/certs/./" "" "127.0.0.1" 9090.
Definition start : CertManager := NewCertManager "gateway" (Some options).

Definition roots : watch_value := WatchRoots (Some [mkCARoot "old" false; mkCARoot "ca" true]).
Definition leaf : watch_value := WatchLeaf (Some (mkLeafCert "cert" "key")).

Lemma certificates_received :
  ∃ c (w : gmap string string),
    rtc cert_step (start, ∅) (c, w) ∧ None ∈ WaitForWrite false c.
Proof.
  destruct (handleRootWatch roots start (∅ : gmap string string)) as [[c1 w1]|] eqn:H1; [|discriminate H1].
  destruct (handleLeafWatch leaf c1 w1) as [[c2 w2]|] eqn:H2.
  2:{ injection H1 as <- <-. discriminate H2. }
  exists c2, w2. split.
  - eapply rtc_l; [by eapply StepRoot|]. eapply rtc_l; [by eapply StepLeaf|apply rtc_refl].
  - injection H1 as <- <-. injection H2 as <- <-. by left.
Qed.

Lemma root_path : path_Join "/certs/./" RootCAFile = "/certs/root-ca.pem".
Proof. reflexivity. Qed.

End CertExamples.

Import (hints) CertExamples.

Lemma certificates_complete_witness :
  ∃ c (w : gmap string string), None ∈ WaitForWrite false c ∧
    is_Some (w !! path_Join "/certs/./" RootCAFile) ∧
    is_Some (w !! path_Join "/certs/./" ClientPrivateKeyFile).
Proof.
  destruct CertExamples.certificates_received as (c & w & Hreach & Hwait).
  destruct (certificates_complete "gateway" (Some CertExamples.options) ∅ c w Hreach) as (_ & Hready & _).
  destruct (Hready false Hwait) as (ca & cert & key & tls & _ & _ & _ & _ & _ & Hfiles).
  exists c, w. split; [exact Hwait|]. split; apply (Hfiles ltac:(discriminate)).
  - by left.
  - right. right. by left.
Defined.
