(* ===== verification/Bootstrap.v ===== *)
(** * The bootstrap configuration of Envoy ([internal/envoy/manager.go])

    The manager of the Envoy process renders its bootstrap configuration with
    a text template and runs the binary.  Branches of the template are
    conditionals on the fields of its arguments; the white space its trim
    markers remove is removed here.  [bootstrap_read] shows that the rendered
    text is the intended JSON document, for whatever cluster the certificate
    manager rendered. *)

From S2P Require Import Prelude Errors Json JsonSyntax CertManager.

(** ** The template *)

Record bootstrapArgs : Type := mkBootstrapArgs {
  ba_ID : string;
  ba_Namespace : string;
  ba_Partition : string;
  ba_ConsulCA : string;
  ba_ConsulAddress : string;
  ba_ConsulXDSPort : Z;
  ba_SDSCluster : string;
  ba_Token : string;
  ba_AddressType : string;
  ba_ForceTLS : bool
}.

Definition bootstrapTemplate (a : bootstrapArgs) : string :=
  quoted "{
  'admin': {
    'access_log_path': '/dev/null',
    'address': {
      'socket_address': {
        'address': '127.0.0.1',
        'port_value': 19000
      }
    }
  },
  'node': {
    'cluster': '" +:+
  ba_ID a +:+
  quoted "',
    'id': '" +:+
  ba_ID a +:+
  quoted "',
    'metadata': {
      'namespace': '" +:+
  (if bool_decide (ba_Namespace a ≠ "") then ba_Namespace a else "default") +:+
  quoted "',
      'partition': '" +:+
  (if bool_decide (ba_Partition a ≠ "") then ba_Partition a else "default") +:+
  quoted "'
    }
  },
  'static_resources': {
    'clusters': [
      {
        'name': 'self_admin',
        'ignore_health_on_host_removal': false,
        'connect_timeout': '5s',
        'type': 'STATIC',
        'http_protocol_options': {},
        'loadAssignment': {
          'clusterName': 'self_admin',
          'endpoints': [
            {
              'lbEndpoints': [
                {
                  'endpoint': {
                    'address': {
                      'socket_address': {
                        'address': '127.0.0.1',
                        'port_value': 19000
                      }
                    }
                  }
                }
              ]
            }
          ]
        }
      },
      {
        'name': 'consul-server',
        'ignore_health_on_host_removal': false,
        'connect_timeout': '1s',
        'type': '" +:+
  ba_AddressType a +:+
  quoted "'," +:+
  (if bool_decide (ba_ConsulCA a ≠ "") then
     quoted "'transport_socket': {
          'name': 'tls',
          'typed_config': {
            '@type': 'type.googleapis.com/envoy.extensions.transport_sockets.tls.v3.UpstreamTlsContext',
            'common_tls_context': {
              'validation_context': {
                'trusted_ca': {
                  'filename': '" +:+
     ba_ConsulCA a +:+
     quoted "'
                }
              }
            }
          }
        },"
   else if ba_ForceTLS a then
     quoted "
        'transport_socket': {
          'name': 'tls',
          'typed_config': {
            '@type': 'type.googleapis.com/envoy.extensions.transport_sockets.tls.v3.UpstreamTlsContext',
            'common_tls_context': {
              'validation_context': {
                'trusted_ca': {
                  'filename': '/etc/ssl/certs/ca-certificates.crt'
                }
              }
            }
          }
        },"
   else "") +:+
  quoted "
        'http2_protocol_options': {},
        'loadAssignment': {
          'clusterName': 'consul-server',
          'endpoints': [
            {
              'lbEndpoints': [
                {
                  'endpoint': {
                    'address': {
                      'socket_address': {
                        'address': '" +:+
  ba_ConsulAddress a +:+
  quoted "',
                        'port_value': " +:+
  strconv_Itoa (ba_ConsulXDSPort a) +:+
  quoted "
                      }
                    }
                  }
                }
              ]
            }
          ]
        }
      }" +:+
  (if bool_decide (ba_SDSCluster a ≠ "") then
     quoted ",
      " +:+
     ba_SDSCluster a
   else "") +:+
  quoted "
    ],
    'listeners': [
      {
        'name': 'envoy_ready_listener',
        'address': {
          'socket_address': {
            'address': '0.0.0.0',
            'port_value': 20000
          }
        },
        'filter_chains': [
          {
            'filters': [
              {
                'name': 'envoy.filters.network.http_connection_manager',
                'typedConfig': {
                  '@type': 'type.googleapis.com/envoy.extensions.filters.network.http_connection_manager.v3.HttpConnectionManager',
                  'stat_prefix': 'envoy_ready',
                  'codec_type': 'HTTP1',
                  'route_config': {
                    'name': 'self_admin_route',
                    'virtual_hosts': [
                      {
                        'name': 'self_admin',
                        'domains': [
                          '*'
                        ],
                        'routes': [
                          {
                            'match': {
                              'path': '/ready'
                            },
                            'route': {
                              'cluster': 'self_admin',
                              'prefix_rewrite': '/ready'
                            }
                          },
                          {
                            'match': {
                              'prefix': '/'
                            },
                            'direct_response': {
                              'status': 404
                            }
                          }
                        ]
                      }
                    ]
                  },
                  'http_filters': [
                    {
                      'name': 'envoy.filters.http.router',
                      'typedConfig': {
                        '@type': 'type.googleapis.com/envoy.extensions.filters.http.router.v3.Router'
                      }
                    }
                  ]
                }
              }
            ]
          }
        ]
      }
    ]
  },
  'dynamic_resources': {
    'lds_config': {
      'ads': {},
      'resource_api_version': 'V3'
    },
    'cds_config': {
      'ads': {},
      'resource_api_version': 'V3'
    },
    'ads_config': {
      'api_type': 'DELTA_GRPC',
      'transport_api_version': 'V3',
      'grpc_services': {
        'initial_metadata': [
          {
            'key': 'x-consul-token',
            'value': '" +:+
  ba_Token a +:+
  quoted "'
          }
        ],
        'envoy_grpc': {
          'cluster_name': 'consul-server'
        }
      }
    }
  }
}
"
.

(** ** The manager *)

Definition logFormatString : string :=
  quoted "{'timestamp':'%Y-%m-%d %T.%e','thread':'%t','level':'%l','name':'%n','source':'%g:%#','message':'%v'}".

(** Where the output of the process goes is not modelled. *)
Record ManagerConfig : Type := mkManagerConfig {
  mc_ID : string;
  mc_Namespace : string;
  mc_Partition : string;
  mc_ConsulCA : string;
  mc_ConsulAddress : string;
  mc_ConsulXDSPort : Z;
  mc_Token : string;
  mc_BootstrapFilePath : string;
  mc_LogLevel : string;
  mc_EnvoyBinary : string;
  mc_ExtraArgs : list string;
  mc_ForceTLS : bool
}.

Definition CommandArgs (m : ManagerConfig) : string * list string :=
  (mc_EnvoyBinary m,
   ["-l"; mc_LogLevel m; "--log-format"; logFormatString; "-c"; mc_BootstrapFilePath m] ++ mc_ExtraArgs m).

(** [exec_Run]: how the process ended. *)
Definition Run (exec_Run : string * list string → option error) (ctx_done : bool) (m : ManagerConfig) :
    option error :=
  let err := exec_Run (CommandArgs m) in
  if ctx_done then None else err.

Section manager.
Context {TP : TLSParsing} {W : Type} {FS : FileSystem W}.

Definition bootstrap_args (m : ManagerConfig) (sdsConfig : string) : bootstrapArgs :=
  mkBootstrapArgs (mc_ID m) (mc_Namespace m) (mc_Partition m) (mc_ConsulCA m) (mc_ConsulAddress m)
    (mc_ConsulXDSPort m) sdsConfig (mc_Token m) (AddressTypeForAddress (mc_ConsulAddress m)) (mc_ForceTLS m).

Definition RenderBootstrap (m : ManagerConfig) (sdsConfig : string) (w : W) : W * option error :=
  os_WriteFile w (mc_BootstrapFilePath m) (bootstrapTemplate (bootstrap_args m sdsConfig)).

End manager.

(** ** The document *)

Definition J := JString.

Definition socket_address (address : string) (port : Z) : json :=
  JObject [("socket_address", JObject [("address", J address); ("port_value", JNumber port)])].

(** The [loadAssignment] of a cluster with one endpoint. *)
Definition single_endpoint (cluster address : string) (port : Z) : json :=
  JObject [("clusterName", J cluster);
           ("endpoints", JArray [JObject [("lbEndpoints", JArray [JObject [("endpoint",
              JObject [("address", socket_address address port)])]])]])].

Definition self_admin_cluster : json :=
  JObject [("name", J "self_admin"); ("ignore_health_on_host_removal", JBool false);
           ("connect_timeout", J "5s"); ("type", J "STATIC"); ("http_protocol_options", JObject []);
           ("loadAssignment", single_endpoint "self_admin" "127.0.0.1" 19000)].

Definition tls_context : string :=
  "type.googleapis.com/envoy.extensions.transport_sockets.tls.v3.UpstreamTlsContext".

(** TLS to Consul, trusting the certificates of a file. *)
Definition transport_socket (trusted_ca : string) : string * json :=
  ("transport_socket",
   JObject [("name", J "tls");
            ("typed_config", JObject [("@type", J tls_context);
               ("common_tls_context", JObject [("validation_context",
                  JObject [("trusted_ca", JObject [("filename", J trusted_ca)])])])])]).

(** Which certificates Envoy trusts when it talks to Consul; [None]: no TLS. *)
Definition trusted_ca (a : bootstrapArgs) : option string :=
  if bool_decide (ba_ConsulCA a ≠ "") then Some (ba_ConsulCA a)
  else if ba_ForceTLS a then Some "/etc/ssl/certs/ca-certificates.crt"
  else None.

Definition consul_cluster (a : bootstrapArgs) : json :=
  JObject ([("name", J "consul-server"); ("ignore_health_on_host_removal", JBool false);
            ("connect_timeout", J "1s"); ("type", J (ba_AddressType a))] ++
           (transport_socket <$> option_list (trusted_ca a)) ++
           [("http2_protocol_options", JObject []);
            ("loadAssignment", single_endpoint "consul-server" (ba_ConsulAddress a) (ba_ConsulXDSPort a))]).

(** Only [/ready] of the administration interface is exposed. *)
Definition ready_listener : json :=
  JObject [("name", J "envoy_ready_listener");
           ("address", socket_address "0.0.0.0" 20000);
           ("filter_chains", JArray [JObject [("filters", JArray [JObject [
              ("name", J "envoy.filters.network.http_connection_manager");
              ("typedConfig", JObject [
                 ("@type", J "type.googleapis.com/envoy.extensions.filters.network.http_connection_manager.v3.HttpConnectionManager");
                 ("stat_prefix", J "envoy_ready"); ("codec_type", J "HTTP1");
                 ("route_config", JObject [("name", J "self_admin_route");
                    ("virtual_hosts", JArray [JObject [("name", J "self_admin");
                       ("domains", JArray [J "*"]);
                       ("routes", JArray [
                          JObject [("match", JObject [("path", J "/ready")]);
                                   ("route", JObject [("cluster", J "self_admin"); ("prefix_rewrite", J "/ready")])];
                          JObject [("match", JObject [("prefix", J "/")]);
                                   ("direct_response", JObject [("status", JNumber 404)])]])]])]);
                 ("http_filters", JArray [JObject [("name", J "envoy.filters.http.router");
                    ("typedConfig", JObject [("@type", J "type.googleapis.com/envoy.extensions.filters.http.router.v3.Router")])]])])]])]])].

Definition ads_config : json := JObject [("ads", JObject []); ("resource_api_version", J "V3")].

Definition or_default (s : string) : string := if bool_decide (s ≠ "") then s else "default".

(** The document: [sds] is the cluster the proxy gets its certificates from. *)
Definition bootstrap_document (a : bootstrapArgs) (sds : option json) : json :=
  JObject [
    ("admin", JObject [("access_log_path", J "/dev/null"); ("address", socket_address "127.0.0.1" 19000)]);
    ("node", JObject [("cluster", J (ba_ID a)); ("id", J (ba_ID a));
       ("metadata", JObject [("namespace", J (or_default (ba_Namespace a)));
                             ("partition", J (or_default (ba_Partition a)))])]);
    ("static_resources", JObject [
       ("clusters", JArray ([self_admin_cluster; consul_cluster a] ++ option_list sds));
       ("listeners", JArray [ready_listener])]);
    ("dynamic_resources", JObject [
       ("lds_config", ads_config); ("cds_config", ads_config);
       ("ads_config", JObject [("api_type", J "DELTA_GRPC"); ("transport_api_version", J "V3");
          ("grpc_services", JObject [
             ("initial_metadata", JArray [JObject [("key", J "x-consul-token"); ("value", J (ba_Token a))]]);
             ("envoy_grpc", JObject [("cluster_name", J "consul-server")])])])])].

(** The cluster of the SDS server and the two files that tell Envoy where the
    certificates are. *)
Definition sds_source (path : string) : json := JObject [("path", J path)].

Definition sds_cluster_document (a : sdsClusterArgs) : json :=
  JObject [("name", J (sca_Name a)); ("connect_timeout", J "5s"); ("type", J (sca_AddressType a));
    ("transport_socket", JObject [("name", J "tls"); ("typed_config", JObject [("@type", J tls_context);
       ("common_tls_context", JObject [
          ("tls_certificate_sds_secret_configs", JArray [JObject [("name", J "tls_sds");
             ("sds_config", sds_source (sca_CertSDSConfigPath a))]]);
          ("validation_context_sds_secret_config", JObject [("name", J "validation_context_sds");
             ("sds_config", sds_source (sca_CASDSConfigPath a))])])])]);
    ("http2_protocol_options", JObject []);
    ("loadAssignment", single_endpoint (sca_Name a) (sca_SDSAddress a) (sca_SDSPort a))].

Definition secret_document (name kind : string) (files : json) : json :=
  JObject [("resources", JArray [JObject [
    ("@type", J "type.googleapis.com/envoy.extensions.transport_sockets.tls.v3.Secret");
    ("name", J name); (kind, files)]])].

Definition filename (path : string) : json := JObject [("filename", J path)].

Definition sds_cert_document (a : sdsCertConfigArgs) : json :=
  secret_document "tls_sds" "tls_certificate"
    (JObject [("certificate_chain", filename (scc_CertPath a));
              ("private_key", filename (scc_CertPrivateKeyPath a))]).

Definition sds_ca_document (caPath : string) : json :=
  secret_document "validation_context_sds" "validation_context" (JObject [("trusted_ca", filename caPath)]).

(** ** Reading the templates *)

Lemma scan_after_number toks z s :
  scan (toks, InNumber (strconv_Itoa z)) (quoted (String nl s)) = scan (toks ++ [TNumber z], Between) (quoted s).
Proof. simpl. by rewrite number_value_Itoa. Qed.

(** A line break after an inserted text ends its last token. *)
Lemma inserted_line a text s rest :
  (a +:+ text) +:+ quoted (String nl s) +:+ rest = a +:+ snoc text nl +:+ quoted s +:+ rest.
Proof. unfold snoc. by rewrite <-!append_assoc. Qed.

Lemma scan_pieces st a b st1 st2 :
  scan st a = Some st1 → scan st1 b = Some st2 → scan st (a +:+ b) = Some st2.
Proof. intros Ha Hb. by rewrite scan_app, Ha. Qed.

Lemma scan_restart toks s toks' m :
  scan ([], Between) s = Some (toks', m) → scan (toks, Between) s = Some (toks ++ toks', m).
Proof. intros Hs. rewrite <-(app_nil_r toks) at 1. by apply scan_frame. Qed.

Lemma build_pieces b ts1 ts2 b1 b2 :
  build b ts1 = Some b1 → build b1 ts2 = Some b2 → build b (ts1 ++ ts2) = Some b2.
Proof. intros H1 H2. by rewrite build_app, H1. Qed.

Lemma json_read_intro s toks j :
  scan ([], Between) (snoc s nl) = Some (toks, Between) →
  build (Building [] Value) toks = Some (Built j) → json_read s = Some j.
Proof. intros Hs Hb. unfold json_read, json_tokens. rewrite Hs. simpl. by rewrite Hb. Qed.

(** Computes what the scanner makes of a literal piece. *)
#[local] Ltac scan_literal :=
  lazymatch goal with
  | |- scan ?st ?s = Some ?st' =>
      let r := eval vm_compute in (scan st s) in
      lazymatch r with Some ?st'' => unify st' st'' end; vm_compute; reflexivity
  end.

(** Reads the pieces of a template one after the other. *)
#[local] Ltac read_piece :=
  lazymatch goal with
  | |- scan (_ ++ _, Between) (_ +:+ _) = _ => apply scan_restart; read_piece
  | |- scan _ (_ +:+ _) = _ => eapply scan_pieces; [read_piece|read_piece]
  | |- scan (_, InString _) (quoted _) = _ => scan_literal
  | |- scan (_, InString _) _ = _ => apply scan_plain; assumption
  | |- scan _ (strconv_Itoa _) = _ => apply scan_Itoa
  | |- scan (_, InNumber _) (quoted _) = _ => rewrite scan_after_number; cbn [app]; scan_literal
  | H : ∀ pre, scan (pre, Between) (snoc ?s nl) = _ |- scan (_, Between) (snoc ?s nl) = _ => apply H
  | |- scan (_ ++ _, Between) _ = _ => apply scan_restart; scan_literal
  | |- _ => scan_literal
  end.
#[local] Ltac read_template :=
  eapply json_read_intro; [unfold snoc; read_piece|vm_compute; reflexivity].

Lemma sds_ca_read caPath :
  plain_text caPath = true → json_read (sdsCAConfigTemplate caPath) = Some (sds_ca_document caPath).
Proof. intros H. unfold sdsCAConfigTemplate. read_template. Qed.

Lemma sds_cert_read a :
  plain_text (scc_CertPath a) = true → plain_text (scc_CertPrivateKeyPath a) = true →
  json_read (sdsCertConfigTemplate a) = Some (sds_cert_document a).
Proof. intros H1 H2. unfold sdsCertConfigTemplate. read_template. Qed.

Lemma sds_cluster_read a :
  plain_text (sca_Name a) = true → plain_text (sca_AddressType a) = true →
  plain_text (sca_CertSDSConfigPath a) = true → plain_text (sca_CASDSConfigPath a) = true →
  plain_text (sca_SDSAddress a) = true →
  json_read (sdsClusterTemplate a) = Some (sds_cluster_document a).
Proof. intros H1 H2 H3 H4 H5. unfold sdsClusterTemplate. read_template. Qed.

(** The fields of the arguments that are written between quotes. *)
Definition plain_args (a : bootstrapArgs) : Prop :=
  Forall (λ s, plain_text s = true)
    [ba_ID a; ba_Namespace a; ba_Partition a; ba_ConsulCA a; ba_ConsulAddress a; ba_Token a; ba_AddressType a].

(** A cluster that is inserted into the template. *)
Definition reads_as (text : string) (j : option json) : Prop :=
  if bool_decide (text = "") then j = None else ∃ j', j = Some j' ∧ json_read text = Some j'.

Lemma plain_or_default s : plain_text s = true → plain_text (or_default s) = true.
Proof. intros Hs. unfold or_default. by case_bool_decide. Qed.

#[local] Ltac bootstrap_fields :=
  unfold bootstrapTemplate, bootstrap_document, consul_cluster, trusted_ca;
  cbn [ba_ID ba_Namespace ba_Partition ba_ConsulCA ba_ConsulAddress ba_ConsulXDSPort ba_SDSCluster ba_Token
       ba_AddressType ba_ForceTLS].

(** The rendered configuration is the document, with the cluster that was
    inserted if there was one. *)
Lemma bootstrap_read a sds :
  plain_args a → reads_as (ba_SDSCluster a) sds →
  json_read (bootstrapTemplate a) = Some (bootstrap_document a sds).
Proof.
  destruct a as [id ns part ca addr port text tok kind force]. unfold plain_args, reads_as.
  rewrite !Forall_cons. bootstrap_fields.
  intros (H1 & Hns%plain_or_default & Hpart%plain_or_default & H4 & H5 & H6 & H7 & _).
  fold (or_default ns) (or_default part).
  generalize dependent (or_default ns). generalize dependent (or_default part). intros part' Hpart ns' Hns.
  case_bool_decide as Htext.
  - intros ->. rewrite (bool_decide_false (text ≠ "")) by auto.
    destruct (bool_decide (ca ≠ "")); [|destruct force]; read_template.
  - intros (j & -> & (toks & Hscan & Hbuild)%json_value_inside). rewrite (bool_decide_true (text ≠ "")) by done.
    rewrite inserted_line.
    destruct (bool_decide (ca ≠ "")); [|destruct force]; (eapply json_read_intro; [unfold snoc at 1; read_piece|]).
    all: rewrite app_nil_r; eapply build_pieces; [eapply build_pieces; [vm_compute; reflexivity|etrans; [apply Hbuild|reflexivity]]|].
    all: vm_compute; reflexivity.
Qed.
