(* ===== verification/Registration.v ===== *)
(** * Registration with Consul ([internal/consul/registration.go], [auth.go])

    [ServiceRegistry] registers the process, or a gateway, with the Consul
    agent, registers it again when the agent forgot it, and keeps its health
    check passing until it is deregistered.  The two background loops run
    concurrently with the caller and with each other: every request of theirs
    to the agent is a step of its own ([registry_step]).  The agent is a
    class; a request whose context is done does not reach it. *)

From S2P Require Import Prelude Errors Intentions.

(** ** Registrations *)

Definition serviceCheckName : string := "consul-api-gateway Gateway Listener".
Definition serviceCheckInterval : string := "10s".
Definition serviceCheckTTL : string := "20s".
Definition serviceDeregistrationTime : string := "1m".

(** [api.AgentServiceCheck], the fields that are set. *)
Record AgentServiceCheck : Type := mkAgentServiceCheck {
  asc_CheckID : string;
  asc_Name : string;
  asc_TCP : string;
  asc_Interval : string;
  asc_TTL : string;
  asc_DeregisterCriticalServiceAfter : string
}.

Record AgentServiceRegistration : Type := mkAgentServiceRegistration {
  asr_Kind : string;
  asr_ID : string;
  asr_Name : string;
  asr_Namespace : string;
  asr_Partition : string;
  asr_Address : string;
  asr_Tags : list string;
  asr_Meta : gmap string string;
  asr_Checks : list AgentServiceCheck
}.

(** The answer to a request for one service. *)
Inductive service_answer : Type :=
  | ServiceFound
  | ServiceNotFound
  | ServiceFailed (e : error).

(** The agent's API; the first argument of a write tells whether the context
    of the request is done. *)
Class ConsulAgent (W : Type) : Type := {
  agent_ServiceRegister : bool → AgentServiceRegistration → W → W * option error;
  agent_ServiceDeregister : bool → string → string → W → W * option error;
  agent_Service : string → string → W → service_answer;
  agent_UpdateTTL : bool → string → W → W * option error
}.

Definition defaultMaxAttempts : nat := 30.

(** The fields that are set when the registry is built. *)
Record registryConfig : Type := mkRegistryConfig {
  rgc_id : string;
  rgc_name : string;
  rgc_namespace : string;
  rgc_partition : string;
  rgc_host : string;
  rgc_tags : list string;
  rgc_tries : nat
}.

Definition WithTags (tags : list string) (c : registryConfig) : registryConfig :=
  mkRegistryConfig (rgc_id c) (rgc_name c) (rgc_namespace c) (rgc_partition c) (rgc_host c) tags (rgc_tries c).
Definition WithTries (tries : nat) (c : registryConfig) : registryConfig :=
  mkRegistryConfig (rgc_id c) (rgc_name c) (rgc_namespace c) (rgc_partition c) (rgc_host c) (rgc_tags c) tries.

(** The identifier is a fresh UUID. *)
Definition NewServiceRegistry (uuid service namespace partition host : string) : registryConfig :=
  mkRegistryConfig uuid service namespace partition host [] defaultMaxAttempts.

Definition health_check (c : registryConfig) : AgentServiceCheck :=
  mkAgentServiceCheck (rgc_id c) (rgc_name c +:+ " - Health") "" "" serviceCheckTTL serviceDeregistrationTime.

Definition gateway_registration (c : registryConfig) (ttl : bool) : AgentServiceRegistration :=
  let serviceChecks :=
    if ttl then [health_check c]
    else [mkAgentServiceCheck "" (serviceCheckName +:+ " - Ready") (rgc_host c +:+ ":" +:+ strconv_Itoa 20000)
            serviceCheckInterval "" serviceDeregistrationTime] in
  mkAgentServiceRegistration "ingress-gateway" (rgc_id c) (rgc_name c) (rgc_namespace c) (rgc_partition c)
    (rgc_host c) (rgc_tags c) {["external-source" := "consul-api-gateway"]} serviceChecks.

Definition service_registration (c : registryConfig) : AgentServiceRegistration :=
  mkAgentServiceRegistration "" (rgc_id c) (rgc_name c) (rgc_namespace c) (rgc_partition c)
    (rgc_host c) (rgc_tags c) ∅ [health_check c].

(** ** The registry *)

(** Where a background loop is: waiting, about to ask the agent for the
    service, or about to register it with so many retries left. *)
Inductive loop_phase : Type :=
  | Waiting
  | Checking
  | Registering (retries : nat).

(** A background loop: re-registration, or the updates of the health check. *)
Inductive loop : Type :=
  | RegistrationLoop (ctx : nat) (registration : AgentServiceRegistration) (phase : loop_phase)
  | TTLLoop (ctx : nat).

Definition loop_ctx (l : loop) : nat :=
  match l with RegistrationLoop ctx _ _ => ctx | TTLLoop ctx => ctx end.

(** [cancel] is the context of the current registration; contexts are
    numbered, and those that were cancelled are remembered. *)
Record ServiceRegistry {W : Type} : Type := mkServiceRegistry {
  sr_cancel : option nat;
  sr_cancelled : gset nat;
  sr_contexts : nat;
  sr_loops : list loop;
  sr_agent : W
}.
Arguments ServiceRegistry W : clear implicits.

Section registry.
Context {RB : RetryBackoff} {W : Type} {CA : ConsulAgent W} (cfg : registryConfig).

Definition sr_set_agent (w : W) (s : ServiceRegistry W) : ServiceRegistry W :=
  mkServiceRegistry W (sr_cancel s) (sr_cancelled s) (sr_contexts s) (sr_loops s) w.
Definition sr_set_loop (i : nat) (l : loop) (s : ServiceRegistry W) : ServiceRegistry W :=
  mkServiceRegistry W (sr_cancel s) (sr_cancelled s) (sr_contexts s) (<[i := l]> (sr_loops s)) (sr_agent s).

(** [done]: the caller's context is done, which ends the retries as well. *)
Definition retryRegistration (done : bool) (registration : AgentServiceRegistration) (w : W) : W * option error :=
  backoff_Run (if done then 0 else rgc_tries cfg) (agent_ServiceRegister done registration) w.

Definition register (done : bool) (registration : AgentServiceRegistration) (ttl : bool)
    (s : ServiceRegistry W) : ServiceRegistry W * option error :=
  match sr_cancel s with
  | Some _ => (s, None)
  | None =>
      match retryRegistration done registration (sr_agent s) with
      | (w, Some err) => (sr_set_agent w s, Some err)
      | (w, None) =>
          let ctx := sr_contexts s in
          let loops := RegistrationLoop ctx registration Waiting :: (if ttl then [TTLLoop ctx] else []) in
          let cancelled := if done then {[ctx]} ∪ sr_cancelled s else sr_cancelled s in
          (mkServiceRegistry W (Some ctx) cancelled (S ctx) (sr_loops s ++ loops) w, None)
      end
  end.

Definition RegisterGateway (done ttl : bool) : ServiceRegistry W → ServiceRegistry W * option error :=
  register done (gateway_registration cfg ttl) ttl.

Definition Register (done : bool) : ServiceRegistry W → ServiceRegistry W * option error :=
  register done (service_registration cfg) true.

(** The context of the caller is not done: deregistration happens after that of
    the process is, under one of its own. *)
Definition Deregister (s : ServiceRegistry W) : ServiceRegistry W * option error :=
  let s := match sr_cancel s with
           | Some ctx =>
               mkServiceRegistry W None ({[ctx]} ∪ sr_cancelled s) (sr_contexts s) (sr_loops s) (sr_agent s)
           | None => s
           end in
  let (w, err) := backoff_Run (rgc_tries cfg)
    (agent_ServiceDeregister false (rgc_id cfg) (rgc_namespace cfg)) (sr_agent s) in
  (sr_set_agent w s, err).

(** ** The background loops *)

Definition ctx_done (s : ServiceRegistry W) (ctx : nat) : bool := bool_decide (ctx ∈ sr_cancelled s).

(** One request of [ensureRegistration], asking for the service, or of its
    retries, registering it.  Between two attempts the context is looked at. *)
Definition ensure_step (s : ServiceRegistry W) (ctx : nat) (registration : AgentServiceRegistration)
    (phase : loop_phase) : loop_phase * W :=
  match phase with
  | Waiting => (Checking, sr_agent s)
  | Checking =>
      match agent_Service (rgc_id cfg) (rgc_namespace cfg) (sr_agent s) with
      | ServiceNotFound => (Registering (rgc_tries cfg), sr_agent s)
      | _ => (Waiting, sr_agent s)
      end
  | Registering retries =>
      match agent_ServiceRegister (ctx_done s ctx) registration (sr_agent s) with
      | (w, None) => (Waiting, w)
      | (w, Some _) =>
          match retries with
          | O => (Waiting, w)
          | S n => (if ctx_done s ctx then Waiting else Registering n, w)
          end
      end
  end.

Inductive loop_step : ServiceRegistry W → ServiceRegistry W → Prop :=
  | StepEnsure s i ctx registration phase phase' w :
      sr_loops s !! i = Some (RegistrationLoop ctx registration phase) →
      ensure_step s ctx registration phase = (phase', w) →
      loop_step s (sr_set_agent w (sr_set_loop i (RegistrationLoop ctx registration phase') s))
  | StepTTL s i ctx w err :
      sr_loops s !! i = Some (TTLLoop ctx) →
      agent_UpdateTTL (ctx_done s ctx) (rgc_id cfg) (sr_agent s) = (w, err) →
      loop_step s (sr_set_agent w s)
  | StepExit s l loops1 loops2 :
      sr_loops s = loops1 ++ l :: loops2 → ctx_done s (loop_ctx l) = true →
      match l with RegistrationLoop _ _ phase => phase = Waiting | TTLLoop _ => True end →
      loop_step s (mkServiceRegistry W (sr_cancel s) (sr_cancelled s) (sr_contexts s)
                     (loops1 ++ loops2) (sr_agent s)).

(** The context that registrations were made under is done: theirs are, too. *)
Definition parent_done (ctxs : gset nat) (s : ServiceRegistry W) : ServiceRegistry W :=
  mkServiceRegistry W (sr_cancel s) (ctxs ∪ sr_cancelled s) (sr_contexts s) (sr_loops s) (sr_agent s).

(** The caller's operations and the loops. *)
Inductive registry_step : ServiceRegistry W → ServiceRegistry W → Prop :=
  | StepRegisterGateway done ttl s s' err : RegisterGateway done ttl s = (s', err) → registry_step s s'
  | StepRegister done s s' err : Register done s = (s', err) → registry_step s s'
  | StepParentDone ctxs s : registry_step s (parent_done ctxs s)
  | StepDeregister s s' err : Deregister s = (s', err) → registry_step s s'
  | StepLoop s s' : loop_step s s' → registry_step s s'
  | StepAgent w s : registry_step s (sr_set_agent w s).

Definition new_registry (w : W) : ServiceRegistry W := mkServiceRegistry W None ∅ 0 [] w.

End registry.

(** ** Logging in ([auth.go]) *)

Definition authMetaKey : string := "consul-api-gateway".

Record ACLLoginParams : Type := mkACLLoginParams {
  alp_AuthMethod : string;
  alp_BearerToken : string;
  alp_Meta : gmap string string
}.

Record Authenticator : Type := mkAuthenticator {
  au_method : string;
  au_namespace : string;
  au_tries : nat
}.

Definition NewAuthenticator (method namespace : string) : Authenticator :=
  mkAuthenticator method namespace defaultMaxAttempts.

(** The request an authenticator sends: the namespace it is sent to and its
    parameters. *)
Definition login_request (a : Authenticator) (service bearerToken : string) : string * ACLLoginParams :=
  let '(namespace, gwName) :=
    if bool_decide (au_namespace a ≠ "") && bool_decide (au_namespace a ≠ "default")
    then (au_namespace a, au_namespace a +:+ "/" +:+ service)
    else ("", service) in
  (namespace, mkACLLoginParams (au_method a) bearerToken {[authMetaKey := gwName]}).

Section login.
Context {RB : RetryBackoff} {W : Type} (ACL_Login : string → ACLLoginParams → W → W * result string).

Definition authenticate (a : Authenticator) (service bearerToken : string) (w : W) : W * result string :=
  let (namespace, params) := login_request a service bearerToken in
  ACL_Login namespace params w.

(** The token is the variable the retried function assigns. *)
Definition Authenticate (a : Authenticator) (service bearerToken : string) (w : W) :
    W * string * option error :=
  let '(w, token, err) := backoff_Run (au_tries a) (λ wt : W * string,
    match authenticate a service bearerToken wt.1 with
    | (w, Ok token) => (w, token, None)
    | (w, Err err) => (w, "", Some err)
    end) (w, "") in
  (w, token, err).

End login.

(** ** Properties *)

(** The agent's documented behaviour.  A request may take effect although it
    reports an error; one whose context is done fails without reaching the
    agent. *)
Class LawfulAgent (W : Type) `{ConsulAgent W} : Type := {
  registered : W → gset string;
  Register_effect : ∀ done r w w' err, agent_ServiceRegister done r w = (w', err) →
    registered w ⊆ registered w' ∧ registered w' ⊆ {[asr_ID r]} ∪ registered w ∧
    (err = None → asr_ID r ∈ registered w');
  Register_done : ∀ r w w' err, agent_ServiceRegister true r w = (w', err) →
    registered w' = registered w ∧ err ≠ None;
  Deregister_effect : ∀ done id ns w w' err, agent_ServiceDeregister done id ns w = (w', err) →
    registered w' ⊆ registered w ∧ registered w ⊆ {[id]} ∪ registered w' ∧
    (err = None → id ∉ registered w');
  UpdateTTL_effect : ∀ done id w w' err, agent_UpdateTTL done id w = (w', err) →
    registered w' = registered w;
  Service_effect : ∀ id ns w, match agent_Service id ns w with
    | ServiceFound => id ∈ registered w
    | ServiceNotFound => id ∉ registered w
    | ServiceFailed _ => True
    end
}.

Lemma elem_of_insert_list {A} (i : nat) (x y : A) (xs : list A) : y ∈ <[i := x]> xs → y = x ∨ y ∈ xs.
Proof.
  intros [j Hj]%list_elem_of_lookup. apply list_lookup_insert_Some in Hj as [(_ & <- & _)|[_ Hj]]; [by left|].
  right. by eapply list_elem_of_lookup_2.
Qed.

Section properties.
Context {RB : RetryBackoff} {W : Type} {CA : ConsulAgent W} {LA : LawfulAgent W} (cfg : registryConfig).
Implicit Types (s : ServiceRegistry W).

(** Every loop belongs to the current registration or to a cancelled one, and
    registers the identifier of the registry. *)
Record registry_inv s : Prop := {
  ri_loops : ∀ l, l ∈ sr_loops s → sr_cancel s = Some (loop_ctx l) ∨ loop_ctx l ∈ sr_cancelled s;
  ri_ids : ∀ ctx r phase, RegistrationLoop ctx r phase ∈ sr_loops s → asr_ID r = rgc_id cfg
}.

Lemma register_inv done r ttl s s' err :
  asr_ID r = rgc_id cfg → registry_inv s → register cfg done r ttl s = (s', err) → registry_inv s'.
Proof.
  intros Hid Hinv. pose proof Hinv as [Hl Hi]. unfold register. destruct (sr_cancel s) as [ctx|] eqn:Hc; [by intros [= <- _]|].
  destruct (retryRegistration cfg done r (sr_agent s)) as [w [e|]]; intros [= <- _]; split; simpl.
  - intros l Hin. rewrite Hc. by apply Hl.
  - exact Hi.
  - intros l [Hin|Hin]%elem_of_app.
    + right. destruct (Hl l Hin) as [?|?]; [congruence|]. destruct done; set_solver.
    + left. apply elem_of_cons in Hin as [->|Hin]; [done|].
      destruct ttl; [|by apply not_elem_of_nil in Hin].
      apply list_elem_of_singleton in Hin as ->. done.
  - intros ctx r' phase [Hin|Hin]%elem_of_app; [by eapply Hi|].
    apply elem_of_cons in Hin as [[= _ -> _]|Hin]; [done|].
    destruct ttl; [|by apply not_elem_of_nil in Hin]. by apply list_elem_of_singleton in Hin.
Qed.

Lemma Deregister_inv s s' err : registry_inv s → Deregister cfg s = (s', err) → registry_inv s'.
Proof.
  intros [Hl Hi]. unfold Deregister. destruct (backoff_Run _ _ _) as [w e]. intros [= <- _].
  split; simpl; destruct (sr_cancel s) as [ctx|] eqn:Hc; simpl; try done; intros l Hin;
    destruct (Hl l Hin) as [Heq|?]; rewrite ?Hc; set_solver.
Qed.

Lemma loop_step_inv s s' : loop_step cfg s s' → registry_inv s → registry_inv s'.
Proof.
  intros [s1 i ctx r phase phase' w Hi Hstep|s1 i ctx w err Hi Hw|s1 l loops1 loops2 Heq Hd _] [Hl Hids].
  - assert (RegistrationLoop ctx r phase ∈ sr_loops s1) as Hin by by eapply list_elem_of_lookup_2.
    split; simpl.
    + intros l Hin'. apply elem_of_insert_list in Hin' as [->|Hin']; [by apply (Hl _ Hin)|by apply Hl].
    + intros ctx' r' p' Hin'. apply elem_of_insert_list in Hin' as [[= _ -> _]|Hin']; by eapply Hids.
  - by split.
  - split; simpl.
    + intros l' Hin. apply Hl. rewrite Heq. set_solver.
    + intros ctx r p Hin. apply (Hids ctx r p). rewrite Heq. set_solver.
Qed.

Lemma registry_step_inv s s' : registry_step cfg s s' → registry_inv s → registry_inv s'.
Proof.
  intros [done ttl s1 s1' err Hr|done s1 s1' err Hr|ctxs s1|s1 s1' err Hr|s1 s1' Hr|w s1].
  - intros Hinv. eapply register_inv; [|exact Hinv|exact Hr]. done.
  - intros Hinv. eapply register_inv; [|exact Hinv|exact Hr]. done.
  - intros [Hl Hi]. split; [|exact Hi]. intros l Hin. simpl. destruct (Hl l Hin); set_solver.
  - intros Hinv. by eapply Deregister_inv.
  - by apply loop_step_inv.
  - by intros [? ?].
Qed.

(** ** After deregistration *)

(** Nothing that still runs can register the identifier. *)
Record quiet s : Prop := {
  q_gone : rgc_id cfg ∉ registered (sr_agent s);
  q_loops : ∀ l, l ∈ sr_loops s → loop_ctx l ∈ sr_cancelled s;
  q_ids : ∀ ctx r phase, RegistrationLoop ctx r phase ∈ sr_loops s → asr_ID r = rgc_id cfg
}.

(** A step of the loops, or a change of the agent by others. *)
Inductive background_step : ServiceRegistry W → ServiceRegistry W → Prop :=
  | BackgroundLoop s s' : loop_step cfg s s' → background_step s s'
  | BackgroundAgent w s :
      (rgc_id cfg ∈ registered w → rgc_id cfg ∈ registered (sr_agent s)) →
      background_step s (sr_set_agent w s).

Lemma ensure_step_quiet s ctx r phase phase' w :
  ctx ∈ sr_cancelled s → ensure_step cfg s ctx r phase = (phase', w) →
  registered w = registered (sr_agent s).
Proof.
  intros Hctx. unfold ensure_step. destruct phase as [| |n]; [by intros [= _ <-]| |].
  { destruct (agent_Service _ _ _); by intros [= _ <-]. }
  unfold ctx_done. rewrite bool_decide_true by done.
  destruct (agent_ServiceRegister true r (sr_agent s)) as [w1 e] eqn:Hr. apply Register_done in Hr as [Hw _].
  destruct e; [destruct n|]; by intros [= _ <-].
Qed.

Lemma background_quiet s s' : background_step s s' → quiet s → quiet s'.
Proof.
  intros [s1 s1' Hl|w s1 Hw] [Hgone Hloops Hids]; [|by split; [intros Hin; by apply Hgone, Hw|..]].
  destruct Hl as [s1 i ctx r phase phase' w Hi Hstep|s1 i ctx w err Hi Hw|s1 l loops1 loops2 Heq Hd _].
  - assert (RegistrationLoop ctx r phase ∈ sr_loops s1) as Hin by by eapply list_elem_of_lookup_2.
    apply ensure_step_quiet in Hstep; [|by apply (Hloops _ Hin)]. split; simpl.
    + by rewrite Hstep.
    + intros l [->|?]%elem_of_insert_list; [by apply (Hloops _ Hin)|by apply Hloops].
    + intros ctx' r' p' [[= _ -> _]|?]%elem_of_insert_list; by eapply Hids.
  - apply UpdateTTL_effect in Hw. split; simpl; [by rewrite Hw|done|done].
  - split; simpl; [done| |].
    + intros l' Hin. apply Hloops. rewrite Heq. set_solver.
    + intros ctx r p Hin. apply (Hids ctx r p). rewrite Heq. set_solver.
Qed.

Lemma Deregister_quiet s s' : registry_inv s → Deregister cfg s = (s', None) → quiet s'.
Proof.
  intros Hinv Hd. pose proof (Deregister_inv _ _ _ Hinv Hd) as [Hl Hi]. unfold Deregister in Hd.
  set (s0 := match sr_cancel s with Some _ => _ | None => s end) in Hd.
  assert (sr_cancel s0 = None) as Hc0 by (unfold s0; by destruct (sr_cancel s) eqn:?).
  rewrite backoff_Run_spec in Hd. destruct (retry_loop _ _ _) as [w e] eqn:Hrun. injection Hd as <- ->.
  assert (rgc_id cfg ∉ registered w) as Hgone.
  { revert Hrun. generalize (sr_agent s0) (rgc_tries cfg). intros w0 n. revert w0.
    induction n as [|n IH]; intros w0; simpl;
      destruct (agent_ServiceDeregister _ _ _ w0) as [w1 [e|]] eqn:Hreq; try done.
    - intros [= <-]. by apply Deregister_effect in Hreq as (_ & _ & Hok); apply Hok.
    - apply IH.
    - intros [= <-]. by apply Deregister_effect in Hreq as (_ & _ & Hok); apply Hok. }
  split; [done| |done]. intros l Hin. destruct (Hl l Hin) as [Hsome|?]; [|done]. simpl in Hsome.
  by rewrite Hc0 in Hsome.
Qed.

(** Deregistration is final.  After [Deregister] succeeded, whatever it
    interrupted, even a loop that was about to register the service again, the
    agent does not get the service back: the loops, however they interleave,
    cannot register it any more, until the caller registers it anew. *)
Theorem deregistered_for_good (w : W) s s1 s2 :
  rtc (registry_step cfg) (new_registry w) s → Deregister cfg s = (s1, None) →
  rtc background_step s1 s2 → rgc_id cfg ∉ registered (sr_agent s2).
Proof.
  intros Hreach Hd Hback.
  assert (registry_inv s) as Hinv.
  { eapply (rtc_preserve _ registry_inv); [by apply registry_step_inv|exact Hreach|].
    split; [by intros l ?%not_elem_of_nil|by intros ??? ?%not_elem_of_nil]. }
  apply Deregister_quiet in Hd; [|done].
  by apply (rtc_preserve _ quiet _ _ background_quiet Hback).
Qed.

(** ** Lost registrations *)

Definition at_phase s (i ctx : nat) (r : AgentServiceRegistration) (phase : loop_phase) : Prop :=
  sr_loops s !! i = Some (RegistrationLoop ctx r phase) ∧ ctx ∉ sr_cancelled s.

(** A step of the loop at [i]. *)
Lemma ensure_loop_step s i ctx r phase phase' w :
  at_phase s i ctx r phase → ensure_step cfg s ctx r phase = (phase', w) →
  ∃ s', loop_step cfg s s' ∧ at_phase s' i ctx r phase' ∧ sr_agent s' = w.
Proof.
  intros [Hi Hctx] Hstep. eexists. split; [by eapply StepEnsure|]. split; [|done]. split; [|done].
  simpl. apply list_lookup_insert_eq. by eapply lookup_lt_Some.
Qed.

(** An attempt to register. *)
Lemma attempt_step s i ctx r n w e :
  at_phase s i ctx r (Registering n) → agent_ServiceRegister false r (sr_agent s) = (w, e) →
  ∃ s', loop_step cfg s s' ∧ sr_agent s' = w ∧
    at_phase s' i ctx r
      (match e, n with Some _, S n => Registering n | _, _ => Waiting end).
Proof.
  intros Hat Hreq. pose proof Hat as [_ Hctx].
  destruct (ensure_loop_step s i ctx r (Registering n)
    (match e, n with Some _, S n => Registering n | _, _ => Waiting end) w Hat) as (s' & ? & ? & ?);
    [|by exists s'].
  unfold ensure_step, ctx_done. rewrite bool_decide_false, Hreq by done. by destruct e, n.
Qed.

Lemma retries_restore s i ctx r n w :
  at_phase s i ctx r (Registering n) →
  retry_loop n (agent_ServiceRegister false r) (sr_agent s) = (w, None) →
  ∃ s', rtc (loop_step cfg) s s' ∧ at_phase s' i ctx r Waiting ∧ sr_agent s' = w.
Proof.
  revert s. induction n as [|n IH]; intros s Hat Hrun; simpl in Hrun;
    destruct (agent_ServiceRegister false r (sr_agent s)) as [w1 e] eqn:Hreq;
    destruct (attempt_step _ _ _ _ _ _ _ Hat Hreq) as (s1 & Hs & Hw1 & Hat1);
    destruct e as [e|]; try done.
  - injection Hrun as <-. exists s1. split; [by apply rtc_once|done].
  - rewrite <-Hw1 in Hrun. destruct (IH s1 Hat1 Hrun) as (s2 & Hr & Hat2 & Hw2).
    exists s2. split; [by eapply rtc_l|done].
  - injection Hrun as <-. exists s1. split; [by apply rtc_once|done].
Qed.

Lemma retry_loop_registers n r (w w' : W) :
  retry_loop n (agent_ServiceRegister false r) w = (w', None) → asr_ID r ∈ registered w'.
Proof.
  revert w. induction n as [|n IH]; intros w; simpl;
    destruct (agent_ServiceRegister false r w) as [w1 [e|]] eqn:Hreq; try done.
  - intros [= <-]. apply Register_effect in Hreq as (_ & _ & Hok). by apply Hok.
  - apply IH.
  - intros [= <-]. apply Register_effect in Hreq as (_ & _ & Hok). by apply Hok.
Qed.

(** A lost registration is restored.  When the agent forgot a service whose
    registration was not cancelled, the waiting loop finds out and registers it
    again, in steps of its own, provided one of the attempts it is allowed is
    accepted; afterwards it waits again. *)
Theorem lost_registration_restored s i ctx r w :
  asr_ID r = rgc_id cfg → at_phase s i ctx r Waiting →
  agent_Service (rgc_id cfg) (rgc_namespace cfg) (sr_agent s) = ServiceNotFound →
  retry_loop (rgc_tries cfg) (agent_ServiceRegister false r) (sr_agent s) = (w, None) →
  ∃ s', rtc (loop_step cfg) s s' ∧ at_phase s' i ctx r Waiting ∧
    rgc_id cfg ∈ registered (sr_agent s').
Proof.
  intros Hid Hat Hlost Hrun.
  destruct (ensure_loop_step s i ctx r Waiting Checking (sr_agent s) Hat eq_refl) as (s1 & H1 & Hat1 & Hw1).
  assert (ensure_step cfg s1 ctx r Checking = (Registering (rgc_tries cfg), sr_agent s1)) as Hcheck
    by (simpl; by rewrite Hw1, Hlost).
  destruct (ensure_loop_step _ _ _ _ _ _ _ Hat1 Hcheck) as (s2 & H2 & Hat2 & Hw2).
  rewrite <-Hw1, <-Hw2 in Hrun. destruct (retries_restore _ _ _ _ _ _ Hat2 Hrun) as (s3 & H3 & Hat3 & Hw3).
  exists s3. split; [|split; [done|]].
  - eapply rtc_l; [exact H1|]. by eapply rtc_l.
  - rewrite Hw3, <-Hid. by eapply retry_loop_registers.
Qed.

End properties.

(** ** Examples *)

Module RegistrationExamples.

#[export] Instance direct_retry : RetryBackoff :=
  {| backoff_Run := @retry_loop; backoff_Run_spec := λ _ _ _ _, eq_refl |}.

(** An agent that accepts every request in time. *)
#[export] Instance set_agent : ConsulAgent (gset string) := {|
  agent_ServiceRegister ctx_done r w :=
    if ctx_done : bool then (w, Some (ErrString "context canceled")) else ({[asr_ID r]} ∪ w, None);
  agent_ServiceDeregister ctx_done id _ w :=
    if ctx_done : bool then (w, Some (ErrString "context canceled")) else (w ∖ {[id]}, None);
  agent_Service id _ w := if bool_decide (id ∈ w) then ServiceFound else ServiceNotFound;
  agent_UpdateTTL _ _ w := (w, None)
|}.

#[export] Program Instance set_agent_lawful : LawfulAgent (gset string) := {| registered := id |}.
Next Obligation. intros [] r w w' err [= <- <-]; set_solver. Qed.
Next Obligation. intros r w w' err [= <- <-]. by split. Qed.
Next Obligation.
  intros [] i ns w w' err [= <- <-]; [set_solver|]. simpl. unfold id. split_and!; [set_solver| |set_solver].
  intros x Hx. destruct (decide (x = i)); set_solver.
Qed.
Next Obligation. by intros done id w w' err [= <- _]. Qed.
Next Obligation. intros id ns w. simpl. by case_bool_decide. Qed.

Definition cfg : registryConfig := NewServiceRegistry "id" "gateway" "" "" "10.0.0.1".

Definition registered_once : ServiceRegistry (gset string) :=
  (RegisterGateway cfg false true (new_registry ∅)).1.

Lemma registered_reachable : rtc (registry_step cfg) (new_registry (∅ : gset string)) registered_once.
Proof.
  eapply rtc_l; [|apply rtc_refl].
  eapply (StepRegisterGateway cfg false true _ _ (RegisterGateway cfg false true (new_registry (∅ : gset string))).2).
  apply surjective_pairing.
Qed.

Lemma deregistered :
  Deregister cfg registered_once = ((Deregister cfg registered_once).1, None).
Proof. vm_compute. reflexivity. Qed.

(** The agent restarted and lost its services. *)
Definition forgotten : ServiceRegistry (gset string) := sr_set_agent ∅ registered_once.

End RegistrationExamples.

Import (hints) RegistrationExamples.

Lemma deregistered_for_good_witness :
  "id" ∈ sr_agent RegistrationExamples.registered_once ∧
  "id" ∉ sr_agent (Deregister RegistrationExamples.cfg RegistrationExamples.registered_once).1.
Proof.
  split; [vm_compute; reflexivity|].
  exact (deregistered_for_good RegistrationExamples.cfg (∅ : gset string)
    RegistrationExamples.registered_once _ _ RegistrationExamples.registered_reachable
    RegistrationExamples.deregistered (rtc_refl _ _)).
Defined.

Lemma lost_registration_restored_witness :
  ∃ s', rtc (loop_step RegistrationExamples.cfg) RegistrationExamples.forgotten s' ∧
    "id" ∈ sr_agent s'.
Proof.
  destruct (lost_registration_restored RegistrationExamples.cfg RegistrationExamples.forgotten 0 0
    (gateway_registration RegistrationExamples.cfg true) ({["id"]} ∪ ∅ : gset string) eq_refl)
    as (s' & Hs & _ & Hin).
  - split; [reflexivity|]. apply not_elem_of_empty.
  - reflexivity.
  - reflexivity.
  - exists s'. split; [exact Hs|exact Hin].
Defined.
