(* ===== verification/Connection.v ===== *)
(** * The connection to Consul ([internal/consul/connection.go])

    A client connects either to one address, logging in first when an
    authentication method is configured, or to whatever servers a watcher of
    [consul-server-connection-manager] reports.  [WatchServers] runs in the
    background: it builds the API client, announces that on the channel
    [initialized], rebuilds the client for every state the watcher reports, and
    logs out in the end.  Everybody else waits for the channel and then uses
    the client.

    The API client, its constructor and the watcher are other packages: a
    class and parameters.  The configuration the constructor fills in is
    shared through a pointer, so it is part of the state. *)

From S2P Require Import Prelude Errors Intentions Registration.

(** ** Outside *)

(** [api.Config], the fields that matter here. *)
Record api_Config : Type := mkApiConfig {
  ac_Address : string;
  ac_Scheme : string;
  ac_Token : string;
  ac_TokenFile : string;
  ac_Namespace : string;
  ac_CAFile : string;
  ac_TLSAddress : string
}.

Definition ac_set_Address (x : string) (c : api_Config) : api_Config :=
  mkApiConfig x (ac_Scheme c) (ac_Token c) (ac_TokenFile c) (ac_Namespace c) (ac_CAFile c) (ac_TLSAddress c).
Definition ac_set_Token (x : string) (c : api_Config) : api_Config :=
  mkApiConfig (ac_Address c) (ac_Scheme c) x (ac_TokenFile c) (ac_Namespace c) (ac_CAFile c) (ac_TLSAddress c).
Definition ac_set_Namespace (x : string) (c : api_Config) : api_Config :=
  mkApiConfig (ac_Address c) (ac_Scheme c) (ac_Token c) (ac_TokenFile c) x (ac_CAFile c) (ac_TLSAddress c).
Definition ac_set_TLSAddress (x : string) (c : api_Config) : api_Config :=
  mkApiConfig (ac_Address c) (ac_Scheme c) (ac_Token c) (ac_TokenFile c) (ac_Namespace c) (ac_CAFile c) x.

(** Consul's API.  [api_NewClient] fills defaults from the environment in, in
    the configuration it is passed, and the client keeps a copy of the result.
    What was set it leaves alone, except that a token file has precedence. *)
Class ConsulAPI (W : Type) : Type := {
  api_Client : Type;
  client_config : api_Client → api_Config;
  api_NewClient : W → api_Config → api_Config * result api_Client;
  ACL_Login : api_Client → string → ACLLoginParams → W → W * result string;
  ACL_Logout : api_Client → string → W → W * option error;
  NewClient_config : ∀ w cfg cfg' cl, api_NewClient w cfg = (cfg', Ok cl) → client_config cl = cfg';
  NewClient_keeps : ∀ w cfg cfg' r, api_NewClient w cfg = (cfg', r) →
    ac_TokenFile cfg' = ac_TokenFile cfg ∧
    (ac_Namespace cfg ≠ "" → ac_Namespace cfg' = ac_Namespace cfg) ∧
    (ac_Token cfg ≠ "" → ac_TokenFile cfg = "" → ac_Token cfg' = ac_Token cfg)
}.

(** [discovery.Credentials] *)
Inductive Credentials : Type :=
  | CredentialsStatic (token : string)
  | CredentialsLogin (authMethod namespace bearerToken : string).

(** [discovery.Config]; the TLS configuration by its server name. *)
Record discovery_Config : Type := mkDiscoveryConfig {
  dc_Addresses : string;
  dc_GRPCPort : Z;
  dc_Credentials : Credentials;
  dc_TLS : option string
}.

(** [discovery.State] *)
Record discovery_State : Type := mkDiscoveryState {
  ds_Address : string;
  ds_Token : string
}.

(** ** The client *)

Record ClientConfig : Type := mkClientConfig {
  cc_Name : string;
  cc_Namespace : string;
  cc_ApiClientConfig : api_Config;
  cc_UseDynamic : bool;
  cc_PlainText : bool;
  cc_Addresses : string;
  cc_HTTPPort : Z;
  cc_GRPCPort : Z;
  cc_TLS : option string;
  cc_Credentials : Credentials
}.

Definition cc_set_api (a : api_Config) (c : ClientConfig) : ClientConfig :=
  mkClientConfig (cc_Name c) (cc_Namespace c) a (cc_UseDynamic c) (cc_PlainText c) (cc_Addresses c)
    (cc_HTTPPort c) (cc_GRPCPort c) (cc_TLS c) (cc_Credentials c).

(** The channel [initialized], which buffers one error. *)
Record channel : Type := mkChannel {
  ch_buffer : option error;
  ch_closed : bool
}.

(** A send on a closed channel panics, one on a full channel blocks for ever;
    both are [None]. *)
Definition ch_send (err : error) (ch : channel) : option channel :=
  match ch with
  | mkChannel None false => Some (mkChannel (Some err) false)
  | _ => None
  end.

Definition ch_close (ch : channel) : option channel :=
  if ch_closed ch then None else Some (mkChannel (ch_buffer ch) true).

Section client.
Context {RB : RetryBackoff} {W : Type} {CA : ConsulAPI W}.

Record client : Type := mkClient {
  cl_config : ClientConfig;
  cl_client : option api_Client;
  cl_token : string;
  cl_initialized : channel
}.

Definition NewClient (config : ClientConfig) : client :=
  mkClient config None "" (mkChannel None false).

Definition cl_set_api (a : api_Config) (c : client) : client :=
  mkClient (cc_set_api a (cl_config c)) (cl_client c) (cl_token c) (cl_initialized c).
Definition cl_set_channel (ch : channel) (c : client) : client :=
  mkClient (cl_config c) (cl_client c) (cl_token c) ch.
Definition cl_connected (cl : api_Client) (token : string) (c : client) : client :=
  mkClient (cl_config c) (Some cl) token (cl_initialized c).

(** [Wait]: what it may return, with the channel it leaves; without anything
    to receive it returns when the time is over. *)
Definition Wait (timeout : bool) (c : client) : list (option error * client) :=
  (match ch_buffer (cl_initialized c) with
   | Some err => [(Some err, cl_set_channel (mkChannel None (ch_closed (cl_initialized c))) c)]
   | None => if ch_closed (cl_initialized c) then [(None, c)] else []
   end) ++
  (if timeout then [(Some (ErrString "did not get state within time limit"), c)] else []).

(** [login]: the shared configuration, the world, and the client that uses the
    token. *)
Definition login (config : ClientConfig) (authMethod namespace bearerToken : string) (base : api_Client)
    (w : W) : api_Config * W * result (api_Client * string) :=
  match Authenticate (ACL_Login base) (NewAuthenticator authMethod namespace) (cc_Name config) bearerToken w with
  | (w, _, Some err) => (cc_ApiClientConfig config, w, Err (ErrWrap "error logging in to consul: " err))
  | (w, token, None) =>
      match api_NewClient w (ac_set_Token token (cc_ApiClientConfig config)) with
      | (a, Err err) => (a, w, Err (ErrWrap "error updating client connection with token: " err))
      | (a, Ok cl) => (a, w, Ok (cl, token))
      end
  end.

Definition logout (base : api_Client) (token : string) (w : W) : W * option error :=
  let (w, err) := ACL_Logout base token w in (w, ErrWrap "error deleting acl token: " <$> err).

(** Where [WatchServers] is: waiting for its context with a session to log out
    of, following the watcher, or returned. *)
Inductive watch_phase : Type :=
  | Watching (session : option (api_Client * string))
  | Following (static : bool) (serverName : string)
  | Returned (err : option error).

(** [c.initialized <- err; return err] *)
Definition watch_fails (err : error) (c : client) (w : W) : option (client * W * watch_phase) :=
  ch ← ch_send err (cl_initialized c); Some (cl_set_channel ch c, w, Returned (Some err)).

Definition host_port (host : string) (port : Z) : string := host +:+ ":" +:+ strconv_Itoa port.

(** [if c.config.Namespace != "" { cfg.Namespace = c.config.Namespace }] *)
Definition with_namespace (config : ClientConfig) (a : api_Config) : api_Config :=
  if bool_decide (cc_Namespace config ≠ "") then ac_set_Namespace (cc_Namespace config) a else a.

(** [WatchServers] with one address, until it waits for its context. *)
Definition watch_static (c : client) (w : W) : option (client * W * watch_phase) :=
  let config := cl_config c in
  let a := ac_set_Address (host_port (cc_Addresses config) (cc_HTTPPort config)) (cc_ApiClientConfig config) in
  let connected (a : api_Config) (w : W) (cl : api_Client) (session : option (api_Client * string)) :=
    let c := cl_connected cl (ac_Token a) (cl_set_api a c) in
    ch ← ch_close (cl_initialized c); Some (cl_set_channel ch c, w, Watching session) in
  match cc_Credentials config with
  | CredentialsLogin authMethod namespace bearerToken =>
      match api_NewClient w a with
      | (a, Err err) => watch_fails err (cl_set_api a c) w
      | (a, Ok base) =>
          let a := with_namespace config a in
          match login (cc_set_api a config) authMethod namespace bearerToken base w with
          | (a, w, Err err) => watch_fails err (cl_set_api a c) w
          | (a, w, Ok (cl, token)) => connected a w cl (Some (base, token))
          end
      end
  | CredentialsStatic token =>
      match api_NewClient w (with_namespace config (ac_set_Token token a)) with
      | (a, Err err) => watch_fails err (cl_set_api a c) w
      | (a, Ok cl) => connected a w cl None
      end
  end.

(** The closure [updateClient]. *)
Definition updateClient (static : bool) (serverName : string) (s : discovery_State) (c : client) (w : W) :
    client * option error :=
  let config := cl_config c in
  let address := if static then cc_Addresses config else ds_Address s in
  let a := with_namespace config (cc_ApiClientConfig config) in
  let a := ac_set_TLSAddress serverName
    (ac_set_Token (ds_Token s) (ac_set_Address (host_port address (cc_HTTPPort config)) a)) in
  match api_NewClient w a with
  | (a, Err err) => (cl_set_api a c, Some err)
  | (a, Ok cl) => (cl_connected cl (ds_Token s) (cl_set_api a c), None)
  end.

(** The server name certificates are checked against, and whether the address
    is a fixed one. *)
Definition server_name (config : ClientConfig) : string * bool :=
  let static := negb (strings_Contains (cc_Addresses config) "=") in
  let serverName := if static then cc_Addresses config else "" in
  match cc_TLS config with
  | Some name => (if bool_decide (name ≠ "") then name else serverName, static)
  | None => (serverName, static)
  end.

Definition discovery_config (config : ClientConfig) : discovery_Config :=
  mkDiscoveryConfig (cc_Addresses config) (cc_GRPCPort config) (cc_Credentials config)
    (if cc_PlainText config then None else cc_TLS config).

(** [WatchServers] with a watcher, until it follows it: [newWatcher] is whether
    one can be made, [initial] its first answer. *)
Definition watch_dynamic (newWatcher : discovery_Config → result unit) (initial : result discovery_State)
    (c : client) (w : W) : option (client * W * watch_phase) :=
  let (serverName, static) := server_name (cl_config c) in
  match newWatcher (discovery_config (cl_config c)) with
  | Err err => watch_fails err c w
  | Ok _ =>
      match initial with
      | Err err => watch_fails err c w
      | Ok state =>
          match updateClient static serverName state c w with
          | (c, Some err) => watch_fails err c w
          | (c, None) =>
              ch ← ch_close (cl_initialized c); Some (cl_set_channel ch c, w, Following static serverName)
          end
      end
  end.

Definition WatchServers (newWatcher : discovery_Config → result unit) (initial : result discovery_State)
    (c : client) (w : W) : option (client * W * watch_phase) :=
  if cc_UseDynamic (cl_config c) then watch_dynamic newWatcher initial c w else watch_static c w.

(** What happens afterwards: the watcher reports a state, or the context is
    done. *)
Definition watch_state (s : discovery_State) (c : client) (w : W) (phase : watch_phase) :
    client * watch_phase :=
  match phase with
  | Following static serverName =>
      match updateClient static serverName s c w with
      | (c, Some err) => (c, Returned (Some err))
      | (c, None) => (c, phase)
      end
  | _ => (c, phase)
  end.

Definition watch_done (w : W) (phase : watch_phase) : W * watch_phase :=
  match phase with
  | Watching (Some (base, token)) => ((logout base token w).1, Returned None)
  | Watching None | Following _ _ => (w, Returned None)
  | Returned err => (w, Returned err)
  end.

(** [Token] *)
Definition Token (c : client) : string := cl_token c.

End client.
Arguments client {W CA}.

(** ** Properties *)

Section properties.
Context {RB : RetryBackoff} {W : Type} {CA : ConsulAPI W}.
Implicit Types (c : client) (w : W) (phase : watch_phase).

(** The background work, the callers of [Wait], and everything else. *)
Inductive watch_step : client * W * watch_phase → client * W * watch_phase → Prop :=
  | StepState s c w phase c' phase' :
      watch_state s c w phase = (c', phase') → watch_step (c, w, phase) (c', w, phase')
  | StepDone c w phase w' phase' :
      watch_done w phase = (w', phase') → watch_step (c, w, phase) (c, w', phase')
  | StepWait timeout c w phase r c' : (r, c') ∈ Wait timeout c → watch_step (c, w, phase) (c', w, phase)
  | StepWorld c w w' phase : watch_step (c, w, phase) (c, w', phase).

(** The client works on behalf of the configuration: it uses the configured
    namespace, and the token others are told is the token it sends. *)
Record serves (config : ClientConfig) (token : string) (cl : api_Client) : Prop := {
  serves_namespace : cc_Namespace config ≠ "" → ac_Namespace (client_config cl) = cc_Namespace config;
  serves_token : cc_UseDynamic config = false ∨ token ≠ "" ∧ ac_TokenFile (cc_ApiClientConfig config) = "" →
    ac_Token (client_config cl) = token
}.

(** The configuration differs only in what the constructor filled in. *)
Definition same_config (config config' : ClientConfig) : Prop :=
  config' = cc_set_api (cc_ApiClientConfig config') config ∧
  ac_TokenFile (cc_ApiClientConfig config') = ac_TokenFile (cc_ApiClientConfig config).

Record connection_inv (config : ClientConfig) c phase : Prop := {
  conn_config : same_config config (cl_config c);
  conn_buffer : ch_closed (cl_initialized c) = true → ch_buffer (cl_initialized c) = None;
  conn_ready : ch_closed (cl_initialized c) = true →
    ∃ cl, cl_client c = Some cl ∧ serves config (cl_token c) cl;
  conn_failed : ch_closed (cl_initialized c) = false → ∃ err, phase = Returned (Some err);
  conn_dynamic : ∀ static name, phase = Following static name → cc_UseDynamic config = true
}.

Lemma with_namespace_keeps config a :
  ac_TokenFile (with_namespace config a) = ac_TokenFile a ∧ ac_Token (with_namespace config a) = ac_Token a ∧
  (cc_Namespace config ≠ "" → ac_Namespace (with_namespace config a) = cc_Namespace config).
Proof. unfold with_namespace. by case_bool_decide. Qed.

Lemma updateClient_spec config static name s c w c' err :
  same_config config (cl_config c) → updateClient static name s c w = (c', err) →
  same_config config (cl_config c') ∧ cl_initialized c' = cl_initialized c ∧
  match err with
  | None => cc_UseDynamic config = true → ∃ cl, cl_client c' = Some cl ∧ serves config (cl_token c') cl
  | Some _ => cl_client c' = cl_client c ∧ cl_token c' = cl_token c
  end.
Proof.
  intros [Hsame Hfile]. unfold updateClient.
  assert (cc_Namespace (cl_config c) = cc_Namespace config) as Hn by by rewrite Hsame.
  destruct (with_namespace_keeps (cl_config c) (cc_ApiClientConfig (cl_config c))) as (Hf & _ & Hns).
  rewrite Hn in Hns.
  destruct (api_NewClient _ _) as [a [cl|e]] eqn:Hnew;
    pose proof (NewClient_keeps _ _ _ _ Hnew) as (Hf' & Hns' & Htok); simpl in Hf', Hns', Htok;
    intros [= <- <-]; (split; [split; simpl; [by rewrite Hsame|by rewrite Hf', Hf]|split; [done|]]); [|done].
  intros Hdyn. exists cl. split; [done|]. apply NewClient_config in Hnew. split; rewrite Hnew.
  - intros Hne. rewrite Hns' by (by rewrite Hns). by apply Hns.
  - simpl. intros [Hd|[Ht Hnofile]]; [congruence|]. apply Htok; [done|]. by rewrite Hf, Hfile.
Qed.

(** A start that failed left its error in the channel. *)
Definition announced c phase : Prop :=
  ∀ err, phase = Returned (Some err) → cl_initialized c = mkChannel (Some err) false.

Lemma watch_fails_start config c w err :
  same_config config (cl_config c) → cl_initialized c = mkChannel None false →
  ∃ s, watch_fails err c w = Some s ∧ connection_inv config s.1.1 s.2 ∧ announced s.1.1 s.2.
Proof.
  intros Hc Hi. unfold watch_fails. rewrite Hi. eexists. split; [reflexivity|]. split; [split; try done; by eauto|].
  by intros e [= <-].
Qed.

Lemma same_config_api config c a :
  same_config config (cl_config c) → ac_TokenFile a = ac_TokenFile (cc_ApiClientConfig config) →
  same_config config (cl_config (cl_set_api a c)).
Proof. intros [Hs Hf] Ha. split; simpl; [by rewrite Hs|done]. Qed.

Lemma login_spec config m n b base w a w' r :
  login config m n b base w = (a, w', r) →
  ac_TokenFile a = ac_TokenFile (cc_ApiClientConfig config) ∧
  match r with
  | Err _ => True
  | Ok (cl, token) => client_config cl = a ∧
      (ac_Namespace (cc_ApiClientConfig config) ≠ "" → ac_Namespace a = ac_Namespace (cc_ApiClientConfig config))
  end.
Proof.
  unfold login. destruct (Authenticate _ _ _ _ _) as [[w1 token] [e|]]; [by intros [= <- _ <-]|].
  destruct (api_NewClient _ _) as [a1 [cl|e]] eqn:Hnew; intros [= <- _ <-];
    pose proof (NewClient_keeps _ _ _ _ Hnew) as (Hf & Hns & _); [|done].
  split; [done|]. split; [by eapply NewClient_config|done].
Qed.

Lemma watch_dynamic_start newWatcher initial config w :
  cc_UseDynamic config = true →
  ∃ s, watch_dynamic newWatcher initial (NewClient config) w = Some s ∧ connection_inv config s.1.1 s.2 ∧ announced s.1.1 s.2.
Proof.
  intros Hdyn. assert (same_config config (cl_config (NewClient config))) as H0 by (destruct config; by split).
  unfold watch_dynamic. destruct (server_name _) as [name static].
  destruct (newWatcher _) as [?|e]; [|by apply watch_fails_start].
  destruct initial as [st|e]; [|by apply watch_fails_start].
  destruct (updateClient _ _ _ _ _) as [c1 err] eqn:Hup.
  apply (updateClient_spec config) in Hup as (Hsame & Hch & Hres); [|done].
  destruct err as [e|]; [by apply watch_fails_start|].
  rewrite Hch. eexists. split; [reflexivity|]. split; [|done]. split; try done. intros _. by apply Hres.
Qed.

Lemma watch_static_start config w :
  cc_UseDynamic config = false →
  ∃ s, watch_static (NewClient config) w = Some s ∧ connection_inv config s.1.1 s.2 ∧ announced s.1.1 s.2.
Proof.
  intros Hdyn. assert (same_config config (cl_config (NewClient config))) as H0 by (destruct config; by split).
  unfold watch_static. simpl. set (a0 := ac_set_Address _ _).
  destruct (cc_Credentials config) as [token|method namespace bearer].
  - destruct (with_namespace_keeps config (ac_set_Token token a0)) as (Hf & _ & Hns).
    destruct (api_NewClient w _) as [a [cl|e]] eqn:Hnew;
      pose proof (NewClient_keeps _ _ _ _ Hnew) as (Hf' & Hns' & _); rewrite Hf in Hf'.
    2:{ apply watch_fails_start; [by apply same_config_api|done]. }
    eexists. split; [reflexivity|]. split; [|done]. split; try done. simpl.
    intros _. exists cl. split; [done|]. apply NewClient_config in Hnew. split; rewrite Hnew; [|done].
    intros Hne. rewrite Hns' by (by rewrite Hns). by apply Hns.
  - destruct (api_NewClient w a0) as [a [base|e]] eqn:Hnew;
      pose proof (NewClient_keeps _ _ _ _ Hnew) as (Hf & _ & _).
    2:{ apply watch_fails_start; [by apply same_config_api|done]. }
    destruct (with_namespace_keeps config a) as (Hf1 & _ & Hns).
    destruct (login _ _ _ _ _ _) as [[a2 w2] r] eqn:Hlogin. apply login_spec in Hlogin as [Hf2 Hr]. simpl in Hf2.
    rewrite Hf1, Hf in Hf2. destruct r as [[cl token]|e].
    2:{ apply watch_fails_start; [by apply same_config_api|done]. }
    destruct Hr as [Hcl Hkeep]. eexists. split; [reflexivity|].
    split; [|done]. split; try done. simpl.
    intros _. exists cl. split; [done|]. split; rewrite Hcl; [|done].
    intros Hne. rewrite Hkeep by (simpl; by rewrite Hns). by apply Hns.
Qed.

Lemma watch_start newWatcher initial config w :
  ∃ s, WatchServers newWatcher initial (NewClient config) w = Some s ∧ connection_inv config s.1.1 s.2 ∧ announced s.1.1 s.2.
Proof.
  unfold WatchServers. simpl. destruct (cc_UseDynamic config) eqn:Hdyn;
    [by apply watch_dynamic_start|by apply watch_static_start].
Qed.

Lemma Wait_spec timeout c r c' :
  (r, c') ∈ Wait timeout c →
  cl_config c' = cl_config c ∧ cl_client c' = cl_client c ∧ cl_token c' = cl_token c ∧
  ch_closed (cl_initialized c') = ch_closed (cl_initialized c) ∧
  (ch_buffer (cl_initialized c) = None → ch_buffer (cl_initialized c') = None) ∧
  (r = None → ch_closed (cl_initialized c) = true).
Proof.
  unfold Wait. intros [Hin|Hin]%elem_of_app.
  - destruct (ch_buffer _) as [err|] eqn:Hb.
    + apply list_elem_of_singleton in Hin as [= -> ->]. by split_and!.
    + destruct (ch_closed _) eqn:Hc; [|by apply not_elem_of_nil in Hin].
      apply list_elem_of_singleton in Hin as [= -> ->]. by split_and!.
  - destruct timeout; [|by apply not_elem_of_nil in Hin]. apply list_elem_of_singleton in Hin as [= -> ->].
    by split_and!.
Qed.

Lemma watch_step_inv config a b :
  watch_step a b → connection_inv config a.1.1 a.2 → connection_inv config b.1.1 b.2.
Proof.
  intros [s c w phase c' phase' Hs|c w phase w' phase' Hs|timeout c w phase r c' Hw|c w w' phase] Hinv;
    simpl in *; [| | |done].
  - destruct phase as [|static name|]; try by injection Hs as <- <-. simpl in Hs.
    destruct (updateClient _ _ _ _ _) as [c1 err] eqn:Hup. destruct Hinv as [Hc Hb Hr Hf Hd].
    apply (updateClient_spec config) in Hup as (Hc1 & Hch & Hres); [|done].
    destruct (ch_closed (cl_initialized c)) eqn:Hclosed.
    2:{ destruct (Hf eq_refl) as [e He]. done. }
    destruct err as [e|]; injection Hs as <- <-; (split; rewrite ?Hch, ?Hclosed; try done).
    + intros _. destruct Hres as [-> ->]. by apply Hr.
    + intros _. by apply Hres, (Hd static name).
  - destruct Hinv as [Hc Hb Hr Hf Hd]. split; try done.
    + intros Hclosed. destruct (Hf Hclosed) as [err ->]. injection Hs as _ <-. by eauto.
    + intros static name ->. destruct phase as [[[]|]| |]; by simplify_eq/=.
  - apply Wait_spec in Hw as (H1 & H2 & H3 & H4 & H5 & _). destruct Hinv as [Hc Hb Hr Hf Hd].
    split; rewrite ?H1, ?H2, ?H3, ?H4; auto.
Qed.

(** Who waited for the connection can use it.  [WatchServers] neither
    panics nor blocks on its channel, whatever the environment answers; if it
    fails before there is a client, [Wait] returns exactly that error; and
    whenever [Wait] returns without an error, however many states were reported
    before, there is a client that works in the configured namespace and sends
    the token that [Token] tells others (with discovery: if there is one and no
    token file overrides it). *)
Theorem connection_established newWatcher initial config w0 :
  ∃ c0 w1 phase0, WatchServers newWatcher initial (NewClient config) w0 = Some (c0, w1, phase0) ∧
  (∀ err, phase0 = Returned (Some err) → (Wait false c0).*1 = [Some err]) ∧
  ∀ c w phase, rtc watch_step (c0, w1, phase0) (c, w, phase) →
    ∀ timeout c', (None, c') ∈ Wait timeout c →
    ∃ cl, cl_client c' = Some cl ∧ serves config (Token c') cl.
Proof.
  destruct (watch_start newWatcher initial config w0) as ([[c0 w1] phase0] & Hs & Hinv & Hann).
  exists c0, w1, phase0. split; [done|]. split.
  - intros err Herr. simpl in Hann. unfold Wait. by rewrite (Hann err Herr).
  - intros c w phase Hr timeout c' Hw.
    assert (connection_inv config c phase) as [_ _ Hready _ _].
    { apply (rtc_preserve _ (λ a, connection_inv config a.1.1 a.2) _ _ (watch_step_inv config) Hr Hinv). }
    apply Wait_spec in Hw as (_ & Hcl & Htok & _ & _ & Hclosed). unfold Token. rewrite Hcl, Htok. by apply Hready, Hclosed.
Qed.

End properties.

(** ** Sessions *)

(** The tokens a login created and no logout deleted.  A request may take
    effect although it reports an error. *)
Class LawfulACL (W : Type) `{ConsulAPI W} : Type := {
  tokens : W → gset string;
  Login_effect : ∀ cl ns params w w' r, ACL_Login cl ns params w = (w', r) →
    tokens w ⊆ tokens w' ∧ match r with Ok token => token ∈ tokens w' | Err _ => True end;
  Logout_effect : ∀ cl token w w' err, ACL_Logout cl token w = (w', err) →
    tokens w' ⊆ tokens w ∧ tokens w ⊆ {[token]} ∪ tokens w' ∧ (err = None → token ∉ tokens w')
}.

Section sessions.
Context {RB : RetryBackoff} {W : Type} {CA : ConsulAPI W} {LA : LawfulACL W}.

Lemma Authenticate_token cl (a : Authenticator) service bearer w w' token err :
  Authenticate (ACL_Login cl) a service bearer w = (w', token, err) →
  tokens w ⊆ tokens w' ∧ (err = None → token ∈ tokens w').
Proof.
  unfold Authenticate. rewrite backoff_Run_spec.
  destruct (retry_loop _ _ _) as [[w1 t1] e1] eqn:Hrun. intros [= <- <- <-]. revert Hrun.
  generalize (au_tries a) "". intros n. revert w. unfold authenticate.
  destruct (login_request a service bearer) as [ns params].
  induction n as [|n IH]; intros w t0; simpl;
    destruct (ACL_Login cl ns params w) as [w2 [token2|e2]] eqn:Hreq;
    apply Login_effect in Hreq as [Hsub Hok].
  - intros [= <- <- <-]. by split.
  - intros [= <- <- <-]. by split.
  - intros [= <- <- <-]. by split.
  - intros [Hsub' Hok']%IH. split; [set_solver|done].
Qed.

(** A session that was opened is the client's own and can be closed. *)
Lemma session_of_client newWatcher initial config w c w' base token :
  WatchServers newWatcher initial (NewClient config) w = Some (c, w', Watching (Some (base, token))) →
  token ∈ tokens w'.
Proof.
  unfold WatchServers. simpl. destruct (cc_UseDynamic config).
  { unfold watch_dynamic. destruct (server_name _) as [name static], (newWatcher _), initial; try done.
    destruct (updateClient _ _ _ _ _) as [c1 []]; unfold watch_fails; destruct (cl_initialized c1) as [[] []]; done. }
  unfold watch_static. simpl. destruct (cc_Credentials config) as [t|m n b].
  { by destruct (api_NewClient _ _) as [a [cl|e]]. }
  destruct (api_NewClient _ _) as [a [cl|e]]; [|done]. destruct (login _ _ _ _ _ _) as [[a2 w2] [[cl2 t2]|e]] eqn:Hl; [|done].
  intros [= _ <- _ <-]. unfold login in Hl.
  destruct (Authenticate _ _ _ _ _) as [[w3 t3] [e|]] eqn:Hauth; [done|].
  destruct (api_NewClient _ _) as [a4 [cl4|e]]; [|done]. injection Hl as _ <- _ <-.
  by apply Authenticate_token in Hauth as [_ Hok]; apply Hok.
Qed.

(** When the client that should use a token cannot be built, [WatchServers]
    returns without logging out: the token stays behind. *)
Lemma failed_client_leaves_token config m n b base w w1 token a' err :
  Authenticate (ACL_Login base) (NewAuthenticator m n) (cc_Name config) b w = (w1, token, None) →
  api_NewClient w1 (ac_set_Token token (cc_ApiClientConfig config)) = (a', Err err) →
  login config m n b base w
  = (a', w1, Err (ErrWrap "error updating client connection with token: " err)) ∧ token ∈ tokens w1.
Proof.
  intros Hauth Hnew. split; [unfold login; by rewrite Hauth, Hnew|].
  apply Authenticate_token in Hauth as [_ Hok]. by apply Hok.
Qed.

End sessions.

(** ** Examples *)

Module ConnectionExamples.

Import (hints) RegistrationExamples.

(** Consul issues one token. *)
#[export] Program Instance one_token : ConsulAPI (gset string) := {|
  api_Client := api_Config;
  client_config := id;
  api_NewClient _ cfg := (cfg, Ok cfg);
  ACL_Login _ _ _ w := ({["secret"]} ∪ w, Ok "secret");
  ACL_Logout _ token w := (w ∖ {[token]}, None)
|}.
Next Obligation. by intros w cfg cfg' cl [= <- <-]. Qed.
Next Obligation. by intros w cfg cfg' r [= <- _]. Qed.

Definition api_config : api_Config := mkApiConfig "" "https" "" "" "" "/ca.pem" "".
Definition login_config : ClientConfig :=
  mkClientConfig "gateway" "team" api_config false false "consul.local" 8501 8502 None
    (CredentialsLogin "k8s" "default" "jwt").

Definition final_config : api_Config :=
  mkApiConfig "consul.local:8501" "https" "secret" "" "team" "/ca.pem" "".
Definition connected : client :=
  mkClient (cc_set_api final_config login_config) (Some final_config) "secret" (mkChannel None true).

Lemma connects :
  WatchServers (λ _, Ok tt) (Err (ErrString "no state")) (NewClient login_config) (∅ : gset string)
  = Some (connected, {["secret"]} ∪ ∅,
      Watching (Some (mkApiConfig "consul.local:8501" "https" "" "" "" "/ca.pem" "", "secret"))).
Proof. reflexivity. Qed.

Lemma connected_ready : (None, connected) ∈ Wait false connected.
Proof. by left. Qed.

End ConnectionExamples.

Import (hints) RegistrationExamples ConnectionExamples.

Lemma connection_established_witness :
  ∃ cl, cl_client ConnectionExamples.connected = Some cl ∧
    ac_Namespace cl = "team" ∧ ac_Token cl = "secret".
Proof.
  destruct (connection_established (λ _, Ok tt) (Err (ErrString "no state")) ConnectionExamples.login_config
    (∅ : gset string)) as (c0 & w1 & phase0 & Hs & _ & Hready).
  rewrite ConnectionExamples.connects in Hs. injection Hs as <- <- <-.
  destruct (Hready _ _ _ (rtc_refl _ _) false _ ConnectionExamples.connected_ready) as (cl & Hcl & [Hns Htok]).
  exists cl. split; [exact Hcl|]. split; [apply Hns; discriminate|apply Htok; left; reflexivity].
Defined.
