(* ===== verification/Exec.v ===== *)
(** * The process beside Envoy ([internal/commands/exec/exec.go])

    [RunExec] is the main function of a gateway's pod: it connects to Consul,
    registers the gateway, renders the configuration of Envoy, waits for the
    first certificates, starts Envoy, waits for the end, deregisters the gateway
    and logs out.  Most of it happens concurrently: the connection, the loops of
    the registry, the certificate manager and Envoy run beside the main
    function, and a signal may arrive at any time.  [exec_step] has one rule for
    each thing that can happen, so that the theorems hold for every
    interleaving.  Operations of the components are atomic.  What Consul knows
    is in the registry's record ([sr_agent]). *)

From S2P Require Import Prelude Errors Json JsonSyntax Builder CertManager Bootstrap Intentions Registration Connection.

(** ** Configuration *)

Record GatewayConfig : Type := mkGatewayConfig {
  gwc_Host : string;
  gwc_Name : string;
  gwc_Namespace : string;
  gwc_Partition : string
}.

Record EnvoyConfig : Type := mkEnvoyConfig {
  ec_CACertificateFile : string;
  ec_XDSAddress : string;
  ec_XDSPort : Z;
  ec_SDSAddress : string;
  ec_SDSPort : Z;
  ec_BootstrapFile : string;
  ec_CertificateDirectory : string;
  ec_Binary : string;
  ec_ExtraArgs : list string
}.

Record ExecConfig : Type := mkExecConfig {
  xc_LogLevel : string;
  xc_GatewayConfig : GatewayConfig;
  xc_EnvoyConfig : EnvoyConfig;
  xc_ConsulClientConfig : ClientConfig;
  xc_PrimaryDatacenter : string;
  xc_isTest : bool
}.

(** [api.HTTPSSLEnvName] *)
Definition HTTPSSLEnvName : string := "CONSUL_HTTP_SSL".

(** The registry; [uuid] is its fresh identifier. *)
Definition exec_registry (uuid : string) (config : ExecConfig) : registryConfig :=
  let gw := xc_GatewayConfig config in
  let registry := NewServiceRegistry uuid (gwc_Name gw) (gwc_Namespace gw) (gwc_Partition gw) (gwc_Host gw) in
  if xc_isTest config then WithTries 1 registry else registry.

Definition exec_manager {EN : Environment} (registry : registryConfig) (token : string) (config : ExecConfig) :
    ManagerConfig :=
  let e := xc_EnvoyConfig config in
  mkManagerConfig (rgc_id registry) (rgc_namespace registry) (rgc_partition registry) (ec_CACertificateFile e)
    (ec_XDSAddress e) (ec_XDSPort e) token (ec_BootstrapFile e) (xc_LogLevel config) (ec_Binary e)
    (ec_ExtraArgs e) (bool_decide (Getenv HTTPSSLEnvName = "true")).

Definition certificate_directory (config : ExecConfig) : string :=
  let dir := ec_CertificateDirectory (xc_EnvoyConfig config) in
  if bool_decide (dir ≠ "") then dir else "/certs".

Definition exec_options (config : ExecConfig) : CertManagerOptions :=
  mkCertManagerOptions (certificate_directory config) (xc_PrimaryDatacenter config)
    (ec_SDSAddress (xc_EnvoyConfig config)) (ec_SDSPort (xc_EnvoyConfig config)).

Section exec.
Context {EN : Environment} {TP : TLSParsing} {RB : RetryBackoff}.
Context {A F : Type} {AG : ConsulAgent A} {API : ConsulAPI A} {FS : FileSystem F}.
(** [others w w']: what other users of Consul may do. *)
Context (uuid : string) (config : ExecConfig) (others : A → A → Prop).

#[local] Abbreviation registry := (exec_registry uuid config).

Definition exec_certs : CertManager :=
  NewCertManager (gwc_Name (xc_GatewayConfig config)) (Some (exec_options config)).

(** ** The state *)

(** Where the main function is. *)
Inductive exec_phase : Type :=
  | Connecting
  | Connected
  | Registered
  | AwaitingCertificates
  | Running
  | Exiting (ret : Z)
  | Exited (ret : Z).

(** A goroutine of the group: not started, started, watching (the certificate
    manager, once its set-up succeeded), or ended. *)
Inductive goroutine : Type :=
  | NotStarted
  | Started
  | WatchingCerts
  | Ended (err : option error).

Record exec : Type := mkExec {
  x_phase : exec_phase;
  x_interrupted : bool;          (** [ctx] is done *)
  x_session_done : bool;         (** [sessionContext] is done *)
  x_client : client;
  x_watch : option watch_phase;  (** [WatchServers], once it has started *)
  x_registry : ServiceRegistry A;
  x_certs : CertManager;
  x_files : F;
  x_envoy_config : option ManagerConfig;
  x_manage : goroutine;
  x_envoy : goroutine;
  x_failed : option error        (** the first error of the group *)
}.

Definition x_set_phase (p : exec_phase) (x : exec) : exec :=
  mkExec p (x_interrupted x) (x_session_done x) (x_client x) (x_watch x) (x_registry x) (x_certs x) (x_files x)
    (x_envoy_config x) (x_manage x) (x_envoy x) (x_failed x).
Definition x_set_client (c : client) (p : option watch_phase) (x : exec) : exec :=
  mkExec (x_phase x) (x_interrupted x) (x_session_done x) c p (x_registry x) (x_certs x) (x_files x)
    (x_envoy_config x) (x_manage x) (x_envoy x) (x_failed x).
Definition x_set_registry (s : ServiceRegistry A) (x : exec) : exec :=
  mkExec (x_phase x) (x_interrupted x) (x_session_done x) (x_client x) (x_watch x) s (x_certs x) (x_files x)
    (x_envoy_config x) (x_manage x) (x_envoy x) (x_failed x).
Definition x_set_agent (w : A) (x : exec) : exec := x_set_registry (sr_set_agent w (x_registry x)) x.
Definition x_set_certs (c : CertManager) (f : F) (x : exec) : exec :=
  mkExec (x_phase x) (x_interrupted x) (x_session_done x) (x_client x) (x_watch x) (x_registry x) c f
    (x_envoy_config x) (x_manage x) (x_envoy x) (x_failed x).
Definition x_set_envoy_config (m : ManagerConfig) (x : exec) : exec :=
  mkExec (x_phase x) (x_interrupted x) (x_session_done x) (x_client x) (x_watch x) (x_registry x) (x_certs x)
    (x_files x) (Some m) (x_manage x) (x_envoy x) (x_failed x).
Definition x_set_manage (g : goroutine) (x : exec) : exec :=
  mkExec (x_phase x) (x_interrupted x) (x_session_done x) (x_client x) (x_watch x) (x_registry x) (x_certs x)
    (x_files x) (x_envoy_config x) g (x_envoy x) (x_failed x).
Definition x_set_envoy (g : goroutine) (x : exec) : exec :=
  mkExec (x_phase x) (x_interrupted x) (x_session_done x) (x_client x) (x_watch x) (x_registry x) (x_certs x)
    (x_files x) (x_envoy_config x) (x_manage x) g (x_failed x).

(** [cancel()]: everything that was started under [ctx] is done, too. *)
Definition x_cancel (x : exec) : exec :=
  mkExec (x_phase x) true (x_session_done x) (x_client x) (x_watch x)
    (parent_done (list_to_set (seq 0 (sr_contexts (x_registry x)))) (x_registry x)) (x_certs x) (x_files x)
    (x_envoy_config x) (x_manage x) (x_envoy x) (x_failed x).

(** The group remembers its first error. *)
Definition x_group_error (err : option error) (x : exec) : exec :=
  mkExec (x_phase x) (x_interrupted x) (x_session_done x) (x_client x) (x_watch x) (x_registry x) (x_certs x)
    (x_files x) (x_envoy_config x) (x_manage x) (x_envoy x)
    (match x_failed x with Some e => Some e | None => err end).

(** [return ret]: the deferred [sessionCancel()] and [cancel()]. *)
Definition x_return (ret : Z) (x : exec) : exec :=
  let x := x_cancel (x_set_phase (Exited ret) x) in
  mkExec (x_phase x) (x_interrupted x) true (x_client x) (x_watch x) (x_registry x) (x_certs x) (x_files x)
    (x_envoy_config x) (x_manage x) (x_envoy x) (x_failed x).

Definition exec_start (w : A) (f : F) : exec :=
  mkExec Connecting false false (NewClient (xc_ConsulClientConfig config)) None (new_registry w) exec_certs f
    None NotStarted NotStarted None.

(** ** The main function *)

(** [client.Wait] returned. *)
Definition exec_connected (err : option error) (c : client) (x : exec) : exec :=
  let x := x_set_client c (x_watch x) x in
  match err with
  | Some _ => x_return 1 x
  | None => x_set_phase Connected x
  end.

Definition exec_register (x : exec) : exec :=
  match RegisterGateway registry (x_interrupted x) true (x_registry x) with
  | (s, Some _) => x_return 1 (x_set_registry s x)
  | (s, None) => x_set_phase Registered (x_set_registry s x)
  end.

(** The configuration files; afterwards the certificate manager runs. *)
Definition exec_render (x : exec) : exec :=
  let envoyManager := exec_manager registry (Token (x_client x)) config in
  let x := x_set_envoy_config envoyManager x in
  match RenderSDSConfig (x_certs x) (x_files x) with
  | (f, Err _) => x_set_phase (Exiting 1) (x_set_certs (x_certs x) f x)
  | (f, Ok sdsConfig) =>
      match RenderBootstrap envoyManager sdsConfig f with
      | (f, Some _) => x_set_phase (Exiting 1) (x_set_certs (x_certs x) f x)
      | (f, None) =>
          x_set_phase AwaitingCertificates (x_set_manage Started (x_set_certs (x_certs x) f x))
      end
  end.

(** [certManager.WaitForWrite] returned. *)
Definition exec_written (err : option error) (x : exec) : exec :=
  match err with
  | Some _ => x_set_phase (Exiting 1) x
  | None => x_set_phase Running (x_set_envoy Started x)
  end.

(** [group.Wait] returned. *)
Definition exec_finished (x : exec) : exec :=
  x_set_phase (Exiting (match x_failed x with Some _ => 1 | None => 0 end)) x.

(** The deferred deregistration. *)
Definition exec_deregister (ret : Z) (x : exec) : exec :=
  match Deregister registry (x_registry x) with
  | (s, Some _) => x_return 1 (x_set_registry s x)
  | (s, None) => x_return ret (x_set_registry s x)
  end.

(** ** The goroutines *)

(** The first part of [WatchServers]; an error interrupts everything. *)
Definition exec_watch_servers (newWatcher : discovery_Config → result unit) (initial : result discovery_State)
    (x : exec) : option exec :=
  res ← WatchServers newWatcher initial (x_client x) (sr_agent (x_registry x));
  let '(c, w, phase) := res : client * A * watch_phase in
  let x := x_set_agent w (x_set_client c (Some phase) x) in
  Some (match phase with Returned (Some _) => x_cancel x | _ => x end).

(** A state of the watcher. *)
Definition exec_watch_state (s : discovery_State) (phase : watch_phase) (x : exec) : exec :=
  let (c, phase') := watch_state s (x_client x) (sr_agent (x_registry x)) phase in
  let x := x_set_client c (Some phase') x in
  match phase, phase' with
  | Following _ _, Returned (Some _) => x_cancel x
  | _, _ => x
  end.

(** The end of the session: [WatchServers] logs out. *)
Definition exec_watch_done (phase : watch_phase) (x : exec) : exec :=
  let (w, phase') := watch_done (sr_agent (x_registry x)) phase in
  x_set_agent w (x_set_client (x_client x) (Some phase') x).

(** [certManager.Manage] up to its watches. *)
Definition exec_manage (rootWatch leafWatch : result unit) (leafCert : result (option LeafCert)) (x : exec) :
    option exec :=
  res ← Manage rootWatch leafWatch leafCert (x_certs x) (x_files x);
  let '(c, f, err) := res : CertManager * F * option error in
  let x := x_set_certs c f x in
  Some (match err with
        | Some _ => x_group_error err (x_set_manage (Ended err) x)
        | None => x_set_manage WatchingCerts x
        end).

(** [envoyManager.Run] returned; [end_of_process] is how the process ended. *)
Definition exec_envoy_ended (end_of_process : string * list string → option error) (m : ManagerConfig)
    (x : exec) : exec :=
  let err := Run end_of_process (x_interrupted x) m in
  x_group_error err (x_set_envoy (Ended err) x).

(** [groupCtx] is done. *)
Definition group_done (x : exec) : bool := x_interrupted x || bool_decide (is_Some (x_failed x)).

Inductive exec_step : exec → exec → Prop :=
  (* the main function *)
  | XConnected timeout err c x :
      x_phase x = Connecting → (err, c) ∈ Wait timeout (x_client x) → exec_step x (exec_connected err c x)
  | XRegister x : x_phase x = Connected → exec_step x (exec_register x)
  | XRender x : x_phase x = Registered → exec_step x (exec_render x)
  | XWritten timeout err x :
      x_phase x = AwaitingCertificates → err ∈ WaitForWrite (timeout || x_interrupted x) (x_certs x) →
      exec_step x (exec_written err x)
  | XFinished e1 e2 x :
      x_phase x = Running → x_manage x = Ended e1 → x_envoy x = Ended e2 → exec_step x (exec_finished x)
  | XDeregister ret x : x_phase x = Exiting ret → exec_step x (exec_deregister ret x)
  (* the connection *)
  | XWatchServers newWatcher initial x x' :
      x_watch x = None → exec_watch_servers newWatcher initial x = Some x' → exec_step x x'
  | XWatchState s phase x : x_watch x = Some phase → exec_step x (exec_watch_state s phase x)
  | XWatchDone phase x :
      x_watch x = Some phase → x_session_done x = true → exec_step x (exec_watch_done phase x)
  (* the certificates *)
  | XManage rootWatch leafWatch leafCert x x' :
      x_manage x = Started → exec_manage rootWatch leafWatch leafCert x = Some x' → exec_step x x'
  | XRootWatch raw c f x :
      x_manage x = WatchingCerts → handleRootWatch raw (x_certs x) (x_files x) = Some (c, f) →
      exec_step x (x_set_certs c f x)
  | XLeafWatch raw c f x :
      x_manage x = WatchingCerts → handleLeafWatch raw (x_certs x) (x_files x) = Some (c, f) →
      exec_step x (x_set_certs c f x)
  | XManageDone x :
      x_manage x = WatchingCerts → group_done x = true → exec_step x (x_set_manage (Ended None) x)
  (* Envoy *)
  | XEnvoyEnded end_of_process m x :
      x_envoy x = Started → x_envoy_config x = Some m → exec_step x (exec_envoy_ended end_of_process m x)
  (* the registry, signals and other users of Consul *)
  | XLoop s x : loop_step registry (x_registry x) s → exec_step x (x_set_registry s x)
  | XSignal x : exec_step x (x_cancel x)
  | XAgent w x : others (sr_agent (x_registry x)) w → exec_step x (x_set_agent w x).

End exec.

(** ** Properties *)

Section properties.
Context {EN : Environment} {TP : TLSParsing} {RB : RetryBackoff}.
Context {A F : Type} {AG : ConsulAgent A} {API : ConsulAPI A} {FS : FileSystem F}.
Context (uuid : string) (config : ExecConfig) (others : A → A → Prop).
#[local] Abbreviation registry := (exec_registry uuid config).
#[local] Abbreviation dir := (certificate_directory config).
#[local] Abbreviation step := (exec_step (F:=F) uuid config others).
Implicit Types (x : exec (A:=A) (F:=F)).

Lemma certificate_directory_set : dir ≠ "".
Proof. unfold certificate_directory. by case_bool_decide. Qed.

(** *** The registry *)

(** Whatever the process does, its registry only takes its own steps. *)
Lemma exec_step_registry x x' : step x x' → rtc (registry_step registry) (x_registry x) (x_registry x').
Proof.
  assert (∀ w s, rtc (registry_step registry) s (sr_set_agent (W:=A) w s)) as Hagent
    by (intros; apply rtc_once; constructor).
  assert (∀ ctxs s, rtc (registry_step registry) s (parent_done (W:=A) ctxs s)) as Hparent
    by (intros; apply rtc_once; constructor).
  intros [timeout err c x1 _ _|x1 _|x1 _|timeout err x1 _ _|e1 e2 x1 _ _ _|ret x1 _
    |nw init x1 x2 _ Hw|s phase x1 _|phase x1 _ _|rw lw lc x1 x2 _ Hm|raw c f x1 _ _|raw c f x1 _ _|x1 _ _
    |ends m x1 _ _|s x1 Hl|x1|w x1 _]; simpl; try done.
  - unfold exec_connected. destruct err; simpl; [apply Hparent|done].
  - unfold exec_register. destruct (RegisterGateway _ _ _ _) as [s [e|]] eqn:Hr; simpl.
    + eapply rtc_l; [by eapply StepRegisterGateway|apply Hparent].
    + eapply rtc_once. by eapply StepRegisterGateway.
  - unfold exec_render. destruct (RenderSDSConfig _ _) as [f [sds|e]]; [|done].
    by destruct (RenderBootstrap _ _ _) as [f' [e|]].
  - by destruct err.
  - unfold exec_deregister. destruct (Deregister _ _) as [s [e|]] eqn:Hd; simpl;
      (eapply rtc_l; [by eapply StepDeregister|apply Hparent]).
  - unfold exec_watch_servers in Hw. destruct (WatchServers _ _ _ _) as [[[c w] phase]|]; [|done]. injection Hw as <-.
    destruct phase as [| |[e|]]; simpl; try apply Hagent. etrans; [apply Hagent|apply Hparent].
  - unfold exec_watch_state. destruct (watch_state _ _ _ _) as [c phase'], phase as [| |], phase' as [| |[e|]]; simpl;
      try done; apply Hparent.
  - unfold exec_watch_done. destruct (watch_done _ _) as [w phase']. apply Hagent.
  - unfold exec_manage in Hm. destruct (Manage _ _ _ _ _) as [[[c f] err]|]; [|done]. injection Hm as <-.
    by destruct err.
  - by apply rtc_once, StepLoop.
Qed.

Lemma exec_registry_reachable w f x :
  rtc step (exec_start config w f) x → rtc (registry_step registry) (new_registry w) (x_registry x).
Proof.
  intros Hr. remember (exec_start config w f) as x0 eqn:H0.
  assert (x_registry x0 = new_registry w) as <- by by subst. clear H0.
  induction Hr as [|x1 x2 x3 Hs _ IH]; [done|]. etrans; [by eapply exec_step_registry|exact IH].
Qed.

(** *** Files *)

(** The configuration of Envoy is on disk. *)
Record prepared (f : F) (m : ManagerConfig) : Prop := {
  prep_bootstrap : file f (mc_BootstrapFilePath m)
    = Some (bootstrapTemplate (bootstrap_args m (sdsClusterTemplate (cluster_args (exec_certs config)))));
  prep_cert : file f (path_Join dir SDSCertConfigFile) = Some (sdsCertConfigTemplate (cert_args dir));
  prep_ca : file f (path_Join dir SDSCAConfigFile) = Some (sdsCAConfigTemplate (path_Join dir RootCAFile))
}.

(** The bootstrap file is not one of the files of the certificate manager. *)
Definition separate_bootstrap : Prop :=
  ∀ f, f ∈ cert_files ++ [SDSCertConfigFile; SDSCAConfigFile] →
    ec_BootstrapFile (xc_EnvoyConfig config) ≠ path_Join dir f.

(** What holds of a goroutine and a phase of the main function. *)
Definition early (p : exec_phase) : Prop := p = Connecting ∨ p = Connected ∨ p = Registered.
Definition has_registration (p : exec_phase) : Prop :=
  p = Registered ∨ p = AwaitingCertificates ∨ p = Running ∨ ∃ ret, p = Exiting ret.

Record exec_inv x : Prop := {
  ei_certs : cert_inv dir (x_certs x) (x_files x);
  ei_early : early (x_phase x) → x_manage x = NotStarted ∧ x_envoy x = NotStarted ∧ x_certs x = exec_certs config;
  ei_manage : x_manage x ≠ NotStarted → ∃ token,
    x_envoy_config x = Some (exec_manager registry token config) ∧
    prepared (x_files x) (exec_manager registry token config);
  ei_awaiting : x_phase x = AwaitingCertificates ∨ x_phase x = Running → x_manage x ≠ NotStarted;
  ei_envoy : x_envoy x ≠ NotStarted → x_manage x ≠ NotStarted ∧ cm_signalled (x_certs x) = true;
  ei_registered : has_registration (x_phase x) → is_Some (sr_cancel (x_registry x))
}.

(** The handlers keep the configuration files. *)
Lemma prepared_handled c f c' f' token :
  separate_bootstrap → cm_directory c = dir → handled c f c' f' →
  prepared f (exec_manager registry token config) → prepared f' (exec_manager registry token config).
Proof.
  intros Hsep Hd [Hfiles _] [Hb Hc Ha]. rewrite Hd in Hfiles.
  assert (∀ g, g ∈ [SDSCertConfigFile; SDSCAConfigFile] →
    file f' (path_Join dir g) = file f (path_Join dir g)) as Hsds.
  { intros g Hg. apply Hfiles. intros h Hh.
    assert (∀ k, k ∈ cert_files ++ [SDSCertConfigFile; SDSCAConfigFile] → plain_name k) as Hplain
      by (apply Forall_forall, plain_files).
    apply path_Join_ne; [apply Hplain; set_solver..|]. intros ->. unfold cert_files in Hh. set_solver. }
  split.
  - rewrite Hfiles; [done|]. intros h Hh. apply Hsep. set_solver.
  - rewrite Hsds; [done|set_solver].
  - rewrite Hsds; [done|set_solver].
Qed.


(** The steps of the registry that keep its registration. *)
Lemma loop_step_cancel (s s' : ServiceRegistry A) : loop_step registry s s' → sr_cancel s' = sr_cancel s.
Proof. by intros []. Qed.

Lemma exec_start_inv w f : exec_inv (exec_start config w f).
Proof.
  split; simpl; try done.
  - apply (new_inv _ (Some (exec_options config))).
  - by intros [|].
  - intros [|[|[|[]]]]; done.
Qed.

Lemma exec_render_inv x :
  separate_bootstrap → x_phase x = Registered → exec_inv x → exec_inv (exec_render uuid config x).
Proof.
  intros Hsep Hp [Hc He Hm Ha Henv Hr].
  destruct (He ltac:(rewrite Hp; by right; right)) as (Hman & Henvoy & Hcerts).
  assert (is_Some (sr_cancel (x_registry x))) as Hreg by (apply Hr; rewrite Hp; by left).
  unfold exec_render. simpl. destruct (RenderSDSConfig _ _) as [f r] eqn:Hsds.
  assert (cert_inv dir (x_certs x) f) as Hcf
    by (eapply (cert_step_inv _ (_, _) (_, _)); [by eapply StepRender|exact Hc]).
  destruct r as [sds|e].
  2:{ split; simpl; try done; try (by intros [|[]]); try (by intros [|]). }
  apply RenderSDSConfig_ok in Hsds as (-> & Hs1 & Hs2); [|by rewrite Hcerts].
  unfold RenderBootstrap. destruct (os_WriteFile f _ _) as [f' err] eqn:Hw.
  assert (cert_inv dir (x_certs x) f') as Hcf'.
  { destruct Hcf as [Hd Hs Hl Hready]. split; try done. intros Hsig. destruct (Hready Hsig) as (? & ? & Hfiles).
    split_and!; try done. intros Hne g Hg. pose proof (Hsep g ltac:(set_solver)) as Hneq.
    rewrite (os_WriteFile_frame _ _ _ _ _ Hw) by (by apply not_eq_sym). by apply Hfiles. }
  destruct err as [e|].
  { split; simpl; try done; try (by intros [|[]]); try (by intros [|]). }
  split; simpl; try done; try (by intros [|[]]).
  intros _. exists (Token (x_client x)). split; [done|]. rewrite Hcerts in Hs1, Hs2. split; simpl.
  - rewrite Hcerts in Hw. by eapply os_WriteFile_ok.
  - rewrite (os_WriteFile_frame _ _ _ _ _ Hw); [done|]. apply not_eq_sym, Hsep. set_solver.
  - rewrite (os_WriteFile_frame _ _ _ _ _ Hw); [done|]. apply not_eq_sym, Hsep. set_solver.
Qed.

Lemma exec_handled_inv x c f :
  separate_bootstrap → x_manage x ≠ NotStarted → exec_inv x → cert_inv dir c f →
  handled (x_certs x) (x_files x) c f → exec_inv (x_set_certs c f x).
Proof.
  intros Hsep Hman [Hc He Hm Ha Henv Hr] Hcf Hh. split; simpl; try done.
  - intros Hearly. by destruct (He Hearly).
  - intros Hx. destruct (Hm Hx) as (token & Hcfg & Hprep). exists token. split; [done|].
    eapply prepared_handled; [done| |exact Hh|done]. by destruct Hc.
  - intros Hx. destruct (Henv Hx). split; [done|]. by apply Hh.
Qed.

(** What the invariant looks at besides the phase and the registry. *)
Definition exec_view x := (x_certs x, x_files x, x_envoy_config x, x_manage x, x_envoy x).

Lemma exec_inv_view x x' :
  exec_view x' = exec_view x → x_phase x' = x_phase x →
  sr_cancel (x_registry x') = sr_cancel (x_registry x) → exec_inv x → exec_inv x'.
Proof.
  intros [= Hc Hf He Hm Hv] Hp Hr [H1 H2 H3 H4 H5 H6].
  split; rewrite ?Hp, ?Hr, ?Hc, ?Hf, ?He, ?Hm, ?Hv; done.
Qed.

(** The main function goes on before it starts goroutines, or it leaves its
    normal course. *)
Lemma exec_inv_early x x' :
  exec_view x' = exec_view x → early (x_phase x) → early (x_phase x') →
  (x_phase x' = Registered → is_Some (sr_cancel (x_registry x'))) → exec_inv x → exec_inv x'.
Proof.
  intros [= Hc Hf He Hm Hv] Hx Hx' Hr [H1 H2 H3 H4 H5 H6].
  split; rewrite ?Hc, ?Hf, ?He, ?Hm, ?Hv; auto.
  - intros Hp. exfalso. destruct Hp as [Hp|Hp]; rewrite Hp in Hx'; by destruct Hx' as [|[]].
  - intros Hreg. apply Hr. by destruct Hx' as [Hp|[Hp|Hp]], Hreg as [Hq|[Hq|[Hq|[ret Hq]]]]; congruence.
Qed.

Definition late (p : exec_phase) : Prop := (∃ ret, p = Exiting ret) ∨ ∃ ret, p = Exited ret.

Lemma exec_inv_late x x' :
  exec_view x' = exec_view x → late (x_phase x') →
  (has_registration (x_phase x') → is_Some (sr_cancel (x_registry x'))) → exec_inv x → exec_inv x'.
Proof.
  intros [= Hc Hf He Hm Hv] Hlate Hr [H1 H2 H3 H4 H5 H6].
  assert (¬ early (x_phase x') ∧ x_phase x' ≠ AwaitingCertificates ∧ x_phase x' ≠ Running) as (Hn1 & Hn2 & Hn3).
  { destruct Hlate as [[ret ->]|[ret ->]]; (split; [by intros [|[]]|done]). }
  split; rewrite ?Hc, ?Hf, ?He, ?Hm, ?Hv; auto; [by intros ?%Hn1|by intros [|]].
Qed.

Lemma exited_unregistered ret : ¬ has_registration (Exited ret).
Proof. by intros [|[|[|[]]]]. Qed.

Lemma register_cancel done (s s' : ServiceRegistry A) :
  RegisterGateway registry done true s = (s', None) → is_Some (sr_cancel s').
Proof.
  unfold RegisterGateway, register. destruct (sr_cancel s) eqn:Hc; [intros [= <-]; by eexists|].
  destruct (retryRegistration _ _ _ _) as [w [e|]]; [done|]. intros [= <-]. by eexists.
Qed.

Lemma exec_register_inv x : x_phase x = Connected → exec_inv x → exec_inv (exec_register uuid config x).
Proof.
  intros Hp Hinv. unfold exec_register. destruct (RegisterGateway _ _ _ _) as [s [e|]] eqn:Hr.
  - eapply exec_inv_late; [| | |exact Hinv]; [done|right; by eexists|]. by intros ?%exited_unregistered.
  - eapply exec_inv_early; [| | | |exact Hinv]; [done|rewrite Hp; by right; left|by right; right|].
    intros _. by eapply register_cancel.
Qed.

Lemma exec_written_inv timeout err x :
  x_phase x = AwaitingCertificates → err ∈ WaitForWrite timeout (x_certs x) → exec_inv x →
  exec_inv (exec_written err x).
Proof.
  intros Hp Hw Hinv. pose proof Hinv as [H1 H2 H3 H4 H5 H6].
  assert (is_Some (sr_cancel (x_registry x))) as Hreg by (apply H6; rewrite Hp; by right; left).
  assert (x_manage x ≠ NotStarted) as Hman by (apply H4; rewrite Hp; by left).
  destruct err as [e|].
  { eapply exec_inv_late; [| | |exact Hinv]; [done|left; by eexists|done]. }
  assert (cm_signalled (x_certs x) = true) as Hsig.
  { destruct H1 as [_ <- _ _]. unfold WaitForWrite in Hw. destruct (cm_initializeSignal _); [done|].
    destruct timeout; simpl in Hw; set_solver. }
  split; simpl; try done. by intros [|[]].
Qed.

Lemma exec_manage_inv rootWatch leafWatch leafCert x x' :
  separate_bootstrap → x_manage x = Started → exec_manage rootWatch leafWatch leafCert x = Some x' →
  exec_inv x → exec_inv x'.
Proof.
  intros Hsep Hman. unfold exec_manage. destruct (Manage _ _ _ _ _) as [[[c f] err]|] eqn:Hm; [|done].
  intros [= <-] Hinv. assert (exec_inv (x_set_certs c f x)) as [H1 H2 H3 H4 H5 H6].
  { apply Manage_spec in Hm as [[= -> ->]|[raw Hraw]]; [by eapply exec_inv_view; [..|exact Hinv]|].
    eapply exec_handled_inv; [done|by rewrite Hman|done| |by eapply handleLeafWatch_handled].
    eapply (cert_step_inv _ (_, _) (_, _)); [by eapply StepLeaf|apply Hinv]. }
  assert (∀ g, g ≠ NotStarted → exec_inv (x_set_manage g (x_set_certs c f x))) as Hset.
  { assert (x_manage x ≠ NotStarted) as Hne by by rewrite Hman.
    intros g Hg. split; simpl in *; try done.
    - intros He. by destruct (H2 He).
    - intros _. by apply H3.
    - intros Hx. by destruct (H5 Hx). }
  destruct err as [e|]; [|by apply Hset].
  by eapply (exec_inv_view (x_set_manage (Ended (Some e)) (x_set_certs c f x))); [..|apply Hset].
Qed.

(** A goroutine that was started changes. *)
Lemma exec_goroutines_inv x x' :
  (x_certs x', x_files x', x_envoy_config x', x_phase x', x_registry x')
  = (x_certs x, x_files x, x_envoy_config x, x_phase x, x_registry x) →
  x_manage x ≠ NotStarted → x_manage x' ≠ NotStarted → (x_envoy x' = x_envoy x ∨ x_envoy x ≠ NotStarted) →
  exec_inv x → exec_inv x'.
Proof.
  intros [= Hc Hf He Hp Hr] Hm Hm' Hv [H1 H2 H3 H4 H5 H6].
  split; rewrite ?Hc, ?Hf, ?He, ?Hp, ?Hr; auto.
  - intros Hx. by destruct (H2 Hx).
  - intros Hx. split; [done|]. apply H5. destruct Hv as [<-|?]; done.
Qed.

Lemma exec_step_inv x x' : separate_bootstrap → step x x' → exec_inv x → exec_inv x'.
Proof.
  intros Hsep Hstep Hinv.
  destruct Hstep as [timeout err c x Hp Hw|x Hp|x Hp|timeout err x Hp Hw|e1 e2 x Hp Hm He|ret x Hp
    |nw init x x2 Hp Hw|s phase x Hp|phase x Hp Hd|rw lw lc x x2 Hp Hm|raw c f x Hp Hh|raw c f x Hp Hh|x Hp Hd
    |ends m x Hp Hc|s x Hl|x|w x Hw].
  - destruct err.
    + eapply exec_inv_late; [| | |exact Hinv]; [done|right; by eexists|by intros ?%exited_unregistered].
    + eapply exec_inv_early; [| | | |exact Hinv]; [done|by left|by right; left|done].
  - by apply exec_register_inv.
  - by apply exec_render_inv.
  - by eapply exec_written_inv.
  - eapply exec_inv_late; [| | |exact Hinv]; [done|left; by eexists|]. intros _. apply Hinv. rewrite Hp. by right; right; left.
  - unfold exec_deregister. destruct (Deregister _ _) as [s [e|]];
      (eapply exec_inv_late; [| | |exact Hinv]; [done|right; by eexists|by intros ?%exited_unregistered]).
  - unfold exec_watch_servers in Hw. destruct (WatchServers _ _ _ _) as [[[c w] phase]|]; [|done]. injection Hw as <-.
    by destruct phase as [| |[e|]]; (eapply exec_inv_view; [..|exact Hinv]).
  - unfold exec_watch_state. destruct (watch_state _ _ _ _) as [c phase'].
    by destruct phase as [| |], phase' as [| |[e|]]; (eapply exec_inv_view; [..|exact Hinv]).
  - unfold exec_watch_done. destruct (watch_done _ _) as [w phase']. by eapply exec_inv_view; [..|exact Hinv].
  - by eapply exec_manage_inv.
  - eapply exec_handled_inv; [done|by rewrite Hp|done| |by eapply handleRootWatch_handled].
    eapply (cert_step_inv _ (_, _) (_, _)); [by eapply StepRoot|apply Hinv].
  - eapply exec_handled_inv; [done|by rewrite Hp|done| |by eapply handleLeafWatch_handled].
    eapply (cert_step_inv _ (_, _) (_, _)); [by eapply StepLeaf|apply Hinv].
  - eapply exec_goroutines_inv; [..|exact Hinv]; [done|by rewrite Hp|done|by left].
  - assert (x_envoy x ≠ NotStarted) as Hne by by rewrite Hp. destruct (ei_envoy _ Hinv Hne) as [Hman _].
    eapply exec_goroutines_inv; [..|exact Hinv]; [done|done|done|by right].
  - eapply exec_inv_view; [..|exact Hinv]; [done|done|]. by apply loop_step_cancel.
  - by eapply exec_inv_view; [..|exact Hinv].
  - by eapply exec_inv_view; [..|exact Hinv].
Qed.

(** *** Starting Envoy *)

(** The strings that are rendered between quotes, except for the token. *)
Definition plain_config : Prop :=
  let gw := xc_GatewayConfig config in let e := xc_EnvoyConfig config in
  Forall (λ s, plain_text s = true)
    ([uuid; gwc_Namespace gw; gwc_Partition gw; ec_CACertificateFile e; ec_XDSAddress e; ec_SDSAddress e] ++
     (path_Join dir <$> cert_files ++ [SDSCertConfigFile; SDSCAConfigFile])).

Lemma address_type_plain a : plain_text (AddressTypeForAddress a) = true.
Proof. unfold AddressTypeForAddress. by destruct (net_ParseIP a). Qed.

Lemma registry_fields :
  rgc_id registry = uuid ∧ rgc_namespace registry = gwc_Namespace (xc_GatewayConfig config) ∧
  rgc_partition registry = gwc_Partition (xc_GatewayConfig config).
Proof. unfold exec_registry. by destruct (xc_isTest config). Qed.

(** The documents the rendered texts are read as. *)
Lemma prepared_documents f token :
  plain_config → plain_text token = true → prepared f (exec_manager registry token config) →
  let m := exec_manager registry token config in
  let args := cluster_args (exec_certs config) in
  (file f (ec_BootstrapFile (xc_EnvoyConfig config)) ≫= json_read)
    = Some (bootstrap_document (bootstrap_args m (sdsClusterTemplate args)) (Some (sds_cluster_document args))) ∧
  (file f (path_Join dir SDSCertConfigFile) ≫= json_read) = Some (sds_cert_document (cert_args dir)) ∧
  (file f (path_Join dir SDSCAConfigFile) ≫= json_read) = Some (sds_ca_document (path_Join dir RootCAFile)).
Proof.
  unfold plain_config, cert_files. simpl. rewrite !Forall_cons.
  intros (H1 & H2 & H3 & H4 & H5 & H6 & H7 & H8 & H9 & H10 & H11 & _) Htok [Hb Hc Ha].
  destruct registry_fields as (Hid & Hns & Hpart). simpl in Hb. rewrite Hb, Hc, Ha. simpl. split_and!.
  - apply bootstrap_read.
    + unfold plain_args. simpl. rewrite Hid, Hns, Hpart. repeat constructor; try done. apply address_type_plain.
    + unfold reads_as. rewrite bool_decide_false by done. eexists. split; [done|].
      apply sds_cluster_read; try done. apply address_type_plain.
  - by apply sds_cert_read.
  - by apply sds_ca_read.
Qed.

(** *** The token *)

#[local] Abbreviation consul := (xc_ConsulClientConfig config).

(** A configured token is used as it is, unless it is empty, a file overrides it
    or a watcher supplies another. *)
Definition configured_token (token : string) : Prop :=
  ∀ t, cc_UseDynamic consul = false → cc_Credentials consul = CredentialsStatic t → t ≠ "" →
    ac_TokenFile (cc_ApiClientConfig consul) = "" → token = t.

Lemma started_token newWatcher initial w s :
  WatchServers newWatcher initial (NewClient consul) w = Some s →
  ch_closed (cl_initialized s.1.1) = true → configured_token (cl_token s.1.1).
Proof.
  intros Hs Hclosed t Hstatic Hcred Hne Hfile. revert Hs. unfold WatchServers. simpl.
  rewrite Hstatic. unfold watch_static. simpl. rewrite Hcred. set (a0 := ac_set_Address _ _).
  destruct (with_namespace_keeps consul (ac_set_Token t a0)) as (Hf & Ht & _). simpl in Hf, Ht.
  destruct (api_NewClient w _) as [a [cl|e]] eqn:Hnew.
  - intros [= <-]. simpl. apply NewClient_keeps in Hnew as (_ & _ & Hkeep).
    rewrite Hkeep; [done|by rewrite Ht|by rewrite Hf].
  - intros [= <-]. done.
Qed.

(** Has [client.Wait] returned without an error? *)
Definition connected_phase (p : exec_phase) : Prop := p = Connected ∨ has_registration p.

Record exec_connection x : Prop := {
  ec_watch : match x_watch x with
             | None => x_client x = NewClient consul
             | Some phase => connection_inv consul (x_client x) phase
             end;
  ec_token : ch_closed (cl_initialized (x_client x)) = true → configured_token (cl_token (x_client x));
  ec_closed : connected_phase (x_phase x) → ch_closed (cl_initialized (x_client x)) = true
}.

Lemma exec_connection_watch x x' :
  (x_client x', x_watch x') = (x_client x, x_watch x) →
  (connected_phase (x_phase x') → connected_phase (x_phase x)) →
  exec_connection x → exec_connection x'.
Proof. intros [= Hc Hw] Hp [H1 H2 H3]. split; rewrite ?Hc, ?Hw; auto. Qed.

(** A state the watcher reported: the client stays connected, and without
    discovery it is the client it was. *)
Lemma watch_state_connection st phase phase' x c :
  x_watch x = Some phase → watch_state st (x_client x) (sr_agent (x_registry x)) phase = (c, phase') →
  exec_connection x →
  connection_inv consul c phase' ∧ cl_initialized c = cl_initialized (x_client x) ∧
  (cc_UseDynamic consul = false → c = x_client x).
Proof.
  intros Hw Hs [Hwatch _ _]. rewrite Hw in Hwatch. split.
  { eapply (watch_step_inv _ (x_client x, sr_agent (x_registry x), phase) (c, _, phase'));
      [by eapply StepState|done]. }
  destruct phase as [|static name|]; [by injection Hs as <- _| |by injection Hs as <- _].
  simpl in Hs. destruct (updateClient _ _ _ _ _) as [c1 err] eqn:Hup.
  assert (c = c1) as -> by (by destruct err; injection Hs). split.
  - by eapply (updateClient_spec consul) in Hup as (_ & ? & _); [|by destruct Hwatch].
  - intros Hd. pose proof (conn_dynamic _ _ _ Hwatch static name eq_refl). congruence.
Qed.

(** What every step does to the connection: it keeps the invariant, and without
    discovery a client that is connected keeps its token. *)
Definition keeps_token x x' : Prop :=
  cc_UseDynamic consul = false → ch_closed (cl_initialized (x_client x)) = true →
  ch_closed (cl_initialized (x_client x')) = true ∧ Token (x_client x') = Token (x_client x).

Lemma exec_connection_same x x' :
  (x_client x', x_watch x') = (x_client x, x_watch x) →
  (connected_phase (x_phase x') → connected_phase (x_phase x)) →
  exec_connection x → exec_connection x' ∧ keeps_token x x'.
Proof.
  intros Heq Hp Hc. split; [by eapply exec_connection_watch|].
  injection Heq as Hcl _. intros _ ?. by rewrite Hcl.
Qed.

Lemma exited_unconnected ret : ¬ connected_phase (Exited ret).
Proof. intros [|?%exited_unregistered]; done. Qed.

Lemma exec_connected_connection timeout err c x :
  x_phase x = Connecting → (err, c) ∈ Wait timeout (x_client x) → exec_connection x →
  exec_connection (exec_connected err c x) ∧ keeps_token x (exec_connected err c x).
Proof.
  intros Hp Hw [H1 H2 H3]. pose proof Hw as (Hcfg & Hcl & Htok & Hclosed & Hbuf & Hok)%Wait_spec.
  assert (match x_watch x with None => c = NewClient consul
          | Some phase => connection_inv consul c phase end) as Hwatch.
  { destruct (x_watch x) as [phase|].
    - eapply (watch_step_inv _ (x_client x, sr_agent (x_registry x), phase) (c, _, phase));
        [by eapply StepWait|done].
    - rewrite H1 in Hw. unfold Wait in Hw. simpl in Hw.
      destruct timeout; [|by apply not_elem_of_nil in Hw].
      by apply list_elem_of_singleton in Hw as [= _ ->]. }
  assert (keeps_token x (exec_connected err c x)) as Hkeep.
  { intros _ Hx. unfold Token. by destruct err; simpl; rewrite Hclosed, Htok. }
  split; [|done]. destruct err as [e|]; split; simpl; rewrite ?Hclosed, ?Htok; auto.
  by intros ?%exited_unconnected.
Qed.

Lemma exec_watch_connection newWatcher initial x x' :
  x_watch x = None → exec_watch_servers newWatcher initial x = Some x' → exec_connection x →
  exec_connection x' ∧ keeps_token x x'.
Proof.
  intros Hw. unfold exec_watch_servers. intros Hx [H1 H2 H3]. rewrite Hw in H1.
  assert (ch_closed (cl_initialized (x_client x)) = false) as Hopen by by rewrite H1.
  destruct (WatchServers _ _ _ _) as [[[c w] phase]|] eqn:Hs; [|done]. rewrite H1 in Hs.
  destruct (watch_start newWatcher initial consul (sr_agent (x_registry x)))
    as (s' & Hs' & Hinv & _). rewrite Hs in Hs'. injection Hs' as <-. simpl in Hinv.
  pose proof (started_token _ _ _ _ Hs) as Htok. simpl in Htok.
  assert (∀ x'', (x_client x'', x_watch x'', x_phase x'') = (c, Some phase, x_phase x) →
    exec_connection x'' ∧ keeps_token x x'') as Hall.
  { intros x'' [= Hc Hph Hp]. split; [split; rewrite ?Hc, ?Hph, ?Hp; [done|done|]|].
    - intros ?%H3. congruence.
    - intros _ ?. congruence. }
  simpl in Hx. injection Hx as <-. by destruct phase as [| |[e|]]; apply Hall.
Qed.

Lemma exec_state_connection st phase x :
  x_watch x = Some phase → exec_connection x →
  exec_connection (exec_watch_state st phase x) ∧ keeps_token x (exec_watch_state st phase x).
Proof.
  intros Hw Hc. unfold exec_watch_state. destruct (watch_state _ _ _ _) as [c phase'] eqn:Hs.
  destruct (watch_state_connection _ _ _ _ _ Hw Hs Hc) as (Hinv & Hch & Hsame).
  pose proof Hc as [_ H2 H3].
  assert (∀ x'', (x_client x'', x_watch x'', x_phase x'') = (c, Some phase', x_phase x) →
    exec_connection x'' ∧ keeps_token x x'') as Hall.
  { intros x'' [= Hcl Hph Hp]. split; [split; rewrite ?Hcl, ?Hph, ?Hp, ?Hch; [done| |done]|].
    - intros Hclosed t Hd. by rewrite (Hsame Hd); apply H2.
    - intros Hd ?. by rewrite Hcl, (Hsame Hd). }
  by destruct phase as [| |], phase' as [| |[e|]]; apply Hall.
Qed.

Lemma exec_step_connection x x' :
  step x x' → exec_connection x → exec_connection x' ∧ keeps_token x x'.
Proof.
  assert (∀ p, has_registration p → connected_phase p) as Hreg by (by right).
  intros Hstep Hc.
  destruct Hstep as [timeout err c x Hp Hw|x Hp|x Hp|timeout err x Hp Hw|e1 e2 x Hp Hm He|ret x Hp
    |nw init x x2 Hp Hw|s phase x Hp|phase x Hp Hd|rw lw lc x x2 Hp Hm|raw c f x Hp Hh|raw c f x Hp Hh|x Hp Hd
    |ends m x Hp Hcfg|s x Hl|x|w x Hw]; try (by apply exec_connection_same).
  - by eapply exec_connected_connection.
  - unfold exec_register. destruct (RegisterGateway _ _ _ _) as [s [e|]];
      (apply exec_connection_same; [done|intros _; rewrite Hp; by left|done]).
  - unfold exec_render. destruct (RenderSDSConfig _ _) as [f [sds|e]]; [destruct (RenderBootstrap _ _ _) as [f' [e|]]|];
      (apply exec_connection_same; [done|intros _; rewrite Hp; apply Hreg; by left|done]).
  - by destruct err; (apply exec_connection_same; [done|intros _; rewrite Hp; apply Hreg; by right; left|done]).
  - apply exec_connection_same; [done|intros _; rewrite Hp; apply Hreg; by right; right; left|done].
  - unfold exec_deregister. by destruct (Deregister _ _) as [s [e|]];
      (apply exec_connection_same; [done|intros ?%exited_unconnected|done]).
  - by eapply exec_watch_connection.
  - by eapply exec_state_connection.
  - unfold exec_watch_done. destruct (watch_done _ _) as [w phase'] eqn:Hs.
    split; [|intros _ ?; done]. destruct Hc as [H1 H2 H3]. rewrite Hp in H1. split; [|done|done].
    eapply (watch_step_inv _ (x_client x, sr_agent (x_registry x), phase) (x_client x, _, phase'));
      [by eapply StepDone|done].
  - unfold exec_manage in Hm. destruct (Manage _ _ _ _ _) as [[[c f] err]|]; [|done]. injection Hm as <-.
    by destruct err; apply exec_connection_same.
Qed.

Lemma exec_reach_connection w f x : rtc step (exec_start config w f) x → exec_connection x.
Proof.
  intros Hr. apply (rtc_preserve _ exec_connection _ _) in Hr; [done| |].
  - intros a b Hab. by apply exec_step_connection.
  - split; simpl; [done|done|]. intros [|[|[|[|[]]]]]; done.
Qed.

Lemma exec_keeps_token x x' :
  rtc step x x' → exec_connection x → keeps_token x x'.
Proof.
  induction 1 as [x|x1 x2 x3 Hs _ IH]; intros Hc; [by intros _|].
  destruct (exec_step_connection _ _ Hs Hc) as [Hc2 Hk]. intros Hd Hclosed.
  destruct (Hk Hd Hclosed) as [Hclosed2 <-]. by apply (IH Hc2).
Qed.

(** Envoy's configuration is the one that was rendered last, with the token the
    client had then. *)
Lemma envoy_config_rendered w f x m :
  rtc step (exec_start config w f) x → x_envoy_config x = Some m →
  ∃ x0, rtc step (exec_start config w f) x0 ∧ x_phase x0 = Registered ∧ rtc step x0 x ∧
    m = exec_manager registry (Token (x_client x0)) config.
Proof.
  intros Hr. revert x Hr m. apply (rtc_ind_r (λ x, ∀ m, x_envoy_config x = Some m → ∃ x0,
    rtc step (exec_start config w f) x0 ∧ x_phase x0 = Registered ∧ rtc step x0 x ∧
    m = exec_manager registry (Token (x_client x0)) config)); [done|].
  intros x1 x2 Hr Hs IH m Hm.
  assert (x_envoy_config x2 = x_envoy_config x1 ∨
    (x_phase x1 = Registered ∧ x_envoy_config x2
       = Some (exec_manager registry (Token (x_client x1)) config))) as [Hsame|[Hp Hnew]].
  { destruct Hs as [timeout err c x Hp Hw|x Hp|x Hp|timeout err x Hp Hw|e1 e2 x Hp Hm' He|ret x Hp
      |nw init x x2 Hp Hw|s phase x Hp|phase x Hp Hd|rw lw lc x x2 Hp Hm'|raw c f' x Hp Hh|raw c f' x Hp Hh|x Hp Hd
      |ends m' x Hp Hcfg|s x Hl|x|w' x Hw]; try (by left).
    - left. by destruct err.
    - left. unfold exec_register. by destruct (RegisterGateway _ _ _ _) as [s [e|]].
    - right. split; [done|]. unfold exec_render. destruct (RenderSDSConfig _ _) as [f' [sds|e]]; [|done].
      by destruct (RenderBootstrap _ _ _) as [f'' [e|]].
    - left. by destruct err.
    - left. unfold exec_deregister. by destruct (Deregister _ _) as [s [e|]].
    - left. unfold exec_watch_servers in Hw. destruct (WatchServers _ _ _ _) as [[[c w'] phase]|]; [|done].
      injection Hw as <-. by destruct phase as [| |[e|]].
    - left. unfold exec_watch_state. destruct (watch_state _ _ _ _) as [c phase'].
      by destruct phase as [| |], phase' as [| |[e|]].
    - left. unfold exec_watch_done. by destruct (watch_done _ _) as [w' phase'].
    - left. unfold exec_manage in Hm'. destruct (Manage _ _ _ _ _) as [[[c f'] err]|]; [|done].
      injection Hm' as <-. by destruct err. }
  - rewrite Hsame in Hm. destruct (IH m Hm) as (x0 & H0 & Hp0 & H1 & ->).
    exists x0. split_and!; [done|done| |done]. by eapply rtc_r.
  - rewrite Hnew in Hm. injection Hm as <-. exists x1. split_and!; [done|done| |done].
    by apply rtc_once.
Qed.

(** C16: Envoy is started only when everything it needs is in place.  Let the
    bootstrap file not be one of the certificate manager's files, and let the
    settings that are rendered between quotes need no escaping (the template
    inserts them as they are).  In every interleaving, once Envoy was started:
    its configuration was rendered when the gateway was registered, in a state
    [x0] passed through, for the identity the gateway is registered under and
    with the token the client had there, which is the token its connection to
    Consul sends (with discovery: if there is one and no token file overrides
    it), is the configured one if that is set, and without discovery is still
    the client's.  If the token needs no escaping either, the bootstrap file is
    on disk and is the intended JSON document, with that token and the cluster
    of the SDS server, and so are the files the cluster refers to, which name
    the files of the certificates.  These exist, and the cached certificate
    matches its key.  While the main function waits for Envoy the registration
    is in force. *)
Theorem envoy_starts_prepared (w : A) (f : F) x :
  separate_bootstrap → plain_config → rtc step (exec_start config w f) x → x_envoy x ≠ NotStarted →
  ∃ x0 cl, rtc step (exec_start config w f) x0 ∧ x_phase x0 = Registered ∧ rtc step x0 x ∧
    let token := Token (x_client x0) in
    (cl_client (x_client x0) = Some cl ∧ serves consul token cl ∧ configured_token token ∧
     (cc_UseDynamic consul = false → Token (x_client x) = token)) ∧
    x_envoy_config x = Some (exec_manager registry token config) ∧
    (plain_text token = true →
     let m := exec_manager registry token config in
     let args := cluster_args (exec_certs config) in
     (file (x_files x) (ec_BootstrapFile (xc_EnvoyConfig config)) ≫= json_read)
       = Some (bootstrap_document (bootstrap_args m (sdsClusterTemplate args)) (Some (sds_cluster_document args))) ∧
     (file (x_files x) (path_Join dir SDSCertConfigFile) ≫= json_read) = Some (sds_cert_document (cert_args dir)) ∧
     (file (x_files x) (path_Join dir SDSCAConfigFile) ≫= json_read)
       = Some (sds_ca_document (path_Join dir RootCAFile))) ∧
    (∀ g, g ∈ cert_files → is_Some (file (x_files x) (path_Join dir g))) ∧
    leaf_matches (x_certs x) ∧ is_Some (cm_certificate (x_certs x)) ∧
    (x_phase x = Running → is_Some (sr_cancel (x_registry x))).
Proof.
  intros Hsep Hplain Hreach Hne.
  assert (exec_inv x) as [Hc _ Hm _ He Hr].
  { eapply (rtc_preserve _ exec_inv); [|exact Hreach|apply exec_start_inv]. intros a b. by apply exec_step_inv. }
  destruct (He Hne) as [Hman Hsig]. destruct (Hm Hman) as (token & Hcfg & Hprep).
  destruct (envoy_config_rendered _ _ _ _ Hreach Hcfg) as (x0 & H0 & Hp0 & H1 & Htoken).
  rewrite Htoken in Hcfg, Hprep. clear token Htoken.
  pose proof (exec_reach_connection _ _ _ H0) as Hconn. pose proof Hconn as [Hwatch Htok Hclosed].
  assert (ch_closed (cl_initialized (x_client x0)) = true) as Hch
    by (apply Hclosed; rewrite Hp0; by right; left).
  destruct (x_watch x0) as [phase|]; [|by rewrite Hwatch in Hch].
  destruct (conn_ready _ _ _ Hwatch Hch) as (cl & Hcl & Hserves).
  destruct Hc as [_ _ Hl Hready]. destruct (Hready Hsig) as (_ & Hcert & Hfiles).
  exists x0, cl. split; [done|]. split; [done|]. split; [done|]. cbv zeta. split.
  { split_and!; [done|done|by apply Htok|]. intros Hd. by apply (exec_keeps_token x0 x). }
  split; [done|]. split; [intros; by apply prepared_documents|]. split.
  - intros g Hg. by apply Hfiles; [apply certificate_directory_set|].
  - split; [done|]. split; [done|]. intros Hp. apply Hr. rewrite Hp. by right; right; left.
Qed.

(** *** The end of Envoy *)

(** Once it ended, nothing changes for Envoy. *)
Record end_inv x : Prop := {
  end_failed : ∀ e, x_envoy x = Ended (Some e) → is_Some (x_failed x);
  end_clean : x_phase x = Exiting 0 ∨ x_phase x = Exited 0 → x_envoy x = Ended None;
  end_status : ∀ ret, x_phase x = Exiting ret ∨ x_phase x = Exited ret → ret = 0%Z ∨ ret = 1%Z;
  end_fresh : early (x_phase x) ∨ x_phase x = AwaitingCertificates → x_envoy x = NotStarted
}.

(** A step that does not touch Envoy or the main function. *)
Lemma end_inv_background x x' :
  (x_phase x', x_envoy x') = (x_phase x, x_envoy x) → (is_Some (x_failed x) → is_Some (x_failed x')) →
  end_inv x → end_inv x'.
Proof.
  intros [= Hp He] Hf [H1 H2 H3 H4]. split; rewrite ?Hp, ?He; auto. intros e Hx. by eapply Hf, H1.
Qed.

(** The main function leaves before or after Envoy. *)
Lemma end_inv_leave x x' :
  x_envoy x' = x_envoy x → (is_Some (x_failed x) → is_Some (x_failed x')) →
  x_phase x' = Exiting 1 ∨ x_phase x' = Exited 1 → end_inv x → end_inv x'.
Proof.
  intros He Hf Hp [H1 H2 H3 H4]. split; rewrite ?He.
  - intros e Hx. by eapply Hf, H1.
  - intros [Hq|Hq]; destruct Hp as [Hp|Hp]; congruence.
  - intros ret Hq. right. destruct Hp as [Hp|Hp], Hq as [Hq|Hq]; congruence.
  - intros [[|[]]|]; destruct Hp as [Hp|Hp]; congruence.
Qed.

Lemma end_inv_early x x' :
  x_envoy x' = x_envoy x → early (x_phase x) → early (x_phase x') ∨ x_phase x' = AwaitingCertificates →
  end_inv x → end_inv x'.
Proof.
  intros He Hp Hp' [H1 H2 H3 H4].
  assert (x_envoy x' = NotStarted) as Hns by (rewrite He; apply H4; by left).
  assert (∀ ret, x_phase x' ≠ Exiting ret ∧ x_phase x' ≠ Exited ret) as Hnl.
  { intros ret. destruct Hp' as [[Hq|[Hq|Hq]]|Hq]; rewrite Hq; by split. }
  split; [by rewrite Hns|..]; [intros [Hx|Hx]; by apply Hnl in Hx| |done].
  intros ret [Hx|Hx]; by apply Hnl in Hx.
Qed.

Lemma group_error_failed e x : is_Some (x_failed x) → is_Some (x_failed (x_group_error e x)).
Proof. intros [e' He]. simpl. rewrite He. by eexists. Qed.

Lemma end_inv_envoy ends m x : x_envoy x = Started → end_inv x → end_inv (exec_envoy_ended ends m x).
Proof.
  intros Hs [H1 H2 H3 H4]. unfold exec_envoy_ended. split; simpl.
  - intros e [= ->]. destruct (x_failed x); by eexists.
  - intros Hp. apply H2 in Hp. congruence.
  - exact H3.
  - intros Hp. apply H4 in Hp. congruence.
Qed.

Lemma end_inv_finished e x :
  x_envoy x = Ended e → x_phase x = Running → end_inv x → end_inv (exec_finished x).
Proof.
  intros He Hp [H1 H2 H3 H4]. unfold exec_finished. split; simpl.
  - exact H1.
  - destruct (x_failed x) eqn:Hf; [by intros [|]|]. intros _. destruct e as [e|]; [|done].
    destruct (H1 e He) as [? Hx]. done.
  - destruct (x_failed x); intros ret [[= <-]|]; auto; done.
  - by intros [[|[]]|].
Qed.

Lemma exec_step_end x x' : step x x' → end_inv x → end_inv x'.
Proof.
  intros Hstep Hinv.
  destruct Hstep as [timeout err c x Hp Hw|x Hp|x Hp|timeout err x Hp Hw|e1 e2 x Hp Hm He|ret x Hp
    |nw init x x2 Hp Hw|s phase x Hp|phase x Hp Hd|rw lw lc x x2 Hp Hm|raw c f x Hp Hh|raw c f x Hp Hh|x Hp Hd
    |ends m x Hp Hc|s x Hl|x|w x Hw]; try (by eapply end_inv_background; [..|exact Hinv]).
  - destruct err; [by eapply end_inv_leave; [..|exact Hinv]; try right|].
    eapply end_inv_early; [..|exact Hinv]; [done|by left|left; by right; left].
  - unfold exec_register. destruct (RegisterGateway _ _ _ _) as [s [e|]].
    + by eapply end_inv_leave; [..|exact Hinv]; try right.
    + eapply end_inv_early; [..|exact Hinv]; [done|by right; left|left; by right; right].
  - unfold exec_render. destruct (RenderSDSConfig _ _) as [f [sds|e]]; [|by eapply end_inv_leave; [..|exact Hinv]; try left].
    destruct (RenderBootstrap _ _ _) as [f' [e|]]; [by eapply end_inv_leave; [..|exact Hinv]; try left|].
    eapply end_inv_early; [..|exact Hinv]; [done|by right; right|by right].
  - destruct err; [by eapply end_inv_leave; [..|exact Hinv]; try left|].
    split; simpl; try done; [by intros [|]|by intros ret [|]|by intros [[|[]]|]].
  - by eapply end_inv_finished.
  - destruct Hinv as [H1 H2 H3 H4].
    assert (∀ s, end_inv (x_return ret (x_set_registry s x))) as Hret.
    { intros s. split; simpl; try done.
      - intros [|[= ->]]; [done|]. apply H2. by left.
      - intros r [|[= <-]]; [done|]. apply H3. by left.
      - by intros [[|[]]|]. }
    unfold exec_deregister. destruct (Deregister _ _) as [s [e|]]; [|apply Hret].
    by eapply end_inv_leave; [..|split; [exact H1|exact H2|exact H3|exact H4]]; try right.
  - unfold exec_watch_servers in Hw. destruct (WatchServers _ _ _ _) as [[[c w] phase]|]; [|done]. injection Hw as <-.
    by destruct phase as [| |[e|]]; (eapply end_inv_background; [..|exact Hinv]).
  - unfold exec_watch_state. destruct (watch_state _ _ _ _) as [c phase'].
    by destruct phase as [| |], phase' as [| |[e|]]; (eapply end_inv_background; [..|exact Hinv]).
  - unfold exec_watch_done. destruct (watch_done _ _) as [w phase']. by eapply end_inv_background; [..|exact Hinv].
  - unfold exec_manage in Hm. destruct (Manage _ _ _ _ _) as [[[c f] err]|]; [|done]. injection Hm as <-.
    destruct err; eapply end_inv_background; [..|exact Hinv| | |exact Hinv]; try done.
    exact (group_error_failed _ (x_set_manage _ (x_set_certs _ _ x))).
  - by apply end_inv_envoy.
Qed.

Lemma exec_start_end w f : end_inv (exec_start config w f).
Proof. split; simpl; try done; by intros ? [|] || intros [|]. Qed.

(** A clean exit of Envoy goes unnoticed.  When Envoy ends without an
    error, nothing ends the certificate manager, so [group.Wait] never returns:
    as long as nobody interrupts the process it keeps waiting, without Envoy,
    and its registration stays in force. *)
Theorem clean_envoy_exit_hangs x x' :
  x_phase x = Running → x_envoy x = Ended None → x_manage x = WatchingCerts → x_failed x = None →
  rtc (λ a b, exec_step uuid config others a b ∧ x_interrupted b = false) x x' → x_interrupted x = false →
  x_phase x' = Running ∧ x_envoy x' = Ended None ∧
  sr_cancel (x_registry x') = sr_cancel (x_registry x).
Proof.
  intros Hp He Hm Hf Hr Hi. set (gone := λ a : exec (A:=A) (F:=F), x_phase a = Running ∧ x_envoy a = Ended None ∧
    x_manage a = WatchingCerts ∧ x_failed a = None ∧ x_interrupted a = false ∧
    sr_cancel (x_registry a) = sr_cancel (x_registry x)).
  assert (gone x') as (? & ? & _ & _ & _ & ?); [|done].
  eapply (rtc_preserve _ gone); [|exact Hr|by repeat split]. clear Hr Hp He Hm Hf Hi x'.
  intros a b [Hstep Hint] (Hp & He & Hm & Hf & Hi & Hreg).
  destruct Hstep as [timeout err c a Hq Hw|a Hq|a Hq|timeout err a Hq Hw|e1 e2 a Hq Hq' He'|ret a Hq
    |nw init a a2 Hq Hw|s phase a Hq|phase a Hq Hd|rw lw lc a a2 Hq Hm'|raw c f a Hq Hh|raw c f a Hq Hh|a Hq Hd
    |ends m a Hq Hc|s a Hl|a|w a Hw]; try congruence; try (by repeat split).
  - unfold exec_watch_servers in Hw. destruct (WatchServers _ _ _ _) as [[[c w] phase]|]; [|done]. injection Hw as <-.
    by destruct phase as [| |[e|]].
  - unfold exec_watch_state in *. destruct (watch_state _ _ _ _) as [c phase'].
    by destruct phase as [| |], phase' as [| |[e|]].
  - unfold exec_watch_done. by destruct (watch_done _ _) as [w phase'].
  - exfalso. unfold group_done in Hd. rewrite Hi, Hf in Hd. by rewrite bool_decide_false in Hd by (by intros []).
  - repeat split; try done. simpl. rewrite (loop_step_cancel _ _ Hl). done.
Qed.

End properties.

(** ** Leaving Consul *)

(** Logging in and out does not concern the agent's services. *)
Class SeparateACL (A : Type) `{LawfulAgent A, ConsulAPI A} : Prop := {
  login_registered : ∀ cl ns params w w' r,
    ACL_Login cl ns params w = (w', r) → registered w' = registered w;
  logout_registered : ∀ cl token w w' err,
    ACL_Logout cl token w = (w', err) → registered w' = registered w
}.

Section leaving.
Context {EN : Environment} {TP : TLSParsing} {RB : RetryBackoff}.
Context {A F : Type} {AG : ConsulAgent A} {LA : LawfulAgent A} {API : ConsulAPI A} {SA : SeparateACL A}.
Context {FS : FileSystem F}.
Context (uuid : string) (config : ExecConfig) (others : A → A → Prop).
#[local] Abbreviation registry := (exec_registry uuid config).
#[local] Abbreviation step := (exec_step (F:=F) uuid config others).
Implicit Types (x : exec (A:=A) (F:=F)).

Lemma Authenticate_registered cl a service bearer (w w' : A) token err :
  Authenticate (ACL_Login cl) a service bearer w = (w', token, err) → registered w' = registered w.
Proof using Type SA.
  unfold Authenticate. rewrite backoff_Run_spec.
  destruct (retry_loop _ _ _) as [[w1 t1] e1] eqn:Hrun. intros [= <- _ _]. revert Hrun.
  generalize (au_tries a) "". intros n. revert w. unfold authenticate.
  destruct (login_request a service bearer) as [ns params].
  induction n as [|n IH]; intros w t0; simpl;
    destruct (ACL_Login cl ns params w) as [w2 [token2|e2]] eqn:Hreq; apply login_registered in Hreq;
    try (by intros [= <- _ _]). intros ->%IH. done.
Qed.

Lemma WatchServers_registered nw init c (w : A) c' w' phase :
  WatchServers nw init c w = Some (c', w', phase) → registered w' = registered w.
Proof using Type SA.
  assert (∀ err c (w : A) s, watch_fails err c w = Some s → s.1.2 = w) as Hf.
  { intros err c0 w0 s. unfold watch_fails. destruct (ch_send _ _); [|done]. by intros [= <-]. }
  unfold WatchServers. destruct (cc_UseDynamic _).
  - unfold watch_dynamic. destruct (server_name _) as [name static].
    destruct (nw _); [|by intros <-%Hf]. destruct init; [|by intros <-%Hf].
    destruct (updateClient _ _ _ _ _) as [c1 [e|]]; [by intros <-%Hf|].
    destruct (ch_close _); [|done]. by intros [= _ <- _].
  - unfold watch_static. destruct (cc_Credentials _).
    + destruct (api_NewClient _ _) as [a [cl|e]]; [|by intros <-%Hf]. destruct (ch_close _); [|done]. by intros [= _ <- _].
    + destruct (api_NewClient _ _) as [a [cl|e]]; [|by intros <-%Hf].
      destruct (login _ _ _ _ _ _) as [[a2 w2] r] eqn:Hl.
      assert (registered w2 = registered w) as Hw2.
      { unfold login in Hl. destruct (Authenticate _ _ _ _ _) as [[w3 t3] [e|]] eqn:Hauth;
          apply Authenticate_registered in Hauth; [by injection Hl as _ <- _|].
        destruct (api_NewClient _ _) as [a4 [cl4|e]]; by injection Hl as _ <- _. }
      destruct r as [[cl2 t2]|e]; [|by intros <-%Hf]. destruct (ch_close _); [|done]. by intros [= _ <- _].
Qed.

Lemma watch_done_registered (w w' : A) phase phase' :
  watch_done w phase = (w', phase') → registered w' = registered w.
Proof using Type SA.
  destruct phase as [[[base token]|]| |]; simpl; try (by intros [= <- _]).
  unfold logout. destruct (ACL_Logout _ _ _) as [w1 e] eqn:Hl. intros [= <- _]. by eapply logout_registered.
Qed.

Lemma quiet_agent (s : ServiceRegistry A) w :
  (rgc_id registry ∈ registered w → rgc_id registry ∈ registered (sr_agent s)) →
  quiet registry s → quiet registry (sr_set_agent w s).
Proof. intros Hw [H1 H2 H3]. split; [by intros ?%Hw|done..]. Qed.

Lemma quiet_parent (s : ServiceRegistry A) ctxs : quiet registry s → quiet registry (parent_done ctxs s).
Proof. intros [H1 H2 H3]. split; [done| |done]. intros l Hl. simpl. apply elem_of_union_r. by apply H2. Qed.

(** The process left Consul when it ended well. *)
Definition left_inv x : Prop :=
  registry_inv registry (x_registry x) ∧ (x_phase x = Exited 0 → quiet registry (x_registry x)).

Lemma deregister_left ret x :
  registry_inv registry (x_registry x) →
  let x' := exec_deregister uuid config ret x in
  x_phase x' = Exited 0 → quiet registry (x_registry x').
Proof.
  intros Hinv. unfold exec_deregister. destruct (Deregister _ _) as [s [e|]] eqn:Hd; simpl; [done|]. intros _.
  apply quiet_parent. by eapply Deregister_quiet.
Qed.

Lemma exec_step_left x x' :
  (∀ w w', others w w' → uuid ∈ registered w' → uuid ∈ registered w) →
  step x x' → left_inv x → left_inv x'.
Proof using Type SA.
  intros Hothers Hstep [Hreg Hq]. split.
  { pose proof (exec_step_registry _ _ _ _ _ Hstep) as Hr.
    eapply (rtc_preserve _ (registry_inv registry)); [by apply registry_step_inv|exact Hr|exact Hreg]. }
  destruct (registry_fields uuid config) as [Hid _].
  destruct Hstep as [timeout err c x Hp Hw|x Hp|x Hp|timeout err x Hp Hw|e1 e2 x Hp Hm He|ret x Hp
    |nw init x x2 Hp Hw|s phase x Hp|phase x Hp Hd|rw lw lc x x2 Hp Hm|raw c f x Hp Hh|raw c f x Hp Hh|x Hp Hd
    |ends m x Hp Hc|s x Hl|x|w x Hw]; try done.
  - by destruct err.
  - unfold exec_register. by destruct (RegisterGateway _ _ _ _) as [s [e|]].
  - unfold exec_render. destruct (RenderSDSConfig _ _) as [f [sds|e]]; [|done].
    by destruct (RenderBootstrap _ _ _) as [f' [e|]].
  - by destruct err.
  - by apply deregister_left.
  - unfold exec_watch_servers in Hw. destruct (WatchServers _ _ _ _) as [[[c w] phase]|] eqn:Hws; [|done].
    apply WatchServers_registered in Hws. injection Hw as <-.
    destruct phase as [| |[e|]]; simpl; intros Hx; try apply quiet_parent; apply quiet_agent; auto; by rewrite Hws.
  - unfold exec_watch_state. destruct (watch_state _ _ _ _) as [c phase'].
    destruct phase as [| |], phase' as [| |[e|]]; simpl; intros Hx; try apply quiet_parent; by apply Hq.
  - unfold exec_watch_done. destruct (watch_done _ _) as [w phase'] eqn:Hwd. apply watch_done_registered in Hwd.
    simpl. intros Hx. apply quiet_agent; [by rewrite Hwd|by apply Hq].
  - unfold exec_manage in Hm. destruct (Manage _ _ _ _ _) as [[[c f] err]|]; [|done]. injection Hm as <-.
    by destruct err.
  - simpl. intros Hx. eapply background_quiet; [by apply BackgroundLoop|by apply Hq].
  - simpl. intros Hx. by apply quiet_parent, Hq.
  - simpl. intros Hx. apply quiet_agent; [rewrite Hid; by apply Hothers|by apply Hq].
Qed.

(** C17: the process leaves cleanly or says so.  It only ever exits with 0 or
    1.  When it exited with 0, Envoy had been started and had ended without an
    error (or because of the interruption), and the gateway is deregistered for
    good: whatever goroutines are still running, they do not register it again,
    provided nobody else registers its unique identifier. *)
Theorem exit_status_honest (w : A) (f : F) x ret :
  (∀ w w', others w w' → uuid ∈ registered w' → uuid ∈ registered w) →
  rtc step (exec_start config w f) x → x_phase x = Exited ret →
  (ret = 0%Z ∨ ret = 1%Z) ∧
  (ret = 0%Z → x_envoy x = Ended None ∧ uuid ∉ registered (sr_agent (x_registry x))).
Proof using Type SA.
  intros Hothers Hreach Hp.
  assert (end_inv x) as [_ Hclean Hstatus _].
  { eapply (rtc_preserve _ end_inv); [by apply exec_step_end|exact Hreach|apply exec_start_end]. }
  assert (left_inv x) as [_ Hq].
  { eapply (rtc_preserve _ left_inv); [|exact Hreach|].
    - intros a b. by apply exec_step_left.
    - split; [|done]. split; [by intros l ?%not_elem_of_nil|by intros ??? ?%not_elem_of_nil]. }
  split; [apply Hstatus; by right|]. intros ->. split; [apply Hclean; by right|].
  destruct (registry_fields uuid config) as [<- _]. by destruct (Hq Hp).
Qed.

End leaving.

(** ** Examples *)

Module ExecExamples.

Import (hints) RegistrationExamples CertExamples.

(** The services of the agent, and the tokens. *)
Definition world : Type := gset string * gset string.

#[export] Instance world_agent : ConsulAgent world := {|
  agent_ServiceRegister ctx_done r w :=
    let (s, err) := agent_ServiceRegister ctx_done r w.1 in ((s, w.2), err);
  agent_ServiceDeregister ctx_done id ns w :=
    let (s, err) := agent_ServiceDeregister ctx_done id ns w.1 in ((s, w.2), err);
  agent_Service id ns w := agent_Service id ns w.1;
  agent_UpdateTTL ctx_done id w := (w, None)
|}.

#[export] Program Instance world_lawful : LawfulAgent world := {| registered w := w.1 |}.
Next Obligation. intros [] r [s t] w' err [= <- <-]; set_solver. Qed.
Next Obligation. intros r [s t] w' err [= <- <-]. by split. Qed.
Next Obligation.
  intros [] i ns [s t] w' err [= <- <-]; [set_solver|]. simpl. split_and!; [set_solver| |set_solver].
  intros y Hy. destruct (decide (y = i)); set_solver.
Qed.
Next Obligation. by intros d i w w' err [= <- _]. Qed.
Next Obligation. intros i ns [s t]. simpl. by case_bool_decide. Qed.

#[export] Program Instance world_api : ConsulAPI world := {|
  api_Client := api_Config;
  client_config := id;
  api_NewClient _ cfg := (cfg, Ok cfg);
  ACL_Login _ _ _ w := ((w.1, {["secret"]} ∪ w.2), Ok "secret");
  ACL_Logout _ token w := ((w.1, w.2 ∖ {[token]}), None)
|}.
Next Obligation. by intros w cfg cfg' cl [= <- <-]. Qed.
Next Obligation. by intros w cfg cfg' r [= <- _]. Qed.

#[export] Instance world_separate : SeparateACL world.
Proof. split; [by intros cl ns p w w' r [= <- _]|by intros cl t w w' err [= <- _]]. Qed.

#[export] Instance empty_environment : Environment := {| Getenv _ := "" |}.

Definition config : ExecConfig :=
  mkExecConfig "info" (mkGatewayConfig "10.0.0.1" "gateway" "team" "")
    (mkEnvoyConfig "/ca.pem" "consul.local" 8502 "sds.local" 9090 "/bootstrap/envoy.json" "" "envoy" [])
    ConnectionExamples.login_config "" false.

Definition others (w w' : world) : Prop := w' = w.

Definition state : Type := exec (A:=world) (F:=gmap string string).
Definition x0 : state := exec_start config (∅, ∅) ∅.
Definition x1 : state :=
  default x0 (exec_watch_servers (λ _, Ok tt) (Err (ErrString "no state")) x0).
Definition x2 : state := exec_connected None (x_client x1) x1.
Definition x3 : state := exec_register "id" config x2.
Definition x4 : state := exec_render "id" config x3.
Definition x5 : state := default x4 (exec_manage (Ok tt) (Ok tt) (Ok (Some (mkLeafCert "cert" "key"))) x4).
Definition root : CertManager * gmap string string :=
  default (x_certs x5, x_files x5) (handleRootWatch CertExamples.roots (x_certs x5) (x_files x5)).
Definition x6 : state := x_set_certs root.1 root.2 x5.
(** Envoy runs. *)
Definition x7 : state := exec_written None x6.
(** A signal ends everything. *)
Definition x8 : state := x_cancel x7.
Definition envoy : ManagerConfig := exec_manager (exec_registry "id" config) "secret" config.
Definition x9 : state := exec_envoy_ended (λ _, Some (ErrString "killed")) envoy x8.
Definition x10 : state := exec_finished (x_set_manage (Ended None) x9).
Definition x11 : state := exec_deregister "id" config 0 x10.

#[local] Ltac evaluate := lazymatch goal with |- _ ∈ _ => left | |- _ => reflexivity end.

Lemma running : rtc (exec_step "id" config others) x0 x7.
Proof.
  eapply rtc_l; [eapply (XWatchServers _ _ _ (λ _, Ok tt) (Err (ErrString "no state")) x0 x1); evaluate|].
  eapply rtc_l; [eapply (XConnected _ _ _ false None (x_client x1) x1); evaluate|].
  eapply rtc_l; [eapply (XRegister _ _ _ x2); evaluate|].
  eapply rtc_l; [eapply (XRender _ _ _ x3); evaluate|].
  eapply rtc_l; [eapply (XManage _ _ _ (Ok tt) (Ok tt) (Ok (Some (mkLeafCert "cert" "key"))) x4 x5); evaluate|].
  eapply rtc_l; [eapply (XRootWatch _ _ _ CertExamples.roots root.1 root.2 x5); evaluate|].
  eapply rtc_l; [eapply (XWritten _ _ _ false None x6); evaluate|]. apply rtc_refl.
Qed.

Lemma stopped : rtc (exec_step "id" config others) x0 x11.
Proof.
  etrans; [apply running|].
  eapply rtc_l; [apply XSignal|].
  eapply rtc_l; [eapply (XEnvoyEnded _ _ _ (λ _, Some (ErrString "killed")) envoy x8); evaluate|].
  eapply rtc_l; [eapply (XManageDone _ _ _ x9); evaluate|].
  eapply rtc_l; [eapply (XFinished _ _ _ None None (x_set_manage (Ended None) x9)); evaluate|].
  eapply rtc_l; [eapply (XDeregister _ _ _ 0 x10); evaluate|]. apply rtc_refl.
Qed.

(** The main function may return before the session is logged out: nothing
    waits for [WatchServers]. *)
Lemma exit_before_logout :
  ∃ x : state, rtc (exec_step "id" config others) x0 x ∧ x_phase x = Exited 0 ∧
    "secret" ∈ (sr_agent (x_registry x)).2.
Proof. exists x11. split; [apply stopped|]. split; [reflexivity|]. by apply elem_of_union_l, elem_of_singleton. Qed.

End ExecExamples.

Import (hints) RegistrationExamples CertExamples ExecExamples.

Lemma example_separate : separate_bootstrap ExecExamples.config.
Proof.
  intros f Hf. unfold cert_files in Hf. simpl in Hf. rewrite !elem_of_cons, elem_of_nil in Hf.
  by destruct Hf as [->|[->|[->|[->|[->|[]]]]]].
Qed.

Lemma example_plain : plain_config "id" ExecExamples.config.
Proof. repeat constructor. Qed.

Lemma envoy_starts_prepared_witness :
  (∃ j, (file (x_files ExecExamples.x7) "/bootstrap/envoy.json" ≫= json_read) = Some j) ∧
  is_Some (file (x_files ExecExamples.x7) "/certs/client.pem") ∧
  Token (x_client ExecExamples.x7) = "secret".
Proof.
  destruct (envoy_starts_prepared "id" ExecExamples.config ExecExamples.others (∅, ∅) ∅ ExecExamples.x7
    example_separate example_plain ExecExamples.running ltac:(discriminate))
    as (x0 & cl & _ & _ & _ & (_ & _ & _ & Hsame) & Htoken & Hdocs & Hfiles & _).
  specialize (Hsame eq_refl). split; [|split].
  - eexists. apply Hdocs. rewrite <- Hsame. reflexivity.
  - apply (Hfiles ClientPrivateKeyFile). right. right. by left.
  - reflexivity.
Defined.

Lemma exit_status_honest_witness :
  x_envoy ExecExamples.x11 = Ended None ∧ "id" ∉ registered (sr_agent (x_registry ExecExamples.x11)).
Proof.
  apply (exit_status_honest "id" ExecExamples.config ExecExamples.others (∅, ∅) ∅ ExecExamples.x11 0);
    [by intros w w' ->|exact ExecExamples.stopped|reflexivity|reflexivity].
Defined.

(** Envoy ended by itself, without an error. *)
Definition envoy_gone : ExecExamples.state := exec_envoy_ended (λ _, None) ExecExamples.envoy ExecExamples.x7.

Lemma clean_envoy_exit_hangs_witness :
  x_phase (x_set_agent (∅, ∅) envoy_gone) = Running ∧
  is_Some (sr_cancel (x_registry (x_set_agent (∅, ∅) envoy_gone))).
Proof.
  destruct (clean_envoy_exit_hangs "id" ExecExamples.config (λ _ _, True) envoy_gone (x_set_agent (∅, ∅) envoy_gone))
    as (Hp & _ & Hr); try reflexivity.
  - apply rtc_once. split; [by apply XAgent|reflexivity].
  - split; [exact Hp|]. exists 0. etrans; [exact Hr|reflexivity].
Defined.
