(* ===== verification/Flags.v ===== *)
(** * Command line flags

    The package [flag] of the standard library as the commands use it, and
    [strconv.ParseInt] with base 0, which it reads integers with.  A flag set
    maps the names of its flags to their values, which are of the kind they are
    defined with. *)

From S2P Require Import Prelude Errors JsonSyntax.

(** ** Numbers *)

Definition lower (c : ascii) : ascii :=
  if (65 <=? N_of_ascii c)%N && (N_of_ascii c <=? 90)%N then ascii_of_N (N_of_ascii c + 32) else c.

(** The value of a digit in a base of up to 36. *)
Definition digit_in (base : Z) (c : ascii) : option Z :=
  let n := Z.of_N (N_of_ascii (lower c)) in
  let d := if bool_decide (48 ≤ n ≤ 57)%Z then Some (n - 48)%Z
           else if bool_decide (97 ≤ n ≤ 122)%Z then Some (n - 87)%Z else None in
  d ← d; if (d <? base)%Z then Some d else None.

(** Underscores are skipped where base 0 allows them. *)
Fixpoint digits_in (base acc : Z) (s : string) : option Z :=
  match s with
  | EmptyString => Some acc
  | String c s =>
      if Ascii.eqb c "_" then digits_in base acc s
      else d ← digit_in base c; digits_in base (acc * base + d)%Z s
  end.

(** The base a prefix stands for, and what follows it. *)
Definition base_prefix (s : string) : Z * string :=
  match s with
  | String c0 (String c1 (String c2 rest)) =>
      if Ascii.eqb c0 "0" then
        if Ascii.eqb (lower c1) "b" then (2%Z, String c2 rest)
        else if Ascii.eqb (lower c1) "o" then (8%Z, String c2 rest)
        else if Ascii.eqb (lower c1) "x" then (16%Z, String c2 rest)
        else (8%Z, String c1 (String c2 rest))
      else (10%Z, s)
  | String c0 rest => if Ascii.eqb c0 "0" then (8%Z, rest) else (10%Z, s)
  | EmptyString => (10%Z, s)
  end.

(** [underscoreOK]: underscores only between digits, or between the prefix and
    a digit. *)
Fixpoint underscores_between (hex : bool) (saw : ascii) (s : string) : bool :=
  match s with
  | EmptyString => negb (Ascii.eqb saw "_")
  | String c s =>
      if is_digit c || (hex && (97 <=? N_of_ascii (lower c))%N && (N_of_ascii (lower c) <=? 102)%N)
      then underscores_between hex "0" s
      else if Ascii.eqb c "_" then
        if Ascii.eqb saw "0" then underscores_between hex "_" s else false
      else if Ascii.eqb saw "_" then false
      else underscores_between hex "!" s
  end.

Definition underscoreOK (s : string) : bool :=
  match s with
  | String c0 (String c1 rest) =>
      if Ascii.eqb c0 "0" && (Ascii.eqb (lower c1) "b" || Ascii.eqb (lower c1) "o" || Ascii.eqb (lower c1) "x")
      then underscores_between (Ascii.eqb (lower c1) "x") "0" rest
      else underscores_between false "^" s
  | _ => underscores_between false "^" s
  end.

(** [strconv.ParseUint] with base 0, before the check of its range. *)
Definition parse_uint (s : string) : option Z :=
  match s with
  | EmptyString => None
  | _ =>
      let (base, digits) := base_prefix s in
      n ← digits_in base 0 digits;
      if strings_Contains s "_" && negb (underscoreOK s) then None else Some n
  end.

(** [strconv.ParseInt] with base 0 and 64 bits. *)
Definition strconv_ParseInt (s : string) : option Z :=
  let in_range (z : Z) := if bool_decide (- 2 ^ 63 ≤ z < 2 ^ 63)%Z then Some z else None in
  match s with
  | String c s' =>
      if Ascii.eqb c "-" then n ← parse_uint s'; in_range (- n)%Z
      else if Ascii.eqb c "+" then n ← parse_uint s'; in_range n
      else n ← parse_uint s; in_range n
  | EmptyString => None
  end.

(** [strconv.ParseBool] *)
Definition strconv_ParseBool (s : string) : option bool :=
  if bool_decide (s ∈ ["1"; "t"; "T"; "true"; "TRUE"; "True"]) then Some true
  else if bool_decide (s ∈ ["0"; "f"; "F"; "false"; "FALSE"; "False"]) then Some false
  else None.

(** ** Flag sets *)

Inductive flag_value : Type :=
  | FString (s : string)
  | FInt (z : Z)
  | FBool (b : bool).

Abbreviation FlagSet := (gmap string flag_value).

(** [Value.Set] *)
Definition flag_Set (v : flag_value) (s : string) : option flag_value :=
  match v with
  | FString _ => Some (FString s)
  | FInt _ => FInt <$> strconv_ParseInt s
  | FBool _ => FBool <$> strconv_ParseBool s
  end.

Fixpoint split_equals (s : string) : string * option string :=
  match s with
  | EmptyString => ("", None)
  | String c s =>
      if Ascii.eqb c "=" then ("", Some s)
      else let (name, value) := split_equals s in (String c name, value)
  end.

(** What an argument is: no flag, the end of the flags, malformed, or a flag
    with the value it may carry. *)
Inductive argument : Type :=
  | NotAFlag
  | EndOfFlags
  | BadSyntax
  | AFlag (name : string) (value : option string).

Definition flag_name (s : string) : argument :=
  match s with
  | EmptyString => BadSyntax
  | String c rest =>
      if Ascii.eqb c "-" || Ascii.eqb c "=" then BadSyntax
      else let (name, value) := split_equals rest in AFlag (String c name) value
  end.

Definition classify (s : string) : argument :=
  match s with
  | String c0 (String c1 rest) =>
      if negb (Ascii.eqb c0 "-") then NotAFlag
      else if Ascii.eqb c1 "-" then
        match rest with EmptyString => EndOfFlags | _ => flag_name rest end
      else flag_name (String c1 rest)
  | _ => NotAFlag
  end.

Definition err_value (name value : string) : error :=
  ErrString ("invalid value " +:+ strconv_Quote value +:+ " for flag -" +:+ name +:+ ": parse error").

(** [Parse] *)
Fixpoint flag_Parse (f : FlagSet) (args : list string) : result FlagSet :=
  match args with
  | [] => Ok f
  | s :: rest =>
      match classify s with
      | NotAFlag | EndOfFlags => Ok f
      | BadSyntax => Err (ErrString ("bad flag syntax: " +:+ s))
      | AFlag name value =>
          match f !! name with
          | None =>
              if bool_decide (name = "help" ∨ name = "h") then Err (ErrString "flag: help requested")
              else Err (ErrString ("flag provided but not defined: -" +:+ name))
          | Some (FBool _ as v) =>
              match flag_Set v (default "true" value) with
              | Some v => flag_Parse (<[name := v]> f) rest
              | None => Err (err_value name (default "true" value))
              end
          | Some v =>
              match value, rest with
              | Some x, _ =>
                  match flag_Set v x with
                  | Some v => flag_Parse (<[name := v]> f) rest
                  | None => Err (err_value name x)
                  end
              | None, x :: rest =>
                  match flag_Set v x with
                  | Some v => flag_Parse (<[name := v]> f) rest
                  | None => Err (err_value name x)
                  end
              | None, [] => Err (ErrString ("flag needs an argument: -" +:+ name))
              end
          end
      end
  end.

(** The variable a flag is bound to. *)
Definition string_flag (f : FlagSet) (name : string) : string :=
  match f !! name with Some (FString s) => s | _ => "" end.
Definition int_flag (f : FlagSet) (name : string) : Z :=
  match f !! name with Some (FInt z) => z | _ => 0%Z end.
Definition bool_flag (f : FlagSet) (name : string) : bool :=
  match f !! name with Some (FBool b) => b | _ => false end.

(** ** Properties *)

(** A flag followed by its value. *)
Lemma Parse_value f arg name old x v rest :
  classify arg = AFlag name None → f !! name = Some old → (∀ b, old ≠ FBool b) → flag_Set old x = Some v →
  flag_Parse f (arg :: x :: rest) = flag_Parse (<[name := v]> f) rest.
Proof.
  intros Ha Hf Hb Hs. cbn [flag_Parse]. rewrite Ha, Hf. destruct old; [by rewrite Hs..|]. by edestruct Hb.
Qed.

Lemma Parse_switch f arg name b rest :
  classify arg = AFlag name None → f !! name = Some (FBool b) →
  flag_Parse f (arg :: rest) = flag_Parse (<[name := FBool true]> f) rest.
Proof. intros Ha Hf. cbn [flag_Parse]. by rewrite Ha, Hf. Qed.

(** Integers are read back from their decimal form. *)
Lemma lower_digit c : is_digit c = true → lower c = c.
Proof. destruct c as [[] [] [] [] [] [] [] []]; by try discriminate. Qed.

Lemma digit_in_value c d : digit_value c = Some d → digit_in 10 c = Some d ∧ Ascii.eqb c "_" = false.
Proof.
  destruct c as [[] [] [] [] [] [] [] []]; intros H; try discriminate H; by injection H as <-.
Qed.

Lemma digits_in_parse acc s n : parse_digits acc s = Some n → digits_in 10 acc s = Some n.
Proof.
  revert acc. induction s as [|c s IH]; intros acc; [done|]. simpl.
  destruct (digit_value c) as [d|] eqn:Hd; [|done]. simpl.
  apply digit_in_value in Hd as [-> ->]. apply IH.
Qed.

(** A positive number does not start with a zero. *)
Lemma pretty_go_head (x : N) s :
  (0 < x)%N → ∃ c r, pretty_N_go x s = String c r ∧ is_digit c = true ∧ Ascii.eqb c "0" = false.
Proof.
  revert s. induction x as [x IH] using (well_founded_induction N.lt_wf_0). intros s Hx.
  rewrite pretty_N_go_step by lia. destruct (decide (x / 10 = 0)%N) as [Hz|Hz].
  - rewrite Hz, pretty_N_go_0. eexists _, s. split; [reflexivity|]. split; [apply pretty_N_char_digit|].
    apply N.div_small_iff in Hz; [|lia]. rewrite N.mod_small by done.
    destruct x as [|p]; [lia|]. do 4 (try destruct p as [p|p|]); try done; lia.
  - apply IH; [apply N.div_lt; lia|by apply N.neq_0_lt_0].
Qed.

Lemma parse_uint_pretty (p : positive) : parse_uint (pretty (N.pos p)) = Some (Z.pos p).
Proof.
  pose proof (parse_digits_pretty (N.pos p)) as Hp.
  assert (∃ c r, pretty (N.pos p) = String c r ∧ is_digit c = true ∧ Ascii.eqb c "0" = false)
    as (c & r & Heq & Hd & Hz).
  { unfold pretty, pretty_N. case_decide; [done|]. apply pretty_go_head. lia. }
  rewrite Heq in Hp |- *. unfold parse_uint.
  assert (base_prefix (String c r) = (10%Z, String c r)) as ->.
  { unfold base_prefix. rewrite Hz. by destruct r as [|c1 [|c2 r]]. }
  rewrite (digits_in_parse _ _ _ Hp). cbn [mbind option_bind].
  assert (∀ s n acc, parse_digits acc s = Some n → strings_Contains s "_" = false) as Hno.
  { induction s as [|c' s IH]; intros n acc; [done|]. simpl.
    destruct (digit_value c') as [d|] eqn:Hd'; [|done]. apply digit_in_value in Hd' as [_ Hu]. intros Hs%IH.
    rewrite Hs, orb_false_r. destruct c' as [[] [] [] [] [] [] [] []]; first [discriminate Hu|reflexivity]. }
  by rewrite (Hno _ _ _ Hp).
Qed.

Lemma ParseInt_Itoa z : (- 2 ^ 63 ≤ z < 2 ^ 63)%Z → strconv_ParseInt (strconv_Itoa z) = Some z.
Proof.
  intros Hz. unfold strconv_Itoa. destruct z as [|p|p]; [done| |].
  - change (pretty (Z.pos p)) with (pretty (N.pos p)). pose proof (parse_uint_pretty p) as Hp.
    destruct (pretty_digits (N.pos p)) as (c & s & Hc & Hd & _). rewrite Hc in Hp |- *. unfold strconv_ParseInt.
    destruct (Ascii.eqb_spec c "-") as [->|_]; [done|]. destruct (Ascii.eqb_spec c "+") as [->|_]; [done|].
    rewrite Hp. simpl. by rewrite bool_decide_true.
  - change (pretty (Z.neg p)) with (String "-" (pretty (N.pos p))). unfold strconv_ParseInt. simpl.
    rewrite parse_uint_pretty. simpl. by rewrite bool_decide_true.
Qed.

Lemma Atoi_Itoa z : (- 2 ^ 63 ≤ z < 2 ^ 63)%Z → strconv_Atoi (strconv_Itoa z) = Some z.
Proof.
  intros Hz. unfold strconv_Itoa. destruct z as [|p|p]; [done| |].
  - change (pretty (Z.pos p)) with (pretty (N.pos p)). pose proof (parse_digits_pretty (N.pos p)) as Hp.
    destruct (pretty_digits (N.pos p)) as (c & s & Hc & Hd & _). rewrite Hc in Hp |- *. unfold strconv_Atoi.
    repeat case_decide; subst; try done. rewrite Hp. simpl. by rewrite bool_decide_true.
  - change (pretty (Z.neg p)) with (String "-" (pretty (N.pos p))). unfold strconv_Atoi. simpl.
    rewrite parse_digits_pretty. destruct (pretty_digits (N.pos p)) as (c & s & -> & _). simpl. by rewrite bool_decide_true.
Qed.
