(* ===== verification/Commands.v ===== *)
(** * The commands ([internal/commands/exec/command.go],
    [internal/commands/server/command.go])

    A command parses its flags, reads the environment and a few files, and
    hands a configuration to [RunExec] or [RunServer].  Here the configuration
    is the result; an error stands for the exit status 1.  The defaults of
    Consul's API client, which come from the environment as well, the set-up of
    TLS and Kubernetes are parameters.

    The gateway's command is started by the pods that [Builder] describes:
    [deployed_arguments_understood] shows that it gets out of its arguments what
    the builder put into them. *)

From S2P Require Import Prelude Errors JsonSyntax K8s Builder ApiServer Deployer CertManager Bootstrap Intentions Registration Connection Exec Flags.

(** ** The command of a gateway *)

Definition defaultBearerTokenFile : string := "/var/run/secrets/kubernetes.io/serviceaccount/token".

(** [init] of the exec command. *)
Definition exec_flags : FlagSet := list_to_map [
  ("consul-http-address", FString "");
  ("consul-http-port", FInt 8500);
  ("consul-xds-port", FInt 8502);
  ("consul-ca-cert-file", FString "");
  ("consul-primary-datacenter", FString "");
  ("envoy-bootstrap-path", FString "");
  ("envoy-sds-address", FString "");
  ("envoy-sds-port", FInt 9090);
  ("gateway-id", FString "");
  ("gateway-host", FString "");
  ("gateway-name", FString "");
  ("gateway-namespace", FString "");
  ("acl-auth-method", FString "");
  ("acl-auth-method-namespace", FString "default");
  ("acl-bearer-token-file", FString defaultBearerTokenFile);
  ("log-level", FString "info");
  ("log-json", FBool false)].

(** The variables the flags are bound to. *)
Definition flagConsulHTTPAddress (f : FlagSet) : string := string_flag f "consul-http-address".
Definition flagConsulHTTPPort (f : FlagSet) : Z := int_flag f "consul-http-port".
Definition flagConsulXDSPort (f : FlagSet) : Z := int_flag f "consul-xds-port".
Definition flagConsulCACertFile (f : FlagSet) : string := string_flag f "consul-ca-cert-file".
Definition flagConsulPrimaryDatacenter (f : FlagSet) : string := string_flag f "consul-primary-datacenter".
Definition flagBootstrapPath (f : FlagSet) : string := string_flag f "envoy-bootstrap-path".
Definition flagSDSServerAddress (f : FlagSet) : string := string_flag f "envoy-sds-address".
Definition flagSDSServerPort (f : FlagSet) : Z := int_flag f "envoy-sds-port".
Definition flagGatewayID (f : FlagSet) : string := string_flag f "gateway-id".
Definition flagGatewayHost (f : FlagSet) : string := string_flag f "gateway-host".
Definition flagGatewayName (f : FlagSet) : string := string_flag f "gateway-name".
Definition flagGatewayNamespace (f : FlagSet) : string := string_flag f "gateway-namespace".
Definition flagACLAuthMethod (f : FlagSet) : string := string_flag f "acl-auth-method".
Definition flagAuthMethodNamespace (f : FlagSet) : string := string_flag f "acl-auth-method-namespace".
Definition flagBearerTokenFile (f : FlagSet) : string := string_flag f "acl-bearer-token-file".
Definition flagLogLevel (f : FlagSet) : string := string_flag f "log-level".
Definition flagLogJSON (f : FlagSet) : bool := bool_flag f "log-json".

Definition validateFlags (uuid : string) (f : FlagSet) : result FlagSet :=
  if bool_decide (flagConsulHTTPAddress f = "") then Err (ErrString "-consul-http-address must be set")
  else if bool_decide (flagGatewayHost f = "") then Err (ErrString "-gateway-host must be set")
  else if bool_decide (flagGatewayName f = "") then Err (ErrString "-gateway-name must be set")
  else if bool_decide (flagBootstrapPath f = "") then Err (ErrString "-envoy-bootstrap-path must be set")
  else if bool_decide (flagSDSServerAddress f = "") then Err (ErrString "-envoy-sds-address must be set")
  else if bool_decide (flagGatewayID f = "") then Ok (<["gateway-id" := FString uuid]> f)
  else Ok f.

(** [init] of the package: an unreadable CA file is not used, but TLS is. *)
Definition exec_environment (ReadFile : string → result string) (pem_Decode : string → bool)
    (env : string → string) : string → string :=
  let caFile := env HTTPCAFile in
  if bool_decide (caFile ≠ "") then
    let usable := match ReadFile caFile with Ok cert => pem_Decode cert | Err _ => false end in
    λ name, if bool_decide (name = HTTPCAFile) then (if usable then caFile else "")
            else if bool_decide (name = HTTPSSLEnvName) then "true"
            else env name
  else env.

Definition ac_set_CAFile (x : string) (c : api_Config) : api_Config :=
  mkApiConfig (ac_Address c) (ac_Scheme c) (ac_Token c) (ac_TokenFile c) (ac_Namespace c) x (ac_TLSAddress c).
Definition ac_set_Scheme (x : string) (c : api_Config) : api_Config :=
  mkApiConfig (ac_Address c) x (ac_Token c) (ac_TokenFile c) (ac_Namespace c) (ac_CAFile c) (ac_TLSAddress c).

Section exec_command.
Context {EN : Environment} {W : Type} {API : ConsulAPI W}.
(** [api.DefaultConfig()], the TLS configuration of a client (by its server
    name), and the files. *)
Context (api_DefaultConfig : api_Config) (tls_ServerName : api_Config → option string)
        (ReadFile : string → result string) (w : W).

Definition getPartition : string := Getenv "CONSUL_PARTITION".

(** The configuration of the client. *)
Definition exec_client_config (f : FlagSet) (cfg : api_Config) (bearerToken : string) : ClientConfig :=
  mkClientConfig (flagGatewayName f) (flagGatewayNamespace f) cfg
    (bool_decide (Getenv "CONSUL_DYNAMIC_SERVER_DISCOVERY" = "true"))
    (bool_decide (ac_Scheme cfg = "http")) (flagConsulHTTPAddress f) (flagConsulHTTPPort f)
    (flagConsulXDSPort f) (tls_ServerName cfg)
    (if bool_decide (flagACLAuthMethod f ≠ "")
     then CredentialsLogin (flagACLAuthMethod f) (flagAuthMethodNamespace f) bearerToken
     else CredentialsStatic "").

(** [Run] after the validation of the flags, up to the call of [RunExec]. *)
Definition exec_configure (isTest : bool) (f : FlagSet) : result ExecConfig :=
  let cfg := ac_set_Address (host_port (flagConsulHTTPAddress f) (flagConsulHTTPPort f)) api_DefaultConfig in
  let cfg := if bool_decide (flagConsulCACertFile f ≠ "") then ac_set_CAFile (flagConsulCACertFile f) cfg else cfg in
  let cfg := if bool_decide (ac_CAFile cfg ≠ "") then ac_set_Scheme "https" cfg else cfg in
  let (cfg, consulClient) := api_NewClient w cfg in
  _ ← consulClient;
  bearerToken ← (if bool_decide (flagACLAuthMethod f ≠ "")
                 then data ← ReadFile (flagBearerTokenFile f); Ok (strings_TrimSpace data)
                 else Ok "");
  Ok (mkExecConfig (flagLogLevel f)
        (mkGatewayConfig (flagGatewayHost f) (flagGatewayName f) (flagGatewayNamespace f) getPartition)
        (mkEnvoyConfig (ac_CAFile cfg) (flagConsulHTTPAddress f) (flagConsulXDSPort f) (flagSDSServerAddress f)
           (flagSDSServerPort f) (flagBootstrapPath f) "" "envoy" [])
        (exec_client_config f cfg bearerToken) (flagConsulPrimaryDatacenter f) isTest).

Definition exec_Run (uuid : string) (isTest : bool) (args : list string) : result ExecConfig :=
  f ← flag_Parse exec_flags args; f ← validateFlags uuid f; exec_configure isTest f.

(** The identifier of the gateway, given or generated, is not used. *)
Lemma gateway_id_ignored isTest id f :
  exec_configure isTest (<["gateway-id" := FString id]> f) = exec_configure isTest f.
Proof.
  assert (∀ name, name ≠ "gateway-id" → <["gateway-id" := FString id]> f !! name = f !! name) as Hl
    by (intros; by apply lookup_insert_ne).
  unfold exec_configure, exec_client_config, flagGatewayHost, flagGatewayName, flagGatewayNamespace,
    flagConsulHTTPAddress, flagConsulHTTPPort, flagConsulXDSPort, flagACLAuthMethod, flagConsulPrimaryDatacenter,
    flagBootstrapPath, flagSDSServerAddress, flagSDSServerPort, flagLogLevel, flagConsulCACertFile,
    flagAuthMethodNamespace, flagBearerTokenFile, string_flag, int_flag.
  by rewrite !Hl.
Qed.

End exec_command.

(** ** Deployed arguments *)

Section deployed.
(** Kubernetes replaces references to variables in the arguments of a
    container; a text without dollar signs has none. *)
Context (expand : string → string) (expand_plain : ∀ s, strings_Split "$" s = [s] → expand s = s).

(** The number a port argument stands for. *)
Definition port_or (port default : Z) : Z := if decide (port = 0%Z) then default else port.

(** The command knows what the builder told it. *)
Record understood (b : GatewayDeploymentBuilder) (cfg : GatewayClassConfig) (f : FlagSet) : Prop := {
  un_host : flagGatewayHost f = expand "$(IP)";
  un_name : flagGatewayName f = expand (om_Name (gw_Meta (db_gateway b)));
  un_namespace : flagGatewayNamespace f
    = (if decide (db_consulGatewayNamespace b = "") then "" else expand (db_consulGatewayNamespace b));
  un_address : flagConsulHTTPAddress f
    = expand (orDefault (cs_Address (gcc_ConsulSpec (gcc_Spec cfg))) defaultConsulAddress);
  un_http : flagConsulHTTPPort f = port_or (ps_HTTP (cs_PortSpec (gcc_ConsulSpec (gcc_Spec cfg)))) 8500;
  un_xds : flagConsulXDSPort f = port_or (ps_GRPC (cs_PortSpec (gcc_ConsulSpec (gcc_Spec cfg)))) 8502;
  un_method : flagACLAuthMethod f
    = (let method := as_Method (cs_AuthSpec (gcc_ConsulSpec (gcc_Spec cfg))) in
       if decide (method = "") then "" else expand method);
  un_datacenter : flagConsulPrimaryDatacenter f
    = (if decide (db_consulPrimaryDatacenter b = "") then "" else expand (db_consulPrimaryDatacenter b));
  un_bootstrap : flagBootstrapPath f = "/bootstrap/envoy.json";
  un_sds_host : flagSDSServerAddress f = expand (db_sdsHost b);
  un_sds_port : flagSDSServerPort f = db_sdsPort b;
  un_log_level : flagLogLevel f = expand (orDefault (gcc_LogLevel (gcc_Spec cfg)) defaultLogLevel);
  un_log_json : flagLogJSON f = true;
  un_others : flagConsulCACertFile f = "" ∧ flagGatewayID f = "" ∧ flagAuthMethodNamespace f = "default" ∧
    flagBearerTokenFile f = defaultBearerTokenFile
}.

Definition int_port (z : Z) : Prop := (- 2 ^ 63 ≤ z < 2 ^ 63)%Z.

Lemma Itoa_no_dollar z : strings_Split "$" (strconv_Itoa z) = [strconv_Itoa z].
Proof. apply strconv_Itoa_token; [|done]. intros n. unfold pretty_N_char. by repeat case_match. Qed.

Lemma expand_port z d : int_port z → d = "8500" ∨ d = "8502" →
  strconv_ParseInt (expand (orDefaultIntString z d))
  = Some (port_or z (if decide (d = "8500") then 8500 else 8502)).
Proof using expand_plain.
  intros Hz Hd. unfold orDefaultIntString, port_or. case_decide.
  - destruct Hd as [-> | ->]; by rewrite expand_plain.
  - rewrite expand_plain; [by apply ParseInt_Itoa|apply Itoa_no_dollar].
Qed.

(** An optional flag of the template. *)
Lemma Parse_optional f flag name v rest :
  expand flag = flag → classify flag = AFlag name None → f !! name = Some (FString "") →
  flag_Parse f ((expand <$> optional_flag v flag) ++ rest)
  = flag_Parse (if decide (v = "") then f else <[name := FString (expand v)]> f) rest.
Proof.
  intros Hexp Hc Hf. unfold optional_flag. case_decide; [done|]. cbn [fmap list_fmap app]. rewrite Hexp.
  by apply (Parse_value _ _ _ (FString "")).
Qed.

Lemma lookup_optional (f : FlagSet) (P : Prop) `{Decision P} name name' v :
  name' ≠ name → (if decide P then f else <[name := v]> f) !! name' = f !! name'.
Proof. intros Hne. case_decide; [done|]. by rewrite lookup_insert_ne. Qed.

#[local] Ltac lookup_flag :=
  repeat first [rewrite lookup_insert_eq | rewrite lookup_insert_ne by done | rewrite lookup_optional by done].
(** Reads a flag with its value, or an optional one. *)
#[local] Ltac parse_string := erewrite Parse_value; [|reflexivity|lookup_flag; reflexivity|done|reflexivity].
#[local] Ltac parse_int tac :=
  erewrite Parse_value; [|reflexivity|lookup_flag; reflexivity|done|cbn [flag_Set snd]; tac; reflexivity].
#[local] Ltac parse_optional := erewrite Parse_optional; [|by apply expand_plain|reflexivity|by lookup_flag].

Lemma wanted_args_understood (b : GatewayDeploymentBuilder) (cfg : GatewayClassConfig) :
  let ports := cs_PortSpec (gcc_ConsulSpec (gcc_Spec cfg)) in
  int_port (ps_HTTP ports) → int_port (ps_GRPC ports) → int_port (db_sdsPort b) →
  ∃ f, flag_Parse exec_flags (expand <$> wanted_args (command_data b cfg)) = Ok f ∧ understood b cfg f.
Proof using expand_plain.
  intros ports Hhttp Hgrpc Hsds.
  assert (strconv_ParseInt (expand (cd_ConsulHTTPPort (command_data b cfg))) = Some (port_or (ps_HTTP ports) 8500))
    as Hp1 by (apply (expand_port _ "8500"); auto).
  assert (strconv_ParseInt (expand (cd_ConsulGRPCPort (command_data b cfg))) = Some (port_or (ps_GRPC ports) 8502))
    as Hp2 by (apply (expand_port _ "8502"); auto).
  unfold wanted_args. rewrite !fmap_app. cbn [fmap list_fmap app].
  rewrite !(expand_plain (String "-" _)) by reflexivity.
  rewrite (expand_plain (strconv_Itoa _)) by apply Itoa_no_dollar.
  erewrite Parse_switch; [|reflexivity|reflexivity].
  do 3 parse_string. parse_optional. parse_string.
  parse_int ltac:(rewrite Hp1).
  parse_int ltac:(rewrite Hp2).
  do 2 parse_optional. rewrite (expand_plain "/bootstrap/envoy.json") by reflexivity. do 2 parse_string.
  parse_int ltac:(rewrite ParseInt_Itoa by done).
  eexists. split; [reflexivity|].
  split; unfold flagGatewayHost, flagGatewayName, flagGatewayNamespace, flagConsulHTTPAddress, flagConsulHTTPPort,
    flagConsulXDSPort, flagACLAuthMethod, flagConsulPrimaryDatacenter, flagBootstrapPath, flagSDSServerAddress,
    flagSDSServerPort, flagLogLevel, flagLogJSON, flagConsulCACertFile, flagGatewayID, flagAuthMethodNamespace,
    flagBearerTokenFile, string_flag, int_flag, bool_flag; lookup_flag; try reflexivity.
  4:{ split_and!; lookup_flag; reflexivity. }
  all: cbn [command_data cd_GatewayNamespace cd_ACLAuthMethod cd_PrimaryDatacenter].
  all: destruct (decide (_ = "")); lookup_flag; reflexivity.
Qed.

(** C20: a gateway's process understands its pod.  The arguments the deployment
    passes to the container, rendered through a text template and split at line
    breaks, are parsed by the command without an error: every setting of the
    class configuration and of the controller reaches the flag it is meant for,
    with its default when it is not set, and the command accepts them when the
    expanded addresses and the name are not empty. *)
Theorem deployed_arguments_understood (b : GatewayDeploymentBuilder) (cfg : GatewayClassConfig) (uuid : string) :
  let consul := gcc_ConsulSpec (gcc_Spec cfg) in
  Forall single_line
    [cs_Address consul; as_Method (cs_AuthSpec consul); gcc_LogLevel (gcc_Spec cfg);
     om_Name (gw_Meta (db_gateway b)); db_consulGatewayNamespace b; db_consulPrimaryDatacenter b; db_sdsHost b] →
  int_port (ps_HTTP (cs_PortSpec consul)) → int_port (ps_GRPC (cs_PortSpec consul)) → int_port (db_sdsPort b) →
  ∃ f, flag_Parse exec_flags (expand <$> execArgs b cfg) = Ok f ∧ understood b cfg f ∧
    (Forall (λ s, expand s ≠ "")
       ["$(IP)"; om_Name (gw_Meta (db_gateway b)); orDefault (cs_Address consul) defaultConsulAddress; db_sdsHost b] →
     validateFlags uuid f = Ok (<["gateway-id" := FString uuid]> f)).
Proof using expand_plain.
  intros consul Hlines Hhttp Hgrpc Hsds. rewrite exec_args_exact by done.
  destruct (wanted_args_understood b cfg Hhttp Hgrpc Hsds) as (f & Hparse & Hun). exists f. split; [done|]. split; [done|].
  rewrite !Forall_cons. intros (Hip & Hname & Haddr & Hsdshost & _). unfold validateFlags.
  rewrite (un_address _ _ _ Hun), (un_host _ _ _ Hun), (un_name _ _ _ Hun), (un_sds_host _ _ _ Hun),
    (un_bootstrap _ _ _ Hun).
  rewrite !bool_decide_false by done. destruct (un_others _ _ _ Hun) as (_ & -> & _). by rewrite bool_decide_true.
Qed.

End deployed.

(** ** The command of the controller *)

Definition consulHTTPAddressEnvName : string := "CONSUL_HTTP_ADDR".
Definition defaultGRPCPort : Z := 8502.
Definition defaultSDSServerHost : string := "consul-api-gateway-controller.default.svc.cluster.local".
Definition defaultSDSServerPort : Z := 9090.

(** [init] of the server command. *)
Definition server_flags : FlagSet := list_to_map [
  ("ca-file", FString "");
  ("ca-secret", FString "");
  ("ca-secret-namespace", FString "default");
  ("consul-address", FString "");
  ("primary-datacenter", FString "");
  ("sds-server-host", FString defaultSDSServerHost);
  ("k8s-context", FString "");
  ("k8s-namespace", FString "");
  ("sds-server-port", FInt defaultSDSServerPort);
  ("metrics-port", FInt 0);
  ("pprof-port", FInt 0);
  ("consul-destination-namespace", FString "");
  ("mirroring-k8s", FBool false);
  ("mirroring-k8s-prefix", FString "");
  ("log-level", FString "info");
  ("log-json", FBool false)].

(** [k8s.Config]; the connection to the cluster is not modelled. *)
Record k8s_Config : Type := mkK8sConfig {
  kc_CACert : string;
  kc_PrimaryDatacenter : string;
  kc_SDSServerHost : string;
  kc_SDSServerPort : Z;
  kc_MetricsBindAddr : string;
  kc_HealthProbeBindAddr : string;
  kc_WebhookPort : Z;
  kc_Namespace : string;
  kc_ConsulNamespaceConfig : ConsulNamespaceConfig
}.

Definition k8s_Defaults : k8s_Config :=
  mkK8sConfig "" "" "consul-api-gateway-controller.default.svc.cluster.local" 9090 ":8080" ":8081" 8443 ""
    (mkConsulNamespaceConfig "" false "" (mkPartitionInfo false "")).

Record ServerConfig : Type := mkServerConfig {
  sc_ConsulClientConfig : ClientConfig;
  sc_K8sConfig : k8s_Config;
  sc_ProfilingPort : Z;
  sc_MetricsPort : Z;
  sc_PrimaryDatacenter : string;
  sc_isTest : bool
}.

(** What is before and after the last separator. *)
Definition cut_last (sep : ascii) (s : string) : option (string * string) :=
  match reverse (strings_Split sep s) with
  | rest :: ((_ :: _) as before) => Some (strings_Join (reverse before) (String sep ""), rest)
  | _ => None
  end.

Section server_command.
Context {EN : Environment} (api_DefaultConfig : api_Config) (ReadFile : string → result string).

(** The scheme, the address or command, and the port.  Without a colon the
    index of the last one is -1, and slicing with it panics. *)
Definition parseConsulHTTPAddress : option (result (string * string * Z)) :=
  let address := Getenv consulHTTPAddressEnvName in
  let scheme :=
    if bool_decide (Getenv HTTPSSLEnvName = "true") || strings_HasPrefix address "https://"
    then "https" else "http" in
  let address := strings_TrimPrefix (strings_TrimPrefix address "http://") "https://" in
  '(cmd, portString) ← cut_last ":" address;
  Some (match strconv_Atoi portString with
        | Some port => Ok (scheme, cmd, port)
        | None => Err (ErrString ("strconv.Atoi: parsing " +:+ strconv_Quote portString +:+ ": invalid syntax"))
        end).

Definition grpcPort : Z := default defaultGRPCPort (strconv_Atoi (Getenv "CONSUL_GRPC_PORT")).

(** The token: a configured one has precedence over the file. *)
Definition server_token (cfg : api_Config) : result string :=
  token ← (if bool_decide (ac_TokenFile cfg ≠ "")
           then data ← ReadFile (ac_TokenFile cfg); Ok (strings_TrimSpace data) else Ok "");
  Ok (if bool_decide (ac_Token cfg ≠ "") then ac_Token cfg else token).

(** The configuration of the controller.  [caSecret] is the result of making a
    temporary file and writing the secret with the CA there. *)
Definition server_k8s_config (f : FlagSet) (caCert : string) : k8s_Config :=
  mkK8sConfig caCert (string_flag f "primary-datacenter") (string_flag f "sds-server-host")
    (int_flag f "sds-server-port") (kc_MetricsBindAddr k8s_Defaults) (kc_HealthProbeBindAddr k8s_Defaults)
    (kc_WebhookPort k8s_Defaults) (string_flag f "k8s-namespace")
    (mkConsulNamespaceConfig (string_flag f "consul-destination-namespace") (bool_flag f "mirroring-k8s")
       (string_flag f "mirroring-k8s-prefix") (NewPartitionInfo (Getenv "CONSUL_PARTITION"))).

(** [Run], up to the call of [RunServer]; [restConfig] is whether there is a
    configuration for Kubernetes, [tls] what [api.SetupTLSConfig] makes of the
    configuration.  [None] is a panic. *)
Definition server_Run (restConfig : string → result unit) (caSecret : string → string → result string)
    (tls : api_Config → result (option string)) (isTest : bool) (args : list string) :
    option (result ServerConfig) :=
  match flag_Parse server_flags args with
  | Err err => Some (Err err)
  | Ok f =>
  match restConfig (string_flag f "k8s-context") with
  | Err err => Some (Err err)
  | Ok _ =>
  let cfg := if bool_decide (string_flag f "ca-file" ≠ "")
             then ac_set_CAFile (string_flag f "ca-file") api_DefaultConfig else api_DefaultConfig in
  match (if bool_decide (string_flag f "ca-secret" ≠ "")
         then file ← caSecret (string_flag f "ca-secret") (string_flag f "ca-secret-namespace");
              Ok (ac_set_CAFile file cfg) else Ok cfg) with
  | Err err => Some (Err err)
  | Ok cfg =>
  match (if bool_decide (ac_CAFile cfg ≠ "")
         then consulCA ← ReadFile (ac_CAFile cfg); Ok (ac_set_Scheme "https" cfg, consulCA)
         else Ok (cfg, "")) with
  | Err err => Some (Err err)
  | Ok (cfg, caCert) =>
  let cfg := if bool_decide (string_flag f "consul-address" ≠ "")
             then ac_set_Address (string_flag f "consul-address") cfg else cfg in
  parsed ← parseConsulHTTPAddress;
  Some ('(consulScheme, addressOrCommand, port) ← parsed;
        let cfg := if bool_decide (ac_Scheme cfg ≠ "https") then ac_set_Scheme consulScheme cfg else cfg in
        tlsCfg ← tls cfg;
        token ← server_token cfg;
        Ok (mkServerConfig
              (mkClientConfig "api-gateway-controller" "" cfg
                 (bool_decide (Getenv "CONSUL_DYNAMIC_SERVER_DISCOVERY" = "true"))
                 (bool_decide (ac_Scheme cfg = "http")) addressOrCommand port grpcPort tlsCfg
                 (CredentialsStatic token))
              (server_k8s_config f caCert) (int_flag f "pprof-port") (int_flag f "metrics-port")
              (string_flag f "primary-datacenter") isTest))
  end end end end.

End server_command.

(** ** Properties of the controller's command *)

Lemma cut_last_snoc sep s t :
  strings_Split sep t = [t] → cut_last sep (s +:+ String sep t) = Some (s, t).
Proof.
  intros Ht. unfold cut_last. rewrite strings_Split_snoc, Ht, reverse_app. change (reverse [t]) with [t]. cbn [app].
  destruct (reverse (strings_Split sep s)) as [|x xs] eqn:Hr.
  { apply (f_equal reverse) in Hr. rewrite reverse_involutive in Hr. by destruct (strings_Split_ne sep s). }
  by rewrite <-Hr, reverse_involutive, strings_Join_Split.
Qed.

Lemma cut_last_none sep s : strings_Split sep s = [s] → cut_last sep s = None.
Proof. intros Hs. unfold cut_last. by rewrite Hs. Qed.

Lemma HasPrefix_cancel p s q : strings_HasPrefix (p +:+ s) (p +:+ q) = strings_HasPrefix s q.
Proof.
  induction p as [|c p IH]; [done|].
  change (String c p +:+ s) with (String c (p +:+ s)). change (String c p +:+ q) with (String c (p +:+ q)).
  by rewrite strings_HasPrefix_cons.
Qed.

Lemma HasPrefix_append p s : strings_HasPrefix (p +:+ s) p = true.
Proof. rewrite <-(append_nil_r p) at 2. by rewrite HasPrefix_cancel, strings_HasPrefix_nil. Qed.

Lemma TrimPrefix_append p s : strings_TrimPrefix (p +:+ s) p = s.
Proof. unfold strings_TrimPrefix. rewrite HasPrefix_append. by induction p. Qed.

Lemma HasPrefix_shorter s p q : strings_HasPrefix s p = false → strings_HasPrefix s (p +:+ q) = false.
Proof.
  revert s. induction p as [|c p IH]; intros s; [by rewrite strings_HasPrefix_nil|].
  change (String c p +:+ q) with (String c (p +:+ q)). destruct s as [|c' s]; [done|].
  destruct (decide (c = c')) as [->|Hne]; [rewrite !strings_HasPrefix_cons; apply IH|].
  unfold strings_HasPrefix. simpl. by destruct (ascii_dec c c').
Qed.

Section server_properties.
Context {EN : Environment}.

(** The schemes an address may carry. *)
Definition address_prefix (https : bool) : string := if https then "https://" else "http://".

(** C39: the address of Consul is read back.  [CONSUL_HTTP_ADDR], with a scheme
    in front, is split into the address (or the discovery command), which may
    contain colons itself, and the port; without any colon the command
    panics instead of reporting an error. *)
Theorem consul_address_parsed (https : bool) (host : string) (port : Z) :
  (Getenv consulHTTPAddressEnvName = address_prefix https +:+ host +:+ String ":" (strconv_Itoa port) →
   int_port port → strings_HasPrefix (host +:+ String ":" (strconv_Itoa port)) "https://" = false →
   parseConsulHTTPAddress
   = Some (Ok (if bool_decide (Getenv HTTPSSLEnvName = "true") || https then "https" else "http", host, port))) ∧
  (Getenv consulHTTPAddressEnvName = host → strings_HasPrefix host "http" = false →
   strings_Split ":" host = [host] → parseConsulHTTPAddress = None).
Proof.
  split.
  - intros Henv Hport Hnot. unfold parseConsulHTTPAddress. rewrite Henv. set (rest := host +:+ String ":" _) in *.
    assert (strings_Split ":" (strconv_Itoa port) = [strconv_Itoa port]) as Hsplit.
    { apply strconv_Itoa_token; [|done]. intros n. unfold pretty_N_char. by repeat case_match. }
    assert (strings_TrimPrefix (strings_TrimPrefix (address_prefix https +:+ rest) "http://") "https://" = rest
      ∧ strings_HasPrefix (address_prefix https +:+ rest) "https://" = https) as [-> ->].
    { destruct https; unfold address_prefix.
      - split; [|apply HasPrefix_append].
        assert (strings_HasPrefix ("https://" +:+ rest) "http://" = false) as Hno
          by exact (HasPrefix_cancel "http" ("s://" +:+ rest) "://").
        unfold strings_TrimPrefix at 2. rewrite Hno. apply TrimPrefix_append.
      - rewrite TrimPrefix_append. split; [unfold strings_TrimPrefix; by rewrite Hnot|].
        exact (HasPrefix_cancel "http" ("://" +:+ rest) "s://"). }
    unfold rest. rewrite cut_last_snoc by done. cbn [mbind option_bind]. by rewrite Atoi_Itoa.
  - intros Henv Hpre Hsplit. unfold parseConsulHTTPAddress. rewrite Henv.
    unfold strings_TrimPrefix.
    pose proof (HasPrefix_shorter host "http" "://" Hpre) as H1. pose proof (HasPrefix_shorter host "http" "s://" Hpre) as H2.
    change ("http" +:+ "://") with "http://" in H1. change ("http" +:+ "s://") with "https://" in H2. rewrite H1, H2.
    by rewrite cut_last_none.
Qed.

End server_properties.

(** ** The flag for Consul's address *)

(** The address in the configuration of the API client, which the flag
    [consul-address] sets, is never used: the connection goes to the address
    that was read from the environment. *)
Lemma api_address_ignored {RB : RetryBackoff} {W : Type} {API : ConsulAPI W} (config : ClientConfig) address (w : W) :
  watch_static (NewClient (cc_set_api (ac_set_Address address (cc_ApiClientConfig config)) config)) w
  = watch_static (NewClient config) w.
Proof. by destruct config as [? ? [] ? ? ? ? ? ? []]. Qed.

(** ** Examples *)

Module CommandExamples.

(** The variables of the pod. *)
Definition expand (s : string) : string :=
  if bool_decide (s = "$(IP)") then "10.0.0.9"
  else if bool_decide (s = "$(HOST_IP)") then "10.0.0.1" else s.

Lemma expand_plain s : strings_Split "$" s = [s] → expand s = s.
Proof. intros Hs. unfold expand. case_bool_decide; [by subst|]. case_bool_decide; by subst. Qed.

Definition environment : Environment :=
  {| Getenv name := if bool_decide (name = "CONSUL_HTTP_ADDR") then "https://[::1]:8501" else "" |}.
Definition bare_environment : Environment :=
  {| Getenv name := if bool_decide (name = "CONSUL_HTTP_ADDR") then "consul.local" else "" |}.

End CommandExamples.

Lemma deployed_arguments_understood_witness :
  ∃ f, flag_Parse exec_flags (CommandExamples.expand <$> execArgs BuilderExamples.builder BuilderExamples.config) = Ok f ∧
    flagGatewayHost f = "10.0.0.9" ∧ flagConsulHTTPAddress f = "10.0.0.1" ∧ flagSDSServerPort f = 9090%Z ∧
    is_Ok (validateFlags "id" f) = true.
Proof.
  destruct (deployed_arguments_understood CommandExamples.expand CommandExamples.expand_plain
    BuilderExamples.builder BuilderExamples.config "id") as (f & Hparse & Hun & Hvalid).
  - repeat constructor.
  - done.
  - done.
  - done.
  - exists f. split; [exact Hparse|]. split; [exact (un_host _ _ _ _ Hun)|].
    split; [exact (un_address _ _ _ _ Hun)|]. split; [exact (un_sds_port _ _ _ _ Hun)|].
    rewrite Hvalid; [done|]. repeat constructor; done.
Defined.

Lemma consul_address_parsed_witness :
  @parseConsulHTTPAddress CommandExamples.environment = Some (Ok ("https", "[::1]", 8501%Z)) ∧
  @parseConsulHTTPAddress CommandExamples.bare_environment = None.
Proof.
  split.
  - apply (@consul_address_parsed CommandExamples.environment true "[::1]" 8501); done.
  - apply (@consul_address_parsed CommandExamples.bare_environment true "consul.local" 8501); done.
Defined.
