(* ===== verification/SdsServer.v ===== *)
(** * The SDS server ([internal/envoy/sds.go])

    [SDSServer] serves certificates to the Envoy of every gateway: it accepts
    TLS connections with the controller's own certificate, asks every client
    for one issued by Consul's CA, and runs the middleware and the request
    handler ([Sds]) and the secret manager ([Secrets]) on them.  [sds_step] has
    a rule for every callback of go-control-plane and for the refresh loop.
    gRPC, TLS and go-control-plane are outside; what is relied on of
    go-control-plane: a stream gets a fresh number, only open streams send
    requests, and a stream keeps the node it named first. *)

From S2P Require Import Prelude Errors Core K8s Status State Objects Builder K8sSecret Secrets Sds CertManager.

(** ** The server *)

Definition defaultGRPCBindAddress : string := ":9090".
(** Thirty minutes, in seconds. *)
Definition defaultCertificateForcePullInterval : Z := 1800.
Definition defaultShutdownTimeout : Z := 10.

(** How [Shutdown] ends the server, and after how many seconds it returns, when
    the calls in progress would take [graceful] seconds to end ([None]: they
    never do, as streams that Envoy keeps open). *)
Inductive shutdown : Type := NotServing | GracefulStop | ForcedStop.

Definition Shutdown (serving : bool) (graceful : option Z) : shutdown * Z :=
  if negb serving then (NotServing, 0%Z)
  else match graceful with
       | Some t => if (t <? defaultShutdownTimeout)%Z then (GracefulStop, t)
                   else (ForcedStop, defaultShutdownTimeout)
       | None => (ForcedStop, defaultShutdownTimeout)
       end.

(** It returns within the timeout, whatever the calls do. *)
Lemma Shutdown_returns serving graceful :
  ((Shutdown serving graceful).2 ≤ defaultShutdownTimeout)%Z.
Proof.
  unfold Shutdown. destruct serving; [|done]. cbn. destruct graceful as [t|]; [|done].
  destruct (t <? defaultShutdownTimeout)%Z eqn:Ht; [|done]. cbn. apply Z.ltb_lt in Ht. lia.
Qed.

Record SDSServer : Type := mkSDSServer {
  sds_bindAddress : string;
  sds_protocol : string;
  sds_certificateForcePullInterval : Z
}.

Definition NewSDSServer : SDSServer :=
  mkSDSServer defaultGRPCBindAddress "tcp" defaultCertificateForcePullInterval.

Definition WithAddress (address : string) (port : Z) (s : SDSServer) : SDSServer :=
  mkSDSServer (address +:+ ":" +:+ strconv_Itoa port) (sds_protocol s) (sds_certificateForcePullInterval s).

(** [tls.ClientAuthType] *)
Inductive ClientAuthType : Type :=
  | NoClientCert
  | RequestClientCert
  | RequireAnyClientCert
  | VerifyClientCertIfGiven
  | RequireAndVerifyClientCert.

Section tls.
Context {TP : TLSParsing}.

(** [tls.Config], the fields that are set. *)
Record tls_Config : Type := mkTLSConfig {
  tc_Certificates : list tls_Certificate;
  tc_ClientCAs : option x509_CertPool;
  tc_ClientAuth : ClientAuthType
}.

(** The configuration of one connection. *)
Definition GetConfigForClient (fetcher : CertManager) : result tls_Config :=
  match TLSCertificate fetcher with
  | None => Err (ErrString "unable to get server certificate")
  | Some certificate =>
      match RootPool fetcher with
      | None => Err (ErrString "unable to get CA pool")
      | Some pool => Ok (mkTLSConfig [certificate] (Some pool) RequireAndVerifyClientCert)
      end
  end.

End tls.

(** ** Refreshing certificates *)

(** The timeout of the refresh loop, in seconds. *)
Definition loopTimeout : Z := 30.

(** One round of the loop of [Manage]: both timers are started anew, and the
    one that expires first decides whether the refresh is forced; when both
    expire together either may. *)
Definition Manage_round (forceInterval : Z) : list bool :=
  (if bool_decide (loopTimeout <= forceInterval)%Z then [false] else []) ++
  (if bool_decide (forceInterval <= loopTimeout)%Z then [true] else []).

Section server.
Context {TP : TLSParsing} {MR : MapRange} {G C : Type} {CA : SecretCaches C}.
Context (GetGateway : GatewayID → result (option G)).
Context (gateway_CanFetchSecrets : G → list string → result bool).
Context (FetchSecret : fetcher) (server : SDSServer).

(** [Run], before anything connects. *)
Definition sds_start (cache : C) : sds_state :=
  mkSdsState (mkRequestHandler ∅ ∅ 0) NewSecretManager cache.

Definition ss_set_handler (r : RequestHandler) (st : @sds_state C) : sds_state :=
  mkSdsState r (ss_secrets st) (ss_cache st).

(** The node a stream named is the one it named before. *)
Definition same_node (st : @sds_state C) (streamID : Z) (node : string) : Prop :=
  ∀ node', rh_nodeMap (ss_handler st) !! streamID = Some node' → node' = node.

Inductive sds_step (certs : CertManager) : @sds_state C → @sds_state C → Prop :=
  | SdsStreamOpen cfg peer id streamID typeURL r err st :
      GetConfigForClient certs = Ok cfg → verifySPIFFE GetGateway peer = Some id →
      rh_streamContexts (ss_handler st) !! streamID = None →
      StreamOpenFunc (ss_handler st) id streamID typeURL = (r, err) →
      sds_step certs st (ss_set_handler r st)
  | SdsStreamRequest streamID resources node st st' err :
      is_Some (rh_streamContexts (ss_handler st) !! streamID) → same_node st streamID node →
      OnStreamRequest GetGateway gateway_CanFetchSecrets FetchSecret st streamID resources node
        = Some (st', err) →
      sds_step certs st st'
  | SdsStreamClosed streamID st :
      is_Some (rh_streamContexts (ss_handler st) !! streamID) →
      sds_step certs st (OnStreamClosed st streamID)
  | SdsManage force now s cache st :
      force ∈ Manage_round (sds_certificateForcePullInterval server) →
      manage FetchSecret force now (ss_secrets st) (ss_cache st) = (s, cache) →
      sds_step certs st (mkSdsState (ss_handler st) s cache).

End server.

(** ** What the secret manager keeps *)

(** Whatever fails: a reference to a certificate is a watch of its node, and
    nothing without references is registered. *)
Record refs_watched (s : secretManager) : Prop := {
  rw_refs : ∀ name node, holds s name node → watches s node name;
  rw_kept : ∀ name c, sm_registry s !! name = Some c → wc_refs c ≠ ∅
}.

Lemma new_refs_watched : refs_watched NewSecretManager.
Proof. split; [|done]. intros name node. unfold holds. simpl. rewrite lookup_empty. by intros []. Qed.

Lemma registry_kept s name c :
  wc_refs c ≠ ∅ → (∀ n c', sm_registry s !! n = Some c' → wc_refs c' ≠ ∅) →
  ∀ n c', sm_registry (set_registry s name c) !! n = Some c' → wc_refs c' ≠ ∅.
Proof. intros Hc Hall n c'. simpl. intros [[_ <-]|[_ Hn]]%lookup_insert_Some; [done|by eapply Hall]. Qed.

(** Taking a reference. *)
Lemma refs_watched_ref s node name c :
  refs_watched s → is_Some (sm_watchers s !! node) →
  (∀ nd, is_Some (wc_refs c !! nd) ↔ holds s name nd ∨ nd = node) →
  refs_watched (set_registry (watcher_add s node name) name c).
Proof.
  intros [Hrefs Hkept] Hw Hc. split.
  - intros n nd. rewrite holds_set.
    change (watches (set_registry (watcher_add s node name) name c) nd n) with (watches (watcher_add s node name) nd n).
    rewrite watches_add by done. rewrite Hc.
    change (holds (watcher_add s node name) n nd) with (holds s n nd).
    intros [[-> [Hh| ->]]|[_ Hh]]; [left; by apply Hrefs|by right|left; by apply Hrefs].
  - apply registry_kept; [|exact Hkept]. intros He. destruct (proj2 (Hc node) ltac:(by right)) as [u Hu].
    by rewrite He, lookup_empty in Hu.
Qed.

Lemma watch_loop_kept F names node s certs s' r :
  names_answers F → refs_watched s → is_Some (sm_watchers s !! node) → watch_loop F s names node certs = (s', r) →
  refs_watched s' ∧ dom (sm_watchers s') = dom (sm_watchers s) ∧ dom (sm_registry s) ⊆ dom (sm_registry s') ∧
  ∀ all, r = Ok all → ∃ new, all = certs ++ new ∧ list_to_set (tlss_Name <$> new) ⊆ dom (sm_registry s').
Proof.
  intros HF. revert s certs. induction names as [|name names IH]; intros s certs Hs Hw; simpl.
  { intros [= <- <-]. split_and!; try done. intros all [= <-]. exists []. by rewrite app_nil_r. }
  assert (∀ c, is_Some (sm_watchers (set_registry (watcher_add s node name) name c) !! node)) as Hw'.
  { intros c. simpl. rewrite lookup_alter_eq. destruct Hw as [w ->]. by eexists. }
  assert (∀ c, dom (sm_watchers (set_registry (watcher_add s node name) name c)) = dom (sm_watchers s)) as Hdw
    by (intros c; simpl; by rewrite dom_alter_L).
  destruct (sm_registry s !! name) as [entry|] eqn:Hreg.
  - intros Hloop. apply IH in Hloop as (H1 & H2 & H3 & H4); [|clear Hloop|apply Hw'].
    2:{ apply refs_watched_ref; [done|done|]. intros nd. simpl. unfold holds. rewrite Hreg. simpl.
      destruct (decide (nd = node)) as [->|Hne]; [rewrite lookup_insert_eq; split; by eauto|].
      rewrite lookup_insert_ne by done. naive_solver. }
    rewrite Hdw in H2. split_and!; try done. simpl in H3. rewrite dom_insert_L in H3. set_solver.
  - destruct (F name) as [[cert expires]|e] eqn:Hf.
    + intros Hloop. apply IH in Hloop as (H1 & H2 & H3 & H4); [|clear Hloop|apply Hw'].
      2:{ apply refs_watched_ref; [done|done|]. intros nd. simpl. unfold holds. rewrite Hreg. simpl.
        rewrite lookup_singleton_is_Some. split; [by right|]. by intros [[]|]. }
      rewrite Hdw in H2. simpl in H3. rewrite dom_insert_L in H3. split_and!; try done; [set_solver|].
      intros all Hall. destruct (H4 all Hall) as (new & -> & Hnew). exists (cert :: new).
      rewrite <-app_assoc. split; [done|]. simpl. rewrite (HF _ _ _ Hf). set_solver.
    + intros [= <- <-]. split_and!; try done.
      * destruct Hs as [Hrefs Hkept]. split; [|exact Hkept]. intros n nd Hh.
        rewrite watches_add by done. left. by apply Hrefs.
      * simpl. by rewrite dom_alter_L.
Qed.

(** Dropping a reference. *)
Lemma release_kept s node name s' b :
  (∀ n c, sm_registry s !! n = Some c → wc_refs c ≠ ∅) → release s node name = (s', b) →
  (∀ n nd, holds s' n nd ↔ holds s n nd ∧ ¬ (nd = node ∧ n = name)) ∧
  sm_watchers s' = sm_watchers s ∧ (∀ n c, sm_registry s' !! n = Some c → wc_refs c ≠ ∅) ∧
  dom (sm_registry s') = dom (sm_registry s) ∖ (if b then {[name]} else ∅).
Proof.
  intros Hkept. unfold release. destruct (sm_registry s !! name) as [c|] eqn:Hreg.
  2:{ intros [= <- <-]. split_and!; [|done|done|by rewrite difference_empty_L]. intros n nd. split; [|by intros []].
      intros Hh. split; [done|]. intros [-> ->]. unfold holds in Hh. rewrite Hreg in Hh. by destruct Hh. }
  case_bool_decide as He; simpl in He; intros [= <- <-].
  - split_and!; [|done| |simpl; by rewrite dom_delete_L].
    + intros n nd. unfold holds. simpl. destruct (decide (n = name)) as [->|Hne].
      * rewrite lookup_delete_eq, Hreg. simpl. split; [by intros []|]. intros [[u Hu] Hno]. exfalso.
        destruct (decide (nd = node)) as [->|Hnd]; [by apply Hno|].
        assert (delete node (wc_refs c) !! nd = Some u) as Hd by by rewrite lookup_delete_ne. by rewrite He in Hd.
      * rewrite lookup_delete_ne by done. naive_solver.
    + intros n c'. simpl. intros [_ Hc]%lookup_delete_Some. by eapply Hkept.
  - split_and!; [|done|by apply registry_kept|].
    + intros n nd. rewrite holds_set. simpl. destruct (decide (n = name)) as [->|Hne]; [|naive_solver].
      unfold holds. rewrite Hreg. simpl. destruct (decide (nd = node)) as [->|Hnd].
      * rewrite lookup_delete_eq. split; [intros [[_ []]|[]]; done|]. intros [_ Hno]. by destruct Hno.
      * rewrite lookup_delete_ne by done. naive_solver.
    + simpl. rewrite dom_insert_L, difference_empty_L.
      apply subseteq_union_1_L, singleton_subseteq_l, elem_of_dom. by eexists.
Qed.

Lemma unwatch_loop_kept names node s certs s' certs' :
  refs_watched s → unwatch_loop s names node certs = (s', certs') →
  refs_watched s' ∧ dom (sm_watchers s') = dom (sm_watchers s) ∧
  ∃ gone, certs' = certs ++ gone ∧ dom (sm_registry s') = dom (sm_registry s) ∖ list_to_set gone.
Proof.
  revert s certs. induction names as [|name names IH]; intros s certs Hs; simpl.
  { intros [= <- <-]. split_and!; [done|done|]. exists []. rewrite app_nil_r. simpl. by rewrite difference_empty_L. }
  destruct (release _ _ _) as [s1 b] eqn:Hrel. destruct Hs as [Hrefs Hkept].
  apply release_kept in Hrel as (Hh & Hw & Hk & Hd); [|exact Hkept]. intros Hloop.
  apply IH in Hloop as (H1 & H2 & gone & -> & H3).
  2:{ split; [|done]. intros n nd [Hn Hno]%Hh. unfold watches. rewrite Hw.
    change (watches (watcher_delete s node name) nd n). apply watches_delete. split; [by apply Hrefs|done]. }
  split_and!; [done| |].
  - rewrite H2, Hw. simpl. by rewrite dom_alter_L.
  - exists ((if b then [name] else []) ++ gone). split; [destruct b; by rewrite <-?app_assoc|].
    rewrite H3, Hd. simpl. destruct b; simpl; set_solver.
Qed.

Lemma release_loop_kept names node s certs s' certs' :
  (∀ n c, sm_registry s !! n = Some c → wc_refs c ≠ ∅) → release_loop s names node certs = (s', certs') →
  (∀ n nd, holds s' n nd ↔ holds s n nd ∧ ¬ (nd = node ∧ n ∈ names)) ∧
  sm_watchers s' = sm_watchers s ∧ (∀ n c, sm_registry s' !! n = Some c → wc_refs c ≠ ∅) ∧
  ∃ gone, certs' = certs ++ gone ∧ dom (sm_registry s') = dom (sm_registry s) ∖ list_to_set gone.
Proof.
  revert s certs. induction names as [|name names IH]; intros s certs Hkept; simpl.
  { intros [= <- <-]. split_and!; [|done|done|].
    - intros n nd. split; [|by intros []]. intros Hh. split; [done|]. by intros [_ ?%not_elem_of_nil].
    - exists []. rewrite app_nil_r. simpl. by rewrite difference_empty_L. }
  destruct (release _ _ _) as [s1 b] eqn:Hrel. apply release_kept in Hrel as (Hh & Hw & Hk & Hd); [|exact Hkept].
  intros Hloop. destruct (IH s1 _ Hk Hloop) as (H1 & H2 & H3 & gone & -> & H4). split_and!; [|congruence|done|].
  - intros n nd. rewrite H1, Hh, elem_of_cons. naive_solver.
  - exists ((if b then [name] else []) ++ gone). split; [destruct b; by rewrite <-?app_assoc|].
    rewrite H4, Hd. destruct b; simpl; set_solver.
Qed.

(** ** Nothing is left behind *)

(** The linear cache of go-control-plane deletes without an error. *)
Class ReliableCache (C : Type) `{SecretCaches C} : Prop := {
  delete_succeeds : ∀ (c : C) name, (DeleteResource c name).2 = None
}.

Lemma update_subseteq {C} `{LC : LawfulCache C} certs (cache cache' : C) err :
  updateCertificates cache certs = (cache', err) →
  cached cache' ⊆ list_to_set (tlss_Name <$> certs) ∪ cached cache.
Proof.
  revert cache. induction certs as [|cert certs IH]; intros cache; simpl; [intros [= <- _]; set_solver|].
  destruct (updateCertificate cache cert) as [c [e|]] eqn:Hu; apply UpdateResource_law in Hu.
  - intros [= <- _]. rewrite Hu. set_solver.
  - intros Hc%IH. rewrite Hu in Hc. set_solver.
Qed.

(** The part of the invariant that concerns the secret manager. *)
Record kept {C} `{LC : LawfulCache C} (s : secretManager) (cache : C) : Prop := {
  kept_refs : refs_watched s;
  kept_cached : cached cache ⊆ dom (sm_registry s)
}.

Section kept.
Context {MR : MapRange} {C : Type} `{LC : LawfulCache C} {RC : ReliableCache C}.
Implicit Types (s : secretManager) (cache : C).

Lemma remove_succeeds names cache cache' err :
  removeCertificates cache names = (cache', err) →
  err = None ∧ cached cache' = cached cache ∖ list_to_set names.
Proof using Type RC.
  intros Hr. assert (err = None) as ->; [|split; [done|by apply removeCertificates_cached]].
  revert cache Hr. induction names as [|n names IH]; intros cache; simpl; [by intros [= _ <-]|].
  pose proof (delete_succeeds cache n) as Hd. destruct (DeleteResource cache n) as [c e]. simpl in Hd. subst e. apply IH.
Qed.

Lemma watch_keeps FetchSecret s cache names node s' cache' err :
  names_answers FetchSecret → kept s cache → watch FetchSecret s cache names node = (s', cache', err) →
  kept s' cache' ∧ dom (sm_watchers s') ⊆ {[node]} ∪ dom (sm_watchers s).
Proof using Type RC.
  intros HF [Hrefs Hcached]. unfold watch. set (s0 := match sm_watchers s !! node with Some _ => s | None => _ end).
  assert (refs_watched s0 ∧ is_Some (sm_watchers s0 !! node) ∧ sm_registry s0 = sm_registry s ∧
    dom (sm_watchers s0) ⊆ {[node]} ∪ dom (sm_watchers s)) as (H0 & Hw & Hreg & Hdom).
  { unfold s0. destruct (sm_watchers s !! node) as [w|] eqn:Hn; [split_and!; [done|by eexists|done|set_solver]|].
    destruct Hrefs as [H1 H2]. simpl. rewrite lookup_insert_eq, dom_insert_L. split_and!; [|by eexists|done|done].
    split; [|done]. intros name nd Hh%H1. unfold watches in *. simpl.
    rewrite lookup_insert_ne; [done|]. intros <-. rewrite Hn in Hh. by destruct Hh. }
  clearbody s0. destruct (watch_loop FetchSecret s0 names node []) as [s1 r] eqn:Hloop.
  apply watch_loop_kept in Hloop as (H1 & H2 & H3 & H4); [|done..]. rewrite Hreg in H3.
  destruct r as [certs|e].
  - destruct (updateCertificates cache certs) as [c e] eqn:Hup. intros [= <- <- _].
    destruct (H4 _ eq_refl) as (new & -> & Hnew). apply update_subseteq in Hup. simpl in Hup.
    split; [split; [done|set_solver]|set_solver].
  - intros [= <- <- _]. split; [split; [done|set_solver]|set_solver].
Qed.

Lemma unwatch_keeps s cache names node s' cache' err :
  kept s cache → unwatch s cache names node = (s', cache', err) →
  kept s' cache' ∧ dom (sm_watchers s') ⊆ dom (sm_watchers s).
Proof using Type RC.
  intros [Hrefs Hcached]. unfold unwatch.
  destruct (sm_watchers s !! node) as [w|]; [|by intros [= <- <- _]].
  destruct (unwatch_loop s names node []) as [s1 gone] eqn:Hloop.
  apply unwatch_loop_kept in Hloop as (H1 & H2 & gone' & -> & H3); [|done].
  destruct (removeCertificates cache _) as [c e] eqn:Hrem. intros [= <- <- _].
  apply remove_succeeds in Hrem as [_ Hrem]. simpl in Hrem.
  set (s2 := match sm_watchers s1 !! node with Some _ => _ | None => s1 end).
  assert (refs_watched s2 ∧ sm_registry s2 = sm_registry s1 ∧ dom (sm_watchers s2) ⊆ dom (sm_watchers s1)) as (K1 & K2 & K3).
  { unfold s2. destruct (sm_watchers s1 !! node) as [w1|] eqn:Hw1; [|done]. case_bool_decide as He; [|done].
    destruct H1 as [R1 R2]. simpl. rewrite dom_delete_L. split_and!; [|done|set_solver]. split; [|done].
    intros name nd Hh%R1. unfold watches in *. simpl. rewrite lookup_delete_ne; [done|].
    intros <-. rewrite Hw1, He in Hh. simpl in Hh. rewrite lookup_empty in Hh. by destruct Hh. }
  clearbody s2. split; [split; [done|]|set_solver]. rewrite Hrem, K2, H3. set_solver.
Qed.

Lemma SetResources_keeps FetchSecret s cache names node s' cache' err :
  names_answers FetchSecret → kept s cache →
  SetResourcesForNode FetchSecret s cache names node = (s', cache', err) →
  kept s' cache' ∧ dom (sm_watchers s') ⊆ {[node]} ∪ dom (sm_watchers s).
Proof using Type RC.
  intros HF Hk. unfold SetResourcesForNode. destruct (sm_watchers s !! node) as [w|]; [|by apply watch_keeps].
  destruct (watch FetchSecret s cache _ node) as [[s1 c1] e1] eqn:Hw. apply watch_keeps in Hw as [Hk1 Hd1]; [|done..].
  destruct e1 as [e1|]; [by intros [= <- <- _]|]. intros [Hk2 Hd2]%unwatch_keeps; [|done]. split; [done|set_solver].
Qed.

Lemma UnwatchAll_keeps s cache node s' cache' err :
  kept s cache → UnwatchAll s cache node = (s', cache', err) →
  kept s' cache' ∧ dom (sm_watchers s') = dom (sm_watchers s) ∖ {[node]}.
Proof using Type RC.
  intros [[Hrefs Hkept] Hcached]. unfold UnwatchAll. destruct (sm_watchers s !! node) as [w|] eqn:Hw.
  2:{ intros [= <- <- _]. split; [by split|]. apply not_elem_of_dom in Hw. set_solver. }
  destruct (release_loop s (range w).*1 node []) as [s1 gone] eqn:Hloop.
  apply release_loop_kept in Hloop as (H1 & H2 & H3 & gone' & -> & H4); [|done].
  destruct (removeCertificates cache _) as [c e] eqn:Hrem. intros [= <- <- _].
  apply remove_succeeds in Hrem as [_ Hrem]. simpl in Hrem. simpl. rewrite dom_delete_L, H2. split; [|done].
  split; simpl; [|rewrite Hrem, H4; set_solver]. split; [|done]. intros name nd [Hh Hno]%H1.
  apply Hrefs in Hh. unfold watches in *. simpl. destruct (decide (nd = node)) as [->|Hne].
  - destruct Hno. split; [done|]. apply elem_of_range_keys. by rewrite Hw in Hh.
  - by rewrite lookup_delete_ne.
Qed.

Lemma manage_keeps FetchSecret force now s cache s' cache' :
  names_answers FetchSecret → kept s cache → manage FetchSecret force now s cache = (s', cache') →
  kept s' cache' ∧ dom (sm_watchers s') = dom (sm_watchers s).
Proof using Type RC.
  intros HF Hk. unfold manage.
  assert (∀ l s1 c1,
    (∀ name c, (name, c) ∈ l → ∃ c1, sm_registry s1 !! name = Some c1 ∧ wc_refs c1 = wc_refs c) →
    kept s1 c1 → sm_watchers s1 = sm_watchers s →
    foldl (manage_one FetchSecret force now) (s1, c1) l = (s', cache') →
    kept s' cache' ∧ dom (sm_watchers s') = dom (sm_watchers s)) as Hl.
  { induction l as [|[name c] l IH]; intros s1 c1 Hin Hk1 Hw1; simpl; [intros [= <- <-]; by rewrite Hw1|].
    assert (∀ name c, (name, c) ∈ l → ∃ c1, sm_registry s1 !! name = Some c1 ∧ wc_refs c1 = wc_refs c) as Hrest
      by (intros; apply Hin; by right).
    destruct (force || _); [|by apply IH].
    destruct (FetchSecret name) as [[cert expires]|e] eqn:Hf; [|by apply IH].
    destruct (updateCertificate c1 cert) as [c2 err] eqn:Hu. apply UpdateResource_law in Hu.
    destruct Hk1 as [[Hrefs Hkept] Hcached].
    destruct err as [e|]; [apply IH; [done|split; [by split|by rewrite Hu]|done]|].
    destruct (Hin name c ltac:(left)) as (creg & Hreg & Hsame). apply IH; [|split; [split|]|done].
    - intros name' c' Hin'. simpl. destruct (decide (name' = name)) as [->|Hn].
      + rewrite lookup_insert_eq. eexists. split; [done|]. simpl.
        destruct (Hrest name c' Hin') as (c'' & Hc'' & Heq). rewrite Hreg in Hc''. congruence.
      + rewrite lookup_insert_ne by done. by apply Hrest.
    - intros n nd. rewrite holds_set. simpl. intros [[-> Hc]|[_ Hh]]; [|by apply Hrefs].
      change (watches s1 nd name). apply Hrefs. unfold holds. rewrite Hreg. simpl. by rewrite Hsame.
    - apply registry_kept; [|exact Hkept]. simpl. rewrite <-Hsame. by eapply Hkept.
    - rewrite Hu, (HF _ _ _ Hf). simpl. rewrite dom_insert_L. set_solver. }
  apply Hl; [|done|done]. intros name c Hc%elem_of_range. by eauto.
Qed.

End kept.

Section leaks.
Context {TP : TLSParsing} {MR : MapRange} {G C : Type} `{LC : LawfulCache C} {RC : ReliableCache C}.
Context (GetGateway : GatewayID → result (option G)).
Context (gateway_CanFetchSecrets : G → list string → result bool).
Context (FetchSecret : fetcher) (server : SDSServer).
Implicit Types (st : @sds_state C).

Record sds_inv st : Prop := {
  si_kept : kept (ss_secrets st) (ss_cache st);
  si_nodes : ∀ node, node ∈ dom (sm_watchers (ss_secrets st)) →
    ∃ streamID, rh_nodeMap (ss_handler st) !! streamID = Some node;
  si_open : dom (rh_nodeMap (ss_handler st)) ⊆ dom (rh_streamContexts (ss_handler st));
  si_active : rh_activeStreams (ss_handler st) = Z.of_nat (size (rh_streamContexts (ss_handler st)))
}.

Lemma sds_start_inv cache : cached cache = ∅ → sds_inv (sds_start cache).
Proof.
  intros Hc. split; simpl; [split; [apply new_refs_watched|by rewrite Hc]|..].
  - intros node. rewrite dom_empty_L. by intros ?%not_elem_of_empty.
  - done.
  - by rewrite map_size_empty.
Qed.

Lemma stream_open_inv st id streamID typeURL r err :
  rh_streamContexts (ss_handler st) !! streamID = None →
  StreamOpenFunc (ss_handler st) id streamID typeURL = (r, err) → sds_inv st → sds_inv (ss_set_handler r st).
Proof.
  intros Hfresh. unfold StreamOpenFunc. destruct (decide _); [|by intros [= <- _] [H1 H2 H3 H4]].
  intros [= <- _] [H1 H2 H3 H4]. split; simpl; [done|done|rewrite dom_insert_L; clear -H3; set_solver|].
  rewrite map_size_insert_None by done. lia.
Qed.

Lemma stream_request_inv st st' streamID resources node err :
  names_answers FetchSecret → is_Some (rh_streamContexts (ss_handler st) !! streamID) → same_node st streamID node →
  OnStreamRequest GetGateway gateway_CanFetchSecrets FetchSecret st streamID resources node = Some (st', err) →
  sds_inv st → sds_inv st'.
Proof using Type RC.
  intros HF Hopen Hsame. unfold OnStreamRequest. destruct (GetGateway _) as [[gw|]|e]; [|done|by intros [= <- _]].
  destruct (gateway_CanFetchSecrets gw resources) as [[|]|e]; [|by intros [= <- _]..].
  destruct (SetResourcesForNode _ _ _ _ _) as [[s c] e] eqn:Hset. intros [= <- _] [H1 H2 H3 H4].
  apply SetResources_keeps in Hset as [Hk Hd]; [|done..]. split; simpl; [done| | |done].
  - intros n Hn. apply Hd in Hn. apply elem_of_union in Hn as [->%elem_of_singleton|Hn].
    + exists streamID. by rewrite lookup_insert_eq.
    + destruct (H2 n Hn) as [sid Hsid]. exists sid. destruct (decide (sid = streamID)) as [->|Hne].
      * rewrite lookup_insert_eq. by rewrite (Hsame n Hsid).
      * by rewrite lookup_insert_ne.
  - apply elem_of_dom in Hopen. rewrite dom_insert_L. clear -H3 Hopen. set_solver.
Qed.

Lemma stream_closed_inv st streamID :
  is_Some (rh_streamContexts (ss_handler st) !! streamID) → sds_inv st → sds_inv (OnStreamClosed st streamID).
Proof using Type RC.
  intros [ctx Hopen] [H1 H2 H3 H4]. unfold OnStreamClosed.
  destruct (match rh_nodeMap _ !! _ with Some _ => _ | None => _ end) as [s c] eqn:Hun.
  assert (kept s c ∧ ∀ n, n ∈ dom (sm_watchers s) →
    ∃ sid, sid ≠ streamID ∧ rh_nodeMap (ss_handler st) !! sid = Some n) as [Hk Hn].
  { destruct (rh_nodeMap (ss_handler st) !! streamID) as [node|] eqn:Hnode.
    - destruct (UnwatchAll _ _ node) as [[s1 c1] e] eqn:Hall. injection Hun as <- <-.
      apply UnwatchAll_keeps in Hall as [Hk Hd]; [|done]. split; [done|]. intros n. rewrite Hd.
      intros [Hn Hne]%elem_of_difference. destruct (H2 n Hn) as [sid Hsid]. exists sid. split; [|done].
      intros ->. rewrite Hnode in Hsid. injection Hsid as ->. by apply Hne, elem_of_singleton.
    - injection Hun as <- <-. split; [done|]. intros n Hn. destruct (H2 n Hn) as [sid Hsid]. exists sid.
      split; [|done]. intros ->. congruence. }
  rewrite Hopen. split; simpl; [done| | |].
  - intros n [sid [Hne Hsid]]%Hn. exists sid. by rewrite lookup_delete_ne.
  - rewrite !dom_delete_L. clear -H3. set_solver.
  - rewrite map_size_delete, Hopen. assert (size (rh_streamContexts (ss_handler st)) ≠ 0); [|lia].
    intros Hz%map_size_empty_inv. by rewrite Hz, lookup_empty in Hopen.
Qed.

Lemma sds_step_inv certs st st' :
  names_answers FetchSecret →
  sds_step GetGateway gateway_CanFetchSecrets FetchSecret server certs st st' → sds_inv st → sds_inv st'.
Proof using Type RC.
  intros HF Hstep. destruct Hstep as [cfg peer id sid url r err st0 Hcfg Hpeer Hfresh Ho
    |sid resources node st0 st1 err Hopen Hnode Hreq|sid st0 Hopen|force now s cache st0 Hf Hm].
  - by eapply stream_open_inv.
  - by eapply stream_request_inv.
  - by apply stream_closed_inv.
  - intros [H1 H2 H3 H4]. apply manage_keeps in Hm as [Hk Hd]; [|done..]. split; simpl; [done| |done|done].
    intros n. rewrite Hd. apply H2.
Qed.


End leaks.

Section left_behind.
Context {TP : TLSParsing} {MR : MapRange} {G C : Type} `{LC : LawfulCache C} {RC : ReliableCache C}.
Context (gateway_CanFetchSecrets : G → list string → result bool) (server : SDSServer).
Implicit Types (st : @sds_state C).

(** The server, while the store, the certificates of the process and the
    secret store change. *)
Definition sds_changing st st' : Prop :=
  ∃ certs GetGateway FetchSecret, names_answers FetchSecret ∧
    sds_step GetGateway gateway_CanFetchSecrets FetchSecret server certs st st'.

Lemma sds_changing_inv st st' : sds_changing st st' → sds_inv st → sds_inv st'.
Proof using Type RC. intros (certs & GetGateway & FetchSecret & HF & Hs). by eapply sds_step_inv. Qed.

(** C19: the SDS server leaves nothing behind.  In every state the server can
    reach, whichever fetches and requests failed before, provided the secret
    store names what it answers: the gauge of active streams is their number; every certificate in the cache is watched by the
    node of a stream that is still open; and when the last stream is closed,
    no certificate, watch or reference remains. *)
Theorem sds_leaves_nothing_behind (cache : C) st :
  cached cache = ∅ → rtc sds_changing (sds_start cache) st →
  let r := ss_handler st in
  rh_activeStreams r = Z.of_nat (size (rh_streamContexts r)) ∧
  (∀ name, name ∈ cached (ss_cache st) → ∃ node streamID, watches (ss_secrets st) node name ∧
     rh_nodeMap r !! streamID = Some node ∧ is_Some (rh_streamContexts r !! streamID)) ∧
  (rh_streamContexts r = ∅ →
     cached (ss_cache st) = ∅ ∧ sm_watchers (ss_secrets st) = ∅ ∧ sm_registry (ss_secrets st) = ∅).
Proof using Type RC.
  intros Hempty Hreach.
  assert (sds_inv st) as [[[Hrefs Hkept] Hcached] H2 H3 H4]
    by (eapply (rtc_preserve _ sds_inv); [apply sds_changing_inv|exact Hreach|by apply sds_start_inv]).
  assert (∀ name, name ∈ dom (sm_registry (ss_secrets st)) → ∃ node streamID, watches (ss_secrets st) node name ∧
    rh_nodeMap (ss_handler st) !! streamID = Some node ∧ is_Some (rh_streamContexts (ss_handler st) !! streamID)) as Hreg.
  { intros name [c Hc]%elem_of_dom. destruct (map_choose (wc_refs c) (Hkept name c Hc)) as (node & u & Hu).
    assert (watches (ss_secrets st) node name) as Hw by (apply Hrefs; unfold holds; rewrite Hc; by exists u).
    destruct (H2 node) as [sid Hsid].
    { apply elem_of_dom. unfold watches in Hw. destruct (sm_watchers (ss_secrets st) !! node); [by eexists|by destruct Hw]. }
    exists node, sid. split_and!; [done|done|]. apply elem_of_dom, H3, elem_of_dom. by eexists. }
  split_and!; [done|by intros name Hn; apply Hreg, Hcached|]. intros Hnone. rewrite Hnone, dom_empty_L in H3.
  assert (dom (sm_registry (ss_secrets st)) = ∅) as Hdr.
  { apply set_eq. intros name. split; [|by intros ?%not_elem_of_empty]. intros (node & sid & _ & _ & Hs)%Hreg.
    rewrite Hnone, lookup_empty in Hs. by destruct Hs. }
  assert (dom (sm_watchers (ss_secrets st)) = ∅) as Hdw.
  { apply set_eq. intros node. split; [|by intros ?%not_elem_of_empty]. intros [sid Hsid]%H2.
    exfalso. apply (not_elem_of_empty (C:=gset Z) sid), H3, elem_of_dom. by eexists. }
  split_and!; [rewrite Hdr in Hcached; set_solver|by apply dom_empty_inv_L|by apply dom_empty_inv_L].
Qed.

End left_behind.

(** ** The forced refresh *)

Section refresh.
Context {MR : MapRange} {C : Type} {CA : SecretCaches C}.
Implicit Types (s : secretManager) (cache : C).

(** The rounds of the loop, each at its time and with what the secret store
    answers then. *)
Definition refresh (acc : secretManager * C) (round : bool * Z * fetcher) : secretManager * C :=
  let '(force, now, FetchSecret) := round in manage FetchSecret force now acc.1 acc.2.

(** A certificate that is not about to expire is left alone by an unforced
    refresh. *)
Lemma manage_skips FetchSecret now s cache name c :
  sm_registry s !! name = Some c → (now <= wc_expiration c - expirationDelta)%Z →
  sm_registry (manage FetchSecret false now s cache).1 !! name = Some c.
Proof.
  intros Hc Hnow. unfold manage.
  assert (∀ l s1 c1, (∀ c', (name, c') ∈ l → c' = c) → sm_registry s1 !! name = Some c →
    sm_registry (foldl (manage_one FetchSecret false now) (s1, c1) l).1 !! name = Some c) as Hl.
  { induction l as [|[n cn] l IH]; intros s1 c1 Hin Hs1; [done|]. simpl.
    assert (∀ c', (name, c') ∈ l → c' = c) as Hrest by (intros; apply Hin; by right).
    case_bool_decide as Hexp; [|by apply IH]. destruct (FetchSecret n) as [[cert expires]|e]; [|by apply IH].
    destruct (updateCertificate c1 cert) as [c2 [e|]]; (apply IH; [done|]); [done|]. simpl.
    rewrite lookup_insert_ne; [done|]. intros ->. rewrite (Hin cn) in Hexp by left. lia. }
  apply Hl; [|done]. intros c' Hc'%elem_of_range. congruence.
Qed.

(** Rotated certificates are not picked up.  [Manage] is documented to fetch
    all certificates again every half an hour, but it starts the timer of the
    forced refresh anew in every round, beside the shorter one of the loop,
    which always expires first: no round of the server's loop is forced.  So
    however often the loop runs, and whatever the secret store would answer,
    Envoy keeps the certificate it was first given until ten minutes before it
    expires. *)
Theorem forced_refresh_never_happens (rounds : list (bool * Z * fetcher)) s cache name c :
  sm_registry s !! name = Some c →
  (∀ force now FetchSecret, (force, now, FetchSecret) ∈ rounds →
     force ∈ Manage_round (sds_certificateForcePullInterval NewSDSServer) ∧
     (now <= wc_expiration c - expirationDelta)%Z) →
  (∀ force now FetchSecret, (force, now, FetchSecret) ∈ rounds → force = false) ∧
  sm_registry (foldl refresh (s, cache) rounds).1 !! name = Some c.
Proof.
  intros Hc Hrounds.
  assert (∀ force now FetchSecret, (force, now, FetchSecret) ∈ rounds → force = false) as Hf.
  { intros force now F Hin. destruct (Hrounds force now F Hin) as [Hr _].
    by apply list_elem_of_singleton in Hr. }
  split; [exact Hf|]. revert s cache Hc. induction rounds as [|[[force now] F] rounds IH]; intros s cache Hc; [done|].
  simpl. destruct (manage F force now s cache) as [s1 c1] eqn:Hm. apply IH.
  - intros f n F' Hin. apply (Hrounds f n F'). by right.
  - intros f n F' Hin. apply (Hf f n F'). by right.
  - assert (s1 = (manage F force now s cache).1) as -> by by rewrite Hm.
    rewrite (Hf force now F ltac:(by left)). apply manage_skips; [done|].
    by destruct (Hrounds force now F ltac:(by left)).
Qed.

End refresh.

(** ** Examples *)

Module SdsServerExamples.

Import (hints) CertExamples.

#[export] Existing Instance canonical_range.
#[export] Existing Instance SecretExamples.set_cache.
#[export] Existing Instance SecretExamples.set_cache_lawful.
#[export] Instance set_cache_reliable : ReliableCache (gset string).
Proof. by split. Qed.

(** The certificate manager, once it has its certificates. *)
Definition certs : CertManager :=
  mkCertManager "controller" "" "" "" "" 9090 true true (Some "ca") (Some "cert") (Some "key") (Some "cert")
    (Some ["ca"]).

Abbreviation step := (sds_changing (C:=gset string) k8s_CanFetchSecrets NewSDSServer).

(** A stream that asked for its certificate. *)
Definition requested : option (@sds_state (gset string)) :=
  fst <$> SdsExamples.request ["k8s://default/cert"].

Lemma requested_reachable :
  ∃ st, requested = Some st ∧ rtc step (sds_start ∅) st ∧ "k8s://default/cert" ∈ ss_cache st.
Proof.
  unfold requested. destruct (SdsExamples.request ["k8s://default/cert"]) as [[st err]|] eqn:Hreq;
    [|vm_compute in Hreq; discriminate Hreq].
  exists st. split; [reflexivity|]. split.
  - eapply rtc_l.
    { exists certs, SdsExamples.lookup_gateway, SecretExamples.serving. split; [exact SecretExamples.serving_names|].
      eapply (SdsStreamOpen _ _ _ _ _ _ SdsExamples.peer (mkGatewayID "" "gateway") 1%Z SecretType);
        [reflexivity|vm_compute; reflexivity|reflexivity|vm_compute; reflexivity]. }
    eapply rtc_l; [|apply rtc_refl]. exists certs, SdsExamples.lookup_gateway, SecretExamples.serving.
    split; [exact SecretExamples.serving_names|].
    eapply (SdsStreamRequest _ _ _ _ _ 1%Z ["k8s://default/cert"] "node"); [by eexists|by intros ?|exact Hreq].
  - apply (bool_decide_eq_true _).
    transitivity (match SdsExamples.request ["k8s://default/cert"] with
      | Some (st, _) => bool_decide ("k8s://default/cert" ∈ ss_cache st) | None => false end);
      [by rewrite Hreq|vm_compute; reflexivity].
Qed.

End SdsServerExamples.

Import (hints) CertExamples SdsServerExamples.

(** The certificate is cached for the stream that asked for it, and gone once
    the stream is closed. *)
Lemma sds_leaves_nothing_behind_witness :
  ∃ st : @sds_state (gset string),
    (∃ node streamID, watches (ss_secrets st) node "k8s://default/cert" ∧
       rh_nodeMap (ss_handler st) !! streamID = Some node) ∧
    ss_cache (OnStreamClosed st 1) = ∅.
Proof.
  destruct SdsServerExamples.requested_reachable as (st & Hst & Hreach & Hin). exists st. split.
  - destruct (sds_leaves_nothing_behind k8s_CanFetchSecrets NewSDSServer (∅ : gset string) st) as (_ & Hc & _); [reflexivity|exact Hreach|].
    destruct (Hc _ Hin) as (node & sid & Hw & Hn & _). exists node, sid. split; [exact Hw|exact Hn].
  - assert (rh_streamContexts (ss_handler st) = {[1%Z := mkGatewayID "" "gateway"]}) as Hctx.
    { transitivity (from_option (λ st, rh_streamContexts (ss_handler st)) ∅ SdsServerExamples.requested);
        [by rewrite Hst|vm_compute; reflexivity]. }
    destruct (sds_leaves_nothing_behind k8s_CanFetchSecrets NewSDSServer (∅ : gset string) (OnStreamClosed st 1)) as (_ & _ & Hnone); [reflexivity|..].
    + eapply rtc_r; [exact Hreach|]. exists SdsServerExamples.certs, SdsExamples.lookup_gateway, SecretExamples.serving.
      split; [exact SecretExamples.serving_names|]. apply SdsStreamClosed.
      rewrite Hctx, lookup_singleton_eq. by eexists.
    + apply Hnone. unfold OnStreamClosed.
      destruct (match rh_nodeMap _ !! _ with Some _ => _ | None => _ end) as [s c]. simpl.
      by rewrite Hctx, delete_singleton_eq.
Defined.

(** The store would answer with a new certificate. *)
Lemma forced_refresh_never_happens_witness :
  let c := mkWatchedCertificate (mkTLSSecret "a" "old" "key") 100000 {["node" := tt]} in
  let rotated : fetcher := λ name, Ok (mkTLSSecret name "new" "key", 200000%Z) in
  sm_registry (foldl refresh (mkSecretManager {["node" := {["a" := tt]}]} {["a" := c]}, {["a"]} : gset string)
    [(false, 30%Z, rotated); (false, 60%Z, rotated)]).1 !! "a" = Some c.
Proof.
  intros c rotated.
  eapply (forced_refresh_never_happens [(false, 30%Z, rotated); (false, 60%Z, rotated)]); [reflexivity|].
  intros force now F Hin. rewrite !elem_of_cons, elem_of_nil in Hin.
  destruct Hin as [[= -> -> ->]|[[= -> -> ->]|[]]]; (split; [by left|unfold c, expirationDelta; simpl; lia]).
Defined.
