(* ===== verification/Server.v ===== *)
(** * The process of the controller ([internal/commands/server/server.go],
    [internal/k8s/controller.go], [config.go])

    [RunServer] is the main function of the controller: it connects to Consul,
    builds the store and everything the store uses, waits for its own
    certificates, and then serves certificates to Envoy and reconciles the
    objects of the cluster until it is told to stop.  Everything but the
    waiting happens in goroutines of one group: the first error of a member
    ends the others.  [server_step] has one rule for each thing that can
    happen, so that the theorems hold for every interleaving.  The operations
    of the components are atomic; the world of Consul and the cluster is that
    of the store ([m_world]).

    controller-runtime is a class: how its manager is made and registered
    with.  Its manager's [Start] blocks until its context is done, or fails. *)

From S2P Require Import Prelude Errors Json Core K8s Status GatewayClient Resolver State Converter Objects Builder ApiServer Cluster Deployer ClassConfig GatewayClasses Binder K8sSecret GatewayValidator RouteValidator Store Provenance Statuses Manager Controllers CoreCodec JsonCode Codec Secrets SecretClients Sds CertManager SdsServer Intentions Registration Connection Flags Commands.

(** ** The Kubernetes controller ([controller.go]) *)

Definition ControllerName : string := "hashicorp.com/consul-api-gateway-controller".
Definition controllerLeaderElectionID : string := "consul-api-gateway.consul.hashicorp.com".

(** [ctrl.Options], the fields that are set. *)
Record ctrl_Options : Type := mkCtrlOptions {
  co_MetricsBindAddress : string;
  co_HealthProbeBindAddress : string;
  co_Port : Z;
  co_LeaderElection : bool;
  co_LeaderElectionID : string;
  co_LeaderElectionNamespace : string
}.

Class ControllerRuntime : Type := {
  ctrl_Manager : Type;
  ctrl_NewManager : ctrl_Options → result ctrl_Manager;
  AddHealthzCheck : string → ctrl_Manager → ctrl_Manager * option error;
  AddReadyzCheck : string → ctrl_Manager → ctrl_Manager * option error;
  SetupWithManager : controller → ctrl_Manager → ctrl_Manager * option error
}.

Section kubernetes.
Context {CT : ControllerRuntime}.

(** The client of Consul and the store are interfaces: whether they are set. *)
Record Kubernetes : Type := mkKubernetes {
  kb_config : k8s_Config;
  kb_k8sManager : ctrl_Manager;
  kb_consul : bool;
  kb_store : bool
}.

Definition ctrl_options (config : k8s_Config) : ctrl_Options :=
  mkCtrlOptions (kc_MetricsBindAddr config) (kc_HealthProbeBindAddr config) (kc_WebhookPort config) true
    controllerLeaderElectionID
    (if bool_decide (kc_Namespace config ≠ "") then kc_Namespace config else "default").

Definition k8s_New (config : option k8s_Config) : result Kubernetes :=
  let config := default k8s_Defaults config in
  match ctrl_NewManager (ctrl_options config) with
  | Err err => Err (ErrWrap "failed to start k8s controller manager: " err)
  | Ok mgr =>
      match AddHealthzCheck "healthz" mgr with
      | (_, Some err) => Err (ErrWrap "unable to set up health check: " err)
      | (mgr, None) =>
          match AddReadyzCheck "readyz" mgr with
          | (_, Some err) => Err (ErrWrap "unable to set up ready check: " err)
          | (mgr, None) => Ok (mkKubernetes config mgr false false)
          end
      end
  end.

Definition SetConsul (k : Kubernetes) : Kubernetes :=
  mkKubernetes (kb_config k) (kb_k8sManager k) true (kb_store k).
Definition SetStore (k : Kubernetes) : Kubernetes :=
  mkKubernetes (kb_config k) (kb_k8sManager k) (kb_consul k) true.
Definition kb_set_manager (mgr : ctrl_Manager) (k : Kubernetes) : Kubernetes :=
  mkKubernetes (kb_config k) mgr (kb_consul k) (kb_store k).

(** The controllers in the order [Start] sets them up, with what their errors
    are wrapped in. *)
Definition start_order : list (controller * string) := [
  (CGatewayClassConfig, "failed to create gateway class config controller: ");
  (CGatewayClass, "failed to create gateway class controller: ");
  (CGateway, "failed to create gateway controller: ");
  (CHTTPRoute, "failed to create http route controller: ");
  (CTCPRoute, "failed to create tcp route controller: ")].

Fixpoint setup_controllers (cs : list (controller * string)) (mgr : ctrl_Manager) : ctrl_Manager * option error :=
  match cs with
  | [] => (mgr, None)
  | (c, message) :: cs =>
      match SetupWithManager c mgr with
      | (mgr, Some err) => (mgr, Some (ErrWrap message err))
      | (mgr, None) => setup_controllers cs mgr
      end
  end.

(** [Start], up to the call of the manager's [Start]. *)
Definition k8s_Start (k : Kubernetes) : Kubernetes * option error :=
  let (mgr, err) := setup_controllers start_order (kb_k8sManager k) in (kb_set_manager mgr k, err).

End kubernetes.

(** ** What the store is built from ([config.go]) *)

Record store_Config (W : Type) : Type := mkStoreConfig {
  stc_Adapter : SyncAdapters W;
  stc_Backend : memoryBackend string;
  stc_Marshaler : Marshaler K8sGateway K8sRoute string;
  stc_StatusUpdater : StatusUpdaters K8sGateway K8sRoute W;
  stc_Binder : Binders K8sGateway K8sRoute
}.
Arguments mkStoreConfig {W} _ _ _ _ _.
Arguments stc_Adapter {W} _.
Arguments stc_Backend {W} _.
Arguments stc_Marshaler {W} _.
Arguments stc_StatusUpdater {W} _.
Arguments stc_Binder {W} _.

(** The deployer gets no primary datacenter. *)
Definition store_deployer (config : k8s_Config) : GatewayDeployer :=
  mkDeployer (kc_CACert config) "" (kc_SDSServerHost config) (kc_SDSServerPort config)
    (cnc_MirrorKubernetesNamespaces (kc_ConsulNamespaceConfig config))
    (cnc_PartitionInfo (kc_ConsulNamespaceConfig config)).

Section store_config.
Context {JT : JsonText} {MF : MultierrorFormat} {MR : MapRange} {EN : Environment} {KJ : KubernetesJson}.
Context {W : Type} {AP : ApiServer W} {CN : ConsulNamespaces W} {CL : Clock W} {LS : LabelSelectors}.
Context (json_of_condition : Condition → string) (json_of_parent : RouteParentStatus → string).

Definition StoreConfig (adapter : SyncAdapters W) (client : Client) (config : k8s_Config) : store_Config W :=
  mkStoreConfig adapter NewMemoryBackend codec_marshaler
    (k8s_status_updater json_of_condition json_of_parent (store_deployer config) ControllerName)
    (k8s_binders client).

End store_config.

(** [store.New] *)
Definition store_New {W} (c : store_Config W) (w : W) : @store (memoryBackend string) W := mkStore (stc_Backend c) w.

(** ** The CA of Consul ([utils/cert_file.go])

    [newClient] is whether a client can be made, [get] reads the cluster.  A
    secret without a certificate is written as an empty file. *)
Definition WriteSecretCertFile {F} {FS : FileSystem F} (newClient : result unit)
    (get : NamespacedName → result Secret) (secret file namespace : string) (f : F) : F * option error :=
  match newClient with
  | Err err => (f, Some (ErrWrap "failed to get k8s client: " err))
  | Ok _ =>
      match get (mkNamespacedName namespace secret) with
      | Err err => (f, Some (ErrWrap "unable to pull Consul CA cert from secret: " err))
      | Ok found =>
          let cert := default "" (sec_Data found !! TLSCertKey) in
          let (f, err) := os_WriteFile f file cert in (f, ErrWrap "unable to write CA cert: " <$> err)
      end
  end.

(** The file holds the certificate of the secret unless an error is reported. *)
Lemma WriteSecretCertFile_ok {F} {FS : FileSystem F} newClient get secret path namespace (f f' : F) :
  WriteSecretCertFile newClient get secret path namespace f = (f', None) →
  ∃ found, get (mkNamespacedName namespace secret) = Ok found ∧
    file f' path = Some (default "" (sec_Data found !! TLSCertKey)).
Proof.
  unfold WriteSecretCertFile. destruct newClient; [|done]. destruct (get _) as [found|]; [|done].
  destruct (os_WriteFile _ _ _) as [f1 [e|]] eqn:Hw; [done|]. intros [= <-]. exists found. split; [done|].
  by eapply os_WriteFile_ok.
Qed.

(** ** Metrics and profiling *)

(** [metrics.RunServer] returns after the goroutine that waits for the context:
    [failed] is the error of [ListenAndServe] other than [ErrServerClosed], if
    it returned one.  Without a result it blocks. *)
Definition metrics_RunServer (failed : option error) (ctx_done : bool) : option (option error) :=
  if ctx_done then Some failed else None.

Definition profiling_RunServer (failed : option error) (ctx_done : bool) : option (option error) :=
  if ctx_done then Some failed else None.

(** ** The state of the process *)

(** The goroutines of the group. *)
Inductive task : Type :=
  | TWatchServers
  | TSyncAll
  | TManage
  | TSDS
  | TController
  | TMetrics
  | TProfiling.

#[export] Instance task_eq_dec : EqDecision task.
Proof. solve_decision. Defined.

Definition task_nat (t : task) : nat :=
  match t with
  | TWatchServers => 0 | TSyncAll => 1 | TManage => 2 | TSDS => 3 | TController => 4 | TMetrics => 5 | TProfiling => 6
  end.
Definition nat_task (n : nat) : task :=
  match n with
  | 0 => TWatchServers | 1 => TSyncAll | 2 => TManage | 3 => TSDS | 4 => TController | 5 => TMetrics | _ => TProfiling
  end.

#[export] Instance task_countable : Countable task.
Proof. apply (inj_countable' task_nat nat_task). by intros []. Defined.

(** A goroutine was launched, does its work, or returned.  [Doomed] has its
    error and cannot return yet. *)
Inductive routine : Type :=
  | Launched
  | Serving
  | Doomed (err : error)
  | Finished (err : option error).

Definition finished (g : routine) : bool := match g with Finished _ => true | _ => false end.

(** Where the main function is. *)
Inductive server_phase : Type :=
  | SConnecting
  | SAwaitingCertificates
  | SRunning
  | SExited (ret : Z).

Definition exited (p : server_phase) : bool := match p with SExited _ => true | _ => false end.

Section server.
Context {JT : JsonText} {MF : MultierrorFormat} {MR : MapRange} {NU : NetURL} {SCH : Scheduler}.
Context {EN : Environment} {KJ : KubernetesJson} {LS : LabelSelectors} {TP : TLSParsing} {RB : RetryBackoff}.
Context {CT : ControllerRuntime} {W F C : Type} {AD : SyncAdapters W} {AP : ApiServer W} {CN : ConsulNamespaces W}.
Context {CR : ClusterReads W} {CL : Clock W} {API : ConsulAPI W} {FS : FileSystem F} {CA : SecretCaches C}.
Context (json_of_condition : Condition → string) (json_of_parent : RouteParentStatus → string).
Context (client : Client) (resolver : W → BackendResolver) (format_kinds : list RouteGroupKind → string).
Context (config : ServerConfig).

Abbreviation operator := (@manager (memoryBackend string) W).

Record server : Type := mkServer {
  v_phase : server_phase;
  v_signalled : bool;              (** a signal arrived, or the parent's context is done *)
  v_kubernetes : option Kubernetes;
  v_client : Connection.client;
  v_watch : option watch_phase;    (** [WatchServers], once it has run *)
  v_certs : CertManager;
  v_files : F;
  v_manager : operator;            (** with the store; before it is built only its world means something *)
  v_sds : @sds_state C;
  v_tasks : gmap task routine;
  v_failed : option error          (** the first error of the group *)
}.

Definition v_set_phase (p : server_phase) (v : server) : server :=
  mkServer p (v_signalled v) (v_kubernetes v) (v_client v) (v_watch v) (v_certs v) (v_files v) (v_manager v)
    (v_sds v) (v_tasks v) (v_failed v).
Definition v_signal (v : server) : server :=
  mkServer (v_phase v) true (v_kubernetes v) (v_client v) (v_watch v) (v_certs v) (v_files v) (v_manager v)
    (v_sds v) (v_tasks v) (v_failed v).
Definition v_set_kubernetes (k : Kubernetes) (v : server) : server :=
  mkServer (v_phase v) (v_signalled v) (Some k) (v_client v) (v_watch v) (v_certs v) (v_files v) (v_manager v)
    (v_sds v) (v_tasks v) (v_failed v).
Definition v_set_client (c : Connection.client) (p : option watch_phase) (v : server) : server :=
  mkServer (v_phase v) (v_signalled v) (v_kubernetes v) c p (v_certs v) (v_files v) (v_manager v)
    (v_sds v) (v_tasks v) (v_failed v).
Definition v_set_certs (c : CertManager) (f : F) (v : server) : server :=
  mkServer (v_phase v) (v_signalled v) (v_kubernetes v) (v_client v) (v_watch v) c f (v_manager v)
    (v_sds v) (v_tasks v) (v_failed v).
Definition v_set_manager (m : operator) (v : server) : server :=
  mkServer (v_phase v) (v_signalled v) (v_kubernetes v) (v_client v) (v_watch v) (v_certs v) (v_files v) m
    (v_sds v) (v_tasks v) (v_failed v).
Definition v_set_sds (s : sds_state) (v : server) : server :=
  mkServer (v_phase v) (v_signalled v) (v_kubernetes v) (v_client v) (v_watch v) (v_certs v) (v_files v)
    (v_manager v) s (v_tasks v) (v_failed v).
(** [group.Go], and a change of a goroutine. *)
Definition v_set_task (t : task) (g : routine) (v : server) : server :=
  mkServer (v_phase v) (v_signalled v) (v_kubernetes v) (v_client v) (v_watch v) (v_certs v) (v_files v)
    (v_manager v) (v_sds v) (<[t := g]> (v_tasks v)) (v_failed v).
(** A goroutine returned; the group remembers the first error. *)
Definition v_finish (t : task) (err : option error) (v : server) : server :=
  mkServer (v_phase v) (v_signalled v) (v_kubernetes v) (v_client v) (v_watch v) (v_certs v) (v_files v)
    (v_manager v) (v_sds v) (<[t := Finished err]> (v_tasks v))
    (match v_failed v with Some e => Some e | None => err end).

Definition v_world (v : server) : W := m_world (v_manager v).
Definition v_set_world (w : W) (v : server) : server := v_set_manager (m_set_world w (v_manager v)) v.

(** [groupCtx] is done: after a signal, an error of the group, or the deferred
    [cancel()] of the main function. *)
Definition server_done (v : server) : bool :=
  v_signalled v || bool_decide (is_Some (v_failed v)) || exited (v_phase v).

(** ** The main function *)

Definition server_certs : CertManager :=
  NewCertManager "consul-api-gateway-controller"
    (Some (mkCertManagerOptions (cmo_Directory DefaultCertManagerOptions) (sc_PrimaryDatacenter config)
       (cmo_SDSAddress DefaultCertManagerOptions) (cmo_SDSPort DefaultCertManagerOptions))).

Definition server_store_config : store_Config W :=
  StoreConfig json_of_condition json_of_parent AD client (sc_K8sConfig config).

(** The first lines, up to where it waits for the connection: [secrets] are
    the clients of the secret stores that could be made. *)
Definition server_start (k8s pki kv : result fetcher) (w : W) (f : F) (cache : C) : server :=
  let initial p k tasks :=
    mkServer p false k (NewClient (sc_ConsulClientConfig config)) None server_certs f (new_manager w)
      (sds_start cache) tasks None in
  match registerSecretClients k8s pki kv with
  | Err _ => initial (SExited 1) None ∅
  | Ok _ =>
      match k8s_New (Some (sc_K8sConfig config)) with
      | Err _ => initial (SExited 1) None ∅
      | Ok k => initial SConnecting (Some k) {[TWatchServers := Launched]}
      end
  end.

(** [client.Wait] returned: the store and the certificate manager are made. *)
Definition server_connected (err : option error) (c : Connection.client) (v : server) : server :=
  let v := v_set_client c (v_watch v) v in
  match err with
  | Some _ => v_set_phase (SExited 1) v
  | None =>
      let v := v_set_manager (mkManager ∅ ∅ (store_New server_store_config (v_world v))) v in
      let v := v_set_task TSyncAll Serving v in
      let v := match v_kubernetes v with Some k => v_set_kubernetes (SetStore (SetConsul k)) v | None => v end in
      let v := v_set_certs server_certs (v_files v) v in
      v_set_phase SAwaitingCertificates (v_set_task TManage Launched v)
  end.

(** [certManager.WaitForWrite] returned. *)
Definition server_written (err : option error) (v : server) : server :=
  match err with
  | Some _ => v_set_phase (SExited 1) v
  | None =>
      let v := v_set_task TController Launched (v_set_task TSDS Launched v) in
      let v := if bool_decide (sc_MetricsPort config ≠ 0%Z) then v_set_task TMetrics Serving v else v in
      let v := if bool_decide (sc_ProfilingPort config ≠ 0%Z) then v_set_task TProfiling Serving v else v in
      v_set_phase SRunning v
  end.

(** [group.Wait] returned. *)
Definition server_finished (v : server) : server :=
  v_set_phase (SExited (match v_failed v with Some _ => 1 | None => 0 end)%Z) v.

(** ** The goroutines *)

Definition server_watch_servers (newWatcher : discovery_Config → result unit) (initial : result discovery_State)
    (v : server) : option server :=
  res ← WatchServers newWatcher initial (v_client v) (v_world v);
  let '(c, w, phase) := res : Connection.client * W * watch_phase in
  let v := v_set_world w (v_set_client c (Some phase) v) in
  Some (match phase with
        | Returned err => v_finish TWatchServers err v
        | _ => v_set_task TWatchServers Serving v
        end).

Definition server_watch_state (s : discovery_State) (phase : watch_phase) (v : server) : server :=
  let (c, phase') := watch_state s (v_client v) (v_world v) phase in
  let v := v_set_client c (Some phase') v in
  match phase' with Returned err => v_finish TWatchServers err v | _ => v end.

Definition server_watch_done (phase : watch_phase) (v : server) : server :=
  let (w, phase') := watch_done (v_world v) phase in
  let v := v_set_world w (v_set_client (v_client v) (Some phase') v) in
  match phase' with Returned err => v_finish TWatchServers err v | _ => v end.

Definition server_manage (rootWatch leafWatch : result unit) (leafCert : result (option LeafCert)) (v : server) :
    option server :=
  res ← Manage rootWatch leafWatch leafCert (v_certs v) (v_files v);
  let '(c, f, err) := res : CertManager * F * option error in
  let v := v_set_certs c f v in
  Some (match err with Some _ => v_finish TManage err v | None => v_set_task TManage Serving v end).

(** [server.Run]: [listen] is the error of [net.Listen]. *)
Definition server_listen (listen : option error) (v : server) : server :=
  match listen with Some _ => v_finish TSDS listen v | None => v_set_task TSDS Serving v end.

Definition server_start_controllers (k : Kubernetes) (v : server) : server :=
  let (k, err) := k8s_Start k in
  let v := v_set_kubernetes k v in
  match err with Some _ => v_finish TController err v | None => v_set_task TController Serving v end.

(** The store the SDS server asks. *)
Definition server_GetGateway (v : server) : GatewayID → result (option K8sGateway) :=
  getGateway (st_backend (m_store (v_manager v))).

Definition mapper : string → string := cnc_Namespace (kc_ConsulNamespaceConfig (sc_K8sConfig config)).

#[local] Instance server_binders : Binders K8sGateway K8sRoute := stc_Binder server_store_config.
#[local] Instance server_marshaler : Marshaler K8sGateway K8sRoute string := stc_Marshaler server_store_config.

Definition server_updater : option (StatusUpdaters K8sGateway K8sRoute W) :=
  Some (stc_StatusUpdater server_store_config).

Inductive server_step : server → server → Prop :=
  (* the main function *)
  | VConnected timeout err c v :
      v_phase v = SConnecting → (err, c) ∈ Wait timeout (v_client v) → server_step v (server_connected err c v)
  | VWritten timeout err v :
      v_phase v = SAwaitingCertificates → err ∈ WaitForWrite (timeout || v_signalled v) (v_certs v) →
      server_step v (server_written err v)
  | VFinished v :
      v_phase v = SRunning → map_Forall (λ _ g, finished g = true) (v_tasks v) →
      server_step v (server_finished v)
  (* the connection *)
  | VWatchServers newWatcher initial v v' :
      v_tasks v !! TWatchServers = Some Launched → server_watch_servers newWatcher initial v = Some v' →
      server_step v v'
  | VWatchState s phase v :
      v_tasks v !! TWatchServers = Some Serving → v_watch v = Some phase →
      server_step v (server_watch_state s phase v)
  | VWatchDone phase v :
      v_tasks v !! TWatchServers = Some Serving → v_watch v = Some phase → server_done v = true →
      server_step v (server_watch_done phase v)
  (* the store's sync loop *)
  | VSyncAll s err v :
      v_tasks v !! TSyncAll = Some Serving → syncAll server_updater (m_store (v_manager v)) = Some (s, err) →
      server_step v (v_set_manager (m_set_store s (v_manager v)) v)
  | VSyncAllDone v :
      v_tasks v !! TSyncAll = Some Serving → server_done v = true → server_step v (v_finish TSyncAll None v)
  (* the certificates of the process *)
  | VManage rootWatch leafWatch leafCert v v' :
      v_tasks v !! TManage = Some Launched → server_manage rootWatch leafWatch leafCert v = Some v' →
      server_step v v'
  | VRootWatch raw c f v :
      v_tasks v !! TManage = Some Serving → handleRootWatch raw (v_certs v) (v_files v) = Some (c, f) →
      server_step v (v_set_certs c f v)
  | VLeafWatch raw c f v :
      v_tasks v !! TManage = Some Serving → handleLeafWatch raw (v_certs v) (v_files v) = Some (c, f) →
      server_step v (v_set_certs c f v)
  | VManageDone v :
      v_tasks v !! TManage = Some Serving → server_done v = true → server_step v (v_finish TManage None v)
  (* the SDS server *)
  | VListen listen v : v_tasks v !! TSDS = Some Launched → server_step v (server_listen listen v)
  | VSds k8s pki kv m s v :
      v_tasks v !! TSDS = Some Serving → registerSecretClients (Ok k8s) (Ok pki) (Ok kv) = Ok m →
      sds_step (server_GetGateway v) k8s_CanFetchSecrets (MultiSecretClient_FetchSecret m) NewSDSServer
        (v_certs v) (v_sds v) s →
      server_step v (v_set_sds s v)
  | VSdsFailed err v : v_tasks v !! TSDS = Some Serving → server_step v (v_finish TSDS (Some err) v)
  | VSdsDone v :
      v_tasks v !! TSDS = Some Serving → server_done v = true → server_step v (v_finish TSDS None v)
  (* the controllers *)
  | VStart k v :
      v_tasks v !! TController = Some Launched → v_kubernetes v = Some k →
      server_step v (server_start_controllers k v)
  | VReconcile c req m res v :
      v_tasks v !! TController = Some Serving →
      NewRequeueingMiddleware (Reconcile server_updater resolver format_kinds ControllerName mapper c) req
        (v_manager v) = Some (m, res) →
      server_step v (v_set_manager m v)
  | VControllerFailed err v :
      v_tasks v !! TController = Some Serving → server_step v (v_finish TController (Some err) v)
  | VControllerDone v :
      v_tasks v !! TController = Some Serving → server_done v = true → server_step v (v_finish TController None v)
  (* metrics and profiling *)
  | VHttpFailed t err v :
      t = TMetrics ∨ t = TProfiling → v_tasks v !! t = Some Serving → server_step v (v_set_task t (Doomed err) v)
  | VMetricsReturn g failed err v :
      v_tasks v !! TMetrics = Some g → (g = Serving ∧ failed = None ∨ ∃ e, g = Doomed e ∧ failed = Some e) →
      metrics_RunServer failed (server_done v) = Some err → server_step v (v_finish TMetrics err v)
  | VProfilingReturn g failed err v :
      v_tasks v !! TProfiling = Some g → (g = Serving ∧ failed = None ∨ ∃ e, g = Doomed e ∧ failed = Some e) →
      profiling_RunServer failed (server_done v) = Some err → server_step v (v_finish TProfiling err v)
  (* signals, the cluster and other users of Consul *)
  | VSignal v : server_step v (v_signal v)
  | VWorld w v : server_step v (v_set_world w v).

End server.

(** ** Properties *)

Ltac server_cases H :=
  destruct H as [timeout err c v Hp Hw|timeout err v Hp Hw|v Hp Hall|nw init v v' Ht Hw|s phase v Ht Hph
    |phase v Ht Hph Hd|s err v Ht Hs|v Ht Hd|rw lw lc v v' Ht Hm|raw c f v Ht Hh|raw c f v Ht Hh|v Ht Hd
    |listen v Ht|k8s pki kv m s v Ht Hreg Hs|err v Ht|v Ht Hd|k v Ht Hk|c req m res v Ht Hr|err v Ht|v Ht Hd
    |t err v Hor Ht|g failed err v Ht Hg Hr|g failed err v Ht Hg Hr|v|w1 v].

Section properties.
Context {JT : JsonText} {MF : MultierrorFormat} {MR : MapRange} {NU : NetURL}.
Context {SCH : Scheduler} {EN : Environment} {KJ : KubernetesJson}.
Context {LS : LabelSelectors} {TP : TLSParsing} {RB : RetryBackoff} {CT : ControllerRuntime} {W F C : Type}.
Context {AD : SyncAdapters W} {AP : ApiServer W} {CN : ConsulNamespaces W} {CR : ClusterReads W}.
Context {CL : Clock W} {API : ConsulAPI W} {FS : FileSystem F} {CA : SecretCaches C}.
Context (json_of_condition : Condition → string) (json_of_parent : RouteParentStatus → string).
Context (client : Client) (resolver : W → BackendResolver) (format_kinds : list RouteGroupKind → string).
Context (config : ServerConfig).
#[local] Abbreviation server := (server (W:=W) (F:=F) (C:=C)).
#[local] Abbreviation step := (server_step json_of_condition json_of_parent client resolver format_kinds config).
#[local] Abbreviation updater := (server_updater json_of_condition json_of_parent client config).
#[local] Abbreviation opstep := (operator_step client updater resolver format_kinds ControllerName (mapper config)).
#[local] Abbreviation start := (server_start config).
#[local] Abbreviation cfg := (sc_ConsulClientConfig config).
Implicit Types (v : server).

(** *** The operator *)

(** The manager of the controllers does not run yet. *)
Definition unstarted v : Prop := ∀ g, v_tasks v !! TController = Some g → g = Launched.

(** Nothing was reconciled. *)
Definition pristine (m : @manager (memoryBackend string) W) : Prop :=
  m_gatewayClasses m = ∅ ∧ m_namespaceMap m = ∅ ∧ st_backend (m_store m) = NewMemoryBackend.

Record op_inv (w : W) v : Prop := {
  oi_reachable : rtc opstep (new_manager w) (v_manager v);
  oi_pristine : unstarted v → pristine (v_manager v);
  oi_connecting : v_phase v = SConnecting → v_manager v = new_manager (v_world v)
}.

Lemma op_inv_frame w v v' :
  v_manager v' = v_manager v → (v_phase v' = SConnecting → v_phase v = SConnecting) →
  (unstarted v' → unstarted v) → op_inv w v → op_inv w v'.
Proof.
  intros Hm Hp Hu [H1 H2 H3]. split; rewrite ?Hm; [done|by auto|]. unfold v_world in *. rewrite Hm. by auto.
Qed.

Lemma op_inv_world w w' v : op_inv w v → op_inv w (v_set_world w' v).
Proof.
  intros [H1 H2 H3]. split; simpl; [|exact H2|].
  - eapply rtc_r; [exact H1|apply OWorld].
  - intros Hp. unfold v_world. simpl. by rewrite (H3 Hp).
Qed.

Lemma unstarted_other t g v v' :
  t ≠ TController → v_tasks v' = <[t := g]> (v_tasks v) → unstarted v' → unstarted v.
Proof. intros Ht Hv Hu g' Hg. apply Hu. by rewrite Hv, lookup_insert_ne. Qed.

Lemma started_controller g v v' :
  g ≠ Launched → v_tasks v' = <[TController := g]> (v_tasks v) → ¬ unstarted v'.
Proof. intros Hg Hv Hu. apply Hg, Hu. by rewrite Hv, lookup_insert_eq. Qed.

Lemma op_inv_task w t g v v' :
  v_tasks v' = <[t := g]> (v_tasks v) → t ≠ TController → v_manager v' = v_manager v → v_phase v' = v_phase v →
  op_inv w v → op_inv w v'.
Proof.
  intros Hv Ht Hm Hp. apply op_inv_frame; [done|by rewrite Hp|]. by apply (unstarted_other t g).
Qed.

Lemma op_inv_controller w g v v' :
  v_tasks v' = <[TController := g]> (v_tasks v) → g ≠ Launched → v_manager v' = v_manager v → v_phase v' = v_phase v →
  op_inv w v → op_inv w v'.
Proof.
  intros Hv Hg Hm Hp. apply op_inv_frame; [done|by rewrite Hp|]. by intros []%(started_controller g v).
Qed.

Lemma op_inv_connected w err c v :
  v_phase v = SConnecting → op_inv w v →
  op_inv w (server_connected json_of_condition json_of_parent client config err c v).
Proof.
  intros Hp [H1 H2 H3]. destruct err; [by split|]. rewrite (H3 Hp) in H1.
  unfold server_connected. simpl. destruct (v_kubernetes v) as [k|]; by (split; [exact H1|..]).
Qed.

(** *** The goroutines *)

(** Which goroutines there are, by what the main function has done. *)
Definition main_tasks (p : server_phase) : gset task :=
  match p with
  | SConnecting => {[TWatchServers]}
  | SAwaitingCertificates => {[TWatchServers; TSyncAll; TManage]}
  | _ => {[TWatchServers; TSyncAll; TManage; TSDS; TController; TMetrics; TProfiling]}
  end.

Record shape_inv v : Prop := {
  sh_tasks : dom (v_tasks v) ⊆ main_tasks (v_phase v);
  sh_watch : ¬ exited (v_phase v) → TWatchServers ∈ dom (v_tasks v);
  sh_kubernetes : v_phase v = SConnecting → is_Some (v_kubernetes v);
  sh_wired : TSyncAll ∈ dom (v_tasks v) → ∃ k, v_kubernetes v = Some k ∧ kb_consul k = true ∧ kb_store k = true;
  sh_serving : TSDS ∈ dom (v_tasks v) ∨ TController ∈ dom (v_tasks v) → TSyncAll ∈ dom (v_tasks v)
}.

(** What every step does that is not one of the main function. *)
Record background v v' : Prop := {
  bg_phase : v_phase v' = v_phase v;
  bg_tasks : dom (v_tasks v') = dom (v_tasks v);
  bg_kubernetes : ∀ k, v_kubernetes v = Some k →
    ∃ k', v_kubernetes v' = Some k' ∧ kb_consul k' = kb_consul k ∧ kb_store k' = kb_store k;
  bg_done : server_done v = true → server_done v' = true
}.

Lemma background_same v v' :
  (v_phase v', v_tasks v', v_kubernetes v', v_signalled v', v_failed v')
  = (v_phase v, v_tasks v, v_kubernetes v, v_signalled v, v_failed v) → background v v'.
Proof.
  intros [= Hp Ht Hk Hs Hf]. split; [done|by rewrite Ht|rewrite Hk; by eauto|]. unfold server_done. by rewrite Hp, Hs, Hf.
Qed.

Lemma background_task t g g' v v' :
  v_tasks v !! t = Some g → v_tasks v' = <[t := g']> (v_tasks v) →
  (v_phase v', v_kubernetes v', v_signalled v') = (v_phase v, v_kubernetes v, v_signalled v) →
  (is_Some (v_failed v) → is_Some (v_failed v')) → background v v'.
Proof.
  intros Ht Hv [= Hp Hk Hs] Hf. split; [done| |rewrite Hk; by eauto|].
  - rewrite Hv. apply dom_insert_lookup_L. by eexists.
  - unfold server_done. rewrite Hp, Hs. destruct (v_signalled v); [done|]. simpl.
    destruct (exited (v_phase v)); [by rewrite !orb_true_r|]. rewrite !orb_false_r, !bool_decide_eq_true. exact Hf.
Qed.

#[local] Ltac background_task :=
  eapply background_task; [eassumption|reflexivity|reflexivity|first [exact (λ H, H)|by intros [? He]; simpl; rewrite He; eexists]].

Lemma background_start k v :
  v_tasks v !! TController = Some Launched → v_kubernetes v = Some k → background v (server_start_controllers k v).
Proof.
  intros Ht Hk. unfold server_start_controllers, k8s_Start. destruct (setup_controllers _ _) as [mgr err].
  assert (∀ g, dom (<[TController := g]> (v_tasks v)) = dom (v_tasks v)) as Hd
    by (intros g; apply dom_insert_lookup_L; by eexists).
  destruct err as [e|]; (split; simpl; [done|apply Hd| |]);
    try (intros k' Hk'; rewrite Hk in Hk'; injection Hk' as <-; by eexists); [|done].
  unfold server_done. simpl. destruct (v_failed v); [done|]. by rewrite orb_true_r.
Qed.

Lemma step_cases v v' :
  step v v' →
  (v_phase v = SConnecting ∧ ∃ timeout err c, (err, c) ∈ Wait timeout (v_client v) ∧
     v' = server_connected json_of_condition json_of_parent client config err c v) ∨
  (v_phase v = SAwaitingCertificates ∧ ∃ timeout err, err ∈ WaitForWrite timeout (v_certs v) ∧
     v' = server_written config err v) ∨
  (v_phase v = SRunning ∧ map_Forall (λ _ g, finished g = true) (v_tasks v) ∧ v' = server_finished v) ∨
  background v v'.
Proof.
  intros Hstep. server_cases Hstep; try (right; right; right; by apply background_same);
    try (right; right; right; background_task).
  - left. split; [done|]. by exists timeout, err, c.
  - right. left. split; [done|]. by exists (timeout || v_signalled v), err.
  - right. right. by left.
  - right. right. right. unfold server_watch_servers in Hw. destruct (WatchServers _ _ _ _) as [[[c w] phase]|]; [|done].
    injection Hw as <-. destruct phase; background_task.
  - right. right. right. unfold server_watch_state. destruct (watch_state _ _ _ _) as [c phase'].
    destruct phase'; [by apply background_same..|background_task].
  - right. right. right. unfold server_watch_done. destruct (watch_done _ _) as [w phase'].
    destruct phase'; [by apply background_same..|background_task].
  - right. right. right. unfold server_manage in Hm. destruct (Manage _ _ _ _ _) as [[[c f] err]|]; [|done].
    injection Hm as <-. destruct err; background_task.
  - right. right. right. destruct listen; background_task.
  - right. right. right. by apply background_start.
  - right. right. right. split; [done|done|by eauto|]. intros _. done.
Qed.

Lemma shape_inv_background v v' : background v v' → shape_inv v → shape_inv v'.
Proof.
  intros [Hp Ht Hk _] [H1 H2 H3 H4 H5]. split; rewrite ?Hp, ?Ht; try done.
  - intros Hc. destruct (H3 Hc) as [k Hk']. destruct (Hk k Hk') as (k' & -> & _). by eexists.
  - intros Hs. destruct (H4 Hs) as (k & Hk' & H6 & H7). destruct (Hk k Hk') as (k' & -> & H8 & H9).
    exists k'. split; [done|]. split; congruence.
Qed.

Lemma shape_inv_exit ret v : shape_inv v → shape_inv (v_set_phase (SExited ret) v).
Proof.
  intros [H1 H2 H3 H4 H5]. split; simpl; try done. etrans; [exact H1|]. destruct (v_phase v); simpl; set_solver.
Qed.

Lemma shape_inv_connected err c v :
  v_phase v = SConnecting → shape_inv v →
  shape_inv (server_connected json_of_condition json_of_parent client config err c v).
Proof.
  intros Hp Hinv. unfold server_connected. destruct err as [e|].
  { apply shape_inv_exit. by eapply shape_inv_background; [|exact Hinv]; apply background_same. }
  destruct Hinv as [H1 H2 H3 H4 H5]. rewrite Hp in *. destruct (H3 eq_refl) as [k Hk]. simpl. rewrite Hk.
  split; simpl; rewrite ?dom_insert_L; simpl in H1.
  - set_solver.
  - intros _. apply elem_of_union_r, elem_of_union_r, H2. by intros [].
  - done.
  - intros _. by eexists.
  - set_solver.
Qed.

Lemma shape_inv_written err v :
  v_phase v = SAwaitingCertificates → TSyncAll ∈ dom (v_tasks v) → shape_inv v →
  shape_inv (server_written config err v).
Proof.
  intros Hp Hsync Hinv. unfold server_written. destruct err as [e|]; [by apply shape_inv_exit|].
  destruct Hinv as [H1 H2 H3 H4 H5]. rewrite Hp in *. simpl in H1.
  assert (TWatchServers ∈ dom (v_tasks v)) as Hw by (apply H2; by intros []).
  destruct (H4 Hsync) as (k & Hk).
  case_bool_decide; case_bool_decide; (split; simpl; rewrite ?dom_insert_L; [set_solver|set_solver|done|by eauto|set_solver]).
Qed.

(** Once the certificates are awaited, the store syncs. *)
Definition syncing_inv v : Prop :=
  v_phase v = SAwaitingCertificates ∨ v_phase v = SRunning → TSyncAll ∈ dom (v_tasks v).

Lemma shape_step v v' : step v v' → shape_inv v ∧ syncing_inv v → shape_inv v' ∧ syncing_inv v'.
Proof.
  intros Hstep [Hinv Hsync].
  apply step_cases in Hstep as [(Hp & timeout & err & c & _ & ->)|[(Hp & timeout & err & _ & ->)|[(Hp & _ & ->)|Hb]]].
  - split; [by apply shape_inv_connected|]. unfold server_connected. destruct err; [by intros [|]|].
    intros _. simpl. destruct (v_kubernetes v); simpl; rewrite !dom_insert_L; set_solver.
  - assert (TSyncAll ∈ dom (v_tasks v)) as Hs by (apply Hsync; by left).
    split; [by apply shape_inv_written|]. unfold server_written. destruct err; [by intros [|]|]. intros _.
    case_bool_decide; case_bool_decide; simpl; rewrite ?dom_insert_L; clear -Hs; set_solver.
  - split; [by apply shape_inv_exit|]. by intros [|].
  - split; [by eapply shape_inv_background|]. destruct Hb as [Hp Ht _ _]. unfold syncing_inv. by rewrite Hp, Ht.
Qed.

Lemma shape_start k8s pki kv w f cache :
  shape_inv (start k8s pki kv w f cache) ∧ syncing_inv (start k8s pki kv w f cache).
Proof.
  unfold server_start. destruct (registerSecretClients _ _ _); [destruct (k8s_New _)|];
    (split; [split; simpl; rewrite ?dom_singleton_L, ?dom_empty_L; try done; clear; set_solver|by intros [|]]).
Qed.

Lemma op_inv_written w err v :
  v_phase v = SAwaitingCertificates → shape_inv v → op_inv w v → op_inv w (server_written config err v).
Proof.
  intros Hp [H1 _ _ _ _]. assert (unstarted v) as Hu.
  { intros g Hg. apply elem_of_dom_2 in Hg. apply H1 in Hg. rewrite Hp in Hg. simpl in Hg. set_solver. }
  unfold server_written. destruct err; [by apply op_inv_frame; try (intros; done)|].
  case_bool_decide; case_bool_decide; (apply op_inv_frame; [done|done|done]).
Qed.

Lemma syncAll_pristine m s err :
  pristine m → syncAll updater (m_store m) = Some (s, err) → pristine (m_set_store s m).
Proof. intros (H1 & H2 & H3) Hs. apply syncAll_inv in Hs. split_and!; simpl; congruence. Qed.

Lemma connected_task t g v : shape_inv v → v_tasks v !! t = Some g → t ≠ TWatchServers → v_phase v ≠ SConnecting.
Proof.
  intros [H1 _ _ _ _] Ht Hne Hp. apply elem_of_dom_2, H1 in Ht. rewrite Hp in Ht. simpl in Ht. by apply elem_of_singleton in Ht.
Qed.

#[local] Ltac op_task := eapply op_inv_task; [..|eassumption]; [reflexivity|discriminate|reflexivity|reflexivity].
#[local] Ltac op_controller := eapply op_inv_controller; [..|eassumption]; [reflexivity|discriminate|reflexivity|reflexivity].

Lemma op_inv_step w v v' : step v v' → shape_inv v → op_inv w v → op_inv w v'.
Proof.
  intros Hstep Hshape Hinv. server_cases Hstep;
    try op_task; try op_controller; try (by eapply op_inv_frame; [..|exact Hinv]).
  - by apply op_inv_connected.
  - by apply op_inv_written.
  - unfold server_watch_servers in Hw. destruct (WatchServers _ _ _ _) as [[[c w'] phase]|]; [|done]. injection Hw as <-.
    apply (op_inv_world w w') in Hinv. destruct phase; op_task.
  - unfold server_watch_state. destruct (watch_state _ _ _ _) as [c phase'].
    destruct phase'; [by eapply op_inv_frame; [..|exact Hinv]..|op_task].
  - unfold server_watch_done. destruct (watch_done _ _) as [w' phase'].
    apply (op_inv_world w w') in Hinv.
    destruct phase'; [by eapply op_inv_frame; [..|exact Hinv]..|op_task].
  - destruct Hinv as [H1 H2 H3]. split; simpl.
    + eapply rtc_r; [exact H1|by eapply OSyncAll].
    + intros Hu. by eapply syncAll_pristine; [apply H2|].
    + intros Hp. by destruct (connected_task _ _ _ Hshape Ht ltac:(discriminate)).
  - unfold server_manage in Hm. destruct (Manage _ _ _ _ _) as [[[c f] err]|]; [|done]. injection Hm as <-.
    destruct err; op_task.
  - destruct listen; op_task.
  - unfold server_start_controllers. destruct (k8s_Start k) as [k' [e|]]; op_controller.
  - destruct Hinv as [H1 H2 H3]. split; simpl.
    + eapply rtc_r; [exact H1|by eapply OReconcile].
    + intros Hu. apply Hu in Ht. done.
    + intros Hp. by destruct (connected_task _ _ _ Hshape Ht ltac:(discriminate)).
  - destruct Hor as [-> | ->]; op_task.
  - by apply op_inv_world.
Qed.

(** *** The connection *)

(** The client belongs to the connection's state. *)
Record conn_inv v : Prop := {
  ci_client : match v_watch v with
              | None => v_client v = NewClient cfg
              | Some phase => connection_inv cfg (v_client v) phase
              end;
  ci_launched : v_tasks v !! TWatchServers = Some Launched → v_watch v = None;
  ci_serving : v_tasks v !! TWatchServers = Some Serving → ∃ phase, v_watch v = Some phase ∧ ∀ err, phase ≠ Returned err;
  ci_finished : ∀ err, v_tasks v !! TWatchServers = Some (Finished err) → v_watch v = Some (Returned err);
  ci_ready : TSyncAll ∈ dom (v_tasks v) → is_Some (v_watch v) ∧ ch_closed (cl_initialized (v_client v)) = true
}.

(** A step that leaves the connection alone. *)
Lemma conn_inv_frame v v' :
  (v_client v', v_watch v', v_tasks v' !! TWatchServers) = (v_client v, v_watch v, v_tasks v !! TWatchServers) →
  (TSyncAll ∈ dom (v_tasks v') → TSyncAll ∈ dom (v_tasks v)) → conn_inv v → conn_inv v'.
Proof. intros [= Hc Hw Ht] Hs [H1 H2 H3 H4 H5]. split; rewrite ?Hc, ?Hw, ?Ht; auto. Qed.

Lemma conn_inv_task t g g' v v' :
  t ≠ TWatchServers → v_tasks v !! t = Some g → v_tasks v' = <[t := g']> (v_tasks v) →
  (v_client v', v_watch v') = (v_client v, v_watch v) → conn_inv v → conn_inv v'.
Proof.
  intros Hne Ht Hv [= Hc Hw]. apply conn_inv_frame.
  - by rewrite Hc, Hw, Hv, lookup_insert_ne.
  - rewrite Hv, dom_insert_lookup_L by by eexists. done.
Qed.

Lemma updateClient_initialized static name s c (w : W) :
  cl_initialized (updateClient static name s c w).1 = cl_initialized c.
Proof. unfold updateClient. by destruct (api_NewClient _ _) as [a []]. Qed.

Lemma watch_state_closed s c (w : W) phase :
  cl_initialized (watch_state s c w phase).1 = cl_initialized c.
Proof.
  destruct phase as [|static name|]; try done. simpl. rewrite <-(updateClient_initialized static name s c w).
  by destruct (updateClient _ _ _ _ _) as [c' [e|]].
Qed.

Lemma conn_inv_wait timeout err c v :
  (err, c) ∈ Wait timeout (v_client v) → conn_inv v →
  conn_inv (v_set_client c (v_watch v) v) ∧
  (err = None → is_Some (v_watch v) ∧ ch_closed (cl_initialized c) = true).
Proof.
  intros Hw [H1 H2 H3 H4 H5]. pose proof Hw as (_ & _ & _ & Hclosed & _ & Hok)%Wait_spec.
  destruct (v_watch v) as [phase|] eqn:Hv.
  - split.
    + split; simpl; [|done..|].
      * apply (watch_step_inv cfg (v_client v, v_world v, phase) (c, v_world v, phase)); [|done]. by eapply StepWait.
      * intros Hs. destruct (H5 Hs) as [_ Hc]. split; [by eexists|congruence].
    + intros ->. split; [by eexists|]. rewrite Hclosed. by apply Hok.
  - rewrite H1 in Hw, Hclosed, Hok, H5. split; [|intros ->; by specialize (Hok eq_refl)].
    assert (c = NewClient cfg) as ->; [|by split].
    unfold Wait in Hw. simpl in Hw. destruct timeout; [by apply list_elem_of_singleton in Hw as [= _ ->]|].
    by apply not_elem_of_nil in Hw.
Qed.

Lemma conn_inv_connected timeout err c v :
  (err, c) ∈ Wait timeout (v_client v) → conn_inv v →
  conn_inv (server_connected json_of_condition json_of_parent client config err c v).
Proof.
  intros Hw Hinv. apply conn_inv_wait in Hw as [[H1 H2 H3 H4 H5] Hok]; [|done]. unfold server_connected.
  destruct err as [e|]; [by split|]. destruct (Hok eq_refl) as [Hs Hc]. simpl in *.
  destruct (v_kubernetes v); (split; simpl; [exact H1|..|done]); rewrite !lookup_insert_ne by done; done.
Qed.

Lemma conn_inv_written err v : conn_inv v → conn_inv (server_written config err v).
Proof.
  intros Hinv. unfold server_written. destruct err; [by eapply conn_inv_frame; [..|exact Hinv]|].
  case_bool_decide; case_bool_decide; (eapply conn_inv_frame; [..|exact Hinv]);
    try (simpl; by rewrite !lookup_insert_ne by done); simpl; rewrite !dom_insert_L; clear; set_solver.
Qed.

Lemma conn_inv_watch_servers nw init v v' :
  v_tasks v !! TWatchServers = Some Launched → server_watch_servers nw init v = Some v' → conn_inv v → conn_inv v'.
Proof.
  intros Ht Hw [H1 H2 H3 H4 H5]. unfold server_watch_servers in Hw. rewrite (H2 Ht) in H1, H5. rewrite H1 in Hw.
  destruct (watch_start nw init cfg (v_world v)) as ([[c w] phase] & Hs & Hci & _). simpl in Hci.
  rewrite Hs in Hw. injection Hw as <-.
  assert (TSyncAll ∉ dom (v_tasks v)) as Hno by (intros [[? [=]] _]%H5).
  assert (∀ g, TSyncAll ∉ dom (<[TWatchServers := g]> (v_tasks v))) as Hno'
    by (intros g; rewrite dom_insert_L; clear -Hno; set_solver).
  destruct phase as [| |err]; (split; simpl; [exact Hci|..]); rewrite ?lookup_insert_eq;
    first [done|by intros ?%Hno'|by intros _; eexists|by intros e [= <-]|by intros e [=]].
Qed.

Lemma conn_inv_watch v v' c phase :
  v_tasks v !! TWatchServers = Some Serving → is_Some (v_watch v) →
  connection_inv cfg c phase → ch_closed (cl_initialized c) = ch_closed (cl_initialized (v_client v)) →
  (v_client v', v_watch v') = (c, Some phase) →
  v_tasks v' = match phase with Returned err => <[TWatchServers := Finished err]> (v_tasks v) | _ => v_tasks v end →
  conn_inv v → conn_inv v'.
Proof.
  intros Ht Hs Hci Hclosed [= Hc Hw] Htasks [H1 H2 H3 H4 H5].
  assert (dom (v_tasks v') = dom (v_tasks v)) as Hd.
  { rewrite Htasks. destruct phase; [done..|]. apply dom_insert_lookup_L. by eexists. }
  split; rewrite ?Hw, ?Hc, ?Hd; [done|..].
  - destruct phase; rewrite Htasks, ?lookup_insert_eq, ?Ht; done.
  - destruct phase; rewrite Htasks, ?lookup_insert_eq, ?Ht; try done; intros _; by eexists.
  - destruct phase as [| |e]; rewrite Htasks, ?lookup_insert_eq, ?Ht; [done..|]. by intros err [= <-].
  - intros Hsync. destruct (H5 Hsync) as [_ Hcl]. split; [by eexists|congruence].
Qed.

#[local] Ltac conn_task :=
  eapply conn_inv_task; [..|eassumption]; [|eassumption|reflexivity|reflexivity]; discriminate.

Lemma conn_inv_step v v' : step v v' → conn_inv v → conn_inv v'.
Proof.
  intros Hstep Hinv. server_cases Hstep;
    try conn_task;
    try (by eapply conn_inv_frame; [..|exact Hinv]).
  - by eapply conn_inv_connected.
  - by apply conn_inv_written.
  - by eapply conn_inv_watch_servers.
  - pose proof (ci_client _ Hinv) as Hc. rewrite Hph in Hc. unfold server_watch_state.
    pose proof (watch_state_closed s (v_client v) (v_world v) phase) as Hcl.
    destruct (watch_state _ _ _ _) as [c phase'] eqn:Hws. simpl in Hcl.
    assert (connection_inv cfg c phase') as Hci.
    { apply (watch_step_inv cfg (v_client v, v_world v, phase) (c, v_world v, phase')); [|done]. by eapply StepState. }
    destruct phase'; (eapply (conn_inv_watch v); [done|by eexists|exact Hci|congruence|done|done|done]).
  - pose proof (ci_client _ Hinv) as Hc. rewrite Hph in Hc. unfold server_watch_done.
    destruct (watch_done _ _) as [w phase'] eqn:Hws.
    assert (connection_inv cfg (v_client v) phase') as Hci.
    { apply (watch_step_inv cfg (v_client v, v_world v, phase) (v_client v, w, phase')); [|done]. by eapply StepDone. }
    destruct phase'; (eapply (conn_inv_watch v); [done|by eexists|exact Hci|done|done|done|done]).
  - unfold server_manage in Hm. destruct (Manage _ _ _ _ _) as [[[c f] err]|]; [|done]. injection Hm as <-.
    destruct err; conn_task.
  - destruct listen; conn_task.
  - unfold server_start_controllers. destruct (k8s_Start k) as [k' [e|]];
      conn_task.
  - destruct Hor as [-> | ->];
      conn_task.
Qed.

Lemma conn_start k8s pki kv w f cache : conn_inv (start k8s pki kv w f cache).
Proof.
  unfold server_start. destruct (registerSecretClients _ _ _); [destruct (k8s_New _)|];
    (split; simpl; [done|..]); rewrite ?lookup_singleton_eq, ?lookup_empty, ?dom_singleton_L, ?dom_empty_L; try done;
    by intros ?%elem_of_singleton || by intros ?%not_elem_of_empty.
Qed.

(** *** The certificates *)

Record certs_inv v : Prop := {
  cv_certs : cert_inv "" (v_certs v) (v_files v);
  cv_pool : pool_ready (v_certs v);
  cv_serving : TSDS ∈ dom (v_tasks v) ∨ TController ∈ dom (v_tasks v) → cm_signalled (v_certs v) = true
}.

Lemma certs_inv_frame v v' :
  (v_certs v', v_files v') = (v_certs v, v_files v) → dom (v_tasks v') = dom (v_tasks v) → certs_inv v → certs_inv v'.
Proof. intros [= Hc Hf] Ht [H1 H2 H3]. split; rewrite ?Hc, ?Hf, ?Ht; done. Qed.

Lemma certs_inv_handled v c f :
  cert_step (v_certs v, v_files v) (c, f) → handled (v_certs v) (v_files v) c f → certs_inv v →
  certs_inv (v_set_certs c f v).
Proof.
  intros Hs [_ Hsig] [H1 H2 H3]. split; simpl.
  - by apply (cert_step_inv _ _ _ Hs).
  - by apply (cert_step_pool _ _ Hs).
  - intros Hd. by apply Hsig, H3.
Qed.

Lemma certs_inv_manage rw lw lc v c f err :
  Manage rw lw lc (v_certs v) (v_files v) = Some (c, f, err) → certs_inv v → certs_inv (v_set_certs c f v).
Proof.
  intros [[= -> ->]|[raw Hraw]]%Manage_spec Hinv; [by eapply certs_inv_frame; [..|exact Hinv]|].
  apply certs_inv_handled; [by eapply StepLeaf|by eapply handleLeafWatch_handled|done].
Qed.

Lemma server_certs_inv (f : F) : cert_inv "" (server_certs config) f.
Proof. unfold server_certs. set (options := Some _). exact (new_inv "consul-api-gateway-controller" options f). Qed.

Lemma certs_inv_connected err c v :
  v_phase v = SConnecting → shape_inv v → certs_inv v →
  certs_inv (server_connected json_of_condition json_of_parent client config err c v).
Proof.
  intros Hp [H1 _ _ _ _] Hinv. unfold server_connected. destruct err; [by eapply certs_inv_frame; [..|exact Hinv]|].
  rewrite Hp in H1. simpl in H1. simpl.
  destruct (v_kubernetes v); (split; simpl; [apply server_certs_inv|by intros []|]);
    rewrite !dom_insert_L; clear -H1; set_solver.
Qed.

Lemma certs_inv_written ctx_done err v :
  err ∈ WaitForWrite ctx_done (v_certs v) → certs_inv v → certs_inv (server_written config err v).
Proof.
  intros Hw Hinv. unfold server_written. destruct err; [by eapply certs_inv_frame; [..|exact Hinv]|].
  assert (cm_signalled (v_certs v) = true) as Hsig.
  { destruct Hinv as [[_ <- _ _] _ _]. unfold WaitForWrite in Hw. destruct (cm_initializeSignal _); [done|].
    destruct ctx_done; [by apply list_elem_of_singleton in Hw|by apply not_elem_of_nil in Hw]. }
  destruct Hinv as [H1 H2 H3]. case_bool_decide; case_bool_decide; by split.
Qed.

(** Steps beside the main function that leave the certificates alone, or go
    through their handlers. *)
Lemma certs_inv_background v v' c f :
  background v v' → (v_certs v', v_files v') = (c, f) → certs_inv (v_set_certs c f v) → certs_inv v'.
Proof. intros [_ Hd _ _] Heq Hinv. by eapply certs_inv_frame; [..|exact Hinv]. Qed.

Lemma certs_inv_step v v' : step v v' → shape_inv v → certs_inv v → certs_inv v'.
Proof.
  intros Hstep Hshape Hinv.
  pose proof (step_cases _ _ Hstep) as [(Hp & timeout & err & c & _ & ->)|[(Hp & timeout & err & Hw & ->)|[(Hp & _ & ->)|Hb]]].
  - by apply certs_inv_connected.
  - by eapply certs_inv_written.
  - by eapply certs_inv_frame; [..|exact Hinv].
  - assert (certs_inv (v_set_certs (v_certs v) (v_files v) v)) as Hid by by destruct Hinv; split.
    assert ((v_certs v', v_files v') = (v_certs v, v_files v) → certs_inv v') as Hsame
      by (intros Heq; by eapply certs_inv_background).
    server_cases Hstep; try (by apply Hsame).
    + by apply certs_inv_connected.
    + apply Hsame. unfold server_written. destruct err; [done|]. by case_bool_decide; case_bool_decide.
    + apply Hsame. unfold server_watch_servers in Hw. destruct (WatchServers _ _ _ _) as [[[c w] phase]|]; [|done].
      injection Hw as <-. by destruct phase.
    + apply Hsame. unfold server_watch_state. destruct (watch_state _ _ _ _) as [c phase']. by destruct phase'.
    + apply Hsame. unfold server_watch_done. destruct (watch_done _ _) as [w phase']. by destruct phase'.
    + unfold server_manage in Hm. destruct (Manage _ _ _ _ _) as [[[c f] err]|] eqn:Hman; [|done].
      injection Hm as <-. apply certs_inv_manage in Hman; [|done].
      by eapply certs_inv_background; [exact Hb| |exact Hman]; destruct err.
    + apply certs_inv_handled; [by eapply StepRoot|by eapply handleRootWatch_handled|done].
    + apply certs_inv_handled; [by eapply StepLeaf|by eapply handleLeafWatch_handled|done].
    + apply Hsame. by destruct listen.
    + apply Hsame. unfold server_start_controllers. by destruct (k8s_Start k) as [k' [e|]].
Qed.

Lemma certs_start k8s pki kv w f cache : certs_inv (start k8s pki kv w f cache).
Proof.
  unfold server_start. destruct (registerSecretClients _ _ _); [destruct (k8s_New _)|];
    (split; simpl; [apply server_certs_inv|by intros []|]); rewrite ?dom_singleton_L, ?dom_empty_L; clear; set_solver.
Qed.

(** *** The end *)

Record end_inv v : Prop := {
  en_failed : ∀ t e, v_tasks v !! t = Some (Finished (Some e)) → is_Some (v_failed v);
  en_done : ∀ t, v_tasks v !! t = Some (Finished None) → server_done v = true;
  en_clean : v_phase v = SExited 0 → v_signalled v = true ∧ map_Forall (λ _ g, g = Finished None) (v_tasks v) ∧
    TWatchServers ∈ dom (v_tasks v);
  en_status : ∀ ret, v_phase v = SExited ret → ret = 0%Z ∨ ret = 1%Z;
  en_error : v_phase v = SExited 1 → TSDS ∈ dom (v_tasks v) → is_Some (v_failed v)
}.

Lemma end_inv_task t g g' v v' :
  end_inv v → v_tasks v !! t = Some g → v_tasks v' = <[t := g']> (v_tasks v) → finished g = false →
  background v v' → v_signalled v' = v_signalled v → (is_Some (v_failed v) → is_Some (v_failed v')) →
  (∀ e, g' = Finished (Some e) → is_Some (v_failed v')) → (g' = Finished None → server_done v = true) → end_inv v'.
Proof.
  intros [H1 H2 H3 H4 H5] Ht Hv Hg [Hp Hd _ Hdone] Hs Hf He Hn. split; rewrite ?Hp, ?Hs, ?Hd; [..|done|by auto].
  - intros t' e. rewrite Hv. destruct (decide (t' = t)) as [->|Hne].
    + rewrite lookup_insert_eq. intros [= ->]. by apply (He e).
    + rewrite lookup_insert_ne by done. by intros ?%H1%Hf.
  - intros t'. rewrite Hv. destruct (decide (t' = t)) as [->|Hne].
    + rewrite lookup_insert_eq. intros [= ->]. by apply Hdone, Hn.
    + rewrite lookup_insert_ne by done. by intros ?%H2%Hdone.
  - intros Hx. exfalso. destruct (H3 Hx) as (_ & Hall & _). apply Hall in Ht. by subst g.
Qed.

(** A step that changes no goroutine. *)
Lemma end_inv_frame v v' :
  end_inv v → (v_tasks v', v_phase v', v_failed v') = (v_tasks v, v_phase v, v_failed v) →
  (v_signalled v = true → v_signalled v' = true) → end_inv v'.
Proof.
  intros [H1 H2 H3 H4 H5] [= Ht Hp Hf] Hs.
  assert (server_done v = true → server_done v' = true) as Hd.
  { unfold server_done. rewrite Hp, Hf. destruct (v_signalled v); [by rewrite Hs|]. by destruct (v_signalled v'). }
  split; rewrite ?Ht, ?Hp, ?Hf; try done; [by eauto|]. intros Hx. destruct (H3 Hx) as (? & ? & ?). by auto.
Qed.

(** The connection only ends by itself with an error. *)
Lemma WatchServers_returned nw init c (w : W) c' w' err :
  WatchServers nw init c w = Some (c', w', Returned err) → is_Some err.
Proof.
  assert (∀ e c (w : W), watch_fails e c w = Some (c', w', Returned err) → is_Some err) as Hf.
  { intros e c0 w0. unfold watch_fails. destruct (ch_send _ _); [|done]. intros [= _ _ <-]. by eexists. }
  unfold WatchServers, watch_dynamic, watch_static. destruct (cc_UseDynamic _).
  - destruct (server_name _) as [name static]. destruct (nw _); [|apply Hf]. destruct init; [|apply Hf].
    destruct (updateClient _ _ _ _ _) as [c1 [e|]]; [apply Hf|]. by destruct (ch_close _).
  - destruct (cc_Credentials _); destruct (api_NewClient _ _) as [a [cl|e]]; try apply Hf; [by destruct (ch_close _)|].
    destruct (login _ _ _ _ _ _) as [[a2 w2] [[cl2 t2]|e]]; [by destruct (ch_close _)|apply Hf].
Qed.

Lemma watch_state_returned s c (w : W) phase c' err :
  (∀ e, phase ≠ Returned e) → watch_state s c w phase = (c', Returned err) → is_Some err.
Proof.
  intros Hne. destruct phase as [| |e]; [done| |by destruct (Hne e)]. simpl.
  destruct (updateClient _ _ _ _ _) as [c1 [e|]]; [|done]. intros [= _ <-]. by eexists.
Qed.

Lemma end_inv_connected err c v :
  v_phase v = SConnecting → shape_inv v → end_inv v →
  end_inv (server_connected json_of_condition json_of_parent client config err c v).
Proof.
  intros Hp [Hsh _ _ _ _] [H1 H2 H3 H4 H5]. unfold server_connected. rewrite Hp in Hsh. simpl in Hsh.
  assert (∀ t, v_tasks v !! t = Some (Finished None) → v_signalled v || bool_decide (is_Some (v_failed v)) = true) as Hn.
  { intros t Ht. apply H2 in Ht. unfold server_done in Ht. rewrite Hp in Ht. by rewrite orb_false_r in Ht. }
  assert (∀ t e g1 g2, finished g1 = false → finished g2 = false →
    <[TManage := g1]> (<[TSyncAll := g2]> (v_tasks v)) !! t = Some (Finished e) → v_tasks v !! t = Some (Finished e)) as Hi.
  { intros t e g1 g2 Hg1 Hg2 [[_ ->]|[_ [[_ ->]|[_ Ht]]%lookup_insert_Some]]%lookup_insert_Some; done. }
  destruct err as [e|].
  - split; simpl; try done; [intros; unfold server_done; simpl; by rewrite orb_true_r|by intros ret [= <-]; right|].
    intros _ Hs. exfalso. clear -Hsh Hs. set_solver.
  - simpl. destruct (v_kubernetes v); (split; simpl; [|..|done|done|done]);
      unfold server_done; simpl; rewrite ?orb_false_r; intros t; try intros e Ht; try intros Ht; apply Hi in Ht; eauto.
Qed.

Lemma end_inv_written err v :
  v_phase v = SAwaitingCertificates → shape_inv v → end_inv v → end_inv (server_written config err v).
Proof.
  intros Hp [Hsh _ _ _ _] [H1 H2 H3 H4 H5]. unfold server_written. rewrite Hp in Hsh. simpl in Hsh.
  assert (∀ t, v_tasks v !! t = Some (Finished None) → v_signalled v || bool_decide (is_Some (v_failed v)) = true) as Hn.
  { intros t Ht. apply H2 in Ht. unfold server_done in Ht. rewrite Hp in Ht. by rewrite orb_false_r in Ht. }
  destruct err as [e|].
  - split; simpl; try done; [intros; unfold server_done; simpl; by rewrite orb_true_r|by intros ret [= <-]; right|].
    intros _ Hs. exfalso. clear -Hsh Hs. set_solver.
  - assert (∀ (m : gmap task routine) t' g t e, finished g = false →
      <[t' := g]> m !! t = Some (Finished e) → m !! t = Some (Finished e)) as Hi.
    { intros m t' g t e Hg [[_ ->]|[_ Ht]]%lookup_insert_Some; done. }
    destruct (bool_decide (sc_MetricsPort _ ≠ _)), (bool_decide (sc_ProfilingPort _ ≠ _));
      (split; simpl; [|..|done|done|done]); unfold server_done; simpl; rewrite ?orb_false_r; intros t; try intros e Ht; try intros Ht;
      repeat (apply Hi in Ht; [|done]); eauto.
Qed.

Lemma server_end_inv_finished v :
  v_phase v = SRunning → map_Forall (λ _ g, finished g = true) (v_tasks v) → shape_inv v → end_inv v →
  end_inv (server_finished v).
Proof.
  intros Hp Hall [_ Hw _ _ _] [H1 H2 H3 H4 H5].
  assert (TWatchServers ∈ dom (v_tasks v)) as Hin by (apply Hw; rewrite Hp; by intros []).
  unfold server_finished. split; simpl; try done.
  - intros; unfold server_done; simpl; by rewrite orb_true_r.
  - destruct (v_failed v) as [e|] eqn:Hf; [done|]. intros _.
    assert (map_Forall (λ _ g, g = Finished None) (v_tasks v)) as Hclean.
    { intros t g Ht. pose proof (Hall t g Ht) as Hg. destruct g as [| | |[e|]]; try done. by destruct (H1 _ _ Ht). }
    split_and!; [|done|done]. apply elem_of_dom in Hin as [g Hg]. pose proof (Hclean _ _ Hg) as ->. apply H2 in Hg.
    unfold server_done in Hg. rewrite Hf, Hp in Hg. by destruct (v_signalled v).
  - destruct (v_failed v); intros ret [= <-]; auto.
  - destruct (v_failed v); [by eauto|done].
Qed.

#[local] Ltac end_task :=
  eapply end_inv_task; [eassumption|eassumption|reflexivity|reflexivity|background_task|reflexivity
    |first [exact (λ H, H)|by intros [? He]; simpl; rewrite He; eexists]
    |first [by intros ? [=]|intros ? [= ->]; simpl; destruct (v_failed _); by eexists]
    |first [by intros [=]|by intros _; assumption]].

(** A server of metrics or profiles returns once the context is done. *)
Lemma end_inv_http t g failed err v :
  v_tasks v !! t = Some g → (g = Serving ∧ failed = None ∨ ∃ e, g = Doomed e ∧ failed = Some e) →
  (if server_done v then Some failed else None) = Some err → end_inv v → end_inv (v_finish t err v).
Proof.
  intros Ht Hg Hr Hinv. destruct (server_done v) eqn:Hd; [|done]. injection Hr as <-.
  destruct Hg as [[-> ->]|(e & -> & ->)]; end_task.
Qed.

Lemma end_inv_step v v' : step v v' → shape_inv v → conn_inv v → end_inv v → end_inv v'.
Proof.
  intros Hstep Hshape Hconn Hinv. server_cases Hstep; try end_task; try (by eapply end_inv_frame; [exact Hinv|..]).
  - by apply end_inv_connected.
  - by apply end_inv_written.
  - by apply server_end_inv_finished.
  - unfold server_watch_servers in Hw. destruct (WatchServers _ _ _ _) as [[[c w] phase]|] eqn:Hws; [|done].
    injection Hw as <-. destruct phase as [| |err]; [end_task..|].
    apply WatchServers_returned in Hws as [e ->]. end_task.
  - destruct (ci_serving _ Hconn Ht) as (phase0 & Hph0 & Hne). rewrite Hph in Hph0. injection Hph0 as <-.
    unfold server_watch_state. destruct (watch_state _ _ _ _) as [c phase'] eqn:Hws.
    destruct phase' as [| |err]; [by eapply end_inv_frame; [exact Hinv|..]..|].
    apply watch_state_returned in Hws as [e ->]; [|done]. end_task.
  - unfold server_watch_done. destruct (watch_done _ _) as [w phase'].
    destruct phase' as [| |[e|]]; [by eapply end_inv_frame; [exact Hinv|..]..|end_task|end_task].
  - unfold server_manage in Hm. destruct (Manage _ _ _ _ _) as [[[c f] err]|]; [|done]. injection Hm as <-.
    destruct err; end_task.
  - destruct listen; end_task.
  - pose proof (background_start _ _ Ht Hk) as Hb. revert Hb. unfold server_start_controllers.
    destruct (k8s_Start k) as [k' [e|]]; intros Hb;
      (eapply end_inv_task; [exact Hinv|exact Ht|reflexivity|reflexivity|exact Hb|reflexivity|..]); try done;
      [by intros [? He]; simpl; rewrite He; eexists|intros ? _; simpl; destruct (v_failed v); by eexists].
  - by eapply end_inv_http.
  - by eapply end_inv_http.
Qed.

(** *** Reachable states *)

Record server_inv (w : W) v : Prop := {
  vi_shape : shape_inv v ∧ syncing_inv v;
  vi_operator : op_inv w v;
  vi_conn : conn_inv v;
  vi_certs : certs_inv v;
  vi_end : end_inv v
}.

Lemma server_inv_start k8s pki kv w f cache : server_inv w (start k8s pki kv w f cache).
Proof.
  split; [apply shape_start| |apply conn_start|apply certs_start|].
  - unfold server_start. destruct (registerSecretClients _ _ _); [destruct (k8s_New _)|]; by split.
  - unfold server_start. destruct (registerSecretClients _ _ _); [destruct (k8s_New _)|]; split; simpl; try done;
      try (intros t; rewrite ?lookup_empty; try done; intros; by simplify_map_eq);
      try (intros t e; rewrite ?lookup_empty; try done; intros; by simplify_map_eq);
      try (intros ret [= <-]; by right); rewrite ?dom_empty_L; by intros _ ?%not_elem_of_empty.
Qed.

Lemma server_inv_step w v v' : step v v' → server_inv w v → server_inv w v'.
Proof.
  intros Hstep [Hs Ho Hc Hv He]. split.
  - by apply (shape_step v).
  - by apply (op_inv_step w v); [..|apply Hs|].
  - by apply (conn_inv_step v).
  - by apply (certs_inv_step v); [..|apply Hs|].
  - by apply (end_inv_step v); [..|apply Hs| |].
Qed.

Lemma server_reachable k8s pki kv w f cache v :
  rtc step (start k8s pki kv w f cache) v → server_inv w v.
Proof.
  intros Hr. eapply (rtc_preserve _ (server_inv w)); [apply server_inv_step|exact Hr|apply server_inv_start].
Qed.

(** C14: nothing is served before everything is ready.  In every interleaving,
    once the SDS server or the controllers were launched: there is a client of
    Consul that works in the configured namespace with the announced token;
    the controllers have that client and the store; and every TLS handshake
    with the SDS server finds the certificate of the process, which matches
    its private key, and the pool of Consul's roots, and verifies the client
    against it. *)
Theorem server_serves_when_ready k8s pki kv w f cache v :
  rtc (server_step json_of_condition json_of_parent client resolver format_kinds config)
    (server_start config k8s pki kv w f cache) v →
  TSDS ∈ dom (v_tasks v) ∨ TController ∈ dom (v_tasks v) →
  (∃ cl, cl_client (v_client v) = Some cl ∧ serves (sc_ConsulClientConfig config) (Token (v_client v)) cl) ∧
  (∃ k, v_kubernetes v = Some k ∧ kb_consul k = true ∧ kb_store k = true) ∧
  ∃ cert key tls pool, cm_certificate (v_certs v) = Some cert ∧ cm_privateKey (v_certs v) = Some key ∧
    tls_X509KeyPair cert key = Ok tls ∧
    GetConfigForClient (v_certs v) = Ok (mkTLSConfig [tls] (Some pool) RequireAndVerifyClientCert).
Proof.
  intros [[Hsh _] _ Hc [Hci Hpool Hsig] _]%server_reachable Hserving.
  pose proof (sh_serving _ Hsh Hserving) as Hsync. split_and!.
  - destruct (ci_ready _ Hc Hsync) as [[phase Hph] Hclosed]. pose proof (ci_client _ Hc) as Hinv. rewrite Hph in Hinv.
    by apply (conn_ready _ _ _ Hinv).
  - by apply (sh_wired _ Hsh).
  - destruct Hci as [_ _ Hl Hready]. destruct (Hready (Hsig Hserving)) as (Hca & [cert Hcert] & _).
    destruct (Hpool Hca) as [pool Hp]. destruct Hl as [(Hn & _)|(cert' & key & tls & H1 & H2 & H3 & H4)]; [congruence|].
    exists cert', key, tls, pool. split_and!; [done|done|done|].
    unfold GetConfigForClient, TLSCertificate, RootPool. by rewrite H3, Hp.
Qed.

(** C18: the exit status of the controller is honest.  It only ever exits with
    0 or 1.  With 0 it exits only when it was told to stop, every routine of
    the group ended without an error and the connection to Consul was closed;
    with 1, once it had begun to serve, only because of an error of one of
    them. *)
Theorem server_exit_honest k8s pki kv w f cache v ret :
  rtc (server_step json_of_condition json_of_parent client resolver format_kinds config)
    (server_start config k8s pki kv w f cache) v →
  v_phase v = SExited ret →
  (ret = 0%Z ∨ ret = 1%Z) ∧
  (ret = 0%Z → v_signalled v = true ∧ map_Forall (λ _ g, g = Finished None) (v_tasks v) ∧
     v_watch v = Some (Returned None)) ∧
  (ret = 1%Z → TSDS ∈ dom (v_tasks v) → is_Some (v_failed v)).
Proof.
  intros [_ _ Hc _ [_ _ Hclean Hst Herr]]%server_reachable Hp. split_and!.
  - by apply Hst.
  - intros ->. destruct (Hclean Hp) as (Hs & Hall & Hin). split_and!; [done|done|].
    apply elem_of_dom in Hin as [g Hg]. apply (ci_finished _ Hc). rewrite Hg. f_equal. by apply (Hall _ _ Hg).
  - intros ->. by apply Herr.
Qed.

(** *** A failed server of metrics *)

(** Goroutines other than [t]. *)
Lemma other_kept t t' g g' v v' :
  v_tasks v' = <[t' := g']> (v_tasks v) → t' ≠ t → v_phase v' = v_phase v → v_phase v = SRunning →
  v_tasks v !! t = Some g → v_phase v' = SRunning ∧ v_tasks v' !! t = Some g.
Proof. intros Hv Hne Hp Hr Ht. rewrite Hp, Hv, lookup_insert_ne by done. done. Qed.

#[local] Ltac keep_task := eapply other_kept; [reflexivity|discriminate|reflexivity|done|done].

Lemma doomed_step cause v v' :
  step v v' → v_phase v = SRunning → v_tasks v !! TMetrics = Some (Doomed cause) → server_done v = false →
  v_phase v' = SRunning ∧ v_tasks v' !! TMetrics = Some (Doomed cause).
Proof.
  intros Hstep Hrun Hdoom Hlive. server_cases Hstep; try congruence; try done;
    try keep_task.
  - by specialize (Hall _ _ Hdoom).
  - unfold server_watch_servers in Hw. destruct (WatchServers _ _ _ _) as [[[c w] phase]|]; [|done]. injection Hw as <-.
    destruct phase; keep_task.
  - unfold server_watch_state. destruct (watch_state _ _ _ _) as [c phase'].
    destruct phase'; [done..|]. keep_task.
  - unfold server_manage in Hm. destruct (Manage _ _ _ _ _) as [[[c f] e]|]; [|done]. injection Hm as <-.
    destruct e; keep_task.
  - destruct listen; keep_task.
  - unfold server_start_controllers. destruct (k8s_Start k) as [k' [e|]];
      keep_task.
  - destruct Hor as [-> | ->]; [congruence|]. keep_task.
  - unfold metrics_RunServer in Hr. by rewrite Hlive in Hr.
Qed.

(** A server of metrics that fails goes unnoticed.  [metrics.RunServer]
    waits for the goroutine that shuts its server down before it returns, and
    that goroutine waits for the end of the process.  So when the server cannot
    listen, or stops serving, the error is not returned: as long as nothing
    else ends the process it runs on without metrics, and without a failure
    of the group. *)
Theorem metrics_failure_unnoticed cause v v' :
  v_phase v = SRunning → v_tasks v !! TMetrics = Some (Doomed cause) → server_done v = false →
  rtc (λ a b, server_step json_of_condition json_of_parent client resolver format_kinds config a b ∧
         server_done b = false) v v' →
  v_phase v' = SRunning ∧ v_tasks v' !! TMetrics = Some (Doomed cause) ∧ v_failed v' = None.
Proof.
  intros Hp Ht Hg Hr.
  set (doomed := λ v, v_phase v = SRunning ∧ v_tasks v !! TMetrics = Some (Doomed cause) ∧ server_done v = false).
  assert (doomed v') as (? & ? & Hd).
  { eapply (rtc_preserve _ doomed); [|exact Hr|by split_and!]. intros a b [Hs Hb] (H1 & H2 & H3).
    destruct (doomed_step _ _ _ Hs H1 H2 H3). by split_and!. }
  split_and!; [done|done|]. unfold server_done in Hd. destruct (v_failed v'); [|done].
  rewrite bool_decide_true, orb_true_r in Hd by by eexists. done.
Qed.

(** *** Shutting down *)

(** The states each goroutine goes through. *)
Definition fits (t : task) (g : routine) : bool :=
  match g, t with
  | Launched, (TSyncAll | TMetrics | TProfiling) => false
  | Doomed _, (TMetrics | TProfiling) => true
  | Doomed _, _ => false
  | _, _ => true
  end.

Definition fits_inv v : Prop := map_Forall (λ t g, fits t g = true) (v_tasks v).

#[local] Ltac fits := repeat (apply map_Forall_insert_2; [reflexivity|]); done.

Lemma fits_step v v' : step v v' → fits_inv v → fits_inv v'.
Proof.
  unfold fits_inv. intros Hstep Hinv. server_cases Hstep; simpl; try fits.
  - unfold server_connected. destruct err; [done|]. simpl. destruct (v_kubernetes v); simpl; fits.
  - unfold server_written. destruct err; [done|].
    destruct (bool_decide (sc_MetricsPort _ ≠ _)), (bool_decide (sc_ProfilingPort _ ≠ _)); simpl; fits.
  - unfold server_watch_servers in Hw. destruct (WatchServers _ _ _ _) as [[[c w] phase]|]; [|done]. injection Hw as <-.
    destruct phase; simpl; fits.
  - unfold server_watch_state. destruct (watch_state _ _ _ _) as [c phase']. destruct phase'; simpl; fits.
  - unfold server_watch_done. destruct (watch_done _ _) as [w phase']. destruct phase'; simpl; fits.
  - unfold server_manage in Hm. destruct (Manage _ _ _ _ _) as [[[c f] e]|]; [|done]. injection Hm as <-.
    destruct e; simpl; fits.
  - destruct listen; simpl; fits.
  - unfold server_start_controllers. destruct (k8s_Start k) as [k' [e|]]; simpl; fits.
  - destruct Hor as [-> | ->]; fits.
Qed.

(** A goroutine that serves can end. *)
Lemma stop_task t g v :
  conn_inv v → fits_inv v → server_done v = true → v_tasks v !! t = Some g → g = Serving ∨ (∃ e, g = Doomed e) →
  ∃ v' err, step v v' ∧ v_phase v' = v_phase v ∧ v_tasks v' = <[t := Finished err]> (v_tasks v).
Proof.
  intros Hc Hfit Hd Ht Hg. pose proof (Hfit t g Ht) as Hf.
  assert (∀ t, t ≠ TWatchServers → v_tasks v !! t = Some Serving →
    ∃ v' err, step v v' ∧ v_phase v' = v_phase v ∧ v_tasks v' = <[t := Finished err]> (v_tasks v)) as Hserving.
  { intros t1 Hne Hs. exists (v_finish t1 None v), None. split; [|done]. destruct t1; [done|..].
    - by apply VSyncAllDone.
    - by apply VManageDone.
    - by apply VSdsDone.
    - by apply VControllerDone.
    - eapply (VMetricsReturn _ _ _ _ _ _ Serving None); [done|by left|]. unfold metrics_RunServer. by rewrite Hd.
    - eapply (VProfilingReturn _ _ _ _ _ _ Serving None); [done|by left|]. unfold profiling_RunServer. by rewrite Hd. }
  destruct Hg as [->|[e ->]].
  - destruct (decide (t = TWatchServers)) as [->|Hne]; [|by apply Hserving].
    destruct (ci_serving _ Hc Ht) as (phase & Hph & Hnr).
    exists (server_watch_done phase v), None. split; [by apply VWatchDone|]. unfold server_watch_done.
    destruct phase as [[[base token]|]| |err]; [done..|]. by destruct (Hnr err).
  - exists (v_finish t (Some e) v), (Some e). split; [|done]. destruct t; try done.
    + eapply (VMetricsReturn _ _ _ _ _ _ (Doomed e) (Some e)); [done|right; by eexists|].
      unfold metrics_RunServer. by rewrite Hd.
    + eapply (VProfilingReturn _ _ _ _ _ _ (Doomed e) (Some e)); [done|right; by eexists|].
      unfold profiling_RunServer. by rewrite Hd.
Qed.

(** A goroutine that was launched serves or ends. *)
Lemma run_task t v :
  shape_inv v → conn_inv v → fits_inv v → TSyncAll ∈ dom (v_tasks v) → v_tasks v !! t = Some Launched →
  ∃ v' g, step v v' ∧ v_phase v' = v_phase v ∧ v_tasks v' = <[t := g]> (v_tasks v) ∧
    (g = Serving ∨ ∃ err, g = Finished err).
Proof.
  intros Hsh Hc Hfit Hsync Ht. pose proof (Hfit t _ Ht) as Hf. destruct t; try done.
  - destruct (ci_ready _ Hc Hsync) as [[phase Hph] _]. by rewrite (ci_launched _ Hc Ht) in Hph.
  - set (e := ErrString "invalid watch"). eexists _, (Finished (Some e)).
    split; [eapply (VManage _ _ _ _ _ _ (Err e) (Ok tt) (Ok None)); [done|reflexivity]|].
    split_and!; [done|done|right; by eexists].
  - exists (server_listen None v), Serving. split; [by apply VListen|]. split_and!; [done|done|by left].
  - destruct (sh_wired _ Hsh Hsync) as (k & Hk & _). exists (server_start_controllers k v).
    pose proof (VStart json_of_condition json_of_parent client resolver format_kinds config k v Ht Hk) as Hstep.
    unfold server_start_controllers in *. destruct (k8s_Start k) as [k' [e|]].
    + exists (Finished (Some e)). split_and!; [done..|right; by eexists].
    + exists Serving. split_and!; [done..|by left].
Qed.

(** The main function waits for a group that is told to end. *)
Record closing (w : W) v : Prop := {
  cg_inv : server_inv w v;
  cg_fits : fits_inv v;
  cg_phase : v_phase v = SRunning;
  cg_done : server_done v = true
}.

Lemma closing_step w v v' : step v v' → v_phase v' = SRunning → closing w v → closing w v'.
Proof.
  intros Hstep Hp' [H1 H2 H3 H4]. split; [by eapply server_inv_step|by eapply fits_step|done|].
  apply step_cases in Hstep as [(Hp & _)|[(Hp & _)|[(_ & _ & ->)|Hb]]]; [congruence|congruence|done|].
  by apply (bg_done _ _ Hb).
Qed.

(** The goroutine has ended, if there is one. *)
Definition ended (t : task) v : Prop := ∀ g, v_tasks v !! t = Some g → finished g = true.

Lemma ended_insert t t' g v v' :
  v_tasks v' = <[t := g]> (v_tasks v) → (t' = t → finished g = true) → ended t' v → ended t' v'.
Proof.
  intros Hv Hg He g'. rewrite Hv. intros [[-> <-]|[_ Ht]]%lookup_insert_Some; [by apply Hg|by apply He].
Qed.

Lemma finish_serving t g w v :
  closing w v → v_tasks v !! t = Some g → g = Serving ∨ (∃ e, g = Doomed e) →
  ∃ v', step v v' ∧ closing w v' ∧ ended t v' ∧ ∀ t', ended t' v → ended t' v'.
Proof.
  intros Hcl Ht Hg. pose proof Hcl as [[_ _ Hc _ _] Hfit Hp Hd].
  destruct (stop_task t g v Hc Hfit Hd Ht Hg) as (v' & err & Hs & Hp' & Hv). exists v'. split_and!; [done| | |].
  - eapply closing_step; [exact Hs|congruence|done].
  - intros g'. rewrite Hv, lookup_insert_eq. by intros [= <-].
  - intros t'. by eapply ended_insert.
Qed.

Lemma finish_task t w v :
  closing w v → ∃ v', rtc step v v' ∧ closing w v' ∧ ended t v' ∧ ∀ t', ended t' v → ended t' v'.
Proof.
  intros Hcl. destruct (v_tasks v !! t) as [g|] eqn:Ht.
  2:{ exists v. split_and!; [done|done|intros g; by rewrite Ht|done]. }
  destruct g as [| |e|err].
  - pose proof Hcl as [[[Hsh Hsync] _ Hc _ _] Hfit Hp Hd].
    destruct (run_task t v Hsh Hc Hfit (Hsync ltac:(by right)) Ht) as (v1 & g & Hs & Hp1 & Hv1 & Hg).
    assert (closing w v1) as Hcl1 by (eapply closing_step; [exact Hs|congruence|done]).
    assert (v_tasks v1 !! t = Some g) as Ht1 by by rewrite Hv1, lookup_insert_eq.
    assert (∀ t', ended t' v → ended t' v1) as Hkeep.
    { intros t' He. eapply ended_insert; [exact Hv1| |exact He]. intros ->. by apply He in Ht. }
    destruct Hg as [->|[err ->]].
    + destruct (finish_serving t Serving w v1 Hcl1 Ht1 ltac:(by left)) as (v2 & Hs2 & Hcl2 & He & Hk2).
      exists v2. split_and!; [by eapply rtc_l, rtc_once|done|done|]. intros t' Ht'. by apply Hk2, Hkeep.
    + exists v1. split_and!; [by apply rtc_once|done| |done]. intros g'. rewrite Ht1. by intros [= <-].
  - destruct (finish_serving t Serving w v Hcl Ht ltac:(by left)) as (v2 & Hs2 & Hcl2 & He & Hk2).
    exists v2. split_and!; [by apply rtc_once|done..].
  - destruct (finish_serving t (Doomed e) w v Hcl Ht ltac:(right; by eexists)) as (v2 & Hs2 & Hcl2 & He & Hk2).
    exists v2. split_and!; [by apply rtc_once|done..].
  - exists v. split_and!; [done|done| |done]. intros g. rewrite Ht. by intros [= <-].
Qed.

Lemma finish_tasks (ts : list task) w v :
  closing w v → ∃ v', rtc step v v' ∧ closing w v' ∧ ∀ t, t ∈ ts ∨ ended t v → ended t v'.
Proof.
  revert v. induction ts as [|t ts IH]; intros v Hcl.
  { exists v. split_and!; [done|done|]. by intros t [?%not_elem_of_nil|]. }
  destruct (finish_task t w v Hcl) as (v1 & Hr1 & Hcl1 & He & Hk). destruct (IH v1 Hcl1) as (v2 & Hr2 & Hcl2 & Hall).
  exists v2. split_and!; [by etrans|done|]. intros t' [[->|Hin]%elem_of_cons|Ht'].
  - apply Hall. by right.
  - apply Hall. by left.
  - apply Hall. right. by apply Hk.
Qed.

Lemma fits_start k8s pki kv w f cache : fits_inv (start k8s pki kv w f cache).
Proof.
  unfold fits_inv, server_start. destruct (registerSecretClients _ _ _); [destruct (k8s_New _)|]; simpl;
    try apply map_Forall_empty. by apply map_Forall_singleton.
Qed.

(** C37: the controller can always be stopped.  In every interleaving, once the
    main function waits for its goroutines and the group is told to end, by a
    signal or the error of a member, all of them can end, whatever state they
    are in, and the process exits. *)
Theorem server_can_stop k8s pki kv w f cache v :
  rtc (server_step json_of_condition json_of_parent client resolver format_kinds config)
    (server_start config k8s pki kv w f cache) v →
  v_phase v = SRunning → server_done v = true →
  ∃ v' ret, rtc (server_step json_of_condition json_of_parent client resolver format_kinds config) v v' ∧
    v_phase v' = SExited ret ∧ map_Forall (λ _ g, finished g = true) (v_tasks v').
Proof.
  intros Hr Hp Hd. assert (closing w v) as Hcl.
  { split; [by eapply server_reachable| |done|done].
    eapply (rtc_preserve _ fits_inv); [apply fits_step|exact Hr|apply fits_start]. }
  destruct (finish_tasks [TWatchServers; TSyncAll; TManage; TSDS; TController; TMetrics; TProfiling] w v Hcl)
    as (v1 & Hr1 & [_ _ Hp1 _] & Hall).
  assert (map_Forall (λ _ g, finished g = true) (v_tasks v1)) as Hfin.
  { intros t g. apply Hall. left. destruct t; set_solver. }
  exists (server_finished v1), (match v_failed v1 with Some _ => 1 | None => 0 end)%Z.
  split_and!; [|done|done]. eapply rtc_r; [exact Hr1|by apply VFinished].
Qed.

End properties.

(** *** The operator in the process *)

Section composed.
Context {JT : JsonText} {LJ : LawfulJsonText} {MF : MultierrorFormat} {MR : MapRange} {NU : NetURL}.
Context {SCH : Scheduler} {EN : Environment} {KJ : KubernetesJson} {LK : LawfulKubernetesJson}.
Context {LS : LabelSelectors} {TP : TLSParsing} {RB : RetryBackoff} {CT : ControllerRuntime} {W F C : Type}.
Context {AD : SyncAdapters W} {AP : ApiServer W} {CN : ConsulNamespaces W} {CR : ClusterReads W} {TR : TypedReads W}.
Context {CL : Clock W} {API : ConsulAPI W} {FS : FileSystem F} {CA : SecretCaches C}.
Context (json_of_condition : Condition → string) (json_of_parent : RouteParentStatus → string).
Context (client : Client) (resolver : W → BackendResolver) (format_kinds : list RouteGroupKind → string).
Context (config : ServerConfig).

(** C13: the process is the operator.  Whatever the goroutines of the process
    do, in whatever order, its manager and store only go through the steps of
    the operator, with the encoding, the binder and the status updater that
    [StoreConfig] puts together: so the invariants of the manager hold, the
    store is consistent, and the cached classes are protected.  Until the
    controllers run, nothing is stored, tracked or cached. *)
Theorem server_refines_operator k8s pki kv (w : W) (f : F) (cache : C) v :
  rtc (server_step json_of_condition json_of_parent client resolver format_kinds config)
    (server_start config k8s pki kv w f cache) v →
  rtc (operator_step client (server_updater json_of_condition json_of_parent client config) resolver format_kinds
         ControllerName (mapper config)) (new_manager w) (v_manager v) ∧
  manager_inv client (mapper config) (v_manager v) ∧
  (∀ name c, m_gatewayClasses (v_manager v) !! name = Some c → protected ControllerName (kgc_class c)) ∧
  (v_tasks v !! TController = None → pristine (v_manager v)).
Proof using Type LJ LK TR.
  intros Hr%server_reachable. destruct (vi_operator _ _ _ _ _ _ _ _ Hr) as [Hop Hpr _].
  destruct (operator_reachable client _ resolver format_kinds ControllerName (mapper config) _ _ Hop) as [Hall Hsteps];
    [apply map_Forall_empty|].
  split_and!; [exact Hop| |by intros name c Hc; apply Hall in Hc as [_ ?]|intros Hn; apply Hpr; intros g; by rewrite Hn].
  by apply (reachable_manager_inv client) in Hsteps.
Qed.

End composed.

(** ** Examples *)

Module ServerExamples.

#[export] Existing Instance JsonCoding.coded_text.
#[export] Existing Instance JsonCoding.coded_lawful.
#[export] Existing Instance canonical_range.
#[export] Existing Instance plain_url.
#[export] Existing Instance StoreExamples.in_order.
#[export] Existing Instance BuilderExamples.environment.
#[export] Existing Instance CodecExamples.plain_kubernetes.
#[export] Existing Instance CodecExamples.plain_kubernetes_lawful.
#[export] Existing Instance BinderExamples.no_selectors.
#[export] Existing Instance CertExamples.plain_tls.
#[export] Existing Instance CertExamples.memory_files.
#[export] Existing Instance RegistrationExamples.direct_retry.
#[export] Existing Instance ManagerExamples.accepting.
#[export] Existing Instance DeployerExamples.no_namespaces.
#[export] Existing Instance ControllerExamples.stored_reads.
#[export] Existing Instance ControllerExamples.no_routes_typed.
#[export] Existing Instance ClassExamples.stopped_clock.
#[export] Existing Instance SecretExamples.set_cache.

#[export] Program Instance cluster_api : ConsulAPI cluster := {|
  api_Client := api_Config;
  client_config := id;
  api_NewClient _ cfg := (cfg, Ok cfg);
  ACL_Login _ _ _ w := (w, Ok "secret");
  ACL_Logout _ _ w := (w, None)
|}.
Next Obligation. by intros w cfg cfg' cl [= <- <-]. Qed.
Next Obligation. by intros w cfg cfg' r [= <- _]. Qed.

#[export] Instance listed_controllers : ControllerRuntime := {|
  ctrl_Manager := list controller;
  ctrl_NewManager _ := Ok [];
  AddHealthzCheck _ m := (m, None);
  AddReadyzCheck _ m := (m, None);
  SetupWithManager c m := (m ++ [c], None)
|}.

Definition json_of_condition (_ : Condition) : string := "".
Definition json_of_parent (_ : RouteParentStatus) : string := "".

Definition config : ServerConfig :=
  mkServerConfig
    (mkClientConfig "controller" "team" ConnectionExamples.api_config false false "consul.local" 8501 8502 None
       (CredentialsStatic "token"))
    k8s_Defaults 0 9102 "" false.

(** A class of this controller in the cluster. *)
Definition class : GatewayClass :=
  mkGatewayClass (mkObjectMeta "class" "" "uid" 1 "5" 0 ∅ ∅ [] [gatewayClassFinalizer] None) ControllerName None [].
Definition world : cluster := ControllerExamples.cluster_with [ObjGatewayClass class].

Definition state : Type := server (W:=cluster) (F:=gmap string string) (C:=gset string).
Definition v0 : state :=
  server_start config (Ok SecretExamples.serving) (Ok SecretExamples.serving) (Ok SecretExamples.serving) world ∅ ∅.
Definition v1 : state := default v0 (server_watch_servers (λ _, Ok tt) (Err (ErrString "no state")) v0).
Definition v2 : state :=
  server_connected json_of_condition json_of_parent BinderExamples.bare_client config None (v_client v1) v1.
Definition v3 : state := default v2 (server_manage (Ok tt) (Ok tt) (Ok (Some (mkLeafCert "cert" "key"))) v2).
Definition root : CertManager * gmap string string :=
  default (v_certs v3, v_files v3) (handleRootWatch CertExamples.roots (v_certs v3) (v_files v3)).
Definition v4 : state := v_set_certs root.1 root.2 v3.
(** The process serves. *)
Definition v5 : state := server_written config None v4.
Definition v6 : state := server_listen None v5.
Definition v7 : state := from_option (λ k, server_start_controllers k v6) v6 (v_kubernetes v6).

Abbreviation step := (server_step (F:=gmap string string) (C:=gset string) json_of_condition json_of_parent
  BinderExamples.bare_client ManagerExamples.echo ManagerExamples.kinds config).

Lemma server_running : rtc step v0 v5 ∧ v_phase v5 = SRunning ∧ TSDS ∈ dom (v_tasks v5).
Proof.
  split; [|split; [reflexivity|by apply elem_of_dom; eexists]].
  apply (rtc_l _ _ v1); [by apply (VWatchServers _ _ _ _ _ _ (λ _, Ok tt) (Err (ErrString "no state")) v0 v1)|].
  apply (rtc_l _ _ v2); [apply (VConnected _ _ _ _ _ _ false None (v_client v1) v1); [reflexivity|by left]|].
  apply (rtc_l _ _ v3); [by apply (VManage _ _ _ _ _ _ (Ok tt) (Ok tt) (Ok (Some (mkLeafCert "cert" "key"))) v2 v3)|].
  apply (rtc_l _ _ v4); [by apply (VRootWatch _ _ _ _ _ _ CertExamples.roots root.1 root.2 v3)|].
  apply (rtc_l _ _ v5); [|apply rtc_refl].
  apply (VWritten _ _ _ _ _ _ false None v4); [reflexivity|by left].
Qed.

Lemma serving : rtc step v0 v7 ∧ v_tasks v7 !! TController = Some Serving.
Proof.
  split; [|reflexivity]. etransitivity; [apply server_running|].
  apply (rtc_l _ _ v6); [by apply VListen|]. apply (rtc_l _ _ v7); [|apply rtc_refl].
  by eapply VStart.
Qed.

(** The process is told to stop, and stops. *)
Definition v8 : state := v_signal v7.
Definition v9 : state := server_watch_done (Watching None) v8.
Definition v10 : state := v_finish TManage None (v_finish TSyncAll None v9).
Definition v11 : state := v_finish TController None (v_finish TSDS None v10).
Definition v12 : state := v_finish TMetrics None v11.
Definition v13 : state := server_finished v12.

Lemma server_stopped : rtc step v0 v13 ∧ v_phase v13 = SExited 0.
Proof.
  split; [|reflexivity]. etransitivity; [apply serving|].
  apply (rtc_l _ _ v8); [apply VSignal|]. apply (rtc_l _ _ v9); [by apply VWatchDone|].
  apply (rtc_l _ _ (v_finish TSyncAll None v9)); [by apply VSyncAllDone|].
  apply (rtc_l _ _ v10); [by apply VManageDone|].
  apply (rtc_l _ _ (v_finish TSDS None v10)); [by apply VSdsDone|].
  apply (rtc_l _ _ v11); [by apply VControllerDone|].
  apply (rtc_l _ _ v12); [apply (VMetricsReturn _ _ _ _ _ _ Serving None None v11); [reflexivity|by left|reflexivity]|].
  apply (rtc_l _ _ v13); [|apply rtc_refl]. apply VFinished; [reflexivity|].
  by apply (map_Forall_to_list _), (Forall_forall _); intros [t g]; vm_compute; set_solver.
Qed.

#[local] Instance bare_binders : Binders K8sGateway K8sRoute := k8s_binders BinderExamples.bare_client.

(** The class of the cluster is reconciled. *)
Definition reconciled_class : option (@manager (memoryBackend string) cluster * (Z * option error)) :=
  NewRequeueingMiddleware (Reconcile (server_updater json_of_condition json_of_parent BinderExamples.bare_client config)
    ManagerExamples.echo ManagerExamples.kinds ControllerName (mapper config) CGatewayClass)
    (mkNamespacedName "" "class") (v_manager v7).

Lemma class_cached : ∃ m, rtc step v0 (v_set_manager m v7) ∧ is_Some (m_gatewayClasses m !! "class").
Proof.
  assert (match reconciled_class with
          | Some (m, _) => bool_decide (is_Some (m_gatewayClasses m !! "class")) | None => false end = true) as Hok
    by (vm_compute; reflexivity).
  destruct reconciled_class as [[m res]|] eqn:Hr; [|discriminate Hok]. exists m. apply bool_decide_eq_true in Hok.
  split; [|exact Hok]. eapply rtc_r; [apply serving|]. by eapply VReconcile; [|exact Hr].
Qed.

End ServerExamples.

Import (hints) ServerExamples.

Lemma server_serves_when_ready_witness :
  TSDS ∈ dom (v_tasks ServerExamples.v5) ∧
  ∃ tls pool, GetConfigForClient (v_certs ServerExamples.v5)
    = Ok (mkTLSConfig [tls] (Some pool) RequireAndVerifyClientCert).
Proof.
  destruct ServerExamples.server_running as (Hr & _ & Hin). split; [exact Hin|].
  destruct (server_serves_when_ready _ _ _ _ _ _ _ _ _ _ _ _ _ Hr (or_introl Hin))
    as (_ & _ & cert & key & tls & pool & _ & _ & _ & Hget).
  exists tls, pool. exact Hget.
Defined.

Lemma server_exit_honest_witness :
  v_phase ServerExamples.v13 = SExited 0 ∧ v_signalled ServerExamples.v13 = true ∧
  v_watch ServerExamples.v13 = Some (Returned None).
Proof.
  destruct ServerExamples.server_stopped as [Hr Hp]. split; [exact Hp|].
  destruct (server_exit_honest _ _ _ _ _ _ _ _ _ _ _ _ _ _ Hr Hp) as (_ & Hclean & _).
  destruct (Hclean eq_refl) as (Hs & _ & Hw). split; [exact Hs|exact Hw].
Defined.

Lemma server_can_stop_witness :
  ∃ v' ret, rtc ServerExamples.step (v_signal ServerExamples.v5) v' ∧ v_phase v' = SExited ret.
Proof.
  destruct ServerExamples.server_running as (Hr & Hp & _).
  destruct (server_can_stop ServerExamples.json_of_condition ServerExamples.json_of_parent BinderExamples.bare_client
    ManagerExamples.echo ManagerExamples.kinds ServerExamples.config _ _ _ _ _ _ (v_signal ServerExamples.v5)
    (rtc_r _ _ _ Hr (VSignal _ _ _ _ _ _ _)) Hp eq_refl) as (v' & ret & Hs & He & _).
  exists v', ret. split; [exact Hs|exact He].
Defined.

(** The port of the metrics is taken. *)
Lemma metrics_failure_unnoticed_witness :
  let taken := ErrString "address already in use" in
  let v := v_set_task TMetrics (Doomed taken) ServerExamples.v5 in
  ServerExamples.step ServerExamples.v5 v ∧
  v_phase (server_listen None v) = SRunning ∧ v_failed (server_listen None v) = None.
Proof.
  intros taken v. split; [apply VHttpFailed; [by left|reflexivity]|].
  destruct (metrics_failure_unnoticed ServerExamples.json_of_condition ServerExamples.json_of_parent
    BinderExamples.bare_client ManagerExamples.echo ManagerExamples.kinds ServerExamples.config taken v
    (server_listen None v) eq_refl eq_refl eq_refl) as (Hp & _ & Hf).
  - apply rtc_once. split; [by apply VListen|reflexivity].
  - split; [exact Hp|exact Hf].
Defined.

Lemma server_refines_operator_witness :
  ∃ m : @manager (memoryBackend string) cluster, (∃ c, m_gatewayClasses m !! "class" = Some c ∧ protected ControllerName (kgc_class c)) ∧
    manager_inv BinderExamples.bare_client (mapper ServerExamples.config) m.
Proof.
  destruct ServerExamples.class_cached as (m & Hr & [c Hc]). exists m.
  destruct (server_refines_operator _ _ _ _ _ _ _ _ _ _ _ _ _ Hr) as (_ & Hinv & Hprot & _).
  split; [|exact Hinv]. exists c. split; [exact Hc|exact (Hprot "class" c Hc)].
Defined.
