(* ===== verification/GoFragment.v ===== *)
(** * The Go that the generators write

    [internal/k8s/reconciler/status/generator.go] prints Go source.  This file
    has the part of Go that its template uses: the syntax, what the compiler
    demands of it ([go_compiles]: names declared once and resolved, expressions
    of the right types, bodies that return, imports that are used, comments
    that end where they should) and how it runs ([run_method]).  Running is
    partial: [None] where a program that does not compile would be stuck.
    Identifiers are restricted to ASCII. *)

From S2P Require Import Prelude Errors Json K8s.

(** ** Syntax *)

Inductive GoType : Type :=
  | TString
  | TError
  | TBool
  | TCondition
  | TConditionStatus
  | TConditions
  | TJson                      (* [([]byte, error)] of [MarshalJSON] *)
  | TNamed (name : string).

#[export] Instance GoType_eq_dec : EqDecision GoType.
Proof. solve_decision. Defined.

(** [EMissing] is an expression that the template leaves out. *)
Inductive GoExpr : Type :=
  | EMissing
  | EField (f : string)                      (* [s.f] *)
  | EText (f : string)                       (* [s.f.Error()] *)
  | EMethod (f m : string) (generation : bool) (* [s.f.m(generation)] or [s.f.m()] *)
  | EString (lit : string)
  | ENil
  | EConst (c : string)
  | ENotEqual (a b : GoExpr)
  | EOr (a b : GoExpr)
  | EBool (b : bool)
  | EMeta (b : bool)                         (* [meta.ConditionTrue], [meta.ConditionFalse] *)
  | ECondition (type status reason message : GoExpr)
  | EData (key : string)                     (* [data[key]] *)
  | EErr                                     (* the variable [err] *)
  | EErrorsNew (e : GoExpr).

Inductive GoStmt : Type :=
  | SReturn (e : GoExpr)
  | SReturnConditions (es : list GoExpr)     (* [return []meta.Condition{...}] *)
  | SReturnMarshal                           (* [return json.Marshal(data)] *)
  | SReturnNil                               (* [return nil], an error *)
  | SIf (c : GoExpr) (body : GoStmt)
  | SNewData                                 (* [data := map[string]string{}] *)
  | SSetData (key : string) (e : GoExpr)
  | SUnmarshalData      (* [if err := json.Unmarshal(b, &data); err != nil { return err }] *)
  | SIfData (key : string) (body : GoStmt)   (* [if err, ok := data[key]; ok { ... }] *)
  | SSetField (f : string) (e : GoExpr).

Inductive GoParams : Type := NoParams | Generation | Bytes.

#[export] Instance GoParams_eq_dec : EqDecision GoParams.
Proof. solve_decision. Defined.

Record GoField : Type := mkGoField {
  gf_doc : string;
  gf_name : string;
  gf_type : GoType
}.

Record GoMethod : Type := mkGoMethod {
  gm_doc : string;
  gm_recv : string;
  gm_pointer : bool;
  gm_name : string;
  gm_params : GoParams;
  gm_result : GoType;
  gm_body : list GoStmt
}.

Inductive GoDecl : Type :=
  | DImport (path : string)
  | DType (doc name : string) (fields : list GoField)
  | DConst (doc name value : string)
  | DMethod (m : GoMethod).

(** ** Declarations *)

Definition types_of (prog : list GoDecl) : list (string * list GoField) :=
  omap (λ d, match d with DType _ n fs => Some (n, fs) | _ => None end) prog.
Definition consts_of (prog : list GoDecl) : list (string * string) :=
  omap (λ d, match d with DConst _ n v => Some (n, v) | _ => None end) prog.
Definition methods_of (prog : list GoDecl) : list ((string * string) * GoMethod) :=
  omap (λ d, match d with DMethod m => Some ((gm_recv m, gm_name m), m) | _ => None end) prog.

Fixpoint assoc `{EqDecision K} {V} (k : K) (l : list (K * V)) : option V :=
  match l with
  | [] => None
  | (k', v) :: l => if decide (k = k') then Some v else assoc k l
  end.

Definition field_types (fs : list GoField) : list (string * GoType) :=
  (λ f, (gf_name f, gf_type f)) <$> fs.
Definition field_type (prog : list GoDecl) (T f : string) : option GoType :=
  fs ← assoc T (types_of prog); assoc f (field_types fs).

(** ** What the compiler demands *)

Definition is_letter (c : ascii) : bool :=
  let n := nat_of_ascii c in
  ((65 <=? n) && (n <=? 90)) || ((97 <=? n) && (n <=? 122)) || (n =? 95).
Definition is_alnum (c : ascii) : bool :=
  let n := nat_of_ascii c in is_letter c || ((48 <=? n) && (n <=? 57)).

Definition go_keywords : list string :=
  ["break"; "case"; "chan"; "const"; "continue"; "default"; "defer"; "else";
   "fallthrough"; "for"; "func"; "go"; "goto"; "if"; "import"; "interface"; "map";
   "package"; "range"; "return"; "select"; "struct"; "switch"; "type"; "var"].

Definition is_identifier (s : string) : bool :=
  match String.list_ascii_of_string s with
  | [] => false
  | c :: cs =>
      is_letter c && forallb is_alnum cs &&
      negb (bool_decide (s = "_")) && negb (bool_decide (s ∈ go_keywords))
  end.

Definition newline : ascii := Ascii.ascii_of_nat 10.

(** Characters that may stand for themselves between double quotes. *)
Definition plain_char (c : ascii) : bool :=
  negb (Ascii.eqb c quote_char) && negb (Ascii.eqb c backslash_char) && negb (Ascii.eqb c newline).
Definition plain_literal (s : string) : bool := forallb plain_char (String.list_ascii_of_string s).

(** Nothing but line comments. *)
Definition comment_ok (doc : string) : bool :=
  bool_decide (doc = "") || forallb (λ l, strings_HasPrefix l "//") (strings_Split newline doc).

Record Scope : Type := mkScope {
  sc_recv : string;
  sc_params : GoParams;
  sc_data : bool;
  sc_err : bool
}.

Section checker.
Context (prog : list GoDecl).

Fixpoint type_expr (sc : Scope) (e : GoExpr) : option GoType :=
  match e with
  | EMissing => None
  | EField f => field_type prog (sc_recv sc) f
  | EText f =>
      match field_type prog (sc_recv sc) f with Some TError => Some TString | _ => None end
  | EMethod f m generation =>
      match field_type prog (sc_recv sc) f with
      | Some (TNamed T) =>
          md ← assoc (T, m) (methods_of prog);
          if bool_decide (gm_params md = (if generation : bool then Generation else NoParams)) &&
             (negb generation || bool_decide (sc_params sc = Generation))
          then Some (gm_result md) else None
      | _ => None
      end
  | EString lit => if plain_literal lit then Some TString else None
  | ENil => Some TError
  | EConst c => (λ _, TString) <$> assoc c (consts_of prog)
  | ENotEqual a b =>
      match type_expr sc a, type_expr sc b with
      | Some TString, Some TString | Some TError, Some TError => Some TBool
      | _, _ => None
      end
  | EOr a b =>
      match type_expr sc a, type_expr sc b with
      | Some TBool, Some TBool => Some TBool
      | _, _ => None
      end
  | EBool _ => Some TBool
  | EMeta _ => Some TConditionStatus
  | ECondition ty st reason message =>
      match type_expr sc ty, type_expr sc st, type_expr sc reason, type_expr sc message with
      | Some TString, Some TConditionStatus, Some TString, Some TString =>
          if decide (sc_params sc = Generation) then Some TCondition else None
      | _, _, _, _ => None
      end
  | EData k => if sc_data sc && plain_literal k then Some TString else None
  | EErr => if sc_err sc then Some TString else None
  | EErrorsNew e => match type_expr sc e with Some TString => Some TError | _ => None end
  end.

(** The scope after the statement, when it is well formed. *)
Fixpoint check_stmt (result : GoType) (sc : Scope) (s : GoStmt) : option Scope :=
  match s with
  | SReturn e => if decide (type_expr sc e = Some result) then Some sc else None
  | SReturnConditions es =>
      if bool_decide (result = TConditions) &&
         forallb (λ e, bool_decide (type_expr sc e = Some TCondition)) es
      then Some sc else None
  | SReturnMarshal => if bool_decide (result = TJson) && sc_data sc then Some sc else None
  | SReturnNil => if decide (result = TError) then Some sc else None
  | SIf c body =>
      if decide (type_expr sc c = Some TBool) then _ ← check_stmt result sc body; Some sc else None
  | SNewData =>
      if sc_data sc then None else Some (mkScope (sc_recv sc) (sc_params sc) true (sc_err sc))
  | SSetData k e =>
      if sc_data sc && plain_literal k && bool_decide (type_expr sc e = Some TString)
      then Some sc else None
  | SUnmarshalData =>
      if sc_data sc && bool_decide (sc_params sc = Bytes) && bool_decide (result = TError)
      then Some sc else None
  | SIfData k body =>
      if sc_data sc && plain_literal k then
        _ ← check_stmt result (mkScope (sc_recv sc) (sc_params sc) true true) body; Some sc
      else None
  | SSetField f e =>
      match field_type prog (sc_recv sc) f with
      | Some t => if decide (type_expr sc e = Some t) then Some sc else None
      | None => None
      end
  end.

Fixpoint check_body (result : GoType) (sc : Scope) (body : list GoStmt) : bool :=
  match body with
  | [] => true
  | s :: body =>
      match check_stmt result sc s with Some sc => check_body result sc body | None => false end
  end.

Definition is_return (s : GoStmt) : bool :=
  match s with SReturn _ | SReturnConditions _ | SReturnMarshal | SReturnNil => true | _ => false end.

(** A function with a result ends in a return. *)
Definition ends_in_return (body : list GoStmt) : bool :=
  match last body with Some s => is_return s | None => false end.

Fixpoint stmt_imports (s : GoStmt) : list string :=
  match s with
  | SReturnMarshal | SUnmarshalData => ["encoding/json"]
  | SSetField _ (EErrorsNew _) => ["errors"]
  | SReturnConditions _ => ["meta"]
  | SReturn (ECondition _ _ _ _) => ["meta"]
  | SIf _ body | SIfData _ body => stmt_imports body
  | _ => []
  end.
Definition decl_imports (d : GoDecl) : list string :=
  match d with DMethod m => flat_map stmt_imports (gm_body m) | _ => [] end.

(** Fields and methods of a type share one name space. *)
Definition selectors (T : string) (fs : list GoField) : list string :=
  (gf_name <$> fs) ++ (snd <$> filter (λ k, k.1 = T) ((methods_of prog).*1)).

Definition field_ok (f : GoField) : bool :=
  comment_ok (gf_doc f) && is_identifier (gf_name f) &&
  match gf_type f with
  | TNamed T => bool_decide (is_Some (assoc T (types_of prog)))
  | _ => true
  end.

Definition decl_ok (d : GoDecl) : bool :=
  match d with
  | DImport path => bool_decide (path ∈ flat_map decl_imports prog)
  | DType doc name fs =>
      comment_ok doc && is_identifier name && forallb field_ok fs &&
      bool_decide (NoDup (selectors name fs))
  | DConst doc name value => comment_ok doc && is_identifier name && plain_literal value
  | DMethod m =>
      comment_ok (gm_doc m) && is_identifier (gm_name m) &&
      bool_decide (is_Some (assoc (gm_recv m) (types_of prog))) &&
      check_body (gm_result m) (mkScope (gm_recv m) (gm_params m) false false) (gm_body m) &&
      ends_in_return (gm_body m)
  end.

Definition package_names : list string := (types_of prog).*1 ++ (consts_of prog).*1.

Definition go_compiles : bool :=
  bool_decide (NoDup package_names) && bool_decide (NoDup (methods_of prog).*1) &&
  forallb decl_ok prog.
End checker.

(** ** How it runs *)

Inductive FieldVal : Type :=
  | FString (s : string)
  | FError (e : option error).

(** A value of a condition struct, and of the struct of all conditions. *)
Definition StructVal : Type := list (string * FieldVal).
Inductive Receiver : Type :=
  | RStruct (v : StructVal)
  | RStatus (v : list (string * StructVal)).

Inductive GoVal : Type :=
  | VString (s : string)
  | VError (e : option error)
  | VBool (b : bool)
  | VStatus (s : ConditionStatus)
  | VCondition (c : Condition)
  | VConditions (cs : list Condition)
  | VJson (j : json).

Definition field_val (v : FieldVal) : GoVal :=
  match v with FString s => VString s | FError e => VError e end.

(** The store of a call: the receiver, the local variables, and how often
    [meta.Now] was read. *)
Record GoState : Type := mkGoState {
  g_recv : Receiver;
  g_data : gmap string string;
  g_err : string;
  g_now : nat
}.

Definition tick (st : GoState) : GoState :=
  mkGoState (g_recv st) (g_data st) (g_err st) (S (g_now st)).
Definition set_now (n : nat) (st : GoState) : GoState :=
  mkGoState (g_recv st) (g_data st) (g_err st) n.
Definition set_data (d : gmap string string) (st : GoState) : GoState :=
  mkGoState (g_recv st) d (g_err st) (g_now st).
Definition set_err (e : string) (st : GoState) : GoState :=
  mkGoState (g_recv st) (g_data st) e (g_now st).
Definition set_recv (r : Receiver) (st : GoState) : GoState :=
  mkGoState r (g_data st) (g_err st) (g_now st).

Fixpoint set_field (f : string) (x : FieldVal) (v : StructVal) : option StructVal :=
  match v with
  | [] => None
  | (f', y) :: v =>
      if decide (f = f') then
        match x, y with
        | FString _, FString _ | FError _, FError _ => Some ((f', x) :: v)
        | _, _ => None
        end
      else ((f', y) ::.) <$> set_field f x v
  end.

Definition to_field (v : GoVal) : option FieldVal :=
  match v with
  | VString s => Some (FString s)
  | VError e => Some (FError e)
  | _ => None
  end.

Section run.
Context {MF : MultierrorFormat}.
Context (prog : list GoDecl) (clock : nat → Z) (generation : Z) (input : json).
Context (T : string).  (* the type of the receiver *)
Context (call : string → string → StructVal → nat → option (GoVal * nat)).

Definition self_field (st : GoState) (f : string) : option GoVal :=
  match g_recv st with RStruct v => field_val <$> assoc f v | RStatus _ => None end.

Fixpoint eval (e : GoExpr) (st : GoState) : option (GoVal * GoState) :=
  match e with
  | EMissing => None
  | EField f => v ← self_field st f; Some (v, st)
  | EText f =>
      match self_field st f with
      | Some (VError (Some x)) => Some (VString (Error x), st)
      | _ => None
      end
  | EMethod f m _ =>
      match g_recv st, field_type prog T f with
      | RStatus v, Some (TNamed U) =>
          sv ← assoc f v;
          '(x, n) ← call U m sv (g_now st);
          Some (x, set_now n st)
      | _, _ => None
      end
  | EString lit => Some (VString lit, st)
  | ENil => Some (VError None, st)
  | EConst c => x ← assoc c (consts_of prog); Some (VString x, st)
  | ENotEqual a b =>
      '(x, st) ← eval a st;
      '(y, st) ← eval b st;
      match x, y with
      | VString s1, VString s2 => Some (VBool (negb (bool_decide (s1 = s2))), st)
      | VError e, VError None | VError None, VError e => Some (VBool (bool_decide (is_Some e)), st)
      | _, _ => None
      end
  | EOr a b =>
      '(x, st) ← eval a st;
      match x with
      | VBool true => Some (VBool true, st)
      | VBool false => eval b st
      | _ => None
      end
  | EBool b => Some (VBool b, st)
  | EMeta b => Some (VStatus (if b : bool then ConditionTrue else ConditionFalse), st)
  | ECondition ty status reason message =>
      '(t, st) ← eval ty st;
      '(s, st) ← eval status st;
      '(r, st) ← eval reason st;
      '(m, st) ← eval message st;
      match t, s, r, m with
      | VString t, VStatus s, VString r, VString m =>
          Some (VCondition (mkCondition t s generation (clock (g_now st)) r m), tick st)
      | _, _, _, _ => None
      end
  | EData k => Some (VString (default "" (g_data st !! k)), st)
  | EErr => Some (VString (g_err st), st)
  | EErrorsNew e =>
      '(x, st) ← eval e st;
      match x with VString s => Some (VError (Some (ErrString s)), st) | _ => None end
  end.

Fixpoint eval_conditions (es : list GoExpr) (st : GoState) : option (list Condition * GoState) :=
  match es with
  | [] => Some ([], st)
  | e :: es =>
      '(x, st) ← eval e st;
      match x with
      | VCondition c => '(cs, st) ← eval_conditions es st; Some (c :: cs, st)
      | _ => None
      end
  end.

(** [inl] goes on with the next statement, [inr] has returned. *)
Fixpoint exec (s : GoStmt) (st : GoState) : option (GoState + (GoVal * GoState)) :=
  match s with
  | SReturn e => '(x, st) ← eval e st; Some (inr (x, st))
  | SReturnConditions es => '(cs, st) ← eval_conditions es st; Some (inr (VConditions cs, st))
  | SReturnMarshal => Some (inr (VJson (json_Marshal_map JString (g_data st)), st))
  | SReturnNil => Some (inr (VError None, st))
  | SIf c body =>
      '(x, st) ← eval c st;
      match x with
      | VBool true => exec body st
      | VBool false => Some (inl st)
      | _ => None
      end
  | SNewData => Some (inl (set_data ∅ st))
  | SSetData k e =>
      '(x, st) ← eval e st;
      match x with
      | VString s => Some (inl (set_data (<[k := s]> (g_data st)) st))
      | _ => None
      end
  | SUnmarshalData =>
      match json_Unmarshal_map json_Unmarshal_string input with
      | Ok data => Some (inl (set_data data st))
      | Err e => Some (inr (VError (Some e), st))
      end
  | SIfData k body =>
      match g_data st !! k with
      | Some text => exec body (set_err text st)
      | None => Some (inl st)
      end
  | SSetField f e =>
      '(x, st) ← eval e st;
      match g_recv st, to_field x with
      | RStruct v, Some y => v ← set_field f y v; Some (inl (set_recv (RStruct v) st))
      | _, _ => None
      end
  end.

Fixpoint exec_body (body : list GoStmt) (st : GoState) : option (GoVal * GoState) :=
  match body with
  | [] => None
  | s :: body =>
      r ← exec s st;
      match r with
      | inl st => exec_body body st
      | inr done => Some done
      end
  end.
End run.

Section methods.
Context {MF : MultierrorFormat}.
Context (prog : list GoDecl) (clock : nat → Z) (generation : Z).

Definition run_in (call : string → string → StructVal → nat → option (GoVal * nat))
    (T m : string) (recv : Receiver) (input : json) (n : nat) :
    option (GoVal * Receiver * nat) :=
  md ← assoc (T, m) (methods_of prog);
  '(x, st) ← exec_body prog clock generation input T call (gm_body md) (mkGoState recv ∅ "" n);
  Some (x, if gm_pointer md then g_recv st else recv, g_now st).

(** Methods of condition structs call no methods; those of the struct of all
    conditions call methods of condition structs. *)
Definition run_struct (T m : string) (v : StructVal) (input : json) (n : nat) :=
  run_in (λ _ _ _ _, None) T m (RStruct v) input n.
Definition call_struct (T m : string) (v : StructVal) (n : nat) : option (GoVal * nat) :=
  '(x, _, n) ← run_struct T m v JNull n; Some (x, n).
Definition run_status (T m : string) (v : list (string * StructVal)) (n : nat) :
    option (GoVal * nat) :=
  '(x, _, n) ← run_in call_struct T m (RStatus v) JNull n; Some (x, n).
End methods.

(** The zero value of a struct. *)
Definition zero_field (f : GoField) : string * FieldVal :=
  (gf_name f, match gf_type f with TString => FString "" | _ => FError None end).
Definition zero_struct (prog : list GoDecl) (T : string) : option StructVal :=
  match assoc T (types_of prog) with
  | Some fs => Some (map zero_field fs)
  | None => None
  end.

(** ** Lemmas *)

Lemma assoc_elem `{EqDecision K} {V} (k : K) (v : V) l :
  NoDup l.*1 → (k, v) ∈ l → assoc k l = Some v.
Proof.
  induction l as [|[k' v'] l IH]; intros Hnd Hin; [by apply elem_of_nil in Hin|].
  simpl in Hnd. apply NoDup_cons in Hnd as [Hk Hnd].
  apply elem_of_cons in Hin as [[= -> ->]|Hin]; simpl; [by rewrite decide_True|].
  rewrite decide_False; [by apply IH|]. intros ->. apply Hk, list_elem_of_fmap.
  by exists (k', v).
Qed.

Lemma assoc_fmap `{EqDecision K} {A V} (f : A → K) (g : A → V) l x :
  NoDup (f <$> l) → x ∈ l → assoc (f x) ((λ x, (f x, g x)) <$> l) = Some (g x).
Proof.
  intros Hnd Hx. apply assoc_elem; [by rewrite <- list_fmap_compose|].
  apply list_elem_of_fmap. by exists x.
Qed.

Lemma assoc_elem_of `{EqDecision K} {V} (k : K) (v : V) l : assoc k l = Some v → (k, v) ∈ l.
Proof.
  induction l as [|[k' v'] l IH]; simpl; [done|]. case_decide as Hk.
  - intros [= ->]. subst. by left.
  - intros Hv. right. by apply IH.
Qed.

Lemma go_compiles_names prog : go_compiles prog = true →
  NoDup (types_of prog).*1 ∧ NoDup (consts_of prog).*1 ∧ NoDup (methods_of prog).*1 ∧
  ∀ d, d ∈ prog → decl_ok prog d = true.
Proof.
  unfold go_compiles, package_names. rewrite !andb_true_iff, !bool_decide_eq_true.
  rewrite NoDup_app, forallb_forall. intros ((?&Hm)&Hd). split_and!; try tauto.
  intros d Hin. by apply Hd, list_elem_of_In.
Qed.
