(* ===== verification/Generator.v ===== *)
(** * The generator of status types ([internal/k8s/reconciler/status/generator.go])

    The generator reads a description of the condition types of each kind of
    object ([statuses.yaml]), completes it ([normalize]) and fills two
    templates with it: the code of the status types and its tests.  The first
    template is transcribed as the declarations it prints, in the syntax of
    [GoFragment]: a [range] of the template is a map over the list, an [if] a
    conditional.  The second prints assertions; each is transcribed as the
    result of running it against the generated code.

    The theorems hold for every description whose code compiles; for
    [statuses.yaml] it does ([GeneratedStatuses]), and the definitions of
    [Status] are what its code computes. *)

From S2P Require Import Prelude Errors Json K8s GoFragment.

(** ** The description *)

Record statusOverride : Type := mkStatusOverride {
  so_Override : bool;
  so_Value : bool
}.

Record reasonType : Type := mkReasonType {
  rt_Name : string;
  rt_Description : string;
  rt_Message : string;
  rt_Support : string;
  rt_Status : statusOverride;
  rt_String : bool
}.

Record conditionType : Type := mkConditionType {
  ct_Name : string;
  ct_Description : string;
  ct_Required : bool;
  ct_Ignore : bool;
  ct_Invert : bool;
  ct_Base : reasonType;
  ct_Support : string;
  ct_Errors : list reasonType
}.

Record status : Type := mkStatus {
  st_Kind : string;
  st_Description : string;
  st_Validation : bool;
  st_Types : list conditionType
}.

Definition name_or (s d : string) : string := if decide (s = "") then d else s.

Definition conditionType_normalize (c : conditionType) : conditionType :=
  let support := name_or (ct_Support c) "spec" in
  let base := ct_Base c in
  let name := name_or (rt_Name base) (ct_Name c) in
  mkConditionType (ct_Name c) (ct_Description c) (ct_Required c) (ct_Ignore c) (ct_Invert c)
    (mkReasonType name (rt_Description base) (name_or (rt_Message base) name)
       (name_or (rt_Support base) support) (rt_Status base) (rt_String base))
    support
    ((λ err, mkReasonType (rt_Name err) (rt_Description err) (rt_Message err)
               (name_or (rt_Support err) support) (rt_Status err) (rt_String err))
       <$> ct_Errors c).

Definition status_normalize (s : status) : status :=
  mkStatus (st_Kind s) (st_Description s) (st_Validation s)
    (conditionType_normalize <$> st_Types s).

Definition required (conditions : list conditionType) : list conditionType :=
  List.filter ct_Required conditions.

(** ** Comments *)

Definition lineLength : nat := 77.

Definition wrap_token (acc : list string * string) (token : string) : list string * string :=
  let '(lines, currentLine) := acc in
  let appendedLength :=
    String.length token + (if decide (currentLine = "") then 0 else 1) in
  let newLength := appendedLength + String.length currentLine in
  let '(lines, currentLine) :=
    if lineLength <? newLength then (lines ++ [currentLine], "") else (lines, currentLine) in
  if decide (currentLine = "") then (lines, token)
  else (lines, currentLine +:+ " " +:+ token).

Definition wrapLine (line : string) : list string :=
  if String.length line <=? lineLength then [line]
  else
    let '(lines, currentLine) := foldl wrap_token ([], "") (strings_Split " " line) in
    lines ++ [currentLine].

Definition comment_line (name : string) (i : nat) (line : string) : list string :=
  let line := if decide (i = 0 ∧ name ≠ "") then name +:+ " - " +:+ line else line in
  (if decide (i = 0) then [] else [""]) ++ wrapLine line.

Definition writeComment (name comment : string) (support : list string) : string :=
  let comment := strings_TrimSpace comment in
  let lines := strings_Split newline comment in
  let wrappedLines := concat (imap (comment_line name) lines) in
  let wrappedLines :=
    match support with
    | [] => wrappedLines
    | _ => wrappedLines ++ [""; "[" +:+ strings_Join support ", " +:+ "]"]
    end in
  strings_Join ((λ line, "// " +:+ line) <$> wrappedLines) (String newline "").

(** [{{ if (ne description "") }}{{ writeComment ... }}{{ end }}]. *)
Definition described (name description : string) (support : list string) : string :=
  if decide (description = "") then "" else writeComment name description support.

(** ** The template of the code *)

Section templates.
Context (st : status).

Section condition.
Context (ct : conditionType).

Definition struct_name : string := st_Kind st +:+ ct_Name ct +:+ "Status".
Definition condition_const : string := st_Kind st +:+ "Condition" +:+ ct_Name ct.
Definition reason_const (reason : string) : string := st_Kind st +:+ "ConditionReason" +:+ reason.

Definition error_field (error : reasonType) : GoField :=
  mkGoField (described "" (rt_Description error) [rt_Support error]) (rt_Name error)
    (if rt_String error then TString else TError).

Definition struct_decl : GoDecl :=
  DType (described struct_name (ct_Description ct) [ct_Support ct]) struct_name
    (error_field <$> ct_Errors ct).

Definition const_decls : list GoDecl :=
  [DConst (described condition_const (ct_Description ct) [ct_Support ct])
     condition_const (ct_Name ct);
   DConst (described (reason_const (rt_Name (ct_Base ct))) (rt_Description (ct_Base ct))
             [rt_Support (ct_Base ct)])
     (reason_const (rt_Name (ct_Base ct))) (rt_Name (ct_Base ct))] ++
  ((λ error,
      DConst (described (reason_const (rt_Name error)) (rt_Description error) [rt_Support error])
        (reason_const (rt_Name error)) (rt_Name error)) <$> ct_Errors ct).

(** [s.Name != nil], or [s.Name != ""] for a string. *)
Definition is_set (error : reasonType) : GoExpr :=
  ENotEqual (EField (rt_Name error)) (if rt_String error then EString "" else ENil).

Definition error_text (error : reasonType) : GoExpr :=
  if rt_String error then EField (rt_Name error) else EText (rt_Name error).

Definition error_status (error : reasonType) : bool :=
  if so_Override (rt_Status error) then so_Value (rt_Status error) else ct_Invert ct.
Definition base_status : bool :=
  if so_Override (rt_Status (ct_Base ct)) then so_Value (rt_Status (ct_Base ct))
  else negb (ct_Invert ct).

Definition condition_stmt (error : reasonType) : GoStmt :=
  SIf (is_set error)
    (SReturn (ECondition (EConst condition_const) (EMeta (error_status error))
       (EConst (reason_const (rt_Name error))) (error_text error))).

Definition base_stmt : GoStmt :=
  SReturn (ECondition (EConst condition_const) (EMeta base_status)
    (EConst (reason_const (rt_Name (ct_Base ct)))) (EString (rt_Message (ct_Base ct)))).

Definition Condition_method : GoMethod :=
  mkGoMethod
    (writeComment "" ("Condition returns the status condition of the " +:+ st_Kind st +:+
       ct_Name ct +:+ "Status based off of the underlying errors that are set.") [])
    struct_name false "Condition" Generation TCondition
    ((condition_stmt <$> ct_Errors ct) ++ [base_stmt]).

Definition marshal_stmt (error : reasonType) : GoStmt :=
  if rt_String error then SSetData (rt_Name error) (EField (rt_Name error))
  else SIf (ENotEqual (EField (rt_Name error)) ENil)
         (SSetData (rt_Name error) (EText (rt_Name error))).

Definition MarshalJSON_method : GoMethod :=
  mkGoMethod ("// MarshalJSON marshals a " +:+ struct_name +:+ " value to JSON")
    struct_name false "MarshalJSON" NoParams TJson
    (SNewData :: (marshal_stmt <$> ct_Errors ct) ++ [SReturnMarshal]).

Definition unmarshal_stmt (error : reasonType) : GoStmt :=
  if rt_String error then SSetField (rt_Name error) (EData (rt_Name error))
  else SIfData (rt_Name error) (SSetField (rt_Name error) (EErrorsNew EErr)).

Definition UnmarshalJSON_method : GoMethod :=
  mkGoMethod ("// UnmarshalJSON unmarshals a " +:+ struct_name +:+ " from JSON")
    struct_name true "UnmarshalJSON" Bytes TError
    (SNewData :: SUnmarshalData :: (unmarshal_stmt <$> ct_Errors ct) ++ [SReturnNil]).

(** [a || b || ...], nothing at all for the empty list. *)
Definition disjunction (es : list GoExpr) : GoExpr :=
  match es with
  | [] => EMissing
  | e :: es => foldl EOr e es
  end.

Definition HasError_method : GoMethod :=
  mkGoMethod
    (writeComment "" ("HasError returns whether any of the " +:+ st_Kind st +:+ ct_Name ct +:+
       "Status errors are set.") [])
    struct_name false "HasError" NoParams TBool
    [SReturn (disjunction (is_set <$> ct_Errors ct))].

Definition condition_decls : list GoDecl :=
  [struct_decl] ++ const_decls ++
  [DMethod Condition_method; DMethod MarshalJSON_method; DMethod UnmarshalJSON_method] ++
  (if ct_Ignore ct then [] else [DMethod HasError_method]).
End condition.

Definition status_name : string := st_Kind st +:+ "Status".

Definition status_struct : GoDecl :=
  DType (described status_name (st_Description st) []) status_name
    ((λ ct, mkGoField (described "" (ct_Description ct) []) (ct_Name ct) (TNamed (struct_name ct)))
       <$> st_Types st).

Definition Conditions_method : GoMethod :=
  mkGoMethod
    (writeComment "" ("Conditions returns the aggregated status conditions of the " +:+
       st_Kind st +:+ "Status.") [])
    status_name false "Conditions" Generation TConditions
    [SReturnConditions ((λ ct, EMethod (ct_Name ct) "Condition" true) <$> st_Types st)].

Definition Valid_method : GoMethod :=
  mkGoMethod
    (writeComment "" ("Valid returns whether all of the required conditions for the " +:+
       st_Kind st +:+ "Status are satisfied.") [])
    status_name false "Valid" NoParams TBool
    [SIf (disjunction ((λ ct, EMethod (ct_Name ct) "HasError" false) <$> required (st_Types st)))
       (SReturn (EBool false));
     SReturn (EBool true)].

Definition status_decls : list GoDecl :=
  flat_map condition_decls (st_Types st) ++
  [status_struct; DMethod Conditions_method] ++
  (if st_Validation st then [DMethod Valid_method] else []).
End templates.

Definition statusTemplate (statuses : list status) : list GoDecl :=
  [DImport "encoding/json"; DImport "errors"; DImport "meta"] ++ flat_map status_decls statuses.

#[global] Arguments statusTemplate : simpl never.
#[global] Arguments struct_name : simpl never.

(** ** The template of the tests *)

Section tests.
Context {MF : MultierrorFormat}.
Context (prog : list GoDecl) (clock : nat → Z) (st : status).

(** An assertion is [Some true] when it holds and [None] when it does not
    compile or run. *)
Definition assert_condition (T : string) (v : StructVal) (reason message : string) : option bool :=
  '(x, _) ← call_struct prog clock 0 T "Condition" v 0;
  r ← assoc (reason_const st reason) (consts_of prog);
  match x with
  | VCondition c => Some (bool_decide (c_Message c = message) && bool_decide (c_Reason c = r))
  | _ => None
  end.

Definition assert_has_error (T : string) (v : StructVal) (expected : bool) : option bool :=
  '(x, _) ← call_struct prog clock 0 T "HasError" v 0;
  match x with VBool b => Some (Bool.eqb b expected) | _ => None end.

(** [KindNameStatus{Name: errors.New("expected")}]. *)
Definition with_error (T name : string) (e : error) : option StructVal :=
  v ← zero_struct prog T; set_field name (FError (Some e)) v.

Definition condition_test (ct : conditionType) : list (option bool) :=
  let T := struct_name st ct in
  let expected := ErrString "expected" in
  let has_error v b := if ct_Ignore ct then [] else [v ← v; assert_has_error T v b] in
  let zero := zero_struct prog T in
  [v ← zero; assert_condition T v (rt_Name (ct_Base ct)) (rt_Message (ct_Base ct))] ++
  has_error zero false ++
  flat_map (λ error,
    let v := with_error T (rt_Name error) expected in
    [v ← v; assert_condition T v (rt_Name error) "expected"] ++ has_error v true)
    (ct_Errors ct).

(** The zero value of the struct of all conditions. *)
Definition zero_status : option (list (string * StructVal)) :=
  mapM (λ ct, v ← zero_struct prog (struct_name st ct); Some (ct_Name ct, v)) (st_Types st).

Definition assert_conditions (v : list (string * StructVal)) : list (option bool) :=
  let conditions := '(x, _) ← run_status prog clock 0 (status_name st) "Conditions" v 0;
                    match x with VConditions cs => Some cs | _ => None end in
  imap (λ i ct,
    cs ← conditions;
    c ← cs !! i;
    ty ← assoc (condition_const st ct) (consts_of prog);
    r ← assoc (reason_const st (rt_Name (ct_Base ct))) (consts_of prog);
    Some (bool_decide (ty = c_Type c) && bool_decide (r = c_Reason c))) (st_Types st).

Definition assert_valid (v : list (string * StructVal)) (expected : bool) : option bool :=
  '(x, _) ← run_status prog clock 0 (status_name st) "Valid" v 0;
  match x with VBool b => Some (Bool.eqb b expected) | _ => None end.

(** [status.Name.Error = validationError]. *)
Fixpoint set_condition (name : string) (x : StructVal) (v : list (string * StructVal)) :
    option (list (string * StructVal)) :=
  match v with
  | [] => None
  | (n, y) :: v =>
      if decide (name = n) then Some ((n, x) :: v) else ((n, y) ::.) <$> set_condition name x v
  end.

Definition status_test : list (option bool) :=
  match zero_status with
  | None => [None]
  | Some zero =>
      assert_conditions zero ++
      (if st_Validation st then
         [assert_valid zero true] ++
         flat_map (λ ct,
           (λ error,
              x ← with_error (struct_name st ct) (rt_Name error) (ErrString "error");
              v ← set_condition (ct_Name ct) x zero;
              assert_valid v false) <$> ct_Errors ct) (required (st_Types st))
       else [])
  end.

(** A struct with every error set to its name, and it again after encoding
    and decoding. *)
Definition named_struct (ct : conditionType) : StructVal :=
  (λ error, (rt_Name error,
     if rt_String error then FString (rt_Name error)
     else FError (Some (ErrString (rt_Name error))))) <$> ct_Errors ct.

(** [json.Marshal] of the struct, then [json.Unmarshal] into a zero one. *)
Definition restore (T : string) (v : StructVal) : option StructVal :=
  '(data, _, _) ← run_struct prog clock 0 T "MarshalJSON" v JNull 0;
  zero ← zero_struct prog T;
  match data with
  | VJson j =>
      '(err, unmarshaled, _) ← run_struct prog clock 0 T "UnmarshalJSON" zero j 0;
      match err, unmarshaled with
      | VError None, RStruct u => Some u
      | _, _ => None
      end
  | _ => None
  end.

Definition same_text (x y : FieldVal) : option bool :=
  match x, y with
  | FString a, FString b => Some (bool_decide (a = b))
  | FError (Some a), FError (Some b) => Some (bool_decide (Error a = Error b))
  | _, _ => None
  end.

Definition marshaling_test (ct : conditionType) : list (option bool) :=
  let status := named_struct ct in
  match restore (struct_name st ct) status with
  | None => [None]
  | Some unmarshaled =>
      (λ error,
         x ← assoc (rt_Name error) status;
         y ← assoc (rt_Name error) unmarshaled;
         same_text x y) <$> ct_Errors ct
  end.

Definition status_tests : list (option bool) :=
  flat_map condition_test (st_Types st) ++ status_test ++
  flat_map marshaling_test (st_Types st).
End tests.

Definition statusTestsTemplate `{MultierrorFormat} (prog : list GoDecl) (clock : nat → Z)
    (statuses : list status) : list (option bool) :=
  flat_map (status_tests prog clock) statuses.

(** ** The generator *)

(** What reading [statuses.yaml] gives: [os.OpenFile], [Stat] and the YAML
    decoder.  An error is a panic. *)
Definition mustDecodeYAML {A} (open stat : result unit) (decode : result A) : option A :=
  match open, stat, decode with
  | Ok _, Ok _, Ok into => Some into
  | _, _, _ => None
  end.

Definition generator_init (open stat : result unit) (decode : result (list status)) :
    option (list status) :=
  statuses ← mustDecodeYAML open stat decode;
  Some (map status_normalize statuses).

(** The generated code for a description. *)
Definition generated (statuses : list status) : list GoDecl :=
  statusTemplate (status_normalize <$> statuses).

(** [main]: the two files in the order they are written, and whether the
    program gets through or panics. *)
Definition generator_main (write_code write_tests : result unit) : list string * bool :=
  match write_code with
  | Err _ => ([], false)
  | Ok _ =>
      match write_tests with
      | Err _ => (["zz_generated_status.go"], false)
      | Ok _ => (["zz_generated_status.go"; "zz_generated_status_test.go"], true)
      end
  end.

(** ** Values of generated structs *)

(** The fields of a struct are its errors, in the order of the description. *)
Definition field_typed (error : reasonType) (x : FieldVal) : Prop :=
  match x with FString _ => rt_String error = true | FError _ => rt_String error = false end.
Definition struct_typed (ct : conditionType) (v : StructVal) : Prop :=
  Forall2 (λ error nx, nx.1 = rt_Name error ∧ field_typed error nx.2) (ct_Errors ct) v.
Definition status_typed (st : status) (v : list (string * StructVal)) : Prop :=
  Forall2 (λ ct nv, nv.1 = ct_Name ct ∧ struct_typed ct nv.2) (st_Types st) v.

(** Whether an error is set, and its text. *)
Definition field_set (x : FieldVal) : bool :=
  match x with
  | FString s => negb (bool_decide (s = ""))
  | FError e => bool_decide (is_Some e)
  end.
Definition struct_set (v : StructVal) : bool := existsb (λ nx, field_set nx.2) v.
Definition status_value (b : bool) : ConditionStatus :=
  if b then ConditionTrue else ConditionFalse.

Section values.
Context {MF : MultierrorFormat}.

Definition field_text (x : FieldVal) : string :=
  match x with
  | FString s => s
  | FError e => from_option Error "" e
  end.

(** The condition a struct reports. *)
Fixpoint first_set (ct : conditionType) (errors : list reasonType) (v : StructVal)
    (generation now : Z) : Condition :=
  match errors, v with
  | error :: errors, (_, x) :: v =>
      if field_set x then
        mkCondition (ct_Name ct) (status_value (error_status ct error)) generation now
          (rt_Name error) (field_text x)
      else first_set ct errors v generation now
  | _, _ =>
      mkCondition (ct_Name ct) (status_value (base_status ct)) generation now
        (rt_Name (ct_Base ct)) (rt_Message (ct_Base ct))
  end.

(** The conditions all structs report, the clock being read once for each. *)
Fixpoint reported (types : list conditionType) (v : list (string * StructVal))
    (clock : nat → Z) (generation : Z) (n : nat) : list Condition :=
  match types, v with
  | ct :: types, (_, x) :: v =>
      first_set ct (ct_Errors ct) x generation (clock n) :: reported types v clock generation (S n)
  | _, _ => []
  end.

(** The texts a struct is encoded as. *)
Definition add_text (data : gmap string string) (nx : string * FieldVal) : gmap string string :=
  match nx.2 with
  | FString s => <[nx.1 := s]> data
  | FError (Some e) => <[nx.1 := Error e]> data
  | FError None => data
  end.
Definition text_map (v : StructVal) : gmap string string := foldl add_text ∅ v.

(** What decoding makes of a field. *)
Definition read_field (data : gmap string string) (nx : string * FieldVal) : string * FieldVal :=
  (nx.1,
   match nx.2 with
   | FString _ => FString (default "" (data !! nx.1))
   | FError old =>
       FError (match data !! nx.1 with Some t => Some (ErrString t) | None => old end)
   end).
Definition restored (x : FieldVal) : FieldVal :=
  match x with
  | FString s => FString s
  | FError e => FError ((λ e, ErrString (Error e)) <$> e)
  end.
End values.

(** ** The generated program *)

Lemma elem_of_types prog doc n fs : DType doc n fs ∈ prog → (n, fs) ∈ types_of prog.
Proof. intros Hin. apply list_elem_of_omap. by exists (DType doc n fs). Qed.
Lemma elem_of_consts prog doc n v : DConst doc n v ∈ prog → (n, v) ∈ consts_of prog.
Proof. intros Hin. apply list_elem_of_omap. by exists (DConst doc n v). Qed.
Lemma elem_of_methods prog m :
  DMethod m ∈ prog → ((gm_recv m, gm_name m), m) ∈ methods_of prog.
Proof. intros Hin. apply list_elem_of_omap. by exists (DMethod m). Qed.

Lemma existsb_fmap_filter {A} (f g : A → bool) l :
  existsb id (g <$> List.filter f l) = existsb (λ x, f x && g x) l.
Proof. induction l as [|x l IH]; [done|]. cbn. destruct (f x); cbn; by rewrite IH. Qed.

(** *** Disjunctions *)

Section disjunctions.
Context {MF : MultierrorFormat} (prog : list GoDecl) (clock : nat → Z) (generation : Z) (T : string)
  (call : string → string → StructVal → nat → option (GoVal * nat)).
#[local] Abbreviation eval_ := (eval prog clock generation T call).

Lemma eval_ors s es bs : Forall2 (λ e b, eval_ e s = Some (VBool b, s)) es bs →
  ∀ e b, eval_ e s = Some (VBool b, s) →
  eval_ (foldl EOr e es) s = Some (VBool (b || existsb id bs), s).
Proof.
  induction 1 as [|e' b' es bs He _ IH]; intros e b Hb; cbn [foldl existsb].
  - by rewrite orb_false_r.
  - rewrite (IH (EOr e e') (b || b')); [by rewrite orb_assoc|].
    cbn [eval]. rewrite Hb. cbn. by destruct b.
Qed.

Lemma eval_disjunction s es bs :
  es ≠ [] → Forall2 (λ e b, eval_ e s = Some (VBool b, s)) es bs →
  eval_ (disjunction es) s = Some (VBool (existsb id bs), s).
Proof. intros Hne Hall. destruct Hall; [done|]. by apply eval_ors. Qed.
End disjunctions.

(** *** Encoding and decoding fields *)

Lemma set_field_middle n y x pre post :
  n ∉ pre.*1 → match x, y with FString _, FString _ | FError _, FError _ => True | _, _ => False end →
  set_field n y (pre ++ (n, x) :: post) = Some (pre ++ (n, y) :: post).
Proof.
  intros Hn Hk. induction pre as [|[m z] pre IH]; simpl.
  - rewrite decide_True by done. by destruct x, y.
  - simpl in Hn. apply not_elem_of_cons in Hn as [Hm Hn].
    rewrite decide_False by done. by rewrite IH.
Qed.

Lemma text_map_other `{MultierrorFormat} v n acc :
  n ∉ v.*1 → foldl add_text acc v !! n = acc !! n.
Proof.
  revert acc. induction v as [|[m x] v IH]; intros acc Hn; [done|].
  simpl in Hn. apply not_elem_of_cons in Hn as [Hm Hn]. cbn [foldl]. rewrite (IH _ Hn).
  unfold add_text. destruct x as [?|[?|]]; simpl; by rewrite ?lookup_insert_ne.
Qed.

Lemma text_map_lookup `{MultierrorFormat} v n x acc :
  NoDup v.*1 → (n, x) ∈ v →
  foldl add_text acc v !! n =
  match x with
  | FString s => Some s
  | FError (Some e) => Some (Error e)
  | FError None => acc !! n
  end.
Proof.
  revert acc. induction v as [|[m y] v IH]; intros acc Hnd Hin; [by apply elem_of_nil in Hin|].
  simpl in Hnd. apply NoDup_cons in Hnd as [Hm Hnd]. cbn [foldl].
  apply elem_of_cons in Hin as [[= -> ->]|Hin].
  - rewrite text_map_other by done. unfold add_text.
    destruct y as [?|[?|]]; simpl; by rewrite ?lookup_insert_eq.
  - rewrite (IH _ Hnd Hin). destruct x as [?|[?|]]; try done.
    assert (m ≠ n) by (intros ->; apply Hm, list_elem_of_fmap; by exists (n, FError None)).
    unfold add_text. destruct y as [?|[?|]]; simpl; by rewrite ?lookup_insert_ne.
Qed.

Lemma type_disjunction prog sc es :
  type_expr prog sc (disjunction es) = Some TBool →
  es ≠ [] ∧ ∀ e, e ∈ es → type_expr prog sc e = Some TBool.
Proof.
  destruct es as [|e0 es]; [done|]. cbn [disjunction]. intros Ht. split; [done|].
  revert e0 Ht. induction es as [|e1 es IH]; intros e0 Ht e Hin.
  - by apply list_elem_of_singleton in Hin as ->.
  - cbn [foldl] in Ht.
    assert (type_expr prog sc (EOr e0 e1) = Some TBool) as Hor by (apply (IH _ Ht); by left).
    assert (type_expr prog sc e0 = Some TBool ∧ type_expr prog sc e1 = Some TBool) as [? ?].
    { cbn in Hor. by destruct (type_expr prog sc e0) as [[]|], (type_expr prog sc e1) as [[]|]. }
    rewrite !elem_of_cons in Hin. destruct Hin as [->|[->|Hin]]; [done|done|].
    apply (IH _ Ht). by right.
Qed.

(** *** Struct types are declared once *)

Definition all_conditions (sts : list status) : list (status * conditionType) :=
  flat_map (λ st, (st,.) <$> st_Types st) sts.

Lemma types_of_app xs ys : types_of (xs ++ ys) = types_of xs ++ types_of ys.
Proof. apply omap_app. Qed.

Lemma types_of_condition st ct :
  (types_of (condition_decls st ct)).*1 = [struct_name st ct].
Proof.
  unfold condition_decls. rewrite !types_of_app.
  assert (types_of (const_decls st ct) = []) as ->.
  { unfold const_decls. rewrite types_of_app. cbn. unfold types_of.
    induction (ct_Errors ct); cbn; done. }
  by destruct (ct_Ignore ct).
Qed.

Lemma struct_names_declared sts :
  (uncurry struct_name <$> all_conditions sts) `sublist_of` (types_of (statusTemplate sts)).*1.
Proof.
  unfold statusTemplate. rewrite types_of_app. cbn [types_of omap list_omap app].
  induction sts as [|st sts IH]; [done|]. cbn [all_conditions flat_map].
  rewrite types_of_app, !fmap_app. apply sublist_app; [|exact IH].
  unfold status_decls. rewrite types_of_app, fmap_app. apply sublist_inserts_r.
  induction (st_Types st) as [|ct cts IHc]; [done|]. cbn [fmap list_fmap flat_map].
  rewrite types_of_app, fmap_app, types_of_condition. cbn. by apply sublist_skip.
Qed.

Lemma NoDup_fmap_inj_on {A B} (f : A → B) l x y :
  NoDup (f <$> l) → x ∈ l → y ∈ l → f x = f y → x = y.
Proof.
  intros Hnd Hx Hy Hf.
  apply list_elem_of_lookup in Hx as [i Hi], Hy as [j Hj].
  assert (i = j) as ->; [|congruence].
  eapply (NoDup_lookup (f <$> l)); [done|rewrite list_lookup_fmap, Hi; done|].
  rewrite list_lookup_fmap, Hj. cbn. by f_equal.
Qed.

Lemma struct_name_unique sts st ct st' ct' :
  go_compiles (statusTemplate sts) = true →
  st ∈ sts → ct ∈ st_Types st → st' ∈ sts → ct' ∈ st_Types st' →
  struct_name st ct = struct_name st' ct' → (st, ct) = (st', ct').
Proof.
  intros Hc Hst Hct Hst' Hct' Heq. destruct (go_compiles_names _ Hc) as (Hnd & _).
  apply (NoDup_fmap_inj_on (uncurry struct_name) (all_conditions sts)); [| | |done].
  - eapply sublist_NoDup; [exact Hnd|]. apply struct_names_declared.
  - apply list_elem_of_In, in_flat_map. exists st. split; [by apply list_elem_of_In|].
    apply list_elem_of_In, list_elem_of_fmap. by exists ct.
  - apply list_elem_of_In, in_flat_map. exists st'. split; [by apply list_elem_of_In|].
    apply list_elem_of_In, list_elem_of_fmap. by exists ct'.
Qed.

(** Only conditions that are not ignored have [HasError]. *)
Lemma HasError_declared sts m :
  DMethod m ∈ statusTemplate sts → gm_name m = "HasError" →
  ∃ st ct, st ∈ sts ∧ ct ∈ st_Types st ∧ ct_Ignore ct = false ∧ gm_recv m = struct_name st ct.
Proof.
  intros Hin Hname. unfold statusTemplate in Hin.
  apply elem_of_app in Hin as [Hin|Hin]; [by rewrite !elem_of_cons, elem_of_nil in Hin; naive_solver|].
  apply list_elem_of_In, in_flat_map in Hin as (st & Hst%list_elem_of_In & Hin%list_elem_of_In).
  exists st. unfold status_decls in Hin. apply elem_of_app in Hin as [Hin|Hin].
  - apply list_elem_of_In, in_flat_map in Hin as (ct & Hct%list_elem_of_In & Hin%list_elem_of_In).
    exists ct. split_and!; try done; unfold condition_decls, const_decls, struct_decl in Hin;
      rewrite !elem_of_app, !elem_of_cons, elem_of_nil, list_elem_of_fmap in Hin;
      destruct (ct_Ignore ct); rewrite ?elem_of_cons, ?elem_of_nil in Hin; naive_solver.
  - destruct (st_Validation st); rewrite !elem_of_app, !elem_of_cons, ?elem_of_nil in Hin; naive_solver.
Qed.

(** *** The declarations of a description *)

Section program.
#[local] Set Default Proof Using "All".
Context (sts : list status).
#[local] Abbreviation prog := (statusTemplate sts).
Hypothesis compiles : go_compiles prog = true.

Lemma lookup_type doc n fs : DType doc n fs ∈ prog → assoc n (types_of prog) = Some fs.
Proof.
  intros Hin. destruct (go_compiles_names _ compiles) as (Hnd & _).
  apply assoc_elem; [done|]. by eapply elem_of_types.
Qed.
Lemma lookup_const doc n v : DConst doc n v ∈ prog → assoc n (consts_of prog) = Some v.
Proof.
  intros Hin. destruct (go_compiles_names _ compiles) as (_ & Hnd & _).
  apply assoc_elem; [done|]. by eapply elem_of_consts.
Qed.
Lemma lookup_method m :
  DMethod m ∈ prog → assoc (gm_recv m, gm_name m) (methods_of prog) = Some m.
Proof.
  intros Hin. destruct (go_compiles_names _ compiles) as (_ & _ & Hnd & _).
  apply assoc_elem; [done|]. by eapply elem_of_methods.
Qed.

Section status.
Context (st : status) (Hst : st ∈ sts).

Lemma status_decl d : d ∈ status_decls st → d ∈ prog.
Proof.
  intros Hin. unfold statusTemplate. apply elem_of_app. right.
  apply list_elem_of_In, in_flat_map. exists st. by rewrite <- !list_elem_of_In.
Qed.

Section condition.
Context (ct : conditionType) (Hct : ct ∈ st_Types st).
#[local] Abbreviation T := (struct_name st ct).

Lemma condition_decl d : d ∈ condition_decls st ct → d ∈ prog.
Proof.
  intros Hin. apply status_decl, elem_of_app. left.
  apply list_elem_of_In, in_flat_map. exists ct. by rewrite <- !list_elem_of_In.
Qed.

Lemma struct_declared : assoc T (types_of prog) = Some (error_field <$> ct_Errors ct).
Proof. eapply lookup_type, condition_decl. by left. Qed.

Lemma const_declared doc n v :
  DConst doc n v ∈ const_decls st ct → assoc n (consts_of prog) = Some v.
Proof.
  intros Hin. eapply lookup_const, condition_decl. right. apply elem_of_app. by left.
Qed.

Lemma condition_const_declared :
  assoc (condition_const st ct) (consts_of prog) = Some (ct_Name ct).
Proof. eapply const_declared. by left. Qed.
Lemma base_const_declared :
  assoc (reason_const st (rt_Name (ct_Base ct))) (consts_of prog) = Some (rt_Name (ct_Base ct)).
Proof. eapply const_declared. right. by left. Qed.
Lemma error_const_declared error : error ∈ ct_Errors ct →
  assoc (reason_const st (rt_Name error)) (consts_of prog) = Some (rt_Name error).
Proof.
  intros Hin. eapply const_declared. do 2 right. apply list_elem_of_fmap. by exists error.
Qed.

Lemma method_declared name m :
  gm_name m = name →
  m ∈ [Condition_method st ct; MarshalJSON_method st ct; UnmarshalJSON_method st ct] ++
      (if ct_Ignore ct then [] else [HasError_method st ct]) →
  assoc (T, name) (methods_of prog) = Some m.
Proof.
  intros <- Hin. assert (gm_recv m = T) as <-.
  { revert Hin. destruct (ct_Ignore ct); rewrite elem_of_app, !elem_of_cons, !elem_of_nil;
      intros [[->|[->|[->|[]]]]|[]]; try done; by subst. }
  apply lookup_method, condition_decl. right. apply elem_of_app. right.
  assert (DMethod m ∈ DMethod <$>
    ([Condition_method st ct; MarshalJSON_method st ct; UnmarshalJSON_method st ct] ++
      (if ct_Ignore ct then [] else [HasError_method st ct]))) as Hm.
  { apply list_elem_of_fmap. by exists m. }
  by destruct (ct_Ignore ct).
Qed.

Lemma field_names_NoDup : NoDup (rt_Name <$> ct_Errors ct).
Proof.
  destruct (go_compiles_names _ compiles) as (_ & _ & _ & Hok).
  assert (struct_decl st ct ∈ prog) as Hin by (apply condition_decl; by left).
  specialize (Hok _ Hin). simpl in Hok. rewrite !andb_true_iff, bool_decide_eq_true in Hok.
  destruct Hok as [_ Hnd]. apply NoDup_app in Hnd as [Hnd _].
  by rewrite <- list_fmap_compose in Hnd.
Qed.
(** *** Running the methods of a condition struct *)

Lemma struct_names v : struct_typed ct v → v.*1 = rt_Name <$> ct_Errors ct.
Proof.
  intros Hv. unfold struct_typed in Hv. induction Hv as [|? ? ? ? [? ?] ? IH]; [done|].
  simpl. by f_equal.
Qed.

Lemma struct_lookup v nx : struct_typed ct v → nx ∈ v → assoc nx.1 v = Some nx.2.
Proof.
  intros Hv Hin. apply assoc_elem; [|by destruct nx].
  rewrite (struct_names v Hv). apply field_names_NoDup.
Qed.

Lemma zero_typed : struct_typed ct (zero_field <$> (error_field <$> ct_Errors ct)).
Proof.
  unfold struct_typed. rewrite <- list_fmap_compose. apply Forall2_fmap_r, Forall_Forall2_diag.
  apply Forall_forall. intros error _. cbn. split; [done|]. by destruct (rt_String error) eqn:Hs.
Qed.

Lemma zero_declared :
  zero_struct prog T = Some (zero_field <$> (error_field <$> ct_Errors ct)).
Proof. unfold zero_struct. by rewrite struct_declared. Qed.

Lemma read_back `{MultierrorFormat} v : struct_typed ct v →
  read_field (text_map v) <$> (zero_field <$> (error_field <$> ct_Errors ct)) =
  (λ nx, (nx.1, restored nx.2)) <$> v.
Proof.
  intros Hv.
  assert (∀ nx, nx ∈ v → text_map v !! nx.1 =
    match nx.2 with FString s => Some s | FError e => Error <$> e end) as Hl.
  { intros [n x] Hin. unfold text_map. rewrite (text_map_lookup v n x); [|..|done].
    - by destruct x as [?|[?|]].
    - rewrite (struct_names v Hv). apply field_names_NoDup. }
  revert Hl. generalize (text_map v). intros data. unfold struct_typed in Hv.
  induction Hv as [|error [n x] errs vs [Hn Ht] _ IH]; intros Hl; [done|].
  simpl in Hn, Ht. subst n. cbn [fmap list_fmap]. f_equal.
  - specialize (Hl (rt_Name error, x) (list_elem_of_here _ _)). cbn in Hl.
    unfold read_field. cbn. rewrite Hl. destruct x as [?|[?|]]; simpl in Ht; by rewrite Ht.
  - apply IH. intros nx Hin. apply Hl. by right.
Qed.


Section run.
Context {MF : MultierrorFormat} (clock : nat → Z) (generation : Z).

Section body.
Context (input : json) (call : string → string → StructVal → nat → option (GoVal * nat)).
#[local] Abbreviation eval_ := (eval prog clock generation T call).
#[local] Abbreviation exec_ := (exec prog clock generation input T call).
#[local] Abbreviation exec_body_ := (exec_body prog clock generation input T call).

Lemma eval_field n x v s :
  g_recv s = RStruct v → assoc n v = Some x → eval_ (EField n) s = Some (field_val x, s).
Proof. intros Hr Hx. simpl. unfold self_field. by rewrite Hr, Hx. Qed.

Lemma eval_is_set error x v s :
  g_recv s = RStruct v → assoc (rt_Name error) v = Some x → field_typed error x →
  eval_ (is_set error) s = Some (VBool (field_set x), s).
Proof.
  intros Hr Hx Ht. unfold is_set. cbn [eval]. unfold self_field. rewrite Hr, Hx.
  destruct x as [t|[e|]]; simpl in Ht; rewrite Ht; done.
Qed.

Lemma eval_error_text error x v s :
  g_recv s = RStruct v → assoc (rt_Name error) v = Some x → field_typed error x →
  field_set x = true →
  eval_ (error_text error) s = Some (VString (field_text x), s).
Proof.
  intros Hr Hx Ht Hs. unfold error_text.
  destruct x as [t|[e|]]; simpl in Ht; rewrite Ht; try done;
    cbn [eval]; unfold self_field; by rewrite Hr, Hx.
Qed.

Lemma exec_condition_stmt error x v s :
  g_recv s = RStruct v → assoc (rt_Name error) v = Some x → field_typed error x →
  error ∈ ct_Errors ct →
  exec_ (condition_stmt st ct error) s =
  Some (if field_set x then
          inr (VCondition (mkCondition (ct_Name ct) (status_value (error_status ct error))
                 generation (clock (g_now s)) (rt_Name error) (field_text x)), tick s)
        else inl s).
Proof.
  intros Hr Hx Ht Hin. unfold condition_stmt. cbn [exec].
  rewrite (eval_is_set error x v s Hr Hx Ht). cbn. destruct (field_set x) eqn:Hs; [|done].
  cbn [exec eval]. rewrite condition_const_declared, (error_const_declared error Hin). cbn -[eval].
  by rewrite (eval_error_text error x v s Hr Hx Ht Hs).
Qed.

Lemma exec_conditions v s errs vs :
  Forall2 (λ error nx, nx.1 = rt_Name error ∧ field_typed error nx.2) errs vs →
  (∀ nx, nx ∈ vs → assoc nx.1 v = Some nx.2) → errs ⊆ ct_Errors ct → g_recv s = RStruct v →
  exec_body_ ((condition_stmt st ct <$> errs) ++ [base_stmt st ct]) s =
  Some (VCondition (first_set ct errs vs generation (clock (g_now s))), tick s).
Proof.
  intros Hall. induction Hall as [|error [n x] errs vs [Hn Ht] _ IH]; intros Hv Hsub Hr.
  - cbn [fmap list_fmap app exec_body]. unfold base_stmt. cbn [exec eval].
    by rewrite condition_const_declared, base_const_declared.
  - simpl in Hn, Ht. subst n.
    assert (assoc (rt_Name error) v = Some x) as Hx by (apply (Hv (_, x)); by left).
    cbn [fmap list_fmap app exec_body first_set].
    rewrite (exec_condition_stmt error x v s Hr Hx Ht) by set_solver.
    destruct (field_set x); [done|]. cbn. apply IH; [|set_solver|done].
    intros nx Hin. apply Hv. by right.
Qed.
End body.

Lemma run_Condition v n : struct_typed ct v →
  call_struct prog clock generation T "Condition" v n =
  Some (VCondition (first_set ct (ct_Errors ct) v generation (clock n)), S n).
Proof.
  intros Hv. unfold call_struct, run_struct, run_in.
  rewrite (method_declared "Condition" (Condition_method st ct) eq_refl) by (by left). cbn [mbind option_bind gm_body Condition_method].
  rewrite (exec_conditions _ _ v _ _ v); [done|done| |done|done].
  intros nx. by apply struct_lookup.
Qed.

(** *** [HasError] *)

Lemma HasError_errors : ct_Ignore ct = false → ct_Errors ct ≠ [].
Proof.
  intros Hi Hnil. destruct (go_compiles_names _ compiles) as (_ & _ & _ & Hok).
  assert (DMethod (HasError_method st ct) ∈ prog) as Hin.
  { apply condition_decl, elem_of_app. right. apply elem_of_app. right. rewrite Hi.
    do 3 right. by left. }
  specialize (Hok _ Hin). unfold decl_ok, HasError_method in Hok. rewrite Hnil in Hok.
  cbn in Hok. rewrite !andb_true_iff in Hok. by destruct Hok as [[_ Hok] _].
Qed.

Lemma fields_evaluate (input : json) call v s : struct_typed ct v → g_recv s = RStruct v →
  Forall2 (λ e b, eval prog clock generation T call e s = Some (VBool b, s))
    (is_set <$> ct_Errors ct) ((λ nx, field_set nx.2) <$> v).
Proof.
  intros Hv Hr. apply Forall2_fmap.
  assert (∀ nx, nx ∈ v → assoc nx.1 v = Some nx.2) as Hl by (intros nx; by apply struct_lookup).
  apply Forall2_same_length_lookup. split; [by eapply Forall2_length|].
  intros i error nx He Hx. destruct (Forall2_lookup_lr _ _ _ _ _ _ Hv He Hx) as [Hn Ht].
  eapply eval_is_set; [exact input|done| |done]. rewrite <- Hn.
  apply Hl. by eapply list_elem_of_lookup_2.
Qed.

Lemma run_HasError v n : ct_Ignore ct = false → struct_typed ct v →
  call_struct prog clock generation T "HasError" v n = Some (VBool (struct_set v), n).
Proof.
  intros Hi Hv. unfold call_struct, run_struct, run_in.
  rewrite (method_declared "HasError" (HasError_method st ct) eq_refl)
    by (rewrite Hi; by do 3 right; left).
  cbn [mbind option_bind gm_body HasError_method exec_body exec].
  rewrite (eval_disjunction _ _ _ _ _ _ _ ((λ nx, field_set nx.2) <$> v)); cbn.
  - do 3 f_equal. unfold struct_set. clear. induction v; cbn; congruence.
  - intros Hnil. by apply HasError_errors, fmap_nil_inv with is_set.
  - by apply (fields_evaluate JNull).
Qed.

(** *** [MarshalJSON] *)

Lemma exec_marshals input call v s errs vs :
  Forall2 (λ error nx, nx.1 = rt_Name error ∧ field_typed error nx.2) errs vs →
  (∀ nx, nx ∈ vs → assoc nx.1 v = Some nx.2) → g_recv s = RStruct v →
  exec_body prog clock generation input T call ((marshal_stmt <$> errs) ++ [SReturnMarshal]) s =
  let data := foldl add_text (g_data s) vs in
  Some (VJson (json_Marshal_map JString data), set_data data s).
Proof.
  intros Hall. revert s.
  induction Hall as [|error [n x] errs vs [Hn Ht] _ IH]; intros s Hv Hr; [by destruct s|].
  simpl in Hn, Ht. subst n. cbn [fmap list_fmap app exec_body].
  assert (exec prog clock generation input T call (marshal_stmt error) s =
          Some (inl (set_data (add_text (g_data s) (rt_Name error, x)) s))) as ->.
  { assert (assoc (rt_Name error) v = Some x) as Hx by (apply (Hv (_, x)); by left).
    unfold marshal_stmt. destruct x as [t|[e|]]; simpl in Ht; rewrite Ht; cbn [exec eval];
      unfold self_field; rewrite Hr, Hx; cbn; unfold self_field; rewrite ?Hr; try rewrite Hx; try done.
    by destruct s. }
  cbn. rewrite IH; [done| |done]. intros nx Hin. apply Hv. by right.
Qed.

Lemma run_MarshalJSON v input n : struct_typed ct v →
  run_struct prog clock generation T "MarshalJSON" v input n =
  Some (VJson (json_Marshal_map JString (text_map v)), RStruct v, n).
Proof.
  intros Hv. unfold run_struct, run_in.
  rewrite (method_declared "MarshalJSON" (MarshalJSON_method st ct) eq_refl) by (right; by left).
  cbn [mbind option_bind gm_body MarshalJSON_method exec_body exec].
  rewrite (exec_marshals _ _ v _ _ v); [done|done| |done].
  intros nx. by apply struct_lookup.
Qed.

(** *** [UnmarshalJSON] *)

Lemma exec_unmarshal input call error n x s pre post :
  n = rt_Name error → field_typed error x → n ∉ pre.*1 →
  g_recv s = RStruct (pre ++ (n, x) :: post) →
  ∃ s', exec prog clock generation input T call (unmarshal_stmt error) s = Some (inl s') ∧
        g_recv s' = RStruct (pre ++ read_field (g_data s) (n, x) :: post) ∧
        g_data s' = g_data s ∧ g_now s' = g_now s.
Proof.
  intros -> Ht Hn Hr. unfold unmarshal_stmt, read_field.
  destruct x as [t|e]; simpl in Ht; rewrite Ht; cbn [exec eval].
  - cbn. rewrite Hr, set_field_middle by done. by eexists.
  - cbn. destruct (g_data s !! rt_Name error) as [text|]; [|by exists s].
    cbn. rewrite Hr, set_field_middle by done. by eexists.
Qed.

Lemma exec_unmarshals input call errs vs :
  Forall2 (λ error nx, nx.1 = rt_Name error ∧ field_typed error nx.2) errs vs →
  ∀ pre s, NoDup (pre ++ vs).*1 → g_recv s = RStruct (pre ++ vs) →
  ∃ s', exec_body prog clock generation input T call ((unmarshal_stmt <$> errs) ++ [SReturnNil]) s =
          Some (VError None, s') ∧
        g_recv s' = RStruct (pre ++ (read_field (g_data s) <$> vs)) ∧ g_now s' = g_now s.
Proof.
  induction 1 as [|error [n x] errs vs [Hn Ht] _ IH]; intros pre s Hnd Hr; [by exists s|].
  assert (n ∉ pre.*1) as Hpre.
  { rewrite fmap_app in Hnd. apply NoDup_app in Hnd as (_ & Hd & _).
    intros Hin. apply (Hd _ Hin). by left. }
  destruct (exec_unmarshal input call error n x s pre vs Hn Ht Hpre Hr)
    as (s1 & He & Hr1 & Hd1 & Hn1).
  cbn [fmap list_fmap app exec_body]. rewrite He. cbn.
  rewrite cons_middle, app_assoc in Hr1.
  destruct (IH (pre ++ [read_field (g_data s) (n, x)]) s1) as (s2 & -> & Hr2 & Hn2);
    [by rewrite <- app_assoc, fmap_app in *|exact Hr1|].
  exists s2. split; [done|]. rewrite Hr2, Hd1, <- app_assoc. by rewrite Hn2.
Qed.

Lemma run_UnmarshalJSON v input data n :
  json_Unmarshal_map json_Unmarshal_string input = Ok data → struct_typed ct v →
  run_struct prog clock generation T "UnmarshalJSON" v input n =
  Some (VError None, RStruct (read_field data <$> v), n).
Proof.
  intros Hd Hv. unfold run_struct, run_in.
  rewrite (method_declared "UnmarshalJSON" (UnmarshalJSON_method st ct) eq_refl)
    by (do 2 right; by left).
  cbn [mbind option_bind gm_body UnmarshalJSON_method exec_body exec]. rewrite Hd.
  cbn [mbind option_bind].
  match goal with |- context [exec_body _ _ _ _ _ _ _ ?s] =>
    destruct (exec_unmarshals input (λ _ _ _ _, None) _ _ Hv [] s) as (s' & -> & Hr & Hn) end.
  { rewrite app_nil_l, (struct_names v Hv). apply field_names_NoDup. }
  { done. }
  cbn. cbn in Hr, Hn. by rewrite Hr, Hn.
Qed.

Lemma run_UnmarshalJSON_error v input e n :
  json_Unmarshal_map json_Unmarshal_string input = Err e →
  run_struct prog clock generation T "UnmarshalJSON" v input n = Some (VError (Some e), RStruct v, n).
Proof.
  intros He. unfold run_struct, run_in.
  rewrite (method_declared "UnmarshalJSON" (UnmarshalJSON_method st ct) eq_refl)
    by (do 2 right; by left).
  cbn [mbind option_bind gm_body UnmarshalJSON_method exec_body exec]. by rewrite He.
Qed.

End run.

(** Decoding an encoded struct restores its names and texts. *)
Lemma restore_struct `{MultierrorFormat} (clock : nat → Z) v : struct_typed ct v →
  restore prog clock T v = Some ((λ nx, (nx.1, restored nx.2)) <$> v).
Proof.
  intros Hv. unfold restore. rewrite run_MarshalJSON by done. cbn [mbind option_bind].
  rewrite zero_declared. cbn [mbind option_bind].
  erewrite run_UnmarshalJSON; [|apply json_string_map_roundtrip|by apply zero_typed].
  cbn. by rewrite read_back.
Qed.
End condition.

(** *** Running the methods of the struct of all conditions *)

Lemma status_declared : assoc (status_name st) (types_of prog) =
  Some ((λ ct, mkGoField (described "" (ct_Description ct) []) (ct_Name ct)
                 (TNamed (struct_name st ct))) <$> st_Types st).
Proof. eapply lookup_type, status_decl, elem_of_app. right. by left. Qed.

Lemma condition_names_NoDup : NoDup (ct_Name <$> st_Types st).
Proof.
  destruct (go_compiles_names _ compiles) as (_ & _ & _ & Hok).
  assert (status_struct st ∈ prog) as Hin
    by (apply status_decl, elem_of_app; right; by left).
  specialize (Hok _ Hin). simpl in Hok. rewrite !andb_true_iff, bool_decide_eq_true in Hok.
  destruct Hok as [_ Hnd]. apply NoDup_app in Hnd as [Hnd _].
  by rewrite <- list_fmap_compose in Hnd.
Qed.

Lemma status_field_type ct : ct ∈ st_Types st →
  field_type prog (status_name st) (ct_Name ct) = Some (TNamed (struct_name st ct)).
Proof.
  intros Hct. unfold field_type. rewrite status_declared. cbn. apply assoc_elem.
  - unfold field_types. rewrite <- !list_fmap_compose. apply condition_names_NoDup.
  - unfold field_types. rewrite <- list_fmap_compose. apply list_elem_of_fmap. by exists ct.
Qed.

Lemma status_names v : status_typed st v → v.*1 = ct_Name <$> st_Types st.
Proof.
  intros Hv. unfold status_typed in Hv. induction Hv as [|? ? ? ? [? ?] ? IH]; [done|].
  simpl. by f_equal.
Qed.

Lemma status_lookup v nx : status_typed st v → nx ∈ v → assoc nx.1 v = Some nx.2.
Proof.
  intros Hv Hin. apply assoc_elem; [|by destruct nx].
  rewrite (status_names v Hv). apply condition_names_NoDup.
Qed.

Lemma status_method name m :
  gm_name m = name →
  m ∈ Conditions_method st :: (if st_Validation st then [Valid_method st] else []) →
  assoc (status_name st, name) (methods_of prog) = Some m.
Proof.
  intros <- Hin. assert (gm_recv m = status_name st) as <-.
  { revert Hin. destruct (st_Validation st); rewrite !elem_of_cons, !elem_of_nil;
      intros [->|Hm]; try done; by destruct Hm as [->|[]]. }
  apply lookup_method, status_decl, elem_of_app. right.
  apply elem_of_cons in Hin as [->|Hin]; [right; by left|]. do 2 right.
  destruct (st_Validation st); [|by apply elem_of_nil in Hin].
  apply list_elem_of_singleton in Hin as ->. by left.
Qed.

Section run_status.
Context {MF : MultierrorFormat} (clock : nat → Z) (generation : Z).

Lemma eval_conditions_ok v s cts vs :
  Forall2 (λ ct nv, nv.1 = ct_Name ct ∧ struct_typed ct nv.2) cts vs →
  (∀ nv, nv ∈ vs → assoc nv.1 v = Some nv.2) → cts ⊆ st_Types st → g_recv s = RStatus v →
  eval_conditions prog clock generation (status_name st) (call_struct prog clock generation)
    ((λ ct, EMethod (ct_Name ct) "Condition" true) <$> cts) s =
  Some (reported cts vs clock generation (g_now s), set_now (g_now s + length vs) s).
Proof.
  intros Hall. revert s. induction Hall as [|ct [n x] cts vs [Hn Ht] _ IH]; intros s Hv Hsub Hr.
  { destruct s. unfold set_now. cbn. by rewrite Nat.add_0_r. }
  simpl in Hn, Ht. subst n.
  assert (assoc (ct_Name ct) v = Some x) as Hx by (apply (Hv (_, x)); by left).
  assert (ct ∈ st_Types st) as Hct by set_solver.
  cbn [fmap list_fmap eval_conditions eval]. rewrite Hr, (status_field_type ct Hct), Hx. cbn.
  rewrite (run_Condition ct Hct clock generation x (g_now s) Ht). cbn.
  rewrite IH; [|intros nx Hin; apply Hv; by right|set_solver|done].
  cbn. do 2 f_equal. unfold set_now. cbn. f_equal. lia.
Qed.

Lemma run_Conditions v n : status_typed st v →
  run_status prog clock generation (status_name st) "Conditions" v n =
  Some (VConditions (reported (st_Types st) v clock generation n), n + length v).
Proof.
  intros Hv. unfold run_status, run_in.
  rewrite (status_method "Conditions" (Conditions_method st) eq_refl) by (by left).
  cbn [mbind option_bind gm_body Conditions_method exec_body exec].
  rewrite (eval_conditions_ok v _ _ v); [done|done| |done|done].
  intros nx. by apply status_lookup.
Qed.

Lemma required_checked : st_Validation st = true →
  required (st_Types st) ≠ [] ∧
  ∀ ct, ct ∈ required (st_Types st) → ct ∈ st_Types st ∧ ct_Ignore ct = false.
Proof.
  intros Hval. destruct (go_compiles_names _ compiles) as (_ & _ & _ & Hok).
  assert (DMethod (Valid_method st) ∈ prog) as Hin.
  { apply status_decl, elem_of_app. right. rewrite Hval. do 2 right. by left. }
  specialize (Hok _ Hin). unfold decl_ok in Hok. rewrite !andb_true_iff in Hok.
  destruct Hok as [[_ Hok] _].
  cbn [Valid_method gm_body gm_recv gm_params gm_result check_body check_stmt] in Hok.
  case_decide as Ht; [|done]. apply type_disjunction in Ht as [Hne Ht].
  split; [intros Hnil; by rewrite Hnil in Hne|]. intros ct Hct.
  assert (ct ∈ st_Types st) as Hin' by (by apply elem_of_bfilter in Hct as [? _]).
  split; [done|].
  assert (EMethod (ct_Name ct) "HasError" false ∈
    (λ ct, EMethod (ct_Name ct) "HasError" false) <$> required (st_Types st)) as He
    by (apply list_elem_of_fmap; by exists ct).
  specialize (Ht _ He). cbn in Ht. rewrite (status_field_type ct Hin') in Ht.
  destruct (assoc _ (methods_of prog)) as [md|] eqn:Hm; [|done]. clear Ht.
  apply assoc_elem_of, list_elem_of_omap in Hm as ([| | |m] & Hd & [= Hrecv Hname ->]); 
  destruct (HasError_declared sts md Hd Hname) as (st' & ct' & Hst' & Hct' & Hi & Hr).
  assert ((st, ct) = (st', ct')) as [= -> ->]; [|done].
  eapply struct_name_unique; try done. by rewrite <- Hr, Hrecv.
Qed.

Lemma required_evaluate v s cts vs :
  Forall2 (λ ct nv, nv.1 = ct_Name ct ∧ struct_typed ct nv.2) cts vs →
  (∀ nv, nv ∈ vs → assoc nv.1 v = Some nv.2) →
  (∀ ct, ct ∈ required cts → ct ∈ st_Types st ∧ ct_Ignore ct = false) → g_recv s = RStatus v →
  Forall2 (λ e b, eval prog clock generation (status_name st) (call_struct prog clock generation) e s =
                  Some (VBool b, s))
    ((λ ct, EMethod (ct_Name ct) "HasError" false) <$> required cts)
    ((λ cx, struct_set cx.2.2) <$> List.filter (λ cx, ct_Required cx.1) (zip cts vs)).
Proof.
  induction 1 as [|ct [n x] cts vs [Hn Ht] _ IH]; intros Hv Hreq Hr; [constructor|].
  simpl in Hn, Ht. subst n. cbn [required List.filter zip zip_with fst] in *.
  assert (∀ nv, nv ∈ vs → assoc nv.1 v = Some nv.2) as Hv' by (intros nv Hin; apply Hv; by right).
  destruct (ct_Required ct); [|by apply IH].
  destruct (Hreq ct (list_elem_of_here _ _)) as [Hct Hi]. cbn [fmap list_fmap]. constructor.
  - cbn. rewrite Hr, (status_field_type ct Hct).
    rewrite (Hv (ct_Name ct, x) (list_elem_of_here _ _) : assoc (ct_Name ct) v = Some x). cbn.
    rewrite (run_HasError ct Hct clock generation x (g_now s) Hi Ht). cbn. by destruct s.
  - apply IH; [done| |done]. intros ct' Hin. apply Hreq. by right.
Qed.

Lemma run_Valid v n : st_Validation st = true → status_typed st v →
  run_status prog clock generation (status_name st) "Valid" v n =
  Some (VBool (negb (existsb (λ cx, ct_Required cx.1 && struct_set cx.2.2)
                       (zip (st_Types st) v))), n).
Proof.
  intros Hval Hv. destruct (required_checked Hval) as [Hne Hreq].
  unfold run_status, run_in.
  rewrite (status_method "Valid" (Valid_method st) eq_refl)
    by (rewrite Hval; right; by left).
  cbn [mbind option_bind gm_body Valid_method exec_body exec].
  erewrite eval_disjunction; cycle 1.
  - intros Hnil. by apply Hne, (fmap_nil_inv _ _ Hnil).
  - apply (required_evaluate v _ _ _ Hv); [intros nx; by apply status_lookup|done|done].
  - rewrite existsb_fmap_filter. by destruct (existsb _ _).
Qed.
End run_status.
End status.
End program.

(** ** What is reported *)

Section reports.
Context {MF : MultierrorFormat}.

(** What the condition of a struct says: the first error that is set in the
    order of the description, or the base reason. *)
Definition condition_says (ct : conditionType) (v : StructVal) (generation now : Z)
    (c : Condition) : Prop :=
  c_Type c = ct_Name ct ∧ c_ObservedGeneration c = generation ∧ c_LastTransitionTime c = now ∧
  ((struct_set v = false ∧ c_Status c = status_value (base_status ct) ∧
    c_Reason c = rt_Name (ct_Base ct) ∧ c_Message c = rt_Message (ct_Base ct)) ∨
   (∃ j error x,
     ct_Errors ct !! j = Some error ∧ v !! j = Some (rt_Name error, x) ∧ field_set x = true ∧
     (∀ k nx, k < j → v !! k = Some nx → field_set nx.2 = false) ∧
     c_Status c = status_value (error_status ct error) ∧
     c_Reason c = rt_Name error ∧ c_Message c = field_text x)).

Lemma first_set_app ct errs vs errs' vs' generation now :
  length errs = length vs → struct_set vs = false →
  first_set ct (errs ++ errs') (vs ++ vs') generation now = first_set ct errs' vs' generation now.
Proof.
  revert vs. induction errs as [|error errs IH]; intros [|[n x] vs] Hl Hs; try done.
  cbn in Hs |- *. apply orb_false_iff in Hs as [-> Hs]. apply IH; [by injection Hl|done].
Qed.

Lemma first_set_unset ct v generation now :
  length (ct_Errors ct) = length v → struct_set v = false →
  first_set ct (ct_Errors ct) v generation now = first_set ct [] [] generation now.
Proof.
  intros Hl Hs. rewrite <- (first_set_app ct (ct_Errors ct) v [] []), !app_nil_r by done. done.
Qed.

Lemma first_set_says ct v generation now : struct_typed ct v →
  condition_says ct v generation now (first_set ct (ct_Errors ct) v generation now).
Proof.
  intros Hv. unfold condition_says.
  destruct (struct_set v) eqn:Hs; cycle 1.
  { rewrite first_set_unset; [|by eapply Forall2_length|done].
    split_and!; try done. by left. }
  apply existsb_exists in Hs as ([n0 x0] & Hin & Hset). cbn in Hset.
  destruct (list_find_elem_of (λ nx, field_set nx.2 = true) v (n0, x0)) as [[j [n x]] Hj];
    [by apply list_elem_of_In|done|].
  apply list_find_Some in Hj as (Hj & Hx & Hmin). cbn in Hx.
  destruct (Forall2_lookup_r _ _ _ _ _ Hv Hj) as (error & He & Hn & Ht). cbn in Hn, Ht. subst n.
  assert (first_set ct (ct_Errors ct) v generation now =
          mkCondition (ct_Name ct) (status_value (error_status ct error)) generation now
            (rt_Name error) (field_text x)) as ->.
  { rewrite <- (take_drop_middle _ _ _ He), <- (take_drop_middle _ _ _ Hj).
    rewrite first_set_app; [cbn; by rewrite Hx| |].
    - rewrite !length_take, (Forall2_length _ _ _ Hv). done.
    - apply not_true_iff_false. intros (nx & Hk & Hnx)%existsb_exists.
      apply list_elem_of_In, list_elem_of_lookup in Hk as [k Hk].
      apply lookup_take_Some in Hk as [Hk Hlt]. eapply Hmin; [exact Hk|done|done]. }
  split_and!; try done. right. exists j, error, x. split_and!; try done.
  intros k nx Hk Hlt. apply not_true_iff_false. intros Hnx. by eapply Hmin.
Qed.

Lemma reported_lookup types v clock generation n i ct x :
  types !! i = Some ct → v !! i = Some x →
  reported types v clock generation n !! i =
  Some (first_set ct (ct_Errors ct) x.2 generation (clock (n + i))).
Proof.
  revert v n i. induction types as [|ct' types IH]; intros [|[m y] v] n [|i] Ht Hv; try done; cbn in *.
  - by rewrite Nat.add_0_r; simplify_eq.
  - rewrite (IH _ _ _ Ht Hv). do 3 f_equal. lia.
Qed.

Lemma reported_length types v clock generation n :
  length types = length v → length (reported types v clock generation n) = length v.
Proof.
  revert v n. induction types as [|ct types IH]; intros [|[m y] v] n Hl; try done.
  cbn. f_equal. apply IH. by injection Hl.
Qed.
End reports.

(** C35: generated statuses report what their description says.  For every
    description whose code compiles, [Conditions] of a status returns one
    condition for each type in order: with the reason and text of the first
    error that is set, with the status the description gives it, or with the
    base reason when none is set; [HasError] tells whether an error is set and
    [Valid] whether no required condition has one. *)
Theorem generated_conditions_correct `{MultierrorFormat} sts st clock generation v n :
  go_compiles (generated sts) = true → st ∈ status_normalize <$> sts → status_typed st v →
  (∃ cs, run_status (generated sts) clock generation (status_name st) "Conditions" v n =
           Some (VConditions cs, n + length cs) ∧
         length cs = length (st_Types st) ∧
         ∀ i ct x, st_Types st !! i = Some ct → v !! i = Some (ct_Name ct, x) →
           (∃ c, cs !! i = Some c ∧ condition_says ct x generation (clock (n + i)) c) ∧
           (ct_Ignore ct = false →
            call_struct (generated sts) clock generation (struct_name st ct) "HasError" x n =
              Some (VBool (struct_set x), n))) ∧
  (st_Validation st = true →
   ∃ b, run_status (generated sts) clock generation (status_name st) "Valid" v n =
          Some (VBool b, n) ∧
        (b = true ↔ ∀ i ct x, st_Types st !! i = Some ct → v !! i = Some (ct_Name ct, x) →
                      ct_Required ct = true → struct_set x = false)).
Proof.
  intros Hc Hst Hv. pose proof (Forall2_length _ _ _ Hv) as Hlen. split.
  - eexists. rewrite (run_Conditions _ Hc st Hst clock generation v n Hv).
    rewrite reported_length by done. split_and!; [done|done|].
    intros i ct x Hct Hx.
    destruct (Forall2_lookup_lr _ _ _ _ _ _ Hv Hct Hx) as [_ Ht].
    split.
    + eexists. split; [by apply (reported_lookup _ _ _ _ _ _ _ _ Hct Hx)|].
      by apply first_set_says.
    + intros Hi. apply run_HasError; try done. by eapply list_elem_of_lookup_2.
  - intros Hval. eexists. split; [by apply (run_Valid _ Hc)|].
    rewrite negb_true_iff, <- not_true_iff_false, existsb_exists. split.
    + intros Hno i ct x Hct Hx Hreq. apply not_true_iff_false. intros Hs. apply Hno.
      exists (ct, (ct_Name ct, x)). split; [|by apply andb_true_iff].
      apply list_elem_of_In, list_elem_of_lookup. exists i. apply lookup_zip_with_Some. by eauto.
    + intros Hall ([ct nx] & Hin & [Hreq Hs]%andb_true_iff).
      apply list_elem_of_In, list_elem_of_lookup in Hin as [i Hi].
      apply lookup_zip_with_Some in Hi as (ct' & nx' & [= <- <-] & Hct & Hx).
      destruct (Forall2_lookup_lr _ _ _ _ _ _ Hv Hct Hx) as [Hn _].
      destruct nx as [m x]. cbn [fst snd] in Hn, Hs, Hreq. subst m.
      by rewrite (Hall i ct x Hct Hx Hreq) in Hs.
Qed.

(** Generated statuses survive persistence.  For every description whose
    code compiles, encoding a condition struct and decoding it into a zero one
    succeeds, and the decoded struct is well typed and reports the same. *)
Theorem generated_code_roundtrip `{MultierrorFormat} sts st ct clock v :
  go_compiles (generated sts) = true → st ∈ status_normalize <$> sts → ct ∈ st_Types st →
  struct_typed ct v →
  ∃ v', restore (generated sts) clock (struct_name st ct) v = Some v' ∧
        struct_typed ct v' ∧ struct_set v' = struct_set v ∧
        ∀ generation n,
          call_struct (generated sts) clock generation (struct_name st ct) "Condition" v' n =
          call_struct (generated sts) clock generation (struct_name st ct) "Condition" v n.
Proof.
  intros Hc Hst Hct Hv. eexists. split; [by apply (restore_struct _ Hc)|].
  set (v' := (λ nx, (nx.1, restored nx.2)) <$> v).
  assert (struct_typed ct v') as Hv'.
  { apply Forall2_fmap_r. eapply Forall2_impl; [exact Hv|].
    intros error [m x] [Hm Ht]. cbn in *. split; [done|]. by destruct x. }
  assert (∀ x, field_set (restored x) = field_set x ∧ field_text (restored x) = field_text x) as Hr
    by (by intros [?|[?|]]).
  split_and!; [done| |].
  - unfold v', struct_set. clear -Hr. induction v as [|[m x] v IH]; [done|].
    cbn. by rewrite (proj1 (Hr x)), IH.
  - intros generation n. rewrite !(run_Condition _ Hc st Hst ct Hct) by done.
    do 3 f_equal. unfold v'. clear -Hr. generalize (ct_Errors ct) as errs.
    induction v as [|[m x] v IH]; intros [|error errs]; try done. cbn.
    rewrite (proj1 (Hr x)), (proj2 (Hr x)), IH. done.
Qed.

(** ** The generated tests pass *)

Lemma zeros_unset errs : struct_set (zero_field <$> (error_field <$> errs)) = false.
Proof.
  induction errs as [|error errs IH]; [done|]. cbn. by destruct (rt_String error).
Qed.

Section tests_pass.
#[local] Set Default Proof Using "All".
Context {MF : MultierrorFormat} (sts : list status) (clock : nat → Z).
#[local] Abbreviation prog := (statusTemplate sts).
Hypothesis compiles : go_compiles prog = true.
Hypothesis no_strings :
  ∀ st ct error, st ∈ sts → ct ∈ st_Types st → error ∈ ct_Errors ct → rt_String error = false.

Section test.
Context (st : status) (Hst : st ∈ sts).

Section condition.
Context (ct : conditionType) (Hct : ct ∈ st_Types st).
#[local] Abbreviation T := (struct_name st ct).
#[local] Abbreviation zeros errs := (zero_field <$> (error_field <$> errs)).

Lemma assert_condition_ok v c :
  struct_typed ct v → first_set ct (ct_Errors ct) v 0 (clock 0) = c →
  assoc (reason_const st (c_Reason c)) (consts_of prog) = Some (c_Reason c) →
  assert_condition prog clock st T v (c_Reason c) (c_Message c) = Some true.
Proof.
  intros Hv <- Hr. unfold assert_condition. rewrite (run_Condition _ compiles) by done.
  cbn [mbind option_bind]. rewrite Hr. cbn. by rewrite !bool_decide_eq_true_2.
Qed.

Lemma assert_has_error_ok v b : ct_Ignore ct = false → struct_typed ct v → struct_set v = b →
  assert_has_error prog clock T v b = Some true.
Proof.
  intros Hi Hv <-. unfold assert_has_error. rewrite (run_HasError _ compiles) by done.
  cbn. by rewrite Bool.eqb_reflx.
Qed.

Lemma with_error_ok error e : error ∈ ct_Errors ct →
  ∃ v, with_error prog T (rt_Name error) e = Some v ∧ struct_typed ct v ∧ struct_set v = true ∧
       first_set ct (ct_Errors ct) v 0 (clock 0) =
         mkCondition (ct_Name ct) (status_value (error_status ct error)) 0 (clock 0)
           (rt_Name error) (Error e).
Proof.
  intros Hin. pose proof (no_strings st ct error Hst Hct Hin) as Hs.
  pose proof (field_names_NoDup _ compiles st Hst ct Hct) as Hnd.
  pose proof (zero_typed _ compiles st Hst ct Hct) as Hz.
  apply list_elem_of_split in Hin as (pre & post & Herrs). rewrite Herrs in Hnd, Hz.
  unfold with_error. rewrite (zero_declared _ compiles st Hst ct Hct), Herrs. cbn [mbind option_bind].
  assert (zero_field (error_field error) = (rt_Name error, FError None)) as Hzf
    by (unfold zero_field; cbn; by rewrite Hs).
  rewrite !fmap_app in *. cbn [fmap list_fmap] in *. rewrite Hzf in *.
  apply NoDup_app in Hnd as (_ & Hd & _). rewrite set_field_middle; [|..|done].
  - eexists. split; [done|]. split_and!.
    + unfold struct_typed in *. rewrite Herrs in *.
      apply Forall2_app_inv in Hz as [H1 H2];
        [|by rewrite !length_fmap].
      apply Forall2_app; [done|]. apply Forall2_cons in H2 as [[_ Ht] H2]. by constructor.
    + unfold struct_set. rewrite existsb_app. cbn. by rewrite orb_true_r.
    + rewrite first_set_app; [done|by rewrite !length_fmap|apply zeros_unset].
  - rewrite <- !list_fmap_compose. intros Hpre. eapply Hd; [exact Hpre|]. by left.
Qed.

Lemma condition_test_ok : Forall (.= Some true) (condition_test prog clock st ct).
Proof.
  pose proof (zero_typed _ compiles st Hst ct Hct) as Hz.
  unfold condition_test. rewrite (zero_declared _ compiles st Hst ct Hct).
  apply Forall_app. split; [|apply Forall_app; split].
  - constructor; [|done]. cbn [mbind option_bind].
    eapply (assert_condition_ok _ (first_set ct [] [] 0 (clock 0))); [done| |].
    + apply first_set_unset; [by rewrite !length_fmap|apply zeros_unset].
    + by apply base_const_declared.
  - destruct (ct_Ignore ct) eqn:Hi; [done|]. constructor; [|done].
    apply assert_has_error_ok; [done|done|apply zeros_unset].
  - apply Forall_flat_map, Forall_forall. intros error Hin.
    destruct (with_error_ok error (ErrString "expected") Hin) as (v & -> & Hv & Hset & Hf).
    apply Forall_app. split.
    + constructor; [|done]. eapply (assert_condition_ok _ (first_set ct _ v 0 (clock 0))) in Hv;
        [by rewrite Hf in Hv|done|]. rewrite Hf. by eapply error_const_declared.
    + destruct (ct_Ignore ct) eqn:Hi; [done|]. constructor; [|done].
      by apply assert_has_error_ok.
Qed.

Lemma marshaling_test_ok : Forall (.= Some true) (marshaling_test prog clock st ct).
Proof.
  assert (struct_typed ct (named_struct ct)) as Hv.
  { apply Forall2_fmap_r, Forall_Forall2_diag, Forall_forall. intros error _. split; [done|].
    cbn. by destruct (rt_String error) eqn:Hs. }
  unfold marshaling_test. rewrite (restore_struct _ compiles st Hst ct Hct) by done.
  apply Forall_fmap, Forall_forall. intros error Hin. cbn.
  pose proof (field_names_NoDup _ compiles st Hst ct Hct) as Hnd.
  unfold named_struct. rewrite <- list_fmap_compose.
  rewrite (assoc_fmap rt_Name (λ error, if rt_String error then FString (rt_Name error)
    else FError (Some (ErrString (rt_Name error)))) (ct_Errors ct) error Hnd Hin).
  cbn. unfold compose. cbn.
  rewrite (assoc_fmap rt_Name (λ error, restored (if rt_String error then FString (rt_Name error)
    else FError (Some (ErrString (rt_Name error))))) (ct_Errors ct) error Hnd Hin).
  cbn. destruct (rt_String error); cbn; by rewrite bool_decide_eq_true_2.
Qed.
End condition.

Definition zero_conditions (types : list conditionType) : list (string * StructVal) :=
  (λ ct, (ct_Name ct, zero_field <$> (error_field <$> ct_Errors ct))) <$> types.

Lemma zero_status_declared : zero_status prog st = Some (zero_conditions (st_Types st)).
Proof.
  unfold zero_status.
  assert (∀ cts, cts ⊆ st_Types st →
    mapM (λ ct, v ← zero_struct prog (struct_name st ct); Some (ct_Name ct, v)) cts =
    Some (zero_conditions cts)) as Hall; [|by apply Hall].
  induction cts as [|ct cts IH]; intros Hsub; [done|]. cbn.
  rewrite (zero_declared _ compiles st Hst ct) by set_solver. cbn. by rewrite IH by set_solver.
Qed.

Lemma zero_conditions_typed : status_typed st (zero_conditions (st_Types st)).
Proof.
  apply Forall2_fmap_r, Forall_Forall2_diag, Forall_forall. intros ct Hct. cbn.
  split; [done|]. by apply (zero_typed _ compiles st Hst).
Qed.

Lemma assert_conditions_ok :
  Forall (.= Some true) (assert_conditions prog clock st (zero_conditions (st_Types st))).
Proof.
  unfold assert_conditions. rewrite (run_Conditions _ compiles st Hst) by apply zero_conditions_typed.
  cbn [mbind option_bind]. apply Forall_lookup. intros i r Hr.
  apply list_lookup_imap_Some in Hr as (ct & Hct & ->).
  pose proof (list_elem_of_lookup_2 _ _ _ Hct) as Hin.
  assert (zero_conditions (st_Types st) !! i =
    Some (ct_Name ct, zero_field <$> (error_field <$> ct_Errors ct))) as Hz
    by (unfold zero_conditions; by rewrite list_lookup_fmap, Hct).
  erewrite reported_lookup by done. cbn [mbind option_bind].
  rewrite (condition_const_declared _ compiles st Hst ct Hin). cbn [mbind option_bind].
  rewrite (base_const_declared _ compiles st Hst ct Hin). cbn [mbind option_bind snd].
  rewrite first_set_unset; [|by rewrite !length_fmap|apply zeros_unset].
  cbn. by rewrite !bool_decide_eq_true_2.
Qed.

Lemma assert_valid_ok v b : st_Validation st = true → status_typed st v →
  existsb (λ cx, ct_Required cx.1 && struct_set cx.2.2) (zip (st_Types st) v) = negb b →
  assert_valid prog clock st v b = Some true.
Proof.
  intros Hval Hv Hb. unfold assert_valid. rewrite (run_Valid _ compiles) by done.
  rewrite Hb, negb_involutive. cbn. by rewrite Bool.eqb_reflx.
Qed.

Lemma zeros_valid types :
  existsb (λ cx, ct_Required cx.1 && struct_set cx.2.2) (zip types (zero_conditions types)) = false.
Proof.
  induction types as [|ct types IH]; [done|]. cbn [zero_conditions fmap list_fmap zip zip_with existsb].
  cbn [fst snd]. rewrite zeros_unset, andb_false_r. exact IH.
Qed.

Lemma set_condition_ok ct x : ct ∈ required (st_Types st) → struct_typed ct x → struct_set x = true →
  ∃ v, set_condition (ct_Name ct) x (zero_conditions (st_Types st)) = Some v ∧ status_typed st v ∧
       existsb (λ cx, ct_Required cx.1 && struct_set cx.2.2) (zip (st_Types st) v) = true.
Proof.
  intros [Hin Hreq]%elem_of_bfilter Hx Hset.
  pose proof zero_conditions_typed as Hz.
  pose proof (condition_names_NoDup _ compiles st Hst) as Hnd. unfold status_typed in *. revert Hin Hnd Hz.
  induction (st_Types st) as [|ct' cts IH]; [by intros ?%elem_of_nil|].
  cbn [zero_conditions fmap list_fmap set_condition]. rewrite NoDup_cons, Forall2_cons.
  intros Hin [Hn Hnd] [Hz1 Hz2]. case_decide as Hname.
  - assert (ct = ct') as <-.
    { apply elem_of_cons in Hin as [->|Hin]; [done|]. exfalso. apply Hn, list_elem_of_fmap.
      by exists ct. }
    eexists. split; [done|]. split; [by constructor|]. cbn. rewrite Hreq. cbn.
    change (struct_set x || existsb (λ cx, ct_Required cx.1 && struct_set cx.2.2)
              (zip cts (zero_conditions cts)) = true). by rewrite Hset.
  - apply elem_of_cons in Hin as [->|Hin]; [done|].
    destruct (IH Hin Hnd Hz2) as (v & Hv & Ht & He).
    change (set_condition (ct_Name ct) x
      ((λ ct, (ct_Name ct, zero_field <$> (error_field <$> ct_Errors ct))) <$> cts))
      with (set_condition (ct_Name ct) x (zero_conditions cts)).
    rewrite Hv. eexists. split; [done|]. split; [by constructor|].
    cbn [zip zip_with existsb]. rewrite He. apply orb_true_r.
Qed.

Lemma status_test_ok : Forall (.= Some true) (status_test prog clock st).
Proof.
  unfold status_test. rewrite zero_status_declared. apply Forall_app.
  split; [apply assert_conditions_ok|]. destruct (st_Validation st) eqn:Hval; [|done].
  apply Forall_app. split.
  - constructor; [|done]. apply assert_valid_ok; [done|apply zero_conditions_typed|apply zeros_valid].
  - apply Forall_flat_map, Forall_forall. intros ct Hct. apply Forall_fmap, Forall_forall.
    intros error He. pose proof (proj1 (proj1 (elem_of_bfilter _ _ _) Hct)) as Hin. cbn.
    destruct (with_error_ok ct Hin error (ErrString "error") He) as (x & -> & Hx & Hset & _). cbn.
    destruct (set_condition_ok ct x Hct Hx Hset) as (v & -> & Hv & Hb). cbn.
    by apply assert_valid_ok.
Qed.
End test.
End tests_pass.

(** The generated tests pass.  For every description without string
    errors whose code compiles, every assertion of the generated test file
    compiles, runs and holds. *)
Theorem generated_tests_pass `{MultierrorFormat} sts clock :
  go_compiles (generated sts) = true →
  (∀ st ct error, st ∈ sts → ct ∈ st_Types st → error ∈ ct_Errors ct → rt_String error = false) →
  Forall (.= Some true) (statusTestsTemplate (generated sts) clock (status_normalize <$> sts)).
Proof.
  intros Hc Hs. apply Forall_flat_map, Forall_forall. intros st Hst.
  assert (∀ st ct error, st ∈ status_normalize <$> sts → ct ∈ st_Types st →
    error ∈ ct_Errors ct → rt_String error = false) as Hs'.
  { intros ? ? ? (st0 & -> & Hst0)%list_elem_of_fmap (ct0 & -> & Hct0)%list_elem_of_fmap
      (error0 & -> & He0)%list_elem_of_fmap. cbn. by eapply Hs. }
  unfold status_tests. apply Forall_app. split; [|apply Forall_app; split].
  - apply Forall_flat_map, Forall_forall. intros ct Hct. by apply (condition_test_ok _ _ Hc Hs').
  - by apply (status_test_ok _ _ Hc Hs').
  - apply Forall_flat_map, Forall_forall. intros ct Hct. by apply (marshaling_test_ok _ _ Hc Hs').
Qed.

(** ** Comments *)

Lemma token_app sep a b :
  strings_Split sep a = [a] → strings_Split sep b = [b] → strings_Split sep (a +:+ b) = [a +:+ b].
Proof.
  intros Ha Hb. induction a as [|c a IH]; [done|].
  apply token_cons in Ha as [Hc Ha]. apply token_cons. auto.
Qed.

Lemma split_tokens sep sep' s :
  sep' = sep ∨ strings_Split sep' s = [s] →
  Forall (λ t, strings_Split sep' t = [t]) (strings_Split sep s).
Proof.
  intros Hs. induction s as [|c s IH]; [by repeat constructor|]. cbn [strings_Split].
  assert (Forall (λ t, strings_Split sep' t = [t]) (strings_Split sep s)) as Hall.
  { apply IH. destruct Hs as [Hs|Hs]; [by left|]. right. by apply token_cons in Hs as [_ Hs]. }
  case_decide as Hc; [by constructor|].
  destruct (strings_Split sep s) as [|t ts] eqn:Ht; [by apply strings_Split_ne in Ht|].
  apply Forall_cons in Hall as [Htok Hall]. constructor; [|done]. apply token_cons.
  split; [|done]. destruct Hs as [->|Hs]; [done|]. by apply token_cons in Hs as [Hs _].
Qed.

Lemma strings_Split_sep_app sep l d :
  strings_Split sep (l +:+ String sep d) = strings_Split sep l ++ strings_Split sep d.
Proof.
  induction l as [|c l IH]; simpl.
  - by rewrite decide_True.
  - rewrite IH. case_decide; [done|].
    destruct (strings_Split sep l) as [|t ts] eqn:Ht; [by apply strings_Split_ne in Ht|done].
Qed.

Definition one_line (s : string) : Prop := strings_Split newline s = [s].

(** The words of a text. *)
Definition nonempty (s : string) : bool := negb (bool_decide (s = "")).
Definition words (s : string) : list string := List.filter nonempty (strings_Split " " s).

Definition wrapped (ts : list string) (acc : list string * string) : Prop :=
  concat (words <$> acc.1) ++ words acc.2 = List.filter nonempty ts ∧
  Forall (λ l, String.length l ≤ lineLength ∨ l ∈ ts) (acc.1 ++ [acc.2]) ∧
  Forall one_line (acc.1 ++ [acc.2]).

Lemma wrap_token_wrapped ts acc t :
  strings_Split " " t = [t] → one_line t → wrapped ts acc → wrapped (ts ++ [t]) (wrap_token acc t).
Proof.
  intros Ht H1 (Hw & Hlen & Hone). destruct acc as [lines cur]. cbn [fst snd] in *.
  rewrite !Forall_app, !Forall_singleton in *.
  assert (words t = List.filter nonempty [t]) as Hwt by (unfold words; by rewrite Ht).
  assert (∀ l, String.length l ≤ lineLength ∨ l ∈ ts → String.length l ≤ lineLength ∨ l ∈ ts ++ [t]) as Hmono
    by set_solver.
  assert (Forall (λ l, String.length l ≤ lineLength ∨ l ∈ ts ++ [t]) lines) as Hlines
    by (eapply Forall_impl; [apply Hlen|exact Hmono]).
  unfold wrapped, wrap_token.
  destruct (lineLength <? _) eqn:Hlt; cbn [fst snd];
    [rewrite decide_True by done|case_decide as Hcur];
    cbn [fst snd]; rewrite !Forall_app, !Forall_singleton, List.filter_app, <- Hwt, <- Hw.
  - rewrite fmap_app, concat_app. cbn. rewrite app_nil_r. split; [done|].
    split; [|tauto]. split; [split; [done|apply Hmono; tauto]|]. set_solver.
  - subst cur. cbn [words strings_Split List.filter]. rewrite app_nil_r. split; [done|].
    split; [|tauto]. split; [done|set_solver].
  - unfold words at 2. change (cur +:+ " " +:+ t) with (cur +:+ String " " t).
    rewrite strings_Split_sep_app, List.filter_app. split; [by rewrite app_assoc|]. split; split; try tauto.
    + left. rewrite Nat.ltb_ge in Hlt. rewrite length_append. cbn [String.length]. lia.
    + apply token_app; [tauto|]. by apply token_cons.
Qed.

Lemma wrapLine_wrapped line : one_line line →
  concat (words <$> wrapLine line) = words line ∧
  Forall (λ l, String.length l ≤ lineLength ∨ l ∈ strings_Split " " line) (wrapLine line) ∧
  Forall one_line (wrapLine line).
Proof.
  intros H1. unfold wrapLine. destruct (String.length line <=? lineLength) eqn:Hl.
  { cbn. rewrite app_nil_r, !Forall_singleton. apply Nat.leb_le in Hl. tauto. }
  assert (∀ ts' ts acc, Forall (λ t, strings_Split " " t = [t]) ts' → Forall one_line ts' →
    wrapped ts acc → wrapped (ts ++ ts') (foldl wrap_token acc ts')) as Hfold.
  { induction ts' as [|t ts' IH]; intros ts acc Ha Hb Hacc; [by rewrite app_nil_r|].
    apply Forall_cons in Ha as [Ha ?], Hb as [Hb ?]. cbn [foldl].
    rewrite cons_middle, app_assoc. apply IH; [done|done|]. by apply wrap_token_wrapped. }
  specialize (Hfold (strings_Split " " line) [] ([], "")).
  destruct (foldl wrap_token _ _) as [lines cur]. destruct Hfold as (Hw & Hlen & Hone).
  - apply split_tokens. by left.
  - apply split_tokens. by right.
  - split_and!; [done| |]; repeat constructor.
  - cbn [fst snd] in *. rewrite fmap_app, concat_app. cbn. rewrite app_nil_r. done.
Qed.

Lemma comment_lines_one name comment support :
  one_line name → Forall one_line support →
  Forall one_line
    (let wrappedLines := concat (imap (comment_line name) (strings_Split newline comment)) in
     match support with
     | [] => wrappedLines
     | _ => wrappedLines ++ [""; "[" +:+ strings_Join support ", " +:+ "]"]
     end).
Proof.
  intros Hname Hsupport.
  assert (Forall one_line (concat (imap (comment_line name) (strings_Split newline comment)))) as Hc.
  { pose proof (split_tokens newline newline comment (or_introl eq_refl)) as Hall.
    apply Forall_concat, Forall_lookup. intros i ls Hls.
    apply list_lookup_imap_Some in Hls as (line & Hline & ->).
    pose proof (Forall_lookup_1 _ _ _ _ Hall Hline) as H1. unfold comment_line.
    apply Forall_app. split; [by case_decide; repeat constructor|].
    apply wrapLine_wrapped. case_decide; [|done]. repeat apply token_app; done. }
  destruct support as [|x xs]; [done|]. apply Forall_app. split; [done|].
  constructor; [done|]. constructor; [|done]. apply token_app; [done|]. apply token_app; [|done].
  apply Forall_cons in Hsupport as [Hx Hxs]. revert x Hx.
  induction Hxs as [|y ys Hy _ IH]; intros x Hx; [done|].
  change (strings_Join (x :: y :: ys) ", ") with (x +:+ ", " +:+ strings_Join (y :: ys) ", ").
  apply token_app; [done|]. apply token_app; [done|]. by apply IH.
Qed.

(** Comments stay comments.  When the names and the support notes are
    single lines, everything [writeComment] prints is on lines that start with
    [//], whatever the description contains; wrapping a line keeps its words
    in order, and a wrapped line is longer than the limit only when it is a
    single word. *)
Theorem comments_wrapped name comment support :
  one_line name → Forall one_line support →
  comment_ok (writeComment name comment support) = true ∧
  ∀ line, line ∈ strings_Split newline comment →
    concat (words <$> wrapLine line) = words line ∧
    ∀ l, l ∈ wrapLine line →
      String.length l ≤ lineLength ∨ l ∈ strings_Split " " line.
Proof.
  intros Hname Hsupport. split.
  - unfold comment_ok, writeComment.
    match goal with |- context [strings_Join ((λ line, _) <$> ?ls) _] => set (lines := ls) end.
    assert (Forall one_line lines) as Hlines by (apply comment_lines_one; done).
    apply orb_true_iff. destruct (decide (lines = [])) as [->|Hne]; [by left|]. right.
    rewrite strings_Split_Join; [|intros Hnil; by apply Hne, (fmap_nil_inv _ _ Hnil)|].
    + apply forallb_forall. intros l Hl%list_elem_of_In.
      by apply list_elem_of_fmap in Hl as (l' & -> & _).
    + apply Forall_fmap. eapply Forall_impl; [exact Hlines|]. intros l Hl. cbn.
      by repeat (apply token_cons; split; [done|]).
  - intros line Hin. assert (one_line line) as H1.
    { pose proof (split_tokens newline newline comment (or_introl eq_refl)) as Hall.
      by apply (proj1 (Forall_forall _ _) Hall). }
    destruct (wrapLine_wrapped line H1) as (Hw & Hlen & _). split; [done|].
    by apply Forall_forall.
Qed.
