(* ===== verification/StatusesYaml.v ===== *)
(** * The description of the statuses ([internal/k8s/reconciler/status/statuses.yaml])

    The file as the generator decodes it. *)

From S2P Require Import Prelude GoFragment Generator.

(** A folded scalar: its paragraphs, each ended by a newline. *)
Definition paragraphs (ps : list string) : string :=
  strings_Join ps (String newline "") +:+ String newline "".

Definition dq : string := String quote_char "".
Definition no_override : statusOverride := mkStatusOverride false false.

Definition GatewayClass_Accepted_type : conditionType :=
  mkConditionType "Accepted"
    (paragraphs ["This condition indicates whether the GatewayClass has been accepted by the " +:+
                "controller requested in the spec.controller field.";
                "This condition defaults to Unknown, and MUST be set by a controller when it sees a " +:+
                "GatewayClass using its controller string. The status of this condition MUST be set " +:+
                "to True if the controller will support provisioning Gateways using this class. " +:+
                "Otherwise, this status MUST be set to False. If the status is set to False, the " +:+
                "controller SHOULD set a Message and Reason as an explanation."])
    false false false
    (mkReasonType ""
      (paragraphs ["This reason is used with the “Accepted” condition when the condition is true."])
      "" "" no_override false)
    ""
    [(mkReasonType "InvalidParameters"
      (paragraphs ["This reason is used with the “Accepted” condition when the GatewayClass was not " +:+
                  "accepted because the parametersRef field was invalid, with more detail in the " +:+
                  "message."])
      "" "" no_override false);
     (mkReasonType "Waiting"
      (paragraphs ["This reason is used with the “Accepted” condition when the requested controller has " +:+
                  "not yet made a decision about whether to admit the GatewayClass. It is the default " +:+
                  "Reason on a new GatewayClass."])
      "" "" no_override false)].

Definition GatewayClass_description : status :=
  mkStatus "GatewayClass"
    "Defines the observed state of a GatewayClass."
    false
    [GatewayClass_Accepted_type].

Definition Gateway_Ready_type : conditionType :=
  mkConditionType "Ready"
    (paragraphs ["This condition is true when the Gateway is expected to be able to serve traffic. " +:+
                "Note that this does not indicate that the Gateway configuration is current or even " +:+
                "complete (e.g. the controller may still not have reconciled the latest version, or " +:+
                "some parts of the configuration could be missing).";
                "If both the “ListenersNotValid” and “ListenersNotReady” reasons are true, the " +:+
                "Gateway controller should prefer the “ListenersNotValid” reason."])
    false false false
    (mkReasonType ""
      (paragraphs ["This reason is used with the “Ready” condition when the condition is true."])
      "" "" no_override false)
    ""
    [(mkReasonType "ListenersNotValid"
      (paragraphs ["This reason is used with the “Ready” condition when one or more Listeners have an " +:+
                  "invalid or unsupported configuration and cannot be configured on the Gateway."])
      "" "" no_override false);
     (mkReasonType "ListenersNotReady"
      (paragraphs ["This reason is used with the “Ready” condition when one or more Listeners are not " +:+
                  "ready to serve traffic."])
      "" "" no_override false);
     (mkReasonType "AddressNotAssigned"
      (paragraphs ["This reason is used with the “Ready” condition when none of the requested addresses " +:+
                  "have been assigned to the Gateway. This reason can be used to express a range of " +:+
                  "circumstances, including (but not limited to) IPAM address exhaustion, invalid or " +:+
                  "unsupported address requests, or a named address not being found."])
      "" "" no_override false)].

Definition Gateway_Scheduled_type : conditionType :=
  mkConditionType "Scheduled"
    (paragraphs ["This condition is true when the controller managing the Gateway has scheduled the " +:+
                "Gateway to the underlying network infrastructure."])
    false false false
    (mkReasonType ""
      (paragraphs ["This reason is used with the “Scheduled” condition when the condition is true."])
      "" "" no_override false)
    ""
    [(mkReasonType "NotReconciled"
      (paragraphs ["This reason is used with the “Scheduled” condition when no controller has " +:+
                  "reconciled the Gateway."])
      "" "" no_override false);
     (mkReasonType "PodFailed"
      (paragraphs ["This reason is used when the underlying pod on the gateway has failed."])
      "" "custom" no_override false);
     (mkReasonType "Unknown"
      (paragraphs ["This reason is used when the underlying pod has an unhandled pod status."])
      "" "custom" no_override false);
     (mkReasonType "NoResources"
      (paragraphs ["This reason is used with the “Scheduled” condition when the Gateway is not " +:+
                  "scheduled because insufficient infrastructure resources are available."])
      "" "" no_override false)].

Definition Gateway_InSync_type : conditionType :=
  mkConditionType "InSync"
    (paragraphs ["This condition is true when the Gateway has successfully synced externally."])
    false false false
    (mkReasonType ""
      (paragraphs ["This reason is used with the “InSync” condition when the condition is true."])
      "" "" no_override false)
    ""
    [(mkReasonType "SyncError"
      (paragraphs ["This reason is used with the " +:+
                  dq +:+
                  "InSync" +:+
                  dq +:+
                  " condition when there has been an error encountered synchronizing the Gateway."])
      "" "" no_override false)].

Definition Gateway_description : status :=
  mkStatus "Gateway"
    "Defines the observed state of a Gateway."
    false
    [Gateway_Ready_type; Gateway_Scheduled_type; Gateway_InSync_type].

Definition Route_Accepted_type : conditionType :=
  mkConditionType "Accepted"
    (paragraphs ["This condition indicates whether the route has been accepted or rejected by a " +:+
                "Gateway, and why."])
    false true false
    (mkReasonType "Accepted"
      (paragraphs ["This reason is used with the " +:+
                  dq +:+
                  "Accepted" +:+
                  dq +:+
                  " condition when the condition is True."])
      "Route accepted." "custom" no_override false)
    ""
    [(mkReasonType "InvalidRouteKind"
      (paragraphs ["This reason is used when a Route is rejected from binding to a Listener because it " +:+
                  "does not match a Listener's allowed route kinds."])
      "" "custom" no_override false);
     (mkReasonType "ListenerNamespacePolicy"
      (paragraphs ["This reason is used when a Route is rejected from binding to a Gateway because it " +:+
                  "does not match a Listener's namespace attachment policy."])
      "" "custom" no_override false);
     (mkReasonType "ListenerHostnameMismatch"
      (paragraphs ["This reason is used when a Route is rejected from binding to a Listener becasue it " +:+
                  "does not match a Listener's hostname."])
      "" "custom" no_override false);
     (mkReasonType "BindError"
      (paragraphs ["This reason is used when there is a generic binding error for a Route."])
      "" "custom" no_override false)].

Definition Route_ResolvedRefs_type : conditionType :=
  mkConditionType "ResolvedRefs"
    (paragraphs ["This condition indicates whether the controller was able to resolve all the object " +:+
                "references for the Route."])
    false false false
    (mkReasonType ""
      (paragraphs ["This reason is used with the " +:+
                  dq +:+
                  "ResolvedRefs" +:+
                  dq +:+
                  " condition when the condition is True."])
      "" "custom" no_override false)
    ""
    [(mkReasonType "Errors"
      (paragraphs ["This reason is used when multiple resolution errors occur of varying types. See the " +:+
                  "condition message for more details."])
      "" "custom" no_override false);
     (mkReasonType "ServiceNotFound"
      (paragraphs ["This reason is used when a Route references Kubernetes services that the controller " +:+
                  "cannot resolve."])
      "" "custom" no_override false);
     (mkReasonType "ConsulServiceNotFound"
      (paragraphs ["This reason is used when a Route references services that the controller cannot " +:+
                  "resolve as services inside of Consul."])
      "" "custom" no_override false);
     (mkReasonType "RefNotPermitted"
      (paragraphs ["This reason is used with the “ResolvedRefs” condition when one of the Listener’s " +:+
                  "Routes has a BackendRef to an object in another namespace, where the object in the " +:+
                  "other namespace does not have a ReferenceGrant explicitly allowing the reference."])
      "" "" no_override false);
     (mkReasonType "InvalidKind"
      (paragraphs ["This reason is used when a Route references a backend with an unsupported group or " +:+
                  "kind."])
      "" "" no_override false);
     (mkReasonType "BackendNotFound"
      (paragraphs ["This reason is used when a Route references a backend with a supported kind but " +:+
                  "that does not exist."])
      "" "" no_override false)].

Definition Route_description : status :=
  mkStatus "Route"
    "The status associated with a Route with respect to a given parent."
    false
    [Route_Accepted_type; Route_ResolvedRefs_type].

Definition Listener_Conflicted_type : conditionType :=
  mkConditionType "Conflicted"
    (paragraphs ["This condition indicates that the controller was unable to resolve conflicting " +:+
                "specification requirements for this Listener. If a Listener is conflicted, its " +:+
                "network port should not be configured on any network elements."])
    true false true
    (mkReasonType "NoConflicts"
      (paragraphs ["This reason is used with the “Conflicted” condition when the condition is False."])
      "" "" no_override false)
    ""
    [(mkReasonType "HostnameConflict"
      (paragraphs ["This reason is used with the “Conflicted” condition when the Listener conflicts " +:+
                  "with hostnames in other Listeners. For example, this reason would be used when " +:+
                  "multiple Listeners on the same port use example.com in the hostname field."])
      "" "" no_override false);
     (mkReasonType "ProtocolConflict"
      (paragraphs ["This reason is used with the “Conflicted” condition when multiple Listeners are " +:+
                  "specified with the same Listener port number, but have conflicting protocol " +:+
                  "specifications."])
      "" "" no_override false);
     (mkReasonType "RouteConflict"
      (paragraphs ["This reason is used with the “Conflicted” condition when the route resources " +:+
                  "selected for this Listener conflict with other specified properties of the Listener " +:+
                  "(e.g. Protocol). For example, a Listener that specifies “UDP” as the protocol but a " +:+
                  "route selector that resolves “TCPRoute” objects."])
      "" "" no_override false)].

Definition Listener_Detached_type : conditionType :=
  mkConditionType "Detached"
    (paragraphs ["This condition indicates that, even though the listener is syntactically and " +:+
                "semantically valid, the controller is not able to configure it on the underlying " +:+
                "Gateway infrastructure.";
                "A Listener is specified as a logical requirement, but needs to be configured on a " +:+
                "network endpoint (i.e. address and port) by a controller. The controller may be " +:+
                "unable to attach the Listener if it specifies an unsupported requirement, or " +:+
                "prerequisite resources are not available."])
    true false true
    (mkReasonType "Attached"
      (paragraphs ["This reason is used with the “Detached” condition when the condition is False."])
      "" "" no_override false)
    ""
    [(mkReasonType "PortUnavailable"
      (paragraphs ["This reason is used with the “Detached” condition when the Listener requests a port " +:+
                  "that cannot be used on the Gateway. This reason could be used in a number of " +:+
                  "instances, including:";
                  "- The port is already in use.";
                  "- The port is not supported by the implementation."])
      "" "" no_override false);
     (mkReasonType "UnsupportedExtension"
      (paragraphs ["This reason is used with the “Detached” condition when the controller detects that " +:+
                  "an implementation-specific Listener extension is being requested, but is not able " +:+
                  "to support the extension."])
      "" "" no_override false);
     (mkReasonType "UnsupportedProtocol"
      (paragraphs ["This reason is used with the “Detached” condition when the Listener could not be " +:+
                  "attached to be Gateway because its protocol type is not supported."])
      "" "" no_override false);
     (mkReasonType "UnsupportedAddress"
      (paragraphs ["This reason is used with the “Detached” condition when the Listener could not be " +:+
                  "attached to the Gateway because the requested address is not supported. This reason " +:+
                  "could be used in a number of instances, including:";
                  "- The address is already in use.";
                  "- The type of address is not supported by the implementation."])
      "" "" no_override false)].

Definition Listener_Ready_type : conditionType :=
  mkConditionType "Ready"
    (paragraphs ["This condition indicates whether the Listener has been configured on the Gateway."])
    false false false
    (mkReasonType ""
      (paragraphs ["This reason is used with the “Ready” condition when the condition is true."])
      "" "" no_override false)
    ""
    [(mkReasonType "Invalid"
      (paragraphs ["This reason is used with the “Ready” condition when the Listener is syntactically " +:+
                  "or semantically invalid."])
      "" "" no_override false);
     (mkReasonType "Pending"
      (paragraphs ["This reason is used with the “Ready” condition when the Listener is not yet not " +:+
                  "online and ready to accept client traffic."])
      "" "" no_override false)].

Definition Listener_ResolvedRefs_type : conditionType :=
  mkConditionType "ResolvedRefs"
    (paragraphs ["This condition indicates whether the controller was able to resolve all the object " +:+
                "references for the Listener."])
    true false false
    (mkReasonType ""
      (paragraphs ["This reason is used with the “ResolvedRefs” condition when the condition is true."])
      "" "" no_override false)
    ""
    [(mkReasonType "InvalidCertificateRef"
      (paragraphs ["This reason is used with the “ResolvedRefs” condition when the Listener has a TLS " +:+
                  "configuration with at least one TLS CertificateRef that is invalid or cannot be " +:+
                  "resolved."])
      "" "" no_override false);
     (mkReasonType "InvalidRouteKinds"
      (paragraphs ["This reason is used with the “ResolvedRefs” condition when an invalid or " +:+
                  "unsupported Route kind is specified by the Listener."])
      "" "" no_override false);
     (mkReasonType "RefNotPermitted"
      (paragraphs ["This reason is used with the “ResolvedRefs” condition when one of the Listener’s " +:+
                  "Routes has a BackendRef to an object in another namespace, where the object in the " +:+
                  "other namespace does not have a ReferenceGrant explicitly allowing the reference."])
      "" "" no_override false)].

Definition Listener_description : status :=
  mkStatus "Listener"
    (paragraphs ["The status associated with a Listener."])
    true
    [Listener_Conflicted_type; Listener_Detached_type; Listener_Ready_type; Listener_ResolvedRefs_type].

Definition statuses_yaml : list status :=
  [GatewayClass_description; Gateway_description; Route_description; Listener_description].
