(* ===== verification/GeneratedStatuses.v ===== *)
(** * The generated code of the statuses ([zz_generated_status.go])

    [Status] has the status types as the repository has them, in the file the
    generator wrote.  Here they are compared with what the generator makes of
    [statuses.yaml]: the code compiles, and running its methods gives what the
    definitions of [Status] compute. *)

From S2P Require Import Prelude Errors Json K8s Status GoFragment Generator StatusesYaml.

(** The generated program. *)
Definition status_code : list GoDecl := generated statuses_yaml.
#[global] Arguments status_code : simpl never.

Lemma status_code_compiles : go_compiles status_code = true.
Proof. by vm_compute. Qed.

(** A struct of [Status] as a value of the generated type. *)
Definition embed (errs : list (string * option error)) : StructVal :=
  (λ ne, (ne.1, FError ne.2)) <$> errs.

Lemma embed_typed ct errs :
  errs.*1 = rt_Name <$> ct_Errors ct → Forall (λ error, rt_String error = false) (ct_Errors ct) →
  struct_typed ct (embed errs).
Proof.
  unfold struct_typed, embed. intros Hn Hs. apply Forall2_fmap_r. revert errs Hn.
  induction Hs as [|error errors Hs _ IH]; intros [|[n e] errs] Hn; try done.
  cbn in Hn. injection Hn as -> Hn. constructor; [done|]. by apply IH.
Qed.

Ltac solve_typed :=
  repeat first
    [ apply Forall2_nil_2
    | apply Forall2_cons_2;
      [split; [reflexivity|]; apply embed_typed; [reflexivity|];
        repeat first [apply List.Forall_nil | apply List.Forall_cons; [reflexivity|]]|] ].

Ltac find_element := repeat first [apply list_elem_of_here | apply list_elem_of_further].

Section generated.
Context {MF : MultierrorFormat}.

(** The generated type [T] is what [Status] defines. *)
Record implements {S : Type} (T : string) (errors : S → list (string * option error))
    (condition : S → Z → Z → Condition) (hasError : option (S → bool)) (marshal : S → json)
    (unmarshal : S → json → result S) : Prop := {
  implements_Condition s clock generation n :
    call_struct status_code clock generation T "Condition" (embed (errors s)) n =
    Some (VCondition (condition s generation (clock n)), Nat.succ n);
  implements_HasError s clock generation n h :
    hasError = Some h →
    call_struct status_code clock generation T "HasError" (embed (errors s)) n =
    Some (VBool (h s), n);
  implements_MarshalJSON s clock generation input n :
    run_struct status_code clock generation T "MarshalJSON" (embed (errors s)) input n =
    Some (VJson (marshal s), RStruct (embed (errors s)), n);
  implements_UnmarshalJSON s clock generation input n :
    run_struct status_code clock generation T "UnmarshalJSON" (embed (errors s)) input n =
    match unmarshal s input with
    | Ok s' => Some (VError None, RStruct (embed (errors s')), n)
    | Err e => Some (VError (Some e), RStruct (embed (errors s)), n)
    end
}.

(** ** Lemmas *)

Definition plain_reason (error : reasonType) : bool :=
  negb (so_Override (rt_Status error)) && negb (rt_String error).

Lemma first_set_condition_of k ct errs generation now :
  ck_type k = ct_Name ct → ck_invert k = ct_Invert ct →
  ck_base k = rt_Name (ct_Base ct) → ck_message k = rt_Message (ct_Base ct) →
  plain_reason (ct_Base ct) = true → forallb plain_reason (ct_Errors ct) = true →
  errs.*1 = rt_Name <$> ct_Errors ct →
  first_set ct (ct_Errors ct) (embed errs) generation now = condition_of k errs generation now.
Proof.
  intros Ht Hi Hb Hm Hp Hps. unfold condition_of, embed. rewrite Ht, Hi, Hb, Hm.
  unfold plain_reason in *. apply andb_true_iff in Hp as [Ho%negb_true_iff _].
  revert errs. induction (ct_Errors ct) as [|error errors IH]; intros [|[n e] errs] Hn; try done.
  - cbn. unfold base_status. rewrite Ho. by destruct (ct_Invert ct).
  - cbn in Hn. injection Hn as -> Hn. cbn in Hps.
    apply andb_true_iff in Hps as [[Hov%negb_true_iff _]%andb_true_iff Hps].
    destruct e as [e|]; cbn; [|by apply IH]. unfold error_status. by rewrite Hov.
Qed.

Lemma struct_set_embed errs : struct_set (embed errs) = has_error errs.
Proof. induction errs as [|[n e] errs IH]; [done|]. cbn. by f_equal. Qed.

Lemma text_map_embed errs : text_map (embed errs) = error_texts errs.
Proof.
  unfold text_map, error_texts, embed. generalize (∅ : gmap string string).
  induction errs as [|[n [e|]] errs IH]; intros acc; [done|..]; apply IH.
Qed.

Lemma read_field_embed data errs :
  read_field data <$> embed errs = embed ((λ ne, (ne.1, read_error data ne.1 ne.2)) <$> errs).
Proof. unfold embed. rewrite <- !list_fmap_compose. done. Qed.

(** A type of the description and the struct of [Status] with the same reasons
    agree. *)
Lemma implements_intro {S} st ct k T (errors : S → list (string * option error))
    condition hasError marshal unmarshal :
  st ∈ status_normalize <$> statuses_yaml → ct ∈ st_Types st → T = struct_name st ct →
  ck_type k = ct_Name ct → ck_invert k = ct_Invert ct →
  ck_base k = rt_Name (ct_Base ct) → ck_message k = rt_Message (ct_Base ct) →
  plain_reason (ct_Base ct) = true → forallb plain_reason (ct_Errors ct) = true →
  (∀ s, (errors s).*1 = rt_Name <$> ct_Errors ct) →
  (∀ s g now, condition s g now = condition_of k (errors s) g now) →
  (∀ s h, hasError = Some h → ct_Ignore ct = false ∧ h s = has_error (errors s)) →
  (∀ s, marshal s = json_Marshal_map JString (error_texts (errors s))) →
  (∀ s b, match json_Unmarshal_map json_Unmarshal_string b with
          | Ok data => ∃ s', unmarshal s b = Ok s' ∧
              errors s' = (λ ne, (ne.1, read_error data ne.1 ne.2)) <$> errors s
          | Err e => unmarshal s b = Err e
          end) →
  implements T errors condition hasError marshal unmarshal.
Proof.
  intros Hst Hct -> Ht Hi Hb Hm Hp Hps Hn Hc Hh Hma Hu.
  pose proof status_code_compiles as Hcomp.
  assert (∀ s, struct_typed ct (embed (errors s))) as Hty.
  { intros s. apply embed_typed; [done|]. rewrite forallb_forall in Hps. apply Forall_forall.
    intros error Hin%list_elem_of_In. apply Hps in Hin. unfold plain_reason in Hin.
    by apply andb_true_iff in Hin as [_ ?%negb_true_iff]. }
  split.
  - intros. rewrite (run_Condition _ Hcomp st Hst ct Hct) by done.
    by rewrite Hc, (first_set_condition_of k).
  - intros s clock generation n h Hsome. destruct (Hh s h Hsome) as [Hig ->].
    rewrite (run_HasError _ Hcomp st Hst ct Hct) by done. by rewrite struct_set_embed.
  - intros. rewrite (run_MarshalJSON _ Hcomp st Hst ct Hct) by done. by rewrite text_map_embed, Hma.
  - intros s clock generation input n. specialize (Hu s input).
    destruct (json_Unmarshal_map json_Unmarshal_string input) as [data|e] eqn:Hd.
    + destruct Hu as (s' & -> & He). rewrite (run_UnmarshalJSON _ Hcomp st Hst ct Hct _ _ _ _ data) by done.
      by rewrite read_field_embed, He.
    + rewrite Hu. by apply (run_UnmarshalJSON_error _ Hcomp st Hst ct Hct).
Qed.


Ltac solve_implements st ct kind unmarshal :=
  eapply (implements_intro (status_normalize st) (conditionType_normalize ct) kind);
  [ apply list_elem_of_fmap_2; find_element
  | apply list_elem_of_fmap_2; find_element
  | reflexivity .. | | | | | ];
  [ intros; reflexivity
  | intros; reflexivity
  | intros s h [= <-]; split; reflexivity
  | intros; reflexivity
  | intros s b; unfold unmarshal;
    destruct (json_Unmarshal_map json_Unmarshal_string b); [|reflexivity];
    eexists; split; reflexivity ].

Lemma GatewayClassAcceptedStatus_implements :
  implements "GatewayClassAcceptedStatus" GatewayClassAcceptedStatus_errors GatewayClassAcceptedStatus_Condition
    (Some GatewayClassAcceptedStatus_HasError) GatewayClassAcceptedStatus_MarshalJSON GatewayClassAcceptedStatus_UnmarshalJSON.
Proof. solve_implements GatewayClass_description GatewayClass_Accepted_type GatewayClassAcceptedStatus_kind GatewayClassAcceptedStatus_UnmarshalJSON. Qed.

Lemma GatewayReadyStatus_implements :
  implements "GatewayReadyStatus" GatewayReadyStatus_errors GatewayReadyStatus_Condition
    (Some GatewayReadyStatus_HasError) GatewayReadyStatus_MarshalJSON GatewayReadyStatus_UnmarshalJSON.
Proof. solve_implements Gateway_description Gateway_Ready_type GatewayReadyStatus_kind GatewayReadyStatus_UnmarshalJSON. Qed.

Lemma GatewayScheduledStatus_implements :
  implements "GatewayScheduledStatus" GatewayScheduledStatus_errors GatewayScheduledStatus_Condition
    (Some GatewayScheduledStatus_HasError) GatewayScheduledStatus_MarshalJSON GatewayScheduledStatus_UnmarshalJSON.
Proof. solve_implements Gateway_description Gateway_Scheduled_type GatewayScheduledStatus_kind GatewayScheduledStatus_UnmarshalJSON. Qed.

Lemma GatewayInSyncStatus_implements :
  implements "GatewayInSyncStatus" GatewayInSyncStatus_errors GatewayInSyncStatus_Condition
    (Some GatewayInSyncStatus_HasError) GatewayInSyncStatus_MarshalJSON GatewayInSyncStatus_UnmarshalJSON.
Proof. solve_implements Gateway_description Gateway_InSync_type GatewayInSyncStatus_kind GatewayInSyncStatus_UnmarshalJSON. Qed.

Lemma RouteAcceptedStatus_implements :
  implements "RouteAcceptedStatus" RouteAcceptedStatus_errors RouteAcceptedStatus_Condition
    None RouteAcceptedStatus_MarshalJSON RouteAcceptedStatus_UnmarshalJSON.
Proof. solve_implements Route_description Route_Accepted_type RouteAcceptedStatus_kind RouteAcceptedStatus_UnmarshalJSON. Qed.

Lemma RouteResolvedRefsStatus_implements :
  implements "RouteResolvedRefsStatus" RouteResolvedRefsStatus_errors RouteResolvedRefsStatus_Condition
    (Some RouteResolvedRefsStatus_HasError) RouteResolvedRefsStatus_MarshalJSON RouteResolvedRefsStatus_UnmarshalJSON.
Proof. solve_implements Route_description Route_ResolvedRefs_type RouteResolvedRefsStatus_kind RouteResolvedRefsStatus_UnmarshalJSON. Qed.

Lemma ListenerConflictedStatus_implements :
  implements "ListenerConflictedStatus" ListenerConflictedStatus_errors ListenerConflictedStatus_Condition
    (Some ListenerConflictedStatus_HasError) ListenerConflictedStatus_MarshalJSON ListenerConflictedStatus_UnmarshalJSON.
Proof. solve_implements Listener_description Listener_Conflicted_type ListenerConflictedStatus_kind ListenerConflictedStatus_UnmarshalJSON. Qed.

Lemma ListenerDetachedStatus_implements :
  implements "ListenerDetachedStatus" ListenerDetachedStatus_errors ListenerDetachedStatus_Condition
    (Some ListenerDetachedStatus_HasError) ListenerDetachedStatus_MarshalJSON ListenerDetachedStatus_UnmarshalJSON.
Proof. solve_implements Listener_description Listener_Detached_type ListenerDetachedStatus_kind ListenerDetachedStatus_UnmarshalJSON. Qed.

Lemma ListenerReadyStatus_implements :
  implements "ListenerReadyStatus" ListenerReadyStatus_errors ListenerReadyStatus_Condition
    (Some ListenerReadyStatus_HasError) ListenerReadyStatus_MarshalJSON ListenerReadyStatus_UnmarshalJSON.
Proof. solve_implements Listener_description Listener_Ready_type ListenerReadyStatus_kind ListenerReadyStatus_UnmarshalJSON. Qed.

Lemma ListenerResolvedRefsStatus_implements :
  implements "ListenerResolvedRefsStatus" ListenerResolvedRefsStatus_errors ListenerResolvedRefsStatus_Condition
    (Some ListenerResolvedRefsStatus_HasError) ListenerResolvedRefsStatus_MarshalJSON ListenerResolvedRefsStatus_UnmarshalJSON.
Proof. solve_implements Listener_description Listener_ResolvedRefs_type ListenerResolvedRefsStatus_kind ListenerResolvedRefsStatus_UnmarshalJSON. Qed.

(** ** The structs of all conditions *)

Definition embed_GatewayClassStatus (s : GatewayClassStatus) : list (string * StructVal) :=
  [("Accepted", embed (GatewayClassAcceptedStatus_errors (gcs_Accepted s)))].

Definition embed_GatewayStatus (s : GatewayStatus) : list (string * StructVal) :=
  [("Ready", embed (GatewayReadyStatus_errors (gs_Ready s)));
   ("Scheduled", embed (GatewayScheduledStatus_errors (gs_Scheduled s)));
   ("InSync", embed (GatewayInSyncStatus_errors (gs_InSync s)))].

Definition embed_RouteStatus (s : RouteStatus) : list (string * StructVal) :=
  [("Accepted", embed (RouteAcceptedStatus_errors (rst_Accepted s)));
   ("ResolvedRefs", embed (RouteResolvedRefsStatus_errors (rst_ResolvedRefs s)))].

Definition embed_ListenerStatus (s : ListenerStatus) : list (string * StructVal) :=
  [("Conflicted", embed (ListenerConflictedStatus_errors (ls_Conflicted s)));
   ("Detached", embed (ListenerDetachedStatus_errors (ls_Detached s)));
   ("Ready", embed (ListenerReadyStatus_errors (ls_Ready s)));
   ("ResolvedRefs", embed (ListenerResolvedRefsStatus_errors (ls_ResolvedRefs s)))].

Lemma reported_cons ct cts m x v clock generation n c cs :
  first_set ct (ct_Errors ct) x generation (clock n) = c →
  reported cts v clock generation (S n) = cs →
  reported (ct :: cts) ((m, x) :: v) clock generation n = c :: cs.
Proof. by intros <- <-. Qed.

Ltac solve_conditions st :=
  rewrite (run_Conditions _ status_code_compiles (status_normalize st));
  [| apply list_elem_of_fmap_2; find_element | unfold status_typed; solve_typed ];
  apply f_equal; apply f_equal2; [apply f_equal|reflexivity];
  repeat (apply reported_cons; [eapply first_set_condition_of; reflexivity|]); reflexivity.

Lemma GatewayClassStatus_Conditions_generated s clock generation :
  run_status status_code clock generation "GatewayClassStatus" "Conditions" (embed_GatewayClassStatus s) 0 =
  Some (VConditions (GatewayClassStatus_Conditions s generation clock), 1).
Proof. unfold GatewayClassStatus_Conditions. solve_conditions GatewayClass_description. Qed.

Lemma GatewayStatus_Conditions_generated s clock generation :
  run_status status_code clock generation "GatewayStatus" "Conditions" (embed_GatewayStatus s) 0 =
  Some (VConditions (GatewayStatus_Conditions s generation clock), 3).
Proof. unfold GatewayStatus_Conditions. solve_conditions Gateway_description. Qed.

Lemma RouteStatus_Conditions_generated s clock generation :
  run_status status_code clock generation "RouteStatus" "Conditions" (embed_RouteStatus s) 0 =
  Some (VConditions (RouteStatus_Conditions s generation clock), 2).
Proof. unfold RouteStatus_Conditions. solve_conditions Route_description. Qed.

Lemma ListenerStatus_Conditions_generated s clock generation :
  run_status status_code clock generation "ListenerStatus" "Conditions" (embed_ListenerStatus s) 0 =
  Some (VConditions (ListenerStatus_Conditions s generation clock), 4).
Proof. unfold ListenerStatus_Conditions. solve_conditions Listener_description. Qed.

Lemma ListenerStatus_Valid_generated s clock generation n :
  run_status status_code clock generation "ListenerStatus" "Valid" (embed_ListenerStatus s) n =
  Some (VBool (ListenerStatus_Valid s), n).
Proof.
  rewrite (run_Valid _ status_code_compiles (status_normalize Listener_description));
    [| apply list_elem_of_fmap_2; find_element | reflexivity | unfold status_typed; solve_typed ].
  do 2 f_equal. unfold ListenerStatus_Valid, ListenerConflictedStatus_HasError,
    ListenerDetachedStatus_HasError, ListenerResolvedRefsStatus_HasError.
  rewrite <- !struct_set_embed. cbn -[struct_set embed ListenerConflictedStatus_errors
    ListenerDetachedStatus_errors ListenerReadyStatus_errors ListenerResolvedRefsStatus_errors].
  destruct (struct_set _), (struct_set _), (struct_set _); reflexivity.
Qed.
End generated.

(** C34: the statuses of the repository are the generated ones.  The code that
    the generator prints for [statuses.yaml] compiles, and running its methods,
    for all ten condition structs and the four structs of all conditions, gives
    exactly what the definitions of [Status] compute, decoding errors
    included. *)
Theorem status_code_is_generated `{MultierrorFormat} :
  go_compiles status_code = true ∧
  implements "GatewayClassAcceptedStatus" GatewayClassAcceptedStatus_errors GatewayClassAcceptedStatus_Condition
    (Some GatewayClassAcceptedStatus_HasError) GatewayClassAcceptedStatus_MarshalJSON GatewayClassAcceptedStatus_UnmarshalJSON ∧
  implements "GatewayReadyStatus" GatewayReadyStatus_errors GatewayReadyStatus_Condition
    (Some GatewayReadyStatus_HasError) GatewayReadyStatus_MarshalJSON GatewayReadyStatus_UnmarshalJSON ∧
  implements "GatewayScheduledStatus" GatewayScheduledStatus_errors GatewayScheduledStatus_Condition
    (Some GatewayScheduledStatus_HasError) GatewayScheduledStatus_MarshalJSON GatewayScheduledStatus_UnmarshalJSON ∧
  implements "GatewayInSyncStatus" GatewayInSyncStatus_errors GatewayInSyncStatus_Condition
    (Some GatewayInSyncStatus_HasError) GatewayInSyncStatus_MarshalJSON GatewayInSyncStatus_UnmarshalJSON ∧
  implements "RouteAcceptedStatus" RouteAcceptedStatus_errors RouteAcceptedStatus_Condition
    None RouteAcceptedStatus_MarshalJSON RouteAcceptedStatus_UnmarshalJSON ∧
  implements "RouteResolvedRefsStatus" RouteResolvedRefsStatus_errors RouteResolvedRefsStatus_Condition
    (Some RouteResolvedRefsStatus_HasError) RouteResolvedRefsStatus_MarshalJSON RouteResolvedRefsStatus_UnmarshalJSON ∧
  implements "ListenerConflictedStatus" ListenerConflictedStatus_errors ListenerConflictedStatus_Condition
    (Some ListenerConflictedStatus_HasError) ListenerConflictedStatus_MarshalJSON ListenerConflictedStatus_UnmarshalJSON ∧
  implements "ListenerDetachedStatus" ListenerDetachedStatus_errors ListenerDetachedStatus_Condition
    (Some ListenerDetachedStatus_HasError) ListenerDetachedStatus_MarshalJSON ListenerDetachedStatus_UnmarshalJSON ∧
  implements "ListenerReadyStatus" ListenerReadyStatus_errors ListenerReadyStatus_Condition
    (Some ListenerReadyStatus_HasError) ListenerReadyStatus_MarshalJSON ListenerReadyStatus_UnmarshalJSON ∧
  implements "ListenerResolvedRefsStatus" ListenerResolvedRefsStatus_errors ListenerResolvedRefsStatus_Condition
    (Some ListenerResolvedRefsStatus_HasError) ListenerResolvedRefsStatus_MarshalJSON ListenerResolvedRefsStatus_UnmarshalJSON ∧
  (∀ clock generation,
     (∀ s, run_status status_code clock generation "GatewayClassStatus" "Conditions"
             (embed_GatewayClassStatus s) 0 =
           Some (VConditions (GatewayClassStatus_Conditions s generation clock), 1)) ∧
     (∀ s, run_status status_code clock generation "GatewayStatus" "Conditions"
             (embed_GatewayStatus s) 0 =
           Some (VConditions (GatewayStatus_Conditions s generation clock), 3)) ∧
     (∀ s, run_status status_code clock generation "RouteStatus" "Conditions"
             (embed_RouteStatus s) 0 =
           Some (VConditions (RouteStatus_Conditions s generation clock), 2)) ∧
     (∀ s, run_status status_code clock generation "ListenerStatus" "Conditions"
             (embed_ListenerStatus s) 0 =
           Some (VConditions (ListenerStatus_Conditions s generation clock), 4)) ∧
     (∀ s n, run_status status_code clock generation "ListenerStatus" "Valid"
               (embed_ListenerStatus s) n = Some (VBool (ListenerStatus_Valid s), n))).
Proof.
  split; [exact status_code_compiles|].
  split; [apply GatewayClassAcceptedStatus_implements|].
  split; [apply GatewayReadyStatus_implements|].
  split; [apply GatewayScheduledStatus_implements|].
  split; [apply GatewayInSyncStatus_implements|].
  split; [apply RouteAcceptedStatus_implements|].
  split; [apply RouteResolvedRefsStatus_implements|].
  split; [apply ListenerConflictedStatus_implements|].
  split; [apply ListenerDetachedStatus_implements|].
  split; [apply ListenerReadyStatus_implements|].
  split; [apply ListenerResolvedRefsStatus_implements|].
  intros clock generation.
  split; [intros s; apply GatewayClassStatus_Conditions_generated|].
  split; [intros s; apply GatewayStatus_Conditions_generated|].
  split; [intros s; apply RouteStatus_Conditions_generated|].
  split; [intros s; apply ListenerStatus_Conditions_generated|].
  intros s n. apply ListenerStatus_Valid_generated.
Qed.

(** ** The theorems about the generator, for the description of the repository *)

Module GeneratedExamples.
(** The texts of several errors joined. *)
#[export] Instance joined_format : MultierrorFormat :=
  {| multierror_format := λ texts, strings_Join texts "; " |}.

(** A listener with a conflict of protocols, and nothing else wrong. *)
Definition listener_status : ListenerStatus :=
  mkListenerStatus
    (mkListenerConflictedStatus None (Some (ErrString "another protocol")) None)
    (ls_Detached zeroListenerStatus) (ls_Ready zeroListenerStatus) (ls_ResolvedRefs zeroListenerStatus).
Definition conflicted : StructVal :=
  embed (ListenerConflictedStatus_errors (ls_Conflicted listener_status)).
Definition clock (n : nat) : Z := Z.of_nat n.
End GeneratedExamples.

Import (hints) GeneratedExamples.

Lemma generated_conditions_correct_witness :
  ∃ cs c, run_status status_code GeneratedExamples.clock 7 "ListenerStatus" "Conditions"
      (embed_ListenerStatus GeneratedExamples.listener_status) 0 = Some (VConditions cs, length cs) ∧
    cs !! 0 = Some c ∧
    condition_says (conditionType_normalize Listener_Conflicted_type) GeneratedExamples.conflicted 7 0 c ∧
    c_Reason c = "ProtocolConflict".
Proof.
  destruct (generated_conditions_correct statuses_yaml (status_normalize Listener_description)
    GeneratedExamples.clock 7
    (embed_ListenerStatus GeneratedExamples.listener_status) 0) as [(cs & Hrun & _ & Hall) _].
  - exact status_code_compiles.
  - apply list_elem_of_fmap_2; find_element.
  - unfold status_typed, embed_ListenerStatus. solve_typed.
  - destruct (Hall 0 (conditionType_normalize Listener_Conflicted_type) GeneratedExamples.conflicted
      eq_refl eq_refl) as [(c & Hc & Hsays) _].
    exists cs, c. split; [exact Hrun|]. split; [exact Hc|]. split; [exact Hsays|].
    pose proof (eq_trans (eq_sym Hrun)
      (ListenerStatus_Conditions_generated GeneratedExamples.listener_status GeneratedExamples.clock 7)) as Heq.
    injection Heq as -> _. vm_compute in Hc. by injection Hc as <-.
Defined.

Lemma generated_tests_pass_witness :
  Forall (.= Some true)
    (statusTestsTemplate status_code GeneratedExamples.clock (status_normalize <$> statuses_yaml)) ∧
  length (statusTestsTemplate status_code GeneratedExamples.clock (status_normalize <$> statuses_yaml)) > 100.
Proof.
  split.
  - apply (generated_tests_pass statuses_yaml); [exact status_code_compiles|].
    intros st ct error Hst Hct He.
    assert (forallb (λ st, forallb (λ ct, forallb (λ error, negb (rt_String error)) (ct_Errors ct))
      (st_Types st)) statuses_yaml = true) as Hall by reflexivity.
    rewrite forallb_forall in Hall. apply list_elem_of_In, Hall in Hst.
    rewrite forallb_forall in Hst. apply list_elem_of_In, Hst in Hct.
    rewrite forallb_forall in Hct. by apply list_elem_of_In, Hct, negb_true_iff in He.
  - vm_compute. lia.
Defined.

Lemma generated_code_roundtrip_witness :
  ∃ v', restore status_code GeneratedExamples.clock "ListenerConflictedStatus" GeneratedExamples.conflicted = Some v' ∧
    struct_set v' = true.
Proof.
  destruct (generated_code_roundtrip statuses_yaml (status_normalize Listener_description)
    (conditionType_normalize Listener_Conflicted_type) GeneratedExamples.clock GeneratedExamples.conflicted)
    as (v' & Hr & _ & Hset & _).
  - exact status_code_compiles.
  - apply list_elem_of_fmap_2; find_element.
  - apply list_elem_of_fmap_2; find_element.
  - apply embed_typed; [reflexivity|].
    repeat first [apply List.Forall_nil | apply List.Forall_cons; [reflexivity|]].
  - exists v'. split; [exact Hr|]. rewrite Hset. reflexivity.
Defined.
