(* ===== verification/ErrorGenerator.v ===== *)
(** * The generator of error types ([internal/k8s/reconciler/errors/generator.go])

    The generator reads the kinds of each error type ([errors.yaml]) and prints
    the types with a constructor for each kind, and their tests.  The template
    is transcribed as the declarations it prints ([errorTemplate]), with what
    the compiler demands of them ([errors_compile]) and how they run; the tests
    as the results of their assertions.  The error types of [Errors], which are
    those of [zz_generated_errors.go], are compared with it. *)

From S2P Require Import Prelude Errors GoFragment Generator.

Record customError : Type := mkCustomError {
  ce_Name : string;
  ce_Types : list string
}.

(** ** The template of the code *)

Inductive ErrorDecl : Type :=
  | EDStringType (name : string)                       (* [type name string] *)
  | EDConst (name type value : string)
  | EDStruct (name kind : string)                      (* [inner string; errorType kind] *)
  | EDNew (name result const : string)                 (* [return result{inner, const}] *)
  | EDError (recv : string)                            (* [return r.inner] *)
  | EDKind (recv result : string).                     (* [return r.errorType] *)

Definition kind_type (e : customError) : string := ce_Name e +:+ "ErrorType".
Definition error_type (e : customError) : string := ce_Name e +:+ "Error".
Definition kind_const (e : customError) (value : string) : string := kind_type e +:+ value.
Definition new_func (e : customError) (value : string) : string :=
  "New" +:+ ce_Name e +:+ "Error" +:+ value.

Definition error_decls (e : customError) : list ErrorDecl :=
  [EDStringType (kind_type e)] ++
  ((λ value, EDConst (kind_const e value) (kind_type e) (value +:+ "Error")) <$> ce_Types e) ++
  [EDStruct (error_type e) (kind_type e)] ++
  ((λ value, EDNew (new_func e value) (error_type e) (kind_const e value)) <$> ce_Types e) ++
  [EDError (error_type e); EDKind (error_type e) (kind_type e)].

Definition errorTemplate (errors : list customError) : list ErrorDecl :=
  flat_map error_decls errors.

(** ** Compiling and running *)

Definition error_names (prog : list ErrorDecl) : list string :=
  omap (λ d, match d with
             | EDStringType n | EDConst n _ _ | EDStruct n _ | EDNew n _ _ => Some n
             | EDError _ | EDKind _ _ => None
             end) prog.
Definition const_values (prog : list ErrorDecl) : list (string * string) :=
  omap (λ d, match d with EDConst n _ v => Some (n, v) | _ => None end) prog.
Definition constructors (prog : list ErrorDecl) : list (string * (string * string)) :=
  omap (λ d, match d with EDNew n r c => Some (n, (r, c)) | _ => None end) prog.

(** Every name of the package is an identifier and declared once; values are
    plain literals. *)
Definition errors_compile (prog : list ErrorDecl) : bool :=
  bool_decide (NoDup (error_names prog)) && forallb is_identifier (error_names prog) &&
  forallb plain_literal ((const_values prog).*2).

(** A value of a generated error type: the type, [inner] and [errorType]. *)
Record ErrorVal : Type := mkErrorVal {
  ev_type : string;
  ev_inner : string;
  ev_errorType : string
}.

Definition run_new (prog : list ErrorDecl) (func inner : string) : option ErrorVal :=
  '(r, c) ← assoc func (constructors prog);
  kind ← assoc c (const_values prog);
  Some (mkErrorVal r inner kind).

Definition has_decl (prog : list ErrorDecl) (P : ErrorDecl → bool) : bool := existsb P prog.

Definition run_Error (prog : list ErrorDecl) (v : ErrorVal) : option string :=
  if has_decl prog (λ d, match d with EDError r => bool_decide (r = ev_type v) | _ => false end)
  then Some (ev_inner v) else None.
Definition run_Kind (prog : list ErrorDecl) (v : ErrorVal) : option string :=
  if has_decl prog (λ d, match d with EDKind r _ => bool_decide (r = ev_type v) | _ => false end)
  then Some (ev_errorType v) else None.

(** ** The template of the tests *)

Definition error_test (prog : list ErrorDecl) (e : customError) : list (option bool) :=
  flat_map (λ value,
    let v := run_new prog (new_func e value) "expected" in
    [(v ← v; text ← run_Error prog v; Some (bool_decide ("expected" = text)));
     (v ← v; kind ← run_Kind prog v;
      expected ← assoc (kind_const e value) (const_values prog);
      Some (bool_decide (expected = kind)))]) (ce_Types e).

Definition errorTestsTemplate (prog : list ErrorDecl) (errors : list customError) :
    list (option bool) :=
  flat_map (error_test prog) errors.

(** ** The generator *)

Definition errors_init (open stat : result unit) (decode : result (list customError)) :
    option (list customError) :=
  mustDecodeYAML open stat decode.

Definition errors_main (write_code write_tests : result unit) : list string * bool :=
  match write_code with
  | Err _ => ([], false)
  | Ok _ =>
      match write_tests with
      | Err _ => (["zz_generated_errors.go"], false)
      | Ok _ => (["zz_generated_errors.go"; "zz_generated_errors_test.go"], true)
      end
  end.

(** [errors.yaml], decoded. *)
Definition errors_yaml : list customError :=
  [mkCustomError "CertificateResolution" ["NotFound"; "NotPermitted"; "Unsupported"];
   mkCustomError "Bind"
     ["RouteKind"; "ListenerNamespacePolicy"; "HostnameMismatch"; "RouteInvalid"]].

(** ** The types of [Errors] as generated values *)

Definition CertificateResolutionErrorType_string (t : CertificateResolutionErrorType) : string :=
  match t with
  | CertificateResolutionErrorTypeNotFound => "NotFoundError"
  | CertificateResolutionErrorTypeNotPermitted => "NotPermittedError"
  | CertificateResolutionErrorTypeUnsupported => "UnsupportedError"
  end.
Definition BindErrorType_string (t : BindErrorType) : string :=
  match t with
  | BindErrorTypeRouteKind => "RouteKindError"
  | BindErrorTypeListenerNamespacePolicy => "ListenerNamespacePolicyError"
  | BindErrorTypeHostnameMismatch => "HostnameMismatchError"
  | BindErrorTypeRouteInvalid => "RouteInvalidError"
  end.

Definition CertificateResolution_val (e : CertificateResolutionError) : ErrorVal :=
  mkErrorVal "CertificateResolutionError" (cre_inner e)
    (CertificateResolutionErrorType_string (cre_errorType e)).
Definition Bind_val (e : BindError) : ErrorVal :=
  mkErrorVal "BindError" (be_inner e) (BindErrorType_string (be_errorType e)).

(** ** Lemmas *)

Lemma error_names_sub prog n :
  n ∈ (const_values prog).*1 ∨ n ∈ (constructors prog).*1 → n ∈ error_names prog.
Proof.
  intros [Hin|Hin]; apply list_elem_of_fmap in Hin as ([m v] & -> & Hin);
    apply list_elem_of_omap in Hin as (d & Hd & Hm); apply list_elem_of_omap;
    exists d; destruct d; by simplify_eq.
Qed.

Lemma compile_NoDup prog : errors_compile prog = true →
  NoDup (const_values prog).*1 ∧ NoDup (constructors prog).*1.
Proof.
  unfold errors_compile. rewrite !andb_true_iff, bool_decide_eq_true. intros [[Hnd _] _].
  induction prog as [|d prog IH]; [by split; constructor|].
  assert (NoDup (error_names prog)) as Hnd' 
    by (destruct d; cbn in Hnd; try apply NoDup_cons in Hnd as [_ Hnd]; exact Hnd).
  destruct (IH Hnd') as [Hc Hn]. destruct d; try done; cbn in Hnd |- *;
    apply NoDup_cons in Hnd as [Hin _]; (split; [try done|try done]);
    apply NoDup_cons; (split; [|done]); intros Hx; apply Hin, error_names_sub; auto.
Qed.

Section compiled.
#[local] Set Default Proof Using "All".
Context (errors : list customError) (e : customError) (He : e ∈ errors).
#[local] Abbreviation prog := (errorTemplate errors).
Hypothesis compiles : errors_compile prog = true.

Lemma error_decl d : d ∈ error_decls e → d ∈ prog.
Proof.
  intros Hd. apply list_elem_of_In, in_flat_map. exists e. by rewrite <- !list_elem_of_In.
Qed.

Lemma kind_declared value : value ∈ ce_Types e →
  assoc (kind_const e value) (const_values prog) = Some (value +:+ "Error").
Proof.
  intros Hv. apply assoc_elem; [by apply compile_NoDup|]. apply list_elem_of_omap.
  exists (EDConst (kind_const e value) (kind_type e) (value +:+ "Error")). split; [|done].
  apply error_decl. unfold error_decls. rewrite !elem_of_app, !list_elem_of_fmap. eauto 10.
Qed.

Lemma run_new_declared value inner : value ∈ ce_Types e →
  run_new prog (new_func e value) inner =
  Some (mkErrorVal (error_type e) inner (value +:+ "Error")).
Proof.
  intros Hv. unfold run_new.
  rewrite (assoc_elem (new_func e value) (error_type e, kind_const e value)).
  - cbn. by rewrite kind_declared.
  - by apply compile_NoDup.
  - apply list_elem_of_omap. exists (EDNew (new_func e value) (error_type e) (kind_const e value)).
    split; [|done]. apply error_decl. unfold error_decls.
    rewrite !elem_of_app, !list_elem_of_fmap. eauto 10.
Qed.

Lemma run_methods v : ev_type v = error_type e →
  run_Error prog v = Some (ev_inner v) ∧ run_Kind prog v = Some (ev_errorType v).
Proof.
  intros Ht. unfold run_Error, run_Kind, has_decl.
  rewrite (proj2 (existsb_exists _ prog)), (proj2 (existsb_exists _ prog)); [done|..].
  - exists (EDKind (error_type e) (kind_type e)). rewrite bool_decide_eq_true_2 by done.
    split; [|done]. apply list_elem_of_In, error_decl. unfold error_decls.
    rewrite !elem_of_app. do 4 right. right. by left.
  - exists (EDError (error_type e)). rewrite bool_decide_eq_true_2 by done.
    split; [|done]. apply list_elem_of_In, error_decl. unfold error_decls.
    rewrite !elem_of_app. do 4 right. by left.
Qed.
End compiled.

(** Generated errors tell their kinds apart.  For every description whose
    code compiles, the constructor of each kind makes an error with the given
    text and that kind, errors of one type have the same kind only if they
    were made by the same constructor, and the generated tests pass. *)
Theorem generated_errors_distinct errors :
  errors_compile (errorTemplate errors) = true →
  (∀ e value inner, e ∈ errors → value ∈ ce_Types e →
     ∃ v, run_new (errorTemplate errors) (new_func e value) inner = Some v ∧
          run_Error (errorTemplate errors) v = Some inner ∧
          run_Kind (errorTemplate errors) v = Some (value +:+ "Error")) ∧
  (∀ e value value' inner inner' v v', e ∈ errors → value ∈ ce_Types e → value' ∈ ce_Types e →
     run_new (errorTemplate errors) (new_func e value) inner = Some v →
     run_new (errorTemplate errors) (new_func e value') inner' = Some v' →
     run_Kind (errorTemplate errors) v = run_Kind (errorTemplate errors) v' → value = value') ∧
  Forall (.= Some true) (errorTestsTemplate (errorTemplate errors) errors).
Proof.
  intros Hc. split_and!.
  - intros e value inner He Hv. eexists. split; [by apply run_new_declared|].
    by apply (run_methods errors e He Hc).
  - intros e value value' inner inner' v v' He Hv Hv'.
    rewrite !(run_new_declared errors e He Hc) by done. intros [= <-] [= <-].
    rewrite (proj2 (run_methods errors e He Hc (mkErrorVal _ inner _) eq_refl)).
    rewrite (proj2 (run_methods errors e He Hc (mkErrorVal _ inner' _) eq_refl)). intros [= Hk].
    by apply (append_inj_r value value' "Error").
  - apply Forall_flat_map, Forall_forall. intros e He.
    apply Forall_flat_map, Forall_forall. intros value Hv.
    rewrite (run_new_declared errors e He Hc) by done. cbn [mbind option_bind].
    destruct (run_methods errors e He Hc (mkErrorVal (error_type e) "expected" (value +:+ "Error")) eq_refl)
      as [-> ->].
    cbn [mbind option_bind ev_inner ev_errorType].
    rewrite (kind_declared errors e He Hc) by done. cbn.
    rewrite !bool_decide_eq_true_2 by done. by repeat constructor.
Qed.

(** The error types of the repository are the generated ones.  The code
    for [errors.yaml] compiles; each constructor of [Errors] makes the value
    that the generated constructor makes, and two errors are the same value
    only if they are the same error. *)
Theorem error_code_is_generated :
  errors_compile (errorTemplate errors_yaml) = true ∧
  (∀ inner,
     run_new (errorTemplate errors_yaml) "NewCertificateResolutionErrorNotFound" inner =
       Some (CertificateResolution_val (NewCertificateResolutionErrorNotFound inner)) ∧
     run_new (errorTemplate errors_yaml) "NewCertificateResolutionErrorNotPermitted" inner =
       Some (CertificateResolution_val (NewCertificateResolutionErrorNotPermitted inner)) ∧
     run_new (errorTemplate errors_yaml) "NewCertificateResolutionErrorUnsupported" inner =
       Some (CertificateResolution_val (NewCertificateResolutionErrorUnsupported inner)) ∧
     run_new (errorTemplate errors_yaml) "NewBindErrorRouteKind" inner =
       Some (Bind_val (NewBindErrorRouteKind inner)) ∧
     run_new (errorTemplate errors_yaml) "NewBindErrorListenerNamespacePolicy" inner =
       Some (Bind_val (NewBindErrorListenerNamespacePolicy inner)) ∧
     run_new (errorTemplate errors_yaml) "NewBindErrorHostnameMismatch" inner =
       Some (Bind_val (NewBindErrorHostnameMismatch inner)) ∧
     run_new (errorTemplate errors_yaml) "NewBindErrorRouteInvalid" inner =
       Some (Bind_val (NewBindErrorRouteInvalid inner))) ∧
  (∀ a b, CertificateResolution_val a = CertificateResolution_val b → a = b) ∧
  (∀ a b, Bind_val a = Bind_val b → a = b).
Proof.
  split; [by vm_compute|]. split; [intros inner; by repeat split|]. split.
  - intros [i []] [j []]; unfold CertificateResolution_val; cbn; congruence.
  - intros [i []] [j []]; unfold Bind_val; cbn; congruence.
Qed.
