(* ===== verification/DeepCopy.v ===== *)
(** * Deep copies ([pkg/apis/v1alpha1/zz_generated.deepcopy.go])

    The objects of the program's own API in memory: structs whose pointers,
    maps and slices are references into a heap, and the generated functions
    that copy them.  The structs are parametric in what a reference is: a
    location in the heap ([Ptr]), or what is found there ([option]); the
    relation [reads] between the two says what an object in a heap is, and with
    which locations it is made.

    The structs of Kubernetes inside them (tolerations and the metadata) and
    their copies belong to [k8s.io/api] and [k8s.io/apimachinery]: types and
    functions of the model with the law of a copy ([LawfulCopy]), which is also
    what is proved of every function here. *)

From S2P Require Import Prelude K8s.

Abbreviation loc := positive.
Definition Ptr (A : Type) : Type := option loc.

(** ** The structs *)

Section structs.
Context (ref : Type → Type).

Record ConnectionManagementSpecOf : Type := mkConnectionManagementSpecOf {
  cmo_MaxConnections : ref Z
}.

Record CopyAnnotationsSpecOf : Type := mkCopyAnnotationsSpecOf {
  cao_Service : ref (list string)
}.

Record DeploymentSpecOf : Type := mkDeploymentSpecOf {
  dso_DefaultInstances : ref Z;
  dso_MaxInstances : ref Z;
  dso_MinInstances : ref Z
}.

Record GatewayClassConfigSpecOf (Toleration : Type) : Type := mkGatewayClassConfigSpecOf {
  gcso_ServiceType : ref string;
  gcso_NodeSelector : ref (gmap string string);
  gcso_Tolerations : ref (list Toleration);
  gcso_UseHostPorts : bool;
  gcso_ConsulSpec : ConsulSpec;
  gcso_ImageSpec : ImageSpec;
  gcso_CopyAnnotations : CopyAnnotationsSpecOf;
  gcso_LogLevel : string;
  gcso_DeploymentSpec : DeploymentSpecOf;
  gcso_ConnectionManagement : ConnectionManagementSpecOf
}.

Record MeshServiceSpecOf : Type := mkMeshServiceSpecOf {
  msso_Name : string;
  msso_Peer : ref string
}.
End structs.

Record TypeMeta : Type := mkTypeMeta { tm_Kind : string; tm_APIVersion : string }.

(** An object: [GatewayClassConfig] and [MeshService], with their lists. *)
Record ObjectOf (Meta Spec : Type) : Type := mkObjectOf {
  oo_TypeMeta : TypeMeta;
  oo_ObjectMeta : Meta;
  oo_Spec : Spec
}.
Record ListOf (ref : Type → Type) (ListMeta Object : Type) : Type := mkListOf {
  lo_TypeMeta : TypeMeta;
  lo_ListMeta : ListMeta;
  lo_Items : ref (list Object)
}.

Arguments mkConnectionManagementSpecOf {ref}.
Arguments mkCopyAnnotationsSpecOf {ref}.
Arguments mkDeploymentSpecOf {ref}.
Arguments mkGatewayClassConfigSpecOf {ref Toleration}.
Arguments mkMeshServiceSpecOf {ref}.
Arguments mkObjectOf {Meta Spec}.
Arguments mkListOf {ref ListMeta Object}.
Arguments cmo_MaxConnections {ref}.
Arguments cao_Service {ref}.
Arguments dso_DefaultInstances {ref}.
Arguments dso_MaxInstances {ref}.
Arguments dso_MinInstances {ref}.
Arguments gcso_ServiceType {ref Toleration}.
Arguments gcso_NodeSelector {ref Toleration}.
Arguments gcso_Tolerations {ref Toleration}.
Arguments gcso_UseHostPorts {ref Toleration}.
Arguments gcso_ConsulSpec {ref Toleration}.
Arguments gcso_ImageSpec {ref Toleration}.
Arguments gcso_CopyAnnotations {ref Toleration}.
Arguments gcso_LogLevel {ref Toleration}.
Arguments gcso_DeploymentSpec {ref Toleration}.
Arguments gcso_ConnectionManagement {ref Toleration}.
Arguments msso_Name {ref}.
Arguments msso_Peer {ref}.
Arguments oo_TypeMeta {Meta Spec}.
Arguments oo_ObjectMeta {Meta Spec}.
Arguments oo_Spec {Meta Spec}.
Arguments lo_TypeMeta {ref ListMeta Object}.
Arguments lo_ListMeta {ref ListMeta Object}.
Arguments lo_Items {ref ListMeta Object}.

Section heaps.
(** In memory ([...P]) and as values: a toleration, [ObjectMeta], [ListMeta]. *)
Context {TolerationP Toleration MetaP Meta ListMetaP ListMeta : Type}.

Abbreviation ConfigSpecP := (GatewayClassConfigSpecOf Ptr TolerationP).
Abbreviation ConfigP := (ObjectOf MetaP ConfigSpecP).
Abbreviation ConfigListP := (ListOf Ptr ListMetaP ConfigP).
Abbreviation ServiceP := (ObjectOf MetaP (MeshServiceSpecOf Ptr)).
Abbreviation ServiceListP := (ListOf Ptr ListMetaP ServiceP).
Abbreviation ConfigSpecV := (GatewayClassConfigSpecOf option Toleration).
Abbreviation ConfigV := (ObjectOf Meta ConfigSpecV).
Abbreviation ConfigListV := (ListOf option ListMeta ConfigV).
Abbreviation ServiceV := (ObjectOf Meta (MeshServiceSpecOf option)).
Abbreviation ServiceListV := (ListOf option ListMeta ServiceV).

(** What a location holds: the target of a pointer, a map, the array of a
    slice. *)
Inductive cell : Type :=
  | CInt (z : Z)
  | CString (s : string)
  | CMap (m : gmap string string)
  | CStrings (xs : list string)
  | CTolerations (xs : list TolerationP)
  | CConfigs (xs : list ConfigP)
  | CServices (xs : list ServiceP)
  | CConnectionManagementSpec (x : ConnectionManagementSpecOf Ptr)
  | CCopyAnnotationsSpec (x : CopyAnnotationsSpecOf Ptr)
  | CDeploymentSpec (x : DeploymentSpecOf Ptr)
  | CConfigSpec (x : ConfigSpecP)
  | CConfig (x : ConfigP)
  | CConfigList (x : ConfigListP)
  | CServiceSpec (x : MeshServiceSpecOf Ptr)
  | CService (x : ServiceP)
  | CServiceList (x : ServiceListP).

Abbreviation heap := (gmap loc cell).

(** Functions on the heap; [None] is a dangling or mistyped reference. *)
Definition HeapM (A : Type) : Type := heap → option (A * heap).
#[export] Instance HeapM_ret : MRet HeapM := λ A x h, Some (x, h).
#[export] Instance HeapM_bind : MBind HeapM := λ A B f m h,
  match m h with Some (x, h') => f x h' | None => None end.

Definition alloc (c : cell) : HeapM loc :=
  λ h, let l := fresh (dom h) in Some (l, <[l := c]> h).
Definition load {A} (sel : cell → option A) (l : loc) : HeapM A :=
  λ h, match h !! l with
       | Some c => match sel c with Some x => Some (x, h) | None => None end
       | None => None
       end.

Definition as_int (c : cell) : option Z := match c with CInt z => Some z | _ => None end.
Definition as_string (c : cell) : option string := match c with CString s => Some s | _ => None end.
Definition as_map (c : cell) : option (gmap string string) :=
  match c with CMap m => Some m | _ => None end.
Definition as_strings (c : cell) : option (list string) :=
  match c with CStrings xs => Some xs | _ => None end.
Definition as_tolerations (c : cell) : option (list TolerationP) :=
  match c with CTolerations xs => Some xs | _ => None end.
Definition as_configs (c : cell) : option (list ConfigP) :=
  match c with CConfigs xs => Some xs | _ => None end.
Definition as_services (c : cell) : option (list ServiceP) :=
  match c with CServices xs => Some xs | _ => None end.

Definition as_ConnectionManagementSpec (c : cell) : option (ConnectionManagementSpecOf Ptr) :=
  match c with CConnectionManagementSpec x => Some x | _ => None end.
Definition as_CopyAnnotationsSpec (c : cell) : option (CopyAnnotationsSpecOf Ptr) :=
  match c with CCopyAnnotationsSpec x => Some x | _ => None end.
Definition as_DeploymentSpec (c : cell) : option (DeploymentSpecOf Ptr) :=
  match c with CDeploymentSpec x => Some x | _ => None end.
Definition as_GatewayClassConfigSpec (c : cell) : option (ConfigSpecP) :=
  match c with CConfigSpec x => Some x | _ => None end.
Definition as_GatewayClassConfig (c : cell) : option (ConfigP) :=
  match c with CConfig x => Some x | _ => None end.
Definition as_GatewayClassConfigList (c : cell) : option (ConfigListP) :=
  match c with CConfigList x => Some x | _ => None end.
Definition as_MeshServiceSpec (c : cell) : option (MeshServiceSpecOf Ptr) :=
  match c with CServiceSpec x => Some x | _ => None end.
Definition as_MeshService (c : cell) : option (ServiceP) :=
  match c with CService x => Some x | _ => None end.
Definition as_MeshServiceList (c : cell) : option (ServiceListP) :=
  match c with CServiceList x => Some x | _ => None end.

(** [if in.F != nil { *out = new(T); **out = **in }], and the same for maps
    and for slices of values, whose entries are all copied. *)
Definition copy_ref {A} (sel : cell → option A) (mk : A → cell) (p : Ptr A) : HeapM (Ptr A) :=
  match p with
  | None => mret (None : Ptr A)
  | Some l => x ← load sel l; l' ← alloc (mk x); mret (Some l' : Ptr A)
  end.

Fixpoint copy_each {A} (copy : A → HeapM A) (xs : list A) : HeapM (list A) :=
  match xs with
  | [] => mret []
  | x :: xs => y ← copy x; ys ← copy_each copy xs; mret (y :: ys)
  end.

(** [if in.F != nil { *out = make([]T, len( *in)); for i := range *in {
    ( *in)[i].DeepCopyInto(&( *out)[i]) } }]. *)
Definition copy_slice {A} (sel : cell → option (list A)) (mk : list A → cell)
    (copy : A → HeapM A) (p : Ptr (list A)) : HeapM (Ptr (list A)) :=
  match p with
  | None => mret (None : Ptr (list A))
  | Some l =>
      xs ← load sel l; ys ← copy_each copy xs; l' ← alloc (mk ys);
      mret (Some l' : Ptr (list A))
  end.

(** ** The copies *)

Section copies.
Context (Toleration_DeepCopyInto : TolerationP → HeapM TolerationP).
Context (ObjectMeta_DeepCopyInto : MetaP → HeapM MetaP).
Context (ListMeta_DeepCopyInto : ListMetaP → HeapM ListMetaP).

(** [DeepCopyInto] of a struct returns what it writes to [out]. *)

Definition ConnectionManagementSpec_DeepCopyInto (i : ConnectionManagementSpecOf Ptr) :
    HeapM (ConnectionManagementSpecOf Ptr) :=
  maxConnections ← copy_ref as_int CInt (cmo_MaxConnections i);
  mret (mkConnectionManagementSpecOf maxConnections).

Definition CopyAnnotationsSpec_DeepCopyInto (i : CopyAnnotationsSpecOf Ptr) :
    HeapM (CopyAnnotationsSpecOf Ptr) :=
  service ← copy_ref as_strings CStrings (cao_Service i);
  mret (mkCopyAnnotationsSpecOf service).

Definition DeploymentSpec_DeepCopyInto (i : DeploymentSpecOf Ptr) : HeapM (DeploymentSpecOf Ptr) :=
  defaultInstances ← copy_ref as_int CInt (dso_DefaultInstances i);
  maxInstances ← copy_ref as_int CInt (dso_MaxInstances i);
  minInstances ← copy_ref as_int CInt (dso_MinInstances i);
  mret (mkDeploymentSpecOf defaultInstances maxInstances minInstances).

Definition GatewayClassConfigSpec_DeepCopyInto (i : ConfigSpecP) : HeapM ConfigSpecP :=
  serviceType ← copy_ref as_string CString (gcso_ServiceType i);
  nodeSelector ← copy_ref as_map CMap (gcso_NodeSelector i);
  tolerations ←
    copy_slice as_tolerations CTolerations Toleration_DeepCopyInto (gcso_Tolerations i);
  copyAnnotations ← CopyAnnotationsSpec_DeepCopyInto (gcso_CopyAnnotations i);
  deploymentSpec ← DeploymentSpec_DeepCopyInto (gcso_DeploymentSpec i);
  connectionManagement ← ConnectionManagementSpec_DeepCopyInto (gcso_ConnectionManagement i);
  mret (mkGatewayClassConfigSpecOf serviceType nodeSelector tolerations (gcso_UseHostPorts i)
          (gcso_ConsulSpec i) (gcso_ImageSpec i) copyAnnotations (gcso_LogLevel i)
          deploymentSpec connectionManagement).

Definition MeshServiceSpec_DeepCopyInto (i : MeshServiceSpecOf Ptr) :
    HeapM (MeshServiceSpecOf Ptr) :=
  peer ← copy_ref as_string CString (msso_Peer i);
  mret (mkMeshServiceSpecOf (msso_Name i) peer).

Definition GatewayClassConfig_DeepCopyInto (i : ConfigP) : HeapM ConfigP :=
  meta ← ObjectMeta_DeepCopyInto (oo_ObjectMeta i);
  spec ← GatewayClassConfigSpec_DeepCopyInto (oo_Spec i);
  mret (mkObjectOf (oo_TypeMeta i) meta spec).

Definition MeshService_DeepCopyInto (i : ServiceP) : HeapM ServiceP :=
  meta ← ObjectMeta_DeepCopyInto (oo_ObjectMeta i);
  spec ← MeshServiceSpec_DeepCopyInto (oo_Spec i);
  mret (mkObjectOf (oo_TypeMeta i) meta spec).

Definition GatewayClassConfigList_DeepCopyInto (i : ConfigListP) : HeapM ConfigListP :=
  meta ← ListMeta_DeepCopyInto (lo_ListMeta i);
  items ← copy_slice as_configs CConfigs GatewayClassConfig_DeepCopyInto (lo_Items i);
  mret (mkListOf (lo_TypeMeta i) meta items).

Definition MeshServiceList_DeepCopyInto (i : ServiceListP) : HeapM ServiceListP :=
  meta ← ListMeta_DeepCopyInto (lo_ListMeta i);
  items ← copy_slice as_services CServices MeshService_DeepCopyInto (lo_Items i);
  mret (mkListOf (lo_TypeMeta i) meta items).

(** [DeepCopy]: nil for nil, else a new struct that [DeepCopyInto] fills.
    [DeepCopyObject] returns the same pointer as an interface value, nil for
    nil. *)
Definition deep_copy {A} (sel : cell → option A) (mk : A → cell) (into : A → HeapM A)
    (i : Ptr A) : HeapM (Ptr A) :=
  match i with
  | None => mret (None : Ptr A)
  | Some l => x ← load sel l; y ← into x; l' ← alloc (mk y); mret (Some l' : Ptr A)
  end.
Definition deep_copy_object {A} (copy : Ptr A → HeapM (Ptr A)) (i : Ptr A) : HeapM (Ptr A) :=
  c ← copy i;
  match c with
  | Some l => mret (Some l : Ptr A)
  | None => mret (None : Ptr A)
  end.

Definition ConnectionManagementSpec_DeepCopy : Ptr (ConnectionManagementSpecOf Ptr) → HeapM (Ptr (ConnectionManagementSpecOf Ptr)) :=
  deep_copy as_ConnectionManagementSpec CConnectionManagementSpec ConnectionManagementSpec_DeepCopyInto.
Definition CopyAnnotationsSpec_DeepCopy : Ptr (CopyAnnotationsSpecOf Ptr) → HeapM (Ptr (CopyAnnotationsSpecOf Ptr)) :=
  deep_copy as_CopyAnnotationsSpec CCopyAnnotationsSpec CopyAnnotationsSpec_DeepCopyInto.
Definition DeploymentSpec_DeepCopy : Ptr (DeploymentSpecOf Ptr) → HeapM (Ptr (DeploymentSpecOf Ptr)) :=
  deep_copy as_DeploymentSpec CDeploymentSpec DeploymentSpec_DeepCopyInto.
Definition GatewayClassConfigSpec_DeepCopy : Ptr (ConfigSpecP) → HeapM (Ptr (ConfigSpecP)) :=
  deep_copy as_GatewayClassConfigSpec CConfigSpec GatewayClassConfigSpec_DeepCopyInto.
Definition GatewayClassConfig_DeepCopy : Ptr (ConfigP) → HeapM (Ptr (ConfigP)) :=
  deep_copy as_GatewayClassConfig CConfig GatewayClassConfig_DeepCopyInto.
Definition GatewayClassConfigList_DeepCopy : Ptr (ConfigListP) → HeapM (Ptr (ConfigListP)) :=
  deep_copy as_GatewayClassConfigList CConfigList GatewayClassConfigList_DeepCopyInto.
Definition MeshServiceSpec_DeepCopy : Ptr (MeshServiceSpecOf Ptr) → HeapM (Ptr (MeshServiceSpecOf Ptr)) :=
  deep_copy as_MeshServiceSpec CServiceSpec MeshServiceSpec_DeepCopyInto.
Definition MeshService_DeepCopy : Ptr (ServiceP) → HeapM (Ptr (ServiceP)) :=
  deep_copy as_MeshService CService MeshService_DeepCopyInto.
Definition MeshServiceList_DeepCopy : Ptr (ServiceListP) → HeapM (Ptr (ServiceListP)) :=
  deep_copy as_MeshServiceList CServiceList MeshServiceList_DeepCopyInto.

Definition GatewayClassConfig_DeepCopyObject : Ptr (ConfigP) → HeapM (Ptr (ConfigP)) :=
  deep_copy_object GatewayClassConfig_DeepCopy.
Definition GatewayClassConfigList_DeepCopyObject : Ptr (ConfigListP) → HeapM (Ptr (ConfigListP)) :=
  deep_copy_object GatewayClassConfigList_DeepCopy.
Definition MeshService_DeepCopyObject : Ptr (ServiceP) → HeapM (Ptr (ServiceP)) :=
  deep_copy_object MeshService_DeepCopy.
Definition MeshServiceList_DeepCopyObject : Ptr (ServiceListP) → HeapM (Ptr (ServiceListP)) :=
  deep_copy_object MeshServiceList_DeepCopy.
End copies.

(** ** Objects in a heap *)

(** [R h p v fp]: in the heap [h], [p] is the value [v], made with the
    locations [fp]. *)
Definition Reads (P V : Type) : Type := heap → P → V → gset loc → Prop.

Definition ref_reads {A} (mk : A → cell) : Reads (Ptr A) (option A) := λ h p v fp,
  match p, v with
  | None, None => fp = ∅
  | Some l, Some x => h !! l = Some (mk x) ∧ fp = {[l]}
  | _, _ => False
  end.

Inductive each_reads {P V} (R : Reads P V) (h : heap) : list P → list V → gset loc → Prop :=
  | each_nil : each_reads R h [] [] ∅
  | each_cons p ps v vs f fs :
      R h p v f → each_reads R h ps vs fs → each_reads R h (p :: ps) (v :: vs) (f ∪ fs).

Definition slice_reads {P V} (mk : list P → cell) (R : Reads P V) :
    Reads (Ptr (list P)) (option (list V)) := λ h p v fp,
  match p, v with
  | None, None => fp = ∅
  | Some l, Some vs => ∃ ps f, h !! l = Some (mk ps) ∧ each_reads R h ps vs f ∧ fp = {[l]} ∪ f
  | _, _ => False
  end.

(** A pointer to a struct. *)
Definition ptr_reads {P V} (mk : P → cell) (R : Reads P V) : Reads (Ptr P) (option V) :=
  λ h p v fp,
  match p, v with
  | None, None => fp = ∅
  | Some l, Some x => ∃ y f, h !! l = Some (mk y) ∧ R h y x f ∧ fp = {[l]} ∪ f
  | _, _ => False
  end.

(** What is read depends on its locations only, and copying makes another
    object of the same value with new locations. *)
Record LawfulCopy {P V} (R : Reads P V) (copy : P → HeapM P) : Prop := {
  reads_frame h h' p v fp : R h p v fp → (∀ l, l ∈ fp → h' !! l = h !! l) → R h' p v fp;
  reads_dom h p v fp : R h p v fp → fp ⊆ dom h;
  copy_ok h p v fp : R h p v fp →
    ∃ p' h' fp', copy p h = Some (p', h') ∧ h ⊆ h' ∧ R h' p' v fp' ∧ fp' ## dom h
}.

Lemma reads_mono {P V} {R : Reads P V} {copy : P → HeapM P} (law : LawfulCopy R copy)
    h h' p v fp : R h p v fp → h ⊆ h' → R h' p v fp.
Proof.
  intros HR Hsub. eapply (reads_frame _ _ law); [exact HR|]. intros l Hl.
  apply (reads_dom _ _ law _ _ _ _ HR) in Hl. apply elem_of_dom in Hl as [c Hc].
  rewrite Hc. by eapply lookup_weaken.
Qed.

Lemma alloc_fresh (h : heap) c :
  let l := fresh (dom h) in h ⊆ <[l := c]> h ∧ {[l]} ## dom h.
Proof.
  pose proof (is_fresh (dom h)) as Hf. split; [|set_solver].
  apply insert_subseteq. by apply not_elem_of_dom.
Qed.

Lemma copy_ref_lawful {A} (sel : cell → option A) mk :
  (∀ x, sel (mk x) = Some x) → LawfulCopy (ref_reads mk) (copy_ref sel mk).
Proof.
  intros Hsel. split.
  - intros h h' [l|] [x|] fp; cbn; try done. intros [Hl ->] Hf. split; [|done].
    rewrite Hf by set_solver. done.
  - intros h [l|] [x|] fp; cbn; try done; [|set_solver]. intros [Hl ->].
    apply singleton_subseteq_l, elem_of_dom. eauto.
  - intros h [l|] [x|] fp; cbn; try done.
    + intros [Hl ->]. unfold mbind, HeapM_bind, load. rewrite Hl, Hsel. cbn.
      destruct (alloc_fresh h (mk x)) as [Hsub Hd].
      eexists (Some _ : Ptr A), _, _. split; [done|]. split; [exact Hsub|]. split; [|exact Hd].
      cbn. by rewrite lookup_insert_eq.
    + intros ->. exists (None : Ptr A), h, ∅. split_and!; try done; set_solver.
Qed.

Lemma each_reads_frame {P V} (R : Reads P V) copy h h' ps vs fp :
  LawfulCopy R copy → each_reads R h ps vs fp → (∀ l, l ∈ fp → h' !! l = h !! l) →
  each_reads R h' ps vs fp.
Proof.
  intros Hlaw. induction 1 as [|p ps v vs f fs HR _ IH]; intros Hf; constructor.
  - eapply (reads_frame _ _ Hlaw); [exact HR|]. intros l Hl. apply Hf. set_solver.
  - apply IH. intros l Hl. apply Hf. set_solver.
Qed.

Lemma each_reads_dom {P V} (R : Reads P V) copy h ps vs fp :
  LawfulCopy R copy → each_reads R h ps vs fp → fp ⊆ dom h.
Proof.
  intros Hlaw. induction 1 as [|p ps v vs f fs HR _ IH]; [set_solver|].
  pose proof (reads_dom _ _ Hlaw _ _ _ _ HR). set_solver.
Qed.

Lemma copy_each_from {P V} (R : Reads P V) copy h h1 ps vs fp :
  LawfulCopy R copy → each_reads R h ps vs fp → h ⊆ h1 →
  ∃ ps' h' fp', copy_each copy ps h1 = Some (ps', h') ∧ h1 ⊆ h' ∧ each_reads R h' ps' vs fp' ∧
                fp' ## dom h1.
Proof.
  intros Hlaw HR. revert h1. induction HR as [|p ps v vs f fs HR _ IH]; intros h1 Hsub.
  - exists [], h1, ∅. split_and!; try done; constructor.
  - destruct (copy_ok _ _ Hlaw h1 p v f) as (p' & h2 & f' & Hc & Hs2 & HR2 & Hd2);
      [by eapply (reads_mono Hlaw)|].
    destruct (IH h2) as (ps' & h3 & fs' & Hcs & Hs3 & HR3 & Hd3); [by trans h1|].
    exists (p' :: ps'), h3, (f' ∪ fs'). cbn. unfold mbind, HeapM_bind. rewrite Hc, Hcs.
    split_and!; [done|by trans h2|constructor; [by eapply (reads_mono Hlaw)|done]|].
    pose proof (subseteq_dom _ _ Hs2). set_solver.
Qed.

Lemma copy_each_lawful {P V} (R : Reads P V) copy :
  LawfulCopy R copy → LawfulCopy (each_reads R) (copy_each copy).
Proof.
  intros Hlaw. split.
  - intros h h' ps vs fp HR. by eapply each_reads_frame.
  - intros h ps vs fp. by eapply each_reads_dom.
  - intros h ps vs fp HR. eapply copy_each_from; [exact Hlaw|exact HR|done].
Qed.

Lemma copy_slice_lawful {P V} (R : Reads P V) sel mk copy :
  (∀ x, sel (mk x) = Some x) → LawfulCopy R copy →
  LawfulCopy (slice_reads mk R) (copy_slice sel mk copy).
Proof.
  intros Hsel Hlaw. split.
  - intros h h' [l|] [vs|] fp; cbn; try done. intros (ps & f & Hl & HR & ->) Hf.
    exists ps, f. split_and!; [rewrite Hf by set_solver; done| |done].
    eapply each_reads_frame; [done..|]. intros l' Hl'. apply Hf. set_solver.
  - intros h [l|] [vs|] fp; cbn; try done; [|set_solver]. intros (ps & f & Hl & HR & ->).
    apply union_subseteq. split; [apply singleton_subseteq_l, elem_of_dom; eauto|].
    by eapply each_reads_dom.
  - intros h [l|] [vs|] fp; cbn; try done.
    + intros (ps & f & Hl & HR & ->). unfold mbind, HeapM_bind, load. rewrite Hl, Hsel.
      destruct (copy_each_from R copy h h ps vs f Hlaw HR) as (ps' & h' & f' & -> & Hs & HR' & Hd);
        [done|]. cbn.
      destruct (alloc_fresh h' (mk ps')) as [Hs' Hd'].
      eexists (Some _ : Ptr (list P)), _, _. split; [done|]. split; [by trans h'|]. split.
      * cbn. exists ps', f'. split; [by rewrite lookup_insert_eq|]. split; [|done].
        eapply each_reads_frame; [done..|]. intros l' Hl'.
        apply (each_reads_dom _ _ _ _ _ _ Hlaw HR'), elem_of_dom in Hl' as [c Hc].
        rewrite Hc. by eapply lookup_weaken.
      * pose proof (subseteq_dom _ _ Hs). set_solver.
    + intros ->. exists (None : Ptr (list P)), h, ∅. split_and!; try done; set_solver.
Qed.

Lemma deep_copy_lawful {P V} (R : Reads P V) sel mk into :
  (∀ x, sel (mk x) = Some x) → LawfulCopy R into →
  LawfulCopy (ptr_reads mk R) (deep_copy sel mk into).
Proof.
  intros Hsel Hlaw. split.
  - intros h h' [l|] [v|] fp; cbn; try done. intros (y & f & Hl & HR & ->) Hf.
    exists y, f. split_and!; [rewrite Hf by set_solver; done| |done].
    eapply (reads_frame _ _ Hlaw); [done|]. intros l' Hl'. apply Hf. set_solver.
  - intros h [l|] [v|] fp; cbn; try done; [|set_solver]. intros (y & f & Hl & HR & ->).
    apply union_subseteq. split; [apply singleton_subseteq_l, elem_of_dom; eauto|].
    by eapply (reads_dom _ _ Hlaw).
  - intros h [l|] [v|] fp; cbn; try done.
    + intros (y & f & Hl & HR & ->). unfold mbind, HeapM_bind, load. rewrite Hl, Hsel.
      destruct (copy_ok _ _ Hlaw h y v f HR) as (y' & h' & f' & -> & Hs & HR' & Hd). cbn.
      destruct (alloc_fresh h' (mk y')) as [Hs' Hd'].
      eexists (Some _ : Ptr P), _, _. split; [done|]. split; [by trans h'|]. split.
      * cbn. exists y', f'. split; [by rewrite lookup_insert_eq|]. split; [|done].
        by eapply (reads_mono Hlaw).
      * pose proof (subseteq_dom _ _ Hs). set_solver.
    + intros ->. exists (None : Ptr P), h, ∅. split_and!; try done; set_solver.
Qed.

(** A value without references. *)
Definition plain_reads {A} : Reads A A := λ h p v fp, p = v ∧ fp = ∅.

Lemma plain_lawful {A} : LawfulCopy (@plain_reads A) mret.
Proof.
  split.
  - intros h h' p v fp [-> ->] _. done.
  - intros h p v fp [-> ->]. set_solver.
  - intros h p v fp [-> ->]. exists v, h, ∅. split_and!; try done; set_solver.
Qed.

(** ** Isolation *)

(** The copy is the same value; both objects stay what they are when the
    other one is changed, in whatever way. *)
Definition isolates {P V} (R : Reads (Ptr P) (option V)) (copy : Ptr P → HeapM (Ptr P)) : Prop :=
  ∀ h p v fp, R h p v fp →
  ∃ p' h' fp', copy p h = Some (p', h') ∧ (p' = None ↔ p = None) ∧
    R h' p v fp ∧ R h' p' v fp' ∧ fp' ## fp ∧
    (∀ h'', (∀ l, l ∉ fp' → h'' !! l = h' !! l) → R h'' p v fp) ∧
    (∀ h'', (∀ l, l ∉ fp → h'' !! l = h' !! l) → R h'' p' v fp').

Lemma deep_copy_isolates {P V} (R : Reads P V) sel mk into :
  (∀ x, sel (mk x) = Some x) → LawfulCopy R into →
  isolates (ptr_reads mk R) (deep_copy sel mk into).
Proof.
  intros Hsel Hinto h p v fp HR. pose proof (deep_copy_lawful R sel mk into Hsel Hinto) as Hlaw.
  destruct (copy_ok _ _ Hlaw _ _ _ _ HR) as (p' & h' & fp' & Hc & Hsub & HR' & Hd).
  pose proof (reads_dom _ _ Hlaw _ _ _ _ HR) as Hdom.
  assert (ptr_reads mk R h' p v fp) as HRh by (by eapply (reads_mono Hlaw)).
  exists p', h', fp'. split_and!; try done.
  - clear -HR HR'. by destruct p, p', v.
  - set_solver.
  - intros h'' Hf. eapply (reads_frame _ _ Hlaw); [exact HRh|]. intros l Hl. apply Hf. set_solver.
  - intros h'' Hf. eapply (reads_frame _ _ Hlaw); [exact HR'|]. intros l Hl. apply Hf. set_solver.
Qed.

Lemma deep_copy_object_isolates {P V} (R : Reads (Ptr P) (option V)) copy :
  isolates R copy → isolates R (deep_copy_object copy).
Proof.
  intros Hc h p v fp HR. destruct (Hc h p v fp HR) as (p' & h' & fp' & Hcopy & Hrest).
  exists p', h', fp'. split; [|exact Hrest].
  unfold deep_copy_object, mbind, HeapM_bind. rewrite Hcopy. by destruct p'.
Qed.

(** Two parts copied one after the other. *)
Definition pair_reads {P V Q W} (R : Reads P V) (S : Reads Q W) : Reads (P * Q) (V * W) :=
  λ h p v fp, ∃ f g, R h p.1 v.1 f ∧ S h p.2 v.2 g ∧ fp = f ∪ g.
Definition copy_pair {P Q} (c : P → HeapM P) (d : Q → HeapM Q) (p : P * Q) : HeapM (P * Q) :=
  x ← c p.1; y ← d p.2; mret (x, y).

Lemma copy_pair_lawful {P V Q W} (R : Reads P V) (S : Reads Q W) c d :
  LawfulCopy R c → LawfulCopy S d → LawfulCopy (pair_reads R S) (copy_pair c d).
Proof.
  intros Hc Hd. split.
  - intros h h' p v fp (f & g & HR & HS & ->) Hf. exists f, g. split_and!; [| |done].
    + eapply (reads_frame _ _ Hc); [done|]. intros l Hl. apply Hf. set_solver.
    + eapply (reads_frame _ _ Hd); [done|]. intros l Hl. apply Hf. set_solver.
  - intros h p v fp (f & g & HR & HS & ->).
    pose proof (reads_dom _ _ Hc _ _ _ _ HR). pose proof (reads_dom _ _ Hd _ _ _ _ HS). set_solver.
  - intros h p v fp (f & g & HR & HS & ->). unfold copy_pair, mbind, HeapM_bind.
    destruct (copy_ok _ _ Hc _ _ _ _ HR) as (x & h1 & f' & -> & H1 & HR' & Hf').
    destruct (copy_ok _ _ Hd h1 p.2 v.2 g) as (y & h2 & g' & -> & H2 & HS' & Hg');
      [by eapply (reads_mono Hd)|].
    exists (x, y), h2, (f' ∪ g'). split_and!; [done|by trans h1| |].
    + exists f', g'. split_and!; [by eapply (reads_mono Hc)|done|done].
    + pose proof (subseteq_dom _ _ H1). set_solver.
Qed.

(** A struct is copied like the tuple of its parts [parts p]; the rest of it is
    assigned. *)
Lemma struct_lawful {P V Q W} (R : Reads P V) (S : Reads Q W) into copy
    (parts : P → Q) (values : V → W) (rest : P → V → Prop) (build : P → Q → P) :
  LawfulCopy S copy →
  (∀ h p v fp, R h p v fp ↔ S h (parts p) (values v) fp ∧ rest p v) →
  (∀ p h, into p h = match copy (parts p) h with
                     | Some (q, h') => Some (build p q, h')
                     | None => None
                     end) →
  (∀ p q v, parts (build p q) = q ∧ (rest p v → rest (build p q) v)) →
  LawfulCopy R into.
Proof.
  intros Hlaw HR Hinto Hbuild. split.
  - intros h h' p v fp [HS Hrest]%HR Hf. apply HR. split; [|done].
    by eapply (reads_frame _ _ Hlaw).
  - intros h p v fp [HS _]%HR. by eapply (reads_dom _ _ Hlaw).
  - intros h p v fp [HS Hrest]%HR. rewrite Hinto.
    destruct (copy_ok _ _ Hlaw _ _ _ _ HS) as (q & h' & fp' & -> & Hsub & HS' & Hd).
    exists (build p q), h', fp'. split_and!; try done. destruct (Hbuild p q v) as [Hp Hr].
    apply HR. rewrite Hp. auto.
Qed.

(** ** What the structs are *)

Definition ConnectionManagementSpec_reads :
    Reads (ConnectionManagementSpecOf Ptr) (ConnectionManagementSpecOf option) := λ h i v fp,
  ref_reads CInt h (cmo_MaxConnections i) (cmo_MaxConnections v) fp.

Definition CopyAnnotationsSpec_reads :
    Reads (CopyAnnotationsSpecOf Ptr) (CopyAnnotationsSpecOf option) := λ h i v fp,
  ref_reads CStrings h (cao_Service i) (cao_Service v) fp.

Definition DeploymentSpec_reads : Reads (DeploymentSpecOf Ptr) (DeploymentSpecOf option) :=
  λ h i v fp,
  pair_reads (ref_reads CInt) (pair_reads (ref_reads CInt) (ref_reads CInt)) h
    (dso_DefaultInstances i, (dso_MaxInstances i, dso_MinInstances i))
    (dso_DefaultInstances v, (dso_MaxInstances v, dso_MinInstances v)) fp.

Definition MeshServiceSpec_reads : Reads (MeshServiceSpecOf Ptr) (MeshServiceSpecOf option) :=
  λ h i v fp,
  ref_reads CString h (msso_Peer i) (msso_Peer v) fp ∧ msso_Name i = msso_Name v.

Section objects.
Context (Toleration_reads : Reads TolerationP Toleration) (ObjectMeta_reads : Reads MetaP Meta)
  (ListMeta_reads : Reads ListMetaP ListMeta).

Definition GatewayClassConfigSpec_reads : Reads ConfigSpecP ConfigSpecV := λ h i v fp,
  pair_reads (ref_reads CString) (pair_reads (ref_reads CMap)
    (pair_reads (slice_reads CTolerations Toleration_reads) (pair_reads CopyAnnotationsSpec_reads
      (pair_reads DeploymentSpec_reads ConnectionManagementSpec_reads)))) h
    (gcso_ServiceType i, (gcso_NodeSelector i, (gcso_Tolerations i, (gcso_CopyAnnotations i,
      (gcso_DeploymentSpec i, gcso_ConnectionManagement i)))))
    (gcso_ServiceType v, (gcso_NodeSelector v, (gcso_Tolerations v, (gcso_CopyAnnotations v,
      (gcso_DeploymentSpec v, gcso_ConnectionManagement v))))) fp ∧
  gcso_UseHostPorts i = gcso_UseHostPorts v ∧ gcso_ConsulSpec i = gcso_ConsulSpec v ∧
  gcso_ImageSpec i = gcso_ImageSpec v ∧ gcso_LogLevel i = gcso_LogLevel v.

Definition object_reads {P V} (R : Reads P V) : Reads (ObjectOf MetaP P) (ObjectOf Meta V) :=
  λ h i v fp,
  pair_reads ObjectMeta_reads R h (oo_ObjectMeta i, oo_Spec i) (oo_ObjectMeta v, oo_Spec v) fp ∧
  oo_TypeMeta i = oo_TypeMeta v.

Definition list_reads {P V} (mk : list P → cell) (R : Reads P V) :
    Reads (ListOf Ptr ListMetaP P) (ListOf option ListMeta V) := λ h i v fp,
  pair_reads ListMeta_reads (slice_reads mk R) h
    (lo_ListMeta i, lo_Items i) (lo_ListMeta v, lo_Items v) fp ∧
  lo_TypeMeta i = lo_TypeMeta v.

Abbreviation config_reads := (object_reads GatewayClassConfigSpec_reads).
Abbreviation service_reads := (object_reads MeshServiceSpec_reads).

(** *** The copies are lawful *)

Context (Toleration_DeepCopyInto : TolerationP → HeapM TolerationP)
  (ObjectMeta_DeepCopyInto : MetaP → HeapM MetaP) (ListMeta_DeepCopyInto : ListMetaP → HeapM ListMetaP).
Context (Htol : LawfulCopy Toleration_reads Toleration_DeepCopyInto)
  (Hmeta : LawfulCopy ObjectMeta_reads ObjectMeta_DeepCopyInto)
  (Hlist : LawfulCopy ListMeta_reads ListMeta_DeepCopyInto).

Ltac solve_into :=
  unfold copy_pair, mbind, HeapM_bind, mret, HeapM_ret; cbn [fst snd];
  repeat match goal with
         | |- context [match ?m with Some _ => _ | None => _ end] => destruct m as [[]|]; cbn [fst snd]
         end; reflexivity.

Lemma ConnectionManagementSpec_lawful :
  LawfulCopy ConnectionManagementSpec_reads ConnectionManagementSpec_DeepCopyInto.
Proof.
  eapply (struct_lawful _ _ _ _ cmo_MaxConnections cmo_MaxConnections (λ _ _, True)
    (λ _ q, mkConnectionManagementSpecOf q)); [by apply (copy_ref_lawful as_int CInt)| | |done].
  - intros h p v fp. unfold ConnectionManagementSpec_reads. tauto.
  - intros p h. unfold ConnectionManagementSpec_DeepCopyInto. solve_into.
Qed.

Lemma CopyAnnotationsSpec_lawful :
  LawfulCopy CopyAnnotationsSpec_reads CopyAnnotationsSpec_DeepCopyInto.
Proof.
  eapply (struct_lawful _ _ _ _ cao_Service cao_Service (λ _ _, True)
    (λ _ q, mkCopyAnnotationsSpecOf q)); [by apply (copy_ref_lawful as_strings CStrings)| | |done].
  - intros h p v fp. unfold CopyAnnotationsSpec_reads. tauto.
  - intros p h. unfold CopyAnnotationsSpec_DeepCopyInto. solve_into.
Qed.

Lemma DeploymentSpec_lawful : LawfulCopy DeploymentSpec_reads DeploymentSpec_DeepCopyInto.
Proof.
  eapply (struct_lawful _ _ _ _
    (λ p, (dso_DefaultInstances p, (dso_MaxInstances p, dso_MinInstances p)))
    (λ p, (dso_DefaultInstances p, (dso_MaxInstances p, dso_MinInstances p))) (λ _ _, True)
    (λ _ q, mkDeploymentSpecOf q.1 q.2.1 q.2.2)).
  - apply copy_pair_lawful; [|apply copy_pair_lawful]; by apply (copy_ref_lawful as_int CInt).
  - intros h p v fp. unfold DeploymentSpec_reads. tauto.
  - intros p h. unfold DeploymentSpec_DeepCopyInto. solve_into.
  - by intros p [? [? ?]] v.
Qed.

Lemma MeshServiceSpec_lawful : LawfulCopy MeshServiceSpec_reads MeshServiceSpec_DeepCopyInto.
Proof.
  eapply (struct_lawful _ _ _ _ msso_Peer msso_Peer (λ p v, msso_Name p = msso_Name v)
    (λ p q, mkMeshServiceSpecOf (msso_Name p) q)); [by apply (copy_ref_lawful as_string CString)|done| |done].
  intros p h. unfold MeshServiceSpec_DeepCopyInto. solve_into.
Qed.

Lemma GatewayClassConfigSpec_lawful :
  LawfulCopy GatewayClassConfigSpec_reads
    (GatewayClassConfigSpec_DeepCopyInto Toleration_DeepCopyInto).
Proof using Htol.
  eapply (struct_lawful _ _ _ _
    (λ i, (gcso_ServiceType i, (gcso_NodeSelector i, (gcso_Tolerations i, (gcso_CopyAnnotations i,
      (gcso_DeploymentSpec i, gcso_ConnectionManagement i))))))
    (λ i, (gcso_ServiceType i, (gcso_NodeSelector i, (gcso_Tolerations i, (gcso_CopyAnnotations i,
      (gcso_DeploymentSpec i, gcso_ConnectionManagement i))))))
    (λ i v, gcso_UseHostPorts i = gcso_UseHostPorts v ∧ gcso_ConsulSpec i = gcso_ConsulSpec v ∧
            gcso_ImageSpec i = gcso_ImageSpec v ∧ gcso_LogLevel i = gcso_LogLevel v)
    (λ i q, mkGatewayClassConfigSpecOf q.1 q.2.1 q.2.2.1 (gcso_UseHostPorts i) (gcso_ConsulSpec i)
       (gcso_ImageSpec i) q.2.2.2.1 (gcso_LogLevel i) q.2.2.2.2.1 q.2.2.2.2.2)).
  - apply copy_pair_lawful; [by apply (copy_ref_lawful as_string CString)|].
    apply copy_pair_lawful; [by apply (copy_ref_lawful as_map CMap)|].
    apply copy_pair_lawful; [by apply (copy_slice_lawful Toleration_reads as_tolerations CTolerations Toleration_DeepCopyInto)|].
    apply copy_pair_lawful; [apply CopyAnnotationsSpec_lawful|].
    apply copy_pair_lawful; [apply DeploymentSpec_lawful|apply ConnectionManagementSpec_lawful].
  - done.
  - intros p h. unfold GatewayClassConfigSpec_DeepCopyInto. solve_into.
  - by intros p (? & ? & ? & ? & ? & ?) v.
Qed.

Lemma object_lawful {P V} (R : Reads P V) into :
  LawfulCopy R into →
  LawfulCopy (object_reads R) (λ i,
    meta ← ObjectMeta_DeepCopyInto (oo_ObjectMeta i);
    spec ← into (oo_Spec i);
    mret (mkObjectOf (oo_TypeMeta i) meta spec)).
Proof using Hmeta.
  intros Hinto. eapply (struct_lawful _ _ _ _ (λ i, (oo_ObjectMeta i, oo_Spec i))
    (λ i, (oo_ObjectMeta i, oo_Spec i)) (λ i v, oo_TypeMeta i = oo_TypeMeta v)
    (λ i q, mkObjectOf (oo_TypeMeta i) q.1 q.2)).
  - apply copy_pair_lawful; [exact Hmeta|exact Hinto].
  - done.
  - intros p h. solve_into.
  - by intros p [? ?] v.
Qed.

Lemma list_lawful {P V} (R : Reads P V) sel mk into :
  (∀ x, sel (mk x) = Some x) → LawfulCopy R into →
  LawfulCopy (list_reads mk R) (λ i,
    meta ← ListMeta_DeepCopyInto (lo_ListMeta i);
    items ← copy_slice sel mk into (lo_Items i);
    mret (mkListOf (lo_TypeMeta i) meta items)).
Proof using Hlist.
  intros Hsel Hinto. eapply (struct_lawful _ _ _ _ (λ i, (lo_ListMeta i, lo_Items i))
    (λ i, (lo_ListMeta i, lo_Items i)) (λ i v, lo_TypeMeta i = lo_TypeMeta v)
    (λ i q, mkListOf (lo_TypeMeta i) q.1 q.2)).
  - apply copy_pair_lawful; [exact Hlist|]. by apply copy_slice_lawful.
  - done.
  - intros p h. solve_into.
  - by intros p [? ?] v.
Qed.

(** C27: deep copies are isolated.  Given lawful copies of the Kubernetes
    structs inside, [DeepCopy] and [DeepCopyObject] of every type of the API
    succeed on an object that is in the heap, return nil for nil, and otherwise
    a new object of the same value, so that afterwards whatever is done to the
    locations of one of the two leaves the other as it was. *)
Theorem deep_copies_isolated :
  isolates (ptr_reads CConnectionManagementSpec ConnectionManagementSpec_reads)
    ConnectionManagementSpec_DeepCopy ∧
  isolates (ptr_reads CCopyAnnotationsSpec CopyAnnotationsSpec_reads)
    CopyAnnotationsSpec_DeepCopy ∧
  isolates (ptr_reads CDeploymentSpec DeploymentSpec_reads) DeploymentSpec_DeepCopy ∧
  isolates (ptr_reads CConfigSpec GatewayClassConfigSpec_reads)
    (GatewayClassConfigSpec_DeepCopy Toleration_DeepCopyInto) ∧
  isolates (ptr_reads CServiceSpec MeshServiceSpec_reads) MeshServiceSpec_DeepCopy ∧
  isolates (ptr_reads CConfig config_reads)
    (GatewayClassConfig_DeepCopyObject Toleration_DeepCopyInto ObjectMeta_DeepCopyInto) ∧
  isolates (ptr_reads CConfigList (list_reads CConfigs config_reads))
    (GatewayClassConfigList_DeepCopyObject Toleration_DeepCopyInto ObjectMeta_DeepCopyInto
       ListMeta_DeepCopyInto) ∧
  isolates (ptr_reads CService service_reads)
    (MeshService_DeepCopyObject ObjectMeta_DeepCopyInto) ∧
  isolates (ptr_reads CServiceList (list_reads CServices service_reads))
    (MeshServiceList_DeepCopyObject ObjectMeta_DeepCopyInto ListMeta_DeepCopyInto).
Proof using Htol Hmeta Hlist.
  assert (LawfulCopy config_reads
    (GatewayClassConfig_DeepCopyInto Toleration_DeepCopyInto ObjectMeta_DeepCopyInto)) as Hconfig
    by (apply object_lawful, GatewayClassConfigSpec_lawful).
  assert (LawfulCopy service_reads (MeshService_DeepCopyInto ObjectMeta_DeepCopyInto)) as Hservice
    by (apply object_lawful, MeshServiceSpec_lawful).
  split_and!; try apply deep_copy_object_isolates; apply deep_copy_isolates; try done.
  - apply ConnectionManagementSpec_lawful.
  - apply CopyAnnotationsSpec_lawful.
  - apply DeploymentSpec_lawful.
  - by apply GatewayClassConfigSpec_lawful.
  - apply MeshServiceSpec_lawful.
  - by apply list_lawful.
  - by apply list_lawful.
Qed.
End objects.
End heaps.

(** ** An example

    A toleration with its seconds, metadata with annotations. *)

Module DeepCopyExamples.

Definition TolerationP : Type := string * Ptr Z.
Definition MetaP : Type := string * Ptr (gmap string string).

Abbreviation example_heap := (gmap loc (@cell TolerationP MetaP string)).

Definition copy_toleration : TolerationP → @HeapM TolerationP MetaP string TolerationP :=
  copy_pair mret (copy_ref as_int CInt).
Definition copy_meta : MetaP → @HeapM TolerationP MetaP string MetaP :=
  copy_pair mret (copy_ref as_map CMap).
Definition copy_list_meta : string → @HeapM TolerationP MetaP string string := mret.

Definition toleration_reads : @Reads TolerationP MetaP string TolerationP (string * option Z) :=
  pair_reads plain_reads (ref_reads CInt).
Definition meta_reads :
    @Reads TolerationP MetaP string MetaP (string * option (gmap string string)) :=
  pair_reads plain_reads (ref_reads CMap).
Definition list_meta_reads : @Reads TolerationP MetaP string string string := plain_reads.

Definition spec : GatewayClassConfigSpecOf Ptr TolerationP :=
  mkGatewayClassConfigSpecOf (Some 2%positive) (Some 3%positive) (Some 4%positive) true
    (mkConsulSpec (mkAuthSpec false "" "" "" "") "" "" "" "" (mkPortSpec 8500 8502))
    (mkImageSpec "" "") (mkCopyAnnotationsSpecOf None) "info"
    (mkDeploymentSpecOf (Some 6%positive) None (Some 6%positive)) (mkConnectionManagementSpecOf None).

(** Two pointers of the specification are the same. *)
Definition example : example_heap :=
  list_to_map
    [(1%positive, CConfig (mkObjectOf (mkTypeMeta "GatewayClassConfig" "v1alpha1")
                             ("config", Some 7%positive) spec));
     (2%positive, CString "NodePort"); (3%positive, CMap {["disk" := "ssd"]});
     (4%positive, CTolerations [("key", Some 5%positive)]); (5%positive, CInt 30);
     (6%positive, CInt 1); (7%positive, CMap {["team" := "edge"]})].

Definition value : ObjectOf (string * option (gmap string string))
    (GatewayClassConfigSpecOf option (string * option Z)) :=
  mkObjectOf (mkTypeMeta "GatewayClassConfig" "v1alpha1")
    ("config", Some {["team" := "edge"]})
    (mkGatewayClassConfigSpecOf (Some "NodePort") (Some {["disk" := "ssd"]}) (Some [("key", Some 30%Z)])
       true (mkConsulSpec (mkAuthSpec false "" "" "" "") "" "" "" "" (mkPortSpec 8500 8502))
       (mkImageSpec "" "") (mkCopyAnnotationsSpecOf None) "info"
       (mkDeploymentSpecOf (Some 1%Z) None (Some 1%Z)) (mkConnectionManagementSpecOf None)).

Lemma example_reads : ∃ fp,
  ptr_reads CConfig (object_reads meta_reads (GatewayClassConfigSpec_reads toleration_reads))
    example (Some 1%positive) (Some value) fp.
Proof.
  eexists. cbn. eexists _, _. split; [reflexivity|]. split; [|reflexivity]. split; [|reflexivity].
  eexists _, _. split; [eexists _, _; split; [by split|split; [by split|reflexivity]]|].
  split; [|reflexivity]. split; [|done].
  eexists _, _. split; [by split|]. split; [|reflexivity].
  eexists _, _. split; [by split|]. split; [|reflexivity].
  eexists _, _. split.
  { cbn. eexists _, _. split; [reflexivity|]. split; [|reflexivity].
    eapply each_cons; [|apply each_nil]. eexists _, _.
    split; [by split|split; [by split|reflexivity]]. }
  split; [|reflexivity].
  eexists _, _. split; [reflexivity|]. split; [|reflexivity].
  eexists _, _. split; [|split; [reflexivity|reflexivity]].
  eexists _, _. split; [by split|]. split; [|reflexivity].
  eexists _, _. split; [reflexivity|]. split; [by split|reflexivity].
Qed.
End DeepCopyExamples.

Lemma deep_copies_isolated_witness : ∃ fp p' h' fp',
  GatewayClassConfig_DeepCopyObject DeepCopyExamples.copy_toleration DeepCopyExamples.copy_meta
    (Some 1%positive) DeepCopyExamples.example = Some (p', h') ∧ fp' ## fp ∧
  ptr_reads CConfig (object_reads DeepCopyExamples.meta_reads
    (GatewayClassConfigSpec_reads DeepCopyExamples.toleration_reads))
    h' p' (Some DeepCopyExamples.value) fp'.
Proof.
  destruct DeepCopyExamples.example_reads as [fp HR].
  destruct (deep_copies_isolated DeepCopyExamples.toleration_reads DeepCopyExamples.meta_reads
    DeepCopyExamples.list_meta_reads DeepCopyExamples.copy_toleration DeepCopyExamples.copy_meta
    DeepCopyExamples.copy_list_meta) as (_ & _ & _ & _ & _ & Hcopy & _).
  - apply copy_pair_lawful; [apply plain_lawful|by apply (copy_ref_lawful as_int CInt)].
  - apply copy_pair_lawful; [apply plain_lawful|by apply (copy_ref_lawful as_map CMap)].
  - apply plain_lawful.
  - destruct (Hcopy _ _ _ _ HR) as (p' & h' & fp' & Hc & _ & _ & HR' & Hd & _).
    by exists fp, p', h', fp'.
Defined.

