(* ===== verification/Logging.v ===== *)
(** * Loggers and their output ([internal/grpc/logging.go],
    [internal/k8s/logger.go], [internal/common/logger.go],
    [internal/common/writer.go], [internal/envoy/sds.go])

    Adapters from the loggers that gRPC and controller-runtime expect to the
    one of the process, and the writer that a gateway's process shares between
    its logger and Envoy.  The logger of the process is hclog's: a parameter
    that emits or drops a message by its level. *)

From S2P Require Import Prelude Errors.

(** ** The logger of the process *)

Inductive log_level : Type := Trace | Debug | Info | Warn | ErrorLevel.

Definition severity (l : log_level) : nat :=
  match l with Trace => 0 | Debug => 1 | Info => 2 | Warn => 3 | ErrorLevel => 4 end.

(** A value that is logged: its text and whether it is a string. *)
Record operand : Type := mkOperand { op_text : string; op_string : bool }.

Definition str (s : string) : operand := mkOperand s true.

Record log_entry : Type := mkEntry {
  le_level : log_level;
  le_names : list string;       (* outermost first *)
  le_message : string;
  le_args : list operand        (* keys and values *)
}.

(** hclog documents that [IsInfo] and the like tell whether messages of a level
    are emitted, and a logger emits everything from its level up. *)
Record hclog : Type := mkHclog {
  hc_emits : log_level → bool;
  hc_names : list string;
  hc_implied : list operand
}.

Definition threshold (l : hclog) : Prop :=
  ∀ a b, severity a ≤ severity b → hc_emits l a = true → hc_emits l b = true.

Definition hc_log (l : hclog) (level : log_level) (message : string) (args : list operand)
    (out : list log_entry) : list log_entry :=
  if hc_emits l level then out ++ [mkEntry level (hc_names l) message (hc_implied l ++ args)] else out.
Definition hc_With (l : hclog) (args : list operand) : hclog :=
  mkHclog (hc_emits l) (hc_names l) (hc_implied l ++ args).
Definition hc_Named (l : hclog) (name : string) : hclog :=
  mkHclog (hc_emits l) (hc_names l ++ [name]) (hc_implied l).

(** ** gRPC *)

(** [fmt.Sprint]: a space between operands neither of which is a string. *)
Fixpoint fmt_Sprint (args : list operand) : string :=
  match args with
  | [] => ""
  | a :: rest =>
      match rest with
      | b :: _ =>
          op_text a +:+ (if negb (op_string a) && negb (op_string b) then " " else "") +:+ fmt_Sprint rest
      | [] => op_text a
      end
  end.

(** [fmt.Sprintln]: a space between all operands, and a newline. *)
Definition fmt_Sprintln (args : list operand) : string :=
  strings_Join (op_text <$> args) " " +:+ String "010" "".

Definition infoLog : Z := 0.
Definition warningLog : Z := 1.
Definition errorLog : Z := 2.
Definition fatalLog : Z := 3.

(** What a call leaves: the log, and the status the process exits with. *)
Definition logged : Type := list log_entry * option Z.

Section grpc.
Context (Sprintf : string → list operand → string) (l : hclog).

Definition exit (out : list log_entry) : logged := (out, Some 1%Z).

Definition grpc_Info (args : list operand) (out : list log_entry) : logged :=
  (hc_log l Info (fmt_Sprint args) [] out, None).
Definition grpc_Infoln (args : list operand) (out : list log_entry) : logged :=
  (hc_log l Info (fmt_Sprint args) [] out, None).
Definition grpc_Infof (format : string) (args : list operand) (out : list log_entry) : logged :=
  (hc_log l Info (Sprintf format args) [] out, None).
Definition grpc_Warning (args : list operand) (out : list log_entry) : logged :=
  (hc_log l Warn (fmt_Sprint args) [] out, None).
Definition grpc_Warningln (args : list operand) (out : list log_entry) : logged :=
  (hc_log l Warn (fmt_Sprint args) [] out, None).
Definition grpc_Warningf (format : string) (args : list operand) (out : list log_entry) : logged :=
  (hc_log l Warn (Sprintf format args) [] out, None).
Definition grpc_Error (args : list operand) (out : list log_entry) : logged :=
  (hc_log l ErrorLevel (fmt_Sprint args) [] out, None).
Definition grpc_Errorln (args : list operand) (out : list log_entry) : logged :=
  (hc_log l ErrorLevel (fmt_Sprint args) [] out, None).
Definition grpc_Errorf (format : string) (args : list operand) (out : list log_entry) : logged :=
  (hc_log l ErrorLevel (Sprintf format args) [] out, None).
Definition grpc_Fatal (args : list operand) (out : list log_entry) : logged :=
  exit (hc_log l ErrorLevel (fmt_Sprint args) [] out).
Definition grpc_Fatalln (args : list operand) (out : list log_entry) : logged :=
  exit (hc_log l ErrorLevel (fmt_Sprint args) [] out).
Definition grpc_Fatalf (format : string) (args : list operand) (out : list log_entry) : logged :=
  exit (hc_log l ErrorLevel (Sprintf format args) [] out).

Definition grpc_V (level : Z) : bool :=
  if bool_decide (level = infoLog) then
    hc_emits l Info || hc_emits l Debug || hc_emits l Trace
  else if bool_decide (level = warningLog) then
    hc_emits l Warn || hc_emits l Info || hc_emits l Debug || hc_emits l Trace
  else if bool_decide (level = errorLog) then
    hc_emits l ErrorLevel || hc_emits l Warn || hc_emits l Info || hc_emits l Debug || hc_emits l Trace
  else false.
End grpc.

(** [V] tells whether messages of a severity are emitted. *)
Lemma V_emits l : threshold l →
  grpc_V l infoLog = hc_emits l Info ∧ grpc_V l warningLog = hc_emits l Warn ∧
  grpc_V l errorLog = hc_emits l ErrorLevel ∧ ∀ level, (level < 0 ∨ 3 ≤ level)%Z → grpc_V l level = false.
Proof.
  intros Ht.
  pose proof (Ht Trace Debug ltac:(cbn; lia)) as H1. pose proof (Ht Debug Info ltac:(cbn; lia)) as H2.
  pose proof (Ht Info Warn ltac:(cbn; lia)) as H3. pose proof (Ht Warn ErrorLevel ltac:(cbn; lia)) as H4.
  split_and!; [unfold grpc_V; cbn;
    destruct (hc_emits l Trace), (hc_emits l Debug), (hc_emits l Info), (hc_emits l Warn), (hc_emits l ErrorLevel);
    first [reflexivity|discriminate (H1 eq_refl)|discriminate (H2 eq_refl)|discriminate (H3 eq_refl)
          |discriminate (H4 eq_refl)]..|].
  intros level Hl. unfold grpc_V, infoLog, warningLog, errorLog.
  rewrite !bool_decide_eq_false_2 by lia. done.
Qed.

(** That is not what the interface asks for: no verbosity is at least exactly
    the levels that [V] holds of, when only errors are emitted. *)
Theorem V_is_no_verbosity l :
  threshold l → hc_emits l Info = false → hc_emits l ErrorLevel = true →
  ¬ ∃ verbosity : Z, ∀ level, (0 ≤ level ≤ 2)%Z → grpc_V l level = bool_decide (level ≤ verbosity)%Z.
Proof.
  intros Ht Hi He (v & Hv). destruct (V_emits l Ht) as (H0 & _ & H2 & _).
  rewrite Hv, Hi in H0 by (unfold infoLog; lia). rewrite Hv, He in H2 by (unfold errorLog; lia).
  apply bool_decide_eq_false in H0. apply bool_decide_eq_true in H2. unfold infoLog, errorLog in *. lia.
Qed.

(** The variants with [ln] do not separate strings as [fmt.Println] does. *)
Theorem ln_joins_strings (l : hclog) (a b : string) (out : list log_entry) :
  hc_emits l Info = true →
  grpc_Infoln l [str a; str b] out = (out ++ [mkEntry Info (hc_names l) (a +:+ b) (hc_implied l ++ [])], None) ∧
  fmt_Sprintln [str a; str b] = a +:+ " " +:+ b +:+ String "010" "".
Proof.
  intros He. unfold grpc_Infoln, hc_log. rewrite He. split; [done|].
  unfold fmt_Sprintln. cbn. by rewrite !append_assoc.
Qed.

(** ** controller-runtime *)

Definition fromHCLogger (l : hclog) : hclog := l.

Definition logr_Enabled (level : Z) : bool := true.
Definition logr_Info (l : hclog) (level : Z) (msg : string) (keysAndValues : list operand)
    (out : list log_entry) : list log_entry :=
  hc_log l Info msg ([str "info"; str msg] ++ keysAndValues) out.
Definition logr_Error (l : hclog) (err : operand) (msg : string) (keysAndValues : list operand)
    (out : list log_entry) : list log_entry :=
  hc_log l ErrorLevel msg ([str "error"; err] ++ keysAndValues) out.
Definition logr_WithValues (l : hclog) (keysAndValues : list operand) : hclog := hc_With l keysAndValues.
Definition logr_WithName (l : hclog) (name : string) : hclog := hc_Named l name.

(** ** go-control-plane *)

Definition logFunc (Sprintf : string → list operand → string) (l : hclog) (level : log_level)
    (msg : string) (args : list operand) (out : list log_entry) : list log_entry :=
  hc_log l level (Sprintf msg args) [] out.

(** The functions for the levels of its logger, from debug to error. *)
Definition wrapEnvoyLogger (Sprintf : string → list operand → string) (l : hclog) :
    list (string → list operand → list log_entry → list log_entry) :=
  logFunc Sprintf l <$> [Debug; Info; Warn; ErrorLevel].

(** ** The options of the logger *)

(** [hclog.LoggerOptions] as the commands set them. *)
Record LoggerOptions : Type := mkLoggerOptions {
  lo_Level : string;
  lo_JSONFormat : bool;
  lo_IncludeLocation : bool
}.

Definition CreateLogger (New : LoggerOptions → hclog) (logLevel : string) (asJSON : bool) (name : string) : hclog :=
  hc_Named (New (mkLoggerOptions logLevel asJSON true)) name.

(** ** The shared writer *)

(** Goroutines write messages; the writer below takes a message piece by piece.
    [w_holder] is the goroutine that holds the mutex, with what is left of its
    message. *)
Record synchronizedWriter : Type := mkWriter {
  sw_output : list ascii;
  sw_holder : option (nat * list ascii)
}.

Definition SynchronizeWriter : synchronizedWriter := mkWriter [] None.

(** [sw_done] is the messages that were begun, in their order. *)
Inductive write_step : synchronizedWriter * list (nat * list ascii) →
    synchronizedWriter * list (nat * list ascii) → Prop :=
  | WriteLock out begun g p :
      write_step (mkWriter out None, begun) (mkWriter out (Some (g, p)), begun ++ [(g, p)])
  | WritePiece out begun g piece rest :
      write_step (mkWriter out (Some (g, piece ++ rest)), begun) (mkWriter (out ++ piece) (Some (g, rest)), begun)
  | WriteUnlock out begun g :
      write_step (mkWriter out (Some (g, [])), begun) (mkWriter out None, begun).

(** The messages of the goroutines are not mixed: when nobody writes, the
    output is the messages one after another, and in between a message is only
    followed by what is left of it. *)
Theorem writes_not_mixed (w : synchronizedWriter) (begun : list (nat * list ascii)) :
  rtc write_step (SynchronizeWriter, []) (w, begun) →
  sw_output w ++ default [] (snd <$> sw_holder w) = concat begun.*2.
Proof.
  intros Hrun.
  refine (rtc_preserve write_step
    (λ a, sw_output a.1 ++ default [] (snd <$> sw_holder a.1) = concat a.2.*2) _ _ _ Hrun _); [|done].
  intros a b Hstep. destruct Hstep as [out begun' g p|out begun' g piece rest|out begun' g]; cbn; intros Heq.
  - rewrite app_nil_r in Heq. rewrite fmap_app, concat_app, <- Heq. cbn. by rewrite app_nil_r.
  - by rewrite <- Heq, <- app_assoc.
  - done.
Qed.
