(* ===== verification/Cli.v ===== *)
(** * The command line ([main.go], [internal/version],
    [internal/commands/version])

    The program looks its first argument up among three commands and exits
    with the status of the command.  The lookup is mitchellh/cli's: a parameter
    with its documented behaviour.  What the commands [server] and [exec] do is
    in [Commands], [Server] and [Exec]. *)

From S2P Require Import Prelude Errors.

(** ** The version *)

(** The variables that the build sets. *)
Record build_info : Type := mkBuildInfo {
  GitCommit : string;
  GitDescribe : string;
  Version : string;
  VersionPrerelease : string
}.

Fixpoint remove_char (c : ascii) (s : string) : string :=
  match s with
  | EmptyString => ""
  | String d s => if Ascii.eqb d c then remove_char c s else String d (remove_char c s)
  end.

(** [strings.HasSuffix] *)
Fixpoint strings_HasSuffix (s suffix : string) : bool :=
  String.eqb s suffix ||
  match s with
  | EmptyString => false
  | String _ s => strings_HasSuffix s suffix
  end.

(** Before the quotes are stripped off. *)
Definition composed_version (b : build_info) : string :=
  let version := if bool_decide (GitDescribe b ≠ "") then GitDescribe b else Version b in
  let release := if bool_decide (GitDescribe b = "") && bool_decide (VersionPrerelease b = "")
                 then "dev" else VersionPrerelease b in
  if bool_decide (release ≠ "") then
    let version := if strings_HasSuffix version ("-" +:+ release) then version
                   else version +:+ "-" +:+ release in
    if bool_decide (GitCommit b ≠ "") then version +:+ " (" +:+ GitCommit b +:+ ")" else version
  else version.

Definition GetHumanVersion (b : build_info) : string := remove_char "'" (composed_version b).

(** ** The commands *)

Inductive command : Type :=
  | ServerCommand
  | ExecCommand
  | VersionCommand (version : string).

(** The status a command exits with and what it prints for the user. *)
Definition command_result : Type := Z * list string.

Definition version_Run (version : string) (args : list string) : command_result :=
  (0%Z, ["consul-api-gateway " +:+ version]).

Definition initializeCommands (b : build_info) : list (string * command) :=
  [("server", ServerCommand); ("exec", ExecCommand); ("version", VersionCommand (GetHumanVersion b))].

Definition hidden_commands : list string := ["exec"; "server"].
(** The commands that the help lists. *)
Definition helpFunc (commands : list (string * command)) : list string :=
  List.filter (λ k, negb (bool_decide (k ∈ hidden_commands))) commands.*1.

Section main.
(** The other two commands, and [cli.CLI.Run] for the version, the commands and
    those that help lists; its error is logged. *)
Context (run_server run_exec : list string → command_result).
Context (CLI_Run : string → list (string * command) → list string → (command → list string → command_result) →
                   list string → command_result * option error).

Definition command_Run (c : command) (args : list string) : command_result :=
  match c with
  | ServerCommand => run_server args
  | ExecCommand => run_exec args
  | VersionCommand version => version_Run version args
  end.

Definition main_run (b : build_info) (args : list string) : Z :=
  let commands := initializeCommands b in
  (CLI_Run (GetHumanVersion b) commands (helpFunc commands) command_Run args).1.1.

(** A command that is named by the first argument is run with the others,
    unless they ask for help. *)
Class CommandLookup : Prop := {
  lookup_command version commands include exec name args c :
    (name, c) ∈ commands → NoDup commands.*1 →
    "-h" ∉ args → "-help" ∉ args → "--help" ∉ args → "-v" ∉ args → "-version" ∉ args → "--version" ∉ args →
    CLI_Run version commands include exec (name :: args) = (exec c args, None)
}.

(** The process exits with the status of the command that is named. *)
Theorem run_dispatches `{CommandLookup} (b : build_info) (args : list string) :
  "-h" ∉ args → "-help" ∉ args → "--help" ∉ args → "-v" ∉ args → "-version" ∉ args → "--version" ∉ args →
  main_run b ("server" :: args) = (run_server args).1 ∧
  main_run b ("exec" :: args) = (run_exec args).1 ∧
  main_run b ("version" :: args) = 0%Z ∧
  helpFunc (initializeCommands b) = ["version"].
Proof using Type*.
  intros H1 H2 H3 H4 H5 H6.
  assert (NoDup (initializeCommands b).*1) as Hnd by (apply (bool_decide_unpack _); by vm_compute).
  unfold main_run. split_and!; [| | |done].
  - by rewrite (lookup_command _ _ _ _ "server" args ServerCommand) by (done || by left).
  - by rewrite (lookup_command _ _ _ _ "exec" args ExecCommand) by (done || by right; left).
  - by rewrite (lookup_command _ _ _ _ "version" args (VersionCommand (GetHumanVersion b)))
      by (done || by right; right; left).
Qed.
End main.

(** ** The text of the version *)

Lemma strings_HasSuffix_spec s t : strings_HasSuffix s t = true ↔ ∃ p, s = p +:+ t.
Proof.
  induction s as [|c s IH]; cbn.
  - rewrite orb_false_r. destruct t; [split; [by exists ""|done]|]. split; [done|]. by intros ([] & ?).
  - rewrite orb_true_iff, IH. change (String.eqb (String c s) t = true ∨ (∃ p, s = p +:+ t) ↔ ∃ p, String c s = p +:+ t).
    rewrite String.eqb_eq. split.
    + intros [<-|[p ->]]; [by exists ""|by exists (String c p)].
    + intros ([|d p] & Hp); [by left|]. injection Hp as -> ->. right. by exists p.
Qed.

Lemma remove_char_app c a b : remove_char c (a +:+ b) = remove_char c a +:+ remove_char c b.
Proof.
  induction a as [|d a IH]; [done|]. change (String d a +:+ b) with (String d (a +:+ b)).
  cbn [remove_char]. destruct (Ascii.eqb d c); [exact IH|].
  change (String d (remove_char c (a +:+ b)) = String d (remove_char c a +:+ remove_char c b)). by rewrite IH.
Qed.

Lemma remove_char_none c s : strings_Contains (remove_char c s) (String c "") = false.
Proof.
  induction s as [|d s IH]; [done|]. cbn. destruct (Ascii.eqb_spec d c) as [|Hne]; [done|].
  cbn [strings_Contains String.prefix]. destruct (Ascii.ascii_dec c d) as [->|_]; [done|]. done.
Qed.

(** The version has no quotes.  A build of a tagged release shows the tag; any
    other build shows its marker, once even if the tag has it already, and the
    commit where it is known. *)
Theorem human_version (b : build_info) :
  strings_Contains (GetHumanVersion b) "'" = false ∧
  (GitDescribe b ≠ "" → VersionPrerelease b = "" → GetHumanVersion b = remove_char "'" (GitDescribe b)) ∧
  (VersionPrerelease b ≠ "" → ∃ p,
     GetHumanVersion b = remove_char "'" (p +:+ "-" +:+ VersionPrerelease b) +:+
       (if decide (GitCommit b = "") then "" else " (" +:+ remove_char "'" (GitCommit b) +:+ ")") ∧
     let version := if decide (GitDescribe b = "") then Version b else GitDescribe b in
     (p +:+ "-" +:+ VersionPrerelease b = version ∨ p = version)).
Proof.
  split; [apply remove_char_none|]. unfold GetHumanVersion, composed_version. split.
  - intros Hd Hp. rewrite Hp. rewrite (bool_decide_eq_true_2 (GitDescribe b ≠ "")) by done.
    by rewrite (bool_decide_eq_false_2 (GitDescribe b = "")) by done.
  - intros Hp. rewrite (bool_decide_eq_false_2 (VersionPrerelease b = "")) by done. rewrite andb_false_r.
    rewrite (bool_decide_eq_true_2 (VersionPrerelease b ≠ "")) by done.
    set (version := if bool_decide (GitDescribe b ≠ "") then _ else _).
    assert ((if decide (GitDescribe b = "") then Version b else GitDescribe b) = version) as ->.
    { unfold version. case_decide; case_bool_decide; done. }
    set (marked := if strings_HasSuffix version _ then _ else _).
    assert (∃ p, marked = p +:+ "-" +:+ VersionPrerelease b ∧
      (p +:+ "-" +:+ VersionPrerelease b = version ∨ p = version)) as (p & Hm & Hor).
    { unfold marked. destruct (strings_HasSuffix version _) eqn:Hs; [|by exists version; eauto].
      apply strings_HasSuffix_spec in Hs as [p Heq]. exists p. by eauto. }
    exists p. split; [|done]. rewrite Hm. case_decide as Hc.
    + rewrite bool_decide_eq_false_2 by (by intros []). by rewrite append_nil_r.
    + rewrite bool_decide_eq_true_2 by done. rewrite remove_char_app. f_equal.
      by rewrite !remove_char_app.
Qed.

(** The behaviour that is assumed of mitchellh/cli can be had. *)
Definition simple_Run (version : string) (commands : list (string * command)) (include : list string)
    (exec : command → list string → command_result) (args : list string) : command_result * option error :=
  match args with
  | [] => ((127%Z, include), None)
  | name :: args =>
      match List.find (λ kc, String.eqb kc.1 name) commands with
      | Some kc => (exec kc.2 args, None)
      | None => ((127%Z, include), None)
      end
  end.

#[export] Instance simple_lookup : CommandLookup simple_Run.
Proof.
  split. intros version commands include exec name args c Hin Hnd _ _ _ _ _ _. cbn.
  assert (List.find (λ kc, String.eqb kc.1 name) commands = Some (name, c)) as ->; [|done].
  induction commands as [|[k d] commands IH]; [by apply elem_of_nil in Hin|]. cbn in *.
  apply NoDup_cons in Hnd as [Hk Hnd]. apply elem_of_cons in Hin as [[= -> ->]|Hin].
  - by rewrite String.eqb_refl.
  - destruct (String.eqb_spec k name) as [->|]; [|by apply IH].
    destruct Hk. apply list_elem_of_fmap. by exists (name, c).
Qed.
